(* ===== verification/_CoqProject ===== *)
-Q . S2P
Prelude.v
JsMap.v
JsString.v
Conflict.v
Breaker.v
Queue.v
Ids.v
JsVal.v
Metrics.v
StatusMap.v
Platform.v
Huly.v
Caches.v
Mongo.v
Store.v
Credentials.v
Engine.v
Sync.v
BindingLoader.v
TxSubscriber.v
Backfill.v
FieldSync.v
Issues.v
SyncToy.v
MergeRequests.v
IssuesProofs.v
IssuesLocal.v
MergeRequestsProofs.v
MergeRequestsRemote.v
MergeRequestsLocal.v
IssuesReplay.v
IssuesExamples.v
Webhook.v
MergeRequestsExamples.v
Pipeline.v
Epics.v
EpicsProofs.v
Notes.v
NotesProofs.v
Reviews.v
ReviewsProofs.v
Json.v
RateLimit.v
BaseUrl.v
GitLabMaps.v
AdapterTypes.v
GitLabClient.v
GitLabClientProofs.v
GitLabGraphQL.v
Lifecycle.v
LifecycleProofs.v
BindingApi.v
BindingApiProofs.v
Migrations.v
MigrationsProofs.v
Cookies.v
AttachmentLinks.v
Attachments.v
Auth.v
TokenRefresh.v
OAuth.v
OAuthProofs.v
SuggestionParser.v
Suggestions.v
Config.v
Iterations.v
ManagersQuiet.v
System.v
SystemProofs.v
SystemLedger.v
SystemTtl.v
SystemDrains.v
SystemFlow.v
SystemExamples.v
TokenBucket.v
Upload.v
HttpServer.v
HttpServerProofs.v
HttpServerExamples.v
