(* ===== verification/Prelude.v ===== *)
(** * Verification of the GitLab sync pod

    The program under src/src keeps Huly workspaces and GitLab projects in
    step.  A _binding_ ties a Huly project to a GitLab project.  Events reach
    the sync engine from three sides: webhooks of GitLab, transactions of the
    Huly workspace, and periodic backfills.  The engine queues them by
    resource, and hands each to the sync manager of its kind, which reads and
    writes Huly through a platform client, GitLab through the adapter, and the
    state store (MongoDB).  This library embeds that program shallowly:
    every function is a Rocq function over explicit state in the monad [M] of
    this file (state and exceptions), with the names of the source.

    ** The files

    Foundations, with no counterpart of their own in the source: this file
    (results, the monad and its rules, list lemmas, tactics), JsMap (objects
    and Maps: insertion order, with an equivalence that forgets it), JsString,
    JsVal (dynamic values), Platform (clocks, dates and object ids as a class
    with laws), Mongo (a collection as a class with laws: scan, insert,
    update, upsert under unique indexes; [list] is the instance of the
    examples), Huly (the platform client as a class with laws, and an
    in-memory workspace), Json (the JSON texts of cookies and answers), SyncToy
    (a small world for closed examples).

    Event intake and dispatch:
    - Conflict: sync/conflict.ts; Breaker: sync/breaker.ts; Queue:
      sync/queue.ts; Ids: the key parsers and sync/multi-instance.ts;
      Metrics: metrics.ts.
    - Store: state/idmap.ts, dedup.ts, inflight.ts, cursors.ts, bindings.ts
      and the unique and TTL indexes of store.ts.
      Credentials: state/credentials.ts and user-credentials.ts.
    - Engine: sync/engine.ts over any managers.  Webhook: http/webhook.ts.
      TxSubscriber: sync/tx-subscription.ts, originated-marker.ts and their
      registry in index.ts.  Backfill: sync/backfill.ts.

    The managers, each over the shared world of Sync (huly/users.ts, the
    binding context, the Markdown entry points), BindingLoader
    (sync/binding-loader.ts, auth/index.ts, huly/projects.ts), StatusMap
    (sync/status-map.ts, mr-status-map.ts), Caches
    (sync/bi-directional-cache.ts and the three caches made of it) and
    FieldSync (the field-by-field comparison):
    - Issues: sync/issues.ts (proofs: IssuesProofs, IssuesLocal,
      IssuesReplay, IssuesExamples).
    - MergeRequests: sync/mr.ts, mr-helpers.ts, mr-approvals.ts and the three
      mixin files (proofs: MergeRequestsProofs, MergeRequestsRemote,
      MergeRequestsLocal, MergeRequestsExamples).
    - Notes: sync/notes.ts, deferred-parent.ts (NotesProofs).
    - Reviews: sync/mr-review.ts (ReviewsProofs).
    - Epics: sync/epics.ts (EpicsProofs); Pipeline: sync/pipeline.ts.
    - Migrations: sync/mixin-migration.ts, reviewer-migration.ts
      (MigrationsProofs).

    The GitLab adapter, over an abstract network (class [GitLabClient.Http]):
    RateLimit (adapter/rate-limit.ts), BaseUrl (util/url-validation.ts),
    GitLabMaps (the mapping functions of adapter/gitlab-client.ts),
    AdapterTypes (the interfaces of adapter/types.ts and of the raw answers,
    as data), GitLabClient (its REST methods; GitLabClientProofs), Upload (its
    multipart upload), GitLabGraphQL (adapter/gitlab-graphql-client.ts,
    capabilities.ts and the composite fetches), Iterations
    (sync/iterations.ts).

    The admin side: Lifecycle (sync/binding-lifecycle.ts,
    adapter/webhooks.ts, webhook-payload.ts, the factory of index.ts;
    LifecycleProofs) and BindingApi (http/binding.ts, auth-middleware.ts;
    BindingApiProofs).  Config: config.ts, the levels of logging.ts and
    sync/service-account-resolution.ts.

    Attachments: AttachmentLinks (sync/attachment-links.ts) finds and rewrites
    links; Attachments (sync/attachments.ts, huly-attachment-store.ts,
    state/attachment-mirror.ts) copies the files both ways.

    Users: Cookies (http/cookie-auth.ts, user-session.ts,
    util/secret-rotation.ts), Auth (auth/access-token.ts and the credential
    list), TokenRefresh (auth/refresh.ts), OAuth (http/oauth.ts,
    user-oauth.ts, state/oauth-state.ts; OAuthProofs), SuggestionParser
    (public/user-ui/suggestion-parser.js), Suggestions
    (http/user-suggestions.ts, adapter/suggestion-apply.ts), TokenBucket
    (http/rate-limit.ts).

    The whole: System composes the store, the loader, the six managers, the
    engine, the subscribers and the webhook as index.ts does, with boot,
    restart and shutdown, as one step relation ([sys_step]).  What the
    managers hand to the engine during a step is enqueued at the end of it.
    ManagersQuiet and SystemProofs show that no manager, whatever it does,
    touches the engine's collections; SystemLedger, SystemTtl and SystemFlow
    build on that, and SystemDrains shows that processing ends;
    SystemExamples runs a small deployment.  HttpServer adds
    http/index.ts, health.ts, async-handler.ts and the rest of index.ts: all
    routers, limiters and timers around the composed program, with the end of
    the process as an outcome ([Crashed]); HttpServerProofs,
    HttpServerExamples.
    ** What the theorems show

    Delivery: the engine writes ahead and recovers after a crash
    ([Engine.engine_write_ahead]), handles a webhook event at most once
    ([engine_at_most_once], on [Store.dedup_exactly_once] over all
    interleavings), never processes a key twice at a time and drains
    ([Queue.queue_sequential], [queue_drains], while nothing was evicted),
    and each dispatch has exactly the effects of its outcome, also when the
    database rejects ([dispatch_spec]).  Of the composed program: every queued webhook event
    has its own inflight document ([system_ledger]), which only its
    processing or a late restart removes ([no_event_lost]); an event that is
    over stays over while its record lasts, MongoDB's expiry included
    ([finished_until_expired]); processing alone always comes to an end
    ([processing_drains]); a sweep records what GitLab lists
    ([swept_issues_recorded]).  The server refines the composed program
    ([server_refines_system]), so these hold of it too.  The breaker,
    last-write-wins resolution, the transaction subscriber and the project
    registry refine abstract specifications ([breaker_refines_spec], [resolveLww_refines_spec],
    [tx_delivery], [registry_refines]).  The id map stays a partial bijection
    ([idmap_partial_bijection]).

    Mirroring: what applying a GitLab record does to the workspace, for
    created and known issues, merge requests, notes, threads and epics, and
    that a second delivery changes nothing ([issue_redelivery]); what a Huly
    change sends to GitLab ([mr_local_pushed], [issue_local_pushed]).

    Boundaries: which requests change anything ([request_authorized], of
    every route; [webhook_authorized], [pause_stops_webhooks],
    [api_authorized]), how many pass ([burst_limited]), what the adapter
    returns ([confidential_never_returned], [mr_listing_complete],
    [composite_by_path]), that its casts tell the truth ([mappers_typed]), and
    that its loops end ([retry_terminates], [note_deferral_terminates]).

    Users: who a cookie names ([cookie_signed], [session_cookie_accepted]),
    the OAuth flows ([link_flow], [callback_single_use],
    [user_callback_scope]), the fate of a token ([refresh_outcome]).  Files:
    rewriting links keeps the text ([rewrite_structure]), an upload is read
    back ([upload_read_back]), suggestion blocks lie where they should
    ([blocks_delimited]).

    Several theorems state where the program falls short of its purpose: a
    raw hook body is never applied ([issue_hook_body_never_applied],
    [mr_hook_body_never_applied]), Huly comments are never pushed
    ([huly_comments_never_pushed]), every context is single-instance
    ([every_context_single_instance]), listings stop at a page
    ([issue_listing_first_page]), a rotation can lose its hook
    ([rotation_loses_hook]) and the process ([rotation_stops_server]), a
    migration its reviewers ([reviewers_lost_after_split]), an event that
    waits too long its document ([waiting_event_lost]), and a lookalike host
    gets the token ([upload_host_unchecked]).

    ** Conventions

    - What is not under src/src is a parameter: the platform client, GitLab's
      network, MongoDB, the cipher, SHA-256, base64, the Markdown library,
      URL parsing and the clock are classes or arguments, with the documented
      behaviour the code relies on as laws; closed examples instantiate them.
    - The laws of the platform client say nothing of a call that throws.
      Whether [updateMixin] takes an attribute set to [undefined] away, as
      mixin-migration.ts relies on and then checks, is a parameter of the
      laws ([undefined_removes]); the theorems hold either way, and
      [mixin_split_converges] says what the migration leaves in each case.
    - MongoDB answers: its statements fail only on a unique index or a
      malformed id.  The exception is [Engine.dispatch], whose two statements
      may reject ([DbFaults], [dispatch_spec]); the running system takes it
      with a database that answers ([answering]).
    - The Huly and GitLab clients of all workspaces and instances are one
      abstract state each.  The attachment mirror is a parameter of System,
      assumed not to touch the engine's collections.
    - A rejected promise that nothing awaits ends the Node process
      ([HttpServer.Crashed]); a restart follows.
    - JavaScript numbers are [Z]: identifiers, counts and millisecond times,
      all below 2^53 in the program; NaN, where it matters, is an explicit
      value ([None] of a date, [VNaN] of a number).  The token bucket alone
      computes with fractions; TokenBucket uses binary64 ([SpecFloat]).
    - [await] points matter where two computations share state: the queue,
      the dedup check and the engine are step systems over all interleavings.
      Elsewhere a function is one step, and [Promise.all] and [allSettled]
      run their parts in turn.
    - Fuel: page loops and the wait of the mixin migration take fuel and
      answer [None] without it; [mr_listing_complete] gives the fuel that is
      enough.  Retries are at most [MAX_RETRIES] = 5 and the walk to the
      top-level group at most 32 requests, as in the source.

    ** Not modelled

    Pure I/O: opening and closing the MongoDB, platform and HTTP connections,
    writing the log, the security and CORS headers, serving static files.
    Libraries the sources only call: the Markdown parser and serializer with
    their set-up (markdown/extensions.ts and the table override of
    huly-to-gfm.ts, which is made of the serializer's own state), express,
    body-parser.  Code without a caller: the link-through helpers of
    markdown/attachments.ts, the drainAll timer of the queue.  The browser
    scripts of public/user-ui other than the suggestion parser, which are DOM
    code.  MongoDB's expiry runs between steps in SystemTtl and, for OAuth
    rows, in HttpServer; SystemLedger speaks of histories without it.
*)

From Stdlib Require Export ZArith Lia.
From stdpp Require Export base decidable sets strings pretty numbers option list.

Set Default Goal Selector "!".

Declare Scope js_scope.
Delimit Scope js_scope with js.

(** ** Failures

    What a JavaScript [throw] (or a rejected promise) carries.  The
    constructors are the error classes the modelled code tells apart. *)
Inductive exn :=
  | GitLabApiError (statusCode : Z) (message : string)
  | ApprovalActionError (message : string)
  | AuthError (message : string)
  | NotFoundError (resource : string)
  | RateLimitError (message : string) (retryAfterMs : Z)
  | ConfidentialIssueError (projectId iid : string)
  | ConfidentialMergeRequestError (iid : Z)
  | ConfidentialEpicError (iid groupId : string)
  | MongoDuplicateKey
  | JsError (message : string).

#[export] Instance exn_eq_dec : EqDecision exn.
Proof. solve_decision. Defined.

(** The outcome of a computation: a value or an exception. *)
Inductive res (A : Type) :=
  | Ok (a : A)
  | Throw (e : exn).
Arguments Ok {A} a.
Arguments Throw {A} e.

Definition res_ok {A} (r : res A) : bool :=
  match r with Ok _ => true | Throw _ => false end.

(** ** The effect monad

    [M S A] is an [async] function body over the state [S]: it reads and
    writes the state and either returns or throws.  As in JavaScript, a
    throw keeps every state change made before it. *)
Definition M (S A : Type) : Type := S -> res A * S.

Section Monad.
Context {S : Type}.

Definition ret {A} (a : A) : M S A := fun s => (Ok a, s).

Definition bind {A B} (m : M S A) (k : A -> M S B) : M S B :=
  fun s => match m s with
           | (Ok a, s') => k a s'
           | (Throw e, s') => (Throw e, s')
           end.

Definition throw {A} (e : exn) : M S A := fun s => (Throw e, s).

(** [try { m } catch (e) { h e }] *)
Definition try_catch {A} (m : M S A) (h : exn -> M S A) : M S A :=
  fun s => match m s with
           | (Ok a, s') => (Ok a, s')
           | (Throw e, s') => h e s'
           end.

(** [try { m } finally { f }]: [f] runs on both paths; when [f] itself
    throws, its exception replaces the outcome of [m]. *)
Definition finally {A} (m : M S A) (f : M S unit) : M S A :=
  fun s => let '(r, s') := m s in
           match f s' with
           | (Ok _, s'') => (r, s'')
           | (Throw e, s'') => (Throw e, s'')
           end.

Definition gets {A} (f : S -> A) : M S A := fun s => (Ok (f s), s).
Definition modify (f : S -> S) : M S unit := fun s => (Ok tt, f s).

(** [for (const x of l) await f(x)] *)
Fixpoint forM_ {A} (l : list A) (f : A -> M S unit) : M S unit :=
  match l with
  | [] => ret tt
  | x :: l' => bind (f x) (fun _ => forM_ l' f)
  end.

(** [for (const x of l) out.push(await f(x))] *)
Fixpoint mapM_js {A B} (l : list A) (f : A -> M S B) : M S (list B) :=
  match l with
  | [] => ret []
  | x :: l' => bind (f x) (fun y => bind (mapM_js l' f) (fun ys => ret (y :: ys)))
  end.

Definition when (b : bool) (m : M S unit) : M S unit :=
  if b then m else ret tt.
End Monad.

Notation "'let!' x ':=' m 'in' k" := (bind m (fun x => k))
  (at level 10, x name, m at level 100, k at level 200) : js_scope.
Notation "'let!' ' p ':=' m 'in' k" := (bind m (fun p => k))
  (at level 10, p strict pattern, m at level 100, k at level 200) : js_scope.
Notation "m ';;!' k" := (bind m (fun _ => k))
  (at level 199, right associativity) : js_scope.
Open Scope js_scope.

(** ** Tactics

    [destruct_match] splits the scrutinee of a match in the goal,
    [destruct_match_in H] the one in [H]. *)

Ltac destruct_match :=
  match goal with
  | |- context [match ?x with _ => _ end] =>
      lazymatch x with
      | context [match _ with _ => _ end] => fail
      | _ => let E := fresh "E" in destruct x eqn:E
      end
  end.

Ltac destruct_match_in H :=
  match type of H with
  | context [match ?x with _ => _ end] =>
      lazymatch x with
      | context [match _ with _ => _ end] => fail
      | _ => let E := fresh "E" in destruct x eqn:E
      end
  end.

(** Reflect the boolean comparisons on [Z] and [nat] that the code's
    guards use into propositions [lia] understands. *)
Ltac reflect_bools :=
  repeat match goal with
  | H : (_ <? _)%Z = true |- _ => apply Z.ltb_lt in H
  | H : (_ <? _)%Z = false |- _ => apply Z.ltb_ge in H
  | H : (_ <=? _)%Z = true |- _ => apply Z.leb_le in H
  | H : (_ <=? _)%Z = false |- _ => apply Z.leb_gt in H
  | H : (_ =? _)%Z = true |- _ => apply Z.eqb_eq in H
  | H : (_ =? _)%Z = false |- _ => apply Z.eqb_neq in H
  | H : (_ >? _)%Z = true |- _ => rewrite Z.gtb_ltb in H; apply Z.ltb_lt in H
  | H : (_ >? _)%Z = false |- _ => rewrite Z.gtb_ltb in H; apply Z.ltb_ge in H
  | H : (_ >=? _)%Z = true |- _ => rewrite Z.geb_leb in H; apply Z.leb_le in H
  | H : (_ >=? _)%Z = false |- _ => rewrite Z.geb_leb in H; apply Z.leb_gt in H
  | H : (_ <? _)%nat = true |- _ => apply Nat.ltb_lt in H
  | H : (_ <? _)%nat = false |- _ => apply Nat.ltb_ge in H
  | H : (_ <=? _)%nat = true |- _ => apply Nat.leb_le in H
  | H : (_ <=? _)%nat = false |- _ => apply Nat.leb_gt in H
  | H : (_ && _)%bool = true |- _ => apply andb_prop in H as [? ?]
  | H : (_ || _)%bool = false |- _ => apply orb_false_elim in H as [? ?]
  | H : negb _ = true |- _ => apply negb_true_iff in H
  | H : negb _ = false |- _ => apply negb_false_iff in H
  | H : bool_decide _ = true |- _ => apply bool_decide_eq_true in H
  | H : bool_decide _ = false |- _ => apply bool_decide_eq_false in H
  end.

Create HintDb js discriminated.
Create Rewrite HintDb js.

(** ** Monad equations *)
Section MonadLemmas.
Context {S : Type}.

Lemma bind_ok {A B} (m : M S A) (k : A -> M S B) s a s' :
  m s = (Ok a, s') -> bind m k s = k a s'.
Proof. intros H. unfold bind. by rewrite H. Qed.

Lemma bind_throw {A B} (m : M S A) (k : A -> M S B) s e s' :
  m s = (Throw e, s') -> bind m k s = (Throw e, s').
Proof. intros H. unfold bind. by rewrite H. Qed.

Lemma bind_inv_ok {A B} (m : M S A) (k : A -> M S B) s b s'' :
  bind m k s = (Ok b, s'') ->
  exists a s', m s = (Ok a, s') /\ k a s' = (Ok b, s'').
Proof. unfold bind. destruct (m s) as [[a|e] s'] eqn:E; naive_solver. Qed.

(** A property of states that each step keeps is kept by a sequence. *)
Definition preserves (I : S -> Prop) {A} (m : M S A) : Prop :=
  forall s, I s -> I (m s).2.

Lemma preserves_ret (I : S -> Prop) {A} (a : A) : preserves I (ret a).
Proof. by intros s. Qed.

Lemma preserves_throw (I : S -> Prop) {A} e : preserves I (throw (A := A) e).
Proof. by intros s. Qed.

Lemma preserves_bind (I : S -> Prop) {A B} (m : M S A) (k : A -> M S B) :
  preserves I m -> (forall a, preserves I (k a)) -> preserves I (bind m k).
Proof.
  intros Hm Hk s Hs. unfold bind. specialize (Hm s Hs).
  destruct (m s) as [[a|e] s'] eqn:E; [by apply Hk | done].
Qed.

Lemma preserves_try_catch (I : S -> Prop) {A} (m : M S A) h :
  preserves I m -> (forall e, preserves I (h e)) -> preserves I (try_catch m h).
Proof.
  intros Hm Hh s Hs. unfold try_catch. specialize (Hm s Hs).
  destruct (m s) as [[a|e] s'] eqn:E; [done | by apply Hh].
Qed.

Lemma preserves_finally (I : S -> Prop) {A} (m : M S A) f :
  preserves I m -> preserves I f -> preserves I (finally m f).
Proof.
  intros Hm Hf s Hs. unfold finally. specialize (Hm s Hs).
  destruct (m s) as [r s'] eqn:E. specialize (Hf s' Hm).
  by destruct (f s') as [[?|?] ?] eqn:?.
Qed.

Lemma preserves_gets (I : S -> Prop) {A} (f : S -> A) : preserves I (gets f).
Proof. by intros s. Qed.

Lemma preserves_modify (I : S -> Prop) f :
  (forall s, I s -> I (f s)) -> preserves I (modify f).
Proof. intros H s Hs. by apply H. Qed.

Lemma preserves_forM_ (I : S -> Prop) {A} (l : list A) f :
  (forall x, preserves I (f x)) -> preserves I (forM_ l f).
Proof.
  intros Hf. induction l as [|x l IH]; cbn [forM_].
  - apply preserves_ret.
  - apply preserves_bind; auto.
Qed.

Lemma preserves_mapM_js (I : S -> Prop) {A B} (l : list A) (f : A -> M S B) :
  (forall x, preserves I (f x)) -> preserves I (mapM_js l f).
Proof.
  intros Hf. induction l as [|x l IH]; cbn [mapM_js].
  - apply preserves_ret.
  - apply preserves_bind; [done|]. intros y.
    apply preserves_bind; [done|]. intros ys. apply preserves_ret.
Qed.

Lemma preserves_when (I : S -> Prop) b m : preserves I m -> preserves I (when b m).
Proof. intros Hm. destruct b; [done | apply preserves_ret]. Qed.
End MonadLemmas.

#[export] Hint Resolve preserves_ret preserves_throw preserves_gets : js.
#[export] Hint Resolve preserves_bind preserves_try_catch preserves_finally
  preserves_forM_ preserves_mapM_js preserves_when : js.

(** ** Lists *)
Section Lists.
Context {A : Type}.

(** [Array.prototype.find] *)
Fixpoint js_find (p : A -> bool) (l : list A) : option A :=
  match l with
  | [] => None
  | x :: l' => if p x then Some x else js_find p l'
  end.

Lemma js_find_Some p l x : js_find p l = Some x -> x ∈ l /\ p x = true.
Proof.
  induction l as [|y l IH]; cbn; [done|].
  destruct (p y) eqn:E; [intros [= ->]; split; [left|done]|].
  intros H. destruct (IH H). split; [by right|done].
Qed.

Lemma js_find_None p l : js_find p l = None <-> forall x, x ∈ l -> p x = false.
Proof.
  induction l as [|y l IH]; cbn.
  - split; [|done]. intros _ x Hx. by apply elem_of_nil in Hx.
  - destruct (p y) eqn:E.
    + split; [done|]. intros H. specialize (H y). rewrite E in H.
      discriminate H. left.
    + rewrite IH. split.
      * intros H x [->|Hx]%elem_of_cons; auto.
      * intros H x Hx. apply H. by right.
Qed.

Lemma js_find_app p l1 l2 :
  js_find p (l1 ++ l2) =
  match js_find p l1 with Some x => Some x | None => js_find p l2 end.
Proof. induction l1 as [|y l1 IH]; cbn; [done|]. by destruct (p y). Qed.

Lemma js_find_ext p q l :
  (forall x, x ∈ l -> p x = q x) -> js_find p l = js_find q l.
Proof.
  induction l as [|y l IH]; cbn; [done|]. intros H.
  rewrite (H y) by left. destruct (q y); [done|]. apply IH.
  intros x Hx. apply H. by right.
Qed.

(** Removing the first element that satisfies a predicate. *)
Fixpoint remove_first (p : A -> bool) (l : list A) : list A :=
  match l with
  | [] => []
  | x :: l' => if p x then l' else x :: remove_first p l'
  end.

Lemma remove_first_sublist p l : sublist (remove_first p l) l.
Proof.
  induction l as [|x l IH]; cbn; [constructor|].
  destruct (p x); constructor; [done|done].
Qed.

Lemma filter_twice (p q : A -> bool) l :
  List.filter p (List.filter q l) = List.filter (fun x => q x && p x) l.
Proof.
  induction l as [|x l IH]; cbn; [done|]. destruct (q x); cbn; [|done].
  destruct (p x); by rewrite IH.
Qed.

Lemma NoDup_app_snoc (l : list A) x : NoDup (l ++ [x]) <-> (x ∉ l) /\ NoDup l.
Proof.
  rewrite NoDup_app. split.
  - intros (H1 & H2 & _). split; [|done]. intros Hx. apply (H2 x Hx). left.
  - intros (H1 & H2). split; [done|]. split; [|apply NoDup_singleton].
    intros y Hy Hyx. apply list_elem_of_singleton in Hyx as ->. done.
Qed.
End Lists.
