(* ===== verification/JsMap.v ===== *)
(** * Insertion-ordered maps

    The JavaScript [Map] (and an object literal used as a dictionary): an
    association list in insertion order with at most one entry per key.
    [set] on an existing key keeps its position, [delete] then [set] moves
    it to the end - which is what the LRU tracker of the event queue and
    the eviction of the bidirectional cache rely on.  Lookup equivalence
    [≡] forgets the order. *)

From S2P Require Import Prelude.

Definition jsmap (K V : Type) : Type := list (K * V).

Section Ops.
Context {K V : Type} {HK : EqDecision K}.

(** [m.get(k)] *)
Fixpoint jget (k : K) (m : jsmap K V) : option V :=
  match m with
  | [] => None
  | (k', v) :: m' => if decide (k = k') then Some v else jget k m'
  end.

(** [m.has(k)] *)
Definition jhas (k : K) (m : jsmap K V) : bool :=
  match jget k m with Some _ => true | None => false end.

(** [m.set(k, v)] *)
Fixpoint jset (k : K) (v : V) (m : jsmap K V) : jsmap K V :=
  match m with
  | [] => [(k, v)]
  | (k', v') :: m' => if decide (k = k') then (k', v) :: m' else (k', v') :: jset k v m'
  end.

(** [m.delete(k)] *)
Fixpoint jdelete (k : K) (m : jsmap K V) : jsmap K V :=
  match m with
  | [] => []
  | (k', v) :: m' => if decide (k = k') then m' else (k', v) :: jdelete k m'
  end.

(** [m.keys()] and [m.values()], in insertion order *)
Definition jkeys (m : jsmap K V) : list K := map fst m.
Definition jvalues (m : jsmap K V) : list V := map snd m.

(** [m.size] *)
Definition jsize (m : jsmap K V) : nat := length m.

(** [for (const [k, v] of entries) m.set(k, v)] *)
Definition jset_all (es : list (K * V)) (m : jsmap K V) : jsmap K V :=
  fold_left (fun m e => jset e.1 e.2 m) es m.

(** At most one entry per key. *)
Definition jwf (m : jsmap K V) : Prop := NoDup (jkeys m).
End Ops.

#[global] Instance jsmap_equiv {K V} `{EqDecision K} : Equiv (jsmap K V) :=
  fun m1 m2 => forall k, jget k m1 = jget k m2.

Section Laws.
Context {K V : Type} {HK : EqDecision K}.
Implicit Types (m : jsmap K V) (k : K) (v : V).

#[global] Instance jsmap_equivalence : Equivalence (≡@{jsmap K V}).
Proof.
  split; [by intros m k | intros m1 m2 H k; symmetry; apply H
         | intros m1 m2 m3 H1 H2 k; etrans; [apply H1 | apply H2]].
Qed.

Lemma jget_set_eq m k v : jget k (jset k v m) = Some v.
Proof.
  induction m as [|[k' v'] m IH]; cbn; [by rewrite decide_True|].
  destruct (decide (k = k')) as [->|Hne]; cbn.
  - by rewrite decide_True.
  - by rewrite decide_False.
Qed.

Lemma jget_set_ne m k k' v : k <> k' -> jget k' (jset k v m) = jget k' m.
Proof.
  intros Hne. induction m as [|[k1 v1] m IH]; cbn; [by rewrite decide_False|].
  destruct (decide (k = k1)) as [->|]; cbn.
  - by rewrite !decide_False.
  - by rewrite IH.
Qed.

Lemma jget_set m k k' v :
  jget k' (jset k v m) = if decide (k = k') then Some v else jget k' m.
Proof.
  case_decide as Hd; [subst; apply jget_set_eq | by apply jget_set_ne].
Qed.

Lemma jget_None_keys m k : jget k m = None <-> k ∉ jkeys m.
Proof.
  unfold jkeys. induction m as [|[k' v] m IH]; cbn.
  - split; [|done]. intros _ H. by apply elem_of_nil in H.
  - rewrite not_elem_of_cons, <- IH. case_decide; [split; [done | by intros []] | tauto].
Qed.

Lemma jget_Some_keys m k v : jget k m = Some v -> k ∈ jkeys m.
Proof.
  intros H. destruct (decide (k ∈ jkeys m)) as [|Hn]; [done|].
  apply jget_None_keys in Hn. congruence.
Qed.

Lemma jkeys_get m k : k ∈ jkeys m -> exists v, jget k m = Some v.
Proof.
  intros H. destruct (jget k m) eqn:E; [by eexists|].
  by apply jget_None_keys in E.
Qed.

Lemma jhas_spec m k : jhas k m = true <-> k ∈ jkeys m.
Proof.
  unfold jhas. split.
  - destruct (jget k m) eqn:E; [|done]. intros _. by eapply jget_Some_keys.
  - intros Hk. apply jkeys_get in Hk as [v Hv]. by rewrite Hv.
Qed.

Lemma jkeys_set m k v :
  jkeys (jset k v m) = if decide (k ∈ jkeys m) then jkeys m else jkeys m ++ [k].
Proof.
  unfold jkeys. induction m as [|[k' v'] m IH]; cbn [jset map fst app].
  - rewrite decide_False; [done | apply not_elem_of_nil].
  - destruct (decide (k = k')) as [->|Hne]; cbn [map fst].
    + rewrite decide_True; [done | left].
    + rewrite IH. destruct (decide (k ∈ map fst m)).
      * rewrite decide_True; [done | by right].
      * rewrite decide_False; [done | rewrite not_elem_of_cons; done].
Qed.

Lemma elem_of_jkeys_set m k k' v :
  k' ∈ jkeys (jset k v m) <-> k' = k \/ k' ∈ jkeys m.
Proof.
  rewrite jkeys_set. case_decide; [|rewrite elem_of_app, list_elem_of_singleton; tauto].
  split; [by right | by intros [->|]].
Qed.

Lemma jkeys_delete m k : sublist (jkeys (jdelete k m)) (jkeys m).
Proof.
  unfold jkeys. induction m as [|[k' v'] m IH]; cbn; [constructor|].
  case_decide; cbn; by constructor.
Qed.

Lemma jwf_nil : jwf (V := V) ([] : jsmap K V).
Proof. constructor. Qed.

Lemma jwf_set m k v : jwf m -> jwf (jset k v m).
Proof.
  unfold jwf. rewrite jkeys_set. case_decide; [done|].
  intros Hm. apply NoDup_app_snoc. done.
Qed.

Lemma jwf_delete m k : jwf m -> jwf (jdelete k m).
Proof. intros H. eapply sublist_NoDup; [exact H | apply jkeys_delete]. Qed.

Lemma jget_delete_eq m k : jwf m -> jget k (jdelete k m) = None.
Proof.
  unfold jwf, jkeys. induction m as [|[k' v'] m IH]; cbn; [done|].
  intros [Hn Hd]%NoDup_cons. destruct (decide (k = k')) as [->|Hne]; cbn.
  - by apply jget_None_keys.
  - rewrite decide_False by done. by apply IH.
Qed.

Lemma jget_delete_ne m k k' : k <> k' -> jget k' (jdelete k m) = jget k' m.
Proof.
  intros Hne. induction m as [|[k1 v1] m IH]; cbn; [done|].
  destruct (decide (k = k1)) as [->|]; cbn.
  - by rewrite decide_False.
  - by rewrite IH.
Qed.

Lemma jget_delete m k k' :
  jwf m -> jget k' (jdelete k m) = if decide (k = k') then None else jget k' m.
Proof.
  intros Hwf. case_decide as Hd; [subst; by apply jget_delete_eq | by apply jget_delete_ne].
Qed.

Lemma jdelete_not_in m k : k ∉ jkeys m -> jdelete k m = m.
Proof.
  unfold jkeys. induction m as [|[k' v'] m IH]; cbn; [done|].
  rewrite not_elem_of_cons. intros [Hne Hn].
  rewrite decide_False by done. by rewrite IH.
Qed.

Lemma elem_of_jkeys_delete m k k' :
  jwf m -> k' ∈ jkeys (jdelete k m) <-> k' <> k /\ k' ∈ jkeys m.
Proof.
  intros Hwf. split.
  - intros H. split.
    + intros ->. apply jkeys_get in H as [v Hv]. by rewrite jget_delete_eq in Hv.
    + eapply elem_of_sublist; [exact H | apply jkeys_delete].
  - intros [Hne Hin]. apply jkeys_get in Hin as [v Hv].
    eapply jget_Some_keys with v. by rewrite jget_delete_ne.
Qed.

Lemma jsize_set_new m k v : k ∉ jkeys m -> jsize (jset k v m) = S (jsize m).
Proof.
  intros H. assert (length (jkeys (jset k v m)) = S (length (jkeys m))) as E.
  { rewrite jkeys_set, decide_False by done. rewrite length_app. cbn. lia. }
  unfold jkeys in E. by rewrite !length_map in E.
Qed.

Lemma jsize_set_le m k v : (jsize m <= jsize (jset k v m) <= S (jsize m))%nat.
Proof.
  assert (length (jkeys (jset k v m)) = length (jkeys m) \/
          length (jkeys (jset k v m)) = S (length (jkeys m))) as E.
  { rewrite jkeys_set. case_decide; [by left|right]. rewrite length_app. cbn. lia. }
  unfold jkeys in E. rewrite !length_map in E. unfold jsize. lia.
Qed.

Lemma jsize_delete_in m k : k ∈ jkeys m -> S (jsize (jdelete k m)) = jsize m.
Proof.
  unfold jkeys, jsize. induction m as [|[k' v'] m IH]; cbn.
  - intros H. by apply elem_of_nil in H.
  - destruct (decide (k = k')); [done|]. intros [?|H]%elem_of_cons; [done|].
    cbn. by rewrite IH.
Qed.

Lemma jget_set_all m es k :
  NoDup (map fst es) ->
  jget k (jset_all es m) = match jget k es with Some v => Some v | None => jget k m end.
Proof.
  unfold jset_all. revert m. induction es as [|[k1 v1] es IH]; intros m; [done|].
  cbn [map fst]. intros [Hn Hd]%NoDup_cons. cbn [fold_left]. rewrite IH by done. cbn.
  destruct (decide (k = k1)) as [->|Hne].
  - assert (jget k1 es = None) as -> by by apply jget_None_keys.
    by rewrite jget_set_eq.
  - destruct (jget k es); [done|]. by rewrite jget_set_ne.
Qed.

#[global] Instance jset_proper k v : Proper ((≡) ==> (≡)) (jset (V := V) k v).
Proof. intros m1 m2 H k'. by rewrite !jget_set, (H k'). Qed.

#[global] Instance jget_proper k : Proper ((≡) ==> (=)) (jget (V := V) k).
Proof. intros m1 m2 H. apply H. Qed.

#[global] Instance jhas_proper k : Proper ((≡) ==> (=)) (jhas (V := V) k).
Proof. intros m1 m2 H. unfold jhas. by rewrite (H k). Qed.

Lemma jset_comm m k1 k2 v1 v2 :
  k1 <> k2 -> jset k1 v1 (jset k2 v2 m) ≡ jset k2 v2 (jset k1 v1 m).
Proof. intros Hne k. rewrite !jget_set. repeat case_decide; congruence. Qed.

Lemma jset_idemp m k v1 v2 : jset k v1 (jset k v2 m) ≡ jset k v1 m.
Proof. intros k'. rewrite !jget_set. by case_decide. Qed.
End Laws.

#[export] Hint Resolve jwf_nil jwf_set jwf_delete : js.
#[export] Hint Rewrite @jget_set_eq : js.
#[global] Arguments jkeys : simpl never.
#[global] Arguments jvalues : simpl never.
#[global] Arguments jsize : simpl never.
#[global] Arguments jhas : simpl never.

(** An object literal built over a list of keys. *)
Lemma jget_map_keys {K V} `{EqDecision K} (f : K -> V) ks k :
  jget k (map (fun k => (k, f k)) ks) = if decide (k ∈ ks) then Some (f k) else None.
Proof.
  induction ks as [|k' ks IH]; cbn [map jget].
  - rewrite decide_False; [done|apply not_elem_of_nil].
  - destruct (decide (k = k')) as [->|Hne]; [by rewrite decide_True by left|].
    rewrite IH. destruct (decide (k ∈ ks)); [by rewrite decide_True by by right|].
    rewrite decide_False; [done|]. by rewrite not_elem_of_cons.
Qed.
