(* ===== verification/JsString.v ===== *)
(** * Strings

    The string methods the code uses, on byte strings ([String.string]):
    [indexOf]/[lastIndexOf] with [slice], [split], [includes],
    [startsWith], [endsWith], [toLowerCase] (on the ASCII letters; the
    program only compares lower-cased ASCII keywords and host names),
    [join], [String(n)] on integers ([pretty]) and [Number.parseInt(s, 10)]. *)

From Stdlib Require Import Ascii.
From S2P Require Import Prelude.
Open Scope string_scope.

Definition colon : Ascii.ascii := ":"%char.

(** [s.indexOf(c)] then [s.slice(i + 1)]: what follows the first [c]. *)
Fixpoint after_first (c : Ascii.ascii) (s : string) : option string :=
  match s with
  | "" => None
  | String a s' => if decide (a = c) then Some s' else after_first c s'
  end.

(** [s.lastIndexOf(c)] then the two slices around it. *)
Fixpoint split_last (c : Ascii.ascii) (s : string) : option (string * string) :=
  match s with
  | "" => None
  | String a s' =>
      match split_last c s' with
      | Some (l, r) => Some (String a l, r)
      | None => if decide (a = c) then Some ("", s') else None
      end
  end.

(** [s.split(c)] *)
Fixpoint js_split (c : Ascii.ascii) (s : string) : list string :=
  match s with
  | "" => [""]
  | String a s' =>
      if decide (a = c) then "" :: js_split c s'
      else match js_split c s' with
           | [] => [String a ""]
           | w :: ws => String a w :: ws
           end
  end.

(** [s.startsWith(p)], [s.includes(p)], [s.endsWith(p)] *)
Definition starts_with (p s : string) : bool := String.prefix p s.

(** [s.slice(p.length)] when [s.startsWith(p)] *)
Fixpoint after_prefix (p s : string) : option string :=
  match p, s with
  | "", _ => Some s
  | String a p', String b s' => if decide (a = b) then after_prefix p' s' else None
  | String _ _, "" => None
  end.

Fixpoint includes (p s : string) : bool :=
  String.prefix p s ||
  match s with "" => false | String _ s' => includes p s' end.

Fixpoint ends_with (p s : string) : bool :=
  bool_decide (s = p) ||
  match s with "" => false | String _ s' => ends_with p s' end.

(** [s.toLowerCase()] *)
Definition lower_char (a : Ascii.ascii) : Ascii.ascii :=
  let n := Ascii.N_of_ascii a in
  if ((65 <=? n) && (n <=? 90))%N then Ascii.ascii_of_N (n + 32) else a.

Fixpoint to_lower (s : string) : string :=
  match s with
  | "" => ""
  | String a s' => String (lower_char a) (to_lower s')
  end.

(** [ws.join(sep)] *)
Fixpoint js_join (sep : string) (ws : list string) : string :=
  match ws with
  | [] => ""
  | [w] => w
  | w :: ws' => w +:+ sep +:+ js_join sep ws'
  end.

(** [Number.parseInt(s, 10)]: skip white space, an optional sign, then the
    longest run of digits; [None] is [NaN]. *)
Definition digit_of (a : Ascii.ascii) : option Z :=
  let n := Z.of_N (Ascii.N_of_ascii a) in
  if ((48 <=? n) && (n <=? 57))%Z then Some (n - 48)%Z else None.

Definition is_space (a : Ascii.ascii) : bool :=
  let n := Z.of_N (Ascii.N_of_ascii a) in
  ((n =? 32) || ((9 <=? n) && (n <=? 13)))%Z.

Fixpoint trim_start (s : string) : string :=
  match s with
  | "" => ""
  | String a s' => if is_space a then trim_start s' else s
  end.

(** The digits at the head of [s], accumulated onto [acc]. *)
Fixpoint digits_from (acc : Z) (s : string) : Z :=
  match s with
  | "" => acc
  | String a s' =>
      match digit_of a with
      | Some d => digits_from (10 * acc + d) s'
      | None => acc
      end
  end.

Definition parse_digits (s : string) : option Z :=
  match s with
  | "" => None
  | String a s' =>
      match digit_of a with
      | Some d => Some (digits_from d s')
      | None => None
      end
  end.

Definition parseInt (s : string) : option Z :=
  match trim_start s with
  | "" => None
  | String a s' =>
      if decide (a = "-"%char) then option_map Z.opp (parse_digits s')
      else if decide (a = "+"%char) then parse_digits s'
      else parse_digits (String a s')
  end.

Definition num_to_string (n : Z) : string := pretty n.

Definition no_char (c : Ascii.ascii) (s : string) : Prop := after_first c s = None.

(** ** Splitting *)

Lemma after_first_app c s t :
  no_char c s -> after_first c (s +:+ String c t) = Some t.
Proof.
  unfold no_char. induction s as [|a s IH]; simpl.
  - intros _. by rewrite decide_True.
  - case_decide; [done|]. apply IH.
Qed.

Lemma after_prefix_app p s : after_prefix p (p +:+ s) = Some s.
Proof. induction p as [|a p IH]; [done|]. simpl. by destruct (decide (a = a)). Qed.

Lemma split_last_None c s : split_last c s = None <-> no_char c s.
Proof.
  unfold no_char. induction s as [|a s IH]; simpl; [done|].
  destruct (split_last c s) as [[l r]|] eqn:E.
  - case_decide; [done|]. split; [done|]. intros Hs. by apply IH in Hs.
  - case_decide; [done|]. tauto.
Qed.

Lemma split_last_app c s t :
  no_char c t -> split_last c (s +:+ String c t) = Some (s, t).
Proof.
  intros Ht. induction s as [|a s IH]; simpl.
  - apply split_last_None in Ht. rewrite Ht. by rewrite decide_True.
  - by rewrite IH.
Qed.

Lemma split_last_sound c s l r :
  split_last c s = Some (l, r) -> s = l +:+ String c r /\ no_char c r.
Proof.
  revert l. induction s as [|a s IH]; simpl; [done|]. intros l.
  destruct (split_last c s) as [[l' r']|] eqn:E.
  - intros [= <- <-]. destruct (IH l' eq_refl) as [-> ?]. done.
  - case_decide; [|done]. intros [= <- <-]. subst.
    split; [done | by apply split_last_None].
Qed.

Lemma js_split_ne c s : js_split c s <> [].
Proof.
  destruct s as [|a s]; simpl; [done|]. case_decide; [done|].
  by destruct (js_split c s).
Qed.

Lemma js_split_no_char c s : no_char c s -> js_split c s = [s].
Proof.
  unfold no_char. induction s as [|a s IH]; simpl; [done|].
  case_decide; [done|]. intros Hs. by rewrite IH.
Qed.

Lemma js_split_app c s t :
  no_char c s -> js_split c (s +:+ String c t) = s :: js_split c t.
Proof.
  unfold no_char. induction s as [|a s IH]; simpl.
  - intros _. by rewrite decide_True.
  - case_decide; [done|]. intros Hs. by rewrite IH.
Qed.

(** ** Appending *)

Lemma str_app_cons a (s t : string) : String a s +:+ t = String a (s +:+ t).
Proof. done. Qed.

Lemma str_app_assoc (s t u : string) : (s +:+ t) +:+ u = s +:+ (t +:+ u).
Proof. induction s as [|a s IH]; [done|]. by rewrite !str_app_cons, IH. Qed.

Lemma str_app_nil_r (s : string) : s +:+ "" = s.
Proof. induction s as [|a s IH]; [done|]. by rewrite str_app_cons, IH. Qed.

Lemma no_char_app c s t : no_char c (s +:+ t) <-> no_char c s /\ no_char c t.
Proof.
  unfold no_char. induction s as [|a s IH]; simpl; [tauto|].
  case_decide; [split; [done | by intros []] | apply IH].
Qed.

(** Appending after a separator that occurs in neither prefix is injective. *)
Lemma sep_app_inj c s1 s2 t1 t2 :
  no_char c s1 -> no_char c s2 ->
  s1 +:+ String c t1 = s2 +:+ String c t2 -> s1 = s2 /\ t1 = t2.
Proof.
  unfold no_char. revert s2.
  induction s1 as [|a s1 IH]; intros [|b s2]; simpl; repeat case_decide; try done.
  - intros _ _ [= ->]. done.
  - intros _ _ [= ? ?]. congruence.
  - intros _ _ [= ? ?]. congruence.
  - intros H1 H2 [= -> E]. destruct (IH s2 H1 H2 E) as [-> ->]. done.
Qed.

(** ** Numbers in strings *)

Lemma digit_of_pretty_char d :
  (d < 10)%N -> digit_of (pretty_N_char d) = Some (Z.of_N d).
Proof.
  intros Hd. destruct d as [|p]; [done|].
  do 4 (destruct p as [p|p|]; try done); lia.
Qed.

Lemma parse_digits_go n s :
  (0 < n)%N -> parse_digits (pretty_N_go n s) = Some (digits_from (Z.of_N n) s).
Proof.
  revert s. induction (N.lt_wf_0 n) as [n _ IH]; intros s Hn.
  rewrite pretty_N_go_step by done.
  assert (digit_of (pretty_N_char (n `mod` 10)) = Some (Z.of_N (n `mod` 10))) as Hc.
  { apply digit_of_pretty_char. by apply N.mod_lt. }
  pose proof (N.div_mod n 10 ltac:(done)) as Hdiv.
  destruct (decide (n / 10 = 0)%N) as [Hz|Hz].
  - rewrite Hz, pretty_N_go_0. cbn [parse_digits]. rewrite Hc. repeat f_equal. lia.
  - assert (n / 10 < n)%N as Hlt by (apply N.div_lt; lia).
    assert (0 < n / 10)%N as Hpos by (by apply N.neq_0_lt_0).
    rewrite IH by done. cbn [digits_from]. rewrite Hc.
    repeat f_equal. lia.
Qed.

(** A string that starts with a digit starts with no space and no sign. *)
Lemma parseInt_digits s z : parse_digits s = Some z -> parseInt s = Some z.
Proof.
  unfold parseInt. destruct s as [|a s]; [done|]. cbn [parse_digits trim_start].
  destruct (digit_of a) as [d|] eqn:E; [|done]. intros Hz.
  assert (is_space a = false) as ->.
  { unfold digit_of in E. unfold is_space. case_match; [|done]. reflect_bools.
    apply orb_false_intro; [lia|]. apply andb_false_iff. right. lia. }
  rewrite decide_False by by intros ->. rewrite decide_False by by intros ->.
  cbn [parse_digits]. by rewrite E.
Qed.

Lemma pretty_N_Z p : pretty (Z.pos p) = pretty_N_go (N.pos p) "".
Proof. done. Qed.

Lemma parse_digits_pos p : parse_digits (pretty (Z.pos p)) = Some (Z.pos p).
Proof. rewrite pretty_N_Z, parse_digits_go by lia. done. Qed.

Lemma parseInt_num_to_string n : parseInt (num_to_string n) = Some n.
Proof.
  unfold num_to_string. destruct n as [|p|p]; [done| |].
  - apply parseInt_digits, parse_digits_pos.
  - change (pretty (Z.neg p)) with ("-" +:+ pretty (Z.pos p)).
    change (parseInt ("-" +:+ pretty (Z.pos p)))
      with (option_map Z.opp (parse_digits (pretty (Z.pos p)))).
    by rewrite parse_digits_pos.
Qed.

Lemma no_colon_pretty_char d : (d < 10)%N -> pretty_N_char d <> colon.
Proof.
  intros Hd. destruct d as [|p]; [done|].
  do 4 (destruct p as [p|p|]; try done); lia.
Qed.

Lemma no_colon_go n s : no_char colon s -> no_char colon (pretty_N_go n s).
Proof.
  revert s. induction (N.lt_wf_0 n) as [n _ IH]; intros s Hs.
  destruct (decide (n = 0)%N) as [->|Hn]; [by rewrite pretty_N_go_0|].
  rewrite pretty_N_go_step by lia. apply IH; [apply N.div_lt; lia|].
  unfold no_char. cbn [after_first].
  rewrite decide_False; [done|]. apply no_colon_pretty_char. by apply N.mod_lt.
Qed.

Lemma no_colon_num n : no_char colon (num_to_string n).
Proof.
  unfold num_to_string. destruct n as [|p|p]; [done| |].
  - rewrite pretty_N_Z. by apply no_colon_go.
  - change (pretty (Z.neg p)) with ("-" +:+ pretty (Z.pos p)).
    apply no_char_app. split; [done|]. rewrite pretty_N_Z. by apply no_colon_go.
Qed.

#[global] Instance num_to_string_inj : Inj (=) (=) num_to_string.
Proof. unfold num_to_string. apply _. Qed.

#[export] Hint Resolve no_colon_num : js.

(** [s.replace(/\/$/, '')] *)
Fixpoint strip_trailing_slash (s : string) : string :=
  match s with
  | "" => ""
  | String a "" => if bool_decide (a = "/"%char) then "" else s
  | String a s' => String a (strip_trailing_slash s')
  end.
