(* ===== verification/Conflict.v ===== *)
(** * Last-write-wins conflict resolution (src/sync/conflict.ts)

    [resolveLww] decides one scalar, [applyLwwFieldByField] a record of
    them.  [undefined] is [None].  A JavaScript [Date] is a [jsdate]: an
    epoch in milliseconds, or [None] for an invalid date, whose [getTime()]
    is [NaN] and therefore neither greater nor smaller than anything. *)

From S2P Require Import Prelude JsMap.

Definition jsdate : Type := option Z.

(** [a > b] on [getTime()] values; false when either is [NaN]. *)
Definition date_gt (a b : jsdate) : bool :=
  match a, b with
  | Some x, Some y => (y <? x)%Z
  | _, _ => false
  end.

Inductive LwwWinner := WLocal | WRemote | WTie | WNoop.

#[export] Instance LwwWinner_eq_dec : EqDecision LwwWinner.
Proof. solve_decision. Defined.

Record LwwResult (A : Type) := MkLwwResult { lww_winner : LwwWinner; lww_value : option A }.
Arguments MkLwwResult {A} lww_winner lww_value.
Arguments lww_winner {A} l.
Arguments lww_value {A} l.

Section Resolve.
Context {A : Type}.

Definition side_missing (v : option A) (ts : option jsdate) : bool :=
  match v, ts with Some _, Some _ => false | _, _ => true end.

Definition resolveLww (localValue : option A) (localTs : option jsdate)
    (remoteValue : option A) (remoteTs : option jsdate) : LwwResult A :=
  let localMissing := side_missing localValue localTs in
  let remoteMissing := side_missing remoteValue remoteTs in
  if localMissing && remoteMissing then MkLwwResult WNoop None
  else if localMissing then MkLwwResult WRemote remoteValue
  else if remoteMissing then MkLwwResult WLocal localValue
  else
    let lt := default None localTs in
    let rt := default None remoteTs in
    if date_gt rt lt then MkLwwResult WRemote remoteValue
    else if date_gt lt rt then MkLwwResult WLocal localValue
    else MkLwwResult WRemote remoteValue.
End Resolve.

Record FieldVersion (A : Type) := MkFieldVersion { fv_value : option A; fv_ts : option jsdate }.
Arguments MkFieldVersion {A} fv_value fv_ts.
Arguments fv_value {A} f.
Arguments fv_ts {A} f.

Inductive FieldDecision := DLocal | DRemote | DNoop.

#[export] Instance FieldDecision_eq_dec : EqDecision FieldDecision.
Proof. solve_decision. Defined.

Definition decision_of_winner (w : LwwWinner) : FieldDecision :=
  match w with
  | WNoop => DNoop
  | WTie => DRemote
  | WLocal => DLocal
  | WRemote => DRemote
  end.

Section Fields.
Context {A : Type}.
Abbreviation fields := (jsmap string (FieldVersion A)).

(** [new Set([...Object.keys(local), ...Object.keys(remote)])] *)
Definition all_keys (local remote : fields) : list string :=
  jkeys local ++ filter (fun k => k ∉ jkeys local) (jkeys remote).

(** The decision for one field; [l?.value] is [undefined] when the record
    has no such field. *)
Definition decide_field (local remote : fields) (field : string) : FieldDecision :=
  let l := jget field local in
  let r := jget field remote in
  decision_of_winner
    (lww_winner (resolveLww (l ≫= fv_value) (l ≫= fv_ts) (r ≫= fv_value) (r ≫= fv_ts))).

Definition applyLwwFieldByField (local remote : fields) : jsmap string FieldDecision :=
  fold_left (fun result field => jset field (decide_field local remote field) result)
    (all_keys local remote) [].
End Fields.

(** ** Properties *)

Section ResolveProps.
Context {A : Type}.

(** The newest present side; a tie, or an incomparable timestamp, goes to
    the remote side. *)
Definition lww_spec (local remote : option (A * jsdate)) : LwwResult A :=
  match local, remote with
  | None, None => MkLwwResult WNoop None
  | None, Some (v, _) => MkLwwResult WRemote (Some v)
  | Some (v, _), None => MkLwwResult WLocal (Some v)
  | Some (lv, lt), Some (rv, rt) =>
      if date_gt lt rt then MkLwwResult WLocal (Some lv) else MkLwwResult WRemote (Some rv)
  end.

Definition side (v : option A) (ts : option jsdate) : option (A * jsdate) :=
  match v, ts with Some v, Some t => Some (v, t) | _, _ => None end.

Lemma date_gt_asym a b : date_gt a b = true -> date_gt b a = false.
Proof.
  destruct a as [x|], b as [y|]; cbn; try done. intros ?. reflect_bools.
  apply Z.ltb_ge. lia.
Qed.

(** [resolveLww] is exactly the last-write-wins table: nothing when
    both sides are missing, the present side when one is missing, the
    strictly newer local side, and the remote side otherwise (equal or
    invalid timestamps included). *)
Theorem resolveLww_refines_spec (lv : option A) lts rv rts :
  resolveLww lv lts rv rts = lww_spec (side lv lts) (side rv rts).
Proof.
  destruct lv as [lv|], lts as [lt|], rv as [rv|], rts as [rt|]; try done.
  cbn. destruct (date_gt rt lt) eqn:E; [|done].
  by rewrite (date_gt_asym _ _ E).
Qed.

Lemma resolveLww_never_tie (lv : option A) lts rv rts :
  lww_winner (resolveLww lv lts rv rts) <> WTie.
Proof.
  destruct lv as [lv|], lts as [lt|], rv as [rv|], rts as [rt|]; cbn; try done.
  by repeat case_match.
Qed.
End ResolveProps.

Section FieldProps.
Context {A : Type}.
Implicit Types (local remote : jsmap string (FieldVersion A)).

Lemma elem_of_all_keys local remote k :
  k ∈ all_keys local remote <-> k ∈ jkeys local \/ k ∈ jkeys remote.
Proof.
  unfold all_keys. rewrite elem_of_app, list_elem_of_filter.
  destruct (decide (k ∈ jkeys local)); tauto.
Qed.

Lemma fold_jset_get (f : string -> FieldDecision) ks acc k :
  jget k (fold_left (fun r field => jset field (f field) r) ks acc) =
  if decide (k ∈ ks) then Some (f k) else jget k acc.
Proof.
  revert acc. induction ks as [|k1 ks IH]; intros acc; cbn [fold_left].
  - rewrite decide_False; [done | apply not_elem_of_nil].
  - rewrite IH. destruct (decide (k ∈ ks)) as [Hin|Hn].
    + rewrite decide_True; [done | by right].
    + rewrite jget_set. case_decide as Hk.
      * subst. rewrite decide_True; [done | left].
      * rewrite decide_False; [done|]. by rewrite not_elem_of_cons.
Qed.

(** The field-by-field merge decides exactly the fields present in
    either record, each one by the scalar resolver on that field alone:
    no other field influences it. *)
Theorem applyLwwFieldByField_pointwise local remote field :
  jget field (applyLwwFieldByField local remote) =
  if decide (field ∈ jkeys local \/ field ∈ jkeys remote)
  then Some (decide_field local remote field)
  else None.
Proof.
  unfold applyLwwFieldByField. rewrite fold_jset_get.
  destruct (decide (field ∈ all_keys local remote)) as [Hin|Hn];
    rewrite elem_of_all_keys in *.
  - by rewrite decide_True.
  - by rewrite decide_False.
Qed.
End FieldProps.
