(* ===== verification/Breaker.v ===== *)
(** * The per-binding circuit breaker (src/sync/breaker.ts)

    [InMemoryBindingBreaker] keeps one entry per binding in a [Map] and is
    shared by the sync engine and the backfill scheduler.  The clock is an
    argument: each [Date.now()] of the source is one [now] parameter. *)

From S2P Require Import Prelude JsMap.
Open Scope Z_scope.

Definition FAILURE_THRESHOLD : Z := 5.
Definition OPEN_DURATION_MS : Z := 15 * 60 * 1000.

Inductive BreakerState := closed | open | half_open.

#[export] Instance BreakerState_eq_dec : EqDecision BreakerState.
Proof. solve_decision. Defined.

Record BreakerEntry := MkBreakerEntry {
  state : BreakerState;
  failures : Z;
  openedAt : option Z
}.

#[export] Instance BreakerEntry_eq_dec : EqDecision BreakerEntry.
Proof. solve_decision. Defined.

Definition breaker : Type := jsmap string BreakerEntry.

Definition fresh_entry : BreakerEntry := MkBreakerEntry closed 0 None.

(** [getEntry]: the entry, created on first use. *)
Definition getEntry (bindingId : string) (b : breaker) : BreakerEntry * breaker :=
  match jget bindingId b with
  | Some entry => (entry, b)
  | None => (fresh_entry, jset bindingId fresh_entry b)
  end.

(** The lazy open -> half-open transition of [getState] on one entry. *)
Definition refresh (now : Z) (entry : BreakerEntry) : BreakerEntry :=
  match state entry, openedAt entry with
  | open, Some t =>
      if now - t >=? OPEN_DURATION_MS
      then MkBreakerEntry half_open (failures entry) (openedAt entry)
      else entry
  | _, _ => entry
  end.

Definition getState (now : Z) (bindingId : string) (b : breaker) : BreakerState * breaker :=
  let '(entry, b) := getEntry bindingId b in
  let entry := refresh now entry in
  (state entry, jset bindingId entry b).

Definition isOpen (now : Z) (bindingId : string) (b : breaker) : bool * breaker :=
  let '(s, b) := getState now bindingId b in
  (bool_decide (s = open), b).

Definition recordSuccess (now : Z) (bindingId : string) (b : breaker) : breaker :=
  let '(_, b) := getEntry bindingId b in
  let '(_, b) := getState now bindingId b in
  jset bindingId (MkBreakerEntry closed 0 None) b.

(** [now1] is the clock read of [getState], [now2] the one stored in
    [openedAt]. *)
Definition recordFailure (now1 now2 : Z) (bindingId : string) (b : breaker) : breaker :=
  let '(_, b) := getEntry bindingId b in
  let '(currentState, b) := getState now1 bindingId b in
  let '(entry, b) := getEntry bindingId b in
  match currentState with
  | half_open => jset bindingId (MkBreakerEntry open FAILURE_THRESHOLD (Some now2)) b
  | open => b
  | closed =>
      let failures := failures entry + 1 in
      if failures >=? FAILURE_THRESHOLD
      then jset bindingId (MkBreakerEntry open failures (Some now2)) b
      else jset bindingId (MkBreakerEntry closed failures (openedAt entry)) b
  end.

(** ** The operations as one step type, for histories *)

Inductive op :=
  | OpGetState (now : Z)
  | OpSuccess (now : Z)
  | OpFailure (now1 now2 : Z).

Definition apply_op (bindingId : string) (o : op) (b : breaker) : breaker :=
  match o with
  | OpGetState now => (getState now bindingId b).2
  | OpSuccess now => recordSuccess now bindingId b
  | OpFailure now1 now2 => recordFailure now1 now2 bindingId b
  end.

Definition run_ops (bindingId : string) (ops : list op) (b : breaker) : breaker :=
  fold_left (fun b o => apply_op bindingId o b) ops b.

(** What the map holds for a binding, the implicit fresh entry included. *)
Definition entry_of (bindingId : string) (b : breaker) : BreakerEntry :=
  default fresh_entry (jget bindingId b).

#[global] Arguments entry_of : simpl never.
#[global] Arguments refresh : simpl never.

(** ** Abstract specification

    The breaker of one binding as a three-state machine: closed with a
    count of consecutive failures, open since an instant, or half-open.  Its
    limits are written out: five failures, fifteen minutes. *)
Inductive spec_state :=
  | SClosed (n : Z)
  | SOpen (since : Z)
  | SHalf (since : Z).

#[export] Instance spec_state_eq_dec : EqDecision spec_state.
Proof. solve_decision. Defined.

(** open -> half-open after fifteen minutes *)
Definition spec_refresh (now : Z) (s : spec_state) : spec_state :=
  match s with
  | SOpen t => if bool_decide (t + 900000 <= now) then SHalf t else s
  | _ => s
  end.

(** closed -> open at the fifth consecutive failure, half-open -> open at
    the first one *)
Definition spec_failure (now1 now2 : Z) (s : spec_state) : spec_state :=
  match spec_refresh now1 s with
  | SClosed n => if bool_decide (n = 4) then SOpen now2 else SClosed (n + 1)
  | SOpen t => SOpen t
  | SHalf _ => SOpen now2
  end.

(** The machine of the class comment (breaker.ts:14-23): its arrows are the
    four it lists, so a success closes a half-open breaker, resets the count
    of a closed one, and does nothing to an open one. *)
Definition documented_step (o : op) (s : spec_state) : spec_state :=
  match o with
  | OpGetState now => spec_refresh now s
  | OpSuccess now =>
      match spec_refresh now s with
      | SOpen t => SOpen t
      | SClosed _ | SHalf _ => SClosed 0
      end
  | OpFailure now1 now2 => spec_failure now1 now2 s
  end.

(** A success that arrives while the breaker is open: of a call that was
    dispatched before it tripped. *)
Definition late_success (o : op) (s : spec_state) : bool :=
  match o, s with
  | OpSuccess now, SOpen t => bool_decide (now < t + 900000)
  | _, _ => false
  end.

(** The documented machine with one more arrow: a late success closes. *)
Definition spec_step (o : op) (s : spec_state) : spec_state :=
  if late_success o s then SClosed 0 else documented_step o s.

Fixpoint no_late_success (ops : list op) (s : spec_state) : bool :=
  match ops with
  | [] => true
  | o :: ops => negb (late_success o s) && no_late_success ops (documented_step o s)
  end.

Definition abs (e : BreakerEntry) : spec_state :=
  match state e, openedAt e with
  | closed, _ => SClosed (failures e)
  | open, Some t => SOpen t
  | half_open, Some t => SHalf t
  | _, None => SClosed (failures e)
  end.

(** The well-formed entries: closed below the threshold with no opening
    time, or tripped with the threshold reached and an opening time. *)
Definition wf_entry (e : BreakerEntry) : Prop :=
  match state e with
  | closed => 0 <= failures e < FAILURE_THRESHOLD /\ openedAt e = None
  | open | half_open => failures e = FAILURE_THRESHOLD /\ is_Some (openedAt e)
  end.

(** ** Lemmas *)

Lemma entry_of_getEntry id b : (getEntry id b).1 = entry_of id b.
Proof. unfold getEntry, entry_of. by destruct (jget id b). Qed.

Lemma entry_of_getEntry_snd id id' b :
  entry_of id' (getEntry id b).2 = entry_of id' b.
Proof.
  unfold getEntry, entry_of. destruct (jget id b) eqn:E; [done|]. cbn.
  rewrite jget_set. case_decide; [|done]. subst. by rewrite E.
Qed.

Lemma entry_of_set id id' e b :
  entry_of id' (jset id e b) = if decide (id = id') then e else entry_of id' b.
Proof. unfold entry_of. rewrite jget_set. by case_decide. Qed.

Lemma getState_fst now id b : (getState now id b).1 = state (refresh now (entry_of id b)).
Proof.
  unfold getState. rewrite <- entry_of_getEntry. by destruct (getEntry id b).
Qed.

Lemma entry_of_getState now id id' b :
  entry_of id' (getState now id b).2 =
  if decide (id = id') then refresh now (entry_of id b) else entry_of id' b.
Proof.
  unfold getState. pose proof (entry_of_getEntry id b) as E1.
  pose proof (entry_of_getEntry_snd id id' b) as E2.
  destruct (getEntry id b) as [e b'] eqn:E. cbn in *.
  rewrite entry_of_set. case_decide; [by subst|done].
Qed.

#[export] Hint Rewrite entry_of_getEntry entry_of_getEntry_snd entry_of_set
  getState_fst entry_of_getState : js.

Lemma entry_of_success now id id' b :
  entry_of id' (recordSuccess now id b) =
  if decide (id = id') then fresh_entry else entry_of id' b.
Proof.
  unfold recordSuccess. destruct (getEntry id b) as [e b1] eqn:E1.
  destruct (getState now id b1) as [s b2] eqn:E2. rewrite entry_of_set.
  case_decide as Hd; [done|].
  replace b2 with (getState now id b1).2 by by rewrite E2.
  rewrite entry_of_getState, decide_False by done.
  replace b1 with (getEntry id b).2 by by rewrite E1.
  by rewrite entry_of_getEntry_snd.
Qed.

(** [recordFailure] on the entry itself. *)
Definition fail_entry (now1 now2 : Z) (e : BreakerEntry) : BreakerEntry :=
  let e := refresh now1 e in
  match state e with
  | half_open => MkBreakerEntry open FAILURE_THRESHOLD (Some now2)
  | open => e
  | closed =>
      if failures e + 1 >=? FAILURE_THRESHOLD
      then MkBreakerEntry open (failures e + 1) (Some now2)
      else MkBreakerEntry closed (failures e + 1) (openedAt e)
  end.

Lemma entry_of_failure now1 now2 id id' b :
  entry_of id' (recordFailure now1 now2 id b) =
  if decide (id = id') then fail_entry now1 now2 (entry_of id b) else entry_of id' b.
Proof.
  unfold recordFailure.
  pose proof (entry_of_getEntry_snd id id' b) as G1.
  pose proof (entry_of_getEntry_snd id id b) as G2.
  destruct (getEntry id b) as [e0 b1]. cbn in G1, G2.
  pose proof (getState_fst now1 id b1) as S0.
  pose proof (entry_of_getState now1 id id' b1) as S1.
  pose proof (entry_of_getState now1 id id b1) as S2.
  rewrite decide_True in S2 by done.
  destruct (getState now1 id b1) as [cs b2]. cbn in S0, S1, S2.
  pose proof (entry_of_getEntry id b2) as H0.
  pose proof (entry_of_getEntry_snd id id' b2) as H1.
  destruct (getEntry id b2) as [e b3]. cbn in H0, H1.
  rewrite G2 in *. subst e cs. unfold fail_entry. rewrite S2 in *.
  destruct (decide (id = id')) as [->|Hne];
    destruct (state (refresh now1 (entry_of _ b))) eqn:Es; cbn;
    try (destruct (failures _ + 1 >=? FAILURE_THRESHOLD));
    rewrite ?entry_of_set, ?decide_True, ?decide_False by done; congruence.
Qed.

#[export] Hint Rewrite entry_of_success entry_of_failure : js.

Definition step_entry (o : op) (e : BreakerEntry) : BreakerEntry :=
  match o with
  | OpGetState now => refresh now e
  | OpSuccess _ => fresh_entry
  | OpFailure now1 now2 => fail_entry now1 now2 e
  end.

Lemma entry_of_apply_op id id' o b :
  entry_of id' (apply_op id o b) =
  if decide (id = id') then step_entry o (entry_of id b) else entry_of id' b.
Proof. destruct o; cbn [apply_op step_entry]; by autorewrite with js. Qed.

Lemma entry_of_run_ops id ops b :
  entry_of id (run_ops id ops b) = fold_left (fun e o => step_entry o e) ops (entry_of id b).
Proof.
  unfold run_ops. revert b. induction ops as [|o ops IH]; intros b; [done|].
  cbn [fold_left]. rewrite IH, entry_of_apply_op. by rewrite decide_True.
Qed.

Lemma entry_of_run_ops_ne id id' ops b :
  id <> id' -> entry_of id' (run_ops id ops b) = entry_of id' b.
Proof.
  intros Hne. unfold run_ops. revert b. induction ops as [|o ops IH]; intros b; [done|].
  cbn [fold_left]. rewrite IH, entry_of_apply_op. by rewrite decide_False.
Qed.

(** Case analysis over an entry and an operation, down to arithmetic on
    the failure count. *)
Ltac breaker_cases :=
  unfold step_entry, fail_entry, refresh, wf_entry, abs, spec_step, late_success,
    documented_step, spec_failure, spec_refresh, fresh_entry in *; cbn in *;
  repeat (destruct_match; cbn in *);
  intros; destruct_and?; reflect_bools; unfold FAILURE_THRESHOLD, OPEN_DURATION_MS in *; simplify_eq;
  try done; try (exfalso; lia); try (exfalso; by match goal with H : is_Some None |- _ => inversion H end);
  try (repeat split; by first [lia | eauto]).

Lemma wf_step o e : wf_entry e -> wf_entry (step_entry o e).
Proof. destruct e as [[] f [t|]], o as [now|now|n1 n2]; breaker_cases. Qed.

Lemma wf_fold ops e : wf_entry e -> wf_entry (fold_left (fun e o => step_entry o e) ops e).
Proof.
  revert e. induction ops as [|o ops IH]; intros e He; [done|]. by apply IH, wf_step.
Qed.

Lemma abs_step o e : wf_entry e -> abs (step_entry o e) = spec_step o (abs e).
Proof. destruct e as [[] f [t|]], o as [now|now|n1 n2]; breaker_cases. Qed.

Lemma abs_fold ops e :
  wf_entry e ->
  abs (fold_left (fun e o => step_entry o e) ops e) =
  fold_left (fun s o => spec_step o s) ops (abs e).
Proof.
  revert e. induction ops as [|o ops IH]; intros e He; [done|].
  cbn [fold_left]. rewrite IH by by apply wf_step. by rewrite abs_step.
Qed.

Lemma wf_fresh : wf_entry fresh_entry.
Proof. by cbn. Qed.

#[export] Hint Resolve wf_step wf_fold wf_fresh : js.

(** ** Theorems *)

(** Without a late success the extra arrow is never taken. *)
Lemma spec_documented ops s :
  no_late_success ops s = true ->
  fold_left (fun s o => spec_step o s) ops s = fold_left (fun s o => documented_step o s) ops s.
Proof.
  revert s. induction ops as [|o ops IH]; intros s; cbn [no_late_success fold_left]; [done|].
  intros [Ho Hops]%andb_prop. unfold spec_step at 2. apply negb_true_iff in Ho. rewrite Ho. by apply IH.
Qed.

(** Otherwise it is taken, for the first time after a history without. *)
Lemma late_success_found ops s :
  no_late_success ops s = false ->
  exists before now t after, ops = before ++ OpSuccess now :: after /\ now < t + 900000 /\
    fold_left (fun s o => spec_step o s) before s = SOpen t.
Proof.
  revert s. induction ops as [|o ops IH]; intros s; cbn [no_late_success]; [done|].
  destruct (late_success o s) eqn:Ho; cbn [negb andb].
  - intros _. destruct o as [|now|], s as [|t|]; try done. cbn in Ho. apply bool_decide_eq_true in Ho.
    by exists [], now, t, ops.
  - intros (before & now & t & after & -> & Ht & Hs)%IH. exists (o :: before), now, t, after.
    repeat split; [done|]. cbn [fold_left]. unfold spec_step at 2. by rewrite Ho.
Qed.

(** After any history of operations on a binding, starting from the
    empty map, its entry is well formed: below the threshold and without an
    opening time while closed, at the threshold and with one otherwise. *)
Theorem breaker_entry_wf id ops : wf_entry (entry_of id (run_ops id ops [])).
Proof. rewrite entry_of_run_ops. auto with js. Qed.

(** C33: on every history the implementation is in the state of the
    three-state machine with its literal limits -- closed with the number of
    consecutive failures below five, open since the instant of the fifth
    (or of the failed probe), half-open from fifteen minutes after it --
    where a success closes whatever the state is; and on every history in
    which no success arrives while the breaker is open it is the machine of
    the class comment, which closes only from half-open.  The arrow the
    comment does not have, open -> closed on a late success, is the one
    difference. *)
Theorem breaker_refines_spec id ops :
  let s := abs (entry_of id (run_ops id ops [])) in
  s = fold_left (fun s o => spec_step o s) ops (SClosed 0) /\
  (if no_late_success ops (SClosed 0)
   then s = fold_left (fun s o => documented_step o s) ops (SClosed 0)
   else exists before now t after,
     ops = before ++ OpSuccess now :: after /\ now < t + 900000 /\
     abs (entry_of id (run_ops id before [])) = SOpen t /\
     abs (entry_of id (run_ops id (before ++ [OpSuccess now]) [])) = SClosed 0).
Proof.
  cbn zeta. rewrite !entry_of_run_ops, abs_fold by auto with js. split; [done|].
  change (abs fresh_entry) with (SClosed 0) in *. change (entry_of id []) with fresh_entry.
  destruct (no_late_success ops (SClosed 0)) eqn:E; [by apply spec_documented|].
  destruct (late_success_found ops (SClosed 0) E) as (before & now & t & after & -> & Ht & Hs).
  exists before, now, t, after. rewrite !entry_of_run_ops, !abs_fold by auto with js.
  change (abs (entry_of id [])) with (SClosed 0). rewrite fold_left_app, Hs. repeat split; [done|].
  cbn [fold_left]. unfold spec_step, late_success. by rewrite bool_decide_true.
Qed.

(** A run of failures, each with its two clock reads. *)
Definition failure_run (times : list (Z * Z)) : list op :=
  map (fun t => OpFailure t.1 t.2) times.

Lemma spec_step_failure now1 now2 s : spec_step (OpFailure now1 now2) s = spec_failure now1 now2 s.
Proof. done. Qed.

Lemma spec_step_success now s : spec_step (OpSuccess now) s = SClosed 0.
Proof.
  unfold spec_step. destruct s as [n|t|t]; cbn; [done| |done]. unfold spec_refresh.
  repeat case_bool_decide; done || lia.
Qed.

Lemma failure_run_spec times n :
  0 <= n < FAILURE_THRESHOLD ->
  exists t, fold_left (fun s o => spec_step o s) (failure_run times) (SClosed n) =
    if n + Z.of_nat (length times) <? FAILURE_THRESHOLD
    then SClosed (n + Z.of_nat (length times)) else SOpen t.
Proof.
  assert (forall times t, exists t', fold_left (fun s o => spec_step o s)
            (failure_run times) (SOpen t) = SOpen t') as Hopen.
  { clear. intros times. induction times as [|[n1 n2] times IH]; intros t; [by exists t|].
    cbn [failure_run map fold_left fst snd]. rewrite spec_step_failure. unfold spec_failure, spec_refresh.
    case_bool_decide; apply IH. }
  revert n. induction times as [|[n1 n2] times IH]; intros n Hn.
  - exists 0. cbn. rewrite (proj2 (Z.ltb_lt _ _)) by lia. f_equal. lia.
  - cbn [failure_run map fold_left fst snd length]. rewrite spec_step_failure. unfold spec_failure.
    cbn [spec_refresh]. unfold FAILURE_THRESHOLD in *. case_bool_decide as E.
    + destruct (Hopen times n2) as [t Ht]. exists t. fold (failure_run times). rewrite Ht.
      rewrite (proj2 (Z.ltb_ge _ _)) by lia. done.
    + destruct (IH (n + 1) ltac:(lia)) as [t Ht]. exists t. fold (failure_run times).
      rewrite Ht. replace (n + 1 + Z.of_nat (length times))
        with (n + Z.of_nat (S (length times))) by lia. done.
Qed.

Lemma state_of_abs e : wf_entry e ->
  state e = match abs e with SClosed _ => closed | SOpen _ => open | SHalf _ => half_open end.
Proof. destruct e as [[] f [t|]]; breaker_cases. Qed.

(** After a success, a run of consecutive failures leaves the breaker
    closed up to four of them and open from the fifth on, whatever the
    clock says. *)
Theorem breaker_trips_at_threshold id before now times :
  state (entry_of id (run_ops id (before ++ OpSuccess now :: failure_run times) [])) =
  if Z.of_nat (length times) <? FAILURE_THRESHOLD then closed else open.
Proof.
  rewrite entry_of_run_ops. rewrite state_of_abs by auto with js.
  rewrite abs_fold by auto with js. rewrite fold_left_app. cbn [fold_left].
  rewrite spec_step_success. destruct (failure_run_spec times 0) as [t Ht]; [done|].
  rewrite Ht, Z.add_0_l. by destruct (_ <? _).
Qed.

(** Operations that a dropped or failing binding performs. *)
Definition no_success (o : op) : bool :=
  match o with OpSuccess _ => false | _ => true end.

Definition op_times_before (limit : Z) (o : op) : bool :=
  match o with
  | OpGetState now | OpSuccess now => now <? limit
  | OpFailure now1 _ => now1 <? limit
  end.

(** An open breaker answers [isOpen = true] exactly until fifteen
    minutes after it opened, whatever reads and failures happened in
    between (they do not extend or shorten the window). *)
Theorem breaker_open_window id b t ops now :
  abs (entry_of id b) = SOpen t -> wf_entry (entry_of id b) ->
  forallb (fun o => no_success o && op_times_before (t + OPEN_DURATION_MS) o) ops = true ->
  (isOpen now id (run_ops id ops b)).1 = (now <? t + OPEN_DURATION_MS).
Proof.
  intros Habs Hwf Hops.
  assert (abs (entry_of id (run_ops id ops b)) = SOpen t) as H.
  { rewrite entry_of_run_ops, abs_fold by done. rewrite Habs. clear -Hops.
    induction ops as [|o ops IH]; [done|]. cbn [forallb fold_left] in *.
    apply andb_prop in Hops as [Ho Hops].
    assert (spec_step o (SOpen t) = SOpen t) as ->; [|by apply IH].
    destruct o as [n|n|n1 n2]; cbn [no_success op_times_before andb] in Ho;
      reflect_bools; try done; cbn; unfold spec_failure, spec_refresh;
      rewrite bool_decide_false by (unfold OPEN_DURATION_MS in *; lia); done. }
  assert (wf_entry (entry_of id (run_ops id ops b))) as Hwf'.
  { rewrite entry_of_run_ops. auto with js. }
  unfold isOpen. pose proof (getState_fst now id (run_ops id ops b)) as E.
  destruct (getState now id (run_ops id ops b)) as [s b']. cbn in *. subst s.
  pose proof (abs_step (OpGetState now) _ Hwf') as Ha. cbn [step_entry] in Ha.
  rewrite H in Ha. rewrite state_of_abs by (apply (wf_step (OpGetState now)); done).
  rewrite Ha. cbn. unfold spec_refresh. unfold OPEN_DURATION_MS in *.
  destruct (Z.ltb_spec now (t + 15 * 60 * 1000));
    [rewrite (bool_decide_false (t + 900000 <= now)) by lia | rewrite (bool_decide_true (t + 900000 <= now)) by lia];
    done.
Qed.

Lemma breaker_open_window_witness :
  let b := run_ops "b1" (failure_run (replicate 5 (0, 7))) [] in
  (isOpen 900006 "b1" (run_ops "b1" [OpFailure 8 8; OpGetState 100] b)).1 = true /\
  (isOpen 900007 "b1" (run_ops "b1" [OpFailure 8 8; OpGetState 100] b)).1 = false.
Proof.
  cbn zeta.
  split; [rewrite (breaker_open_window _ _ 7) | rewrite (breaker_open_window _ _ 7)];
    vm_compute; by repeat split; eexists.
Defined.

(** Bindings are isolated: no history on one binding changes what the
    breaker answers for another. *)
Theorem breaker_isolation id id' ops b now :
  id <> id' -> (isOpen now id' (run_ops id ops b)).1 = (isOpen now id' b).1.
Proof.
  intros Hne. unfold isOpen.
  pose proof (getState_fst now id' (run_ops id ops b)) as E1.
  pose proof (getState_fst now id' b) as E2.
  rewrite entry_of_run_ops_ne in E1 by done.
  destruct (getState now id' (run_ops id ops b)), (getState now id' b). cbn in *. by subst.
Qed.

Lemma breaker_isolation_witness :
  "b1" <> "b2" /\
  (isOpen 50 "b2" (run_ops "b1" (failure_run (replicate 5 (0, 7))) [])).1 =
  (isOpen 50 "b2" []).1.
Proof. split; [done|]. apply (breaker_isolation "b1" "b2"). done. Defined.

(** A success closes the breaker from every state, also from open
    within the fifteen-minute window (a call that started before it
    tripped): the window and the half-open probe are then skipped. *)
Theorem breaker_success_closes id b now now' :
  entry_of id (recordSuccess now id b) = fresh_entry /\
  (isOpen now' id (recordSuccess now id b)).1 = false.
Proof.
  assert (entry_of id (recordSuccess now id b) = fresh_entry) as H.
  { rewrite entry_of_success. by rewrite decide_True. }
  split; [done|]. unfold isOpen.
  pose proof (getState_fst now' id (recordSuccess now id b)) as E. rewrite H in E.
  destruct (getState now' id _). cbn in *. by rewrite E.
Qed.

(** Half-open admits any number of events, not one probe: reads never
    leave the half-open state, so every event that arrives before an
    outcome is recorded passes the [isOpen] check. *)
Theorem breaker_half_open_admits_all id b t (reads : list Z) now :
  abs (entry_of id b) = SHalf t -> wf_entry (entry_of id b) ->
  (isOpen now id (run_ops id (map OpGetState reads) b)).1 = false.
Proof.
  intros Habs Hwf.
  assert (entry_of id (run_ops id (map OpGetState reads) b) = entry_of id b) as H.
  { rewrite entry_of_run_ops. induction reads as [|r reads IH]; [done|].
    cbn [map fold_left step_entry].
    assert (refresh r (entry_of id b) = entry_of id b) as ->; [|done].
    unfold refresh. revert Habs. by destruct (entry_of id b) as [[] f [o|]]. }
  unfold isOpen. pose proof (getState_fst now id (run_ops id (map OpGetState reads) b)) as E.
  rewrite H in E. destruct (getState now id _) as [s b']. cbn in *. subst s.
  revert Habs Hwf. by destruct (entry_of id b) as [[] f [o|]].
Qed.

Lemma breaker_half_open_admits_all_witness :
  let b := (getState 900007 "b1" (run_ops "b1" (failure_run (replicate 5 (0, 7))) [])).2 in
  (isOpen 900020 "b1" (run_ops "b1" (map OpGetState [900010; 900011]) b)).1 = false.
Proof.
  cbn zeta. apply (breaker_half_open_admits_all "b1" _ 7 [900010; 900011] 900020);
    vm_compute; by repeat split; eexists.
Defined.
