(* ===== verification/Queue.v ===== *)
(** * The keyed event queue (src/sync/queue.ts)

    [EventQueue] serialises the processing of items that share a key and
    lets different keys proceed concurrently, tracking at most [maxKeys]
    keys (least recently enqueued evicted first).

    The class is asynchronous: [enqueue] runs synchronously up to and
    including the start of a processor call, and each processor call that
    settles resumes its [runKey].  Each of these atomic pieces is one
    function on the queue state that also returns the effects it performed
    ([qevent]); [qstep] interleaves them freely.  Only the key is captured by
    the continuation of [runKey] (the entry is looked up again), so the
    state of a suspended call is the pair of its key and its item. *)

From S2P Require Import Prelude JsMap.

Section EventQueue.
Context {T : Type}.

(** [{ items: T[], processing: boolean }] *)
Record QEntry := MkQEntry { items : list T; processing : bool }.

(** The class' fields; a [Set] is a map to [unit]. *)
Record EventQueue := MkEventQueue {
  queues : jsmap string QEntry;
  activeKeys : jsmap string unit;
  lru_order : jsmap string unit;
  maxKeys : nat;
  idleWaiters : jsmap string (list nat)
}.

(** What a piece of code does outside the queue: call the processor on an
    item of a key, log an eviction, resolve a waiter's promise. *)
Inductive qevent :=
  | Start (key : string) (item : T)
  | Evict (key : string)
  | Wake (waiter : nat).

Definition new_queue (maxKeys : nat) : EventQueue := MkEventQueue [] [] [] maxKeys [].

Definition set_queues (qs : jsmap string QEntry) (q : EventQueue) : EventQueue :=
  MkEventQueue qs (activeKeys q) (lru_order q) (maxKeys q) (idleWaiters q).

(** ** LruTracker *)

Definition touch (key : string) (order : jsmap string unit) : jsmap string unit :=
  jset key tt (jdelete key order).

Definition evictOldest (capacity : nat) (order active : jsmap string unit)
    : option string * jsmap string unit * jsmap string unit :=
  if (jsize order <=? capacity)%nat then (None, order, active)
  else match jkeys order with
       | [] => (None, order, active)
       | oldest :: _ => (Some oldest, jdelete oldest order, jdelete oldest active)
       end.

(** ** Operations *)

(** [runKey] up to the processor call it awaits. *)
Definition runKey (key : string) (q : EventQueue) : EventQueue * list qevent :=
  match jget key (queues q) with
  | None => (q, [])
  | Some entry =>
      match items entry with
      | [] => (set_queues (jset key (MkQEntry [] false) (queues q)) q, [])
      | item :: rest =>
          (set_queues (jset key (MkQEntry rest true) (queues q)) q, [Start key item])
      end
  end.

Definition notifyIdleWaiters (key : string) (q : EventQueue) : EventQueue * list qevent :=
  match jget key (idleWaiters q) with
  | None => (q, [])
  | Some ws =>
      (MkEventQueue (queues q) (activeKeys q) (lru_order q) (maxKeys q)
         (jdelete key (idleWaiters q)), map Wake ws)
  end.

(** The rest of [runKey], once the processor call has settled (a rejection
    is caught and logged, so both outcomes continue here). *)
Definition runKey_resume (key : string) (q : EventQueue) : EventQueue * list qevent :=
  match jget key (queues q) with
  | None => (q, [])
  | Some next =>
      match items next with
      | _ :: _ => runKey key q
      | [] =>
          notifyIdleWaiters key
            (set_queues (jset key (MkQEntry (items next) false) (queues q)) q)
      end
  end.

(** The LRU bookkeeping of [enqueue], and the entry it makes sure exists. *)
Definition enqueue_track (key : string) (q : EventQueue) : EventQueue * list qevent :=
  let order := touch key (lru_order q) in
  let '(evicted, order, active) := evictOldest (maxKeys q) order (activeKeys q) in
  let qs := match evicted with Some k => jdelete k (queues q) | None => queues q end in
  let '(qs, active) :=
    if jhas key qs then (qs, active)
    else (jset key (MkQEntry [] false) qs, jset key tt active) in
  (MkEventQueue qs active order (maxKeys q) (idleWaiters q),
   match evicted with Some k => [Evict k] | None => [] end).

Definition enqueue (key : string) (item : T) (q : EventQueue) : EventQueue * list qevent :=
  let '(q, ev) := enqueue_track key q in
  match jget key (queues q) with
  | None => (q, ev)
  | Some entry =>
      let q := set_queues
                 (jset key (MkQEntry (items entry ++ [item]) (processing entry)) (queues q)) q in
      if processing entry then (q, ev)
      else let '(q, ev') := runKey key q in (q, ev ++ ev')
  end.

Definition pendingCount (key : string) (q : EventQueue) : nat :=
  match jget key (queues q) with Some e => length (items e) | None => 0 end.

Definition isIdle (key : string) (q : EventQueue) : bool :=
  match jget key (queues q) with
  | None => true
  | Some e => negb (processing e) && bool_decide (length (items e) = 0)
  end.

(** [w] names the promise of this call. *)
Definition waitForIdle (w : nat) (key : string) (q : EventQueue) : EventQueue * list qevent :=
  if isIdle key q then (q, [Wake w])
  else (MkEventQueue (queues q) (activeKeys q) (lru_order q) (maxKeys q)
          (jset key (default [] (jget key (idleWaiters q)) ++ [w]) (idleWaiters q)), []).

(** [drainAll] registers one waiter per tracked key ([w], [w+1], ...); its
    promise resolves when all of them have (or its timer fires). *)
Fixpoint wait_all (w : nat) (keys : list string) (q : EventQueue)
    : EventQueue * list qevent :=
  match keys with
  | [] => (q, [])
  | k :: keys =>
      let '(q, ev) := waitForIdle w k q in
      let '(q, ev') := wait_all (S w) keys q in
      (q, ev ++ ev')
  end.

Definition drainAll (w : nat) (q : EventQueue) : EventQueue * list qevent :=
  wait_all w (jkeys (queues q)) q.

(** ** The running system

    The queue, the processor calls that have not settled, and the
    histories the properties talk about. *)
Record World := MkWorld {
  queue : EventQueue;
  running : list (string * T);
  accepted : list (string * T);
  finished : list (string * T);
  evictions : list string;
  waiting : list nat;
  woken : list nat
}.

Definition starts (evs : list qevent) : list (string * T) :=
  omap (fun e => match e with Start k x => Some (k, x) | _ => None end) evs.
Definition evicts (evs : list qevent) : list string :=
  omap (fun e => match e with Evict k => Some k | _ => None end) evs.
Definition wakes (evs : list qevent) : list nat :=
  omap (fun e => match e with Wake w => Some w | _ => None end) evs.

Definition perform (r : EventQueue * list qevent) (w : World) : World :=
  MkWorld r.1 (running w ++ starts r.2) (accepted w) (finished w)
    (evictions w ++ evicts r.2) (waiting w) (woken w ++ wakes r.2).

Definition init (maxKeys : nat) : World := MkWorld (new_queue maxKeys) [] [] [] [] [] [].

Definition do_enqueue (key : string) (item : T) (w : World) : World :=
  perform (enqueue key item (queue w))
    (MkWorld (queue w) (running w) (accepted w ++ [(key, item)]) (finished w)
       (evictions w) (waiting w) (woken w)).

(** The [i]-th running processor call settles. *)
Definition do_settle (i : nat) (w : World) : World :=
  match running w !! i with
  | None => w
  | Some (key, item) =>
      perform (runKey_resume key (queue w))
        (MkWorld (queue w) (delete i (running w)) (accepted w)
           (finished w ++ [(key, item)]) (evictions w) (waiting w) (woken w))
  end.

Definition do_wait (p : nat) (key : string) (w : World) : World :=
  perform (waitForIdle p key (queue w))
    (MkWorld (queue w) (running w) (accepted w) (finished w) (evictions w)
       (waiting w ++ [p]) (woken w)).

Inductive qstep : World -> World -> Prop :=
  | step_enqueue w key item : qstep w (do_enqueue key item w)
  | step_settle w i key item : running w !! i = Some (key, item) -> qstep w (do_settle i w)
  | step_wait w p key : p ∉ waiting w -> qstep w (do_wait p key w).

Inductive reachable (maxKeys : nat) : World -> Prop :=
  | reach_init : reachable maxKeys (init maxKeys)
  | reach_step w w' : reachable maxKeys w -> qstep w w' -> reachable maxKeys w'.

(** The items of one key, in order. *)
Definition of_key (key : string) (l : list (string * T)) : list T :=
  map snd (filter (fun p => p.1 = key) l).

Definition pending (key : string) (w : World) : list T :=
  match jget key (queues (queue w)) with Some e => items e | None => [] end.
End EventQueue.

Arguments EventQueue : clear implicits.
Arguments QEntry : clear implicits.
Arguments qevent : clear implicits.
Arguments World : clear implicits.

(** ** Histories per key *)
Section Histories.
Context {T : Type}.
Implicit Types (l : list (string * T)) (q : EventQueue T) (ev : list (qevent T)).

Lemma of_key_app key l1 l2 : of_key key (l1 ++ l2) = of_key key l1 ++ of_key key l2.
Proof. unfold of_key. by rewrite filter_app, map_app. Qed.

Lemma of_key_cons key k (x : T) l :
  of_key key ((k, x) :: l) = if decide (k = key) then x :: of_key key l else of_key key l.
Proof.
  unfold of_key. destruct (decide (k = key)).
  - by rewrite filter_cons_True.
  - by rewrite filter_cons_False.
Qed.

Lemma of_key_nil key : of_key key ([] : list (string * T)) = [].
Proof. done. Qed.

Lemma of_key_single_eq key (x : T) : of_key key [(key, x)] = [x].
Proof. rewrite of_key_cons. by rewrite decide_True. Qed.

Lemma of_key_single_ne key k (x : T) : k <> key -> of_key key [(k, x)] = [].
Proof. intros H. rewrite of_key_cons. by rewrite decide_False. Qed.

Lemma of_key_delete_ne key k (x : T) l i :
  l !! i = Some (k, x) -> k <> key -> of_key key (delete i l) = of_key key l.
Proof.
  intros Hi Hne. rewrite <- (take_drop_middle l i _ Hi) at 2.
  rewrite delete_take_drop, !of_key_app, of_key_cons. by rewrite decide_False.
Qed.

Lemma of_key_delete_eq key (x : T) l i :
  l !! i = Some (key, x) -> length (of_key key l) <= 1 ->
  of_key key l = [x] /\ of_key key (delete i l) = [].
Proof.
  intros Hi. rewrite <- (take_drop_middle l i _ Hi) at 1 2.
  rewrite delete_take_drop, !of_key_app, of_key_cons, decide_True by done.
  rewrite length_app. cbn [length]. intros Hlen.
  assert (of_key key (take i l) = []) as -> by (apply nil_length_inv; lia).
  assert (of_key key (drop (S i) l) = []) as -> by (apply nil_length_inv; lia).
  done.
Qed.

Lemma starts_app ev1 ev2 : starts (ev1 ++ ev2) = starts ev1 ++ starts ev2.
Proof. apply omap_app. Qed.
Lemma evicts_app ev1 ev2 : evicts (ev1 ++ ev2) = evicts ev1 ++ evicts ev2.
Proof. apply omap_app. Qed.
Lemma wakes_app ev1 ev2 : wakes (ev1 ++ ev2) = wakes ev1 ++ wakes ev2.
Proof. apply omap_app. Qed.

Lemma wakes_map (ws : list nat) :
  starts (map (@Wake T) ws) = [] /\ evicts (map (@Wake T) ws) = [] /\
  wakes (map (@Wake T) ws) = ws.
Proof.
  induction ws as [|w ws (IH1 & IH2 & IH3)]; [done|]. cbn. repeat split; [done..|].
  by f_equal.
Qed.

(** ** What each atomic piece does, key by key *)

Definition entry_or_fresh key q : QEntry T :=
  default (MkQEntry [] false) (jget key (queues q)).

Lemma enqueue_track_effect key q q' ev :
  enqueue_track key q = (q', ev) -> evicts ev = [] ->
  ev = [] /\ idleWaiters q' = idleWaiters q /\
  (forall k, k <> key -> jget k (queues q') = jget k (queues q)) /\
  jget key (queues q') = Some (entry_or_fresh key q).
Proof.
  unfold enqueue_track, entry_or_fresh.
  destruct (evictOldest _ _ _) as [[[old|] order] active].
  { destruct (if jhas key _ then _ else _) as [qs act]. intros [= <- <-]. by cbn. }
  unfold jhas. destruct (jget key (queues q)) eqn:E; intros [= <- <-]; cbn; intros _.
  - split_and!; try done.
  - split_and!; try done; [|by rewrite jget_set_eq].
    intros k Hk. by rewrite jget_set_ne.
Qed.

Lemma enqueue_effect key x q q' ev :
  enqueue key x q = (q', ev) -> evicts ev = [] ->
  idleWaiters q' = idleWaiters q /\ wakes ev = [] /\
  (forall k, k <> key -> jget k (queues q') = jget k (queues q)) /\
  exists e', jget key (queues q') = Some e' /\ processing e' = true /\
    let e := entry_or_fresh key q in
    if processing e then items e' = items e ++ [x] /\ starts ev = []
    else exists i, i :: items e' = items e ++ [x] /\ starts ev = [(key, i)].
Proof.
  unfold enqueue. destruct (enqueue_track key q) as [q1 ev1] eqn:Et.
  intros Heq Hev.
  assert (evicts ev1 = []) as Hev1.
  { revert Heq. destruct (jget key (queues q1)) as [e|]; [|by intros [= <- <-]].
    destruct (processing e); [by intros [= <- <-]|].
    destruct (runKey _ _) as [q2 ev2]. intros [= <- <-].
    rewrite evicts_app in Hev. by apply app_eq_nil in Hev as [-> _]. }
  destruct (enqueue_track_effect _ _ _ _ Et Hev1) as (-> & Hw & Hne & Hk).
  rewrite Hk in Heq. set (e := entry_or_fresh key q) in *.
  destruct (processing e) eqn:Ep.
  - injection Heq as <- <-. cbn. split_and!; try done.
    + intros k Hk'. rewrite jget_set_ne by done. auto.
    + eexists. rewrite jget_set_eq. split; [done|]. done.
  - revert Heq. unfold runKey. cbn. rewrite jget_set_eq. cbn.
    destruct (items e ++ [x]) as [|i rest] eqn:Ei; [by destruct (items e)|].
    cbn. intros [= <- <-]. cbn. split_and!; try done.
    + intros k Hk'. rewrite !jget_set_ne by done. auto.
    + eexists. rewrite jget_set_eq. split; [done|]. split; [done|]. by exists i.
Qed.

Lemma resume_effect key q q' ev :
  runKey_resume key q = (q', ev) ->
  evicts ev = [] /\ (forall k, k <> key -> jget k (queues q') = jget k (queues q)) /\
  match jget key (queues q) with
  | None => q' = q /\ ev = []
  | Some e =>
      match items e with
      | i :: rest =>
          jget key (queues q') = Some (MkQEntry rest true) /\
          starts ev = [(key, i)] /\ wakes ev = [] /\ idleWaiters q' = idleWaiters q
      | [] =>
          jget key (queues q') = Some (MkQEntry [] false) /\ starts ev = [] /\
          wakes ev = default [] (jget key (idleWaiters q)) /\
          idleWaiters q' = jdelete key (idleWaiters q)
      end
  end.
Proof.
  unfold runKey_resume, runKey. destruct (jget key (queues q)) as [e|] eqn:E.
  2: { intros [= <- <-]. done. }
  destruct (items e) as [|i rest] eqn:Ei.
  - unfold notifyIdleWaiters. cbn.
    destruct (jget key (idleWaiters q)) as [ws|] eqn:Ew; intros [= <- <-]; cbn.
    + destruct (wakes_map ws) as (H1 & H2 & H3). rewrite H1, H2, H3.
      split_and!; try done; [|by rewrite jget_set_eq].
      intros k Hk. by rewrite jget_set_ne.
    + split_and!; try done; [|by rewrite jget_set_eq|].
      * intros k Hk. by rewrite jget_set_ne.
      * symmetry. apply jdelete_not_in. by apply jget_None_keys.
  - rewrite ?E, ?Ei. intros [= <- <-]. cbn.
    split_and!; try done; [|by rewrite jget_set_eq].
    intros k Hk. by rewrite jget_set_ne.
Qed.

Lemma wait_effect p key q q' ev :
  waitForIdle p key q = (q', ev) ->
  evicts ev = [] /\ starts ev = [] /\ queues q' = queues q /\
  if isIdle key q then wakes ev = [p] /\ idleWaiters q' = idleWaiters q
  else wakes ev = [] /\
       idleWaiters q' = jset key (default [] (jget key (idleWaiters q)) ++ [p]) (idleWaiters q).
Proof. unfold waitForIdle. destruct (isIdle key q); by intros [= <- <-]. Qed.
End Histories.

(** ** The per-key invariant

    As long as nothing was evicted: a key has one running call while its
    entry is [processing] and none (and no waiting item) otherwise, and what
    was enqueued under it is what finished, then what runs, then what waits,
    in that order. *)
Section Invariant.
Context {T : Type}.
Implicit Types (w : World T) (key : string).

Definition run_state key w : Prop :=
  match jget key (queues (queue w)) with
  | None => of_key key (running w) = []
  | Some e =>
      if processing e then length (of_key key (running w)) = 1
      else of_key key (running w) = [] /\ items e = []
  end.

Definition history key w : Prop :=
  of_key key (accepted w) =
  of_key key (finished w) ++ of_key key (running w) ++ pending key w.

Definition key_inv w : Prop :=
  evictions w = [] -> forall key, run_state key w /\ history key w.

Lemma run_state_le key w : run_state key w -> length (of_key key (running w)) <= 1.
Proof.
  unfold run_state. destruct (jget _ _) as [e|]; [destruct (processing e)|].
  - lia.
  - intros [-> _]. cbn. lia.
  - intros ->. cbn. lia.
Qed.

Lemma key_inv_init n : key_inv (init n).
Proof. intros _ key. done. Qed.

Lemma key_inv_enqueue k x w : key_inv w -> key_inv (do_enqueue k x w).
Proof.
  unfold key_inv, do_enqueue, perform. cbn [evictions].
  intros IH [Hev Hev']%app_eq_nil key.
  destruct (IH Hev key) as [Hr Hh]. clear IH.
  destruct (enqueue k x (queue w)) as [q' ev] eqn:E.
  destruct (enqueue_effect _ _ _ _ _ E Hev') as (_ & _ & Hne & e' & Hk & Hp & He).
  unfold run_state, history, pending in *.
  cbn [queue running accepted finished fst snd] in *. rewrite !of_key_app.
  destruct (decide (key = k)) as [->|Hkey].
  - rewrite Hk, Hp, of_key_single_eq.
    unfold entry_or_fresh in He. destruct (jget k (queues (queue w))) as [e|]; cbn in He.
    + destruct (processing e).
      * destruct He as [-> ->]. rewrite Hh, app_nil_r, <- !app_assoc. done.
      * destruct Hr as [Hr Hi]. rewrite Hi in *. cbn in He.
        destruct He as (i & [= -> <-] & ->). rewrite Hh, Hr, of_key_single_eq. cbn.
        by rewrite !app_nil_r.
    + destruct He as (i & [= -> <-] & ->). rewrite Hh, Hr, of_key_single_eq. cbn.
      by rewrite !app_nil_r.
  - rewrite Hne, of_key_single_ne by done.
    assert (of_key key (starts ev) = []) as ->.
    { cbn in He. destruct (processing (entry_or_fresh k (queue w))).
      - by destruct He as [_ ->].
      - destruct He as (i & _ & ->). by rewrite of_key_single_ne. }
    by rewrite !app_nil_r.
Qed.

Lemma key_inv_settle i w : key_inv w -> key_inv (do_settle i w).
Proof.
  unfold key_inv, do_settle. destruct (running w !! i) as [[k x]|] eqn:Hi; [|done].
  unfold perform. cbn [evictions]. intros IH [Hev Hev']%app_eq_nil key.
  pose proof (IH Hev key) as [Hr Hh].
  pose proof (run_state_le k w (proj1 (IH Hev k))) as Hle. clear IH.
  destruct (runKey_resume k (queue w)) as [q' ev] eqn:E.
  destruct (resume_effect _ _ _ _ E) as (_ & Hne & He).
  unfold run_state, history, pending in *.
  cbn [queue running accepted finished fst snd] in *. rewrite !of_key_app.
  destruct (decide (key = k)) as [->|Hkey].
  - destruct (of_key_delete_eq _ _ _ _ Hi Hle) as [Hx Hd].
    rewrite Hd, Hx, of_key_single_eq in *.
    destruct (jget k (queues (queue w))) as [e|]; [|done].
    destruct (processing e); [|by destruct Hr].
    destruct (items e) as [|j rest] eqn:Ei.
    + destruct He as (-> & -> & _). rewrite Hh. cbn. by rewrite !app_nil_r.
    + destruct He as (-> & -> & _). rewrite Hh, of_key_single_eq. cbn.
      by rewrite <- !app_assoc.
  - rewrite Hne, of_key_single_ne by done. rewrite (of_key_delete_ne _ _ _ _ _ Hi) by done.
    assert (of_key key (starts ev) = []) as ->.
    { destruct (jget k (queues (queue w))) as [e|]; [|by destruct He as [_ ->]].
      destruct (items e); [by destruct He as (_ & -> & _)|].
      destruct He as (_ & -> & _). by rewrite of_key_single_ne. }
    by rewrite !app_nil_r.
Qed.

Lemma key_inv_wait p k w : key_inv w -> key_inv (do_wait p k w).
Proof.
  unfold key_inv, do_wait, perform. cbn [evictions].
  intros IH [Hev Hev']%app_eq_nil key. specialize (IH Hev key).
  destruct (waitForIdle p k (queue w)) as [q' ev] eqn:E.
  destruct (wait_effect _ _ _ _ _ E) as (_ & Hs & Hq & _).
  unfold run_state, history, pending in *. cbn [queue running accepted finished fst snd].
  by rewrite Hs, Hq, app_nil_r.
Qed.

Lemma key_inv_reachable n w : reachable n w -> key_inv w.
Proof.
  induction 1 as [|w w' _ IH Hs]; [apply key_inv_init|].
  destruct Hs; auto using key_inv_enqueue, key_inv_settle, key_inv_wait.
Qed.
End Invariant.

(** ** Bounded tracking

    The LRU order, the active set and the queue map always hold the same
    keys, and no more than [maxKeys] of them. *)
Section Tracking.
Context {T : Type}.
Implicit Types (q : EventQueue T) (w : World T) (key : string).

Record tracked q : Prop := MkTracked {
  tr_queues_wf : jwf (queues q);
  tr_order_wf : jwf (lru_order q);
  tr_active_wf : jwf (activeKeys q);
  tr_order : forall k, k ∈ jkeys (queues q) <-> k ∈ jkeys (lru_order q);
  tr_active : forall k, k ∈ jkeys (queues q) <-> k ∈ jkeys (activeKeys q);
  tr_size : jsize (lru_order q) <= maxKeys q
}.

(** The operations other than [enqueue_track] keep the tracked keys. *)
Definition same_tracking q q' : Prop :=
  jkeys (queues q') = jkeys (queues q) /\ lru_order q' = lru_order q /\
  activeKeys q' = activeKeys q /\ maxKeys q' = maxKeys q.

Lemma tracked_same q q' : same_tracking q q' -> tracked q -> tracked q'.
Proof.
  intros (H1 & H2 & H3 & H4) [A B C D E F].
  split; unfold jwf in *; rewrite ?H1, ?H2, ?H3, ?H4; done.
Qed.

Lemma same_tracking_set k e q :
  k ∈ jkeys (queues q) -> same_tracking q (set_queues (jset k e (queues q)) q).
Proof. intros Hk. split; [|done]. cbn. rewrite jkeys_set. by rewrite decide_True. Qed.

Lemma same_tracking_runKey k q : same_tracking q (runKey k q).1.
Proof.
  unfold runKey. destruct (jget k (queues q)) eqn:E; [|done].
  apply jget_Some_keys in E. destruct (items _); by apply same_tracking_set.
Qed.

Lemma same_tracking_resume k q : same_tracking q (runKey_resume k q).1.
Proof.
  unfold runKey_resume. destruct (jget k (queues q)) as [e|] eqn:E; [|done].
  apply jget_Some_keys in E.
  destruct (items e) eqn:Ei; [|apply same_tracking_runKey].
  unfold notifyIdleWaiters. pose proof (same_tracking_set k (MkQEntry [] false) q E) as H.
  by destruct (jget k _).
Qed.

Lemma same_tracking_wait p k q : same_tracking q (waitForIdle p k q).1.
Proof. unfold waitForIdle. by destruct (isIdle k q). Qed.

Lemma jkeys_touch key order :
  jwf order -> jkeys (touch key order) = jkeys (jdelete key order) ++ [key].
Proof.
  intros Hwf. unfold touch. rewrite jkeys_set, decide_False; [done|].
  rewrite elem_of_jkeys_delete by done. tauto.
Qed.

Lemma jwf_touch key order : jwf order -> jwf (touch key order).
Proof. intros. unfold touch. auto with js. Qed.

Lemma elem_of_touch key order k :
  jwf order -> k ∈ jkeys (touch key order) <-> k = key \/ k ∈ jkeys order.
Proof.
  intros Hwf. unfold touch. rewrite elem_of_jkeys_set, elem_of_jkeys_delete by done.
  destruct (decide (k = key)); tauto.
Qed.

Lemma jsize_touch key order : jwf order -> jsize (touch key order) <= S (jsize order).
Proof.
  intros Hwf. destruct (decide (key ∈ jkeys order)) as [Hin|Hn].
  - pose proof (jsize_delete_in order key Hin).
    unfold touch. pose proof (jsize_set_le (jdelete key order) key tt). lia.
  - unfold touch. rewrite jdelete_not_in by done.
    pose proof (jsize_set_le order key tt). lia.
Qed.

(** With room for one key, the evicted key is never the one enqueued. *)
Lemma evictOldest_spec key n order active ev order' active' :
  1 <= n -> jwf order -> jwf active -> jsize order <= n ->
  evictOldest n (touch key order) active = (ev, order', active') ->
  jwf order' /\ jwf active' /\ jsize order' <= n /\
  match ev with
  | None => order' = touch key order /\ active' = active
  | Some old =>
      old <> key /\ old ∈ jkeys order /\ n < jsize (touch key order) /\
      order' = jdelete old (touch key order) /\ active' = jdelete old active
  end.
Proof.
  intros Hn Hwo Hwa Hsz. unfold evictOldest.
  pose proof (jwf_touch key order Hwo) as Hwt.
  destruct (jsize (touch key order) <=? n)%nat eqn:E; reflect_bools.
  { intros [= <- <- <-]. done. }
  assert (length (jkeys (touch key order)) = jsize (touch key order)) as Hlen
    by apply length_map.
  rewrite jkeys_touch in Hlen |- * by done. rewrite length_app in Hlen. cbn in Hlen.
  destruct (jkeys (jdelete key order)) as [|old ks] eqn:Ek; cbn in Hlen |- *; [lia|].
  intros [= <- <- <-].
  assert (old ∈ jkeys (jdelete key order)) as Hold by (rewrite Ek; left).
  apply elem_of_jkeys_delete in Hold as [Hne Hin]; [|done].
  assert (old ∈ jkeys (touch key order)) as Hit by (apply elem_of_touch; auto).
  pose proof (jsize_delete_in _ _ Hit). pose proof (jsize_touch key order Hwo).
  split_and!; auto with js; lia.
Qed.

Lemma tracked_enqueue_track key q :
  1 <= maxKeys q -> tracked q ->
  tracked (enqueue_track key q).1 /\ maxKeys (enqueue_track key q).1 = maxKeys q /\
  key ∈ jkeys (queues (enqueue_track key q).1) /\
  (forall old, old ∈ evicts (enqueue_track key q).2 ->
    maxKeys q < jsize (touch key (lru_order q))).
Proof.
  intros Hn [Hq Ho Ha Hqo Hqa Hsz]. unfold enqueue_track.
  destruct (evictOldest _ _ _) as [[ev order'] active'] eqn:E.
  destruct (evictOldest_spec _ _ _ _ _ _ _ Hn Ho Ha Hsz E) as (Ho' & Ha' & Hsz' & Hev).
  set (qs := match ev with Some k => jdelete k (queues q) | None => queues q end).
  assert (jwf qs) as Hqs by (unfold qs; destruct ev; auto with js).
  assert (forall k, k ∈ jkeys order' <-> k = key \/ k ∈ jkeys qs) as Hk1.
  { intros k. unfold qs. destruct ev as [old|].
    - destruct Hev as (Hne & Hin & _ & -> & ->).
      rewrite !elem_of_jkeys_delete, elem_of_touch, Hqo by auto using jwf_touch.
      destruct (decide (k = key)) as [->|]; [|tauto]. split; [by left|]. intros _. auto.
    - destruct Hev as [-> ->]. rewrite elem_of_touch, Hqo by done. done. }
  assert (forall k, k ∈ jkeys active' <-> k ∈ jkeys qs) as Hk2.
  { intros k. unfold qs. destruct ev as [old|].
    - destruct Hev as (_ & _ & _ & _ & ->). rewrite !elem_of_jkeys_delete, Hqa by done. done.
    - destruct Hev as [_ ->]. by rewrite Hqa. }
  assert (forall old, old ∈ evicts (match ev with Some k => [@Evict T k] | None => [] end) ->
            maxKeys q < jsize (touch key (lru_order q))) as Hev'.
  { intros old. destruct ev as [o|]; cbn; [|by intros ?%elem_of_nil]. intros _. tauto. }
  clearbody qs. destruct (jhas key qs) eqn:Eh; cbn.
  - apply jhas_spec in Eh. split_and!; auto. split; cbn; auto; intros k.
    + rewrite Hk1. split; [by right | by intros [->|]].
    + by rewrite Hk2.
  - split_and!; auto; [|apply elem_of_jkeys_set; by left].
    split; cbn; auto with js; intros k; rewrite !elem_of_jkeys_set; [by rewrite Hk1|by rewrite Hk2].
Qed.

Lemma tracked_enqueue key x q :
  1 <= maxKeys q -> tracked q ->
  same_tracking (enqueue_track key q).1 (enqueue key x q).1.
Proof.
  intros Hn Ht. destruct (tracked_enqueue_track key q Hn Ht) as (_ & _ & Hk & _).
  unfold enqueue. destruct (enqueue_track key q) as [q1 ev1]. cbn [fst] in *.
  destruct (jget key (queues q1)) as [e|] eqn:E; [|done].
  pose proof (same_tracking_set key (MkQEntry (items e ++ [x]) (processing e)) q1 Hk) as H1.
  destruct (processing e); [done|].
  pose proof (same_tracking_runKey key
    (set_queues (jset key (MkQEntry (items e ++ [x]) false) (queues q1)) q1)) as H2.
  destruct (runKey _ _) as [q2 ev2]. cbn in *. unfold same_tracking in *.
  destruct_and!. split_and!; cbn in *; congruence.
Qed.

Lemma tracked_init n : tracked (new_queue (T := T) n).
Proof. split; cbn; auto with js; try done. unfold jsize. cbn. lia. Qed.

Lemma tracked_reachable n w :
  1 <= n -> reachable n w -> tracked (queue w) /\ maxKeys (queue w) = n.
Proof.
  intros Hn. induction 1 as [|w w' _ [IH Hm] Hs]; [split; [apply tracked_init | done]|].
  destruct Hs as [w key x | w i key x Hi | w p key Hp].
  - unfold do_enqueue. cbn [queue perform].
    destruct (tracked_enqueue_track key (queue w)) as (Ht & Hm' & _); [lia|done|].
    pose proof (tracked_enqueue key x (queue w) ltac:(lia) IH) as Hsame. split.
    + by eapply tracked_same.
    + destruct Hsame as (_ & _ & _ & ->). congruence.
  - unfold do_settle. rewrite Hi. cbn [queue perform].
    pose proof (same_tracking_resume key (queue w)) as Hsame. split.
    + by eapply tracked_same.
    + destruct Hsame as (_ & _ & _ & ->). done.
  - unfold do_wait. cbn [queue perform].
    pose proof (same_tracking_wait p key (queue w)) as Hsame. split.
    + by eapply tracked_same.
    + destruct Hsame as (_ & _ & _ & ->). done.
Qed.
End Tracking.

(** ** Evictions only happen past the bound *)
Section Evictions.
Context {T : Type}.
Implicit Types (q : EventQueue T) (w : World T) (key : string).

Lemma evicts_enqueue key x q :
  evicts (enqueue key x q).2 = evicts (enqueue_track key q).2.
Proof.
  unfold enqueue. destruct (enqueue_track key q) as [q1 ev1].
  destruct (jget key (queues q1)) as [e|]; [|done].
  destruct (processing e); [done|]. unfold runKey. cbn [queues set_queues].
  rewrite jget_set_eq. cbn [items].
  destruct (items e ++ [x]); cbn [snd]; rewrite evicts_app; apply app_nil_r.
Qed.

Lemma accepted_keys n w k :
  1 <= n -> reachable n w -> k ∈ jkeys (lru_order (queue w)) -> k ∈ map fst (accepted w).
Proof.
  intros Hn Hr. revert k. induction Hr as [|w w' Hr IH Hs]; intros k; [by intros ?%elem_of_nil|].
  destruct (tracked_reachable n w Hn Hr) as [Ht Hm].
  assert (1 <= maxKeys (queue w)) as Hn' by (rewrite Hm; done).
  destruct Hs as [w key x | w i key x Hi | w p key Hp].
  - cbn [do_enqueue perform queue accepted]. rewrite map_app, elem_of_app.
    destruct (tracked_enqueue key x (queue w) Hn' Ht) as (_ & -> & _ & _).
    unfold enqueue_track.
    destruct (evictOldest _ _ _) as [[ev order'] active'] eqn:E.
    destruct Ht as [_ Ho Ha _ _ Hsz].
    destruct (evictOldest_spec _ _ _ _ _ _ _ Hn' Ho Ha Hsz E) as (_ & _ & _ & Hev).
    destruct (if jhas key _ then _ else _) as [qs act]. cbn [fst lru_order].
    assert (k ∈ jkeys order' -> k ∈ jkeys (touch key (lru_order (queue w)))) as Hsub.
    { destruct ev as [o|]; [destruct Hev as (_ & _ & _ & -> & _) | destruct Hev as [-> _]; intros Hk; exact Hk].
      intros Hk. eapply elem_of_sublist; [exact Hk | apply jkeys_delete]. }
    intros Hk%Hsub. apply elem_of_touch in Hk as [->|Hk]; [|left; auto|done].
    right. cbn. left.
  - unfold do_settle. rewrite Hi. cbn [perform queue accepted].
    destruct (same_tracking_resume key (queue w)) as (_ & -> & _ & _). auto.
  - cbn [do_wait perform queue accepted].
    destruct (same_tracking_wait p key (queue w)) as (_ & -> & _ & _). auto.
Qed.

Lemma distinct_length (l1 l2 : list string) :
  NoDup l1 -> (forall k, k ∈ l1 -> k ∈ l2) -> length l1 <= length (remove_dups l2).
Proof.
  intros Hd Hsub. apply submseteq_length, NoDup_submseteq; [done|].
  intros k Hk. apply elem_of_remove_dups. auto.
Qed.

Lemma evictions_settle i w : evictions (do_settle i w) = evictions w.
Proof.
  unfold do_settle. destruct (running w !! i) as [[k x]|]; [|done].
  cbn [perform evictions queue]. destruct (runKey_resume k (queue w)) as [q' ev] eqn:E.
  destruct (resume_effect _ _ _ _ E) as [H _]. cbn [snd]. by rewrite H, app_nil_r.
Qed.

Lemma evictions_wait p k w : evictions (do_wait p k w) = evictions w.
Proof.
  cbn [do_wait perform evictions queue]. destruct (waitForIdle p k (queue w)) as [q' ev] eqn:E.
  destruct (wait_effect _ _ _ _ _ E) as [H _]. cbn [snd]. by rewrite H, app_nil_r.
Qed.

Lemma no_eviction n w :
  1 <= n -> reachable n w -> length (remove_dups (map fst (accepted w))) <= n ->
  evictions w = [].
Proof.
  intros Hn Hr. induction Hr as [|w w' Hr IH Hs]; [done|].
  destruct (tracked_reachable n w Hn Hr) as [Ht Hm].
  assert (1 <= maxKeys (queue w)) as Hn' by (rewrite Hm; done).
  destruct Hs as [w key x | w i key x Hi | w p key Hp].
  - cbn [do_enqueue perform accepted evictions]. intros Hle.
    assert (length (remove_dups (map fst (accepted w))) <= n) as Hle'.
    { etrans; [|exact Hle]. apply distinct_length; [apply NoDup_remove_dups|].
      intros k. rewrite elem_of_remove_dups, map_app, elem_of_app. by left. }
    rewrite (IH Hle'), evicts_enqueue. cbn [app].
    destruct (tracked_enqueue_track key (queue w) Hn' Ht) as (_ & _ & _ & Hev).
    destruct (evicts _) as [|old evs]; [done|]. exfalso.
    specialize (Hev old (list_elem_of_here _ _)). pose proof (tr_order_wf _ Ht) as Hwo.
    assert (jsize (touch key (lru_order (queue w))) <= n); [|lia].
    etrans; [|exact Hle].
    replace (jsize (touch key (lru_order (queue w))))
      with (length (jkeys (touch key (lru_order (queue w))))) by apply length_map.
    apply distinct_length; [by apply jwf_touch|].
    intros k Hk. rewrite map_app, elem_of_app.
    apply elem_of_touch in Hk as [->|Hk]; [right; left | left | done].
    by apply (accepted_keys n).
  - rewrite evictions_settle. intros Hle. apply IH. revert Hle.
    unfold do_settle. by rewrite Hi.
  - rewrite evictions_wait. exact IH.
Qed.
End Evictions.

(** ** Draining *)
Section Drain.
Context {T : Type}.
Implicit Types (q : EventQueue T) (w : World T) (key : string).

(** Every running processor call settles, first started first. *)
Fixpoint settle_n (n : nat) (w : World T) : World T :=
  match n with 0 => w | S n => settle_n n (do_settle 0 w) end.

Definition waiting_items (qs : jsmap string (QEntry T)) : nat :=
  sum_list (map (fun e => length (items e)) (jvalues qs)).

(** Calls running plus items waiting. *)
Definition work w : nat := length (running w) + waiting_items (queues (queue w)).

Lemma waiting_items_set k e e' (qs : jsmap string (QEntry T)) :
  jget k qs = Some e ->
  waiting_items (jset k e' qs) + length (items e) = waiting_items qs + length (items e').
Proof.
  unfold waiting_items, jvalues. induction qs as [|[k1 e1] qs IH]; cbn; [done|].
  destruct (decide (k = k1)) as [->|Hne]; cbn; [intros [= ->]; lia|].
  intros H. specialize (IH H). lia.
Qed.

Lemma work_settle w : running w <> [] -> S (work (do_settle 0 w)) = work w.
Proof.
  unfold work, do_settle. destruct (running w) as [|[k x] rs] eqn:Er; [done|]. intros _.
  cbn [lookup list_lookup delete list_delete]. cbn [perform queue running].
  unfold runKey_resume, runKey. destruct (jget k (queues (queue w))) as [e|] eqn:E; cbn.
  2: { rewrite app_nil_r. cbn. lia. }
  destruct (items e) as [|i rest] eqn:Ei.
  - unfold notifyIdleWaiters. cbn.
    pose proof (waiting_items_set k e (MkQEntry [] false) _ E) as Hw. rewrite Ei in Hw. cbn in Hw.
    destruct (jget k (idleWaiters (queue w))) as [ws|];
      cbn [fst snd queues set_queues].
    + rewrite (proj1 (wakes_map ws)), app_nil_r. cbn. lia.
    + cbn. rewrite app_nil_r. lia.
  - rewrite ?E, ?Ei. cbn. rewrite length_app. cbn.
    pose proof (waiting_items_set k e (MkQEntry rest true) _ E) as Hw. rewrite Ei in Hw.
    cbn in Hw. lia.
Qed.

Lemma settle_n_idle n w : running w = [] -> settle_n n w = w.
Proof.
  intros H. induction n as [|n IH]; [done|]. cbn [settle_n].
  unfold do_settle at 1. by rewrite H.
Qed.

Lemma settle_n_drains n w : work w <= n -> running (settle_n n w) = [].
Proof.
  revert w. induction n as [|n IH]; intros w Hw.
  - cbn. unfold work in Hw. apply nil_length_inv. lia.
  - destruct (running w) as [|r rs] eqn:Er.
    + rewrite settle_n_idle by done. done.
    + cbn [settle_n]. apply IH. pose proof (work_settle w) as Hs. rewrite Er in Hs.
      specialize (Hs ltac:(done)). lia.
Qed.

Lemma settle_reachable n i w : reachable n w -> reachable n (do_settle i w).
Proof.
  intros Hr. destruct (running w !! i) as [[k x]|] eqn:E.
  - eapply reach_step; [exact Hr|]. by eapply step_settle.
  - unfold do_settle. by rewrite E.
Qed.

Lemma settle_n_reachable n m w : reachable n w -> reachable n (settle_n m w).
Proof. revert w. induction m as [|m IH]; intros w Hr; [done|]. by apply IH, settle_reachable. Qed.

Lemma settle_n_evictions m w : evictions (settle_n m w) = evictions w.
Proof.
  revert w. induction m as [|m IH]; intros w; [done|]. cbn [settle_n].
  by rewrite IH, evictions_settle.
Qed.

Lemma settle_n_same m w :
  accepted (settle_n m w) = accepted w /\ waiting (settle_n m w) = waiting w.
Proof.
  revert w. induction m as [|m IH]; intros w; [done|]. cbn [settle_n].
  destruct (IH (do_settle 0 w)) as [-> ->]. unfold do_settle.
  by destruct (running w !! 0) as [[k x]|].
Qed.

(** A pending waiter belongs to a busy key. *)
Definition waiter_inv w : Prop :=
  jwf (idleWaiters (queue w)) /\
  (evictions w = [] ->
    (forall k ws, jget k (idleWaiters (queue w)) = Some ws -> isIdle k (queue w) = false)) /\
  (forall p, p ∈ waiting w ->
    p ∈ woken w \/ exists k ws, jget k (idleWaiters (queue w)) = Some ws /\ p ∈ ws).

Lemma isIdle_lookup k q q' :
  jget k (queues q') = jget k (queues q) -> isIdle k q' = isIdle k q.
Proof. unfold isIdle. by intros ->. Qed.

Lemma isIdle_processing k e q :
  jget k (queues q) = Some e -> processing e = true -> isIdle k q = false.
Proof. unfold isIdle. by intros -> ->. Qed.

Lemma idleWaiters_enqueue k x q : idleWaiters (enqueue k x q).1 = idleWaiters q.
Proof.
  unfold enqueue, enqueue_track.
  destruct (evictOldest _ _ _) as [[ev order'] active'].
  destruct (if jhas k _ then _ else _) as [qs act]. cbn.
  destruct (jget k qs) as [e|]; [|done].
  destruct (processing e); [done|]. unfold runKey. cbn. rewrite jget_set_eq. cbn.
  by destruct (items e ++ [x]).
Qed.

Lemma wakes_enqueue k x q : wakes (enqueue k x q).2 = [].
Proof.
  unfold enqueue, enqueue_track.
  destruct (evictOldest _ _ _) as [[ev order'] active'].
  destruct (if jhas k _ then _ else _) as [qs act]. cbn.
  assert (wakes (match ev with Some k => [@Evict T k] | None => [] end) = []) as Hev
    by by destruct ev.
  destruct (jget k qs) as [e|]; [|done].
  destruct (processing e); [done|]. unfold runKey. cbn [queues set_queues].
  rewrite jget_set_eq. cbn [items].
  destruct (items e ++ [x]); cbn [snd]; by rewrite wakes_app, Hev.
Qed.

Lemma waiter_inv_settle i w : waiter_inv w -> waiter_inv (do_settle i w).
Proof.
  unfold waiter_inv. intros (Hwf & Hbusy & Hp).
  rewrite evictions_settle. unfold do_settle. destruct (running w !! i) as [[key x]|]; [|done].
  cbn [perform queue waiting woken].
  destruct (runKey_resume key (queue w)) as [q' ev] eqn:E.
  destruct (resume_effect _ _ _ _ E) as (_ & Hne & He). cbn [fst snd].
  destruct (jget key (queues (queue w))) as [e|] eqn:Ek.
  2: { destruct He as [-> ->]. cbn. by rewrite app_nil_r. }
  destruct (items e) as [|j rest] eqn:Ei.
  - destruct He as (Hk & _ & Hwk & Hw). rewrite Hwk, Hw.
    split_and!; [auto with js| |].
    + intros Hev k ws. rewrite jget_delete by done. case_decide; [done|].
      intros Hg. rewrite (isIdle_lookup k (queue w)) by auto. eauto.
    + intros p Hin. destruct (Hp p Hin) as [?|(k & ws & Hg & Hin')]; [left; set_solver|].
      destruct (decide (key = k)) as [->|Hd].
      * left. rewrite Hg. set_solver.
      * right. exists k, ws. by rewrite jget_delete_ne.
  - destruct He as (Hk & _ & Hwk & Hw). rewrite Hwk, Hw, app_nil_r.
    split_and!; [done| |done]. intros Hev k ws Hg.
    destruct (decide (k = key)) as [->|Hd].
    + by eapply isIdle_processing.
    + rewrite (isIdle_lookup k (queue w)) by auto. eauto.
Qed.

Lemma waiter_inv_reachable n w : reachable n w -> waiter_inv w.
Proof.
  induction 1 as [|w w' Hr IH Hs].
  { split_and!; [apply jwf_nil | done | by intros p ?%elem_of_nil]. }
  destruct Hs as [w key x | w i key x Hi | w p key Hp].
  - destruct IH as (Hwf & Hbusy & Hp).
    unfold waiter_inv, do_enqueue. cbn [perform queue waiting woken evictions].
    rewrite idleWaiters_enqueue, wakes_enqueue, app_nil_r. split_and!; [done| |done].
    intros [Hev Hev']%app_eq_nil k ws Hg.
    destruct (enqueue key x (queue w)) as [q' ev] eqn:E.
    destruct (enqueue_effect _ _ _ _ _ E Hev') as (_ & _ & Hne & e' & Hk & Hpr & _).
    cbn [fst]. destruct (decide (k = key)) as [->|Hd].
    + by eapply isIdle_processing.
    + rewrite (isIdle_lookup k (queue w)) by auto. eauto.
  - by apply waiter_inv_settle.
  - destruct IH as (Hwf & Hbusy & Hw).
    unfold waiter_inv. rewrite evictions_wait. unfold do_wait.
    cbn [perform queue waiting woken].
    destruct (waitForIdle p key (queue w)) as [q' ev] eqn:E.
    destruct (wait_effect _ _ _ _ _ E) as (_ & _ & Hq & He). cbn [fst snd].
    destruct (isIdle key (queue w)) eqn:Ei; destruct He as [-> ->].
    + split_and!; [done| |].
      * intros Hev k ws Hg. rewrite (isIdle_lookup k (queue w)) by by rewrite Hq. eauto.
      * intros p'. rewrite elem_of_app, list_elem_of_singleton. intros [Hin| ->].
        -- destruct (Hw p' Hin); [left; set_solver | by right].
        -- left. set_solver.
    + rewrite app_nil_r. split_and!; [auto with js| |].
      * intros Hev k ws. rewrite (isIdle_lookup k (queue w)) by by rewrite Hq.
        rewrite jget_set. case_decide; [by subst|]. eauto.
      * intros p'. rewrite elem_of_app, list_elem_of_singleton. intros [Hin| ->].
        -- destruct (Hw p' Hin) as [?|(k & ws & Hg & Hin')]; [by left|]. right.
           destruct (decide (key = k)) as [->|Hd].
           ++ exists k. eexists. rewrite jget_set_eq. split; [done|]. rewrite Hg. set_solver.
           ++ exists k, ws. by rewrite jget_set_ne.
        -- right. exists key. eexists. rewrite jget_set_eq. split; [done|]. set_solver.
Qed.

Lemma quiet_idle w :
  key_inv w -> evictions w = [] -> running w = [] ->
  forall key, isIdle key (queue w) = true /\
              of_key key (accepted w) = of_key key (finished w).
Proof.
  intros Hk Hev Hr key. destruct (Hk Hev key) as [Hs Hh].
  unfold run_state, history, pending, isIdle in *. rewrite Hr in *. cbn in *.
  destruct (jget key (queues (queue w))) as [e|]; [|by rewrite app_nil_r in Hh].
  destruct (processing e); [done|]. destruct Hs as [_ Hi]. rewrite Hi in *.
  by rewrite app_nil_r in Hh.
Qed.
End Drain.

(** ** Theorems *)

(** C9: while no more than [maxKeys] distinct keys were enqueued, the queue
    is a FIFO per key with at most one call in flight: what was enqueued
    under a key is what finished, then the running item, then the waiting
    ones, in order - nothing lost, duplicated or reordered, however the
    settlements of different keys interleave. *)
Theorem queue_sequential {T} n (w : World T) key :
  1 <= n -> reachable n w -> length (remove_dups (map fst (accepted w))) <= n ->
  of_key key (accepted w) =
    of_key key (finished w) ++ of_key key (running w) ++ pending key w /\
  length (of_key key (running w)) <= 1.
Proof.
  intros Hn Hr Hk. pose proof (no_eviction n w Hn Hr Hk) as Hev.
  destruct (key_inv_reachable n w Hr Hev key) as [Hs Hh]. auto using run_state_le.
Qed.

(** A run on two keys: "a" has one call running and one item waiting while
    "b" has finished. *)
Definition sample_world : World nat :=
  do_settle 1 (do_enqueue "a" 3 (do_enqueue "b" 2 (do_enqueue "a" 1 (init 2)))).

Lemma sample_reachable : reachable 2 sample_world.
Proof.
  eapply reach_step.
  - eapply reach_step; [|apply step_enqueue]. eapply reach_step; [|apply step_enqueue].
    eapply reach_step; [|apply step_enqueue]. apply reach_init.
  - by apply (step_settle _ 1 "b" 2).
Qed.

Lemma queue_sequential_witness :
  of_key "a" (accepted sample_world) = [1; 3] /\
  of_key "a" (running sample_world) = [1] /\ pending "a" sample_world = [3] /\
  of_key "a" (accepted sample_world) =
    of_key "a" (finished sample_world) ++ of_key "a" (running sample_world) ++
    pending "a" sample_world /\
  length (of_key "a" (running sample_world)) <= 1.
Proof.
  split; [reflexivity|]. split; [reflexivity|]. split; [reflexivity|].
  apply (queue_sequential 2 sample_world "a").
  - lia.
  - exact sample_reachable.
  - vm_compute. lia.
Defined.

(** At most [maxKeys] keys are ever tracked, and the queue map, the LRU
    order and the active set always hold the same keys. *)
Theorem queue_bounded {T} n (w : World T) :
  1 <= n -> reachable n w ->
  jsize (queues (queue w)) <= n /\
  (forall k, k ∈ jkeys (queues (queue w)) <-> k ∈ jkeys (lru_order (queue w))) /\
  (forall k, k ∈ jkeys (queues (queue w)) <-> k ∈ jkeys (activeKeys (queue w))).
Proof.
  intros Hn Hr. destruct (tracked_reachable n w Hn Hr) as [[Hq Ho _ Hqo Hqa Hsz] Hm].
  split_and!; [|done..]. rewrite Hm in Hsz. etrans; [|exact Hsz].
  replace (jsize (queues (queue w))) with (length (jkeys (queues (queue w)))) by apply length_map.
  replace (jsize (lru_order (queue w))) with (length (jkeys (lru_order (queue w)))) by apply length_map.
  apply submseteq_length, NoDup_submseteq; [done|]. intros k. by rewrite Hqo.
Qed.

Lemma queue_bounded_witness :
  jsize (queues (queue (do_enqueue "c" 9 sample_world))) <= 2.
Proof.
  apply (queue_bounded 2 (do_enqueue "c" 9 sample_world)); [lia|].
  eapply reach_step; [apply sample_reachable | apply step_enqueue].
Defined.

(** C31: draining terminates and leaves nothing behind: after as many
    settlements as there are running calls and waiting items, no call runs,
    every key is idle and has finished exactly what was enqueued, and every
    [waitForIdle]/[drainAll] promise has been resolved. *)
Theorem queue_drains {T} n (w : World T) :
  1 <= n -> reachable n w -> length (remove_dups (map fst (accepted w))) <= n ->
  let w' := settle_n (work w) w in
  running w' = [] /\
  (forall key, isIdle key (queue w') = true /\
               of_key key (accepted w) = of_key key (finished w')) /\
  (forall p, p ∈ waiting w -> p ∈ woken w').
Proof.
  intros Hn Hr Hk w'. pose proof (no_eviction n w Hn Hr Hk) as Hev.
  assert (reachable n w') as Hr' by by apply settle_n_reachable.
  assert (evictions w' = []) as Hev' by by unfold w'; rewrite settle_n_evictions.
  assert (running w' = []) as Hrun by by apply settle_n_drains.
  destruct (settle_n_same (work w) w) as [Hacc Hwait]. fold w' in Hacc, Hwait.
  pose proof (quiet_idle w' (key_inv_reachable n w' Hr') Hev' Hrun) as Hq.
  split_and!; [done| |].
  - intros key. rewrite <- Hacc. apply Hq.
  - intros p Hp. rewrite <- Hwait in Hp.
    destruct (waiter_inv_reachable n w' Hr') as (_ & Hbusy & Hw).
    destruct (Hw p Hp) as [?|(k & ws & Hg & _)]; [done|].
    specialize (Hbusy Hev' k ws Hg). destruct (Hq k) as [Hi _]. congruence.
Qed.

Lemma queue_drains_witness :
  let w := do_wait 7 "a" sample_world in
  work w = 2 /\ woken w = [] /\ 7 ∈ woken (settle_n (work w) w).
Proof.
  cbn zeta. split; [reflexivity|]. split; [reflexivity|].
  apply (queue_drains 2 (do_wait 7 "a" sample_world)).
  - lia.
  - eapply reach_step; [apply sample_reachable|]. apply step_wait. apply not_elem_of_nil.
  - vm_compute. lia.
  - left.
Defined.

(** Past the bound, serialisation is lost: an evicted key that is
    enqueued again while its call still runs gets a second concurrent call
    (shown with one tracked key). *)
Theorem eviction_breaks_serialization :
  exists w : World nat, reachable 1 w /\ of_key "a" (running w) = [1; 3].
Proof.
  exists (do_enqueue "a" 3 (do_enqueue "b" 2 (do_enqueue "a" 1 (init 1)))). split; [|done].
  do 3 (eapply reach_step; [|apply step_enqueue]). apply reach_init.
Qed.

(** Past the bound, items and waiters are lost: an item that waits
    behind a running one when its key is evicted is never processed, and a
    promise waiting for that key is never resolved even when everything has
    settled and the key reads idle. *)
Theorem eviction_loses_items_and_waiters :
  exists w : World nat, reachable 1 w /\ running w = [] /\
    isIdle "a" (queue w) = true /\
    of_key "a" (accepted w) = [1; 2] /\ of_key "a" (finished w) = [1] /\
    7 ∈ waiting w /\ woken w = [].
Proof.
  exists (do_settle 0 (do_settle 0
    (do_enqueue "b" 3 (do_wait 7 "a" (do_enqueue "a" 2 (do_enqueue "a" 1 (init 1))))))).
  split_and!; try done; [|left].
  eapply reach_step; [|by apply (step_settle _ 0 "b" 3)].
  eapply reach_step; [|by apply (step_settle _ 0 "a" 1)].
  eapply reach_step; [|apply step_enqueue].
  eapply reach_step; [|apply step_wait, not_elem_of_nil].
  do 2 (eapply reach_step; [|apply step_enqueue]). apply reach_init.
Qed.

(** ** Outstanding items

    The items a queue has accepted and not finished, running or waiting, as
    one list up to order; steps only add the enqueued item and remove the
    settled one (an eviction removes more). *)
Section Outstanding.
Context {T : Type}.
Implicit Types (m : jsmap string (QEntry T)) (w : World T).

Definition waiting_of m : list (string * T) :=
  concat (map (fun e => map (pair e.1) (items e.2)) m).

Definition outstanding w : list (string * T) := running w ++ waiting_of (queues (queue w)).

Lemma waiting_get k m e :
  jget k m = Some e -> waiting_of m ≡ₚ map (pair k) (items e) ++ waiting_of (jdelete k m).
Proof.
  unfold waiting_of. induction m as [|[k' e'] m IH]; cbn; [done|].
  destruct (decide (k = k')) as [->|]; cbn; [by intros [= ->]|].
  intros Hk. rewrite IH by done. apply Permutation_app_swap_app.
Qed.

Lemma waiting_set k e m :
  waiting_of (jset k e m) ≡ₚ map (pair k) (items e) ++ waiting_of (jdelete k m).
Proof.
  unfold waiting_of. induction m as [|[k' e'] m IH]; cbn; [done|].
  destruct (decide (k = k')) as [->|]; cbn; [done|].
  rewrite IH. apply Permutation_app_swap_app.
Qed.

Lemma waiting_delete k m : waiting_of (jdelete k m) ⊆+ waiting_of m.
Proof.
  unfold waiting_of. induction m as [|[k' e'] m IH]; cbn; [done|].
  destruct (decide (k = k')) as [->|]; cbn; [by apply submseteq_inserts_l|].
  by apply submseteq_skips_l.
Qed.

Lemma waiting_runKey k (q : EventQueue T) :
  starts (runKey k q).2 ++ waiting_of (queues (runKey k q).1) ≡ₚ waiting_of (queues q).
Proof.
  unfold runKey. destruct (jget k (queues q)) as [e|] eqn:Ek; [|done].
  rewrite (waiting_get _ _ _ Ek).
  destruct (items e) as [|x rest] eqn:Ei; cbn [fst snd starts omap list_omap app set_queues queues];
    by rewrite waiting_set.
Qed.

Lemma notify_starts k (q : EventQueue T) :
  starts (notifyIdleWaiters k q).2 = [] /\ queues (notifyIdleWaiters k q).1 = queues q.
Proof.
  unfold notifyIdleWaiters. destruct (jget k (idleWaiters q)) as [ws|]; [|done]. split; [|done].
  cbn [snd]. unfold starts. by induction ws.
Qed.

Lemma waiting_resume k (q : EventQueue T) :
  starts (runKey_resume k q).2 ++ waiting_of (queues (runKey_resume k q).1) ≡ₚ waiting_of (queues q).
Proof.
  unfold runKey_resume. destruct (jget k (queues q)) as [e|] eqn:Ek; [|done].
  destruct (items e) as [|x rest] eqn:Ei; [|apply waiting_runKey].
  destruct (notify_starts k (set_queues (jset k (MkQEntry [] false) (queues q)) q)) as [-> ->].
  cbn [app set_queues queues]. by rewrite waiting_set, (waiting_get _ _ _ Ek), Ei.
Qed.

Lemma waiting_track k (q : EventQueue T) :
  starts (enqueue_track k q).2 = [] /\
  waiting_of (queues (enqueue_track k q).1) ⊆+ waiting_of (queues q).
Proof.
  unfold enqueue_track. destruct (evictOldest _ _ _) as [[evicted order] active].
  set (qs := match evicted with Some k => jdelete k (queues q) | None => queues q end).
  assert (waiting_of qs ⊆+ waiting_of (queues q)) as Hqs.
  { unfold qs. destruct evicted; [apply waiting_delete|done]. }
  destruct (jhas k qs) eqn:Hk; cbn [fst snd queues]; (split; [by destruct evicted|]); [done|].
  rewrite waiting_set. cbn [items map app]. etrans; [apply waiting_delete|done].
Qed.

Lemma outstanding_enqueue k x w : outstanding (do_enqueue k x w) ⊆+ (k, x) :: outstanding w.
Proof.
  unfold outstanding, do_enqueue, perform. cbn [running queue].
  rewrite <- app_assoc. rewrite Permutation_middle. apply submseteq_skips_l.
  unfold enqueue. pose proof (waiting_track k (queue w)) as [Hs Hw].
  destruct (enqueue_track k (queue w)) as [q ev]. cbn [fst snd] in Hs, Hw.
  destruct (jget k (queues q)) as [e|] eqn:Ek; cbn [fst snd].
  2:{ rewrite Hs. by apply submseteq_cons. }
  set (q' := set_queues _ _).
  assert (waiting_of (queues q') ⊆+ (k, x) :: waiting_of (queues (queue w))) as Hq'.
  { unfold q'. cbn [set_queues queues]. rewrite waiting_set. cbn [items].
    rewrite map_app. cbn [map]. rewrite <- app_assoc. cbn [app]. rewrite <- Permutation_middle.
    apply submseteq_skip. by rewrite <- (waiting_get _ _ _ Ek). }
  destruct (processing e); cbn [fst snd]; [by rewrite Hs|].
  pose proof (waiting_runKey k q') as Hr. destruct (runKey k q') as [q2 ev2]. cbn [fst snd] in *.
  rewrite starts_app, Hs. cbn [app]. by rewrite Hr.
Qed.

Lemma outstanding_settle i p w :
  running w !! i = Some p -> p :: outstanding (do_settle i w) ≡ₚ outstanding w.
Proof.
  intros Hi. destruct p as [k x]. unfold do_settle, outstanding. rewrite Hi.
  unfold perform. cbn [running queue]. rewrite <- app_assoc, waiting_resume.
  rewrite app_comm_cons. apply Permutation_app_tail. by rewrite <- delete_Permutation.
Qed.
End Outstanding.
