(* ===== verification/Ids.v ===== *)
(** * Identifiers

    The keys under which GitLab objects are recorded in the id map
    (src/sync/multi-instance.ts) and the parsers the managers read them back
    with ([stripDocPrefix], [parseIid], [parseNoteId], [parseProjectIid],
    [parseDiscussionNoteKey]).

    [createHash('sha256')] is the platform's: it is the class [Sha256], whose
    only law is the documented shape of a hex digest. *)

From S2P Require Import Prelude JsMap JsString.
Open Scope string_scope.

Class Sha256 := {
  sha256_hex : string -> string;
  sha256_hex_no_colon : forall s, no_char colon (sha256_hex s);
  sha256_hex_length : forall s, String.length (sha256_hex s) = 64
}.

(** [`${a}:${b}`] *)
Definition join_colon (a b : string) : string := a +:+ String colon b.

Section Ids.
Context `{Sha256}.

(** [createHash('sha256').update(s).digest('hex').slice(0, 8)] *)
Definition hash8 (s : string) : string := String.substring 0 8 (sha256_hex s).

Definition prefixGitlabIdForMultiInstance (isMultiInstanceWorkspace : bool)
    (gitlabBaseUrl raw : string) : string :=
  if isMultiInstanceWorkspace then join_colon (hash8 gitlabBaseUrl) raw else raw.

Definition bindingsByProjectKey (isMultiInstance : bool) (gitlabBaseUrl : string)
    (gitlabProjectId : Z) : string :=
  if isMultiInstance then join_colon (hash8 gitlabBaseUrl) (num_to_string gitlabProjectId)
  else num_to_string gitlabProjectId.

(** [`${gitlabProjectId}:${iid}`] *)
Definition project_scoped_id (projectId iid : Z) : string :=
  join_colon (num_to_string projectId) (num_to_string iid).

Definition stripDocPrefix (doc : string) : string :=
  match after_first colon doc with None => doc | Some rest => rest end.

Definition parseIid (gitlabId : string) : option Z :=
  match split_last colon gitlabId with
  | None => None
  | Some (_, last) => parseInt last
  end.

Definition parseNoteId (gitlabId : string) : option Z :=
  match split_last colon gitlabId with
  | None => None
  | Some (_, last) => parseInt last
  end.

Definition parseProjectIid (gitlabId : string) : option (Z * Z) :=
  match rev (js_split colon gitlabId) with
  | iidStr :: pidStr :: _ =>
      match parseInt pidStr, parseInt iidStr with
      | Some pid, Some iid => Some (pid, iid)
      | _, _ => None
      end
  | _ => None
  end.

Definition parseDiscussionNoteKey (gitlabId : string) : option (string * Z) :=
  match split_last colon gitlabId with
  | None => None
  | Some (discussionId, last) =>
      match discussionId, parseInt last with
      | "", _ | _, None => None
      | _, Some noteId => Some (discussionId, noteId)
      end
  end.

(** ** Lemmas *)

Lemma no_colon_substring n m s : no_char colon s -> no_char colon (String.substring n m s).
Proof.
  unfold no_char. revert n m. induction s as [|a s IH]; intros [|n] [|m]; simpl; try done;
    case_decide; try done; intros Hs; auto.
Qed.

Lemma no_colon_hash8 url : no_char colon (hash8 url).
Proof. apply no_colon_substring, sha256_hex_no_colon. Qed.

Lemma split_last_scoped pid iid :
  split_last colon (project_scoped_id pid iid) = Some (num_to_string pid, num_to_string iid).
Proof. apply split_last_app. auto with js. Qed.

Lemma split_last_prefixed multi url pid iid :
  exists pre, split_last colon (prefixGitlabIdForMultiInstance multi url
                (project_scoped_id pid iid)) = Some (pre, num_to_string iid).
Proof.
  destruct multi; cbn.
  - eexists. unfold project_scoped_id, join_colon. rewrite <- str_app_cons, <- str_app_assoc.
    apply split_last_app. auto with js.
  - eexists. apply split_last_scoped.
Qed.

Lemma js_split_scoped pid iid :
  js_split colon (project_scoped_id pid iid) = [num_to_string pid; num_to_string iid].
Proof.
  unfold project_scoped_id, join_colon. rewrite js_split_app by auto with js.
  by rewrite js_split_no_char by auto with js.
Qed.

Lemma js_split_prefixed multi url pid iid :
  js_split colon (prefixGitlabIdForMultiInstance multi url (project_scoped_id pid iid)) =
  ((if multi then [hash8 url] else []) ++ [num_to_string pid; num_to_string iid])%list.
Proof.
  destruct multi; cbn [prefixGitlabIdForMultiInstance app]; [|apply js_split_scoped].
  unfold join_colon at 1. rewrite js_split_app by apply no_colon_hash8.
  by rewrite js_split_scoped.
Qed.

Lemma scoped_id_inj pid iid pid' iid' :
  project_scoped_id pid iid = project_scoped_id pid' iid' -> pid = pid' /\ iid = iid'.
Proof.
  intros E. apply (f_equal (js_split colon)) in E. rewrite !js_split_scoped in E.
  injection E as E1 E2. split; by apply (inj num_to_string).
Qed.

(** Round trip: what the managers parse back out of an id-map key is
    the project id and iid it was built from, with and without the
    multi-instance prefix. *)
Theorem parse_prefixed_id multi url pid iid :
  let id := prefixGitlabIdForMultiInstance multi url (project_scoped_id pid iid) in
  parseIid id = Some iid /\ parseNoteId id = Some iid /\ parseProjectIid id = Some (pid, iid).
Proof.
  cbn zeta. destruct (split_last_prefixed multi url pid iid) as [pre E].
  unfold parseIid, parseNoteId. rewrite E, parseInt_num_to_string.
  split_and!; [done..|]. unfold parseProjectIid. rewrite js_split_prefixed, rev_app_distr.
  cbn [rev app]. by rewrite !parseInt_num_to_string.
Qed.

(** No collisions: two id-map keys of the same mode are equal only for
    the same project id and iid and, in a multi-instance workspace, for
    base URLs with the same hash prefix. *)
Theorem prefixed_id_inj multi url pid iid url' pid' iid' :
  prefixGitlabIdForMultiInstance multi url (project_scoped_id pid iid) =
  prefixGitlabIdForMultiInstance multi url' (project_scoped_id pid' iid') <->
  pid = pid' /\ iid = iid' /\ (multi = true -> hash8 url = hash8 url').
Proof.
  split.
  - intros E. apply (f_equal (js_split colon)) in E. rewrite !js_split_prefixed in E.
    destruct multi; cbn in E; simplify_eq; split_and!; try done; by apply (inj num_to_string).
  - intros (-> & -> & Hh). destruct multi; cbn; [|done]. by rewrite (Hh eq_refl).
Qed.

(** A review-thread key parses back to its discussion and note, also
    when the discussion id itself contains separators (the [note:<id>]
    fallback does). *)
Theorem parse_discussion_note_key discussionId noteId :
  discussionId <> "" ->
  parseDiscussionNoteKey (join_colon discussionId (num_to_string noteId)) =
  Some (discussionId, noteId).
Proof.
  intros Hne. unfold parseDiscussionNoteKey, join_colon.
  rewrite split_last_app, parseInt_num_to_string by auto with js.
  by destruct discussionId.
Qed.
End Ids.

(** A digest function of the right shape, for closed examples: the first
    byte selects the digit. *)
Fixpoint repeat_string (n : nat) (s : string) : string :=
  match n with 0 => "" | S n => s +:+ repeat_string n s end.

Definition toy_digest (s : string) : string :=
  repeat_string 64 (if Nat.even (String.length s) then "a" else "b").

#[export] Instance toy_sha256 : Sha256.
Proof.
  refine {| sha256_hex := toy_digest |};
    intros s; unfold toy_digest; by destruct (Nat.even (String.length s)).
Defined.

Lemma parse_discussion_note_key_witness :
  parseDiscussionNoteKey (join_colon "note:31" (num_to_string 31)) = Some ("note:31", 31%Z).
Proof. apply (parse_discussion_note_key "note:31" 31). done. Defined.

Lemma parse_prefixed_id_witness :
  let id := prefixGitlabIdForMultiInstance true "https://gitlab.com" (project_scoped_id 42 7) in
  id = "aaaaaaaa:42:7" /\ parseProjectIid id = Some (42, 7)%Z.
Proof.
  split; [reflexivity|].
  destruct (parse_prefixed_id true "https://gitlab.com" 42 7) as (_ & _ & E). exact E.
Defined.

Lemma prefixed_id_inj_witness :
  prefixGitlabIdForMultiInstance true "https://a.example" (project_scoped_id 42 7) <>
  prefixGitlabIdForMultiInstance true "https://bb.example" (project_scoped_id 42 7).
Proof.
  intros E. apply (prefixed_id_inj true) in E as (_ & _ & E). by specialize (E eq_refl).
Defined.
