(* ===== verification/JsVal.v ===== *)
(** * Dynamic values

    The values that flow through [Record<string, unknown>] payloads and
    through the attribute objects handed to the Huly client.  [undefined] is
    the absence of a property ([None] from [field]) except inside attribute
    objects, where an explicit [undefined] is [VUndef].  Numbers are integers
    (ids, priorities and epoch milliseconds) or [NaN]; a [Date] keeps its
    epoch, [None] for an invalid date. *)

From S2P Require Import Prelude JsMap.
Open Scope string_scope.
Open Scope list_scope.

Inductive jsval :=
  | VUndef
  | VNull
  | VBool (b : bool)
  | VNum (n : Z)
  | VNaN
  | VStr (s : string)
  | VDate (d : option Z)
  | VArr (l : list jsval)
  | VObj (l : list (string * jsval)).

(** Record<string, unknown> *)
Definition record : Type := jsmap string jsval.

Section Equality.
Fixpoint jsval_eqb (a b : jsval) {struct a} : bool :=
  match a, b with
  | VUndef, VUndef | VNull, VNull | VNaN, VNaN => true
  | VBool x, VBool y => Bool.eqb x y
  | VNum x, VNum y => Z.eqb x y
  | VStr x, VStr y => bool_decide (x = y)
  | VDate x, VDate y => bool_decide (x = y)
  | VArr l, VArr l' =>
      (fix go (l l' : list jsval) {struct l} : bool :=
         match l, l' with
         | [], [] => true
         | x :: l, y :: l' => jsval_eqb x y && go l l'
         | _, _ => false
         end) l l'
  | VObj l, VObj l' =>
      (fix go (l l' : list (string * jsval)) {struct l} : bool :=
         match l, l' with
         | [], [] => true
         | (k, x) :: l, (k', y) :: l' => bool_decide (k = k') && jsval_eqb x y && go l l'
         | _, _ => false
         end) l l'
  | _, _ => false
  end.

(** Induction with the nested lists. *)
Definition jsval_rec' (P : jsval -> Prop)
    (Hu : P VUndef) (Hn : P VNull) (Hb : forall b, P (VBool b)) (Hz : forall z, P (VNum z)) (Hnan : P VNaN)
    (Hs : forall s, P (VStr s)) (Hd : forall d, P (VDate d))
    (Ha : forall l, Forall P l -> P (VArr l))
    (Ho : forall l, Forall (fun e => P e.2) l -> P (VObj l)) : forall v, P v :=
  fix go v :=
    match v with
    | VUndef => Hu | VNull => Hn | VBool b => Hb b | VNum z => Hz z | VNaN => Hnan
    | VStr s => Hs s | VDate d => Hd d
    | VArr l => Ha l ((fix gl l : Forall P l :=
                         match l with
                         | [] => Forall_nil_2 P
                         | x :: l => Forall_cons_2 P x l (go x) (gl l)
                         end) l)
    | VObj l => Ho l ((fix gl l : Forall (fun e => P e.2) l :=
                         match l with
                         | [] => Forall_nil_2 _
                         | x :: l => Forall_cons_2 _ x l (go x.2) (gl l)
                         end) l)
    end.

Lemma jsval_eqb_eq a b : jsval_eqb a b = true <-> a = b.
Proof.
  revert b. induction a as [| |x|x| |x|x|l IH|l IH] using jsval_rec'; intros [];
    cbn; try (split; congruence).
  - rewrite Bool.eqb_true_iff. split; congruence.
  - rewrite Z.eqb_eq. split; congruence.
  - rewrite bool_decide_eq_true. split; congruence.
  - rewrite bool_decide_eq_true. split; congruence.
  - revert l0. induction IH as [|x l Hx _ IH]; intros [|y l']; try (split; congruence).
    rewrite andb_true_iff, Hx. specialize (IH l').
    split; [intros [-> E]; apply IH in E; congruence|].
    intros [= -> ->]. split; [done|]. by apply IH.
  - revert l0. induction IH as [|[k x] l Hx _ IH]; intros [|[k' y] l']; try (split; congruence).
    rewrite !andb_true_iff, bool_decide_eq_true. cbn in Hx. rewrite Hx. specialize (IH l').
    split; [intros [[-> ->] E]; apply IH in E; congruence|].
    intros [= -> -> ->]. split; [done|]. by apply IH.
Qed.

#[global] Instance jsval_eq_dec : EqDecision jsval.
Proof.
  intros a b. destruct (jsval_eqb a b) eqn:E.
  - left. by apply jsval_eqb_eq.
  - right. intros H. apply jsval_eqb_eq in H. congruence.
Defined.
End Equality.

(** [record.k] *)
Definition field (k : string) (r : record) : option jsval :=
  match jget k r with Some VUndef | None => None | Some v => Some v end.

(** [typeof v === 'number'] and [typeof v === 'string'], with the value. *)
Definition as_number (v : option jsval) : option Z :=
  match v with Some (VNum n) => Some n | _ => None end.
Definition as_string (v : option jsval) : option string :=
  match v with Some (VStr s) => Some s | _ => None end.

(** [v !== null && typeof v === 'object'], with the properties. *)
Definition as_object (v : option jsval) : option record :=
  match v with
  | Some (VObj o) => Some o
  | Some (VArr _) | Some (VDate _) => Some []
  | _ => None
  end.

(** [v === true] *)
Definition is_true_val (v : option jsval) : bool :=
  match v with Some (VBool true) => true | _ => false end.

(** Neither an object nor an array: [===] compares these by value. *)
Definition primitive (v : jsval) : bool :=
  match v with VArr _ | VObj _ | VDate _ => false | _ => true end.

Definition primitive_not_nan (v : jsval) : bool :=
  match v with VNaN => false | _ => primitive v end.

(** *** Property access

    [js_get v k] is [v.k] for a name [k] ([None] is the TypeError on
    [undefined] and [null]), [js_index v n] is [v[n]] on a value that is not
    nullish, and [js_iter v] the elements [for (const x of v)] visits ([None]
    when [v] is not iterable; strings are visited by character). *)

Definition js_get (v : jsval) (k : string) : option jsval :=
  match v with
  | VUndef | VNull => None
  | VObj r => Some (default VUndef (jget k r))
  | VArr l => Some (if decide (k = "length") then VNum (Z.of_nat (length l)) else VUndef)
  | VStr s => Some (if decide (k = "length") then VNum (Z.of_nat (String.length s)) else VUndef)
  | VBool _ | VNum _ | VNaN | VDate _ => Some VUndef
  end.

Definition js_index (v : jsval) (n : nat) : jsval :=
  match v with
  | VArr l => default VUndef (l !! n)
  | VObj r => default VUndef (jget (pretty n) r)
  | VStr s => match String.get n s with Some a => VStr (String a "") | None => VUndef end
  | _ => VUndef
  end.

Definition js_iter (v : jsval) : option (list jsval) :=
  match v with
  | VArr l => Some l
  | VStr s => Some (map (fun a => VStr (String a "")) (String.list_ascii_of_string s))
  | _ => None
  end.

(** [r.k] on an object, [undefined] when absent. *)
Definition prop_of (r : record) (k : string) : jsval := default VUndef (jget k r).

(** [v ?? d] *)
Definition js_coalesce (v d : jsval) : jsval :=
  match v with VUndef | VNull => d | _ => v end.

(** [v === w] on values that are not objects; two objects of the model are
    never the same object. *)
Definition strict_eq (v w : jsval) : bool :=
  primitive_not_nan v && bool_decide (v = w).

(** [Boolean(v)]: the test of an [if]. *)
Definition truthy (v : jsval) : bool :=
  match v with
  | VUndef | VNull | VNaN => false
  | VBool b => b
  | VNum n => negb (n =? 0)%Z
  | VStr s => negb (bool_decide (s = ""))
  | VDate _ | VArr _ | VObj _ => true
  end.

(** [v < w] and [v <= w] between numbers, as the adapter's types have them;
    false when a side is missing or [NaN]. *)
Definition js_lt (v w : jsval) : bool :=
  match v, w with VNum a, VNum b => (a <? b)%Z | _, _ => false end.
Definition js_le (v w : jsval) : bool :=
  match v, w with VNum a, VNum b => (a <=? b)%Z | _, _ => false end.

(** The [deepEqual] of the fast-equals package: on primitives it is
    equality, and every value equals itself. *)
Class FastEquals := {
  deepEqual : jsval -> jsval -> bool;
  deepEqual_primitive : forall a b, primitive a = true -> deepEqual a b = bool_decide (a = b);
  deepEqual_refl : forall a, deepEqual a a = true
}.

#[export] Instance structural_equals : FastEquals.
Proof.
  refine {| deepEqual := fun a b => bool_decide (a = b) |}; [done|].
  intros a. by apply bool_decide_eq_true.
Defined.
