(* ===== verification/Metrics.v ===== *)
(** * Metric counters (src/metrics.ts)

    The module-level registry of counters, as a map that the modules which
    count thread through their state. *)

From S2P Require Import Prelude JsMap.
Open Scope string_scope.
Open Scope list_scope.

Definition counters : Type := jsmap string Z.

Definition increment_by (name : string) (by_ : Z) (c : counters) : counters :=
  jset name (default 0%Z (jget name c) + by_)%Z c.

Definition increment (name : string) (c : counters) : counters := increment_by name 1 c.

Definition metric (name : string) (c : counters) : Z := default 0%Z (jget name c).

(** [getAll]: the entries in insertion order. *)
Definition getAll (c : counters) : list (string * Z) := c.

Definition reset_metrics (name : option string) (c : counters) : counters :=
  match name with None => [] | Some n => jdelete n c end.

Definition WEBHOOK_CONFIDENTIAL_SKIPPED : string := "webhook.confidential.skipped".
Definition WEBHOOK_MR_SKIPPED : string := "webhook.mr.skipped".
Definition WEBHOOK_UNBOUND_PIPELINE : string := "webhook.pipeline.unbound".
Definition WEBHOOK_PAYLOAD_INVALID : string := "webhook.payload.invalid".
Definition PIPELINE_LRU_DROP : string := "pipeline.lru.drop".
Definition MR_COMPOSITE_PARTIAL : string := "mr.composite.partial".
Definition APPROVAL_SERVICE_ACCOUNT_FALLBACK : string := "approval.action.fallback.service_account".
Definition REVIEW_PARENT_MISSING : string := "review.parent.missing".
Definition REVIEW_POSITION_MALFORMED : string := "review.position.malformed".
Definition TX_SUBSCRIPTION_ECHO_DROPPED : string := "tx.subscription.echo.dropped".
Definition TX_SUBSCRIPTION_BUFFER_OVERFLOW : string := "tx.subscription.buffer.overflow".
Definition WEBHOOK_EPIC_CE_SKIPPED : string := "epic_hook.ce_skipped".
Definition EPIC_EE_SKIPPED : string := "epic.ee.skipped".
Definition EPIC_CHILD_DEFERRED : string := "epic.child.deferred".
Definition DISCUSSION_POSITION_UNSUPPORTED : string := "discussion.position.unsupported".
Definition MIGRATION_REVIEWER_UNRESOLVED : string := "migration.reviewer.unresolved".
Definition MR_COMPOSITE_GRAPHQL_HIT : string := "mr.composite.graphql.hit".
Definition MR_COMPOSITE_GRAPHQL_HIT_PATH_KNOWN : string := "mr.composite.graphql.hit.path_known".
Definition MR_COMPOSITE_REST_FALLBACK : string := "mr.composite.rest.fallback".
Definition EPICS_LIST_GRAPHQL_HIT : string := "epics.list.graphql.hit".
Definition EPICS_LIST_REST_FALLBACK : string := "epics.list.rest.fallback".
Definition MR_LIST_GRAPHQL_HIT : string := "mr.list.graphql.hit".
Definition MR_LIST_REST_FALLBACK : string := "mr.list.rest.fallback".
Definition GRAPHQL_CAPABILITY_NEGATIVE_CACHE_HIT : string := "graphql.capability.negative_cache.hit".

(** ** Lemmas *)

Lemma metric_increment name name' c :
  metric name (increment name' c) =
  (if decide (name' = name) then metric name c + 1 else metric name c)%Z.
Proof.
  unfold metric, increment, increment_by. rewrite jget_set. case_decide; subst; done.
Qed.

Lemma metric_increment_eq name c : metric name (increment name c) = (metric name c + 1)%Z.
Proof. by rewrite metric_increment, decide_True. Qed.

Lemma metric_increment_ne name name' c :
  name' <> name -> metric name (increment name' c) = metric name c.
Proof. intros. by rewrite metric_increment, decide_False. Qed.
