(* ===== verification/StatusMap.v ===== *)
(** * Status translation (src/sync/status-map.ts, src/sync/mr-status-map.ts)

    GitLab issue and merge-request states against the statuses of a Huly
    project, by keywords in the status category.  The issue map caches its
    result per project key in a module-level [Map], the state of the
    definitions here. *)

From S2P Require Import Prelude JsMap JsString JsVal.
Open Scope string_scope.
Open Scope list_scope.

(** The part of a tracker [Status] the code reads; [st_category] is [None]
    when it is not a string. *)
Record Status := MkStatus { st_id : string; st_category : option string }.

Definition OPEN_CATEGORY_KEYWORDS : list string :=
  ["active"; "todo"; "inprogress"; "unstarted"; "backlog"].
Definition CLOSED_CATEGORY_KEYWORDS : list string :=
  ["done"; "cancelled"; "canceled"; "won"; "lost"].

Inductive IssueState := IsOpened | IsClosed.

#[export] Instance IssueState_eq_dec : EqDecision IssueState.
Proof. solve_decision. Defined.

Record ProjectCacheEntry := MkProjectCacheEntry {
  pc_open : option string;
  pc_closed : option string;
  pc_inverse : jsmap string IssueState
}.

Definition status_cache : Type := jsmap string ProjectCacheEntry.

Definition _clearStatusCache : status_cache := [].

Definition categoryString (s : Status) : string :=
  match st_category s with Some cat => to_lower cat | None => "" end.

Definition categoryMatches (s : Status) (keywords : list string) : bool :=
  let cat := categoryString s in existsb (fun k => includes k cat) keywords.

Definition is_closed_status (s : Status) : bool := categoryMatches s CLOSED_CATEGORY_KEYWORDS.
Definition is_open_status (s : Status) : bool := categoryMatches s OPEN_CATEGORY_KEYWORDS.

(** One turn of the loop that fills [inverse]. *)
Definition add_inverse (inverse : jsmap string IssueState) (s : Status) : jsmap string IssueState :=
  if is_closed_status s then jset (st_id s) IsClosed inverse
  else if is_open_status s then jset (st_id s) IsOpened inverse
  else inverse.

Definition buildEntry (statuses : list Status) : ProjectCacheEntry :=
  MkProjectCacheEntry
    (option_map st_id (js_find is_open_status statuses))
    (option_map st_id (js_find is_closed_status statuses))
    (fold_left add_inverse statuses []).

Definition getEntry (projectKey : string) (statuses : list Status)
    : M status_cache ProjectCacheEntry := fun cache =>
  match jget projectKey cache with
  | Some cached => (Ok cached, cache)
  | None => let entry := buildEntry statuses in (Ok entry, jset projectKey entry cache)
  end.

Definition mapRemoteState (projectKey : string) (remoteState : IssueState)
    (projectStatuses : list Status) : M status_cache (option string) :=
  let! entry := getEntry projectKey projectStatuses in
  ret (match remoteState with IsClosed => pc_closed entry | IsOpened => pc_open entry end).

Definition mapHulyStatus (projectKey statusRef : string) (projectStatuses : list Status)
    : M status_cache IssueState :=
  let! entry := getEntry projectKey projectStatuses in
  ret (default IsOpened (jget statusRef (pc_inverse entry))).

(** ** Merge requests (mr-status-map.ts) *)

Definition ACTIVE_KEYWORDS : list string :=
  ["active"; "todo"; "inprogress"; "unstarted"; "backlog"].
Definition DONE_KEYWORDS : list string := ["done"; "won"].
Definition CANCELLED_KEYWORDS : list string := ["cancelled"; "canceled"; "lost"].

Inductive MRState := MrOpened | MrClosed | MrMerged | MrLocked.

Definition IssuePriority_Low : Z := 4.

(** Status references of documents and changes are dynamic values. *)
Record MRStateMapping := MkMRStateMapping {
  ms_status : jsval;
  ms_priority : option Z;
  ms_draft : option bool
}.

Definition findFirst (statuses : list Status) (keywords : list string) : option string :=
  option_map st_id (js_find (fun s => categoryMatches s keywords) statuses).

(** [findFirst(...) ?? other] *)
Definition first_or (statuses : list Status) (keywords : list string) (other : jsval) : jsval :=
  match findFirst statuses keywords with Some ref => VStr ref | None => other end.

Definition mapRemoteMRState (remote : MRState) (draft : bool) (currentStatusRef : jsval)
    (projectStatuses : list Status) : MRStateMapping :=
  let active := first_or projectStatuses ACTIVE_KEYWORDS currentStatusRef in
  match remote with
  | MrLocked => MkMRStateMapping currentStatusRef None None
  | MrMerged => MkMRStateMapping (first_or projectStatuses DONE_KEYWORDS active) None None
  | MrClosed => MkMRStateMapping (first_or projectStatuses CANCELLED_KEYWORDS active) None None
  | MrOpened =>
      if draft then MkMRStateMapping active (Some IssuePriority_Low) (Some true)
      else MkMRStateMapping active None None
  end.

Inductive StateEvent := SeClose | SeReopen.

#[export] Instance StateEvent_eq_dec : EqDecision StateEvent.
Proof. solve_decision. Defined.

Definition mapHulyStatusToMRStateEvent (hulyStatusRef : jsval) (projectStatuses : list Status)
    : option StateEvent :=
  match js_find (fun s => bool_decide (VStr (st_id s) = hulyStatusRef)) projectStatuses with
  | None => None
  | Some status =>
      if categoryMatches status DONE_KEYWORDS || categoryMatches status CANCELLED_KEYWORDS
      then Some SeClose
      else if categoryMatches status ACTIVE_KEYWORDS then Some SeReopen
      else None
  end.

(** ** Lemmas *)

Lemma inverse_fold statuses inverse k :
  k ∉ map st_id statuses -> jget k (fold_left add_inverse statuses inverse) = jget k inverse.
Proof.
  revert inverse. induction statuses as [|s l IH]; intros inverse Hk; [done|].
  cbn [map] in Hk. apply not_elem_of_cons in Hk as [Hne Hk]. cbn [fold_left].
  rewrite IH by done. unfold add_inverse.
  destruct (is_closed_status s); [by rewrite jget_set_ne|].
  destruct (is_open_status s); [by rewrite jget_set_ne|done].
Qed.

(** The inverse map of distinct statuses answers for each of them by its
    category, closed keywords first. *)
Lemma inverse_of statuses inverse s :
  NoDup (map st_id statuses) -> s ∈ statuses ->
  is_closed_status s = true \/ is_open_status s = true ->
  jget (st_id s) (fold_left add_inverse statuses inverse) =
  Some (if is_closed_status s then IsClosed else IsOpened).
Proof.
  revert inverse. induction statuses as [|s' l IH]; intros inverse Hnd Hs Hm.
  - by apply elem_of_nil in Hs.
  - cbn [map] in Hnd. apply NoDup_cons in Hnd as [Hs' Hnd]. cbn [fold_left].
    apply elem_of_cons in Hs as [->|Hs]; [|by apply IH].
    rewrite inverse_fold by done. unfold add_inverse.
    destruct (is_closed_status s'); [by rewrite jget_set_eq|].
    destruct (is_open_status s'); [by rewrite jget_set_eq|by destruct Hm].
Qed.

(** The cache holds, for a project key, the entry built from the statuses
    of its first caller. *)
Definition cached_for (projectKey : string) (statuses : list Status) (cache : status_cache) : Prop :=
  jget projectKey cache = None \/ jget projectKey cache = Some (buildEntry statuses).

Lemma getEntry_cached k statuses cache :
  cached_for k statuses cache ->
  exists cache', getEntry k statuses cache = (Ok (buildEntry statuses), cache') /\
    jget k cache' = Some (buildEntry statuses).
Proof.
  unfold getEntry. intros [E|E]; rewrite E; eexists; (split; [done|]); [by rewrite jget_set_eq|done].
Qed.

(** ** Theorems *)

(** Round trip: pushing back a status that was chosen for a GitLab
    state gives that state, when the project's statuses are distinct and none
    of them matches both an open and a closed keyword. *)
Theorem status_round_trip k statuses cache st ref cache' :
  NoDup (map st_id statuses) ->
  (forall s, s ∈ statuses -> is_open_status s = true -> is_closed_status s = false) ->
  cached_for k statuses cache ->
  mapRemoteState k st statuses cache = (Ok (Some ref), cache') ->
  mapHulyStatus k ref statuses cache' = (Ok st, cache').
Proof.
  intros Hnd Hdis Hc. unfold mapRemoteState, mapHulyStatus, bind.
  destruct (getEntry_cached _ _ _ Hc) as (c1 & -> & Hk).
  cbn [ret]. intros [= Href <-]. unfold getEntry. rewrite Hk. unfold ret. do 2 f_equal.
  destruct st; cbn [buildEntry pc_open pc_closed pc_inverse] in *;
    (destruct (js_find _ statuses) as [s|] eqn:Es; [|done]); injection Href as <-;
    apply js_find_Some in Es as [Hs Hm]; rewrite inverse_of by auto.
  - by rewrite Hdis.
  - by rewrite Hm.
Qed.

(** The cache is keyed by the numeric project id alone: once any
    binding of a project has been served, every later caller with the same
    key gets that binding's statuses, whatever its own statuses are - also
    one of another workspace or another GitLab instance. *)
Theorem status_cache_ignores_caller k statuses1 statuses2 st1 st2 cache :
  jget k cache = None ->
  let cache' := (mapRemoteState k st1 statuses1 cache).2 in
  (mapRemoteState k st2 statuses2 cache').1 =
    Ok (match st2 with
        | IsClosed => option_map st_id (js_find is_closed_status statuses1)
        | IsOpened => option_map st_id (js_find is_open_status statuses1)
        end).
Proof.
  intros Hk. unfold mapRemoteState, bind, getEntry. rewrite Hk. cbn [snd ret].
  rewrite jget_set_eq. by destruct st2.
Qed.

Lemma findFirst_Some statuses kw r :
  findFirst statuses kw = Some r ->
  exists s, s ∈ statuses /\ st_id s = r /\ categoryMatches s kw = true.
Proof.
  unfold findFirst. destruct (js_find _ statuses) as [s|] eqn:E; [|done].
  intros [= <-]. apply js_find_Some in E. naive_solver.
Qed.

Lemma find_by_id statuses s :
  NoDup (map st_id statuses) -> s ∈ statuses ->
  js_find (fun x => bool_decide (VStr (st_id x) = VStr (st_id s))) statuses = Some s.
Proof.
  induction statuses as [|x l IH]; cbn [map js_find]; intros Hnd Hs.
  - by apply elem_of_nil in Hs.
  - apply NoDup_cons in Hnd as [Hx Hnd]. apply elem_of_cons in Hs as [->|Hs].
    + by rewrite bool_decide_eq_true_2.
    + case_bool_decide as E; [|by apply IH]. injection E as E. exfalso. apply Hx. rewrite E.
      apply list_elem_of_In, in_map. by apply list_elem_of_In.
Qed.

(** The chosen status is the current one or a reference of the project. *)
Lemma mapRemoteMRState_status remote draft current statuses :
  ms_status (mapRemoteMRState remote draft current statuses) = current \/
  exists ref, ms_status (mapRemoteMRState remote draft current statuses) = VStr ref.
Proof.
  unfold mapRemoteMRState, first_or.
  destruct remote, draft; cbn [ms_status]; repeat destruct_match; eauto.
Qed.

Lemma mapRemoteMRState_ref remote draft current statuses :
  exists ref, ms_status (mapRemoteMRState remote draft (VStr current) statuses) = VStr ref.
Proof. destruct (mapRemoteMRState_status remote draft (VStr current) statuses); eauto. Qed.

(** A merged or closed merge request lands on a status that pushes back
    as close, and an open one on a status that pushes back as reopen, when
    the project has a status of that category and no status matches both an
    active and a finished keyword. *)
Theorem mr_status_round_trip remote draft current statuses :
  NoDup (map st_id statuses) ->
  (forall s, s ∈ statuses -> categoryMatches s ACTIVE_KEYWORDS = true ->
     categoryMatches s DONE_KEYWORDS = false /\ categoryMatches s CANCELLED_KEYWORDS = false) ->
  let back := mapHulyStatusToMRStateEvent (ms_status (mapRemoteMRState remote draft current statuses))
                statuses in
  match remote with
  | MrMerged => is_Some (findFirst statuses DONE_KEYWORDS) -> back = Some SeClose
  | MrClosed => is_Some (findFirst statuses CANCELLED_KEYWORDS) -> back = Some SeClose
  | MrOpened => is_Some (findFirst statuses ACTIVE_KEYWORDS) -> back = Some SeReopen
  | MrLocked => back = mapHulyStatusToMRStateEvent current statuses
  end.
Proof.
  intros Hnd Hdis.
  destruct remote; cbn zeta; [| | |done]; intros [r Hr];
    match goal with |- mapHulyStatusToMRStateEvent ?x _ = _ => assert (x = VStr r) as -> end;
    try (unfold mapRemoteMRState, first_or; rewrite Hr; by destruct draft);
    destruct (findFirst_Some _ _ _ Hr) as (s & Hs & <- & Hm);
    unfold mapHulyStatusToMRStateEvent; rewrite find_by_id, Hm by done.
  - by destruct (Hdis s Hs Hm) as [-> ->].
  - by rewrite orb_true_r.
  - done.
Qed.

(** ** Closed examples *)

Definition sample_statuses : list Status :=
  [MkStatus "s-backlog" (Some "task:statusCategory:UnStarted");
   MkStatus "s-doing" (Some "task:statusCategory:Active");
   MkStatus "s-done" (Some "task:statusCategory:Won");
   MkStatus "s-cancelled" (Some "task:statusCategory:Lost")].

Lemma sample_statuses_nodup : NoDup (map st_id sample_statuses).
Proof. apply (bool_decide_eq_true_1 _). vm_compute. reflexivity. Qed.

Lemma sample_statuses_disjoint s :
  s ∈ sample_statuses -> is_open_status s = true -> is_closed_status s = false.
Proof.
  unfold sample_statuses. rewrite !elem_of_cons, elem_of_nil.
  intros [->|[->|[->|[->|[]]]]]; vm_compute; done.
Qed.

Lemma status_round_trip_witness :
  mapRemoteState "42" IsClosed sample_statuses [] =
    (Ok (Some "s-done"), [("42", buildEntry sample_statuses)]) /\
  mapHulyStatus "42" "s-done" sample_statuses [("42", buildEntry sample_statuses)] =
    (Ok IsClosed, [("42", buildEntry sample_statuses)]).
Proof.
  split; [vm_compute; reflexivity|].
  apply (status_round_trip "42" sample_statuses []); [exact sample_statuses_nodup|
    exact sample_statuses_disjoint|by left|vm_compute; reflexivity].
Defined.

Lemma status_cache_ignores_caller_witness :
  let cache' := (mapRemoteState "42" IsOpened sample_statuses []).2 in
  (mapRemoteState "42" IsClosed [MkStatus "other-done" (Some "Done")] cache').1 = Ok (Some "s-done").
Proof.
  cbn zeta.
  rewrite (status_cache_ignores_caller "42" sample_statuses [MkStatus "other-done" (Some "Done")]
    IsOpened IsClosed []); [vm_compute|]; reflexivity.
Defined.

Lemma mr_status_round_trip_witness :
  ms_status (mapRemoteMRState MrMerged false (VStr "cur") sample_statuses) = VStr "s-done" /\
  mapHulyStatusToMRStateEvent (VStr "s-done") sample_statuses = Some SeClose.
Proof.
  split; [vm_compute; reflexivity|].
  apply (mr_status_round_trip MrMerged false (VStr "cur") sample_statuses sample_statuses_nodup).
  - unfold sample_statuses. intros s. rewrite !elem_of_cons, elem_of_nil.
    intros [->|[->|[->|[->|[]]]]]; vm_compute; done.
  - vm_compute. by eexists.
Defined.
