(* ===== verification/Platform.v ===== *)
(** * The JavaScript platform

    What the code takes from its runtime and from the BSON package: the
    clock, fresh and parsed object ids, and dates as strings.  They are the
    methods of the class [Platform], with the documented facts the proofs
    use; every definition that reads them takes the class as an argument.

    The clock and the id generator are sequences: [clock n] is what the
    [n]-th [Date.now()] (or [new Date()]) returns and [freshObjectId n] the
    [n]-th new id, so that a computation threads the number of readings. *)

From S2P Require Import Prelude JsMap JsVal.

Class Platform := {
  clock : nat -> Z;

  (** [new ObjectId(s)], as its hex string; [None] is the BSONError. *)
  newObjectId : string -> option string;
  newObjectId_hex : forall s o, newObjectId s = Some o -> newObjectId o = Some o;
  freshObjectId : nat -> string;
  freshObjectId_inj : forall n m, freshObjectId n = freshObjectId m -> n = m;
  freshObjectId_hex : forall n, newObjectId (freshObjectId n) = Some (freshObjectId n);

  (** [new Date(s)], [String(date)] and [date.toISOString()] *)
  parseDate : string -> option Z;
  dateString : Z -> string;
  toISOString : Z -> string
}.

Section Strings.
Context `{Platform}.

(** [String(v)]: the conversion of a value to a string. *)
Fixpoint js_String (v : jsval) : string :=
  match v with
  | VUndef => "undefined"
  | VNull => "null"
  | VBool true => "true"
  | VBool false => "false"
  | VNum n => pretty n
  | VNaN => "NaN"
  | VStr s => s
  | VDate (Some d) => dateString d
  | VDate None => "Invalid Date"
  | VArr l =>
      String.concat "," (map (fun x => match x with VUndef | VNull => "" | _ => js_String x end) l)
  | VObj _ => "[object Object]"
  end.

(** [new Date(v)] *)
Definition new_Date (v : jsval) : option Z :=
  match v with
  | VStr s => parseDate s
  | VNum n => Some n
  | VDate d => d
  | VNull => Some 0%Z
  | VBool b => Some (if b then 1 else 0)%Z
  | VUndef | VNaN => None
  | VArr _ | VObj _ => parseDate (js_String v)
  end.

(** [date.getTime()] *)
Definition getTime (d : option Z) : jsval := match d with Some t => VNum t | None => VNaN end.

(** [String(v ?? d)] *)
Definition string_or (d : string) (v : option jsval) : string :=
  match v with
  | None | Some VNull | Some VUndef => d
  | Some v => js_String v
  end.

(** [(v as Record<string, unknown>) ?? {}] *)
Definition record_or_empty (v : option jsval) : record := default [] (as_object v).
End Strings.

(** A platform for closed examples: a clock that advances one second per
    reading and object ids [oid-0], [oid-1], ... *)
Definition toy_object_id (n : nat) : string := "oid-" +:+ pretty n.

Definition toy_parse (s : string) : option string :=
  if String.prefix "oid-" s then Some s else None.

#[export] Instance toy_platform : Platform.
Proof.
  refine {| clock := fun n => (1000 * Z.of_nat n)%Z;
            newObjectId := toy_parse;
            freshObjectId := toy_object_id;
            parseDate := fun s => Some (Z.of_nat (String.length s));
            dateString := fun z => pretty z;
            toISOString := fun z => pretty z |}.
  - intros s o. unfold toy_parse. destruct (String.prefix "oid-" s) eqn:E; [|done].
    intros [= <-]. by rewrite E.
  - intros n m Hnm. unfold toy_object_id in Hnm. apply (inj (String.append _)) in Hnm.
    by apply (inj pretty) in Hnm.
  - intros n. unfold toy_parse, toy_object_id. cbn. by destruct (pretty n).
Defined.
