(* ===== verification/Huly.v ===== *)
(** * The Huly platform client

    The client object ([TxOperations]) the sync managers are given is a
    library's; [HulyClient] lists the methods they call, over an abstract
    state, and [HulyLaws] what a successful call does, in terms of the
    documents of the workspace ([docs]): a creation appends a document with a
    new id, an update sets the given attributes of the named document, a
    mixin write sets attributes of that mixin of the document, and queries
    return the matching documents.  Any call may also fail.

    What [updateMixin] does with an attribute that is [undefined] is a
    parameter of the laws, [undefined_removes]: src/sync/mixin-migration.ts
    (lines 236-239) and the fakes of the tests say that it removes the
    attribute, and the same file checks afterwards whether it did.  The
    theorems hold for both kinds of platform; the instance [memory_client],
    an in-memory workspace for closed examples, is one that removes, and
    [keeping_client] one that does not. *)

From S2P Require Import Prelude JsMap JsVal.
From stdpp Require Import infinite.
Open Scope string_scope.
Open Scope list_scope.

Record HulyDoc := MkHulyDoc {
  hd_id : string;
  hd_class : string;
  hd_space : string;
  hd_attrs : record;
  hd_mixins : jsmap string record
}.

(** A property of a document, as queries see it. *)
Definition doc_field (k : string) (d : HulyDoc) : option jsval :=
  if decide (k = "_id") then Some (VStr (hd_id d))
  else if decide (k = "space") then Some (VStr (hd_space d))
  else field k (hd_attrs d).

(** A value of a query: [{ $in: [...] }] or the value itself. *)
Definition matches_value (v : jsval) (x : option jsval) : bool :=
  match v with
  | VObj [(op, VArr l)] =>
      if decide (op = "$in") then existsb (fun y => bool_decide (x = Some y)) l else bool_decide (x = Some v)
  | _ => bool_decide (x = Some v)
  end.

Definition matches (query : record) (d : HulyDoc) : bool :=
  forallb (fun e => matches_value e.2 (doc_field e.1 d)) query.

(** The attributes of one mixin of a document. *)
Definition mixin_of (mixin : string) (d : HulyDoc) : option record := jget mixin (hd_mixins d).

(** [Object.assign]: [undefined] values of an update leave the attribute
    alone, as they do not survive serialization. *)
Definition assign (ops attrs : record) : record :=
  jset_all (List.filter (fun e => negb (bool_decide (e.2 = VUndef))) ops) attrs.

Definition set_attrs (ops : record) (d : HulyDoc) : HulyDoc :=
  MkHulyDoc (hd_id d) (hd_class d) (hd_space d) (assign ops (hd_attrs d)) (hd_mixins d).

Definition set_mixin (mixin : string) (attrs : record) (d : HulyDoc) : HulyDoc :=
  MkHulyDoc (hd_id d) (hd_class d) (hd_space d) (hd_attrs d)
    (jset mixin (assign attrs (default [] (jget mixin (hd_mixins d)))) (hd_mixins d)).

(** [updateMixin] on the attributes of a mixin: with [removes] an
    [undefined] value takes the attribute away, otherwise it leaves it. *)
Definition removed_by (ops : record) (k : string) : bool := bool_decide (jget k ops = Some VUndef).

Definition change (removes : bool) (ops attrs : record) : record :=
  assign ops (if removes then List.filter (fun e => negb (removed_by ops e.1)) attrs else attrs).

Definition change_mixin (removes : bool) (mixin : string) (attrs : record) (d : HulyDoc) : HulyDoc :=
  MkHulyDoc (hd_id d) (hd_class d) (hd_space d) (hd_attrs d)
    (jset mixin (change removes attrs (default [] (jget mixin (hd_mixins d)))) (hd_mixins d)).

(** Rewrite the document with an id. *)
Definition on_doc (ref : string) (f : HulyDoc -> HulyDoc) (l : list HulyDoc) : list HulyDoc :=
  map (fun d => if decide (hd_id d = ref) then f d else d) l.

Class HulyClient (H : Type) := {
  createDoc : forall (cls space : string) (attrs : record), M H string;
  updateDoc : forall (cls space ref : string) (ops : record), M H unit;
  findOneDoc : forall (cls : string) (query : record), M H (option HulyDoc);
  findAllDocs : forall (cls : string) (query : record), M H (list HulyDoc);
  createMixin : forall (ref cls space mixin : string) (attrs : record), M H unit;
  updateMixin : forall (ref cls space mixin : string) (attrs : record), M H unit
}.

Class HulyLaws (H : Type) `{HulyClient H} := {
  docs : H -> list HulyDoc;
  undefined_removes : bool;
  createDoc_ok : forall c sp a h r h', createDoc c sp a h = (Ok r, h') ->
    docs h' = docs h ++ [MkHulyDoc r c sp a []] /\ r ∉ map hd_id (docs h);
  updateDoc_ok : forall c sp r ops h h', updateDoc c sp r ops h = (Ok tt, h') ->
    docs h' = on_doc r (set_attrs ops) (docs h);
  findOne_ok : forall c q h o h', findOneDoc c q h = (Ok o, h') ->
    docs h' = docs h /\ o = js_find (fun d => bool_decide (hd_class d = c) && matches q d) (docs h);
  findAll_ok : forall c q h l h', findAllDocs c q h = (Ok l, h') ->
    docs h' = docs h /\
    l = List.filter (fun d => bool_decide (hd_class d = c) && matches q d) (docs h);
  createMixin_ok : forall r c sp m a h h', createMixin r c sp m a h = (Ok tt, h') ->
    docs h' = on_doc r (set_mixin m a) (docs h);
  updateMixin_ok : forall r c sp m a h h', updateMixin r c sp m a h = (Ok tt, h') ->
    docs h' = on_doc r (change_mixin undefined_removes m a) (docs h)
}.
Arguments undefined_removes H {_ _}.

(** Calls that do not fail, for statements about complete runs. *)
Record huly_up (H : Type) `{HulyClient H} : Prop := {
  up_create : forall c sp a h, exists r h', createDoc c sp a h = (Ok r, h');
  up_update : forall c sp r ops h, exists h', updateDoc c sp r ops h = (Ok tt, h');
  up_findOne : forall c q h, exists o h', findOneDoc c q h = (Ok o, h');
  up_findAll : forall c q h, exists l h', findAllDocs c q h = (Ok l, h');
  up_createMixin : forall r c sp m a h, exists h', createMixin r c sp m a h = (Ok tt, h');
  up_updateMixin : forall r c sp m a h, exists h', updateMixin r c sp m a h = (Ok tt, h')
}.

(** ** The in-memory workspace *)

Definition memory_client_of (removes : bool) : HulyClient (list HulyDoc) := {|
  createDoc := fun c sp a h =>
    let r := infinite_fresh (map hd_id h) in (Ok r, h ++ [MkHulyDoc r c sp a []]);
  updateDoc := fun c sp r ops h => (Ok tt, on_doc r (set_attrs ops) h);
  findOneDoc := fun c q h =>
    (Ok (js_find (fun d => bool_decide (hd_class d = c) && matches q d) h), h);
  findAllDocs := fun c q h =>
    (Ok (List.filter (fun d => bool_decide (hd_class d = c) && matches q d) h), h);
  createMixin := fun r c sp m a h => (Ok tt, on_doc r (set_mixin m a) h);
  updateMixin := fun r c sp m a h => (Ok tt, on_doc r (change_mixin removes m a) h)
|}.

#[export] Instance memory_client : HulyClient (list HulyDoc) := memory_client_of true.

Definition keeping_client : HulyClient (list HulyDoc) := memory_client_of false.

Definition memory_laws_of (removes : bool) : @HulyLaws _ (memory_client_of removes).
Proof.
  refine (@Build_HulyLaws _ (memory_client_of removes) (fun h => h) removes _ _ _ _ _ _);
    cbn; intros; simplify_eq; try done.
  split; [done|]. apply infinite_is_fresh.
Defined.

#[export] Instance memory_laws : HulyLaws (list HulyDoc) := memory_laws_of true.

Lemma memory_up : huly_up (list HulyDoc).
Proof. split; cbn; eauto. Qed.

(** ** Lemmas *)

Lemma field_assign k ops attrs :
  jwf ops ->
  jget k (assign ops attrs) =
  match jget k ops with Some VUndef | None => jget k attrs | Some v => Some v end.
Proof.
  unfold assign, jset_all. revert attrs. induction ops as [|[k' v] ops IH]; intros attrs Hwf; [done|].
  unfold jwf in Hwf. cbn in Hwf. apply NoDup_cons in Hwf as [Hk Hwf].
  assert (jget k' ops = None) as Hk' by by apply jget_None_keys.
  cbn [List.filter snd jget]. case_bool_decide as Hu; cbn [negb fold_left fst snd].
  - rewrite IH by done. subst. destruct (decide (k = k')) as [->|]; [|done].
    by rewrite Hk'.
  - rewrite IH by done. destruct (decide (k = k')) as [->|].
    + rewrite Hk', jget_set_eq. by destruct v.
    + by rewrite jget_set_ne.
Qed.

Lemma jget_filter_keys k (p : string -> bool) (m : record) :
  jget k (List.filter (fun e => p e.1) m) = if p k then jget k m else None.
Proof.
  induction m as [|[k' v] m IH]; cbn [List.filter fst jget]; [by destruct (p k)|].
  destruct (p k') eqn:Ep; cbn [jget]; destruct (decide (k = k')) as [->|]; rewrite ?Ep, ?IH, ?Ep; done.
Qed.

(** The attributes after an [updateMixin]. *)
Lemma field_change removes k ops attrs :
  jwf ops ->
  jget k (change removes ops attrs) =
  match jget k ops with
  | Some VUndef => if removes then None else jget k attrs
  | None => jget k attrs
  | Some v => Some v
  end.
Proof.
  intros Hw. unfold change. rewrite field_assign by done.
  destruct removes; [|by destruct (jget k ops) as [[]|]].
  rewrite (jget_filter_keys k (fun k => negb (removed_by ops k))). unfold removed_by.
  destruct (jget k ops) as [[]|]; try done; by rewrite bool_decide_eq_true_2.
Qed.

(** Without [undefined] values it is what [createMixin] does. *)
Lemma change_defined removes ops attrs :
  (forall k, jget k ops <> Some VUndef) -> change removes ops attrs = assign ops attrs.
Proof.
  intros Hd. unfold change. destruct removes; [|done]. f_equal. apply forallb_filter_id, forallb_forall.
  intros e _. unfold removed_by. by rewrite bool_decide_eq_false_2.
Qed.

Lemma change_mixin_defined removes m ops d :
  (forall k, jget k ops <> Some VUndef) -> change_mixin removes m ops d = set_mixin m ops d.
Proof. intros Hd. unfold change_mixin, set_mixin. by rewrite change_defined. Qed.

Lemma on_doc_ext ref f g l : (forall d, f d = g d) -> on_doc ref f l = on_doc ref g l.
Proof. intros E. unfold on_doc. apply map_ext. intros d. by destruct (decide _); rewrite ?E. Qed.

Lemma on_doc_id ref f l :
  (forall d, hd_id (f d) = hd_id d) -> map hd_id (on_doc ref f l) = map hd_id l.
Proof.
  intros Hf. unfold on_doc. rewrite map_map. apply map_ext. intros d.
  destruct (decide _); by rewrite ?Hf.
Qed.

Lemma js_find_on_doc ref f p l :
  (forall d, p (f d) = p d) ->
  js_find p (on_doc ref f l) =
  option_map (fun d => if decide (hd_id d = ref) then f d else d) (js_find p l).
Proof.
  intros Hp. induction l as [|d l IH]; cbn; [done|].
  destruct (decide (hd_id d = ref)) eqn:E; rewrite ?Hp; destruct (p d); cbn; by rewrite ?E.
Qed.
