(* ===== verification/Caches.v ===== *)
(** * Per-binding caches (src/sync/bi-directional-cache.ts, label-cache.ts,
    milestone-cache.ts, mr-cache.ts)

    [BiDirectionalCache] is a bounded insertion-ordered map with priming;
    [LabelCache] and [MilestoneCache] use two of them to get or create labels
    and milestones on either side, [MRCache] one keyed by merge-request iid.
    The operations run over the cache and the client they call. *)

From S2P Require Import Prelude JsMap JsString JsVal Huly.
Open Scope string_scope.
Open Scope list_scope.

(** ** BiDirectionalCache *)

Section BiCache.
Context {K V : Type} {HK : EqDecision K}.

Record BiCache := MkBiCache {
  bc_cache : jsmap K V;
  bc_primed : bool;
  bc_maxEntries : nat
}.

Definition new_bicache (maxEntries : nat) : BiCache := MkBiCache [] false maxEntries.

Definition bc_set (es : list (K * V)) (b : BiCache) : BiCache :=
  MkBiCache (jset_all es (bc_cache b)) true (bc_maxEntries b).

(** [get], where [loadAll] is what the primer returns. *)
Definition bc_get {S} (loadAll : M S (list (K * V))) (key : K) : M (BiCache * S) (option V) :=
  fun bs =>
    let '(b, s) := bs in
    if bc_primed b then (Ok (jget key (bc_cache b)), (b, s))
    else match loadAll s with
         | (Ok entries, s') =>
             let b' := bc_set entries b in (Ok (jget key (bc_cache b')), (b', s'))
         | (Throw e, s') => (Throw e, (b, s'))
         end.

(** [evictIfOverflowing]: deleting the first key is dropping the head. *)
Fixpoint evict (maxEntries : nat) (m : jsmap K V) : jsmap K V :=
  if (length m <=? maxEntries)%nat then m
  else match m with [] => [] | _ :: m' => evict maxEntries m' end.

Definition bc_put (key : K) (value : V) (b : BiCache) : BiCache :=
  MkBiCache (evict (bc_maxEntries b) (jset key value (bc_cache b))) (bc_primed b) (bc_maxEntries b).

Definition bc_invalidate (key : option K) (b : BiCache) : BiCache :=
  match key with
  | None => MkBiCache [] false (bc_maxEntries b)
  | Some k => MkBiCache (jdelete k (bc_cache b)) (bc_primed b) (bc_maxEntries b)
  end.

Definition bc_reload {S} (key : K) (fetcher : M S (option V)) : M (BiCache * S) (option V) :=
  fun bs =>
    let '(b, s) := bs in
    match fetcher s with
    | (Ok (Some v), s') => (Ok (Some v), (bc_put key v b, s'))
    | (Ok None, s') => (Ok None, (b, s'))
    | (Throw e, s') => (Throw e, (b, s'))
    end.

Definition bc_size (b : BiCache) : nat := jsize (bc_cache b).

(** *** Lemmas *)

Lemma evict_length max m : length (evict max m) <= max.
Proof.
  induction m as [|e m IH]; cbn [evict]; [destruct (_ <=? _)%nat; cbn; lia|].
  destruct (length (e :: m) <=? max)%nat eqn:E; [by reflect_bools|done].
Qed.

Lemma evict_suffix max m : exists dropped, m = dropped ++ evict max m.
Proof.
  induction m as [|e m [d IH]]; cbn [evict].
  - exists []. by destruct (_ <=? _)%nat.
  - destruct (_ <=? _)%nat; [by exists []|]. exists (e :: d). cbn. by rewrite <- IH.
Qed.

Lemma evict_small max m : length m <= max -> evict max m = m.
Proof. intros Hm. destruct m; cbn [evict]; by rewrite (proj2 (Nat.leb_le _ _) Hm). Qed.

(** The newest entry survives. *)
Lemma evict_last max m k v : 1 <= max -> exists m', evict max (m ++ [(k, v)]) = m' ++ [(k, v)].
Proof.
  intros Hmax. induction m as [|e m [m' IH]]; cbn [app].
  - exists []. by rewrite evict_small by (cbn; lia).
  - cbn [evict]. destruct (_ <=? _)%nat; [by exists (e :: m)|]. by exists m'.
Qed.

Lemma jset_new k v (m : jsmap K V) : jget k m = None -> jset k v m = m ++ [(k, v)].
Proof.
  induction m as [|[k' v'] m IH]; cbn; [done|]. destruct (decide (k = k')); [done|].
  intros Hk. by rewrite IH.
Qed.

Lemma jget_app k (m1 m2 : jsmap K V) :
  jget k (m1 ++ m2) = match jget k m1 with Some v => Some v | None => jget k m2 end.
Proof. induction m1 as [|[k' v'] m1 IH]; cbn; [done|]. by destruct (decide (k = k')). Qed.

Lemma jwf_app (m1 m2 : jsmap K V) : jwf (m1 ++ m2) -> jwf m2.
Proof. unfold jwf, jkeys. rewrite map_app, NoDup_app. tauto. Qed.

Lemma bc_put_new key value b :
  jwf (bc_cache b) -> jget key (bc_cache b) = None -> 1 <= bc_maxEntries b ->
  jget key (bc_cache (bc_put key value b)) = Some value.
Proof.
  intros Hwf Hk Hmax. unfold bc_put. cbn [bc_cache].
  pose proof (jwf_set _ key value Hwf) as Hwf'.
  rewrite jset_new in * by done.
  destruct (evict_last (bc_maxEntries b) (bc_cache b) key value Hmax) as [m' E].
  destruct (evict_suffix (bc_maxEntries b) (bc_cache b ++ [(key, value)])) as [d Hd].
  rewrite E in Hd. rewrite Hd in Hwf'. apply jwf_app in Hwf'. rewrite E.
  unfold jwf, jkeys in Hwf'. rewrite map_app in Hwf'. apply NoDup_app in Hwf' as (_ & Hn & _).
  rewrite jget_app. destruct (jget key m') as [v|] eqn:Ek.
  - exfalso. apply jget_Some_keys in Ek. apply (Hn key Ek). left.
  - cbn. by rewrite decide_True.
Qed.
End BiCache.

Arguments BiCache : clear implicits.

(** ** LabelCache *)

Record SyncLabel := MkSyncLabel {
  lb_id : Z;
  lb_name : string;
  lb_color : string;
  lb_description : option string
}.

Class LabelGitLabClient (G : Type) := {
  listLabels : forall (projectId : Z), M G (list SyncLabel);
  createLabel : forall (projectId : Z) (body : record), M G SyncLabel
}.

Definition CLASS_TAG_ELEMENT : string := "tags:class:TagElement".
Definition CLASS_ISSUE : string := "tracker:class:Issue".
Definition CLASS_MILESTONE : string := "tracker:class:Milestone".
Definition CACHE_MAX : nat := 1000.

Record LabelCache := MkLabelCache {
  lc_remoteByName : BiCache string SyncLabel;
  lc_localByName : BiCache string string;
  lc_remoteLoaded : bool;
  lc_localLoaded : bool
}.

Definition new_label_cache : LabelCache :=
  MkLabelCache (new_bicache CACHE_MAX) (new_bicache CACHE_MAX) false false.

Definition label_primeRemoteSync (labels : list SyncLabel) (lc : LabelCache) : LabelCache :=
  MkLabelCache (bc_set (map (fun l => (to_lower (lb_name l), l)) labels) (lc_remoteByName lc))
    (lc_localByName lc) true (lc_localLoaded lc).

Definition label_primeLocalSync (entries : list (string * string)) (lc : LabelCache) : LabelCache :=
  MkLabelCache (lc_remoteByName lc)
    (bc_set (map (fun e => (to_lower e.1, e.2)) entries) (lc_localByName lc))
    (lc_remoteLoaded lc) true.

(** A call on the client beside the cache. *)
Definition on_client {L S A} (m : M S A) : M (L * S) A := fun ls =>
  let '(r, s) := m ls.2 in (r, (ls.1, s)).

Definition on_cache {L S} (f : L -> L) : M (L * S) unit := modify (fun ls => (f ls.1, ls.2)).

Section Labels.
Context {G : Type} `{LabelGitLabClient G} {HU : Type} `{HulyClient HU}.

Definition label_primeRemote (gitlabProjectId : Z) : M (LabelCache * G) unit :=
  let! loaded := gets (fun ls => lc_remoteLoaded ls.1) in
  if (loaded : bool) then ret tt
  else
    let! labels := on_client (listLabels gitlabProjectId) in
    on_cache (label_primeRemoteSync labels).

(** [remoteByName.get(key)]: the primer of both inner caches loads nothing. *)
Definition label_remote_get (key : string) : M (LabelCache * G) (option SyncLabel) := fun ls =>
  let '(r, (b, _)) := bc_get (S := unit) (ret []) key (lc_remoteByName ls.1, tt) in
  (r, (MkLabelCache b (lc_localByName ls.1) (lc_remoteLoaded ls.1) (lc_localLoaded ls.1), ls.2)).

Definition ensureRemoteLabel (gitlabProjectId : Z) (name : string) (color : jsval)
    : M (LabelCache * G) SyncLabel :=
  label_primeRemote gitlabProjectId ;;!
  let key := to_lower name in
  let! existing := label_remote_get key in
  match existing with
  | Some l => ret l
  | None =>
      let! created := on_client (createLabel gitlabProjectId
        [("name", VStr name);
         ("color", match color with VUndef => VStr "#A0A0A0" | _ => color end)]) in
      on_cache (fun lc => MkLabelCache (bc_put key created (lc_remoteByName lc))
                            (lc_localByName lc) (lc_remoteLoaded lc) (lc_localLoaded lc)) ;;!
      ret created
  end.

(** [t.title.toLowerCase()]: throws when there is no title. *)
Definition title_key (attr : string) (d : HulyDoc) : M (LabelCache * HU) (string * string) :=
  match as_string (field attr (hd_attrs d)) with
  | Some title => ret (to_lower title, hd_id d)
  | None => throw (JsError "TypeError")
  end.

Definition label_primeLocal : M (LabelCache * HU) unit :=
  let! loaded := gets (fun ls => lc_localLoaded ls.1) in
  if (loaded : bool) then ret tt
  else
    let! found := on_client (findAllDocs CLASS_TAG_ELEMENT []) in
    let! entries := mapM_js (List.filter (fun d =>
        bool_decide (field "targetClass" (hd_attrs d) = Some (VStr CLASS_ISSUE))) found)
      (title_key "title") in
    on_cache (fun lc => MkLabelCache (lc_remoteByName lc) (bc_set entries (lc_localByName lc))
                          (lc_remoteLoaded lc) true).

Definition label_local_get (key : string) : M (LabelCache * HU) (option string) := fun ls =>
  let '(r, (b, _)) := bc_get (S := unit) (ret []) key (lc_localByName ls.1, tt) in
  (r, (MkLabelCache (lc_remoteByName ls.1) b (lc_remoteLoaded ls.1) (lc_localLoaded ls.1), ls.2)).

Definition ensureLocalTag (hulyProjectRef name : string) (color : Z)
    : M (LabelCache * HU) string :=
  label_primeLocal ;;!
  let key := to_lower name in
  let! existing := label_local_get key in
  match existing with
  | Some ref => ret ref
  | None =>
      let! ref := on_client (createDoc CLASS_TAG_ELEMENT hulyProjectRef
        [("title", VStr name); ("targetClass", VStr CLASS_ISSUE); ("color", VNum color)]) in
      on_cache (fun lc => MkLabelCache (lc_remoteByName lc)
                            (bc_put key ref (lc_localByName lc))
                            (lc_remoteLoaded lc) (lc_localLoaded lc)) ;;!
      ret ref
  end.

(** Names that are not strings: [name.toLowerCase] is called after the
    priming and throws. *)
Definition ensureRemoteLabel_js (gitlabProjectId : Z) (name color : jsval)
    : M (LabelCache * G) SyncLabel :=
  match name with
  | VStr n => ensureRemoteLabel gitlabProjectId n color
  | _ => label_primeRemote gitlabProjectId ;;! throw (JsError "TypeError")
  end.

Definition ensureLocalTag_js (hulyProjectRef : string) (name : jsval)
    : M (LabelCache * HU) string :=
  match name with
  | VStr n => ensureLocalTag hulyProjectRef n 0
  | _ => label_primeLocal ;;! throw (JsError "TypeError")
  end.
End Labels.

(** ** MilestoneCache *)

Inductive milestone_state := MsActive | MsClosed.

Record SyncMilestone := MkSyncMilestone {
  mi_id : Z;
  mi_iid : Z;
  mi_title : string;
  mi_description : option string;
  mi_state : milestone_state;
  mi_dueDate : option string;
  mi_startDate : option string;
  mi_createdAt : string;
  mi_updatedAt : string
}.

Class MilestoneGitLabClient (G : Type) := {
  listMilestones : forall (projectId : Z), M G (list SyncMilestone);
  createMilestone : forall (projectId : Z) (body : record), M G SyncMilestone
}.

Record MilestoneCache := MkMilestoneCache {
  mc_remoteByTitle : BiCache string SyncMilestone;
  mc_localByLabel : BiCache string string;
  mc_remoteLoaded : bool;
  mc_localLoaded : bool
}.

Definition new_milestone_cache : MilestoneCache :=
  MkMilestoneCache (new_bicache CACHE_MAX) (new_bicache CACHE_MAX) false false.

Definition milestone_primeRemoteSync (ms : list SyncMilestone) (c : MilestoneCache)
    : MilestoneCache :=
  MkMilestoneCache (bc_set (map (fun m => (to_lower (mi_title m), m)) ms) (mc_remoteByTitle c))
    (mc_localByLabel c) true (mc_localLoaded c).

Definition milestone_primeLocalSync (entries : list (string * string)) (c : MilestoneCache)
    : MilestoneCache :=
  MkMilestoneCache (mc_remoteByTitle c)
    (bc_set (map (fun e => (to_lower e.1, e.2)) entries) (mc_localByLabel c))
    (mc_remoteLoaded c) true.

Section Milestones.
Context {G : Type} `{MilestoneGitLabClient G} {HU : Type} `{HulyClient HU}.

Definition milestone_primeRemote (gitlabProjectId : Z) : M (MilestoneCache * G) unit :=
  let! loaded := gets (fun ls => mc_remoteLoaded ls.1) in
  if (loaded : bool) then ret tt
  else
    let! ms := on_client (listMilestones gitlabProjectId) in
    on_cache (milestone_primeRemoteSync ms).

Definition milestone_remote_get (key : string) : M (MilestoneCache * G) (option SyncMilestone) :=
  fun ls =>
    let '(r, (b, _)) := bc_get (S := unit) (ret []) key (mc_remoteByTitle ls.1, tt) in
    (r, (MkMilestoneCache b (mc_localByLabel ls.1) (mc_remoteLoaded ls.1) (mc_localLoaded ls.1), ls.2)).

(** [description] is [VUndef] when it is not given. *)
Definition with_description (description : jsval) : record :=
  match description with VUndef => [] | _ => [("description", description)] end.

Definition ensureRemoteMilestone (gitlabProjectId : Z) (title : string) (description : jsval) : M (MilestoneCache * G) SyncMilestone :=
  milestone_primeRemote gitlabProjectId ;;!
  let key := to_lower title in
  let! existing := milestone_remote_get key in
  match existing with
  | Some m => ret m
  | None =>
      let! created := on_client (createMilestone gitlabProjectId
        (("title", VStr title) :: with_description description)) in
      on_cache (fun c => MkMilestoneCache (bc_put key created (mc_remoteByTitle c))
                           (mc_localByLabel c) (mc_remoteLoaded c) (mc_localLoaded c)) ;;!
      ret created
  end.

Definition milestone_key (d : HulyDoc) : M (MilestoneCache * HU) (string * string) :=
  match as_string (field "label" (hd_attrs d)) with
  | Some label => ret (to_lower label, hd_id d)
  | None => throw (JsError "TypeError")
  end.

Definition milestone_primeLocal (hulyProjectRef : string) : M (MilestoneCache * HU) unit :=
  let! loaded := gets (fun ls => mc_localLoaded ls.1) in
  if (loaded : bool) then ret tt
  else
    let! found := on_client (findAllDocs CLASS_MILESTONE []) in
    let! entries := mapM_js
      (List.filter (fun d => bool_decide (hd_space d = hulyProjectRef)) found) milestone_key in
    on_cache (fun c => MkMilestoneCache (mc_remoteByTitle c) (bc_set entries (mc_localByLabel c))
                         (mc_remoteLoaded c) true).

Definition milestone_local_get (key : string) : M (MilestoneCache * HU) (option string) :=
  fun ls =>
    let '(r, (b, _)) := bc_get (S := unit) (ret []) key (mc_localByLabel ls.1, tt) in
    (r, (MkMilestoneCache (mc_remoteByTitle ls.1) b (mc_remoteLoaded ls.1) (mc_localLoaded ls.1), ls.2)).

Definition ensureLocalMilestone (hulyProjectRef label : string) (description : jsval)
    : M (MilestoneCache * HU) string :=
  milestone_primeLocal hulyProjectRef ;;!
  let key := to_lower label in
  let! existing := milestone_local_get key in
  match existing with
  | Some ref => ret ref
  | None =>
      let attrs := ("label", VStr label) :: with_description description in
      let! ref := on_client (createDoc CLASS_MILESTONE hulyProjectRef attrs) in
      on_cache (fun c => MkMilestoneCache (mc_remoteByTitle c)
                           (bc_put key ref (mc_localByLabel c))
                           (mc_remoteLoaded c) (mc_localLoaded c)) ;;!
      ret ref
  end.

Definition ensureRemoteMilestone_js (gitlabProjectId : Z) (title description : jsval)
    : M (MilestoneCache * G) SyncMilestone :=
  match title with
  | VStr t => ensureRemoteMilestone gitlabProjectId t description
  | _ => milestone_primeRemote gitlabProjectId ;;! throw (JsError "TypeError")
  end.

Definition ensureLocalMilestone_js (hulyProjectRef : string) (label description : jsval)
    : M (MilestoneCache * HU) string :=
  match label with
  | VStr l => ensureLocalMilestone hulyProjectRef l description
  | _ => milestone_primeLocal hulyProjectRef ;;! throw (JsError "TypeError")
  end.
End Milestones.

(** ** MRCache, over any record type with an iid *)

Class MRGitLabClient (G MR : Type) := {
  listMergeRequests : forall (projectId : Z), M G (list MR);
  mr_iid_of : MR -> Z
}.

Section MRs.
Context {G MR : Type} `{MRGitLabClient G MR}.

Record MRCache := MkMRCache { rc_byIid : BiCache Z MR; rc_primed : bool }.

Definition mr_primeSync (mrs : list MR) (c : MRCache) : MRCache :=
  MkMRCache (bc_set (map (fun mr => (mr_iid_of mr, mr)) mrs) (rc_byIid c)) true.

Definition mr_prime (gitlabProjectId : Z) : M (MRCache * G) unit :=
  let! primed := gets (fun ls => rc_primed ls.1) in
  if (primed : bool) then ret tt
  else
    let! mrs := on_client (listMergeRequests gitlabProjectId) in
    on_cache (mr_primeSync mrs).

Definition getMR (gitlabProjectId iid : Z) : M (MRCache * G) (option MR) :=
  mr_prime gitlabProjectId ;;!
  (fun ls =>
     let '(r, (b, _)) := bc_get (S := unit) (ret []) iid (rc_byIid ls.1, tt) in
     (r, (MkMRCache b (rc_primed ls.1), ls.2))).

Definition mr_invalidate (iid : option Z) (c : MRCache) : MRCache :=
  match iid with
  | None => MkMRCache (bc_invalidate None (rc_byIid c)) false
  | Some _ => MkMRCache (bc_invalidate iid (rc_byIid c)) (rc_primed c)
  end.
End MRs.

(** ** Theorems *)

Section LabelTheorems.
Context {HU : Type} `{HulyLaws HU}.

(** A workspace document that is an issue tag with this lower-cased title. *)
Definition is_tag (key ref : string) (d : HulyDoc) : Prop :=
  hd_id d = ref /\ hd_class d = CLASS_TAG_ELEMENT /\
  field "targetClass" (hd_attrs d) = Some (VStr CLASS_ISSUE) /\
  option_map to_lower (as_string (field "title" (hd_attrs d))) = Some key.

(** Every loaded entry of the local side names such a document. *)
Definition label_sound (s : LabelCache * HU) : Prop :=
  jwf (bc_cache (lc_localByName s.1)) /\
  (lc_localLoaded s.1 = false -> bc_cache (lc_localByName s.1) = []) /\
  (forall key ref, jget key (bc_cache (lc_localByName s.1)) = Some ref ->
     exists d, d ∈ docs s.2 /\ is_tag key ref d).

Lemma mapM_title_key l s es s' :
  mapM_js (B := string * string) l (title_key (HU := HU) "title") s = (Ok es, s') ->
  s' = s /\ forall e, e ∈ es -> exists d, d ∈ l /\ hd_id d = e.2 /\
    option_map to_lower (as_string (field "title" (hd_attrs d))) = Some e.1.
Proof.
  revert es. induction l as [|d l IH]; intros es Hm; cbn [mapM_js] in Hm.
  - injection Hm as <- <-. split; [done|]. intros e He. by apply elem_of_nil in He.
  - apply bind_inv_ok in Hm as (y & s1 & Hy & Hm).
    apply bind_inv_ok in Hm as (ys & s2 & Hys & Hm). injection Hm as <- <-.
    unfold title_key in Hy. destruct (as_string _) as [t|] eqn:Et; [|done].
    injection Hy as <- <-. apply IH in Hys as [-> Hys]. split; [done|].
    intros e [->|He]%elem_of_cons.
    + exists d. rewrite Et. repeat split. left.
    + destruct (Hys e He) as (d' & Hd & ?). exists d'. split; [by right|done].
Qed.

Lemma jwf_set_all {K V} `{EqDecision K} es (m : jsmap K V) : jwf m -> jwf (jset_all es m).
Proof.
  unfold jset_all. revert m. induction es as [|e es IH]; intros m Hm; [done|].
  cbn [fold_left]. by apply IH, jwf_set.
Qed.

Lemma jget_set_all_inv {K V} `{EqDecision K} es (m : jsmap K V) k v :
  jget k (jset_all es m) = Some v -> (k, v) ∈ es \/ jget k m = Some v.
Proof.
  unfold jset_all. revert m. induction es as [|[k' v'] es IH]; intros m; [by right|].
  cbn [fold_left fst snd]. intros [Hin|Hg]%IH; [left; by right|].
  rewrite jget_set in Hg. case_decide as E; [|by right].
  injection Hg as <-. subst. left. left.
Qed.

Lemma evict_get {K V} `{EqDecision K} max (m : jsmap K V) k v :
  jwf m -> jget k (evict max m) = Some v -> jget k m = Some v.
Proof.
  intros Hwf Hg. destruct (evict_suffix max m) as [d Hd]. rewrite Hd in Hwf |- *.
  rewrite jget_app. unfold jwf, jkeys in Hwf. rewrite map_app in Hwf.
  apply NoDup_app in Hwf as (_ & Hn & _).
  destruct (jget k d) eqn:E; [|done]. exfalso.
  apply jget_Some_keys in E, Hg. by apply (Hn k).
Qed.

Lemma evict_wf {K V} `{EqDecision K} max (m : jsmap K V) : jwf m -> jwf (evict max m).
Proof. intros Hwf. destruct (evict_suffix max m) as [d Hd]. rewrite Hd in Hwf. by eapply jwf_app. Qed.

(** Priming succeeds only with sound, complete knowledge of the tags. *)
Lemma primeLocal_sound s s' :
  label_sound s -> label_primeLocal s = (Ok tt, s') ->
  label_sound s' /\ docs s'.2 = docs s.2 /\ lc_localLoaded s'.1 = true /\
  bc_maxEntries (lc_localByName s'.1) = bc_maxEntries (lc_localByName s.1).
Proof.
  destruct s as [lc h]. intros (Hwf & He & Hs). unfold label_primeLocal, bind at 1, gets. cbn [fst snd].
  destruct (lc_localLoaded lc) eqn:El.
  - intros [= <-]. split; [by split|]. done.
  - intros (found & s1 & Hf & Hm)%bind_inv_ok. unfold on_client in Hf. cbn [fst snd] in Hf.
    destruct (findAllDocs _ _ h) as [[l|e] h1] eqn:E; [|done]. injection Hf as <- <-.
    apply findAll_ok in E as [Hd ->].
    apply bind_inv_ok in Hm as (es & s2 & Hes & Hm). apply mapM_title_key in Hes as [-> Hes].
    unfold on_cache, modify in Hm. injection Hm as <-.
    cbn [fst snd lc_localByName lc_localLoaded]. unfold bc_set. cbn [bc_maxEntries].
    cbn in He. rewrite (He El). split; [|done]. split; cbn [fst snd lc_localByName lc_localLoaded bc_cache].
    + apply jwf_set_all, jwf_nil.
    + split; [done|]. intros key ref [Hin|Hg]%jget_set_all_inv; [|done].
      destruct (Hes _ Hin) as (d & Hd1 & Hid & Ht). exists d.
      apply list_elem_of_In, filter_In in Hd1 as [Hd1 Htc]. apply filter_In in Hd1 as [Hd1 Hc].
      apply list_elem_of_In in Hd1. cbn in Hid, Ht. reflect_bools.
      rewrite Hd. by repeat split.
Qed.

Lemma local_get_eq key lc (h : HU) :
  exists lc', label_local_get (HU := HU) key (lc, h) = (Ok (jget key (bc_cache (lc_localByName lc))), (lc', h)) /\
    lc_localLoaded lc' = lc_localLoaded lc /\
    bc_primed (lc_localByName lc') = true /\
    bc_cache (lc_localByName lc') = bc_cache (lc_localByName lc) /\
    bc_maxEntries (lc_localByName lc') = bc_maxEntries (lc_localByName lc).
Proof.
  unfold label_local_get, bc_get. cbn [fst snd].
  destruct (bc_primed (lc_localByName lc)) eqn:E; cbn [ret]; eexists; (split; [reflexivity|]); done.
Qed.

(** Two caches that differ at most in the primed flag of the local side. *)
Definition same_local (lc lc' : LabelCache) : Prop :=
  lc_localLoaded lc' = lc_localLoaded lc /\
  bc_cache (lc_localByName lc') = bc_cache (lc_localByName lc) /\
  bc_maxEntries (lc_localByName lc') = bc_maxEntries (lc_localByName lc).

Definition tag_doc (p name : string) (c : Z) (ref : string) : HulyDoc :=
  MkHulyDoc ref CLASS_TAG_ELEMENT p
    [("title", VStr name); ("targetClass", VStr CLASS_ISSUE); ("color", VNum c)] [].

(** The two branches of [ensureLocalTag] after priming. *)
Lemma ensureLocalTag_run p name c s ref s' :
  ensureLocalTag p name c s = (Ok ref, s') ->
  exists s0 lc, label_primeLocal s = (Ok tt, s0) /\ same_local s0.1 lc /\
    bc_primed (lc_localByName lc) = true /\
    ((jget (to_lower name) (bc_cache (lc_localByName lc)) = Some ref /\ s' = (lc, s0.2)) \/
     (jget (to_lower name) (bc_cache (lc_localByName lc)) = None /\
      exists h', docs h' = docs s0.2 ++ [tag_doc p name c ref] /\ ref ∉ map hd_id (docs s0.2) /\
        s' = (MkLabelCache (lc_remoteByName lc) (bc_put (to_lower name) ref (lc_localByName lc))
                (lc_remoteLoaded lc) (lc_localLoaded lc), h'))).
Proof.
  intros ([] & [lc0 h] & Hp & Hm)%bind_inv_ok.
  destruct (local_get_eq (to_lower name) lc0 h) as (lc & Hg & El & Ep & Ec & Em).
  unfold bind at 1 in Hm. rewrite Hg in Hm.
  exists (lc0, h), lc. cbn [fst snd]. do 3 (split; [done|]). rewrite Ec.
  destruct (jget (to_lower name) _) as [r|] eqn:Er.
  - injection Hm as <- <-. by left.
  - right. split; [done|]. apply bind_inv_ok in Hm as (r & s1 & Hc & Hm).
    unfold on_client in Hc. cbn [fst snd] in Hc.
    destruct (createDoc _ _ _ h) as [[r'|e] h1] eqn:Ecr; [|done]. injection Hc as -> <-.
    apply createDoc_ok in Ecr as [Hd Hf].
    unfold bind, on_cache, modify, ret in Hm. cbn [fst snd] in Hm. injection Hm as <- <-.
    by exists h1.
Qed.

Lemma label_sound_same lc lc' (h : HU) :
  same_local lc lc' -> label_sound (lc, h) -> label_sound (lc', h).
Proof. intros (El & Ec & _) (Hwf & He & Hs). repeat split; cbn [fst snd] in *; rewrite ?Ec, ?El; done. Qed.

(** EnsureLocalTag answers with an issue tag of the workspace whose
    title is the name up to case, creates at most that one document, keeps
    the cache sound, and a second call with the same name up to case answers
    the same reference and leaves the workspace alone. *)
Theorem ensureLocalTag_get_or_create p name c s ref s' :
  label_sound s -> 1 <= bc_maxEntries (lc_localByName s.1) ->
  ensureLocalTag p name c s = (Ok ref, s') ->
  label_sound s' /\
  (exists d, d ∈ docs s'.2 /\ is_tag (to_lower name) ref d) /\
  (docs s'.2 = docs s.2 \/
   docs s'.2 = docs s.2 ++ [MkHulyDoc ref CLASS_TAG_ELEMENT p
     [("title", VStr name); ("targetClass", VStr CLASS_ISSUE); ("color", VNum c)] []]) /\
  (forall p2 name2 c2, to_lower name2 = to_lower name ->
     ensureLocalTag p2 name2 c2 s' = (Ok ref, s')).
Proof.
  intros Hs Hmax He.
  destruct (ensureLocalTag_run _ _ _ _ _ _ He) as ([lc0 h0] & lc & Hp0 & Hsame & Hp & Hcase).
  destruct (primeLocal_sound _ _ Hs Hp0) as (Hs0 & Hd & Hl & Hm).
  pose proof (label_sound_same _ _ _ Hsame Hs0) as Hs1. destruct Hsame as (El & Ec & Em).
  cbn [fst snd] in *.
  assert (forall s2 : LabelCache * HU, lc_localLoaded s2.1 = true -> bc_primed (lc_localByName s2.1) = true ->
    jget (to_lower name) (bc_cache (lc_localByName s2.1)) = Some ref ->
    forall p2 name2 c2, to_lower name2 = to_lower name ->
      ensureLocalTag p2 name2 c2 s2 = (Ok ref, s2)) as Hhit.
  { intros [[rb lb rl ll] h] Hl2 Hp2 Hg p2 name2 c2 En. cbn [fst lc_localLoaded lc_localByName] in *. subst ll.
    unfold ensureLocalTag, label_primeLocal, label_local_get, bc_get, bind, gets, ret.
    cbn [fst snd lc_localLoaded lc_localByName lc_remoteByName lc_remoteLoaded]. by rewrite Hp2, En, Hg. }
  destruct Hcase as [[Hg ->]|(Hg & h' & Hdocs & Hfresh & ->)].
  - split; [done|]. split; [|split; [by left|apply Hhit; cbn [fst]; congruence]].
    destruct Hs1 as (_ & _ & Hs1). by apply Hs1.
  - destruct Hs1 as (Hwf & _ & Hs1). cbn [fst snd lc_localByName] in *.
    assert (is_tag (to_lower name) ref (tag_doc p name c ref)) as Htag by by repeat split.
    split; [|split; [|split]].
    + split; cbn [fst snd lc_localByName bc_put bc_cache]; [by apply evict_wf, jwf_set|].
      split; [cbn; intros; congruence|]. intros key r Hr. apply evict_get in Hr; [|by apply jwf_set].
      rewrite jget_set in Hr. rewrite Hdocs. case_decide as Ek.
      * injection Hr as <-. subst. eexists. split; [|exact Htag].
        rewrite elem_of_app, list_elem_of_singleton. by right.
      * destruct (Hs1 key r Hr) as (d & Hdin & Ht). exists d. split; [|done].
        rewrite elem_of_app. by left.
    + eexists. split; [|exact Htag]. rewrite Hdocs, elem_of_app, list_elem_of_singleton. by right.
    + right. by rewrite Hdocs, Hd.
    + apply Hhit; cbn [fst lc_localByName lc_localLoaded bc_put bc_primed]; [congruence|done|].
      apply bc_put_new; [done|done|]. by rewrite Em, Hm.
Qed.

(** With a full cache, getting a label of a new name evicts the
    oldest entry: the next call for that entry's name creates a second tag
    with the same title. *)
Theorem label_eviction_duplicates p name c name0 c0 lc h key0 ref0 rest :
  huly_up HU ->
  label_sound (lc, h) -> lc_localLoaded lc = true ->
  bc_cache (lc_localByName lc) = (key0, ref0) :: rest ->
  length ((key0, ref0) :: rest) = bc_maxEntries (lc_localByName lc) ->
  to_lower name0 = key0 -> jget (to_lower name) ((key0, ref0) :: rest) = None ->
  exists r r' s1 s2,
    ensureLocalTag p name c (lc, h) = (Ok r, s1) /\
    ensureLocalTag p name0 c0 s1 = (Ok r', s2) /\ r' <> ref0 /\
    docs s2.2 = docs h ++
      [MkHulyDoc r CLASS_TAG_ELEMENT p
         [("title", VStr name); ("targetClass", VStr CLASS_ISSUE); ("color", VNum c)] [];
       MkHulyDoc r' CLASS_TAG_ELEMENT p
         [("title", VStr name0); ("targetClass", VStr CLASS_ISSUE); ("color", VNum c0)] []].
Proof.
  intros Hup Hsound Hl Hcache Hlen <- Hnew.
  destruct Hsound as (Hwf & _ & Hs). cbn [fst snd] in *.
  destruct (Hs (to_lower name0) ref0) as (d0 & Hd0 & Hid0 & _).
  { rewrite Hcache. cbn. by rewrite decide_True. }
  destruct lc as [rb [m pr max] rl ll]. cbn [lc_localByName bc_cache bc_maxEntries lc_localLoaded] in *.
  subst m ll.
  destruct (up_create _ Hup CLASS_TAG_ELEMENT p
    [("title", VStr name); ("targetClass", VStr CLASS_ISSUE); ("color", VNum c)] h) as (r & h1 & E1).
  destruct (up_create _ Hup CLASS_TAG_ELEMENT p
    [("title", VStr name0); ("targetClass", VStr CLASS_ISSUE); ("color", VNum c0)] h1) as (r' & h2 & E2).
  pose proof (createDoc_ok _ _ _ _ _ _ E1) as [Hd1 _].
  pose proof (createDoc_ok _ _ _ _ _ _ E2) as [Hd2 Hf2].
  set (m1 := rest ++ [(to_lower name, r)]).
  assert (evict max (jset (to_lower name) r ((to_lower name0, ref0) :: rest)) = m1) as Hev.
  { rewrite jset_new by done. cbn [app evict]. rewrite (proj2 (Nat.leb_gt _ _)).
    - apply evict_small. unfold m1. rewrite <- Hlen. rewrite length_app. cbn. lia.
    - rewrite <- Hlen. cbn. rewrite length_app. cbn. lia. }
  assert (jget (to_lower name0) m1 = None) as Hgone.
  { unfold m1. rewrite jget_app. unfold jwf, jkeys in Hwf. cbn [map fst] in Hwf.
    apply NoDup_cons in Hwf as [Hn _]. apply jget_None_keys in Hn. unfold jkeys in Hn. rewrite Hn.
    cbn in Hnew |- *. destruct (decide (to_lower name = to_lower name0)) as [E|E]; [done|].
    by rewrite decide_False. }
  exists r, r', (MkLabelCache rb (MkBiCache m1 true max) rl true, h1).
  eexists. split; [|split; [|split]].
  - unfold ensureLocalTag, label_primeLocal, label_local_get, bc_get, bind, gets, ret, on_client, on_cache, modify.
    cbn [fst snd lc_localLoaded lc_localByName lc_remoteByName lc_remoteLoaded bc_primed bc_set jset_all fold_left bc_cache bc_maxEntries].
    unfold bc_set, bc_put. cbn [jset_all fold_left bc_cache bc_primed bc_maxEntries].
    destruct pr; cbn [fst snd bc_cache bc_primed bc_maxEntries lc_localByName lc_remoteByName lc_remoteLoaded lc_localLoaded];
      rewrite Hnew; cbn [fst snd]; rewrite E1; cbn [fst snd lc_localByName lc_remoteByName lc_remoteLoaded lc_localLoaded bc_cache bc_primed bc_maxEntries]; by rewrite Hev.
  - unfold ensureLocalTag, label_primeLocal, label_local_get, bc_get, bind, gets, ret, on_client, on_cache, modify.
    cbn [fst snd lc_localLoaded lc_localByName lc_remoteByName lc_remoteLoaded bc_primed bc_cache bc_maxEntries].
    rewrite Hgone. cbn [fst snd]. rewrite E2. reflexivity.
  - intros ->. apply Hf2. rewrite Hd1, map_app. apply elem_of_app. left.
    rewrite <- Hid0. apply list_elem_of_In, in_map. by apply list_elem_of_In.
  - cbn [snd]. rewrite Hd2, Hd1, <- app_assoc. done.
Qed.
End LabelTheorems.

(** ** Replaying the lookups

    A loaded cache that is not over its bound is exactly what priming would
    load from the workspace, so that a fresh cache answers the same. *)

Section Replay.
Context {HU : Type} `{HulyLaws HU}.

Definition issue_tags (l : list HulyDoc) : list HulyDoc :=
  List.filter (fun d => bool_decide (field "targetClass" (hd_attrs d) = Some (VStr CLASS_ISSUE)))
    (List.filter (fun d => bool_decide (hd_class d = CLASS_TAG_ELEMENT) && matches [] d) l).

Definition project_milestones (p : string) (l : list HulyDoc) : list HulyDoc :=
  List.filter (fun d => bool_decide (hd_space d = p))
    (List.filter (fun d => bool_decide (hd_class d = CLASS_MILESTONE) && matches [] d) l).

(** The cache entry of a document by one of its string attributes. *)
Definition entry_by (attr : string) (d : HulyDoc) : option (string * string) :=
  option_map (fun t => (to_lower t, hd_id d)) (as_string (field attr (hd_attrs d))).

Lemma mapM_title_key_eq (l : list HulyDoc) (s : LabelCache * HU) :
  mapM_js l (title_key "title") s =
  (match mapM (entry_by "title") l with Some es => Ok es | None => Throw (JsError "TypeError") end, s).
Proof.
  induction l as [|d l IH]; [done|]. cbn [mapM_js]. unfold bind, title_key at 1.
  cbn [mapM]. assert (entry_by "title" d = option_map (fun t => (to_lower t, hd_id d))
    (as_string (field "title" (hd_attrs d)))) as -> by done.
  destruct (as_string _); cbn [option_map mbind option_bind]; [|done]. cbn [ret]. rewrite IH.
  by destruct (mapM _ l).
Qed.

Lemma mapM_milestone_key_eq (l : list HulyDoc) (s : MilestoneCache * HU) :
  mapM_js l milestone_key s =
  (match mapM (entry_by "label") l with Some es => Ok es | None => Throw (JsError "TypeError") end, s).
Proof.
  induction l as [|d l IH]; [done|]. cbn [mapM_js]. unfold bind, milestone_key at 1.
  cbn [mapM]. assert (entry_by "label" d = option_map (fun t => (to_lower t, hd_id d))
    (as_string (field "label" (hd_attrs d)))) as -> by done.
  destruct (as_string _); cbn [option_map mbind option_bind]; [|done]. cbn [ret]. rewrite IH.
  by destruct (mapM _ l).
Qed.

(** *** Labels *)

Definition label_exact (s : LabelCache * HU) : Prop :=
  if lc_localLoaded s.1 then
    exists es, mapM (entry_by "title") (issue_tags (docs s.2)) = Some es /\
      bc_cache (lc_localByName s.1) = jset_all es []
  else bc_cache (lc_localByName s.1) = [].

Lemma issue_tags_app l1 l2 : issue_tags (l1 ++ l2) = issue_tags l1 ++ issue_tags l2.
Proof. unfold issue_tags. by rewrite !List.filter_app. Qed.

Lemma project_milestones_app p l1 l2 :
  project_milestones p (l1 ++ l2) = project_milestones p l1 ++ project_milestones p l2.
Proof. unfold project_milestones. by rewrite !List.filter_app. Qed.

Lemma jset_all_app {K V} `{EqDecision K} (es es' : list (K * V)) m :
  jset_all (es ++ es') m = jset_all es' (jset_all es m).
Proof. unfold jset_all. apply fold_left_app. Qed.

Lemma jset_all_length {K V} `{EqDecision K} (es : list (K * V)) m :
  length (jset_all es m) <= length es + length m.
Proof.
  unfold jset_all. revert m. induction es as [|e es IH]; intros m; [cbn; lia|].
  cbn [fold_left length]. specialize (IH (jset e.1 e.2 m)).
  pose proof (jsize_set_le m e.1 e.2) as Hs. unfold jsize in Hs. lia.
Qed.

Lemma mapM_length_eq {A B} (f : A -> option B) l es : mapM f l = Some es -> length es = length l.
Proof.
  revert es. induction l as [|x l IH]; intros es; cbn [mapM].
  - by intros [= <-].
  - destruct (f x); cbn [mbind option_bind]; [|done].
    destruct (mapM f l) as [ys|]; cbn [mbind option_bind]; [|done]. intros [= <-].
    cbn [length]. by rewrite (IH ys).
Qed.

Lemma mapM_app_one {A B} (f : A -> option B) l es x y :
  mapM f l = Some es -> f x = Some y -> mapM f (l ++ [x]) = Some (es ++ [y]).
Proof.
  revert es. induction l as [|z l IH]; intros es; cbn [mapM app].
  - intros [= <-] ->. done.
  - destruct (f z) as [w|]; cbn [mbind option_bind]; [|done].
    destruct (mapM f l) as [ys|]; cbn [mbind option_bind]; [|done]. intros [= <-] Hx.
    by rewrite (IH ys).
Qed.

Lemma label_primeLocal_exact (s s' : LabelCache * HU) :
  label_exact s -> label_primeLocal s = (Ok tt, s') ->
  label_exact s' /\ lc_localLoaded s'.1 = true /\ docs s'.2 = docs s.2 /\
  bc_maxEntries (lc_localByName s'.1) = bc_maxEntries (lc_localByName s.1) /\
  (lc_localLoaded s.1 = true -> s' = s).
Proof.
  destruct s as [lc h]. unfold label_exact at 1, label_primeLocal, bind at 1, gets. cbn [fst snd].
  destruct (lc_localLoaded lc) eqn:El.
  - intros He [= <-]. unfold label_exact. cbn [fst snd]. rewrite El. done.
  - intros He (found & s1 & Hf & Hm)%bind_inv_ok. unfold on_client in Hf. cbn [fst snd] in Hf.
    destruct (findAllDocs _ _ h) as [[l|e] h1] eqn:E; [|done]. injection Hf as <- <-.
    apply findAll_ok in E as [Hd ->].
    apply bind_inv_ok in Hm as (es & s2 & Hes & Hm). rewrite mapM_title_key_eq in Hes.
    destruct (mapM _ _) as [es'|] eqn:Ees in Hes; [|done]. injection Hes as -> <-.
    unfold on_cache, modify in Hm. injection Hm as <-.
    unfold label_exact. cbn [fst snd lc_localByName lc_localLoaded bc_set bc_cache bc_maxEntries].
    split; [|by repeat split]. exists es. rewrite He, Hd. by split.
Qed.

Lemma label_primeLocal_docs (s s' : LabelCache * HU) :
  label_primeLocal s = (Ok tt, s') -> docs s'.2 = docs s.2.
Proof.
  destruct s as [lc h]. unfold label_primeLocal, bind at 1, gets. cbn [fst snd].
  destruct (lc_localLoaded lc); [by intros [= <-]|].
  intros (found & s1 & Hf & Hm)%bind_inv_ok. unfold on_client in Hf. cbn [fst snd] in Hf.
  destruct (findAllDocs _ _ h) as [[l|e] h1] eqn:E; [|done]. injection Hf as <- <-.
  apply findAll_ok in E as [Hd _].
  apply bind_inv_ok in Hm as (es & s2 & Hes & Hm). rewrite mapM_title_key_eq in Hes.
  destruct (mapM _ _); [|done]. injection Hes as _ <-. by injection Hm as <-.
Qed.

Lemma ensureLocalTag_docs p name c (s : LabelCache * HU) ref s' :
  ensureLocalTag p name c s = (Ok ref, s') ->
  docs s'.2 = docs s.2 \/
  docs s'.2 = docs s.2 ++ [tag_doc p name c ref] /\ ref ∉ map hd_id (docs s.2).
Proof.
  intros Hr.
  destruct (ensureLocalTag_run _ _ _ _ _ _ Hr) as ([lc0 h0] & lc & Hp & _ & _ & Hcase).
  rewrite <- (label_primeLocal_docs _ _ Hp). cbn [snd] in *.
  destruct Hcase as [[_ ->]|(_ & h' & Hdocs & Hf & ->)]; [by left|by right].
Qed.

(** Only a string can be looked up. *)
Lemma ensureLocalTag_js_inv p n (s : LabelCache * HU) ref s' :
  ensureLocalTag_js p n s = (Ok ref, s') ->
  exists name, n = VStr name /\ ensureLocalTag p name 0 s = (Ok ref, s').
Proof.
  unfold ensureLocalTag_js. destruct n as [| | | | |name| | |]; intros Hr;
    try (apply bind_inv_ok in Hr as (? & ? & _ & Hr); done).
  by exists name.
Qed.

Lemma label_loop_docs p names (s : LabelCache * HU) refs s' :
  mapM_js names (ensureLocalTag_js p) s = (Ok refs, s') ->
  sublist (issue_tags (docs s.2)) (issue_tags (docs s'.2)).
Proof.
  revert s refs. induction names as [|n names IH]; intros s refs Hr; [by injection Hr as _ <-|].
  cbn [mapM_js] in Hr. apply bind_inv_ok in Hr as (r & s1 & H1 & Hr).
  apply bind_inv_ok in Hr as (rs & s2 & H2 & [= _ <-]).
  apply ensureLocalTag_js_inv in H1 as (name & -> & H1).
  etransitivity; [|by eapply IH].
  destruct (ensureLocalTag_docs _ _ _ _ _ _ H1) as [->|[-> _]]; [done|].
  rewrite issue_tags_app. by apply sublist_inserts_r.
Qed.

Lemma ensureLocalTag_exact p name c (s : LabelCache * HU) ref s' :
  label_exact s -> ensureLocalTag p name c s = (Ok ref, s') ->
  length (issue_tags (docs s'.2)) <= bc_maxEntries (lc_localByName s.1) ->
  label_exact s' /\ lc_localLoaded s'.1 = true /\
  bc_maxEntries (lc_localByName s'.1) = bc_maxEntries (lc_localByName s.1) /\
  jget (to_lower name) (bc_cache (lc_localByName s'.1)) = Some ref /\
  (forall k r, jget k (bc_cache (lc_localByName s.1)) = Some r ->
     jget k (bc_cache (lc_localByName s'.1)) = Some r) /\
  (docs s'.2 = docs s.2 \/
   docs s'.2 = docs s.2 ++ [tag_doc p name c ref] /\ ref ∉ map hd_id (docs s.2)).
Proof.
  intros He Hr Hlen.
  destruct (ensureLocalTag_run _ _ _ _ _ _ Hr) as ([lc0 h0] & lc & Hp & (El & Ec & Em) & _ & Hcase).
  destruct (label_primeLocal_exact _ _ He Hp) as (He0 & Hl & Hd & Hm & Hsame).
  cbn [fst snd] in *. unfold label_exact in He0. cbn [fst snd] in He0. rewrite Hl in He0.
  destruct He0 as (es & Hes & Hc).
  assert (forall k r, jget k (bc_cache (lc_localByName s.1)) = Some r ->
    jget k (bc_cache (lc_localByName lc0)) = Some r) as Hkeep.
  { intros k r. unfold label_exact in He. destruct (lc_localLoaded s.1) eqn:E.
    - by specialize (Hsame eq_refl) as <-.
    - by rewrite He. }
  destruct Hcase as [[Hg ->]|(Hg & h' & Hdocs & Hfresh & ->)];
    cbn [fst snd lc_localByName lc_localLoaded bc_put bc_cache bc_maxEntries] in *.
  - unfold label_exact. cbn [fst snd]. rewrite El, Hl, Ec, Em.
    split; [by exists es|]. rewrite Ec in Hg. split_and!; try done. by left.
  - assert (issue_tags (docs h') = issue_tags (docs h0) ++ [tag_doc p name c ref]) as Ht.
    { rewrite Hdocs, issue_tags_app. done. }
    assert (evict (bc_maxEntries (lc_localByName lc)) (jset (to_lower name) ref (bc_cache (lc_localByName lc)))
      = jset_all (es ++ [(to_lower name, ref)]) []) as Hev.
    { rewrite jset_all_app, <- Hc, Ec. apply evict_small.
      rewrite Ec, Hc in *. etransitivity; [|rewrite Em, Hm; exact Hlen].
      pose proof (jset_all_length (es ++ [(to_lower name, ref)]) ([] : jsmap string string)) as Hlj.
      rewrite jset_all_app, length_app, (mapM_length_eq _ _ _ Hes) in Hlj.
      rewrite Ht, length_app. cbn [length] in *.
      lia. }
    assert (jset_all (es ++ [(to_lower name, ref)]) [] = jset (to_lower name) ref (bc_cache (lc_localByName lc0))) as Ej.
    { by rewrite jset_all_app, <- Hc. }
    unfold label_exact. cbn [fst snd lc_localByName lc_localLoaded bc_cache bc_maxEntries].
    rewrite El, Hl, Hev, Em. split; [|split_and!; try done].
    + exists (es ++ [(to_lower name, ref)]). rewrite Ht. split; [|done].
      by apply mapM_app_one.
    + by rewrite Ej, jget_set_eq.
    + intros k r Hk. rewrite Ej. rewrite jget_set_ne; [by apply Hkeep|].
      intros <-. apply Hkeep in Hk. congruence.
    + right. by rewrite Hdocs, Hd in *.
Qed.

(** A label list resolved over the cache. *)
Definition label_loop (p : string) (names : list jsval) : M (LabelCache * HU) (list string) :=
  mapM_js names (ensureLocalTag_js p).

Lemma label_loop_exact p names (s : LabelCache * HU) refs s' :
  label_exact s -> label_loop p names s = (Ok refs, s') ->
  length (issue_tags (docs s'.2)) <= bc_maxEntries (lc_localByName s.1) ->
  label_exact s' /\
  bc_maxEntries (lc_localByName s'.1) = bc_maxEntries (lc_localByName s.1) /\
  (names <> [] -> lc_localLoaded s'.1 = true) /\
  Forall2 (fun n r => exists name, n = VStr name /\
    jget (to_lower name) (bc_cache (lc_localByName s'.1)) = Some r) names refs /\
  (forall k r, jget k (bc_cache (lc_localByName s.1)) = Some r ->
     jget k (bc_cache (lc_localByName s'.1)) = Some r) /\
  sublist (issue_tags (docs s.2)) (issue_tags (docs s'.2)).
Proof.
  revert s refs. induction names as [|n names IH]; intros s refs He Hr Hlen.
  - injection Hr as <- <-. split_and!; try done.
  - unfold label_loop in Hr. cbn [mapM_js] in Hr.
    apply bind_inv_ok in Hr as (r & s1 & H1 & Hr).
    apply bind_inv_ok in Hr as (rs & s2 & H2 & [= <- <-]).
    apply ensureLocalTag_js_inv in H1 as (name & -> & H1).
    pose proof (label_loop_docs _ _ _ _ _ H2) as Hsub.
    destruct (ensureLocalTag_exact _ _ _ _ _ _ He H1) as (He1 & Hl1 & Hm1 & Hg1 & Hk1 & Hd1).
    { etransitivity; [by apply sublist_length|exact Hlen]. }
    destruct (IH s1 rs He1 H2) as (He2 & Hm2 & Hl2 & Hf2 & Hk2 & Hs2); [by rewrite Hm1|].
    split_and!; try done.
    + congruence.
    + intros _. destruct names; [by injection H2 as _ <-|by apply Hl2].
    + constructor; [|done]. exists name. split; [done|]. by apply Hk2.
    + auto.
    + etransitivity; [|exact Hs2]. destruct Hd1 as [->|[-> _]]; [done|].
      rewrite issue_tags_app. by apply sublist_inserts_r.
Qed.

(** Lookups that hit change nothing but the primed flag. *)
Lemma label_loop_hits p names refs (s : LabelCache * HU) :
  lc_localLoaded s.1 = true ->
  Forall2 (fun n r => exists name, n = VStr name /\
    jget (to_lower name) (bc_cache (lc_localByName s.1)) = Some r) names refs ->
  exists lc, label_loop p names s = (Ok refs, (lc, s.2)).
Proof.
  intros Hl Hf. revert s Hl Hf. unfold label_loop.
  induction names as [|n names IH] in refs |- *; intros [lc h] Hl Hf.
  - apply Forall2_nil_inv_l in Hf as ->. by exists lc.
  - apply Forall2_cons_inv_l in Hf as (r & refs' & (name & -> & Hg) & Hf & ->).
    cbn [fst snd] in *. destruct (local_get_eq (to_lower name) lc h) as (lc' & Eg & El & _ & Ec & _).
    assert (ensureLocalTag_js p (VStr name) (lc, h) = (Ok r, (lc', h))) as H1.
    { unfold ensureLocalTag_js, ensureLocalTag, label_primeLocal, bind at 1 2, gets. cbn [fst].
      rewrite Hl. cbn [ret]. unfold bind. by rewrite Eg, Hg. }
    destruct (IH refs' (lc', h)) as [lc2 H2]; [by cbn [fst]; rewrite El|by cbn [fst]; rewrite Ec|].
    exists lc2. cbn [mapM_js]. rewrite (bind_ok _ _ _ _ _ H1), (bind_ok _ _ _ _ _ H2). done.
Qed.

(** A fresh cache over a workspace with the same tags gives the same
    references and creates nothing. *)
Lemma label_loop_replay p names (s s' s2 : LabelCache * HU) refs :
  huly_up HU ->
  label_exact s -> label_loop p names s = (Ok refs, s') ->
  length (issue_tags (docs s'.2)) <= bc_maxEntries (lc_localByName s.1) ->
  lc_localLoaded s2.1 = false -> bc_cache (lc_localByName s2.1) = [] ->
  issue_tags (docs s2.2) = issue_tags (docs s'.2) ->
  exists s3, label_loop p names s2 = (Ok refs, s3) /\ docs s3.2 = docs s2.2.
Proof.
  intros Hup He Hr Hlen Hl2 Hc2 Htags.
  destruct (label_loop_exact _ _ _ _ _ He Hr Hlen) as (He' & _ & Hl' & Hf & _ & _).
  destruct names as [|n names]; [apply Forall2_nil_inv_l in Hf as ->; by exists s2|].
  specialize (Hl' ltac:(done)). unfold label_exact in He'. rewrite Hl' in He'.
  destruct He' as (es & Hes & Hc). destruct s2 as [lc2 h2]. cbn [fst snd] in *.
  destruct (up_findAll _ Hup CLASS_TAG_ELEMENT [] h2) as (l & h3 & Ef).
  pose proof (findAll_ok _ _ _ _ _ Ef) as [Hd3 Hl3].
  set (lc3 := MkLabelCache (lc_remoteByName lc2) (bc_set es (lc_localByName lc2)) (lc_remoteLoaded lc2) true).
  assert (label_primeLocal (lc2, h2) = (Ok tt, (lc3, h3))) as Hp.
  { unfold label_primeLocal, bind at 1, gets. cbn [fst]. rewrite Hl2.
    unfold bind at 1, on_client. cbn [fst snd]. rewrite Ef. unfold bind.
    rewrite mapM_title_key_eq. fold (issue_tags (docs h2)) in *.
    replace (mapM _ _) with (Some es); [done|]. rewrite <- Hes, <- Htags. by rewrite Hl3. }
  destruct (label_loop_hits p (n :: names) refs (lc3, h3)) as [lc4 H4]; [done| |].
  { eapply Forall2_impl; [exact Hf|]. intros x r (name & -> & Hg). exists name. split; [done|].
    unfold lc3. cbn [fst lc_localByName bc_set bc_cache]. by rewrite Hc2, <- Hc. }
  exists (lc4, h3). split; [|done]. cbn [snd] in H4. rewrite <- H4.
  (* the first lookup primes *)
  apply Forall2_cons_inv_l in Hf as (r & refs' & (name & -> & Hg) & Hf & ->).
  unfold label_loop. cbn [mapM_js]. unfold bind at 1. symmetry. unfold bind at 1. symmetry.
  assert (forall s, ensureLocalTag_js p (VStr name) s = bind label_primeLocal (fun _ =>
    let key := to_lower name in
    let! existing := label_local_get key in
    match existing with
    | Some ref => ret ref
    | None =>
        let! ref := on_client (createDoc CLASS_TAG_ELEMENT p
          [("title", VStr name); ("targetClass", VStr CLASS_ISSUE); ("color", VNum 0)]) in
        on_cache (fun lc => MkLabelCache (lc_remoteByName lc)
                              (bc_put key ref (lc_localByName lc))
                              (lc_remoteLoaded lc) (lc_localLoaded lc)) ;;!
        ret ref
    end) s) as Heq by done.
  rewrite !Heq, (bind_ok _ _ _ _ _ Hp).
  assert (label_primeLocal (lc3, h3) = (Ok tt, (lc3, h3))) as Hp3 by done.
  by rewrite (bind_ok _ _ _ _ _ Hp3).
Qed.

(** *** Milestones *)

Definition milestone_exact (p : string) (s : MilestoneCache * HU) : Prop :=
  if mc_localLoaded s.1 then
    exists es, mapM (entry_by "label") (project_milestones p (docs s.2)) = Some es /\
      bc_cache (mc_localByLabel s.1) = jset_all es []
  else bc_cache (mc_localByLabel s.1) = [].

Definition milestone_doc (p label : string) (description : jsval) (ref : string) : HulyDoc :=
  MkHulyDoc ref CLASS_MILESTONE p (("label", VStr label) :: with_description description) [].

Lemma milestone_primeLocal_run p (s s' : MilestoneCache * HU) :
  milestone_exact p s -> milestone_primeLocal p s = (Ok tt, s') ->
  milestone_exact p s' /\ mc_localLoaded s'.1 = true /\ docs s'.2 = docs s.2 /\
  bc_maxEntries (mc_localByLabel s'.1) = bc_maxEntries (mc_localByLabel s.1).
Proof.
  destruct s as [c h]. unfold milestone_exact at 1, milestone_primeLocal, bind at 1, gets. cbn [fst snd].
  destruct (mc_localLoaded c) eqn:El.
  - intros He [= <-]. unfold milestone_exact. cbn [fst snd]. rewrite El. done.
  - intros He (found & s1 & Hf & Hm)%bind_inv_ok. unfold on_client in Hf. cbn [fst snd] in Hf.
    destruct (findAllDocs _ _ h) as [[l|e] h1] eqn:E; [|done]. injection Hf as <- <-.
    apply findAll_ok in E as [Hd ->].
    apply bind_inv_ok in Hm as (es & s2 & Hes & Hm). rewrite mapM_milestone_key_eq in Hes.
    destruct (mapM _ _) as [es'|] eqn:Ees in Hes; [|done]. injection Hes as -> <-.
    unfold on_cache, modify in Hm. injection Hm as <-.
    unfold milestone_exact. cbn [fst snd mc_localByLabel mc_localLoaded bc_set bc_cache bc_maxEntries].
    split; [|by repeat split]. exists es. rewrite He, Hd. by split.
Qed.

Lemma milestone_get_eq key c (h : HU) :
  exists c', milestone_local_get (HU := HU) key (c, h) =
      (Ok (jget key (bc_cache (mc_localByLabel c))), (c', h)) /\
    mc_localLoaded c' = mc_localLoaded c /\
    bc_cache (mc_localByLabel c') = bc_cache (mc_localByLabel c) /\
    bc_maxEntries (mc_localByLabel c') = bc_maxEntries (mc_localByLabel c).
Proof.
  unfold milestone_local_get, bc_get. cbn [fst snd].
  destruct (bc_primed (mc_localByLabel c)) eqn:E; cbn [ret]; eexists; (split; [reflexivity|]); done.
Qed.

Lemma ensureLocalMilestone_run p label d (s : MilestoneCache * HU) ref s' :
  milestone_exact p s -> ensureLocalMilestone p label d s = (Ok ref, s') ->
  exists es, mapM (entry_by "label") (project_milestones p (docs s.2)) = Some es /\
    ((jget (to_lower label) (jset_all es []) = Some ref /\ docs s'.2 = docs s.2) \/
     (jget (to_lower label) (jset_all es []) = None /\
      docs s'.2 = docs s.2 ++ [milestone_doc p label d ref] /\ ref ∉ map hd_id (docs s.2))).
Proof.
  intros He ([] & [c h] & Hp & Hm)%bind_inv_ok.
  destruct (milestone_primeLocal_run _ _ _ He Hp) as (He0 & Hl & Hd & _).
  unfold milestone_exact in He0. cbn [fst snd] in *. rewrite Hl in He0.
  destruct He0 as (es & Hes & Hc). exists es. rewrite <- Hd. split; [done|].
  destruct (milestone_get_eq (to_lower label) c h) as (c' & Hg & _ & _ & _).
  unfold bind at 1 in Hm. rewrite Hg, Hc in Hm.
  destruct (jget (to_lower label) _) as [r|] eqn:Er.
  - injection Hm as <- <-. by left.
  - right. split; [done|]. apply bind_inv_ok in Hm as (r & s1 & Hcr & Hm).
    unfold on_client in Hcr. cbn [fst snd] in Hcr.
    destruct (createDoc _ _ _ h) as [[r'|e] h1] eqn:Ecr; [|done]. injection Hcr as -> <-.
    apply createDoc_ok in Ecr as [Hdoc Hf].
    unfold bind, on_cache, modify, ret in Hm. cbn [fst snd] in Hm. injection Hm as <- <-.
    by split.
Qed.

(** A fresh cache over a workspace with the milestones that a lookup left
    answers the same and creates nothing. *)
Lemma milestone_replay p label d d2 (s s' s2 : MilestoneCache * HU) ref :
  huly_up HU ->
  milestone_exact p s -> ensureLocalMilestone p label d s = (Ok ref, s') ->
  mc_localLoaded s2.1 = false -> bc_cache (mc_localByLabel s2.1) = [] ->
  project_milestones p (docs s2.2) = project_milestones p (docs s'.2) ->
  exists s3, ensureLocalMilestone p label d2 s2 = (Ok ref, s3) /\ docs s3.2 = docs s2.2.
Proof.
  intros Hup He Hr Hl2 Hc2 Hms.
  destruct (ensureLocalMilestone_run _ _ _ _ _ _ He Hr) as (es & Hes & Hcase).
  assert (exists es', mapM (entry_by "label") (project_milestones p (docs s2.2)) = Some es' /\
    jget (to_lower label) (jset_all es' []) = Some ref) as (es' & Hes' & Hg).
  { rewrite Hms. destruct Hcase as [[Hg ->]|(Hg & -> & _)]; [by exists es|].
    exists (es ++ [(to_lower label, ref)]). rewrite project_milestones_app.
    assert (project_milestones p [milestone_doc p label d ref] = [milestone_doc p label d ref]) as ->.
    { unfold project_milestones. cbn [List.filter hd_class milestone_doc matches matches_value forallb andb].
      rewrite bool_decide_eq_true_2 by done. cbn [andb List.filter hd_space].
      by rewrite bool_decide_eq_true_2. }
    split; [by apply mapM_app_one|]. rewrite jset_all_app. cbn [jset_all fold_left fst snd].
    apply jget_set_eq. }
  destruct s2 as [c2 h2]. cbn [fst snd] in *.
  destruct (up_findAll _ Hup CLASS_MILESTONE [] h2) as (l & h3 & Ef).
  pose proof (findAll_ok _ _ _ _ _ Ef) as [Hd3 Hl3].
  set (c3 := MkMilestoneCache (mc_remoteByTitle c2) (bc_set es' (mc_localByLabel c2)) (mc_remoteLoaded c2) true).
  assert (milestone_primeLocal p (c2, h2) = (Ok tt, (c3, h3))) as Hp.
  { unfold milestone_primeLocal, bind at 1, gets. cbn [fst]. rewrite Hl2.
    unfold bind at 1, on_client. cbn [fst snd]. rewrite Ef. unfold bind.
    rewrite mapM_milestone_key_eq. replace (mapM _ _) with (Some es'); [done|].
    rewrite <- Hes'. by rewrite Hl3. }
  destruct (milestone_get_eq (to_lower label) c3 h3) as (c4 & Eg & _ & _ & _).
  exists (c4, h3). split; [|done]. unfold ensureLocalMilestone. rewrite (bind_ok _ _ _ _ _ Hp).
  unfold bind at 1. rewrite Eg. unfold c3. cbn [mc_localByLabel bc_set bc_cache]. by rewrite Hc2, Hg.
Qed.

Lemma milestone_primeLocal_docs p (s s' : MilestoneCache * HU) :
  milestone_primeLocal p s = (Ok tt, s') -> docs s'.2 = docs s.2.
Proof.
  destruct s as [c h]. unfold milestone_primeLocal, bind at 1, gets. cbn [fst snd].
  destruct (mc_localLoaded c); [by intros [= <-]|].
  intros (found & s1 & Hf & Hm)%bind_inv_ok. unfold on_client in Hf. cbn [fst snd] in Hf.
  destruct (findAllDocs _ _ h) as [[l|e] h1] eqn:E; [|done]. injection Hf as <- <-.
  apply findAll_ok in E as [Hd _].
  apply bind_inv_ok in Hm as (es & s2 & Hes & Hm). rewrite mapM_milestone_key_eq in Hes.
  destruct (mapM _ _); [|done]. injection Hes as _ <-. by injection Hm as <-.
Qed.

Lemma ensureLocalMilestone_docs p label d (s : MilestoneCache * HU) ref s' :
  ensureLocalMilestone p label d s = (Ok ref, s') ->
  docs s'.2 = docs s.2 \/
  docs s'.2 = docs s.2 ++ [milestone_doc p label d ref] /\ ref ∉ map hd_id (docs s.2).
Proof.
  intros ([] & [c h] & Hp & Hm)%bind_inv_ok.
  rewrite <- (milestone_primeLocal_docs _ _ _ Hp). cbn [snd].
  destruct (milestone_get_eq (to_lower label) c h) as (c' & Hg & _ & _ & _).
  unfold bind at 1 in Hm. rewrite Hg in Hm.
  destruct (jget (to_lower label) _) as [r|] eqn:Er.
  - injection Hm as <- <-. by left.
  - right. apply bind_inv_ok in Hm as (r & s1 & Hcr & Hm).
    unfold on_client in Hcr. cbn [fst snd] in Hcr.
    destruct (createDoc _ _ _ h) as [[r'|e] h1] eqn:Ecr; [|done]. injection Hcr as -> <-.
    apply createDoc_ok in Ecr as [Hdoc Hf].
    unfold bind, on_cache, modify, ret in Hm. cbn [fst snd] in Hm. injection Hm as <- <-.
    by split.
Qed.

Lemma ensureLocalMilestone_js_inv p label d (s : MilestoneCache * HU) ref s' :
  ensureLocalMilestone_js p label d s = (Ok ref, s') ->
  exists l, label = VStr l /\ ensureLocalMilestone p l d s = (Ok ref, s').
Proof.
  unfold ensureLocalMilestone_js. destruct label as [| | | | |l| | |]; intros Hr;
    try (apply bind_inv_ok in Hr as (? & ? & _ & Hr); done).
  by exists l.
Qed.
End Replay.

(** ** Closed examples *)

Definition tag_cache (max : nat) (m : jsmap string string) : LabelCache :=
  MkLabelCache (new_bicache max) (MkBiCache m true max) false true.

Definition bug_tag : HulyDoc :=
  MkHulyDoc "t1" CLASS_TAG_ELEMENT "proj"
    [("title", VStr "Bug"); ("targetClass", VStr CLASS_ISSUE); ("color", VNum 0)] [].

Lemma tag_cache_sound max : label_sound (HU := list HulyDoc) (tag_cache max [("bug", "t1")], [bug_tag]).
Proof.
  split; [|split; [done|]].
  - apply (bool_decide_eq_true_1 _). vm_compute. reflexivity.
  - intros key ref. cbn [fst snd tag_cache lc_localByName bc_cache jget].
    case_decide as E; [|done]. intros [= <-]. exists bug_tag. subst. cbn [docs memory_laws].
    split; [left|]. by repeat split.
Qed.

Lemma ensureLocalTag_get_or_create_witness :
  ensureLocalTag "proj" "BUG" 7 (tag_cache 1000 [("bug", "t1")], [bug_tag]) =
    (Ok "t1", (tag_cache 1000 [("bug", "t1")], [bug_tag])) /\
  ensureLocalTag "proj" "buG" 9 (tag_cache 1000 [("bug", "t1")], [bug_tag]) =
    (Ok "t1", (tag_cache 1000 [("bug", "t1")], [bug_tag])).
Proof.
  split; [reflexivity|].
  refine (proj2 (proj2 (proj2 (ensureLocalTag_get_or_create "proj" "BUG" 7
    (tag_cache 1000 [("bug", "t1")], [bug_tag]) "t1" _ (tag_cache_sound 1000) _ eq_refl)))
    "proj" "buG" 9%Z eq_refl).
  cbn [fst tag_cache lc_localByName bc_maxEntries]. lia.
Defined.

Lemma label_eviction_duplicates_witness :
  exists r r' s1 s2,
    ensureLocalTag "proj" "docs" 0 (tag_cache 1 [("bug", "t1")], [bug_tag]) = (Ok r, s1) /\
    ensureLocalTag "proj" "Bug" 0 s1 = (Ok r', s2) /\ r' <> "t1" /\
    docs s2.2 = docs [bug_tag] ++
      [MkHulyDoc r CLASS_TAG_ELEMENT "proj"
         [("title", VStr "docs"); ("targetClass", VStr CLASS_ISSUE); ("color", VNum 0)] [];
       MkHulyDoc r' CLASS_TAG_ELEMENT "proj"
         [("title", VStr "Bug"); ("targetClass", VStr CLASS_ISSUE); ("color", VNum 0)] []].
Proof.
  apply (label_eviction_duplicates "proj" "docs" 0 "Bug" 0 (tag_cache 1 [("bug", "t1")]) [bug_tag]
    "bug" "t1" []); try reflexivity; [exact memory_up|apply tag_cache_sound].
Defined.
