(* ===== verification/Mongo.v ===== *)
(** * Collections

    The interface through which the program uses its database.  A
    collection is abstract ([Coll]); [Mongo] lists the driver operations the
    code calls and [MongoLaws] their documented behaviour as equations
    against the list of documents in natural order ([scan]): [findOne]
    returns the first match, [insertOne] appends and fails with a duplicate
    key error when a unique index is violated, [updateOne] rewrites the first
    match (or inserts, with [upsert: true]), [deleteOne] and [deleteMany]
    remove.  Failures of the connection itself are not modelled.  The
    instance [list_mongo] is the in-memory collection, used by examples. *)

From S2P Require Import Prelude.

(** The unique indexes of a document type: [conflicts d d'] when storing
    both would violate one of them. *)
Class Document (D : Type) := {
  conflicts : D -> D -> bool;
  conflicts_sym : forall d d', conflicts d d' = conflicts d' d
}.

(** No two documents of the collection violate a unique index. *)
Fixpoint index_ok {D} `{Document D} (l : list D) : Prop :=
  match l with
  | [] => True
  | d :: l' => (forall d', d' ∈ l' -> conflicts d d' = false) /\ index_ok l'
  end.

(** ** Reference behaviour on lists *)
Section Reference.
Context {D : Type} `{Document D}.

Definition ref_insert (d : D) (l : list D) : option (list D) :=
  if existsb (conflicts d) l then None else Some (l ++ [d]).

(** Rewrite the first match; the result must not clash with the others. *)
Fixpoint ref_update (p : D -> bool) (f : D -> D) (seen l : list D) : option (list D) :=
  match l with
  | [] => Some seen
  | d :: l' =>
      if p d
      then if existsb (conflicts (f d)) (seen ++ l') then None
           else Some (seen ++ f d :: l')
      else ref_update p f (seen ++ [d]) l'
  end.

Definition ref_upsert (p : D -> bool) (f : D -> D) (fresh : D) (l : list D)
    : option (list D) :=
  match js_find p l with
  | Some _ => ref_update p f [] l
  | None => ref_insert fresh l
  end.
End Reference.

Class Mongo (Coll : Type -> Type) := {
  scan : forall {D}, Coll D -> list D;
  findOne : forall {D}, (D -> bool) -> Coll D -> option D;
  find_docs : forall {D}, (D -> bool) -> Coll D -> list D;
  insertOne : forall {D} `{Document D}, D -> Coll D -> option (Coll D);
  updateOne : forall {D} `{Document D}, (D -> bool) -> (D -> D) -> Coll D -> option (Coll D);
  upsertOne : forall {D} `{Document D}, (D -> bool) -> (D -> D) -> D -> Coll D -> option (Coll D);
  deleteOne : forall {D}, (D -> bool) -> Coll D -> Coll D;
  deleteMany : forall {D}, (D -> bool) -> Coll D -> Coll D
}.

Class MongoLaws (Coll : Type -> Type) `{Mongo Coll} := {
  findOne_scan : forall D (p : D -> bool) (c : Coll D), findOne p c = js_find p (scan c);
  find_docs_scan : forall D (p : D -> bool) (c : Coll D), find_docs p c = List.filter p (scan c);
  insertOne_scan : forall D `{Document D} (d : D) (c : Coll D),
    option_map scan (insertOne d c) = ref_insert d (scan c);
  updateOne_scan : forall D `{Document D} p f (c : Coll D),
    option_map scan (updateOne p f c) = ref_update p f [] (scan c);
  upsertOne_scan : forall D `{Document D} p f fresh (c : Coll D),
    option_map scan (upsertOne p f fresh c) = ref_upsert p f fresh (scan c);
  deleteOne_scan : forall D (p : D -> bool) (c : Coll D),
    scan (deleteOne p c) = remove_first p (scan c);
  deleteMany_scan : forall D (p : D -> bool) (c : Coll D),
    scan (deleteMany p c) = List.filter (fun d => negb (p d)) (scan c)
}.

#[export] Instance list_mongo : Mongo list := {
  scan := fun D c => c;
  findOne := fun D => js_find;
  find_docs := fun D => @List.filter D;
  insertOne := fun D _ => ref_insert;
  updateOne := fun D _ p f c => ref_update p f [] c;
  upsertOne := fun D _ => ref_upsert;
  deleteOne := fun D => remove_first;
  deleteMany := fun D p c => List.filter (fun d => negb (p d)) c
}.

#[export] Instance list_mongo_laws : MongoLaws list.
Proof.
  split; intros; try done; cbn;
    match goal with |- option_map _ ?o = _ => by destruct o end.
Qed.

(** ** Lemmas on the reference behaviour *)
Section ReferenceLemmas.
Context {D : Type} {HD : Document D}.
Implicit Types (d : D) (l : list D) (p : D -> bool).

Lemma ref_insert_Some d l l' :
  ref_insert d l = Some l' <->
  l' = l ++ [d] /\ forall d', d' ∈ l -> conflicts d d' = false.
Proof.
  unfold ref_insert. destruct (existsb (conflicts d) l) eqn:E.
  - split; [done|]. intros [_ Hn]. apply existsb_exists in E as (d' & Hin & Hc).
    apply list_elem_of_In in Hin. rewrite Hn in Hc; done.
  - split; [intros [= <-]|by intros [-> _]]. split; [done|]. intros d' Hin.
    destruct (conflicts d d') eqn:Ec; [|done].
    assert (existsb (conflicts d) l = true); [|congruence].
    apply existsb_exists. exists d'. by rewrite <- list_elem_of_In.
Qed.

Lemma ref_insert_None d l :
  ref_insert d l = None <-> exists d', d' ∈ l /\ conflicts d d' = true.
Proof.
  unfold ref_insert. destruct (existsb (conflicts d) l) eqn:E.
  - split; [|done]. intros _. apply existsb_exists in E as (d' & Hin & Hc).
    exists d'. by rewrite list_elem_of_In.
  - split; [done|]. intros (d' & Hin & Hc).
    assert (existsb (conflicts d) l = true); [|congruence].
    apply existsb_exists. exists d'. by rewrite <- list_elem_of_In.
Qed.

Lemma ref_update_Some p f seen l l' d :
  js_find p l = Some d -> ref_update p f seen l = Some l' ->
  exists l1 l2, l = l1 ++ d :: l2 /\ l' = seen ++ l1 ++ f d :: l2 /\
    (forall x, x ∈ l1 -> p x = false) /\ p d = true /\
    (forall x, x ∈ seen ++ l1 ++ l2 -> conflicts (f d) x = false).
Proof.
  revert seen. induction l as [|y l IH]; intros seen; cbn; [done|].
  destruct (p y) eqn:Ep.
  - intros [= ->]. destruct (existsb _ _) eqn:Ex; [done|]. intros [= <-].
    exists [], l. split_and!; try done; [by intros x ?%elem_of_nil|].
    intros x Hx. destruct (conflicts (f d) x) eqn:Ec; [|done].
    assert (existsb (conflicts (f d)) (seen ++ l) = true); [|congruence].
    apply existsb_exists. exists x. by rewrite <- list_elem_of_In.
  - intros Hf Hu. destruct (IH _ Hf Hu) as (l1 & l2 & -> & -> & H1 & H2 & H3).
    exists (y :: l1), l2. split_and!; try done.
    + by rewrite <- app_assoc.
    + intros x [->|?]%elem_of_cons; auto.
    + intros x Hx. apply H3. revert Hx. cbn. rewrite !elem_of_app, !elem_of_cons, elem_of_app.
      set_solver.
Qed.

Lemma ref_update_unmatched p f seen l :
  js_find p l = None -> ref_update p f seen l = Some (seen ++ l).
Proof.
  revert seen. induction l as [|y l IH]; intros seen; cbn; [by rewrite app_nil_r|].
  destruct (p y); [done|]. intros Hf. rewrite IH by done. by rewrite <- app_assoc.
Qed.

Lemma ref_update_find_other p f q l l' :
  ref_update p f [] l = Some l' -> (forall x, p x = true -> q x = false /\ q (f x) = false) ->
  js_find q l' = js_find q l.
Proof.
  intros E Hq. destruct (js_find p l) as [d|] eqn:Hf.
  - destruct (ref_update_Some _ _ _ _ _ _ Hf E) as (l1 & l2 & -> & -> & _ & Hp & _).
    destruct (Hq d Hp) as [H1 H2]. cbn [app]. rewrite !js_find_app. cbn. by rewrite H1, H2.
  - rewrite ref_update_unmatched in E by done. by injection E as <-.
Qed.

Lemma ref_update_None p f seen l :
  ref_update p f seen l = None ->
  exists d l1 l2, l = l1 ++ d :: l2 /\ js_find p l = Some d /\
    exists x, x ∈ seen ++ l1 ++ l2 /\ conflicts (f d) x = true.
Proof.
  revert seen. induction l as [|y l IH]; intros seen; cbn; [done|].
  destruct (p y) eqn:Ep.
  - destruct (existsb _ _) eqn:Ex; [|done]. intros _. exists y, [], l. split_and!; try done.
    apply existsb_exists in Ex as (x & Hx & Hc). exists x. by rewrite list_elem_of_In.
  - intros Hu. destruct (IH _ Hu) as (d & l1 & l2 & -> & Hf & x & Hx & Hc).
    exists d, (y :: l1), l2. split_and!; try done. exists x. split; [|done].
    revert Hx. cbn. rewrite !elem_of_app, !elem_of_cons, elem_of_app. set_solver.
Qed.

(** *** Unique indexes *)

Lemma index_ok_app l1 l2 :
  index_ok (l1 ++ l2) <->
  index_ok l1 /\ index_ok l2 /\ forall x y, x ∈ l1 -> y ∈ l2 -> conflicts x y = false.
Proof.
  induction l1 as [|z l1 IH]; cbn.
  - split; [|tauto]. intros Hl. split_and!; [done|done|]. by intros x y ?%elem_of_nil.
  - rewrite IH. split.
    + intros (Hz & H1 & H2 & H12). split_and!; try done.
      * intros d' Hd. apply Hz, elem_of_app. by left.
      * intros x y [->|Hx]%elem_of_cons Hy; [|by apply H12].
        apply Hz, elem_of_app. by right.
    + intros ((Hz & H1) & H2 & H12). split_and!; try done.
      * intros d' [Hd|Hd]%elem_of_app; [by apply Hz|]. apply H12; [left|done].
      * intros x y Hx Hy. apply H12; [by right|done].
Qed.

Lemma index_ok_insert d l l' : index_ok l -> ref_insert d l = Some l' -> index_ok l'.
Proof.
  rewrite ref_insert_Some. intros Hl [-> Hd]. apply index_ok_app. split_and!; [done| |].
  - cbn. split; [|done]. by intros d' ?%elem_of_nil.
  - intros x y Hx ->%list_elem_of_singleton. rewrite conflicts_sym. by apply Hd.
Qed.

Lemma index_ok_update p f l l' : index_ok l -> ref_update p f [] l = Some l' -> index_ok l'.
Proof.
  intros Hl Hu. destruct (js_find p l) as [d|] eqn:Hf.
  - destruct (ref_update_Some _ _ _ _ _ _ Hf Hu) as (l1 & l2 & -> & -> & _ & _ & Hc).
    rewrite app_nil_l. rewrite app_nil_l in Hc. apply index_ok_app in Hl as (H1 & [_ H2] & H12). apply index_ok_app. split_and!; [done| |].
    + cbn. split; [|done]. intros d' Hd. apply Hc, elem_of_app. by right.
    + intros x y Hx [->|Hy]%elem_of_cons.
      * rewrite conflicts_sym. apply Hc, elem_of_app. by left.
      * apply H12; [done|by right].
  - rewrite ref_update_unmatched in Hu by done. by injection Hu as <-.
Qed.

Lemma index_ok_upsert p f d l l' : index_ok l -> ref_upsert p f d l = Some l' -> index_ok l'.
Proof.
  unfold ref_upsert. destruct (js_find p l); [apply index_ok_update|apply index_ok_insert].
Qed.

Lemma index_ok_sublist l l' : sublist l' l -> index_ok l -> index_ok l'.
Proof.
  induction 1 as [|x l' l Hs IH|x l' l Hs IH]; cbn; [done| |]; intros [Hx Hl]; [|auto].
  split; [|auto]. intros d' Hd. apply Hx. by eapply elem_of_sublist.
Qed.

Lemma filter_sublist_std (q : D -> bool) l : sublist (List.filter q l) l.
Proof. induction l as [|x l IH]; cbn; [done|]. destruct (q x); by constructor. Qed.

(** The members of a collection with unique indexes are determined by
    any predicate whose matches clash with each other. *)
Lemma index_ok_unique l x y :
  index_ok l -> x ∈ l -> y ∈ l -> conflicts x y = true -> x = y.
Proof.
  intros Hl (l1 & l2 & ->)%list_elem_of_split Hy Hc.
  apply index_ok_app in Hl as (_ & [Hx _] & H12).
  apply elem_of_app in Hy as [Hy|[->|Hy]%elem_of_cons]; [|done|].
  - specialize (H12 y x Hy ltac:(left)). rewrite conflicts_sym in H12. congruence.
  - specialize (Hx y Hy). congruence.
Qed.

(** What an upsert by a key [p] of the new document does to the list. *)
Lemma ref_upsert_shape p d l l' :
  ref_upsert p (fun _ => d) d l = Some l' ->
  exists l1 old l2, l = l1 ++ old ++ l2 /\ l' = l1 ++ d :: l2 /\
    (forall x, x ∈ l1 -> p x = false) /\ (forall x, x ∈ old -> p x = true) /\
    (forall x, x ∈ l1 ++ l2 -> conflicts d x = false).
Proof.
  unfold ref_upsert. destruct (js_find p l) as [o|] eqn:Hf.
  - intros Hu. destruct (ref_update_Some _ _ _ _ _ _ Hf Hu) as (l1 & l2 & -> & -> & ? & ? & ?).
    exists l1, [o], l2. split_and!; try done. by intros x ->%list_elem_of_singleton.
  - rewrite ref_insert_Some. intros [-> Hd]. exists l, [], [].
    rewrite !app_nil_r. split_and!; try done; [|by intros x ?%elem_of_nil].
    by apply js_find_None.
Qed.

Lemma ref_upsert_find_old p q d l l' :
  ref_upsert p (fun _ => d) d l = Some l' ->
  (forall x, x ∈ l -> p x = true -> q x = false) -> q d = false ->
  js_find q l' = js_find q l.
Proof.
  intros Hu Hpq Hd. destruct (ref_upsert_shape _ _ _ _ Hu) as (l1 & old & l2 & -> & -> & _ & Ho & _).
  rewrite !js_find_app. cbn. rewrite Hd.
  assert (js_find q old = None) as ->; [|done]. apply js_find_None.
  intros x Hx. apply Hpq; [|by apply Ho]. rewrite !elem_of_app. tauto.
Qed.

Lemma ref_upsert_find p q d l l' :
  ref_upsert p (fun _ => d) d l = Some l' ->
  (forall x, p x = true -> q x = false) -> q d = false -> js_find q l' = js_find q l.
Proof. intros Hu Hpq. eapply ref_upsert_find_old; [done|auto]. Qed.

Lemma ref_upsert_find_new p q d l l' :
  ref_upsert p (fun _ => d) d l = Some l' ->
  (forall x, q x = true -> conflicts d x = true) -> q d = true -> js_find q l' = Some d.
Proof.
  intros Hu Hq Hd.
  destruct (ref_upsert_shape _ _ _ _ Hu) as (l1 & old & l2 & -> & -> & _ & _ & Hc).
  rewrite js_find_app. assert (js_find q l1 = None) as ->; [|cbn; by rewrite Hd].
  apply js_find_None. intros x Hx. destruct (q x) eqn:Eq; [|done].
  apply Hq in Eq. rewrite Hc in Eq; [done|]. apply elem_of_app. by left.
Qed.

(** A failed upsert by key: some document clashes with the new one.  When
    matching the key means clashing, it is one the key does not match. *)
Lemma ref_upsert_clash p d l :
  index_ok l -> (forall x y, p x = true -> p y = true -> conflicts x y = true) ->
  ref_upsert p (fun _ => d) d l = None ->
  exists x, x ∈ l /\ conflicts d x = true /\ p x = false.
Proof.
  intros Hok Hp. unfold ref_upsert. destruct (js_find p l) as [o|] eqn:Hf.
  - intros (o' & l1 & l2 & -> & Hf' & x & Hx & Hc)%ref_update_None.
    rewrite app_nil_l in Hx. apply js_find_Some in Hf' as [_ Ho].
    exists x. split_and!; [|done|].
    + revert Hx. rewrite !elem_of_app, elem_of_cons. tauto.
    + apply not_true_iff_false. intros Hpx. specialize (Hp _ _ Ho Hpx).
      apply index_ok_app in Hok as (_ & [H2 _] & H12).
      apply elem_of_app in Hx as [Hx|Hx]; [|by rewrite H2 in Hp].
      rewrite conflicts_sym, H12 in Hp; [done|done|left].
  - rewrite ref_insert_None. rewrite js_find_None in Hf. intros (x & Hx & Hc). eauto.
Qed.
End ReferenceLemmas.

(** ** The same facts on an abstract collection *)
Section CollectionLemmas.
Context {Coll : Type -> Type} `{HL : MongoLaws Coll} {D : Type} {HD : Document D}.
Implicit Types (d : D) (c : Coll D) (p : D -> bool).

Lemma insertOne_Some d c c' : insertOne d c = Some c' -> ref_insert d (scan c) = Some (scan c').
Proof. intros E. rewrite <- insertOne_scan, E. done. Qed.

Lemma insertOne_None d c : insertOne d c = None -> ref_insert d (scan c) = None.
Proof. intros E. rewrite <- insertOne_scan, E. done. Qed.

Lemma updateOne_Some p f c c' :
  updateOne p f c = Some c' -> ref_update p f [] (scan c) = Some (scan c').
Proof. intros E. rewrite <- updateOne_scan, E. done. Qed.

Lemma upsertOne_Some p f d c c' :
  upsertOne p f d c = Some c' -> ref_upsert p f d (scan c) = Some (scan c').
Proof. intros E. rewrite <- upsertOne_scan, E. done. Qed.

Lemma upsertOne_None p f d c : upsertOne p f d c = None -> ref_upsert p f d (scan c) = None.
Proof. intros E. rewrite <- upsertOne_scan, E. done. Qed.

Lemma insertOne_ok d c c' : index_ok (scan c) -> insertOne d c = Some c' -> index_ok (scan c').
Proof. intros Hc E%insertOne_Some. by eapply index_ok_insert. Qed.

Lemma updateOne_ok p f c c' :
  index_ok (scan c) -> updateOne p f c = Some c' -> index_ok (scan c').
Proof. intros Hc E%updateOne_Some. by eapply index_ok_update. Qed.

Lemma upsertOne_ok p f d c c' :
  index_ok (scan c) -> upsertOne p f d c = Some c' -> index_ok (scan c').
Proof. intros Hc E%upsertOne_Some. by eapply index_ok_upsert. Qed.

Lemma deleteOne_ok p c : index_ok (scan c) -> index_ok (scan (deleteOne p c)).
Proof. rewrite deleteOne_scan. apply index_ok_sublist, remove_first_sublist. Qed.

Lemma deleteMany_ok p c : index_ok (scan c) -> index_ok (scan (deleteMany p c)).
Proof. rewrite deleteMany_scan. apply index_ok_sublist, filter_sublist_std. Qed.

(** An upsert by key: the written document is found by every key that is
    unique, and lookups by keys it does not touch are unchanged. *)
Lemma upsertOne_find p q d c c' :
  upsertOne p (fun _ => d) d c = Some c' ->
  (forall x, p x = true -> q x = false) -> q d = false -> findOne q c' = findOne q c.
Proof. intros E%upsertOne_Some. rewrite !findOne_scan. by apply ref_upsert_find. Qed.

Lemma upsertOne_find_new p q d c c' :
  upsertOne p (fun _ => d) d c = Some c' ->
  (forall x, q x = true -> conflicts d x = true) -> q d = true -> findOne q c' = Some d.
Proof. intros E%upsertOne_Some. rewrite findOne_scan. by eapply ref_upsert_find_new. Qed.

(** After an update or upsert by a predicate the written document is the
    one the predicate finds. *)
Lemma updateOne_find_self p f d c c' :
  updateOne p f c = Some c' -> findOne p c = Some d -> p (f d) = true -> findOne p c' = Some (f d).
Proof.
  intros E%updateOne_Some. rewrite !findOne_scan. intros Hf Hp.
  destruct (ref_update_Some _ _ _ _ _ _ Hf E) as (l1 & l2 & _ & -> & H1 & _ & _).
  rewrite app_nil_l, js_find_app. assert (js_find p l1 = None) as -> by by apply js_find_None.
  cbn. by rewrite Hp.
Qed.

(** A lookup that neither the rewritten documents nor their rewrites match. *)
Lemma updateOne_find_other p f (q : D -> bool) c c' :
  updateOne p f c = Some c' -> (forall x, p x = true -> q x = false /\ q (f x) = false) ->
  findOne q c' = findOne q c.
Proof. intros E%updateOne_Some. rewrite !findOne_scan. by apply ref_update_find_other. Qed.

Lemma upsertOne_find_other p f (q : D -> bool) d c c' :
  upsertOne p f d c = Some c' -> (forall x, p x = true -> q x = false /\ q (f x) = false) -> q d = false ->
  findOne q c' = findOne q c.
Proof.
  intros E%upsertOne_Some Hq Hd. rewrite !findOne_scan. unfold ref_upsert in E.
  destruct (js_find p (scan c)); [by eapply ref_update_find_other|].
  apply ref_insert_Some in E as [-> _]. rewrite js_find_app. destruct (js_find q (scan c)); [done|].
  cbn. by rewrite Hd.
Qed.

(** A rewrite of the found document that keeps what the unique indexes are
    about does not fail, and changes only this document. *)
Lemma updateOne_rewrites p f d c :
  (forall x, conflicts (f d) x = conflicts d x) -> index_ok (scan c) -> findOne p c = Some d ->
  exists c' l1 l2, updateOne p f c = Some c' /\ scan c = l1 ++ d :: l2 /\ scan c' = l1 ++ f d :: l2 /\
    (forall x, x ∈ l1 -> p x = false).
Proof.
  intros Hk Hok Hf. rewrite findOne_scan in Hf. destruct (updateOne p f c) as [c'|] eqn:E.
  - apply updateOne_Some in E. destruct (ref_update_Some _ _ _ _ _ _ Hf E) as (l1 & l2 & H1 & H2 & H3 & _ & _).
    by exists c', l1, l2.
  - exfalso. pose proof (updateOne_scan _ p f c) as Hu. rewrite E in Hu. cbn in Hu.
    symmetry in Hu. apply ref_update_None in Hu as (d' & l1 & l2 & Hl & Hd' & x & Hx & Hc).
    rewrite Hf in Hd'. injection Hd' as <-. rewrite app_nil_l in Hx. rewrite Hl in Hok.
    apply index_ok_app in Hok as (_ & [Hd2 _] & Hx12). rewrite Hk in Hc.
    apply elem_of_app in Hx as [Hx|Hx]; [|rewrite Hd2 in Hc; done].
    rewrite conflicts_sym, Hx12 in Hc; [done|done|by left].
Qed.

(** What other predicates find. *)
Lemma findOne_rewritten (q : D -> bool) (d d' : D) l1 l2 (c c' : Coll D) :
  scan c = l1 ++ d :: l2 -> scan c' = l1 ++ d' :: l2 -> q d = false -> q d' = false ->
  findOne q c' = findOne q c.
Proof.
  intros E E' Hd Hd'. rewrite !findOne_scan, E, E', !js_find_app. destruct (js_find q l1); [done|].
  cbn. by rewrite Hd, Hd'.
Qed.

(** An upsert by a key succeeds when the fresh document clashes with none. *)
Lemma upsertOne_succeeds p f fresh c :
  index_ok (scan c) -> (forall d x, p d = true -> conflicts (f d) x = conflicts d x) ->
  (findOne p c = None -> forall x, x ∈ scan c -> conflicts fresh x = false) ->
  exists c', upsertOne p f fresh c = Some c'.
Proof.
  intros Hok Hf Hfresh. destruct (upsertOne p f fresh c) as [c'|] eqn:E; [by exists c'|]. exfalso.
  pose proof (upsertOne_scan D p f fresh c) as Hu. rewrite E in Hu. cbn in Hu. unfold ref_upsert in Hu.
  rewrite findOne_scan in Hfresh. destruct (js_find p (scan c)) as [d|] eqn:Ed.
  - destruct (updateOne_rewrites p f d c) as (c' & _ & _ & E' & _).
    { intros x. apply Hf. by apply js_find_Some in Ed as [_ ?]. }
    { done. } { by rewrite findOne_scan. }
    apply updateOne_Some in E'. congruence.
  - symmetry in Hu. apply ref_insert_None in Hu as (x & Hx & Hc). rewrite Hfresh in Hc; done.
Qed.

Lemma upsertOne_find_self p f d c c' :
  upsertOne p f d c = Some c' -> (forall x, p x = true -> p (f x) = true) -> p d = true ->
  findOne p c' = Some (match findOne p c with Some x => f x | None => d end).
Proof.
  intros E%upsertOne_Some Hf Hd. rewrite !findOne_scan. unfold ref_upsert in E.
  destruct (js_find p (scan c)) as [x|] eqn:Ex.
  - destruct (ref_update_Some _ _ _ _ _ _ Ex E) as (l1 & l2 & _ & -> & H1 & H2 & _).
    rewrite app_nil_l, js_find_app. assert (js_find p l1 = None) as -> by by apply js_find_None.
    cbn. by rewrite Hf.
  - apply ref_insert_Some in E as [-> _]. rewrite js_find_app, Ex. cbn. by rewrite Hd.
Qed.
End CollectionLemmas.

#[export] Hint Resolve insertOne_ok updateOne_ok upsertOne_ok deleteOne_ok deleteMany_ok : js.

(** Collections are used in the state monad through these two liftings: a
    [None] from the driver is the rejection with code 11000. *)
Definition dup_key_or {S A} (o : option A) (k : A -> M S unit) : M S unit :=
  match o with Some a => k a | None => throw MongoDuplicateKey end.
