(* ===== verification/Store.v ===== *)
(** * The state store (src/state/)

    The collections of [Store] that the sync core reads and writes - id map,
    cursors, dedup, inflight and bindings - with the unique indexes that
    [createIndexes] sets up and one definition per exported function.  The
    functions run in [M (Store Coll)] over an abstract collection type. *)

From S2P Require Import Prelude JsMap JsVal Platform Conflict Mongo.

(** ** Documents *)

Inductive GitlabKind :=
  | KIssue | KNote | KUser | KLabel | KMilestone | KProject | KMergeRequest | KPipeline
  | KReviewThread | KEpic | KIteration | KApprovalRule.

#[export] Instance GitlabKind_eq_dec : EqDecision GitlabKind.
Proof. solve_decision. Defined.

Record IdMapDoc := MkIdMapDoc {
  im_workspaceUuid : string;
  im_gitlabKind : GitlabKind;
  im_gitlabId : string;
  im_hulyClass : string;
  im_hulyRef : string
}.

#[export] Instance IdMapDoc_eq_dec : EqDecision IdMapDoc.
Proof. solve_decision. Defined.

Inductive CursorKind :=
  | CIssues | CNotes | CMergeRequests | CPipelines | CReviews | CEpics | CIterations.

#[export] Instance CursorKind_eq_dec : EqDecision CursorKind.
Proof. solve_decision. Defined.

Record CursorDoc := MkCursorDoc {
  cu_bindingId : string;
  cu_kind : CursorKind;
  cu_updatedAfter : jsdate
}.

#[export] Instance CursorDoc_eq_dec : EqDecision CursorDoc.
Proof. solve_decision. Defined.

Record DedupDoc := MkDedupDoc {
  dd_bindingId : string;
  dd_eventId : string;
  dd_version : string;
  dd_createdAt : Z
}.

Record InflightDoc := MkInflightDoc {
  if_id : string;
  if_bindingId : string;
  if_op : string;
  if_payload : record;
  if_startedAt : Z
}.

Record BindingDoc := MkBindingDoc {
  bd_id : string;
  bd_workspaceUuid : string;
  bd_hulyProjectRef : string;
  bd_gitlabProjectId : Z;
  bd_gitlabProjectPath : string;
  bd_credentialRef : string;
  bd_webhookSecretRef : string;
  bd_webhookId : option Z;
  bd_webhookRegistered : bool;
  bd_createdAt : Z;
  bd_disabled : bool
}.

(** ** Unique indexes ([createIndexes]) *)

Definition same_gitlab (d d' : IdMapDoc) : bool :=
  bool_decide (im_workspaceUuid d = im_workspaceUuid d') &&
  bool_decide (im_gitlabKind d = im_gitlabKind d') &&
  bool_decide (im_gitlabId d = im_gitlabId d').

Definition same_huly (d d' : IdMapDoc) : bool :=
  bool_decide (im_workspaceUuid d = im_workspaceUuid d') &&
  bool_decide (im_hulyClass d = im_hulyClass d') &&
  bool_decide (im_hulyRef d = im_hulyRef d').

Definition same_cursor (d d' : CursorDoc) : bool :=
  bool_decide (cu_bindingId d = cu_bindingId d') && bool_decide (cu_kind d = cu_kind d').

Definition same_event (d d' : DedupDoc) : bool :=
  bool_decide (dd_bindingId d = dd_bindingId d') &&
  bool_decide (dd_eventId d = dd_eventId d') && bool_decide (dd_version d = dd_version d').

Definition same_binding (d d' : BindingDoc) : bool :=
  bool_decide (bd_id d = bd_id d') ||
  bool_decide (bd_workspaceUuid d = bd_workspaceUuid d') &&
  bool_decide (bd_gitlabProjectId d = bd_gitlabProjectId d').

#[export] Instance IdMapDoc_document : Document IdMapDoc.
Proof.
  refine {| conflicts := fun d d' => same_gitlab d d' || same_huly d d' |}.
  intros d d'. unfold same_gitlab, same_huly.
  apply eq_true_iff_eq. rewrite ?orb_true_iff, ?andb_true_iff, ?bool_decide_eq_true.
  intuition congruence.
Defined.

#[export] Instance CursorDoc_document : Document CursorDoc.
Proof.
  refine {| conflicts := same_cursor |}. intros d d'. unfold same_cursor.
  apply eq_true_iff_eq. rewrite ?orb_true_iff, ?andb_true_iff, ?bool_decide_eq_true.
  intuition congruence.
Defined.

#[export] Instance DedupDoc_document : Document DedupDoc.
Proof.
  refine {| conflicts := same_event |}. intros d d'. unfold same_event.
  apply eq_true_iff_eq. rewrite ?orb_true_iff, ?andb_true_iff, ?bool_decide_eq_true.
  intuition congruence.
Defined.

(** [_id] is the only unique key of an inflight document. *)
#[export] Instance InflightDoc_document : Document InflightDoc.
Proof.
  refine {| conflicts := fun d d' => bool_decide (if_id d = if_id d') |}.
  intros d d'. apply bool_decide_ext. split; congruence.
Defined.

#[export] Instance BindingDoc_document : Document BindingDoc.
Proof.
  refine {| conflicts := same_binding |}. intros d d'. unfold same_binding.
  apply eq_true_iff_eq. rewrite ?orb_true_iff, ?andb_true_iff, ?bool_decide_eq_true.
  intuition congruence.
Defined.

(** ** The store *)

Record Store (Coll : Type -> Type) := MkStore {
  bindings : Coll BindingDoc;
  cursors : Coll CursorDoc;
  idmap : Coll IdMapDoc;
  dedup : Coll DedupDoc;
  inflight : Coll InflightDoc
}.
Arguments MkStore {Coll} bindings cursors idmap dedup inflight.
Arguments bindings {Coll} s.
Arguments cursors {Coll} s.
Arguments idmap {Coll} s.
Arguments dedup {Coll} s.
Arguments inflight {Coll} s.

Definition set_bindings {Coll : Type -> Type} (c : Coll BindingDoc) (s : Store Coll) : Store Coll :=
  MkStore c (cursors s) (idmap s) (dedup s) (inflight s).
Definition set_cursors {Coll : Type -> Type} (c : Coll CursorDoc) (s : Store Coll) : Store Coll :=
  MkStore (bindings s) c (idmap s) (dedup s) (inflight s).
Definition set_idmap {Coll : Type -> Type} (c : Coll IdMapDoc) (s : Store Coll) : Store Coll :=
  MkStore (bindings s) (cursors s) c (dedup s) (inflight s).
Definition set_dedup {Coll : Type -> Type} (c : Coll DedupDoc) (s : Store Coll) : Store Coll :=
  MkStore (bindings s) (cursors s) (idmap s) c (inflight s).
Definition set_inflight {Coll : Type -> Type} (c : Coll InflightDoc) (s : Store Coll) : Store Coll :=
  MkStore (bindings s) (cursors s) (idmap s) (dedup s) c.

Section Operations.
Context {Coll : Type -> Type} `{Mongo Coll} {P : Platform}.
Abbreviation MS := (M (Store Coll)).

(** *** src/state/idmap.ts *)

Definition by_gitlab (workspaceUuid : string) (gitlabKind : GitlabKind) (gitlabId : string)
    (d : IdMapDoc) : bool :=
  bool_decide (im_workspaceUuid d = workspaceUuid) &&
  bool_decide (im_gitlabKind d = gitlabKind) && bool_decide (im_gitlabId d = gitlabId).

Definition by_huly (workspaceUuid hulyClass hulyRef : string) (d : IdMapDoc) : bool :=
  bool_decide (im_workspaceUuid d = workspaceUuid) &&
  bool_decide (im_hulyClass d = hulyClass) && bool_decide (im_hulyRef d = hulyRef).

Definition upsertIdMap (workspaceUuid : string) (gitlabKind : GitlabKind)
    (gitlabId hulyClass hulyRef : string) : MS unit := fun s =>
  let doc := MkIdMapDoc workspaceUuid gitlabKind gitlabId hulyClass hulyRef in
  dup_key_or (upsertOne (by_gitlab workspaceUuid gitlabKind gitlabId)
                (fun _ => doc) doc (idmap s))
    (fun c => modify (set_idmap c)) s.

Definition findByGitlab (workspaceUuid : string) (gitlabKind : GitlabKind) (gitlabId : string)
    : MS (option IdMapDoc) :=
  gets (fun s => findOne (by_gitlab workspaceUuid gitlabKind gitlabId) (idmap s)).

Definition findByHuly (workspaceUuid hulyClass hulyRef : string) : MS (option IdMapDoc) :=
  gets (fun s => findOne (by_huly workspaceUuid hulyClass hulyRef) (idmap s)).

Definition deleteIdMapByBinding (workspaceUuid : string) : MS unit :=
  modify (fun s => set_idmap
    (deleteMany (fun d => bool_decide (im_workspaceUuid d = workspaceUuid)) (idmap s)) s).

(** *** src/state/cursors.ts *)

Definition by_cursor (bindingId : string) (kind : CursorKind) (d : CursorDoc) : bool :=
  bool_decide (cu_bindingId d = bindingId) && bool_decide (cu_kind d = kind).

Definition getCursor (bindingId : string) (kind : CursorKind) : MS (option jsdate) :=
  gets (fun s => option_map cu_updatedAfter (findOne (by_cursor bindingId kind) (cursors s))).

Definition setCursor (bindingId : string) (kind : CursorKind) (updatedAfter : jsdate)
    : MS unit := fun s =>
  let doc := MkCursorDoc bindingId kind updatedAfter in
  dup_key_or (upsertOne (by_cursor bindingId kind) (fun _ => doc) doc (cursors s))
    (fun c => modify (set_cursors c)) s.

Definition deleteCursors (bindingId : string) : MS unit :=
  modify (fun s => set_cursors
    (deleteMany (fun d => bool_decide (cu_bindingId d = bindingId)) (cursors s)) s).

(** *** src/state/dedup.ts

    [checkAndMarkSeen] awaits twice; each await is one function so that
    concurrent deliveries can be interleaved between them. *)

Definition by_event (bindingId eventId version : string) (d : DedupDoc) : bool :=
  bool_decide (dd_bindingId d = bindingId) && bool_decide (dd_eventId d = eventId) &&
  bool_decide (dd_version d = version).

Definition checkSeen (bindingId eventId version : string) : MS bool :=
  gets (fun s => match findOne (by_event bindingId eventId version) (dedup s) with
                 | Some _ => true
                 | None => false
                 end).

(** The insertion; a duplicate key means another process raced and won. *)
Definition markSeen (now : Z) (bindingId eventId version : string) : MS bool :=
  try_catch
    (fun s => (dup_key_or (insertOne (MkDedupDoc bindingId eventId version now) (dedup s))
                 (fun c => modify (set_dedup c)) ;;! ret false) s)
    (fun e => match e with MongoDuplicateKey => ret true | _ => throw e end).

Definition checkAndMarkSeen (now : Z) (bindingId eventId version : string) : MS bool :=
  let! existing := checkSeen bindingId eventId version in
  if (existing : bool) then ret true else markSeen now bindingId eventId version.

(** *** src/state/inflight.ts; [id] and [now] are the fresh ObjectId and
    the clock. *)

Definition createInflight (id : string) (now : Z) (bindingId op : string) (payload : record)
    : MS string := fun s =>
  (dup_key_or (insertOne (MkInflightDoc id bindingId op payload now) (inflight s))
     (fun c => modify (set_inflight c)) ;;! ret id) s.

(** [{ _id: new ObjectId(id) }] as a query: throws on a malformed id. *)
Definition with_object_id {A} (id : string) (k : string -> MS A) : MS A :=
  match newObjectId id with
  | Some oid => k oid
  | None => throw (JsError "BSONError")
  end.

Definition deleteInflight (id : string) : MS unit :=
  with_object_id id (fun oid => modify (fun s => set_inflight
    (deleteOne (fun d => bool_decide (if_id d = oid)) (inflight s)) s)).

Definition listInflight (bindingId : option string) : MS (list InflightDoc) :=
  gets (fun s => find_docs
    (fun d => match bindingId with
              | Some b => bool_decide (if_bindingId d = b)
              | None => true
              end) (inflight s)).

(** *** The TTL indexes of [createIndexes] (src/state/store.ts)

    What MongoDB's monitor removes when it runs at [now]. *)
Definition DEDUP_TTL_MS : Z := 7 * 24 * 60 * 60 * 1000.
Definition INFLIGHT_TTL_MS : Z := 60 * 60 * 1000.

Definition expire_documents (now : Z) (s : Store Coll) : Store Coll :=
  set_inflight (deleteMany (fun d => if_startedAt d + INFLIGHT_TTL_MS <? now)%Z (inflight s))
    (set_dedup (deleteMany (fun d => dd_createdAt d + DEDUP_TTL_MS <? now)%Z (dedup s)) s).

(** *** src/state/bindings.ts *)

Definition getBinding (id : string) : MS (option BindingDoc) :=
  with_object_id id (fun oid =>
    gets (fun s => findOne (fun d => bool_decide (bd_id d = oid)) (bindings s))).

Record BindingView := MkBindingView {
  bv_id : string;
  bv_workspaceUuid : string;
  bv_hulyProjectRef : string;
  bv_gitlabProjectId : Z;
  bv_gitlabProjectPath : string;
  bv_credentialRef : string;
  bv_webhookId : option Z;
  bv_webhookRegistered : bool;
  bv_createdAt : Z;
  bv_disabled : bool
}.

Definition toView (doc : BindingDoc) : BindingView :=
  MkBindingView (bd_id doc) (bd_workspaceUuid doc) (bd_hulyProjectRef doc)
    (bd_gitlabProjectId doc) (bd_gitlabProjectPath doc) (bd_credentialRef doc)
    (bd_webhookId doc) (bd_webhookRegistered doc) (bd_createdAt doc) (bd_disabled doc).

Record CreateBindingInput := MkCreateBindingInput {
  cb_workspaceUuid : string;
  cb_hulyProjectRef : string;
  cb_gitlabProjectId : Z;
  cb_gitlabProjectPath : string;
  cb_credentialRef : string;
  cb_webhookSecretRef : string
}.

Definition createBinding (id : string) (now : Z) (input : CreateBindingInput)
    : MS BindingView := fun s =>
  let doc := MkBindingDoc id (cb_workspaceUuid input) (cb_hulyProjectRef input)
               (cb_gitlabProjectId input) (cb_gitlabProjectPath input)
               (cb_credentialRef input) (cb_webhookSecretRef input) None false now false in
  (dup_key_or (insertOne doc (bindings s)) (fun c => modify (set_bindings c)) ;;!
   ret (toView doc)) s.

Definition listBindings (workspaceUuid : option string) : MS (list BindingView) :=
  gets (fun s => map toView (find_docs
    (fun d => match workspaceUuid with
              | Some w => bool_decide (bd_workspaceUuid d = w)
              | None => true
              end) (bindings s))).

(** The [$set] document of [updateBinding]; [None] leaves a field alone. *)
Record BindingUpdate := MkBindingUpdate {
  bu_webhookId : option Z;
  bu_webhookRegistered : option bool;
  bu_disabled : option bool;
  bu_webhookSecretRef : option string
}.

Definition apply_binding_update (u : BindingUpdate) (d : BindingDoc) : BindingDoc :=
  MkBindingDoc (bd_id d) (bd_workspaceUuid d) (bd_hulyProjectRef d) (bd_gitlabProjectId d)
    (bd_gitlabProjectPath d) (bd_credentialRef d)
    (default (bd_webhookSecretRef d) (bu_webhookSecretRef u))
    (match bu_webhookId u with Some i => Some i | None => bd_webhookId d end)
    (default (bd_webhookRegistered d) (bu_webhookRegistered u))
    (bd_createdAt d) (default (bd_disabled d) (bu_disabled u)).

Definition updateBinding (id : string) (update : BindingUpdate) : MS unit :=
  with_object_id id (fun oid s =>
    dup_key_or (updateOne (fun d => bool_decide (bd_id d = oid))
                  (apply_binding_update update) (bindings s))
      (fun c => modify (set_bindings c)) s).

Definition deleteBinding (id : string) : MS unit :=
  with_object_id id (fun oid => modify (fun s => set_bindings
    (deleteOne (fun d => bool_decide (bd_id d = oid)) (bindings s)) s)).
End Operations.

(** ** Lemmas and theorems *)

Section StoreLaws.
Context {Coll : Type -> Type} `{HL : MongoLaws Coll} {P : Platform}.
Implicit Types s : Store Coll.

(** Every collection respects its unique indexes. *)
Record store_ok s : Prop := {
  ok_bindings : index_ok (scan (bindings s));
  ok_cursors : index_ok (scan (cursors s));
  ok_idmap : index_ok (scan (idmap s));
  ok_dedup : index_ok (scan (dedup s));
  ok_inflight : index_ok (scan (inflight s))
}.

Ltac store_op :=
  intros s [];
  unfold with_object_id, dup_key_or, modify, gets, try_catch, throw, bind, ret; cbn;
  repeat (destruct_match; cbn in *; simplify_eq); try done;
  split; cbn; eauto with js.

Lemma upsertIdMap_ok w k g c r : preserves store_ok (upsertIdMap w k g c r).
Proof. unfold upsertIdMap. store_op. Qed.
Lemma setCursor_ok b k t : preserves store_ok (setCursor b k t).
Proof. unfold setCursor. store_op. Qed.
Lemma markSeen_ok now b e v : preserves store_ok (markSeen now b e v).
Proof. unfold markSeen. store_op. Qed.
Lemma checkSeen_ok b e v : preserves store_ok (checkSeen b e v).
Proof. apply preserves_gets. Qed.
Lemma createInflight_ok i now b op p : preserves store_ok (createInflight i now b op p).
Proof. unfold createInflight. store_op. Qed.
Lemma deleteInflight_ok i : preserves store_ok (deleteInflight i).
Proof. unfold deleteInflight. store_op. Qed.
Lemma deleteIdMapByBinding_ok w : preserves store_ok (deleteIdMapByBinding w).
Proof. unfold deleteIdMapByBinding. store_op. Qed.
Lemma deleteCursors_ok b : preserves store_ok (deleteCursors b).
Proof. unfold deleteCursors. store_op. Qed.
Lemma createBinding_ok i now inp : preserves store_ok (createBinding i now inp).
Proof. unfold createBinding. store_op. Qed.
Lemma updateBinding_ok i u : preserves store_ok (updateBinding i u).
Proof. unfold updateBinding. store_op. Qed.
Lemma deleteBinding_ok i : preserves store_ok (deleteBinding i).
Proof. unfold deleteBinding. store_op. Qed.

(** *** Lookups by unique key *)

Lemma by_gitlab_spec w k g d :
  by_gitlab w k g d = true <->
  im_workspaceUuid d = w /\ im_gitlabKind d = k /\ im_gitlabId d = g.
Proof. unfold by_gitlab. rewrite !andb_true_iff, !bool_decide_eq_true. tauto. Qed.

Lemma by_huly_spec w c r d :
  by_huly w c r d = true <-> im_workspaceUuid d = w /\ im_hulyClass d = c /\ im_hulyRef d = r.
Proof. unfold by_huly. rewrite !andb_true_iff, !bool_decide_eq_true. tauto. Qed.

Lemma same_huly_by d d' :
  same_huly d d' = by_huly (im_workspaceUuid d) (im_hulyClass d) (im_hulyRef d) d'.
Proof.
  apply eq_true_iff_eq. rewrite by_huly_spec. unfold same_huly.
  rewrite !andb_true_iff, !bool_decide_eq_true. intuition congruence.
Qed.

Lemma same_gitlab_by d d' :
  same_gitlab d d' = by_gitlab (im_workspaceUuid d) (im_gitlabKind d) (im_gitlabId d) d'.
Proof.
  apply eq_true_iff_eq. rewrite by_gitlab_spec. unfold same_gitlab.
  rewrite !andb_true_iff, !bool_decide_eq_true. intuition congruence.
Qed.

(** Two id-map documents clash when they share a key of either side. *)
Lemma conflicts_by d d' :
  conflicts d d' =
  by_gitlab (im_workspaceUuid d) (im_gitlabKind d) (im_gitlabId d) d' ||
  by_huly (im_workspaceUuid d) (im_hulyClass d) (im_hulyRef d) d'.
Proof. rewrite <- same_gitlab_by, <- same_huly_by. done. Qed.

(** A document of a store with unique indexes is what a lookup by any of
    its unique keys returns. *)
Lemma findOne_unique (p : IdMapDoc -> bool) (c : Coll IdMapDoc) d :
  index_ok (scan c) -> d ∈ scan c -> p d = true ->
  (forall x, p x = true -> conflicts d x = true) -> findOne p c = Some d.
Proof.
  intros Hok Hd Hp Hc. rewrite findOne_scan. destruct (js_find p (scan c)) as [x|] eqn:E.
  - apply js_find_Some in E as [Hx Hpx]. f_equal. symmetry.
    eapply index_ok_unique; [done|done|done|]. by apply Hc.
  - rewrite js_find_None in E. specialize (E d Hd). congruence.
Qed.

Lemma find_huly_unique s d :
  store_ok s -> d ∈ scan (idmap s) ->
  findByHuly (im_workspaceUuid d) (im_hulyClass d) (im_hulyRef d) s = (Ok (Some d), s).
Proof.
  intros Hok Hd. unfold findByHuly, gets. do 2 f_equal. apply findOne_unique.
  - apply Hok.
  - done.
  - by apply by_huly_spec.
  - intros x Hx. by rewrite conflicts_by, Hx, orb_true_r.
Qed.

Lemma find_gitlab_unique s d :
  store_ok s -> d ∈ scan (idmap s) ->
  findByGitlab (im_workspaceUuid d) (im_gitlabKind d) (im_gitlabId d) s = (Ok (Some d), s).
Proof.
  intros Hok Hd. unfold findByGitlab, gets. do 2 f_equal. apply findOne_unique.
  - apply Hok.
  - done.
  - by apply by_gitlab_spec.
  - intros x Hx. by rewrite conflicts_by, Hx.
Qed.

(** *** Any sequence of store operations *)

Inductive StoreOp :=
  | OpUpsertIdMap (w : string) (k : GitlabKind) (g c r : string)
  | OpDeleteIdMap (w : string)
  | OpSetCursor (b : string) (k : CursorKind) (t : jsdate)
  | OpDeleteCursors (b : string)
  | OpMarkSeen (now : Z) (b e v : string)
  | OpCreateInflight (i : string) (now : Z) (b op : string) (payload : record)
  | OpDeleteInflight (i : string)
  | OpCreateBinding (i : string) (now : Z) (input : CreateBindingInput)
  | OpUpdateBinding (i : string) (u : BindingUpdate)
  | OpDeleteBinding (i : string).

(** The state after an operation, whether it returned or threw. *)
Definition store_step (op : StoreOp) s : Store Coll :=
  match op with
  | OpUpsertIdMap w k g c r => (upsertIdMap w k g c r s).2
  | OpDeleteIdMap w => (deleteIdMapByBinding w s).2
  | OpSetCursor b k t => (setCursor b k t s).2
  | OpDeleteCursors b => (deleteCursors b s).2
  | OpMarkSeen now b e v => (markSeen now b e v s).2
  | OpCreateInflight i now b op p => (createInflight i now b op p s).2
  | OpDeleteInflight i => (deleteInflight i s).2
  | OpCreateBinding i now input => (createBinding i now input s).2
  | OpUpdateBinding i u => (updateBinding i u s).2
  | OpDeleteBinding i => (deleteBinding i s).2
  end.

Definition store_run (ops : list StoreOp) s : Store Coll :=
  fold_left (fun s op => store_step op s) ops s.

Lemma store_step_ok op s : store_ok s -> store_ok (store_step op s).
Proof.
  intros Hs. destruct op; cbn [store_step].
  - by apply upsertIdMap_ok.
  - by apply deleteIdMapByBinding_ok.
  - by apply setCursor_ok.
  - by apply deleteCursors_ok.
  - by apply markSeen_ok.
  - by apply createInflight_ok.
  - by apply deleteInflight_ok.
  - by apply createBinding_ok.
  - by apply updateBinding_ok.
  - by apply deleteBinding_ok.
Qed.

Lemma store_run_ok ops s : store_ok s -> store_ok (store_run ops s).
Proof. revert s. induction ops as [|op ops IH]; cbn; auto using store_step_ok. Qed.

Lemma upsertIdMap_other_huly s w k g c r w' c' r' col :
  store_ok s ->
  upsertOne (by_gitlab w k g) (fun _ => MkIdMapDoc w k g c r) (MkIdMapDoc w k g c r) (idmap s) = Some col ->
  (w', c', r') <> (w, c, r) ->
  (forall o, findOne (by_gitlab w k g) (idmap s) = Some o ->
     (w', c', r') <> (w, im_hulyClass o, im_hulyRef o)) ->
  findOne (by_huly w' c' r') col = findOne (by_huly w' c' r') (idmap s).
Proof.
  intros Hs Hu Hne Hold. apply upsertOne_Some in Hu. rewrite !findOne_scan.
  eapply ref_upsert_find_old; [done| |].
  - intros x Hx Hg. apply not_true_iff_false. rewrite by_huly_spec.
    intros (<- & <- & <-). apply (Hold x).
    + by apply findOne_unique; [apply Hs|done|done|];
        intros y Hy; apply by_gitlab_spec in Hg as (<- & <- & <-);
        rewrite conflicts_by, Hy.
    + by apply by_gitlab_spec in Hg as (-> & _).
  - apply not_true_iff_false. rewrite by_huly_spec. cbn. naive_solver.
Qed.

(** C10: whatever operations run, in whatever order and whether or not
    they fail, the id map stays a partial bijection: an entry found from
    the GitLab side is the entry found from the Huly side and conversely. *)
Theorem idmap_partial_bijection ops s :
  store_ok s ->
  forall w d,
    let s' := store_run ops s in
    (forall k g, findByGitlab w k g s' = (Ok (Some d), s') ->
       findByHuly w (im_hulyClass d) (im_hulyRef d) s' = (Ok (Some d), s')) /\
    (forall c r, findByHuly w c r s' = (Ok (Some d), s') ->
       findByGitlab w (im_gitlabKind d) (im_gitlabId d) s' = (Ok (Some d), s')).
Proof.
  intros Hs w d s'. apply (store_run_ok ops) in Hs. fold s' in Hs. split.
  - intros k g [= Hf]. rewrite findOne_scan in Hf.
    apply js_find_Some in Hf as [Hd (<- & _)%by_gitlab_spec]. by apply find_huly_unique.
  - intros c r [= Hf]. rewrite findOne_scan in Hf.
    apply js_find_Some in Hf as [Hd (<- & _)%by_huly_spec]. by apply find_gitlab_unique.
Qed.

(** What [upsertIdMap] does.  It succeeds unless a different GitLab
    object already owns the Huly document, and then nothing is written.
    When it succeeds the pair is found from both sides, every other GitLab
    key answers as before, and so does every Huly key other than the new
    one and the one this GitLab object had. *)
Theorem upsertIdMap_spec s w k g c r :
  store_ok s ->
  let d := MkIdMapDoc w k g c r in
  match upsertIdMap w k g c r s with
  | (Ok _, s') =>
      findByGitlab w k g s' = (Ok (Some d), s') /\
      findByHuly w c r s' = (Ok (Some d), s') /\
      (forall w' k' g', (w', k', g') <> (w, k, g) ->
         (findByGitlab w' k' g' s').1 = (findByGitlab w' k' g' s).1) /\
      (forall w' c' r', (w', c', r') <> (w, c, r) ->
         (forall o, (findByGitlab w k g s).1 = Ok (Some o) ->
            (w', c', r') <> (w, im_hulyClass o, im_hulyRef o)) ->
         (findByHuly w' c' r' s').1 = (findByHuly w' c' r' s).1)
  | (Throw e, s') =>
      e = MongoDuplicateKey /\ s' = s /\
      exists o, findByHuly w c r s = (Ok (Some o), s) /\
        (im_gitlabKind o, im_gitlabId o) <> (k, g)
  end.
Proof.
  intros Hs d. unfold upsertIdMap, dup_key_or.
  destruct (upsertOne _ _ _ _) as [c'|] eqn:Hu; cbn [modify throw].
  - assert (forall p, p d = true -> (forall x, p x = true -> conflicts d x = true) ->
              findOne p c' = Some d) as Hnew.
    { intros p Hp Hx. by eapply upsertOne_find_new. }
    unfold findByGitlab, findByHuly, gets; cbn [idmap set_idmap fst]. split_and!.
    + do 2 f_equal. apply Hnew; [by apply by_gitlab_spec|].
      intros x Hx. rewrite conflicts_by. unfold d. cbn [im_workspaceUuid im_gitlabKind im_gitlabId]. by rewrite Hx.
    + do 2 f_equal. apply Hnew; [by apply by_huly_spec|].
      intros x Hx. rewrite conflicts_by. unfold d.
      cbn [im_workspaceUuid im_hulyClass im_hulyRef]. by rewrite Hx, orb_true_r.
    + intros w' k' g' Hne. f_equal. eapply upsertOne_find; [done|..].
      * intros x (<- & <- & <-)%by_gitlab_spec. apply not_true_iff_false.
        rewrite by_gitlab_spec. naive_solver.
      * apply not_true_iff_false. rewrite by_gitlab_spec. cbn. naive_solver.
    + intros w' c1 r' Hne Hold. f_equal.
      apply (upsertIdMap_other_huly s w k g c r w' c1 r' c'); try done.
      intros o Ho. apply Hold. by rewrite Ho.
  - split_and!; [done|done|].
    apply upsertOne_None, ref_upsert_clash in Hu as (o & Ho & Hc & Hp); [|apply Hs|].
    2:{ intros x y (<- & <- & <-)%by_gitlab_spec Hy. by rewrite conflicts_by, Hy. }
    rewrite conflicts_by in Hc. unfold d in Hc.
    cbn [im_workspaceUuid im_gitlabKind im_gitlabId im_hulyClass im_hulyRef] in Hc.
    rewrite Hp in Hc. cbn [orb] in Hc. apply by_huly_spec in Hc as (<- & <- & <-).
    exists o. split; [by apply find_huly_unique|].
    intros E. apply not_true_iff_false in Hp. apply Hp, by_gitlab_spec. naive_solver.
Qed.

(** *** Cursors *)

Lemma by_cursor_spec b k d : by_cursor b k d = true <-> cu_bindingId d = b /\ cu_kind d = k.
Proof. unfold by_cursor. rewrite andb_true_iff, !bool_decide_eq_true. done. Qed.

Lemma cursor_conflicts d d' : conflicts d d' = by_cursor (cu_bindingId d) (cu_kind d) d'.
Proof.
  apply eq_true_iff_eq. rewrite by_cursor_spec. cbn. unfold same_cursor.
  rewrite andb_true_iff, !bool_decide_eq_true. intuition congruence.
Qed.

(** A cursor write succeeds. *)
Lemma setCursor_total s b k (t : jsdate) :
  store_ok s ->
  exists c, upsertOne (by_cursor b k) (fun _ => MkCursorDoc b k t) (MkCursorDoc b k t) (cursors s) = Some c.
Proof.
  intros Hs. destruct (upsertOne _ _ _ _) as [c'|] eqn:Hu; [by eexists|].
  exfalso. apply upsertOne_None, ref_upsert_clash in Hu as (o & Ho & Hc & Hp); [|apply Hs|].
  - rewrite cursor_conflicts in Hc. cbn [cu_bindingId cu_kind] in Hc. congruence.
  - intros x y (<- & <-)%by_cursor_spec Hy. by rewrite cursor_conflicts.
Qed.

(** A cursor write never fails, is what the next read of that cursor
    returns, and is invisible to every other cursor of the store. *)
Theorem setCursor_getCursor s b k t :
  store_ok s ->
  exists s', setCursor b k t s = (Ok tt, s') /\
    getCursor b k s' = (Ok (Some t), s') /\
    forall b' k', (b', k') <> (b, k) -> (getCursor b' k' s').1 = (getCursor b' k' s).1.
Proof.
  intros Hs. destruct (setCursor_total s b k t Hs) as (c' & Hu). unfold setCursor, dup_key_or.
  rewrite Hu. eexists. split_and!; [done| |].
  - unfold getCursor, gets. do 2 f_equal. cbn [cursors set_cursors].
    rewrite (upsertOne_find_new _ (by_cursor b k) _ _ _ Hu); [done| |by apply by_cursor_spec].
    intros x Hx. by rewrite cursor_conflicts.
  - intros b' k' Hne. unfold getCursor, gets. cbn [fst cursors set_cursors]. do 2 f_equal.
    eapply upsertOne_find; [done|..].
    + intros x (<- & <-)%by_cursor_spec. apply not_true_iff_false.
      rewrite by_cursor_spec. naive_solver.
    + apply not_true_iff_false. rewrite by_cursor_spec. cbn. naive_solver.
Qed.

(** *** Deduplication under concurrency *)

Definition event_key : Type := string * string * string.

Definition seen (k : event_key) s : Prop :=
  exists d, d ∈ scan (dedup s) /\ by_event k.1.1 k.1.2 k.2 d = true.

Lemma by_event_spec b e v d :
  by_event b e v d = true <-> dd_bindingId d = b /\ dd_eventId d = e /\ dd_version d = v.
Proof. unfold by_event. rewrite !andb_true_iff, !bool_decide_eq_true. tauto. Qed.

Lemma dedup_conflicts d d' :
  conflicts d d' = by_event (dd_bindingId d) (dd_eventId d) (dd_version d) d'.
Proof.
  apply eq_true_iff_eq. rewrite by_event_spec. cbn. unfold same_event.
  rewrite !andb_true_iff, !bool_decide_eq_true. intuition congruence.
Qed.

Lemma checkSeen_spec k s :
  exists b, checkSeen k.1.1 k.1.2 k.2 s = (Ok b, s) /\ (b = true <-> seen k s).
Proof.
  unfold checkSeen, gets, seen. eexists. split; [done|]. rewrite findOne_scan.
  destruct (js_find _ _) as [d|] eqn:E.
  - apply js_find_Some in E. naive_solver.
  - split; [done|]. rewrite js_find_None in E. intros (d & Hd & Hb). by rewrite E in Hb.
Qed.

(** The insertion reports a duplicate exactly when the event is already
    recorded; otherwise it records this event and no other. *)
Lemma markSeen_spec now k s :
  exists b s', markSeen now k.1.1 k.1.2 k.2 s = (Ok b, s') /\ (b = true <-> seen k s) /\
    (forall k', seen k' s' <-> seen k' s \/ k' = k) /\ exists c, s' = set_dedup c s.
Proof.
  destruct k as [[b e] v]. cbn [fst snd]. unfold markSeen, try_catch, dup_key_or.
  destruct (insertOne _ _) as [c'|] eqn:Hi; cbn [bind modify ret throw].
  - apply insertOne_Some, ref_insert_Some in Hi as [Hc' Hn]. exists false. eexists.
    split_and!; [done|split; [done|]| |by exists c'].
    + intros (d & Hd & Hb). specialize (Hn d Hd). rewrite dedup_conflicts in Hn.
      cbn [dd_bindingId dd_eventId dd_version fst snd] in *. congruence.
    + intros [[b' e'] v']. unfold seen. cbn [dedup set_dedup fst snd]. rewrite Hc'.
      setoid_rewrite elem_of_app. setoid_rewrite list_elem_of_singleton. split.
      * intros (d & [Hd| ->] & Hb); [left; eauto|right].
        apply by_event_spec in Hb. cbn in Hb. naive_solver.
      * intros [(d & Hd & Hb)|[= -> -> ->]]; [eauto|]. eexists. split; [by right|].
        by apply by_event_spec.
  - apply insertOne_None, ref_insert_None in Hi as (d & Hd & Hc).
    rewrite dedup_conflicts in Hc. exists true, s.
    assert (seen (b, e, v) s) as Hseen by (exists d; done).
    split_and!; [done|done| |].
    + intros k'. split; [by left|]. by intros [?| ->].
    + exists (dedup s). by destruct s.
Qed.

(** The sequential duplicate check: the answer is whether the event was
    recorded, and afterwards it is. *)
Lemma checkAndMarkSeen_spec now k s :
  exists b s', checkAndMarkSeen now k.1.1 k.1.2 k.2 s = (Ok b, s') /\ (b = true <-> seen k s) /\
    (forall k', seen k' s' <-> seen k' s \/ k' = k) /\ exists c, s' = set_dedup c s.
Proof.
  unfold checkAndMarkSeen, bind. destruct (checkSeen_spec k s) as (b & -> & Hb). destruct b.
  - exists true, s. split_and!; [done|done| |].
    + intros k'. split; [by left|]. intros [?| ->]; [done|]. by apply Hb.
    + exists (dedup s). by destruct s.
  - destruct (markSeen_spec now k s) as (b' & s' & E & Hb' & H3 & H4). by exists b', s'.
Qed.

(** A delivery of an event: about to look it up, about to insert it, or
    finished with the answer of [checkAndMarkSeen]. *)
Inductive delivery :=
  | DCheck | DMark | DDone (duplicate : bool).

#[global] Instance delivery_eq_dec : EqDecision delivery.
Proof. solve_decision. Defined.

Definition is_done (d : delivery) : Prop := match d with DDone _ => True | _ => False end.

#[global] Instance is_done_dec d : Decision (is_done d).
Proof. destruct d; cbn; apply _. Defined.

(** The awaits a delivery still has to make. *)
Definition awaits_left (d : delivery) : nat :=
  match d with DCheck => 2 | DMark => 1 | DDone _ => 0 end.

(** One await of a delivery. *)
Definition deliver (now : Z) (k : event_key) (d : delivery) s : delivery * Store Coll :=
  match d with
  | DCheck => match checkSeen k.1.1 k.1.2 k.2 s with
              | (Ok true, s') => (DDone true, s')
              | (_, s') => (DMark, s')
              end
  | DMark => match markSeen now k.1.1 k.1.2 k.2 s with
             | (Ok b, s') => (DDone b, s')
             | (Throw _, s') => (DMark, s')
             end
  | DDone _ => (d, s)
  end.

(** Concurrent deliveries, one step of the [i]-th at a time. *)
Definition dsys : Type := list (event_key * delivery) * Store Coll.

Definition dstep (i : nat) (σ : dsys) : dsys :=
  match σ.1 !! i with
  | Some (k, d) => let '(d', s') := deliver 0 k d σ.2 in (<[i := (k, d')]> σ.1, s')
  | None => σ
  end.

Definition dsched (sched : list nat) (σ : dsys) : dsys :=
  fold_left (fun σ i => dstep i σ) sched σ.

(** The number of deliveries of [k] that were told the event is new. *)
Definition fresh_count (k : event_key) (ps : list (event_key * delivery)) : nat :=
  length (List.filter (fun p => bool_decide (p = (k, DDone false))) ps).

Lemma deliver_spec now k d s :
  exists d' s', deliver now k d s = (d', s') /\
    awaits_left d' <= awaits_left d - 1 /\
    ((d = d' /\ s = s') \/ ~ is_done d) /\
    (d' = DDone false -> d <> DDone false -> ~ seen k s) /\
    (is_done d' -> ~ is_done d -> seen k s') /\
    forall k', seen k' s' <-> seen k' s \/ (k' = k /\ d <> DDone false /\ d' = DDone false).
Proof.
  destruct d as [| |b]; cbn [deliver].
  - destruct (checkSeen_spec k s) as (b & -> & Hb).
    destruct b; do 2 eexists; split; try done; cbn; naive_solver lia.
  - destruct (markSeen_spec now k s) as (b & s' & -> & Hb & Hk & _).
    do 2 eexists. split; [done|]. cbn. split_and!; [lia|naive_solver|naive_solver| |].
    + intros _ _. rewrite Hk. by right.
    + intros k'. rewrite Hk. destruct b; naive_solver.
  - do 2 eexists. split; [done|]. cbn. split_and!; naive_solver lia.
Qed.

Lemma fresh_count_app k l l' : fresh_count k (l ++ l') = fresh_count k l + fresh_count k l'.
Proof. unfold fresh_count. by rewrite List.filter_app, length_app. Qed.

Lemma fresh_count_cons k e l : fresh_count k (e :: l) = fresh_count k [e] + fresh_count k l.
Proof. apply (fresh_count_app k [e]). Qed.

Lemma fresh_count_insert k ps i e e' :
  ps !! i = Some e -> fresh_count k (<[i := e']> ps) + fresh_count k [e] =
                      fresh_count k ps + fresh_count k [e'].
Proof.
  intros Hi. rewrite insert_take_drop by by eapply lookup_lt_Some.
  rewrite <- (take_drop_middle ps i e Hi) at 3.
  rewrite !fresh_count_app, !(fresh_count_cons k _ (drop _ _)). lia.
Qed.

Lemma fresh_count_one k k' d :
  fresh_count k [(k', d)] = if decide (k' = k /\ d = DDone false) then 1 else 0.
Proof.
  unfold fresh_count. cbn. case_bool_decide as Hb; destruct (decide _) as [Hd|Hd]; naive_solver.
Qed.

(** What the deliveries know about the store they started from. *)
Definition dedup_inv s0 (σ : dsys) : Prop :=
  forall k,
    (seen k σ.2 <-> seen k s0 \/ fresh_count k σ.1 = 1) /\
    fresh_count k σ.1 <= 1 /\ (seen k s0 -> fresh_count k σ.1 = 0) /\
    forall d, (k, d) ∈ σ.1 -> is_done d -> seen k σ.2.

Lemma dstep_inv s0 i σ : dedup_inv s0 σ -> dedup_inv s0 (dstep i σ).
Proof.
  destruct σ as [ps s]. intros Hinv. unfold dstep. cbn [fst snd].
  destruct (ps !! i) as [[k d]|] eqn:Hi; [|done].
  destruct (deliver_spec 0 k d s) as (d' & s' & -> & _ & Hsame & Hf & Hd & Hk).
  intros k1. destruct (Hinv k1) as (H1 & H2 & H3 & H4). cbn [fst snd] in *.
  pose proof (fresh_count_insert k1 ps i _ (k, d') Hi) as Hc.
  rewrite !fresh_count_one in Hc. rewrite Hk.
  assert (d = DDone false -> d' = DDone false) as Hdone by (destruct Hsame as [[<- _]|]; [done|naive_solver]).
  assert (forall e, (k1, e) ∈ <[i := (k, d')]> ps -> (k1, e) ∈ ps \/ (k1 = k /\ e = d')) as Hin.
  { intros e He. apply list_elem_of_lookup in He as [j Hj].
    apply list_lookup_insert_Some in Hj as [(<- & ? & ?)|[_ ?]]; [right; naive_solver|left].
    by eapply list_elem_of_lookup_2. }
  destruct (decide (d = DDone false)) as [->|Hnd].
  - assert (d' = DDone false) as -> by auto. rewrite list_insert_id by done.
    split_and!; [rewrite H1; naive_solver|done|done|]. intros e He Hed. apply Hk. left. eauto.
  - destruct (decide (k = k1 /\ d = DDone false)) as [[]|_]; [done|].
    destruct (decide (k = k1 /\ d' = DDone false)) as [[-> ->]|Hn].
    + specialize (Hf eq_refl Hnd). rewrite H1 in Hf.
      split_and!; [split; [right; lia|by right]|lia| |]; [naive_solver|].
      intros e _ _. apply Hk. by right.
    + rewrite !Nat.add_0_r in Hc. split_and!; [|by rewrite Hc|by rewrite Hc|].
      * rewrite Hc, H1. naive_solver.
      * intros e [He|[-> ->]]%Hin He'; [apply Hk; left; eauto|].
        destruct (decide (is_done d)) as [Hdd|Hdd].
        -- apply Hk. left. eapply H4; [by eapply list_elem_of_lookup_2|done].
        -- by apply Hd.
Qed.

Lemma dsched_inv s0 sched σ : dedup_inv s0 σ -> dedup_inv s0 (dsched sched σ).
Proof. revert σ. induction sched as [|i sched IH]; cbn; auto using dstep_inv. Qed.

Lemma dedup_inv_start keys s0 : dedup_inv s0 (map (fun k => (k, DCheck)) keys, s0).
Proof.
  intros k. cbn [fst snd].
  assert (fresh_count k (map (fun k => (k, DCheck)) keys) = 0) as ->.
  { induction keys as [|k' keys IH]; cbn [map]; [done|].
    rewrite fresh_count_cons, IH, fresh_count_one. by destruct (decide _) as [[]|]. }
  split_and!; [naive_solver|lia|done|].
  intros d Hd. apply list_elem_of_In, in_map_iff in Hd as (? & [= <- <-] & _). done.
Qed.

(** The awaits the [i]-th delivery still has to make. *)
Definition left_of (i : nat) (σ : dsys) : nat :=
  match σ.1 !! i with Some (_, d) => awaits_left d | None => 0 end.

Lemma dstep_left i j σ : left_of j (dstep i σ) <= left_of j σ - (if decide (i = j) then 1 else 0).
Proof.
  destruct σ as [ps s]. unfold dstep, left_of. cbn [fst snd].
  destruct (ps !! i) as [[k d]|] eqn:Hi; cbn [fst].
  - destruct (deliver_spec 0 k d s) as (d' & s' & -> & Hle & _). cbn [fst].
    destruct (decide (i = j)) as [<-|Hne].
    + rewrite Hi, list_lookup_insert_eq by by eapply lookup_lt_Some. done.
    + rewrite list_lookup_insert_ne by done. destruct (ps !! j) as [[]|]; lia.
  - destruct (decide (i = j)) as [<-|]; [rewrite Hi|]; [lia|]. destruct (ps !! j) as [[]|]; lia.
Qed.

Lemma dsched_left j sched σ :
  left_of j (dsched sched σ) <= left_of j σ - count_occ Nat.eq_dec sched j.
Proof.
  revert σ. induction sched as [|i sched IH]; intros σ; cbn [dsched fold_left count_occ]; [lia|].
  specialize (IH (dstep i σ)). pose proof (dstep_left i j σ) as Hl. unfold dsched in IH.
  destruct (Nat.eq_dec i j), (decide (i = j)); try done; lia.
Qed.

(** C32: at most once under concurrency.  However the two awaits of any
    number of concurrent deliveries interleave, at most one delivery of an
    event is told that it is new - none if it was recorded before, exactly
    one once any of them has finished - and a delivery that was scheduled
    twice has finished. *)
Theorem dedup_exactly_once sched keys s0 k :
  let σ := dsched sched (map (fun k => (k, DCheck)) keys, s0) in
  fresh_count k σ.1 <= 1 /\
  (seen k s0 -> fresh_count k σ.1 = 0) /\
  (~ seen k s0 -> (exists b, (k, DDone b) ∈ σ.1) -> fresh_count k σ.1 = 1) /\
  (forall i k' d, 2 <= count_occ Nat.eq_dec sched i -> σ.1 !! i = Some (k', d) -> is_done d).
Proof.
  intros σ.
  destruct (dsched_inv s0 sched _ (dedup_inv_start keys s0) k) as (H1 & H2 & H3 & H4).
  fold σ in H1, H2, H3, H4. split_and!; [done|done| |].
  - intros Hn [b Hb]. specialize (H4 _ Hb I). tauto.
  - intros i k' d Hi Hσ.
    pose proof (dsched_left i sched (map (fun k => (k, DCheck)) keys, s0)) as Hl.
    fold σ in Hl. unfold left_of in Hl. rewrite Hσ in Hl. cbn [fst] in Hl.
    rewrite list_lookup_fmap in Hl. destruct (keys !! i); cbn in Hl; destruct d; cbn in Hl; done || lia.
Qed.
End StoreLaws.

(** ** Closed examples *)

Definition empty_store : Store list := MkStore [] [] [] [] [].

Lemma empty_store_ok : store_ok empty_store.
Proof. by split. Qed.

Lemma idmap_partial_bijection_witness :
  let s' := store_run
    [OpUpsertIdMap "ws" KIssue "42:7" "tracker:class:Issue" "issue-1";
     OpUpsertIdMap "ws" KIssue "42:8" "tracker:class:Issue" "issue-1";
     OpUpsertIdMap "ws" KIssue "42:7" "tracker:class:Issue" "issue-2"] empty_store in
  let d := MkIdMapDoc "ws" KIssue "42:7" "tracker:class:Issue" "issue-2" in
  scan (idmap s') = [d] /\
  findByHuly "ws" "tracker:class:Issue" "issue-2" s' = (Ok (Some d), s').
Proof.
  intros s' d. split; [reflexivity|].
  destruct (idmap_partial_bijection
    [OpUpsertIdMap "ws" KIssue "42:7" "tracker:class:Issue" "issue-1";
     OpUpsertIdMap "ws" KIssue "42:8" "tracker:class:Issue" "issue-1";
     OpUpsertIdMap "ws" KIssue "42:7" "tracker:class:Issue" "issue-2"]
    empty_store empty_store_ok "ws" d) as [E _].
  apply (E KIssue "42:7"). reflexivity.
Defined.

Lemma upsertIdMap_spec_witness :
  let s := store_step (OpUpsertIdMap "ws" KIssue "42:7" "tracker:class:Issue" "issue-1") empty_store in
  store_ok s /\ (upsertIdMap "ws" KIssue "42:8" "tracker:class:Issue" "issue-1" s).1 = Throw MongoDuplicateKey
  /\ (upsertIdMap "ws" KIssue "42:8" "tracker:class:Issue" "issue-1" s).2 = s.
Proof.
  intros s. assert (store_ok s) as Hs by apply store_step_ok, empty_store_ok.
  split; [exact Hs|]. split; [reflexivity|].
  destruct (upsertIdMap_spec s "ws" KIssue "42:8" "tracker:class:Issue" "issue-1" Hs) as (_ & E & _).
  reflexivity.
Defined.

Lemma setCursor_getCursor_witness :
  store_ok empty_store /\
  exists s', setCursor "b1" CIssues (Some 5%Z) empty_store = (Ok tt, s') /\
    getCursor "b1" CIssues s' = (Ok (Some (Some 5%Z)), s').
Proof.
  split; [exact empty_store_ok|].
  destruct (setCursor_getCursor empty_store "b1" CIssues (Some 5%Z) empty_store_ok) as (s' & E1 & E2 & _).
  exists s'. split; [exact E1|exact E2].
Defined.

(** Two deliveries of one event and one of another, interleaved so that both
    look the event up before either records it. *)
Lemma dedup_exactly_once_witness :
  let k := ("b1", "evt-1", "v1") in
  let σ := dsched [0; 1; 2; 1; 0; 2] (map (fun k => (k, DCheck)) [k; k; ("b1", "evt-2", "v1")], empty_store) in
  σ.1 = [(k, DDone true); (k, DDone false); (("b1", "evt-2", "v1"), DDone false)] /\
  fresh_count k σ.1 = 1.
Proof.
  cbn zeta. split; [reflexivity|].
  destruct (dedup_exactly_once [0; 1; 2; 1; 0; 2]
    [("b1", "evt-1", "v1"); ("b1", "evt-1", "v1"); ("b1", "evt-2", "v1")]
    empty_store ("b1", "evt-1", "v1")) as (_ & _ & E & _).
  apply E.
  - intros (d & Hd & _). by apply elem_of_nil in Hd.
  - exists true. left.
Defined.
