(* ===== verification/Credentials.v ===== *)
(** * Encrypted credentials (src/state/credentials.ts, src/state/user-credentials.ts)

    Service credentials (OAuth tokens, access tokens, webhook secrets), keyed
    by document id, and per-user credentials, keyed by workspace, person and
    GitLab base URL.  Secrets are stored under AES-256-GCM with a fresh IV per
    value; the cipher, base64 and the random source belong to node:crypto and
    are the class [Cipher].  Strings are byte strings, so the UTF-8
    conversions around the cipher are the identity. *)

From S2P Require Import Prelude JsMap JsVal Platform Conflict Mongo.

Class Cipher := {
  gcm_encrypt : forall (key iv plaintext : string), string * string;
  gcm_decrypt : forall (key iv ciphertext tag : string), option string;
  gcm_decrypt_encrypt : forall key iv p,
    gcm_decrypt key iv (gcm_encrypt key iv p).1 (gcm_encrypt key iv p).2 = Some p;
  base64 : string -> string;
  unbase64 : string -> string;
  unbase64_base64 : forall s, unbase64 (base64 s) = s;
  randomIv : nat -> string
}.

Inductive CredentialKind := CkOauth | CkAccessToken | CkWebhookSecret.

Record Encrypted := MkEncrypted { en_ciphertext : string; en_iv : string; en_tag : string }.

Record CredentialDoc := MkCredentialDoc {
  cd_id : string;
  cd_kind : CredentialKind;
  cd_secret : Encrypted;
  cd_createdAt : Z;
  cd_expiresAt : option jsdate;
  cd_refresh : option Encrypted;
  cd_gitlabBaseUrl : option string;
  cd_workspaceUuid : option string;
  cd_expired : bool
}.

Record CredentialResult := MkCredentialResult {
  cr_plaintext : string;
  cr_kind : CredentialKind;
  cr_expiresAt : option jsdate;
  cr_refreshTokenPlaintext : option string
}.

Record PutCredentialInput := MkPutCredentialInput {
  pi_kind : CredentialKind;
  pi_plaintext : string;
  pi_expiresAt : option jsdate;
  pi_refreshTokenPlaintext : option string;
  pi_gitlabBaseUrl : option string;
  pi_workspaceUuid : option string
}.

(** [RotateCredentialInput | string]: a bare string is the record with only
    [plaintext]. *)
Record RotateCredentialInput := MkRotateCredentialInput {
  ri_plaintext : string;
  ri_refreshTokenPlaintext : option string;
  ri_expiresAt : option jsdate
}.

(** [expiresAt: Date | null] of a user credential is [None] for [null]. *)
Record UserCredentialDoc := MkUserCredentialDoc {
  uc_id : string;
  uc_workspaceUuid : string;
  uc_hulyPersonUuid : string;
  uc_gitlabBaseUrl : string;
  uc_username : string;
  uc_secret : Encrypted;
  uc_expiresAt : option jsdate;
  uc_refresh : option Encrypted;
  uc_createdAt : Z;
  uc_expired : bool
}.

Record PutUserCredentialInput := MkPutUserCredentialInput {
  pu_workspaceUuid : string;
  pu_hulyPersonUuid : string;
  pu_gitlabBaseUrl : string;
  pu_username : string;
  pu_accessToken : string;
  pu_refreshToken : option string;
  pu_expiresAt : option jsdate
}.

(** [expiresAt] may be absent ([None]), [null] ([Some None]) or a date. *)
Record RotateUserCredentialInput := MkRotateUserCredentialInput {
  ru_accessToken : string;
  ru_refreshToken : option string;
  ru_expiresAt : option (option jsdate)
}.

Definition by_user (workspaceUuid hulyPersonUuid gitlabBaseUrl : string) (d : UserCredentialDoc)
    : bool :=
  bool_decide (uc_workspaceUuid d = workspaceUuid) &&
  bool_decide (uc_hulyPersonUuid d = hulyPersonUuid) &&
  bool_decide (uc_gitlabBaseUrl d = gitlabBaseUrl).

Definition same_user (d d' : UserCredentialDoc) : bool :=
  by_user (uc_workspaceUuid d) (uc_hulyPersonUuid d) (uc_gitlabBaseUrl d) d' ||
  bool_decide (uc_id d = uc_id d').

#[export] Instance CredentialDoc_document : Document CredentialDoc.
Proof.
  refine {| conflicts := fun d d' => bool_decide (cd_id d = cd_id d') |}.
  intros d d'. apply bool_decide_ext. split; congruence.
Defined.

#[export] Instance UserCredentialDoc_document : Document UserCredentialDoc.
Proof.
  refine {| conflicts := same_user |}. intros d d'. unfold same_user, by_user.
  apply eq_true_iff_eq. rewrite ?orb_true_iff, ?andb_true_iff, ?bool_decide_eq_true.
  intuition congruence.
Defined.

(** The two collections, and how many IVs, ids and clock readings were
    consumed. *)
Record Creds (Coll : Type -> Type) := MkCreds {
  credentials : Coll CredentialDoc;
  userCredentials : Coll UserCredentialDoc;
  ivs : nat;
  cred_ids : nat;
  cred_clock : nat
}.
Arguments MkCreds {Coll} credentials userCredentials ivs cred_ids cred_clock.
Arguments credentials {Coll} c.
Arguments userCredentials {Coll} c.
Arguments ivs {Coll} c.
Arguments cred_ids {Coll} c.
Arguments cred_clock {Coll} c.

Section Operations.
Context {Coll : Type -> Type} `{Mongo Coll} {P : Platform} {C : Cipher}.
Abbreviation MC := (M (Creds Coll)).

Definition set_credentials (c : Coll CredentialDoc) (s : Creds Coll) : Creds Coll :=
  MkCreds c (userCredentials s) (ivs s) (cred_ids s) (cred_clock s).
Definition set_userCredentials (c : Coll UserCredentialDoc) (s : Creds Coll) : Creds Coll :=
  MkCreds (credentials s) c (ivs s) (cred_ids s) (cred_clock s).

Definition next_iv : MC string := fun s =>
  (Ok (randomIv (ivs s)),
   MkCreds (credentials s) (userCredentials s) (S (ivs s)) (cred_ids s) (cred_clock s)).
Definition next_cred_id : MC string := fun s =>
  (Ok (freshObjectId (cred_ids s)),
   MkCreds (credentials s) (userCredentials s) (ivs s) (S (cred_ids s)) (cred_clock s)).
Definition cred_now : MC Z := fun s =>
  (Ok (clock (cred_clock s)),
   MkCreds (credentials s) (userCredentials s) (ivs s) (cred_ids s) (S (cred_clock s))).

Definition seal (key iv plaintext : string) : Encrypted :=
  let '(c, t) := gcm_encrypt key iv plaintext in MkEncrypted (base64 c) (base64 iv) (base64 t).

Definition encryptValue (plaintext key : string) : MC Encrypted :=
  let! iv := next_iv in ret (seal key iv plaintext).

Definition encryptOption (plaintext : option string) (key : string) : MC (option Encrypted) :=
  match plaintext with
  | Some p => let! enc := encryptValue p key in ret (Some enc)
  | None => ret None
  end.

(** [decipher.final()] throws when the tag does not authenticate. *)
Definition decryptValue (enc : Encrypted) (key : string) : MC string :=
  match gcm_decrypt key (unbase64 (en_iv enc)) (unbase64 (en_ciphertext enc))
          (unbase64 (en_tag enc)) with
  | Some p => ret p
  | None => throw (JsError "Unsupported state or unable to authenticate data")
  end.

(** ** Service credentials *)

Definition putCredential (key : string) (input : PutCredentialInput) : MC string :=
  let! enc := encryptValue (pi_plaintext input) key in
  let! oid := next_cred_id in
  let! now := cred_now in
  let! refresh := encryptOption (pi_refreshTokenPlaintext input) key in
  let doc := MkCredentialDoc oid (pi_kind input) enc now (pi_expiresAt input) refresh
               (pi_gitlabBaseUrl input) (pi_workspaceUuid input) false in
  (fun s => dup_key_or (insertOne doc (credentials s)) (fun c => modify (set_credentials c)) s) ;;!
  ret oid.

Definition cred_object_id {A} (id : string) (k : string -> MC A) : MC A :=
  match newObjectId id with
  | Some oid => k oid
  | None => throw (JsError "BSONError")
  end.

Definition getCredential (key id : string) : MC (option CredentialResult) :=
  cred_object_id id (fun oid =>
    let! doc := gets (fun s => findOne (fun d => bool_decide (cd_id d = oid)) (credentials s)) in
    match doc with
    | None => ret None
    | Some doc =>
        let! plaintext := decryptValue (cd_secret doc) key in
        let! refresh := match cd_refresh doc with
                        | Some r => let! p := decryptValue r key in ret (Some p)
                        | None => ret None
                        end in
        ret (Some (MkCredentialResult plaintext (cd_kind doc) (cd_expiresAt doc) refresh))
    end).

Definition deleteCredential (id : string) : MC unit :=
  cred_object_id id (fun oid => modify (fun s =>
    set_credentials (deleteOne (fun d => bool_decide (cd_id d = oid)) (credentials s)) s)).

(** The [$set] of [rotateCredential]. *)
Definition apply_rotation (enc : Encrypted) (refresh : option Encrypted)
    (expiresAt : option jsdate) (d : CredentialDoc) : CredentialDoc :=
  MkCredentialDoc (cd_id d) (cd_kind d) enc (cd_createdAt d)
    (match expiresAt with Some t => Some t | None => cd_expiresAt d end)
    (match refresh with Some r => Some r | None => cd_refresh d end)
    (cd_gitlabBaseUrl d) (cd_workspaceUuid d) (cd_expired d).

Definition rotateCredential (key id : string) (input : RotateCredentialInput) : MC unit :=
  let! enc := encryptValue (ri_plaintext input) key in
  let! refresh := encryptOption (ri_refreshTokenPlaintext input) key in
  cred_object_id id (fun oid s =>
    dup_key_or (updateOne (fun d => bool_decide (cd_id d = oid))
                  (apply_rotation enc refresh (ri_expiresAt input)) (credentials s))
      (fun c => modify (set_credentials c)) s).

(** ** User credentials *)

(** The [$set] of [putUserCredential] on an existing document. *)
Definition apply_user_put (input : PutUserCredentialInput) (enc : Encrypted)
    (refresh : option Encrypted) (now : Z) (d : UserCredentialDoc) : UserCredentialDoc :=
  MkUserCredentialDoc (uc_id d) (uc_workspaceUuid d) (uc_hulyPersonUuid d) (uc_gitlabBaseUrl d)
    (pu_username input) enc (pu_expiresAt input)
    (match refresh with Some r => Some r | None => uc_refresh d end) now (uc_expired d).

Definition putUserCredential (key : string) (input : PutUserCredentialInput) : MC string :=
  let! enc := encryptValue (pu_accessToken input) key in
  let! now := cred_now in
  let! refresh := encryptOption (pu_refreshToken input) key in
  let! oid := next_cred_id in
  let filter := by_user (pu_workspaceUuid input) (pu_hulyPersonUuid input)
                  (pu_gitlabBaseUrl input) in
  let fresh := MkUserCredentialDoc oid (pu_workspaceUuid input) (pu_hulyPersonUuid input)
                 (pu_gitlabBaseUrl input) (pu_username input) enc (pu_expiresAt input) refresh
                 now false in
  (fun s => dup_key_or (upsertOne filter (apply_user_put input enc refresh now) fresh
                          (userCredentials s)) (fun c => modify (set_userCredentials c)) s) ;;!
  let! result := gets (fun s => findOne filter (userCredentials s)) in
  match result with
  | Some d => ret (uc_id d)
  | None => next_cred_id
  end.

Record UserToken := MkUserToken {
  ut_token : string;
  ut_expiresAt : option jsdate;
  ut_username : string;
  ut_gitlabBaseUrl : string
}.

Definition getUserCredential (key workspaceUuid hulyPersonUuid : string)
    (gitlabBaseUrl : option string) : MC (option UserToken) :=
  let! doc := gets (fun s => findOne (fun d =>
    bool_decide (uc_workspaceUuid d = workspaceUuid) &&
    bool_decide (uc_hulyPersonUuid d = hulyPersonUuid) &&
    match gitlabBaseUrl with
    | Some url => bool_decide (uc_gitlabBaseUrl d = url)
    | None => true
    end) (userCredentials s)) in
  match doc with
  | None => ret None
  | Some doc =>
      let! token := decryptValue (uc_secret doc) key in
      ret (Some (MkUserToken token (uc_expiresAt doc) (uc_username doc) (uc_gitlabBaseUrl doc)))
  end.

(** [deletedCount === 1] *)
Definition deleteUserCredential (workspaceUuid hulyPersonUuid gitlabBaseUrl : string) : MC bool :=
  fun s =>
    let p := by_user workspaceUuid hulyPersonUuid gitlabBaseUrl in
    (Ok (match findOne p (userCredentials s) with Some _ => true | None => false end),
     set_userCredentials (deleteOne p (userCredentials s)) s).

Definition apply_user_rotation (input : RotateUserCredentialInput) (enc : Encrypted)
    (refresh : option Encrypted) (d : UserCredentialDoc) : UserCredentialDoc :=
  MkUserCredentialDoc (uc_id d) (uc_workspaceUuid d) (uc_hulyPersonUuid d) (uc_gitlabBaseUrl d)
    (uc_username d) enc
    (match ru_expiresAt input with Some t => t | None => uc_expiresAt d end)
    (match refresh with Some r => Some r | None => uc_refresh d end)
    (uc_createdAt d) (uc_expired d).

Definition rotateUserCredential (key workspaceUuid hulyPersonUuid gitlabBaseUrl : string)
    (input : RotateUserCredentialInput) : MC unit :=
  let! enc := encryptValue (ru_accessToken input) key in
  let! refresh := encryptOption (ru_refreshToken input) key in
  fun s => dup_key_or (updateOne (by_user workspaceUuid hulyPersonUuid gitlabBaseUrl)
                         (apply_user_rotation input enc refresh) (userCredentials s))
             (fun c => modify (set_userCredentials c)) s.
End Operations.

(** ** Lemmas *)

Section CredentialLaws.
Context {Coll : Type -> Type} `{HL : MongoLaws Coll} {P : Platform} {C : Cipher}.
Implicit Types s : Creds Coll.

Lemma decrypt_seal key iv p s : decryptValue (seal key iv p) key s = (Ok p, s).
Proof.
  unfold decryptValue, seal. pose proof (gcm_decrypt_encrypt key iv p) as E.
  destruct (gcm_encrypt key iv p) as [c t]. cbn [fst snd en_ciphertext en_iv en_tag] in *.
  by rewrite !unbase64_base64, E.
Qed.

(** What a stored secret decrypts to. *)
Definition opens (key : string) (e : Encrypted) (p : string) : Prop :=
  forall s, decryptValue e key s = (Ok p, s).

Lemma encryptValue_spec p key s :
  exists e s', encryptValue p key s = (Ok e, s') /\ opens key e p /\
    credentials s' = credentials s /\ userCredentials s' = userCredentials s /\
    cred_ids s' = cred_ids s /\ cred_clock s' = cred_clock s.
Proof. do 2 eexists. split; [done|]. split_and!; try done. intros s'. apply decrypt_seal. Qed.

Lemma encryptOption_spec p key s :
  exists e s', encryptOption p key s = (Ok e, s') /\
    match p, e with Some p, Some e => opens key e p | None, None => True | _, _ => False end /\
    credentials s' = credentials s /\ userCredentials s' = userCredentials s /\
    cred_ids s' = cred_ids s /\ cred_clock s' = cred_clock s.
Proof.
  destruct p as [p|]; [|by do 2 eexists].
  destruct (encryptValue_spec p key s) as (e & s' & E & Ho & Hs).
  exists (Some e), s'. unfold encryptOption, bind. by rewrite E.
Qed.

(** What [getCredential] answers for a document. *)
Definition credential_view (key : string) (d : CredentialDoc) (r : CredentialResult) : Prop :=
  opens key (cd_secret d) (cr_plaintext r) /\ cr_kind r = cd_kind d /\
  cr_expiresAt r = cd_expiresAt d /\
  match cd_refresh d, cr_refreshTokenPlaintext r with
  | Some e, Some p => opens key e p
  | None, None => True
  | _, _ => False
  end.

Lemma getCredential_view key id d r s :
  newObjectId id = Some id -> findOne (fun d => bool_decide (cd_id d = id)) (credentials s) = Some d ->
  credential_view key d r -> getCredential key id s = (Ok (Some r), s).
Proof.
  intros Hid Hf (Ho & Hk & He & Hr). unfold getCredential, cred_object_id. rewrite Hid.
  unfold bind at 1, gets. rewrite Hf. unfold bind at 1. rewrite Ho.
  destruct r as [p k t rp]. cbn [cr_plaintext cr_kind cr_expiresAt cr_refreshTokenPlaintext] in *.
  subst. destruct (cd_refresh d) as [e|], rp as [q|]; try done. unfold bind. by rewrite Hr.
Qed.

(** The answer depends on the document found only. *)
Lemma getCredential_cong key id s1 s2 :
  (forall oid, newObjectId id = Some oid ->
     findOne (fun d => bool_decide (cd_id d = oid)) (credentials s1) =
     findOne (fun d => bool_decide (cd_id d = oid)) (credentials s2)) ->
  (getCredential key id s1).1 = (getCredential key id s2).1.
Proof.
  intros Heq. unfold getCredential, cred_object_id.
  destruct (newObjectId id) as [oid|]; [|done]. specialize (Heq oid eq_refl).
  unfold bind, gets; cbv beta iota. rewrite Heq. clear Heq.
  generalize (findOne (fun d => bool_decide (cd_id d = oid)) (credentials s2)).
  intros [d|]; [|done]. unfold decryptValue. destruct (gcm_decrypt _ _ _ _); [|done].
  cbn. destruct (cd_refresh d); [|done]. by destruct (gcm_decrypt _ _ _ _).
Qed.

Lemma getCredential_found key id r s :
  newObjectId id = Some id -> getCredential key id s = (Ok (Some r), s) ->
  exists d, findOne (fun d => bool_decide (cd_id d = id)) (credentials s) = Some d /\
    cd_kind d = cr_kind r /\ cd_expiresAt d = cr_expiresAt r /\
    match cd_refresh d, cr_refreshTokenPlaintext r with
    | Some e, Some p => opens key e p
    | None, None => True
    | _, _ => False
    end.
Proof.
  intros Hid. unfold getCredential, cred_object_id. rewrite Hid. unfold bind, gets; cbv beta iota.
  destruct (findOne _ _) as [d|]; [|done]. unfold opens, decryptValue.
  destruct (gcm_decrypt _ _ _ _) as [p|]; [|done]. cbn. destruct (cd_refresh d) as [e|] eqn:Er.
  - destruct (gcm_decrypt key (unbase64 (en_iv e)) _ _) as [q|] eqn:Eq; [|done]. intros [= <-].
    exists d. split_and!; try done. rewrite Er. cbn. intros s'. by rewrite Eq.
  - intros [= <-]. exists d. by rewrite Er.
Qed.

(** The document a collection holds under an id. *)
Definition holds s (d : CredentialDoc) : Prop :=
  findOne (fun x => bool_decide (cd_id x = cd_id d)) (credentials s) = Some d.

Lemma insert_holds d c c' :
  insertOne d c = Some c' ->
  findOne (fun x => bool_decide (cd_id x = cd_id d)) c' = Some d /\
  forall id, id <> cd_id d ->
    findOne (fun x => bool_decide (cd_id x = id)) c' = findOne (fun x => bool_decide (cd_id x = id)) c.
Proof.
  intros [Hc Hn]%insertOne_Some%ref_insert_Some. rewrite !findOne_scan, Hc, js_find_app. split.
  - assert (js_find (fun x => bool_decide (cd_id x = cd_id d)) (scan c) = None) as ->.
    { apply js_find_None. intros x Hx. specialize (Hn x Hx). cbn in Hn. reflect_bools.
      apply bool_decide_eq_false. congruence. }
    cbn. by rewrite bool_decide_eq_true_2.
  - intros id Hne. rewrite !findOne_scan, Hc, js_find_app.
    destruct (js_find _ (scan c)); [done|]. cbn. by rewrite bool_decide_eq_false_2 by congruence.
Qed.

(** A stored credential reads back as what was stored - secret, kind,
    expiry and refresh token - and reading any other id answers as before. *)
Theorem put_get_credential key input s id s' :
  putCredential key input s = (Ok id, s') ->
  getCredential key id s' =
    (Ok (Some (MkCredentialResult (pi_plaintext input) (pi_kind input) (pi_expiresAt input)
                 (pi_refreshTokenPlaintext input))), s') /\
  forall key' id', newObjectId id' <> Some id ->
    (getCredential key' id' s').1 = (getCredential key' id' s).1.
Proof.
  unfold putCredential, bind at 1.
  destruct (encryptValue_spec (pi_plaintext input) key s) as (e & s1 & -> & Ho & Hc1 & _ & Hi1 & Ht1).
  unfold bind at 1, next_cred_id. unfold bind at 1, cred_now. unfold bind at 1.
  set (s2 := MkCreds _ _ _ _ (S _)).
  destruct (encryptOption_spec (pi_refreshTokenPlaintext input) key s2)
    as (r & s3 & -> & Hr & Hc3 & _).
  unfold bind, dup_key_or. set (doc := MkCredentialDoc _ _ _ _ _ _ _ _ _).
  assert (credentials s3 = credentials s) as Ec by by rewrite Hc3.
  destruct (insertOne doc (credentials s3)) as [c|] eqn:Hins; [|done].
  cbn [modify ret]. intros [= <- <-]. destruct (insert_holds _ _ _ Hins) as [Hd Hothers]. split.
  - apply (getCredential_view key _ doc); [apply freshObjectId_hex|exact Hd|].
    split_and!; [exact Ho|done|done|]. cbn. destruct (pi_refreshTokenPlaintext input), r; done.
  - intros key' id' Hne. apply getCredential_cong. intros oid Hoid. cbn [credentials set_credentials].
    rewrite (Hothers oid); [by rewrite Ec|]. intros ->. by apply Hne.
Qed.

(** Rotation: after a rotation the credential reads as the new secret,
    with the new refresh token and expiry where they were given and the
    previous ones otherwise. *)
Theorem rotate_get_credential key id input s s' r :
  newObjectId id = Some id -> getCredential key id s = (Ok (Some r), s) ->
  rotateCredential key id input s = (Ok tt, s') ->
  getCredential key id s' =
    (Ok (Some (MkCredentialResult (ri_plaintext input) (cr_kind r)
      (match ri_expiresAt input with Some t => Some t | None => cr_expiresAt r end)
      (match ri_refreshTokenPlaintext input with
       | Some p => Some p | None => cr_refreshTokenPlaintext r end))), s').
Proof.
  intros Hid Hget. unfold rotateCredential, bind at 1.
  destruct (encryptValue_spec (ri_plaintext input) key s) as (e & s1 & -> & Ho & Hc1 & _).
  unfold bind at 1.
  destruct (encryptOption_spec (ri_refreshTokenPlaintext input) key s1) as (er & s2 & -> & Hr & Hc2 & _).
  unfold cred_object_id. rewrite Hid. unfold dup_key_or.
  assert (credentials s2 = credentials s) as -> by by rewrite Hc2.
  destruct (updateOne _ _ _) as [c|] eqn:Hu; [|done]. cbn [modify]. intros [= <-].
  destruct (getCredential_found key id r s Hid Hget) as (d & Hf & Hk & Ht & Hrf).
  eapply updateOne_find_self in Hu as Hfind; [|exact Hf|].
  2:{ rewrite findOne_scan in Hf. by apply js_find_Some in Hf as [_ ?]. }
  eapply getCredential_view; [done|exact Hfind|]. unfold credential_view. cbn.
  split_and!; [exact Ho|done|by rewrite Ht|].
  by destruct (ri_refreshTokenPlaintext input), er.
Qed.

(** *** User credentials *)

Lemma by_user_spec w p u d :
  by_user w p u d = true <->
  uc_workspaceUuid d = w /\ uc_hulyPersonUuid d = p /\ uc_gitlabBaseUrl d = u.
Proof. unfold by_user. rewrite !andb_true_iff, !bool_decide_eq_true. tauto. Qed.

Lemma putUserCredential_stored key input s id s' :
  putUserCredential key input s = (Ok id, s') ->
  let p := by_user (pu_workspaceUuid input) (pu_hulyPersonUuid input) (pu_gitlabBaseUrl input) in
  exists d, findOne p (userCredentials s') = Some d /\ uc_id d = id /\
    opens key (uc_secret d) (pu_accessToken input) /\
    uc_expiresAt d = pu_expiresAt input /\ uc_username d = pu_username input /\
    match findOne p (userCredentials s) with
    | Some old => uc_id d = uc_id old /\ uc_expired d = uc_expired old
    | None => uc_expired d = false
    end.
Proof.
  unfold putUserCredential, bind at 1.
  destruct (encryptValue_spec (pu_accessToken input) key s) as (e & s1 & -> & Ho & _ & Hc1 & _).
  unfold bind at 1, cred_now. unfold bind at 1.
  match goal with |- context [encryptOption _ _ ?st] => set (s2 := st) end.
  destruct (encryptOption_spec (pu_refreshToken input) key s2) as (er & s3 & -> & _ & _ & Hc3 & _).
  unfold bind at 1, next_cred_id.
  set (p := by_user _ _ _). set (fresh := MkUserCredentialDoc _ _ _ _ _ _ _ _ _ _).
  unfold bind at 1, dup_key_or. cbn [userCredentials].
  assert (userCredentials s3 = userCredentials s) as -> by by rewrite Hc3.
  destruct (upsertOne p _ fresh _) as [c|] eqn:Hu; [|done].
  unfold bind, gets. cbn [modify userCredentials set_userCredentials].
  assert (p fresh = true) as Hpf by by apply by_user_spec.
  assert (forall x, p x = true -> p (apply_user_put input e er (clock (cred_clock s1)) x) = true)
    as Hput by (intros x Hx; exact Hx).
  pose proof (upsertOne_find_self _ _ _ _ _ Hu Hput Hpf) as Hfind. rewrite Hfind.
  destruct (findOne p (userCredentials s)) as [old|]; cbn [ret]; intros [= <- <-];
    (eexists; split; [exact Hfind|]; by split_and!).
Qed.

(** A user credential reads back for its workspace, person and base
    URL. *)
Theorem put_get_user_credential key input s id s' :
  putUserCredential key input s = (Ok id, s') ->
  getUserCredential key (pu_workspaceUuid input) (pu_hulyPersonUuid input)
    (Some (pu_gitlabBaseUrl input)) s' =
  (Ok (Some (MkUserToken (pu_accessToken input) (pu_expiresAt input) (pu_username input)
               (pu_gitlabBaseUrl input))), s').
Proof.
  intros (d & Hf & _ & Ho & Ht & Hn & _)%putUserCredential_stored.
  unfold getUserCredential, bind, gets; cbv beta iota.
  unfold by_user in Hf at 1. rewrite Hf, Ho, Ht, Hn. do 4 f_equal.
  rewrite findOne_scan in Hf. by apply js_find_Some in Hf as [_ (_ & _ & ->)%by_user_spec].
Qed.

(** Signing in again does not lift the expired mark: once a user
    credential is marked expired (a permanent refresh failure), storing a
    new token for the same user keeps it marked, so the refresh loop, which
    selects unmarked documents, ignores it for good. *)
Theorem put_user_credential_keeps_expired key input s id s' old :
  findOne (by_user (pu_workspaceUuid input) (pu_hulyPersonUuid input) (pu_gitlabBaseUrl input))
    (userCredentials s) = Some old ->
  uc_expired old = true ->
  putUserCredential key input s = (Ok id, s') ->
  exists d, findOne (by_user (pu_workspaceUuid input) (pu_hulyPersonUuid input)
              (pu_gitlabBaseUrl input)) (userCredentials s') = Some d /\
    opens key (uc_secret d) (pu_accessToken input) /\ uc_expired d = true.
Proof.
  intros Hold Hexp (d & Hf & _ & Ho & _ & _ & Hm)%putUserCredential_stored.
  rewrite Hold in Hm. exists d. destruct Hm as [_ ->]. done.
Qed.
End CredentialLaws.

(** ** Closed examples

    A stand-in cipher that tags the plaintext with the key. *)
#[export] Instance toy_cipher : Cipher.
Proof.
  refine {| gcm_encrypt := fun key iv p => (p, key);
            gcm_decrypt := fun key iv c t => if bool_decide (t = key) then Some c else None;
            base64 := fun s => s; unbase64 := fun s => s; randomIv := fun n => pretty n |}.
  - intros key iv p. cbn. by rewrite bool_decide_eq_true_2.
  - done.
Defined.

Definition empty_creds : Creds list := MkCreds [] [] 0 0 0.

Definition sample_input : PutCredentialInput :=
  MkPutCredentialInput CkOauth "token" (Some (Some 9%Z)) (Some "refresh") None None.

Lemma put_get_credential_witness :
  let s' := (putCredential "key" sample_input empty_creds).2 in
  (putCredential "key" sample_input empty_creds).1 = Ok "oid-0" /\
  getCredential "key" "oid-0" s' =
    (Ok (Some (MkCredentialResult "token" CkOauth (Some (Some 9%Z)) (Some "refresh"))), s').
Proof.
  cbn zeta. split; [reflexivity|].
  apply (put_get_credential "key" sample_input empty_creds "oid-0"). reflexivity.
Defined.

Lemma rotate_get_credential_witness :
  let s := (putCredential "key" sample_input empty_creds).2 in
  let s' := (rotateCredential "key" "oid-0" (MkRotateCredentialInput "token2" None None) s).2 in
  getCredential "key" "oid-0" s' =
    (Ok (Some (MkCredentialResult "token2" CkOauth (Some (Some 9%Z)) (Some "refresh"))), s').
Proof.
  cbn zeta.
  apply (rotate_get_credential "key" "oid-0" (MkRotateCredentialInput "token2" None None)
    (putCredential "key" sample_input empty_creds).2 _
    (MkCredentialResult "token" CkOauth (Some (Some 9%Z)) (Some "refresh"))); reflexivity.
Defined.

Definition sample_user (token : string) : PutUserCredentialInput :=
  MkPutUserCredentialInput "ws" "person" "https://gitlab.com" "ann" token None None.

Lemma put_get_user_credential_witness :
  let s' := (putUserCredential "key" (sample_user "t1") empty_creds).2 in
  getUserCredential "key" "ws" "person" (Some "https://gitlab.com") s' =
    (Ok (Some (MkUserToken "t1" None "ann" "https://gitlab.com")), s').
Proof.
  cbn zeta. apply (put_get_user_credential "key" (sample_user "t1") empty_creds "oid-0"). reflexivity.
Defined.

Definition expired_user : UserCredentialDoc :=
  MkUserCredentialDoc "oid-7" "ws" "person" "https://gitlab.com" "ann"
    (MkEncrypted "old" "0" "key") None None 0%Z true.

Lemma put_user_credential_keeps_expired_witness :
  let s := MkCreds [] [expired_user] 0 0 0 in
  exists d, findOne (by_user "ws" "person" "https://gitlab.com")
      (userCredentials (putUserCredential "key" (sample_user "t2") s).2) = Some d /\
    opens "key" (uc_secret d) "t2" (Coll := list) /\ uc_expired d = true.
Proof.
  cbn zeta.
  apply (put_user_credential_keeps_expired "key" (sample_user "t2")
    (MkCreds [] [expired_user] 0 0 0) "oid-7" _ expired_user); reflexivity.
Defined.
