(* ===== verification/Engine.v ===== *)
(** * The sync engine (src/sync/engine.ts, src/sync/types.ts)

    [SyncEngine] dispatches remote, local and backfill events to the manager
    registered for their kind.  Its state [Engine] holds the registered
    managers, the store, the shared circuit breaker, the event queue with its
    running processor calls ([Queue.World]) and whatever else the managers
    act on ([ext]).  A manager is a value of [SyncManager], the interface of
    types.ts: any computation over the store and [ext], so the theorems hold
    for every manager, with [quiet] stating the one thing they may not do.

    [dispatch] is the processor of the queue: one step of the running system
    ([engine_step]) runs it for one of the running calls and settles it. *)

From S2P Require Import Prelude JsMap JsString JsVal Platform Conflict Breaker Mongo Store Queue.
Open Scope string_scope.
Open Scope list_scope.
Open Scope nat_scope.

Definition INFLIGHT_MAX_AGE_MS : Z := 60 * 60 * 1000.

Inductive SyncEvent :=
  | EvRemote (binding : string) (payload : record) (eventId version : string)
  | EvLocal (binding doc : string) (change : record)
  | EvBackfill (binding : string) (since : option jsdate).

Definition ev_binding (e : SyncEvent) : string :=
  match e with EvRemote b _ _ _ | EvLocal b _ _ | EvBackfill b _ => b end.

Record QueueEntry := MkQueueEntry {
  qe_event : SyncEvent;
  qe_kind : string;
  qe_inflightId : option string
}.

Record SyncContext := MkSyncContext { ctx_workspaceUuid : string }.

(** How the database treats the two kinds of statements of [dispatch]: the
    read of the binding and the removal of the inflight document.  [Some e]:
    the statement rejects with [e]. *)
Record DbFaults := MkDbFaults {
  df_read : option exn;
  df_delete : option exn
}.

Definition answering : DbFaults := MkDbFaults None None.

Section Engine.
Context {Coll : Type -> Type} `{Mongo Coll} {P : Platform} {X : Type}.

Abbreviation MM := (M (Store Coll * X)).

(** The interface [SyncManager]; [resourceKey] is optional. *)
Record SyncManager := MkSyncManager {
  kind : string;
  applyRemote : SyncContext -> string -> record -> MM unit;
  applyLocal : SyncContext -> string -> string -> record -> MM unit;
  backfill : SyncContext -> string -> option jsdate -> MM unit;
  resourceKey : option (record -> option string)
}.

Record Engine := MkEngine {
  managers : jsmap string SyncManager;
  store : Store Coll;
  brk : breaker;
  world : World QueueEntry;
  ext : X;
  readings : nat;
  ids : nat
}.

Definition set_store (s : Store Coll) (e : Engine) : Engine :=
  MkEngine (managers e) s (brk e) (world e) (ext e) (readings e) (ids e).
Definition set_ext (x : X) (e : Engine) : Engine :=
  MkEngine (managers e) (store e) (brk e) (world e) x (readings e) (ids e).
Definition set_brk (b : breaker) (e : Engine) : Engine :=
  MkEngine (managers e) (store e) b (world e) (ext e) (readings e) (ids e).
Definition set_world (w : World QueueEntry) (e : Engine) : Engine :=
  MkEngine (managers e) (store e) (brk e) w (ext e) (readings e) (ids e).

(** ** Effects *)

Definition read_clock : M Engine Z := fun e =>
  (Ok (clock (readings e)),
   MkEngine (managers e) (store e) (brk e) (world e) (ext e) (S (readings e)) (ids e)).

Definition fresh_oid : M Engine string := fun e =>
  (Ok (freshObjectId (ids e)),
   MkEngine (managers e) (store e) (brk e) (world e) (ext e) (readings e) (S (ids e))).

Definition on_store {A} (m : M (Store Coll) A) : M Engine A := fun e =>
  let '(r, s) := m (store e) in (r, set_store s e).

Definition on_manager {A} (m : MM A) : M Engine A := fun e =>
  let '(r, (s, x)) := m (store e, ext e) in (r, set_ext x (set_store s e)).

Definition enqueue_entry (key : string) (entry : QueueEntry) : M Engine unit :=
  modify (fun e => set_world (do_enqueue key entry (world e)) e).

(** ** Operations *)

Definition register (manager : SyncManager) : M Engine unit :=
  modify (fun e => MkEngine (jset (kind manager) manager (managers e)) (store e) (brk e)
                     (world e) (ext e) (readings e) (ids e)).

Definition resourceKeyForKind (ms : jsmap string SyncManager) (kind : string) (r : record)
    : string :=
  match jget kind ms with
  | Some manager =>
      match resourceKey manager with
      | Some f => default "*" (f r)
      | None => "*"
      end
  | None => "*"
  end.

(** [`${binding}/${resourceKey}`] *)
Definition queueKey (binding resourceKey : string) : string :=
  binding +:+ "/" +:+ resourceKey.

(** [enqueueWebhookEvent] after the duplicate check. *)
Definition enqueue_new_webhook_event (binding kind : string) (r : record)
    (eventId version : string) : M Engine unit :=
  let event := EvRemote binding r eventId version in
  let! ms := gets managers in
  let key := queueKey binding (resourceKeyForKind ms kind r) in
  let! oid := fresh_oid in
  let! now := read_clock in
  let! inflightId := on_store (createInflight oid now binding ("remote:" +:+ kind)
    [("eventId", VStr eventId); ("version", VStr version); ("record", VObj r)]) in
  enqueue_entry key (MkQueueEntry event kind (Some inflightId)).

Definition enqueueWebhookEvent (binding kind : string) (r : record) (eventId version : string)
    : M Engine unit :=
  let! now := read_clock in
  let! isDup := on_store (checkAndMarkSeen now binding eventId version) in
  if (isDup : bool) then ret tt else enqueue_new_webhook_event binding kind r eventId version.

Definition enqueueLocalEvent (binding kind doc : string) (change : record) : M Engine unit :=
  enqueue_entry (queueKey binding (kind +:+ ":" +:+ doc))
    (MkQueueEntry (EvLocal binding doc change) kind None).

Definition enqueueBackfill (binding : string) (since : option jsdate) : M Engine unit :=
  let! ms := gets managers in
  forM_ (jkeys ms) (fun kind =>
    enqueue_entry (queueKey binding ("backfill:" +:+ kind))
      (MkQueueEntry (EvBackfill binding since) kind None)).

(** What [start] makes of an inflight operation: the queue key and entry it
    is resumed as, or [None] when its type is unknown. *)
Definition recover_op (ms : jsmap string SyncManager) (op : InflightDoc)
    : option (string * QueueEntry) :=
  match after_prefix "remote:" (if_op op) with
  | Some kind =>
      let r := record_or_empty (field "record" (if_payload op)) in
      let eventId := string_or (if_id op) (field "eventId" (if_payload op)) in
      let version := string_or "0" (field "version" (if_payload op)) in
      Some (queueKey (if_bindingId op) (resourceKeyForKind ms kind r),
            MkQueueEntry (EvRemote (if_bindingId op) r eventId version) kind (Some (if_id op)))
  | None =>
      match after_prefix "local:" (if_op op) with
      | Some kind =>
          let doc := string_or "" (field "doc" (if_payload op)) in
          let change := record_or_empty (field "change" (if_payload op)) in
          Some (queueKey (if_bindingId op) (kind +:+ ":" +:+ doc),
                MkQueueEntry (EvLocal (if_bindingId op) doc change) kind (Some (if_id op)))
      | None => None
      end
  end.

Definition start_op (cutoff : Z) (op : InflightDoc) : M Engine unit :=
  if (if_startedAt op <? cutoff)%Z then on_store (deleteInflight (if_id op))
  else
    let! ms := gets managers in
    match recover_op ms op with
    | Some (key, entry) => enqueue_entry key entry
    | None => on_store (deleteInflight (if_id op))
    end.

Definition start : M Engine unit :=
  let! ops := on_store (listInflight None) in
  let! now := read_clock in
  forM_ ops (start_op (now - INFLIGHT_MAX_AGE_MS)).

(** ** dispatch *)

(** A statement of the database: it answers, or it rejects and is not
    executed. *)
Definition on_database {A} (fault : option exn) (m : M (Store Coll) A) : M Engine A :=
  match fault with
  | None => on_store m
  | Some ex => throw ex
  end.

Definition drop_inflight (db : DbFaults) (entry : QueueEntry) : M Engine unit :=
  match qe_inflightId entry with
  | Some id => on_database (df_delete db) (deleteInflight id)
  | None => ret tt
  end.

(** The workspace of the binding, or the binding id itself. *)
Definition workspace_of (db : DbFaults) (binding : string) : M Engine string :=
  try_catch
    (let! bindingDoc := on_database (df_read db) (getBinding binding) in
     ret (match bindingDoc with Some d => bd_workspaceUuid d | None => binding end))
    (fun _ => ret binding).

Definition call_manager (manager : SyncManager) (ctx : SyncContext) (event : SyncEvent)
    : MM unit :=
  match event with
  | EvRemote binding r _ _ => applyRemote manager ctx binding r
  | EvLocal binding doc change => applyLocal manager ctx binding doc change
  | EvBackfill binding since => backfill manager ctx binding since
  end.

Definition breaker_is_open (binding : string) : M Engine bool :=
  let! now := read_clock in
  fun e => let '(o, b) := isOpen now binding (brk e) in (Ok o, set_brk b e).

Definition record_success (binding : string) : M Engine unit :=
  let! now := read_clock in
  modify (fun e => set_brk (recordSuccess now binding (brk e)) e).

Definition record_failure (binding : string) : M Engine unit :=
  let! now1 := read_clock in
  let! now2 := read_clock in
  modify (fun e => set_brk (recordFailure now1 now2 binding (brk e)) e).

Definition dispatch (db : DbFaults) (entry : QueueEntry) : M Engine unit :=
  let event := qe_event entry in
  let binding := ev_binding event in
  let! is_open := breaker_is_open binding in
  if (is_open : bool) then drop_inflight db entry
  else
    let! ms := gets managers in
    match jget (qe_kind entry) ms with
    | None => drop_inflight db entry
    | Some manager =>
        let! workspaceUuid := workspace_of db binding in
        finally
          (try_catch
             (on_manager (call_manager manager (MkSyncContext workspaceUuid) event) ;;!
              record_success binding)
             (fun _ => record_failure binding))
          (drop_inflight db entry)
    end.

(** [stop]: [drainAll] on the queue, whose waiters are [w], [w + 1], ... *)
Definition stop (w : nat) : M Engine unit :=
  modify (fun e => set_world (perform (drainAll w (queue (world e))) (world e)) e).

(** ** The running engine *)

(** The [i]-th running processor call runs to its end and settles: the
    queue swallows a rejection, so a rejecting call settles as well.  The
    running system is taken with a database that answers. *)
Definition process (i : nat) (e : Engine) : Engine :=
  match running (world e) !! i with
  | None => e
  | Some (_, entry) =>
      let e' := (dispatch answering entry e).2 in set_world (do_settle i (world e')) e'
  end.

Inductive engine_step : Engine -> Engine -> Prop :=
  | es_webhook e binding kind r eventId version :
      engine_step e (enqueueWebhookEvent binding kind r eventId version e).2
  | es_local e binding kind doc change :
      engine_step e (enqueueLocalEvent binding kind doc change e).2
  | es_backfill e binding since : engine_step e (enqueueBackfill binding since e).2
  | es_process e i entry : running (world e) !! i = Some entry -> engine_step e (process i e).

Inductive engine_reach (e0 : Engine) : Engine -> Prop :=
  | er_refl : engine_reach e0 e0
  | er_step e e' : engine_reach e0 e -> engine_step e e' -> engine_reach e0 e'.

(** The process dies: only the store (and the outside world) survives; the
    next process starts with the same managers, a closed breaker and an
    empty queue. *)
Definition crash (maxKeys : nat) (e : Engine) : Engine :=
  MkEngine (managers e) (store e) [] (init maxKeys) (ext e) (readings e) (ids e).
End Engine.

Arguments SyncManager : clear implicits.
Arguments Engine : clear implicits.

(** ** Lemmas on the effects *)

Section EngineLaws.
Context {Coll : Type -> Type} `{HL : MongoLaws Coll} {P : Platform} {X : Type}.
Implicit Types (e : Engine Coll X) (entry : QueueEntry).

(** The ids a queue entry carries are ids of documents. *)
Definition entry_ok entry : Prop :=
  match qe_inflightId entry with Some id => newObjectId id = Some id | None => True end.

(** The store without the entry's inflight document. *)
Definition store_drop entry (s : Store Coll) : Store Coll :=
  match qe_inflightId entry with
  | Some id => set_inflight (deleteOne (fun d => bool_decide (if_id d = id)) (inflight s)) s
  | None => s
  end.

Lemma set_store_same e : set_store (store e) e = e.
Proof. by destruct e. Qed.

(** The outcome of the removal, and the store after it. *)
Definition drop_outcome (db : DbFaults) entry : res unit :=
  match qe_inflightId entry, df_delete db with
  | Some _, Some ex => Throw ex
  | _, _ => Ok tt
  end.

Definition store_dropped (db : DbFaults) entry (s : Store Coll) : Store Coll :=
  match df_delete db with
  | Some _ => s
  | None => store_drop entry s
  end.

Lemma drop_inflight_eq db entry e :
  entry_ok entry ->
  drop_inflight db entry e = (drop_outcome db entry, set_store (store_dropped db entry (store e)) e).
Proof.
  unfold entry_ok, drop_inflight, drop_outcome, store_dropped, store_drop, on_database, on_store, deleteInflight,
    with_object_id.
  destruct (qe_inflightId entry) as [id|], (df_delete db) as [ex|]; rewrite ?set_store_same; try done.
  by intros ->.
Qed.

(** The workspace [dispatch] passes to a manager. *)
Definition workspace_in (binding : string) (s : Store Coll) : string :=
  match newObjectId binding with
  | Some oid =>
      match findOne (fun d => bool_decide (bd_id d = oid)) (bindings s) with
      | Some d => bd_workspaceUuid d
      | None => binding
      end
  | None => binding
  end.

Definition workspace_seen (db : DbFaults) (binding : string) (s : Store Coll) : string :=
  match df_read db with
  | Some _ => binding
  | None => workspace_in binding s
  end.

Lemma workspace_of_eq db binding e :
  workspace_of db binding e = (Ok (workspace_seen db binding (store e)), e).
Proof.
  unfold workspace_of, workspace_seen, workspace_in, on_database, on_store, getBinding, with_object_id.
  destruct (df_read db); [done|]. destruct (newObjectId binding) as [oid|]; cbn; rewrite set_store_same; [|done].
  by destruct (findOne _ _).
Qed.

(** What [dispatch] hands to a manager and what the manager answers;
    [None] when the event is dropped. *)
Definition manager_outcome_on (db : DbFaults) entry e : option (res unit * (Store Coll * X)) :=
  let binding := ev_binding (qe_event entry) in
  if bool_decide (state (refresh (clock (readings e)) (entry_of binding (brk e))) = open) then None
  else
    match jget (qe_kind entry) (managers e) with
    | None => None
    | Some m =>
        Some (call_manager m (MkSyncContext (workspace_seen db binding (store e))) (qe_event entry)
                (store e, ext e))
    end.

Definition manager_outcome entry e : option (res unit * (Store Coll * X)) :=
  let binding := ev_binding (qe_event entry) in
  if bool_decide (state (refresh (clock (readings e)) (entry_of binding (brk e))) = open) then None
  else
    match jget (qe_kind entry) (managers e) with
    | None => None
    | Some m =>
        Some (call_manager m (MkSyncContext (workspace_in binding (store e))) (qe_event entry)
                (store e, ext e))
    end.

(** The breaker operations of one [dispatch]: the read of [isOpen], then
    one outcome if a manager was called. *)
Definition breaker_ops (db : DbFaults) entry e : list op :=
  OpGetState (clock (readings e)) ::
  match manager_outcome_on db entry e with
  | None => []
  | Some (Ok _, _) => [OpSuccess (clock (S (readings e)))]
  | Some (Throw _, _) => [OpFailure (clock (S (readings e))) (clock (S (S (readings e))))]
  end.

Lemma dispatch_on_eq db entry e :
  entry_ok entry ->
  let binding := ev_binding (qe_event entry) in
  let '(s, x) := match manager_outcome_on db entry e with
                 | Some (_, (s, x)) => (s, x) | None => (store e, ext e) end in
  exists n, dispatch db entry e =
    (drop_outcome db entry, MkEngine (managers e) (store_dropped db entry s)
              (run_ops binding (breaker_ops db entry e) (brk e)) (world e) x n (ids e)).
Proof.
  intros Hok binding. unfold dispatch, breaker_ops, manager_outcome_on. fold binding.
  unfold breaker_is_open, isOpen, bind, read_clock. cbn [brk readings].
  rewrite <- (getState_fst (clock (readings e)) binding (brk e)).
  destruct (getState _ _ (brk e)) as [st b] eqn:Eg. cbn [fst].
  assert (b = apply_op binding (OpGetState (clock (readings e))) (brk e)) as Eb.
  { cbn. by rewrite Eg. }
  destruct (bool_decide (st = open)) eqn:Eo.
  { eexists. rewrite drop_inflight_eq by done. cbn -[store_dropped drop_outcome]. by rewrite Eb. }
  unfold gets, set_brk. cbn [managers].
  destruct (jget (qe_kind entry) (managers e)) as [m|].
  2:{ eexists. rewrite drop_inflight_eq by done. cbn -[store_dropped drop_outcome]. by rewrite Eb. }
  rewrite workspace_of_eq. unfold finally, try_catch, on_manager. cbn [store ext].
  destruct (call_manager _ _ _ _) as [[[]|ex] [s x]] eqn:Ec; cbn -[store_dropped drop_inflight run_ops];
    (eexists; rewrite drop_inflight_eq by done; cbn -[store_dropped drop_outcome];
     rewrite Eb; by destruct (drop_outcome db entry) as [[]|]).
Qed.

(** With a database that answers, [dispatch] never rejects. *)
Lemma dispatch_eq entry e :
  entry_ok entry ->
  let binding := ev_binding (qe_event entry) in
  let '(s, x) := match manager_outcome entry e with
                 | Some (_, (s, x)) => (s, x) | None => (store e, ext e) end in
  exists n, dispatch answering entry e =
    (Ok tt, MkEngine (managers e) (store_drop entry s)
              (run_ops binding (breaker_ops answering entry e) (brk e)) (world e) x n (ids e)).
Proof.
  intros Hok. pose proof (dispatch_on_eq answering entry e Hok) as Hd.
  assert (drop_outcome answering entry = Ok tt) as Ed.
  { unfold drop_outcome. by destruct (qe_inflightId entry). }
  rewrite Ed in Hd. exact Hd.
Qed.

(** ** Recovery *)

Definition op_ids_ok (l : list InflightDoc) : Prop :=
  forall d, d ∈ l -> newObjectId (if_id d) = Some (if_id d).

(** What [start] enqueues for an operation; [None] for one it deletes. *)
Definition resumed (ms : jsmap string (SyncManager Coll X)) (cutoff : Z) (op : InflightDoc)
    : option (string * QueueEntry) :=
  if (if_startedAt op <? cutoff)%Z then None else recover_op ms op.

Definition kept (ms : jsmap string (SyncManager Coll X)) (cutoff : Z) (op : InflightDoc) : bool :=
  match resumed ms cutoff op with Some _ => true | None => false end.

(** One step of [start] and a list of them, in closed form. *)
Definition start_step (ms : jsmap string (SyncManager Coll X)) cutoff e (op : InflightDoc)
    : Engine Coll X :=
  match resumed ms cutoff op with
  | Some (key, entry) => set_world (do_enqueue key entry (world e)) e
  | None => set_store (set_inflight
      (deleteOne (fun d => bool_decide (if_id d = if_id op)) (inflight (store e))) (store e)) e
  end.

Definition start_effect (ms : jsmap string (SyncManager Coll X)) cutoff (ops : list InflightDoc) e
    : Engine Coll X := fold_left (start_step ms cutoff) ops e.

Lemma start_op_eq cutoff op e :
  newObjectId (if_id op) = Some (if_id op) ->
  start_op cutoff op e = (Ok tt, start_step (managers e) cutoff e op).
Proof.
  intros Hop. unfold start_op, start_step, resumed.
  assert (on_store (deleteInflight (if_id op)) e =
    (Ok tt, set_store (set_inflight (deleteOne (fun d => bool_decide (if_id d = if_id op))
              (inflight (store e))) (store e)) e)) as Hdel.
  { unfold on_store, deleteInflight, with_object_id. by rewrite Hop. }
  destruct (if_startedAt op <? cutoff)%Z; [done|]. unfold bind, gets.
  by destruct (recover_op (managers e) op) as [[key entry]|].
Qed.

Lemma start_step_managers ms cutoff e op : managers (start_step ms cutoff e op) = managers e.
Proof. unfold start_step. by destruct (resumed ms cutoff op) as [[]|]. Qed.

Lemma start_ops_eq cutoff ops e :
  op_ids_ok ops -> forM_ ops (start_op cutoff) e = (Ok tt, start_effect (managers e) cutoff ops e).
Proof.
  revert e. induction ops as [|op ops IH]; intros e Hids; [done|].
  assert (newObjectId (if_id op) = Some (if_id op)) as Hop by (apply Hids; left).
  cbn [forM_]. rewrite (bind_ok _ _ _ _ _ (start_op_eq cutoff op e Hop)).
  rewrite IH by (intros d Hd; apply Hids; by right). by rewrite start_step_managers.
Qed.

Lemma accepted_enqueue key (entry : QueueEntry) w :
  accepted (do_enqueue key entry w) = accepted w ++ [(key, entry)].
Proof. done. Qed.

Lemma start_effect_accepted ms cutoff ops e :
  accepted (world (start_effect ms cutoff ops e)) =
  accepted (world e) ++ omap (resumed ms cutoff) ops.
Proof.
  revert e. induction ops as [|op ops IH]; intros e; [by rewrite app_nil_r|].
  unfold start_effect in *. cbn [fold_left omap list_omap]. rewrite IH. unfold start_step.
  destruct (resumed ms cutoff op) as [[key entry]|]; [|done].
  cbn [world set_world]. rewrite accepted_enqueue, <- app_assoc. done.
Qed.

Lemma start_effect_frame ms cutoff ops e :
  let e' := start_effect ms cutoff ops e in
  managers e' = managers e /\ brk e' = brk e /\ ext e' = ext e /\
  readings e' = readings e /\ ids e' = ids e /\
  exists c, store e' = set_inflight c (store e).
Proof.
  revert e. induction ops as [|op ops IH]; intros e.
  - split_and!; try done. exists (inflight (store e)). by destruct e as [? []].
  - unfold start_effect in *. cbn [fold_left].
    destruct (IH (start_step ms cutoff e op)) as (E1&E2&E3&E4&E5&c&E6).
    rewrite E1, E2, E3, E4, E5, E6. unfold start_step.
    destruct (resumed ms cutoff op) as [[key entry]|]; split_and!; try done; by exists c.
Qed.

Lemma remove_first_filter (p : InflightDoc -> bool) l d :
  index_ok l -> (forall x, p x = bool_decide (if_id x = if_id d)) ->
  remove_first p l = List.filter (fun x => negb (p x)) l.
Proof.
  intros Hl Hp. induction l as [|y l IH]; cbn; [done|]. destruct Hl as [Hy Hl].
  destruct (p y) eqn:Ey; cbn; [|by rewrite IH].
  symmetry. rewrite <- (forallb_filter_id (fun x => negb (p x)) l) at 2; [done|].
  apply forallb_forall. intros x Hx. specialize (Hy x ltac:(by apply list_elem_of_In)).
  cbn in Hy. rewrite Hp in Ey |- *. reflect_bools. apply negb_true_iff, bool_decide_eq_false. congruence.
Qed.

Lemma start_effect_inflight ms cutoff ops e :
  index_ok (scan (inflight (store e))) ->
  scan (inflight (store (start_effect ms cutoff ops e))) =
  List.filter (fun d => negb (existsb (fun op =>
    negb (kept ms cutoff op) && bool_decide (if_id d = if_id op)) ops)) (scan (inflight (store e))).
Proof.
  revert e. induction ops as [|op ops IH]; intros e Hok.
  - cbn. by rewrite (forallb_filter_id _ _) by (apply forallb_forall; done).
  - unfold start_effect in *. cbn [fold_left existsb]. unfold kept at 1, start_step at 2.
    destruct (resumed ms cutoff op) as [[key entry]|].
    + by rewrite IH.
    + rewrite IH; cbn [store set_store inflight set_inflight]; [|by apply deleteOne_ok].
      rewrite deleteOne_scan, (remove_first_filter _ _ op) by done.
      rewrite filter_twice. cbn [negb andb]. apply List.filter_ext. intros d.
      by rewrite negb_orb.
Qed.

(** The removed document is gone. *)
Lemma store_drop_gone entry id (s : Store Coll) d :
  qe_inflightId entry = Some id -> index_ok (scan (inflight s)) ->
  d ∈ scan (inflight (store_drop entry s)) -> if_id d <> id.
Proof.
  intros Hid Hs Hin E. unfold store_drop in Hin. rewrite Hid in Hin.
  cbn [inflight set_inflight] in Hin. rewrite deleteOne_scan in Hin.
  rewrite (remove_first_filter _ _ d) in Hin; [|done|by rewrite <- E].
  apply list_elem_of_In, filter_In in Hin as [_ Hin].
  apply negb_true_iff, bool_decide_eq_false in Hin. done.
Qed.

(** ** Theorems *)

(** C7: dispatch drops the event when the breaker is open or no manager
    handles its kind, and otherwise calls the manager exactly once, with the
    workspace of the binding document or, when that cannot be read, the
    binding id.  The breaker of the event's binding takes the step of that
    outcome in the abstract machine and no other binding's entry changes;
    queue and managers stay; a manager's exception is never passed on.  On
    every path - drop, success or manager failure - dispatch then removes
    the event's inflight document: when the database answers, the document
    is gone and dispatch resolves; when the removal rejects, dispatch
    rejects with that error, the document stays in the store (the next start
    resumes it) and all the other effects are the same; an event without
    such a document never rejects. *)
Theorem dispatch_spec db entry e :
  entry_ok entry -> (forall b, wf_entry (entry_of b (brk e))) ->
  let binding := ev_binding (qe_event entry) in
  let '(s, x) := match manager_outcome_on db entry e with
                 | Some (_, (s, x)) => (s, x) | None => (store e, ext e) end in
  exists r e', dispatch db entry e = (r, e') /\
    managers e' = managers e /\ world e' = world e /\ ext e' = x /\
    abs (entry_of binding (brk e')) =
      fold_left (fun st o => spec_step o st) (breaker_ops db entry e) (abs (entry_of binding (brk e))) /\
    (forall b, b <> binding -> entry_of b (brk e') = entry_of b (brk e)) /\
    match qe_inflightId entry, df_delete db with
    | None, _ => r = Ok tt /\ store e' = s
    | Some _, Some ex => r = Throw ex /\ store e' = s
    | Some id, None =>
        r = Ok tt /\ store e' = store_drop entry s /\
        (index_ok (scan (inflight s)) -> forall d, d ∈ scan (inflight (store e')) -> if_id d <> id)
    end.
Proof.
  intros Hok Hwf binding. pose proof (dispatch_on_eq db entry e Hok) as Hd. cbn zeta in Hd.
  fold binding in Hd. destruct (match manager_outcome_on db entry e with Some _ => _ | None => _ end) as [s x].
  destruct Hd as [n Hd]. eexists _, _. split; [exact Hd|]. cbn [managers world store ext brk].
  do 3 (split; [done|]). split; [by rewrite entry_of_run_ops, abs_fold|].
  split; [intros b Hb; by rewrite entry_of_run_ops_ne|].
  unfold drop_outcome, store_dropped.
  destruct (qe_inflightId entry) as [id|] eqn:Hid, (df_delete db) as [ex|]; try done.
  - split; [done|split; [done|]]. intros Hs d. by apply store_drop_gone.
  - split; [done|]. unfold store_drop. by rewrite Hid.
Qed.

(** Start in closed form. *)
Lemma start_eq e :
  op_ids_ok (scan (inflight (store e))) ->
  start e = (Ok tt, start_effect (managers e) (clock (readings e) - INFLIGHT_MAX_AGE_MS)
    (scan (inflight (store e)))
    (MkEngine (managers e) (store e) (brk e) (world e) (ext e) (S (readings e)) (ids e))).
Proof.
  intros Hids. unfold start, bind, on_store, listInflight, gets, read_clock.
  rewrite find_docs_scan, forallb_filter_id by by apply forallb_forall.
  rewrite set_store_same. by rewrite start_ops_eq.
Qed.

(** Crash recovery: start resumes exactly the operations of the last
    hour whose type it knows, each once and in the order of the collection,
    deletes exactly the others, and changes nothing else of the store. *)
Theorem start_recovers e :
  index_ok (scan (inflight (store e))) -> op_ids_ok (scan (inflight (store e))) ->
  let cutoff := (clock (readings e) - INFLIGHT_MAX_AGE_MS)%Z in
  let ops := scan (inflight (store e)) in
  exists e', start e = (Ok tt, e') /\
    accepted (world e') = accepted (world e) ++ omap (resumed (managers e) cutoff) ops /\
    scan (inflight (store e')) = List.filter (kept (managers e) cutoff) ops /\
    bindings (store e') = bindings (store e) /\ cursors (store e') = cursors (store e) /\
    idmap (store e') = idmap (store e) /\ dedup (store e') = dedup (store e) /\
    brk e' = brk e /\ ext e' = ext e.
Proof.
  intros Hok Hids cutoff ops. eexists. split; [by apply start_eq|]. fold cutoff ops.
  set (e1 := MkEngine _ _ _ _ _ _ _).
  destruct (start_effect_frame (managers e) cutoff ops e1) as (_ & E1 & E2 & _ & _ & c & E3).
  rewrite E1, E2, E3. split_and!; try done.
  - by rewrite start_effect_accepted.
  - rewrite <- E3, start_effect_inflight by done. change (store e1) with (store e). fold ops.
    apply List.filter_ext_in. intros d Hd. apply list_elem_of_In in Hd.
    destruct (kept (managers e) cutoff d) eqn:Ek.
    + apply negb_true_iff, not_true_iff_false. intros (op & Hop & Hb)%existsb_exists.
      apply list_elem_of_In in Hop. apply andb_prop in Hb as [Hk Heq].
      apply (index_ok_unique ops d op Hok Hd Hop) in Heq as ->. by rewrite Ek in Hk.
    + apply negb_false_iff, existsb_exists. exists d. rewrite <- list_elem_of_In, Ek.
      split; [done|]. cbn. by apply bool_decide_eq_true.
Qed.

(** ** Webhook events *)

(** The inflight document and the queue entry of a new webhook event. *)
Definition webhook_op (id : string) (now : Z) (binding kind : string) (r : record)
    (eventId version : string) : InflightDoc :=
  MkInflightDoc id binding ("remote:" +:+ kind)
    [("eventId", VStr eventId); ("version", VStr version); ("record", VObj r)] now.

Definition webhook_entry (id binding kind : string) (r : record) (eventId version : string)
    : QueueEntry := MkQueueEntry (EvRemote binding r eventId version) kind (Some id).

Lemma recover_webhook_op ms id now binding kind r eventId version :
  recover_op ms (webhook_op id now binding kind r eventId version) =
  Some (queueKey binding (resourceKeyForKind (Coll := Coll) (X := X) ms kind r),
        webhook_entry id binding kind r eventId version).
Proof. unfold recover_op, webhook_op. cbn [if_op]. by rewrite after_prefix_app. Qed.

(** What [enqueueWebhookEvent] does: nothing but the clock reading for an
    event already recorded; otherwise the event is recorded and, unless the
    fresh id collides, written to the inflight collection and enqueued. *)
Lemma enqueueWebhookEvent_eq binding kind r eventId version e :
  let k := (binding, eventId, version) in
  exists s, (forall k', seen k' s <-> seen k' (store e) \/ k' = k) /\
    (exists c, s = set_dedup c (store e)) /\
    ((seen k (store e) /\
      enqueueWebhookEvent binding kind r eventId version e =
        (Ok tt, MkEngine (managers e) s (brk e) (world e) (ext e) (S (readings e)) (ids e))) \/
     (~ seen k (store e) /\
      let id := freshObjectId (ids e) in
      let op := webhook_op id (clock (S (readings e))) binding kind r eventId version in
      match insertOne op (inflight (store e)) with
      | Some c =>
          enqueueWebhookEvent binding kind r eventId version e =
            (Ok tt, MkEngine (managers e) (set_inflight c s) (brk e)
              (do_enqueue (queueKey binding (resourceKeyForKind (managers e) kind r))
                 (webhook_entry id binding kind r eventId version) (world e))
              (ext e) (S (S (readings e))) (S (ids e)))
      | None =>
          enqueueWebhookEvent binding kind r eventId version e =
            (Throw MongoDuplicateKey,
             MkEngine (managers e) s (brk e) (world e) (ext e) (S (S (readings e))) (S (ids e)))
      end)).
Proof.
  intros k. destruct (checkAndMarkSeen_spec (clock (readings e)) k (store e))
    as (b & s & E & Hb & Hs & Hc).
  unfold k in E. cbn [fst snd] in E. exists s. split; [done|]. split; [done|].
  assert (enqueueWebhookEvent binding kind r eventId version e =
    (if b then ret tt else enqueue_new_webhook_event binding kind r eventId version)
      (MkEngine (managers e) s (brk e) (world e) (ext e) (S (readings e)) (ids e))) as ->.
  { unfold enqueueWebhookEvent, read_clock, bind, on_store. cbn [store]. by rewrite E. }
  destruct b; [left|right]; (split; [naive_solver|]); [done|].
  destruct Hc as [c0 ->].
  unfold enqueue_new_webhook_event, bind, gets, fresh_oid, read_clock, on_store, createInflight,
    dup_key_or, webhook_op.
  cbn [managers store readings ids inflight set_dedup].
  by destruct (insertOne _ _).
Qed.

(** Durability: a webhook event that was accepted and whose process
    dies within the hour is enqueued again by the next [start], under the
    same key, with the same event, kind and inflight id. *)
Theorem webhook_survives_crash n e binding kind r eventId version e1 :
  ~ seen (binding, eventId, version) (store e) ->
  enqueueWebhookEvent binding kind r eventId version e = (Ok tt, e1) ->
  index_ok (scan (inflight (store e))) -> op_ids_ok (scan (inflight (store e))) ->
  (clock (readings e1) - clock (S (readings e)) <= INFLIGHT_MAX_AGE_MS)%Z ->
  exists key entry e2,
    accepted (world e1) = accepted (world e) ++ [(key, entry)] /\
    qe_event entry = EvRemote binding r eventId version /\ qe_kind entry = kind /\
    start (crash n e1) = (Ok tt, e2) /\ (key, entry) ∈ accepted (world e2).
Proof.
  intros Hnew He Hok Hids Hage.
  destruct (enqueueWebhookEvent_eq binding kind r eventId version e)
    as (s & _ & [c0 ->] & [[Hs _]|[_ Hm]]); [done|].
  cbn zeta in Hm. set (op := webhook_op _ _ _ _ _ _ _) in *.
  destruct (insertOne op (inflight (store e))) as [c|] eqn:Hi; rewrite He in Hm; [|done].
  injection Hm as ->. cbn [readings] in Hage.
  apply insertOne_Some in Hi as Hr. apply ref_insert_Some in Hr as [Hr _].
  pose proof (insertOne_ok _ _ _ Hok Hi) as Hok'.
  assert (op_ids_ok (scan c)) as Hids'.
  { rewrite Hr. intros d [Hd| ->%list_elem_of_singleton]%elem_of_app; [by apply Hids|].
    apply freshObjectId_hex. }
  do 3 eexists. split_and!; [done|done|done|by apply start_eq|].
  rewrite start_effect_accepted. cbn [crash world store managers readings inflight set_inflight].
  apply elem_of_app. right. rewrite Hr, omap_app. apply elem_of_app. right. cbn [omap list_omap].
  unfold resumed. replace (_ <? _)%Z with false by (symmetry; apply Z.ltb_ge; cbn; lia).
  unfold op. rewrite recover_webhook_op. left.
Qed.

(** The window this leaves: an event whose process dies after the
    dedup record is written and before the inflight document is, is lost -
    nothing is resumed for it, and when GitLab delivers it again it is
    dropped as a duplicate. *)
Theorem crash_after_mark_loses_event n e binding kind r eventId version s now :
  scan (inflight (store e)) = [] ->
  checkAndMarkSeen now binding eventId version (store e) = (Ok false, s) ->
  exists e1 e2, start (crash n (set_store s e)) = (Ok tt, e1) /\ accepted (world e1) = [] /\
    enqueueWebhookEvent binding kind r eventId version e1 = (Ok tt, e2) /\
    accepted (world e2) = [].
Proof.
  intros Hno Hmark.
  destruct (checkAndMarkSeen_spec now (binding, eventId, version) (store e))
    as (b & s' & Hm & _ & Hseen & c & Hc). cbn [fst snd] in Hm. rewrite Hmark in Hm.
  injection Hm as <- <-.
  assert (scan (inflight s) = []) as Hno' by by rewrite Hc.
  pose proof (start_eq (crash n (set_store s e))) as Hst. cbn [crash store set_store] in Hst.
  rewrite Hno' in Hst. specialize (Hst ltac:(by intros d ?%elem_of_nil)).
  eexists. destruct (enqueueWebhookEvent_eq binding kind r eventId version
    (start_effect (managers e) 0 [] (MkEngine (managers e) s [] (init n) (ext e) (S (readings e)) (ids e))))
    as (s2 & _ & _ & [[_ He]|[Hn _]]).
  - eexists. split_and!; [exact Hst|done|exact He|done].
  - exfalso. apply Hn. cbn. apply Hseen. by right.
Qed.

(** ** The running engine

    The contract between the engine and its managers: a manager leaves the
    engine's own collections alone.  (Records a manager hands back to the
    engine during a backfill are [es_webhook] steps of their own.) *)
Definition quiet (ms : jsmap string (SyncManager Coll X)) : Prop :=
  forall k m ctx ev s x, jget k ms = Some m ->
    let s' := (call_manager m ctx ev (s, x)).2.1 in
    dedup s' = dedup s /\ inflight s' = inflight s.

(** What [dispatch] does to the engine's own collections. *)
Lemma dispatch_quiet entry e :
  quiet (managers e) -> entry_ok entry ->
  exists e', dispatch answering entry e = (Ok tt, e') /\
    managers e' = managers e /\ world e' = world e /\ ids e' = ids e /\
    dedup (store e') = dedup (store e) /\
    inflight (store e') = inflight (store_drop entry (store e)).
Proof.
  intros Hq Hok. pose proof (dispatch_eq entry e Hok) as Hd. unfold manager_outcome in Hd.
  assert (forall s s' : Store Coll, dedup s = dedup s' -> inflight s = inflight s' ->
    dedup (store_drop entry s) = dedup s' /\
    inflight (store_drop entry s) = inflight (store_drop entry s')) as Hdrop.
  { intros s s' E1 E2. unfold store_drop. destruct (qe_inflightId entry); cbn; by rewrite ?E2. }
  destruct (bool_decide _); [|destruct (jget (qe_kind entry) (managers e)) as [m|] eqn:Em].
  - destruct Hd as [n ->]. eexists. split; [done|]. split_and!; try done; by apply Hdrop.
  - specialize (Hq _ _ (MkSyncContext (workspace_in (ev_binding (qe_event entry)) (store e)))
      (qe_event entry) (store e) (ext e) Em).
    destruct (call_manager _ _ _ _) as [r [s x]]. cbn in Hq. destruct Hq as [E1 E2].
    destruct Hd as [n ->]. eexists. split; [done|]. split_and!; try done; by apply Hdrop.
  - destruct Hd as [n ->]. eexists. split; [done|]. split_and!; try done; by apply Hdrop.
Qed.

(** The queue entries [enqueueLocalEvent] and [enqueueBackfill] add carry no
    inflight id and no event id. *)
Inductive plain_ext e : Engine Coll X -> Prop :=
  | pe_refl : plain_ext e e
  | pe_add e' key entry :
      plain_ext e e' -> qe_inflightId entry = None ->
      (forall b r ev v, qe_event entry <> EvRemote b r ev v) ->
      plain_ext e (set_world (do_enqueue key entry (world e')) e').

Lemma enqueueLocalEvent_plain b kind doc change e :
  plain_ext e (enqueueLocalEvent b kind doc change e).2.
Proof. unfold enqueueLocalEvent, enqueue_entry. apply pe_add; [apply pe_refl|done|done]. Qed.

Lemma enqueueBackfill_plain b since e : plain_ext e (enqueueBackfill b since e).2.
Proof.
  unfold enqueueBackfill, bind, gets. generalize (jkeys (managers e)). intros ks.
  assert (forall e', plain_ext e e' -> plain_ext e (forM_ ks (fun kind =>
    enqueue_entry (queueKey b ("backfill:" +:+ kind)) (MkQueueEntry (EvBackfill b since) kind None)) e').2)
    as Hall; [|apply Hall, pe_refl].
  induction ks as [|k ks IH]; intros e' He'; [done|].
  cbn [forM_]. unfold bind, enqueue_entry at 1, modify. apply IH. by apply pe_add.
Qed.

(** *** Deliveries *)

Definition remote_key (p : string * QueueEntry) : option event_key :=
  match qe_event p.2 with
  | EvRemote b _ ev v => Some (b, ev, v)
  | _ => None
  end.

(** How often an event was accepted into the queue. *)
Definition accept_count (k : event_key) (l : list (string * QueueEntry)) : nat :=
  length (List.filter (fun p => bool_decide (remote_key p = Some k)) l).

Definition once_inv (s0 : Store Coll) e : Prop :=
  forall k, (seen k s0 -> seen k (store e)) /\
    accept_count k (accepted (world e)) <= 1 /\
    (1 <= accept_count k (accepted (world e)) -> seen k (store e) /\ ~ seen k s0).

Lemma accept_count_app k l l' : accept_count k (l ++ l') = accept_count k l + accept_count k l'.
Proof. unfold accept_count. by rewrite List.filter_app, length_app. Qed.

Lemma plain_once s0 e e' : plain_ext e e' -> once_inv s0 e -> once_inv s0 e'.
Proof.
  induction 1 as [|e' key entry _ IH _ Hev]; [done|]. intros He k. specialize (IH He k).
  cbn [world store set_world]. rewrite accepted_enqueue, accept_count_app.
  assert (accept_count k [(key, entry)] = 0) as ->; [|by rewrite Nat.add_0_r].
  unfold accept_count, remote_key. cbn [List.filter snd].
  destruct (qe_event entry) eqn:E; [by destruct (Hev binding payload eventId version)|done|done].
Qed.

Lemma webhook_once s0 b kind r ev v e :
  once_inv s0 e -> once_inv s0 (enqueueWebhookEvent b kind r ev v e).2.
Proof.
  intros He. destruct (enqueueWebhookEvent_eq b kind r ev v e)
    as (s & Hs & _ & [[_ ->]|[Hn Hm]]); cbn zeta in *.
  - intros k. cbn [snd store world]. rewrite Hs. destruct (He k) as (?&?&?). naive_solver.
  - set (op := webhook_op _ _ _ _ _ _ _) in *.
    destruct (insertOne op (inflight (store e))) as [c|]; rewrite Hm; intros k;
      destruct (He k) as (H1 & H2 & H3); cbn [snd store world].
    2:{ rewrite Hs. naive_solver. }
    assert (seen k (set_inflight c s) <-> seen k (store e) \/ k = (b, ev, v)) as -> by apply Hs.
    rewrite accepted_enqueue, accept_count_app.
    assert (forall key id, accept_count k [(key, webhook_entry id b kind r ev v)] =
      if decide (k = (b, ev, v)) then 1 else 0) as ->.
    { intros key id. unfold accept_count, remote_key, webhook_entry. cbn [List.filter snd qe_event].
      case_bool_decide; destruct (decide _); naive_solver. }
    destruct (decide (k = (b, ev, v))) as [->|Hne]; [|naive_solver lia].
    assert (accept_count (b, ev, v) (accepted (world e)) = 0) as ->.
    { destruct (accept_count _ _) eqn:E; [done|]. destruct H3 as [? _]; [lia|done]. }
    split_and!; [naive_solver|lia|]. intros _. split; [by right|]. intros H0. by apply Hn, H1.
Qed.

(** *** Write-ahead

    The inflight ids of the items the queue has not finished. *)
Definition entry_id (p : string * QueueEntry) : option string := qe_inflightId p.2.

Record ahead_inv e : Prop := {
  ah_index : index_ok (scan (inflight (store e)));
  ah_hex : op_ids_ok (scan (inflight (store e)));
  ah_nodup : NoDup (omap entry_id (outstanding (world e)));
  ah_doc : forall p id, p ∈ outstanding (world e) -> entry_id p = Some id ->
    exists op, op ∈ scan (inflight (store e)) /\ if_id op = id /\
               recover_op (managers e) op = Some p
}.

Lemma elem_of_ids id (l : list (string * QueueEntry)) :
  id ∈ omap entry_id l <-> exists p, p ∈ l /\ entry_id p = Some id.
Proof. apply list_elem_of_omap. Qed.

Lemma NoDup_submseteq {A} (l l' : list A) : l ⊆+ l' -> NoDup l' -> NoDup l.
Proof.
  intros Hs Hn. apply submseteq_Permutation in Hs as [k Hk].
  rewrite Hk, NoDup_app in Hn. tauto.
Qed.

Lemma omap_submseteq (l l' : list (string * QueueEntry)) :
  l ⊆+ l' -> omap entry_id l ⊆+ omap entry_id l'.
Proof.
  intros Hs. apply submseteq_Permutation in Hs as [k Hk].
  rewrite Hk, omap_app. by apply submseteq_inserts_r.
Qed.

(** Fewer outstanding items and no document lost keep the invariant. *)
Lemma ahead_weaken e e' :
  ahead_inv e -> store e' = store e -> managers e' = managers e ->
  outstanding (world e') ⊆+ outstanding (world e) -> ahead_inv e'.
Proof.
  intros [H1 H2 H3 H4] Es Em Ho. split; rewrite ?Es, ?Em; try done.
  - eapply NoDup_submseteq; [by apply omap_submseteq|done].
  - intros p id Hp. apply H4. by eapply elem_of_submseteq.
Qed.

Lemma ahead_enqueue_none e e' key entry :
  ahead_inv e -> store e' = store e -> managers e' = managers e ->
  world e' = do_enqueue key entry (world e) -> qe_inflightId entry = None -> ahead_inv e'.
Proof.
  intros [H1 H2 H3 H4] Es Em Ew Hid.
  pose proof (outstanding_enqueue key entry (world e)) as Ho. rewrite <- Ew in Ho.
  split; rewrite ?Es, ?Em; try done.
  - eapply NoDup_submseteq; [by apply omap_submseteq|]. cbn [omap list_omap].
    unfold entry_id at 1. cbn [snd]. by rewrite Hid.
  - intros p id Hp Hpid. eapply elem_of_submseteq in Hp; [|exact Ho].
    apply elem_of_cons in Hp as [->|Hp]; [|by apply H4].
    unfold entry_id in Hpid. cbn in Hpid. congruence.
Qed.

Lemma plain_ahead e e' :
  plain_ext e e' -> ahead_inv e -> ahead_inv e' /\ managers e' = managers e.
Proof.
  induction 1 as [|e' key entry _ IH Hid _]; [done|]. intros He.
  destruct (IH He) as [He' Hm]. split; [|done]. by eapply ahead_enqueue_none.
Qed.

Lemma webhook_ahead b kind r ev v e :
  ahead_inv e -> ahead_inv (enqueueWebhookEvent b kind r ev v e).2 /\
  managers (enqueueWebhookEvent b kind r ev v e).2 = managers e.
Proof.
  intros He. destruct (enqueueWebhookEvent_eq b kind r ev v e)
    as (s & _ & [c0 ->] & [[_ ->]|[_ Hm]]); cbn zeta in *.
  { split; [|done]. by split; apply He. }
  set (op := webhook_op _ _ _ _ _ _ _) in *.
  destruct (insertOne op (inflight (store e))) as [c|] eqn:Hi; rewrite Hm; (split; [|done]);
    cbn [snd]; [|by split; apply He].
  apply insertOne_Some in Hi as Hr. apply ref_insert_Some in Hr as [Hr Hfresh].
  set (key := queueKey _ _). set (entry := webhook_entry _ _ _ _ _ _).
  pose proof (outstanding_enqueue key entry (world e)) as Ho.
  destruct He as [H1 H2 H3 H4].
  split; cbn [store world managers inflight set_inflight].
  - by eapply insertOne_ok.
  - rewrite Hr. intros d [Hd| ->%list_elem_of_singleton]%elem_of_app; [by apply H2|].
    apply freshObjectId_hex.
  - eapply NoDup_submseteq; [by apply omap_submseteq|]. cbn. apply NoDup_cons. split; [|done].
    intros (p & Hp & Hpid)%elem_of_ids. destruct (H4 _ _ Hp Hpid) as (o & Hin & Hid & _).
    specialize (Hfresh o Hin). cbn in Hfresh. rewrite Hid in Hfresh.
    by apply bool_decide_eq_false in Hfresh.
  - intros p id Hp Hpid. rewrite Hr. eapply elem_of_submseteq in Hp; [|exact Ho].
    apply elem_of_cons in Hp as [->|Hp].
    + exists op. split_and!; [apply elem_of_app; right; left| |apply recover_webhook_op].
      unfold entry_id in Hpid. cbn in Hpid. by injection Hpid.
    + destruct (H4 _ _ Hp Hpid) as (o & ? & ? & ?). exists o. split; [|done].
      apply elem_of_app. by left.
Qed.

Lemma process_ahead i p e :
  quiet (managers e) -> running (world e) !! i = Some p -> ahead_inv e ->
  ahead_inv (process i e) /\ managers (process i e) = managers e.
Proof.
  intros Hq Hi [H1 H2 H3 H4]. pose proof (outstanding_settle i p (world e) Hi) as Ho.
  destruct p as [key entry].
  assert (p_in : (key, entry) ∈ outstanding (world e)) by (rewrite <- Ho; left).
  assert (entry_ok entry) as Hok.
  { unfold entry_ok. destruct (qe_inflightId entry) as [id|] eqn:Hid; [|done].
    destruct (H4 _ id p_in Hid) as (op & Hop & <- & _). by apply H2. }
  unfold process. rewrite Hi.
  destruct (dispatch_quiet entry e Hq Hok) as (e' & -> & Em & Ew & _ & _ & Ei).
  cbn [snd set_world managers store world]. split; [|done].
  assert (scan (inflight (store e')) = List.filter
    (fun d => bool_decide (Some (if_id d) <> qe_inflightId entry)) (scan (inflight (store e)))) as Es.
  { rewrite Ei. unfold store_drop. destruct (qe_inflightId entry) as [id|] eqn:Hid.
    - cbn [inflight set_inflight]. destruct (H4 _ id p_in Hid) as (op & _ & Hop & _).
      rewrite deleteOne_scan, (remove_first_filter _ _ op) by (done || by rewrite Hop).
      apply List.filter_ext. intros d. apply eq_true_iff_eq.
      rewrite negb_true_iff, bool_decide_eq_false, bool_decide_eq_true. split; congruence.
    - rewrite forallb_filter_id; [done|]. by apply forallb_forall. }
  split; cbn [set_world managers store world].
  - rewrite Es. eapply index_ok_sublist; [apply filter_sublist_std|done].
  - intros d Hd. rewrite Es in Hd. apply list_elem_of_In, filter_In in Hd as [Hd _].
    apply H2. by apply list_elem_of_In.
  - rewrite Ew.
    eapply NoDup_submseteq; [|exact H3]. apply omap_submseteq. rewrite <- Ho.
    by apply submseteq_cons.
  - intros p id Hp Hpid. rewrite Ew in Hp.
    assert (p ∈ outstanding (world e)) as Hp' by (rewrite <- Ho; by right).
    destruct (H4 _ _ Hp' Hpid) as (op & Hop & Hid & Hrec). exists op.
    split_and!; [|done|by rewrite Em].
    rewrite Es. apply list_elem_of_In, filter_In. split; [by apply list_elem_of_In|].
    apply bool_decide_eq_true. rewrite Hid. intros E.
    rewrite <- Ho in H3. cbn [omap list_omap] in H3. unfold entry_id at 1 in H3. cbn [snd] in H3.
    rewrite <- E in H3. apply NoDup_cons in H3 as [Hn _]. apply Hn, elem_of_ids. by exists p.
Qed.

Lemma process_once s0 i p e :
  quiet (managers e) -> running (world e) !! i = Some p -> entry_ok p.2 ->
  once_inv s0 e -> once_inv s0 (process i e).
Proof.
  intros Hq Hi Hok He k. destruct p as [key entry]. unfold process. rewrite Hi.
  destruct (dispatch_quiet entry e Hq Hok) as (e' & -> & _ & Ew & _ & Ed & _).
  cbn [snd set_world store world]. rewrite Ew. unfold seen. rewrite Ed.
  unfold do_settle. rewrite Hi. apply He.
Qed.

(** An engine before its first event: an empty queue over a store whose
    inflight documents are well formed. *)
Record engine_init e : Prop := {
  in_quiet : quiet (managers e);
  in_accepted : accepted (world e) = [];
  in_outstanding : outstanding (world e) = [];
  in_index : index_ok (scan (inflight (store e)));
  in_hex : op_ids_ok (scan (inflight (store e)))
}.

Lemma engine_reach_inv e0 e :
  engine_init e0 -> engine_reach e0 e ->
  managers e = managers e0 /\ ahead_inv e /\ once_inv (store e0) e.
Proof.
  intros [Hq Ha Ho Hx Hh]. induction 1 as [|e e' _ (Em & He & Hc) Hs].
  - split_and!; [done| |].
    + split; rewrite ?Ho; try done; [apply NoDup_nil_2|by intros p id ?%elem_of_nil].
    + intros k. rewrite Ha. split_and!; [done|unfold accept_count; cbn; lia|]. unfold accept_count; cbn; lia.
  - rewrite <- Em in Hq. destruct Hs as [e b kind r ev v|e b kind doc change|e b since|e i p Hi].
    + destruct (webhook_ahead b kind r ev v e He) as [? ->]. split_and!; [done|done|].
      by apply webhook_once.
    + pose proof (enqueueLocalEvent_plain b kind doc change e) as Hp.
      destruct (plain_ahead _ _ Hp He) as [? ->]. split_and!; [done|done|].
      by eapply plain_once.
    + pose proof (enqueueBackfill_plain b since e) as Hp.
      destruct (plain_ahead _ _ Hp He) as [? ->]. split_and!; [done|done|].
      by eapply plain_once.
    + destruct (process_ahead i p e Hq Hi He) as [? ->]. split_and!; [done|done|].
      eapply process_once; [done|done| |done].
      unfold entry_ok. destruct (qe_inflightId p.2) as [id|] eqn:Hid; [|done].
      destruct (ah_doc _ He p id) as (op & Hop & <- & _); [|done|by apply (ah_hex _ He)].
      unfold outstanding. apply elem_of_app. left. by eapply list_elem_of_lookup_2.
Qed.

(** At most once: in any execution of the engine, however webhook,
    local and backfill events and their processing interleave, a webhook
    event enters the queue at most once, and not at all when an earlier
    process had recorded it. *)
Theorem engine_at_most_once e0 e k :
  engine_init e0 -> engine_reach e0 e ->
  accept_count k (accepted (world e)) <= 1 /\
  (seen k (store e0) -> accept_count k (accepted (world e)) = 0) /\
  (1 <= accept_count k (accepted (world e)) -> seen k (store e)).
Proof.
  intros H0 Hr. destruct (engine_reach_inv _ _ H0 Hr) as (_ & _ & Hc).
  destruct (Hc k) as (H1 & H2 & H3). split_and!; [done| |naive_solver].
  intros Hs. destruct (accept_count _ _); [done|]. destruct H3 as [_ []]; [lia|done].
Qed.

(** Write-ahead: at every point of an execution each event that still
    waits or runs and has an inflight id is held by its inflight document,
    so a crash at that point loses nothing: the next start (within the hour)
    enqueues it again, unchanged and under the same key. *)
Theorem engine_write_ahead e0 e key entry id :
  engine_init e0 -> engine_reach e0 e ->
  (key, entry) ∈ outstanding (world e) -> qe_inflightId entry = Some id ->
  exists op, op ∈ scan (inflight (store e)) /\ if_id op = id /\
    forall n, (clock (readings e) - if_startedAt op <= INFLIGHT_MAX_AGE_MS)%Z ->
      exists e2, start (crash n e) = (Ok tt, e2) /\ (key, entry) ∈ accepted (world e2).
Proof.
  intros H0 Hr Hp Hid. destruct (engine_reach_inv _ _ H0 Hr) as (Em & He & _).
  destruct (ah_doc _ He _ id Hp Hid) as (op & Hop & Hoid & Hrec).
  exists op. split_and!; [done|done|]. intros n Hage.
  eexists. split; [apply start_eq; apply (ah_hex _ He)|].
  rewrite start_effect_accepted. cbn [crash world store managers readings].
  apply elem_of_app. right. apply list_elem_of_omap. exists op. split; [done|].
  unfold resumed. replace (_ <? _)%Z with false by (symmetry; apply Z.ltb_ge; lia). done.
Qed.
End EngineLaws.

(** ** Closed examples *)

Definition noop_manager : SyncManager list unit :=
  MkSyncManager "issue" (fun _ _ _ => ret tt) (fun _ _ _ _ => throw (JsError "boom"))
    (fun _ _ _ => ret tt) (Some (fun r => match as_number (field "iid" r) with
                                          | Some n => Some ("issue:" +:+ pretty n)
                                          | None => None end)).

Definition sample_engine : Engine list unit :=
  (register noop_manager (MkEngine [] empty_store [] (init 1000) tt 0 0)).2.

Lemma sample_init : engine_init sample_engine.
Proof.
  split; try done; [|apply NoDup_nil_2 || by intros d ?%elem_of_nil].
  intros k m ctx ev s x. cbn. destruct (decide _); [|done]. intros [= <-].
  by destruct ev.
Qed.

Definition one_event : Engine list unit :=
  (enqueueWebhookEvent "oid-b" "issue" [("iid", VNum 7)] "evt" "v1" sample_engine).2.

Lemma one_event_reach : engine_reach sample_engine one_event.
Proof. eapply er_step; [apply er_refl|apply es_webhook]. Qed.

Lemma engine_at_most_once_witness :
  let e := (enqueueWebhookEvent "oid-b" "issue" [("iid", VNum 7)] "evt" "v1" one_event).2 in
  accept_count ("oid-b", "evt", "v1") (accepted (world e)) = 1 /\
  accept_count ("oid-b", "evt", "v1") (accepted (world e)) <= 1.
Proof.
  cbn zeta. split; [vm_compute; reflexivity|].
  apply (engine_at_most_once sample_engine); [exact sample_init|].
  eapply er_step; [exact one_event_reach|apply es_webhook].
Defined.

Lemma engine_write_ahead_witness :
  outstanding (world one_event) =
    [("oid-b/issue:7", webhook_entry "oid-0" "oid-b" "issue" [("iid", VNum 7)] "evt" "v1")] /\
  exists op, op ∈ scan (inflight (store one_event)) /\ if_id op = "oid-0" /\
    forall n, (clock (readings one_event) - if_startedAt op <= INFLIGHT_MAX_AGE_MS)%Z ->
      exists e2, start (crash n one_event) = (Ok tt, e2) /\
        ("oid-b/issue:7", webhook_entry "oid-0" "oid-b" "issue" [("iid", VNum 7)] "evt" "v1")
          ∈ accepted (world e2).
Proof.
  split; [vm_compute; reflexivity|].
  apply (engine_write_ahead sample_engine); [exact sample_init|exact one_event_reach| |reflexivity].
  vm_compute. left.
Defined.

Lemma webhook_survives_crash_witness :
  exists key entry e2,
    accepted (world one_event) = [] ++ [(key, entry)] /\
    qe_event entry = EvRemote "oid-b" [("iid", VNum 7)] "evt" "v1" /\ qe_kind entry = "issue" /\
    start (crash 1000 one_event) = (Ok tt, e2) /\ (key, entry) ∈ accepted (world e2).
Proof.
  apply (webhook_survives_crash 1000 sample_engine "oid-b" "issue" [("iid", VNum 7)] "evt" "v1").
  - intros (d & Hd & _). by apply elem_of_nil in Hd.
  - vm_compute. reflexivity.
  - exact I.
  - by intros d ?%elem_of_nil.
  - vm_compute. discriminate.
Defined.

Lemma crash_after_mark_loses_event_witness :
  exists e1 e2, start (crash 1000 (set_store
      (checkAndMarkSeen 5 "oid-b" "evt" "v1" empty_store).2 sample_engine)) = (Ok tt, e1) /\
    accepted (world e1) = [] /\
    enqueueWebhookEvent "oid-b" "issue" [] "evt" "v1" e1 = (Ok tt, e2) /\ accepted (world e2) = [].
Proof. apply (crash_after_mark_loses_event 1000 sample_engine _ _ _ _ _ _ 5); reflexivity. Defined.

Lemma start_recovers_witness :
  exists e', start (crash 1000 one_event) = (Ok tt, e') /\
    accepted (world e') = omap (resumed (managers one_event) (clock (readings one_event) - INFLIGHT_MAX_AGE_MS))
                            (scan (inflight (store one_event))) /\
    length (accepted (world e')) = 1.
Proof.
  destruct (start_recovers (crash 1000 one_event)) as (e' & E1 & E2 & _).
  - vm_compute. split; [by intros d ?%elem_of_nil|done].
  - intros d ->%list_elem_of_singleton. reflexivity.
  - exists e'. split; [exact E1|]. rewrite E2. split; reflexivity.
Defined.

(** A local event whose manager throws, on a closed breaker; and a remote
    event that is handled while the removal of its document rejects: the
    document is still there. *)
Lemma dispatch_spec_witness :
  let db := MkDbFaults None (Some (JsError "connection lost")) in
  let entry := webhook_entry "oid-0" "oid-b" "issue" [("iid", VNum 7)] "evt" "v1" in
  (exists r e', dispatch answering (MkQueueEntry (EvLocal "oid-b" "issue:1" []) "issue" None) sample_engine = (r, e') /\
    r = Ok tt /\ abs (entry_of "oid-b" (brk e')) = SClosed 1) /\
  (exists r e', dispatch db entry one_event = (r, e') /\
    r = Throw (JsError "connection lost") /\ abs (entry_of "oid-b" (brk e')) = SClosed 0 /\
    map if_id (scan (inflight (store e'))) = ["oid-0"]) /\
  (exists r e', dispatch answering entry one_event = (r, e') /\
    r = Ok tt /\ map if_id (scan (inflight (store e'))) = []).
Proof.
  cbn zeta. split; [|split].
  - destruct (dispatch_spec answering (MkQueueEntry (EvLocal "oid-b" "issue:1" []) "issue" None) sample_engine)
      as (r & e' & E1 & _ & _ & _ & E2 & _ & Er & _); [exact I|intros b; apply wf_fresh|].
    exists r, e'. split; [exact E1|]. split; [exact Er|]. etransitivity; [exact E2|]. reflexivity.
  - destruct (dispatch_spec (MkDbFaults None (Some (JsError "connection lost")))
      (webhook_entry "oid-0" "oid-b" "issue" [("iid", VNum 7)] "evt" "v1") one_event)
      as (r & e' & E1 & _ & _ & _ & E2 & _ & Er & Es); [reflexivity|intros b; apply wf_fresh|].
    exists r, e'. split; [exact E1|]. split; [exact Er|]. split; [etransitivity; [exact E2|]; reflexivity|].
    rewrite Es. vm_compute. reflexivity.
  - destruct (dispatch_spec answering
      (webhook_entry "oid-0" "oid-b" "issue" [("iid", VNum 7)] "evt" "v1") one_event)
      as (r & e' & E1 & _ & _ & _ & _ & _ & Er & Es & _); [reflexivity|intros b; apply wf_fresh|].
    exists r, e'. split; [exact E1|]. split; [exact Er|]. rewrite Es. vm_compute. reflexivity.
Defined.
