(* ===== verification/Sync.v ===== *)
(** * The world of the sync managers

    What a sync manager's operation can read and write: the store, the Huly
    client, the GitLab client, the account service, the caches of the loaded
    binding context, the workspace's user cache and the module-level status
    cache.  The clients are type classes over abstract states, because their
    code is a library's or talks to a network; the caches are the components
    of their own files.

    [zoom] runs an operation of one part inside the world.

    Code modelled here: [BindingContext] and [IssueGitLabClient] of
    src/sync/issues.ts, the user identity of src/huly/users.ts, the id-map
    adapter of src/sync/binding-loader.ts and the markdown entry points of
    src/markdown/. *)

From S2P Require Import Prelude JsMap JsString JsVal Metrics Platform Conflict Mongo Store Ids.
From S2P Require Import StatusMap Huly Caches.
Open Scope string_scope.
Open Scope list_scope.

(** ** Running a part of the state *)

Definition zoom {S T A} (get : S -> T) (set : T -> S -> S) (m : M T A) : M S A := fun s =>
  let '(r, t) := m (get s) in (r, set t s).

Lemma zoom_ok {S T A} (get : S -> T) set (m : M T A) s r t :
  m (get s) = (r, t) -> zoom get set m s = (r, set t s).
Proof. intros E. unfold zoom. by rewrite E. Qed.

Definition lift_res {S A} (r : res A) : M S A := fun s => (r, s).

Definition type_error {S A} : M S A := throw (JsError "TypeError").

(** A property read that throws on a nullish value. *)
Definition get_prop {S} (v : jsval) (k : string) : M S jsval :=
  match js_get v k with Some x => ret x | None => type_error end.

(** [for (const x of v)]: the elements, or a TypeError. *)
Definition iterate {S} (v : jsval) : M S (list jsval) :=
  match js_iter v with Some l => ret l | None => type_error end.

(** [v.getTime()] *)
Definition call_getTime {S} (v : jsval) : M S jsval :=
  match v with VDate d => ret (getTime d) | _ => type_error end.

(** Synchronous functions that throw. *)
Definition res_bind {A B} (r : res A) (f : A -> res B) : res B :=
  match r with Ok a => f a | Throw e => Throw e end.

Notation "'let?' x ':=' m 'in' k" := (res_bind m (fun x => k))
  (at level 10, x name, m at level 100, k at level 200) : js_scope.

Definition res_prop (v : jsval) (k : string) : res jsval :=
  match js_get v k with Some x => Ok x | None => Throw (JsError "TypeError") end.

Definition res_elements (v : jsval) : res (list jsval) :=
  match js_iter v with Some l => Ok l | None => Throw (JsError "TypeError") end.

(** ** Libraries *)

(** The markdown library; [serializeMarkupNode] is its serializer with the
    table handler of src/markdown/huly-to-gfm.ts. *)
Class Markdown := {
  markup_node : Type;
  MarkdownParser_parse : forall (refUrl imageUrl : string) (message : jsval), res markup_node;
  jsonToMarkup : markup_node -> string;
  markupToJSON : jsval -> res markup_node;
  serializeMarkupNode : markup_node -> forall (refUrl imageUrl : string), res string
}.

Section MarkdownOps.
Context `{Markdown}.

Definition parseGfmMarkdown (message : jsval) (refUrl imageUrl : string) : res markup_node :=
  MarkdownParser_parse refUrl imageUrl (js_coalesce message (VStr "")).

Definition gfmMarkdownToMarkup (message : jsval) (refUrl imageUrl : string) : res string :=
  res_bind (parseGfmMarkdown message refUrl imageUrl) (fun node => Ok (jsonToMarkup node)).

Definition markupToGfmMarkdown (markup : jsval) (refUrl imageUrl : string)
    (preprocessor : option (markup_node -> markup_node)) : res string :=
  res_bind (markupToJSON markup) (fun node =>
    serializeMarkupNode (match preprocessor with Some p => p node | None => node end)
      refUrl imageUrl).
End MarkdownOps.

(** The account service. *)
Class AccountClient (A : Type) := {
  findPersonBySocialKey : forall (socialKey : string), M A (option string)
}.

(** The GitLab calls of the issues manager. *)
Class IssueGitLabClient (G : Type) := {
  listIssues : forall (projectId : Z) (updatedAfter : option string), M G (list record);
  createIssue : forall (projectId : Z) (body : record), M G record;
  updateIssue : forall (projectId iid : Z) (body : record), M G record
}.

(** ** The state *)

Record CacheEntry := MkCacheEntry { ce_value : option string; ce_expiresAt : Z }.

Record SyncState (H G A : Type) := MkSyncState {
  sy_huly : H;
  sy_gitlab : G;
  sy_accounts : A;
  sy_labels : LabelCache;
  sy_milestones : MilestoneCache;
  sy_users : jsmap string CacheEntry;
  sy_statuses : status_cache;
  sy_metrics : counters;
  sy_readings : nat
}.
Arguments MkSyncState {H G A}.
Arguments sy_huly {H G A}.
Arguments sy_gitlab {H G A}.
Arguments sy_accounts {H G A}.
Arguments sy_labels {H G A}.
Arguments sy_milestones {H G A}.
Arguments sy_users {H G A}.
Arguments sy_statuses {H G A}.
Arguments sy_metrics {H G A}.
Arguments sy_readings {H G A}.

Section World.
Context {Coll : Type -> Type} `{Mongo Coll} {P : Platform} {HU GL AC : Type}.
Abbreviation X := (SyncState HU GL AC).
Abbreviation MM := (M (Store Coll * X)).

Definition on_state {T B} (get : X -> T) (set : T -> X -> X) : M T B -> MM B :=
  zoom (fun s => get s.2) (fun t s => (s.1, set t s.2)).

Definition on_db {B} : M (Store Coll) B -> MM B := zoom fst (fun t s => (t, s.2)).

Definition set_huly (h : HU) (x : X) : X :=
  MkSyncState h (sy_gitlab x) (sy_accounts x) (sy_labels x) (sy_milestones x) (sy_users x)
    (sy_statuses x) (sy_metrics x) (sy_readings x).
Definition set_gitlab (g : GL) (x : X) : X :=
  MkSyncState (sy_huly x) g (sy_accounts x) (sy_labels x) (sy_milestones x) (sy_users x)
    (sy_statuses x) (sy_metrics x) (sy_readings x).
Definition set_accounts (a : AC) (x : X) : X :=
  MkSyncState (sy_huly x) (sy_gitlab x) a (sy_labels x) (sy_milestones x) (sy_users x)
    (sy_statuses x) (sy_metrics x) (sy_readings x).
Definition set_labels (l : LabelCache) (x : X) : X :=
  MkSyncState (sy_huly x) (sy_gitlab x) (sy_accounts x) l (sy_milestones x) (sy_users x)
    (sy_statuses x) (sy_metrics x) (sy_readings x).
Definition set_milestones (m : MilestoneCache) (x : X) : X :=
  MkSyncState (sy_huly x) (sy_gitlab x) (sy_accounts x) (sy_labels x) m (sy_users x)
    (sy_statuses x) (sy_metrics x) (sy_readings x).
Definition set_users (u : jsmap string CacheEntry) (x : X) : X :=
  MkSyncState (sy_huly x) (sy_gitlab x) (sy_accounts x) (sy_labels x) (sy_milestones x) u
    (sy_statuses x) (sy_metrics x) (sy_readings x).
Definition set_statuses (c : status_cache) (x : X) : X :=
  MkSyncState (sy_huly x) (sy_gitlab x) (sy_accounts x) (sy_labels x) (sy_milestones x) (sy_users x)
    c (sy_metrics x) (sy_readings x).
Definition set_metrics (c : counters) (x : X) : X :=
  MkSyncState (sy_huly x) (sy_gitlab x) (sy_accounts x) (sy_labels x) (sy_milestones x) (sy_users x)
    (sy_statuses x) c (sy_readings x).
Definition set_readings (n : nat) (x : X) : X :=
  MkSyncState (sy_huly x) (sy_gitlab x) (sy_accounts x) (sy_labels x) (sy_milestones x) (sy_users x)
    (sy_statuses x) (sy_metrics x) n.

Definition on_huly {B} : M HU B -> MM B := on_state sy_huly set_huly.
Definition on_gitlab {B} : M GL B -> MM B := on_state sy_gitlab set_gitlab.
Definition on_accounts {B} : M AC B -> MM B := on_state sy_accounts set_accounts.
Definition on_statuses {B} : M status_cache B -> MM B := on_state sy_statuses set_statuses.
Definition on_label_tags {B} : M (LabelCache * HU) B -> MM B :=
  on_state (fun x => (sy_labels x, sy_huly x)) (fun p x => set_labels p.1 (set_huly p.2 x)).
Definition on_label_remote {B} : M (LabelCache * GL) B -> MM B :=
  on_state (fun x => (sy_labels x, sy_gitlab x)) (fun p x => set_labels p.1 (set_gitlab p.2 x)).
Definition on_milestone_local {B} : M (MilestoneCache * HU) B -> MM B :=
  on_state (fun x => (sy_milestones x, sy_huly x)) (fun p x => set_milestones p.1 (set_huly p.2 x)).
Definition on_milestone_remote {B} : M (MilestoneCache * GL) B -> MM B :=
  on_state (fun x => (sy_milestones x, sy_gitlab x)) (fun p x => set_milestones p.1 (set_gitlab p.2 x)).

Definition count (name : string) : MM unit :=
  modify (fun s => (s.1, set_metrics (increment name (sy_metrics s.2)) s.2)).

(** [Date.now()], [new Date()] *)
Definition date_now : MM Z := fun s =>
  (Ok (clock (sy_readings s.2)), (s.1, set_readings (S (sy_readings s.2)) s.2)).
End World.

(** ** src/huly/users.ts *)

Definition SOCIAL_KEY_GITLAB (id : string) : string := "gitlab:" +:+ id.
Definition SOCIAL_KEY_EMAIL (email : string) : string := "email:" +:+ to_lower email.
Definition USER_TTL_MS : Z := 5 * 60 * 1000.
Definition HULY_CLASS_PERSON : string := "huly:class:Person".

(** [SyncUser] of src/huly/users.ts; absent properties are [VUndef]. *)
Record IdentityUser := MkIdentityUser {
  iu_gitlabId : string;
  iu_email : jsval;
  iu_name : jsval;
  iu_username : jsval
}.

Section Users.
Context {Coll : Type -> Type} `{Mongo Coll} {P : Platform} {HU GL AC : Type} `{AccountClient AC}.
Abbreviation X := (SyncState HU GL AC).
Abbreviation MM := (M (Store Coll * X)).

Definition lookupCached (socialKey : string) : MM (option string) :=
  let! now := date_now in
  let! cached := gets (fun s => jget socialKey (sy_users s.2)) in
  let fetch :=
    let! value := on_accounts (findPersonBySocialKey socialKey) in
    modify (fun s => (s.1, set_users
      (jset socialKey (MkCacheEntry value (now + USER_TTL_MS)) (sy_users s.2)) s.2)) ;;!
    ret value in
  match cached with
  | Some c => if (now <? ce_expiresAt c)%Z then ret (ce_value c) else fetch
  | None => fetch
  end.

(** [email.toLowerCase()] throws unless the email is a string. *)
Definition mapByEmail (email : jsval) : MM (option string) :=
  match email with
  | VStr e => lookupCached (SOCIAL_KEY_EMAIL e)
  | _ => type_error
  end.

Definition mapByGitlabUser (user : IdentityUser) : MM (option string) :=
  let! byGitlab := lookupCached (SOCIAL_KEY_GITLAB (iu_gitlabId user)) in
  match byGitlab with
  | Some p => ret (Some p)
  | None =>
      match iu_email user with
      | VUndef => ret None
      | email => mapByEmail email
      end
  end.

(** [createIdMapStoreAdapter] of src/sync/binding-loader.ts *)
Definition getIdMap (workspaceUuid : string) (gitlabKind : GitlabKind) (gitlabId : string)
    : MM (option string) :=
  let! row := on_db (findByGitlab workspaceUuid gitlabKind gitlabId) in
  ret (option_map im_hulyRef row).

Definition putIdMap (workspaceUuid : string) (gitlabKind : GitlabKind)
    (gitlabId hulyRef : string) : MM unit :=
  on_db (upsertIdMap workspaceUuid gitlabKind gitlabId HULY_CLASS_PERSON hulyRef).

Definition ensureStubGuest (workspaceUuid : string) (user : IdentityUser) : MM string :=
  let! existing := getIdMap workspaceUuid KUser (iu_gitlabId user) in
  match existing with
  | Some ref => ret ref
  | None =>
      let stubRef := "stub:gitlab:" +:+ iu_gitlabId user in
      putIdMap workspaceUuid KUser (iu_gitlabId user) stubRef ;;!
      ret stubRef
  end.

Definition invalidate_users (key : option string) (x : X) : X :=
  match key with
  | Some k => set_users (jdelete k (sy_users x)) x
  | None => set_users [] x
  end.
End Users.

(** ** Binding contexts *)

Record BindingContext := MkBindingContext {
  bx_workspaceUuid : string;
  bx_gitlabProjectId : Z;
  bx_gitlabProjectPath : string;
  bx_hulyProjectRef : string;
  bx_statuses : list Status;
  bx_defaultTaskType : string;
  bx_gitlabBaseUrl : string;
  bx_isMultiInstanceWorkspace : option bool
}.

(** The attachment mirror, a dependency of the managers. *)
Record MirrorDeps (S : Type) := MkMirrorDeps {
  mirrorBodyGitlabToHuly : forall (body : jsval) (gitlabBaseUrl projectPath : string), M S jsval;
  mirrorBodyHulyToGitlab : forall (body : jsval) (gitlabProjectId : Z), M S jsval
}.
Arguments MkMirrorDeps {S}.
Arguments mirrorBodyGitlabToHuly {S}.
Arguments mirrorBodyHulyToGitlab {S}.

Section Binding.
Context `{Sha256}.

(** [isMultiInstanceWorkspace === true] *)
Definition is_multi (b : BindingContext) : bool :=
  bool_decide (bx_isMultiInstanceWorkspace b = Some true).

(** The id-map key of an object of the bound project, whose iid is any
    value. *)
Definition scoped_key (b : BindingContext) (iid : jsval) `{Platform} : string :=
  prefixGitlabIdForMultiInstance (is_multi b) (bx_gitlabBaseUrl b)
    (join_colon (num_to_string (bx_gitlabProjectId b)) (js_String iid)).

Definition image_url (b : BindingContext) : string :=
  strip_trailing_slash (bx_gitlabBaseUrl b) +:+ "/" +:+ bx_gitlabProjectPath b.

Definition issue_ref_url (b : BindingContext) : string := image_url b +:+ "/-/issues".
End Binding.

(** ** What resolving a record may touch

    Resolving a remote record creates tags and milestones, may record a stub
    user in the id map, and reads everything else: [resolved_from s s'] says
    that [s'] is [s] after such steps. *)

Section Moves.
Context {S : Type} (R : S -> S -> Prop) {HR : PreOrder R}.

(** A computation whose successful runs move along [R]. *)
Definition moves {A} (m : M S A) : Prop := forall s a s', m s = (Ok a, s') -> R s s'.

Lemma moves_ret {A} (a : A) : moves (ret a).
Proof. intros s a' s' [= _ <-]. reflexivity. Qed.

Lemma moves_throw {A} e : moves (throw (A := A) e).
Proof. by intros s a s'. Qed.

Lemma moves_bind {A B} (m : M S A) (k : A -> M S B) :
  moves m -> (forall a, moves (k a)) -> moves (bind m k).
Proof.
  intros Hm Hk s b s'' (a & s' & E & E')%bind_inv_ok.
  etransitivity; [by eapply Hm|by eapply Hk].
Qed.

Lemma moves_mapM_js {A B} (l : list A) (f : A -> M S B) :
  (forall x, moves (f x)) -> moves (mapM_js l f).
Proof.
  intros Hf. induction l as [|x l IH]; cbn [mapM_js]; [apply moves_ret|].
  apply moves_bind; [done|]. intros y. apply moves_bind; [done|]. intros ys. apply moves_ret.
Qed.

Lemma moves_same {A} (m : M S A) : (forall s, (m s).2 = s) -> moves m.
Proof. intros Hm s a s' E. specialize (Hm s). rewrite E in Hm. cbn in Hm. subst. reflexivity. Qed.

Lemma moves_gets {A} (f : S -> A) : moves (gets f).
Proof. by apply moves_same. Qed.

Lemma moves_lift_res {A} (r : res A) : moves (lift_res r).
Proof. by apply moves_same. Qed.

Lemma moves_get_prop v k : moves (get_prop v k).
Proof. apply moves_same. intros s. unfold get_prop. by destruct (js_get v k). Qed.

Lemma moves_iterate v : moves (iterate v).
Proof. apply moves_same. intros s. unfold iterate. by destruct (js_iter v). Qed.

Lemma moves_modify f : (forall s, R s (f s)) -> moves (modify f).
Proof. intros Hf s a s' [= _ <-]. apply Hf. Qed.
End Moves.

Create HintDb moves discriminated.
#[export] Hint Resolve moves_ret moves_throw moves_gets moves_lift_res moves_get_prop moves_iterate
  : moves.
#[export] Hint Resolve moves_bind moves_mapM_js : moves.

Section Resolved.
Context {Coll : Type -> Type} `{HL : MongoLaws Coll} {P : Platform} {HU GL AC : Type}
  `{HHL : HulyLaws HU}.
Abbreviation X := (SyncState HU GL AC).
Abbreviation World := (Store Coll * X)%type.

(** The workspace documents grew by fresh tags and milestones. *)
Definition grown (l l' : list HulyDoc) : Prop :=
  exists extra, l' = l ++ extra /\
    (forall d, d ∈ extra -> hd_class d = CLASS_TAG_ELEMENT \/ hd_class d = CLASS_MILESTONE) /\
    (forall d, d ∈ extra -> hd_id d ∉ map hd_id l).

Record resolved_from (s s' : World) : Prop := {
  rf_docs : grown (docs (sy_huly s.2)) (docs (sy_huly s'.2));
  rf_gitlab_key : forall w k g, k <> KUser ->
    findOne (by_gitlab w k g) (idmap s'.1) = findOne (by_gitlab w k g) (idmap s.1);
  rf_huly_key : forall w c r, c <> HULY_CLASS_PERSON ->
    findOne (by_huly w c r) (idmap s'.1) = findOne (by_huly w c r) (idmap s.1);
  rf_ok : store_ok s.1 -> store_ok s'.1;
  rf_cursors : cursors s'.1 = cursors s.1;
  rf_bindings : bindings s'.1 = bindings s.1;
  rf_inflight : inflight s'.1 = inflight s.1;
  rf_dedup : dedup s'.1 = dedup s.1;
  rf_gitlab : sy_gitlab s'.2 = sy_gitlab s.2
}.

Lemma grown_refl l : grown l l.
Proof.
  exists []. rewrite app_nil_r. split_and!; [done| |]; intros d Hd; by apply elem_of_nil in Hd.
Qed.

Lemma grown_trans l1 l2 l3 : grown l1 l2 -> grown l2 l3 -> grown l1 l3.
Proof.
  intros (e1 & -> & C1 & F1) (e2 & -> & C2 & F2). exists (e1 ++ e2). rewrite app_assoc.
  split_and!; [done| |].
  - intros d [Hd|Hd]%elem_of_app; auto.
  - intros d [Hd|Hd]%elem_of_app; [auto|]. intros Hin. apply (F2 d Hd).
    rewrite map_app, elem_of_app. by left.
Qed.

Lemma grown_one l d :
  hd_class d = CLASS_TAG_ELEMENT \/ hd_class d = CLASS_MILESTONE -> hd_id d ∉ map hd_id l ->
  grown l (l ++ [d]).
Proof.
  intros Hc Hf. exists [d]. split_and!; [done| |]; intros d' ->%list_elem_of_singleton; done.
Qed.

#[export] Instance resolved_from_preorder : PreOrder resolved_from.
Proof.
  split.
  - intros s. split; try done. apply grown_refl.
  - intros s1 s2 s3 [D1 G1 U1 O1 C1 B1 I1 Q1 T1] [D2 G2 U2 O2 C2 B2 I2 Q2 T2].
    split; try congruence.
    + by eapply grown_trans.
    + intros w k g Hk. by rewrite G2, G1.
    + intros w c r Hc. by rewrite U2, U1.
    + auto.
Qed.

(** Documents of another class are found as before. *)
Lemma grown_find l l' c q :
  grown l l' -> c <> CLASS_TAG_ELEMENT -> c <> CLASS_MILESTONE ->
  js_find (fun d => bool_decide (hd_class d = c) && matches q d) l' =
  js_find (fun d => bool_decide (hd_class d = c) && matches q d) l.
Proof.
  intros (e & -> & Hc & _) H1 H2. rewrite js_find_app. destruct (js_find _ l) as [d|]; [done|].
  apply js_find_None. intros d Hd. rewrite bool_decide_eq_false_2; [done|].
  intros E. destruct (Hc d Hd); congruence.
Qed.

Lemma grown_filter l l' c :
  grown l l' -> c <> CLASS_TAG_ELEMENT -> c <> CLASS_MILESTONE ->
  List.filter (fun d => bool_decide (hd_class d = c)) l' =
  List.filter (fun d => bool_decide (hd_class d = c)) l.
Proof.
  intros (e & -> & Hc & _) H1 H2. rewrite List.filter_app.
  enough (List.filter (fun d => bool_decide (hd_class d = c)) e = []) as -> by apply app_nil_r.
  induction e as [|d e IH]; [done|]. cbn [List.filter].
  rewrite bool_decide_eq_false_2.
  - apply IH. intros d' Hd. apply Hc. by right.
  - intros E. destruct (Hc d); [left|congruence..].
Qed.

(** *** Parts that only touch the caches *)

(** A change of the second component that keeps the documents and GitLab. *)
Lemma resolved_state (s : World) (x : X) :
  sy_huly x = sy_huly s.2 -> sy_gitlab x = sy_gitlab s.2 -> resolved_from s (s.1, x).
Proof. intros Hh Hg. split; try done. cbn [snd]. rewrite Hh. apply grown_refl. Qed.

Lemma moves_on_statuses {B} (m : M status_cache B) :
  moves resolved_from (on_statuses (Coll := Coll) (HU := HU) (GL := GL) (AC := AC) m).
Proof.
  intros s b s'. unfold on_statuses, on_state, zoom. destruct (m _) as [r t].
  intros [= -> <-]. by apply resolved_state.
Qed.

Lemma moves_date_now : moves resolved_from (date_now (Coll := Coll) (HU := HU) (GL := GL) (AC := AC)).
Proof. intros s b s' [= _ <-]. by apply resolved_state. Qed.

Lemma moves_lookupCached `{AccountClient AC} key :
  moves resolved_from (lookupCached (Coll := Coll) (HU := HU) (GL := GL) (AC := AC) key).
Proof.
  unfold lookupCached. apply moves_bind; [apply _|apply moves_date_now|]. intros now.
  apply moves_bind; [apply _|apply moves_gets; apply _|]. intros cached.
  set (fetch := bind _ _). assert (moves resolved_from fetch) as Hf.
  { apply moves_bind; [apply _| |].
    - intros s b s'. unfold on_accounts, on_state, zoom. destruct (findPersonBySocialKey _ _) as [r t].
      intros [= -> <-]. by apply resolved_state.
    - intros v. apply moves_bind; [apply _| |intros; apply moves_ret; apply _].
      intros s b s' [= _ <-]. by apply resolved_state. }
  destruct cached as [c|]; [|done]. destruct (_ <? _)%Z; [apply moves_ret; apply _|done].
Qed.

Lemma moves_mapByGitlabUser `{AccountClient AC} u :
  moves resolved_from (mapByGitlabUser (Coll := Coll) (HU := HU) (GL := GL) (AC := AC) u).
Proof.
  unfold mapByGitlabUser. apply moves_bind; [apply _|apply moves_lookupCached|].
  intros [p|]; [apply moves_ret; apply _|].
  unfold mapByEmail. destruct (iu_email u);
    (apply moves_lookupCached || (apply moves_ret; apply _) || apply moves_throw).
Qed.

(** Recording a user leaves every other lookup as it is. *)
Lemma moves_ensureStubGuest w u :
  moves resolved_from (ensureStubGuest (Coll := Coll) (HU := HU) (GL := GL) (AC := AC) w u).
Proof.
  intros s b s'. unfold ensureStubGuest, getIdMap, on_db, zoom, findByGitlab, gets, bind at 1 2.
  cbn [fst snd option_map ret]. destruct s as [st x]. cbn [fst snd].
  destruct (findOne _ (idmap st)) as [o|] eqn:Ef; cbn [option_map].
  - intros [= _ <-]. reflexivity.
  - intros ([] & s1 & Hp & [= _ <-])%bind_inv_ok.
    unfold putIdMap, on_db, zoom, upsertIdMap, dup_key_or in Hp. cbn [fst snd] in Hp.
    destruct (upsertOne _ _ _ _) as [col|] eqn:Eu; cbn [modify throw] in Hp; [|done].
    injection Hp as <-.
    split; cbn [fst snd idmap set_idmap cursors bindings inflight dedup]; try done.
    + apply grown_refl.
    + intros w' k g Hk. eapply upsertOne_find; [done|..].
      * intros d (_ & Ed & _)%by_gitlab_spec. apply not_true_iff_false. rewrite by_gitlab_spec.
        intros (_ & E & _). congruence.
      * apply not_true_iff_false. rewrite by_gitlab_spec. intros (_ & E & _). cbn in E. congruence.
    + intros w' c r Hc. apply upsertOne_Some in Eu. rewrite !findOne_scan.
      eapply ref_upsert_find_old; [done| |].
      * intros d Hd Hp. rewrite findOne_scan in Ef. apply js_find_None with (x := d) in Ef; [|done]. congruence.
      * apply not_true_iff_false. rewrite by_huly_spec. intros (_ & E & _). cbn in E. congruence.
    + intros [? ? Hi ? ?]. split; cbn [idmap set_idmap cursors bindings inflight dedup]; try done.
      by eapply upsertOne_ok.
Qed.

Lemma moves_label_tags p n :
  moves resolved_from (on_label_tags (Coll := Coll) (GL := GL) (AC := AC) (ensureLocalTag_js (HU := HU) p n)).
Proof.
  intros s ref s'. unfold on_label_tags, on_state, zoom. destruct (ensureLocalTag_js _ _ _) as [r [lc h]] eqn:E.
  intros [= -> <-]. apply ensureLocalTag_js_inv in E as (name & -> & E).
  pose proof (ensureLocalTag_docs _ _ _ _ _ _ E) as Hd. cbn [fst snd] in *.
  split; try done. cbn [fst snd set_labels set_huly sy_huly].
  destruct Hd as [->|[-> Hf]]; [apply grown_refl|]. apply grown_one; [by left|done].
Qed.

Lemma moves_milestone_local p l d :
  moves resolved_from
    (on_milestone_local (Coll := Coll) (GL := GL) (AC := AC) (ensureLocalMilestone_js (HU := HU) p l d)).
Proof.
  intros s ref s'. unfold on_milestone_local, on_state, zoom.
  destruct (ensureLocalMilestone_js _ _ _ _) as [r [lc h]] eqn:E.
  intros [= -> <-]. apply ensureLocalMilestone_js_inv in E as (name & -> & E).
  pose proof (ensureLocalMilestone_docs _ _ _ _ _ _ E) as Hd. cbn [fst snd] in *.
  split; try done. cbn [fst snd set_milestones set_huly sy_huly].
  destruct Hd as [->|[-> Hf]]; [apply grown_refl|]. apply grown_one; [by right|done].
Qed.
End Resolved.

#[export] Hint Resolve moves_on_statuses moves_date_now moves_mapByGitlabUser moves_ensureStubGuest
  moves_label_tags moves_milestone_local : moves.

(** One step of a proof of [moves resolved_from m]. *)
Ltac moves_step :=
  lazymatch goal with
  | |- moves _ (bind _ _) => apply moves_bind; [apply _| |intros]
  | |- moves _ (mapM_js _ _) => apply moves_mapM_js; [apply _|intros]
  | |- moves _ (match ?x with _ => _ end) => destruct x
  | |- moves _ (ret _) => apply moves_ret; apply _
  | |- moves _ (throw _) => apply moves_throw
  | |- moves _ type_error => apply moves_throw
  | |- moves _ (get_prop _ _) => apply moves_get_prop; apply _
  | |- moves _ (iterate _) => apply moves_iterate; apply _
  | |- moves _ (lift_res _) => apply moves_lift_res; apply _
  | |- moves _ (on_statuses _) => apply moves_on_statuses
  | |- moves _ (mapByGitlabUser _) => apply moves_mapByGitlabUser
  | |- moves _ (ensureStubGuest _ _) => apply moves_ensureStubGuest
  | |- moves _ (on_label_tags _) => apply moves_label_tags
  | |- moves _ (on_milestone_local _) => apply moves_milestone_local
  end.

(** ** Loading a binding context *)

(** The loader answers [bctx] for the binding, with new label and milestone
    caches and the workspace's user cache or a new one, and leaves the store,
    the workspace documents, GitLab and the status cache alone. *)
Definition loads_with {Coll : Type -> Type} {HU GL AC : Type} `{HulyLaws HU}
    (load : string -> M (Store Coll * SyncState HU GL AC) BindingContext)
    (binding : string) (bctx : BindingContext) : Prop :=
  forall s, exists x, load binding s = (Ok bctx, (s.1, x)) /\
    docs (sy_huly x) = docs (sy_huly s.2) /\
    sy_labels x = new_label_cache /\ sy_milestones x = new_milestone_cache /\
    (sy_users x = sy_users s.2 \/ sy_users x = []) /\ sy_statuses x = sy_statuses s.2 /\
    sy_gitlab x = sy_gitlab s.2.
