(* ===== verification/BindingLoader.v ===== *)
(** * The binding loader (src/sync/binding-loader.ts)

    Loads what a sync manager needs of a binding: the binding document, its
    credential, a cached platform client per workspace, the project's
    statuses and default task type, and whether the workspace spans several
    GitLab instances.  [CredentialResolver.resolve] (src/auth/index.ts) and
    [getTrackerProject] (src/huly/projects.ts) are part of it.

    Platform clients are numbered; opening, closing and querying one and the
    capability probe of the GitLab client are the class [LoaderWorld].  A
    [Map] held by several objects, as the project map the subscriber reads,
    is the entry of the loader's table. *)

From S2P Require Import Prelude JsMap JsString JsVal Metrics Platform Conflict Mongo Store Ids.
From S2P Require Import StatusMap Huly Caches Credentials Sync.
Open Scope nat_scope.
Open Scope string_scope.
Open Scope list_scope.

Class LoaderWorld (W : Type) := {
  createPlatformClient : forall (workspaceUuid : string), M W nat;
  closePlatformClient : forall (client : nat), M W unit;
  client_findOne : forall (client : nat) (cls : string) (query : record), M W (option HulyDoc);
  detectCapabilities : forall (baseUrl token : string), M W unit
}.

(** ** The registry of a loader *)

Record WorkspaceCacheEntry := MkWorkspaceEntry { we_client : nat; we_expiresAt : Z }.

Record BindingMeta := MkBindingMeta { bm_projectId : Z; bm_gitlabBaseUrl : string }.

Record Loader := MkLoader {
  ld_workspaceCache : jsmap string WorkspaceCacheEntry;
  ld_workspaceBaseUrls : jsmap string (list string);
  ld_bindingsByWorkspace : jsmap string (jsmap string string);
  ld_bindingMetaByWorkspace : jsmap string (jsmap string BindingMeta);
  ld_readings : nat
}.

Definition new_loader : Loader := MkLoader [] [] [] [] 0.

Definition set_cache (c : jsmap string WorkspaceCacheEntry) (l : Loader) : Loader :=
  MkLoader c (ld_workspaceBaseUrls l) (ld_bindingsByWorkspace l) (ld_bindingMetaByWorkspace l)
    (ld_readings l).
Definition set_baseUrls (u : jsmap string (list string)) (l : Loader) : Loader :=
  MkLoader (ld_workspaceCache l) u (ld_bindingsByWorkspace l) (ld_bindingMetaByWorkspace l)
    (ld_readings l).
Definition set_projects (b : jsmap string (jsmap string string)) (l : Loader) : Loader :=
  MkLoader (ld_workspaceCache l) (ld_workspaceBaseUrls l) b (ld_bindingMetaByWorkspace l)
    (ld_readings l).
Definition set_meta (m : jsmap string (jsmap string BindingMeta)) (l : Loader) : Loader :=
  MkLoader (ld_workspaceCache l) (ld_workspaceBaseUrls l) (ld_bindingsByWorkspace l) m
    (ld_readings l).

Section Registry.
Context `{Sha256}.

(** [set.add(x)] *)
Definition set_add (x : string) (l : list string) : list string :=
  if decide (x ∈ l) then l else l ++ [x].

Definition registerBaseUrl (workspaceUuid gitlabBaseUrl : string) (l : Loader) : Loader :=
  set_baseUrls
    (jset workspaceUuid
       (match jget workspaceUuid (ld_workspaceBaseUrls l) with
        | Some existing => set_add gitlabBaseUrl existing
        | None => [gitlabBaseUrl]
        end) (ld_workspaceBaseUrls l)) l.

Definition isMultiInstance (workspaceUuid : string) (l : Loader) : bool :=
  (2 <=? length (default [] (jget workspaceUuid (ld_workspaceBaseUrls l))))%nat.

Definition getBindingsByProject (workspaceUuid : string) (l : Loader) : option (jsmap string string) :=
  jget workspaceUuid (ld_bindingsByWorkspace l).

Definition getOrCreateBindingsByProject (workspaceUuid : string) (l : Loader)
    : jsmap string string * Loader :=
  match jget workspaceUuid (ld_bindingsByWorkspace l) with
  | Some existing => (existing, l)
  | None => ([], set_projects (jset workspaceUuid [] (ld_bindingsByWorkspace l)) l)
  end.

(** The loop over the map that re-keys it: the new map, the new metadata
    and whether any key changed. *)
Definition rekey (map : jsmap string string) (meta : jsmap string BindingMeta)
    : jsmap string string * jsmap string BindingMeta * bool :=
  fold_left (fun acc e =>
    let '(rekeyed, rekeyedMeta, needsRekey) := acc in
    match jget e.1 meta with
    | None => (jset e.1 e.2 rekeyed, rekeyedMeta, needsRekey)
    | Some m =>
        let newKey := bindingsByProjectKey true (bm_gitlabBaseUrl m) (bm_projectId m) in
        (jset newKey e.2 rekeyed, jset newKey m rekeyedMeta,
         needsRekey || negb (bool_decide (newKey = e.1)))
    end) map ([], [], false).

Definition registerBinding (workspaceUuid : string) (gitlabProjectId : Z)
    (bindingId gitlabBaseUrl : string) (l : Loader) : Loader :=
  let '(map, l) := getOrCreateBindingsByProject workspaceUuid l in
  let multi := isMultiInstance workspaceUuid l in
  let meta := default [] (jget workspaceUuid (ld_bindingMetaByWorkspace l)) in
  let '(map, meta) :=
    if multi then
      let '(rekeyed, rekeyedMeta, needsRekey) := rekey map meta in
      if needsRekey then (rekeyed, rekeyedMeta) else (map, meta)
    else (map, meta) in
  let key := bindingsByProjectKey multi gitlabBaseUrl gitlabProjectId in
  set_projects (jset workspaceUuid (jset key bindingId map) (ld_bindingsByWorkspace l))
    (set_meta (jset workspaceUuid (jset key (MkBindingMeta gitlabProjectId gitlabBaseUrl) meta)
                 (ld_bindingMetaByWorkspace l)) l).
End Registry.

(** ** Loading *)

Record LoadState (Coll : Type -> Type) (W : Type) := MkLoadState {
  l_store : Store Coll;
  l_creds : Creds Coll;
  l_loader : Loader;
  l_world : W
}.
Arguments MkLoadState {Coll W}.
Arguments l_store {Coll W}.
Arguments l_creds {Coll W}.
Arguments l_loader {Coll W}.
Arguments l_world {Coll W}.

Record ResolvedCredential := MkResolved {
  rc_kind : CredentialKind;
  rc_token : string;
  rc_expiresAt : option jsdate;
  rc_gitlabBaseUrl : option string
}.

Definition TRACKER_PROJECT : string := "tracker:class:Project".
Definition TASK_PROJECT_TYPE : string := "task:class:ProjectType".
Definition TASK_TASK_TYPE : string := "task:class:TaskType".
Definition TRACKER_ISSUE_STATUS : string := "tracker:class:IssueStatus".

Section Load.
Context {Coll : Type -> Type} `{Mongo Coll} {P : Platform} {C : Cipher} `{Sha256} {W : Type} `{LoaderWorld W}.
Abbreviation LS := (LoadState Coll W).
Abbreviation ML := (M (LoadState Coll W)).

Record BindingLoaderDeps := MkLoaderDeps {
  dl_defaultGitlabBaseUrl : string;
  dl_encryptionKey : string;
  dl_cacheTtlMs : Z;
  dl_onWorkspaceLoaded : option (string -> nat -> M W unit);
  dl_onWorkspaceEvicted : option (string -> M W unit)
}.

Context (deps : BindingLoaderDeps).

Definition on_store {A} : M (Store Coll) A -> ML A :=
  zoom l_store (fun t s => MkLoadState t (l_creds s) (l_loader s) (l_world s)).
Definition on_creds {A} : M (Creds Coll) A -> ML A :=
  zoom l_creds (fun t s => MkLoadState (l_store s) t (l_loader s) (l_world s)).
Definition on_world {A} : M W A -> ML A :=
  zoom l_world (fun t s => MkLoadState (l_store s) (l_creds s) (l_loader s) t).
Definition on_loader (f : Loader -> Loader) : ML unit :=
  modify (fun s => MkLoadState (l_store s) (l_creds s) (f (l_loader s)) (l_world s)).

(** [Date.now()] *)
Definition loader_now : ML Z := fun s =>
  let l := l_loader s in
  (Ok (clock (ld_readings l)),
   MkLoadState (l_store s) (l_creds s)
     (MkLoader (ld_workspaceCache l) (ld_workspaceBaseUrls l) (ld_bindingsByWorkspace l)
        (ld_bindingMetaByWorkspace l) (S (ld_readings l))) (l_world s)).

(** [CredentialResolver.resolve] *)
Definition resolve (credentialRef : string) : ML (option ResolvedCredential) :=
  let! result := on_creds (getCredential (dl_encryptionKey deps) credentialRef) in
  match result with
  | None => ret None
  | Some r => ret (Some (MkResolved (cr_kind r) (cr_plaintext r) (cr_expiresAt r) None))
  end.

Definition resolveBinding (bindingId : string) : ML BindingDoc :=
  let! binding := on_store (getBinding bindingId) in
  match binding with
  | None => throw (JsError ("BindingLoader: binding not found: " +:+ bindingId))
  | Some b => ret b
  end.

(** A failure is logged. *)
Definition caught (m : ML unit) : ML unit := try_catch m (fun _ => ret tt).

Definition invokeEvictionHook (workspaceUuid : string) : ML unit :=
  match dl_onWorkspaceEvicted deps with
  | None => ret tt
  | Some hook => caught (on_world (hook workspaceUuid))
  end.

Definition getOrCreateWorkspaceEntry (workspaceUuid : string) : ML WorkspaceCacheEntry :=
  let! now := loader_now in
  let! cached := gets (fun s => jget workspaceUuid (ld_workspaceCache (l_loader s))) in
  let create :=
    let! client := on_world (createPlatformClient workspaceUuid) in
    let entry := MkWorkspaceEntry client (now + dl_cacheTtlMs deps) in
    on_loader (fun l => set_cache (jset workspaceUuid entry (ld_workspaceCache l)) l) ;;!
    match dl_onWorkspaceLoaded deps with
    | None => ret entry
    | Some hook =>
        on_loader (fun l => (getOrCreateBindingsByProject workspaceUuid l).2) ;;!
        caught (on_world (hook workspaceUuid client)) ;;!
        ret entry
    end in
  match cached with
  | None => create
  | Some c =>
      if (now <? we_expiresAt c)%Z then ret c
      else
        invokeEvictionHook workspaceUuid ;;!
        on_loader (fun l => set_cache (jdelete workspaceUuid (ld_workspaceCache l)) l) ;;!
        caught (on_world (closePlatformClient (we_client c))) ;;!
        create
  end.

Definition find_by_id (client : nat) (cls : string) (id : jsval) : ML (option HulyDoc) :=
  on_world (client_findOne client cls [("_id", id)]).

Definition doc_status (d : HulyDoc) : Status := MkStatus (hd_id d) (as_string (field "category" (hd_attrs d))).

Definition statuses_of_type (client : nat) (taskTypeRef : jsval) : ML (list Status) :=
  let! taskType := find_by_id client TASK_TASK_TYPE taskTypeRef in
  match taskType with
  | None => ret []
  | Some d =>
      let! refs := iterate (prop_of (hd_attrs d) "statuses") in
      let! found := mapM_js refs (fun statusRef =>
        let! status := find_by_id client TRACKER_ISSUE_STATUS statusRef in
        ret (match status with Some d => [doc_status d] | None => [] end)) in
      ret (concat found)
  end.

(** [getTrackerProject]: the statuses, and the [tasks] of the project type,
    [undefined] when there is none. *)
Definition getTrackerProject (client : nat) (hulyProjectRef : string) : ML (list Status * jsval) :=
  let! project := find_by_id client TRACKER_PROJECT (VStr hulyProjectRef) in
  match project with
  | None => throw (JsError ("Tracker project not found: " +:+ hulyProjectRef))
  | Some p =>
      let! projectType := find_by_id client TASK_PROJECT_TYPE (prop_of (hd_attrs p) "type") in
      match projectType with
      | None => ret ([], VUndef)
      | Some t =>
          let tasks := prop_of (hd_attrs t) "tasks" in
          let! refs := iterate tasks in
          let! statuses := mapM_js refs (statuses_of_type client) in
          ret (concat statuses, tasks)
      end
  end.

(** [registerBaseUrl] and [registerBinding], then the flag. *)
Definition register (b : BindingDoc) (bindingId gitlabBaseUrl : string) : ML bool :=
  on_loader (registerBaseUrl (bd_workspaceUuid b) gitlabBaseUrl) ;;!
  on_loader (registerBinding (bd_workspaceUuid b) (bd_gitlabProjectId b) bindingId gitlabBaseUrl) ;;!
  gets (fun s => isMultiInstance (bd_workspaceUuid b) (l_loader s)).

Definition loadInternal (bindingId : string) : ML BindingContext :=
  let! binding := resolveBinding bindingId in
  let! credential := resolve (bd_credentialRef binding) in
  match credential with
  | None => throw (JsError ("BindingLoader: credential not found for binding " +:+ bindingId))
  | Some c =>
      let gitlabBaseUrl := default (dl_defaultGitlabBaseUrl deps) (rc_gitlabBaseUrl c) in
      caught (on_world (detectCapabilities gitlabBaseUrl (rc_token c))) ;;!
      let! multi := register binding bindingId gitlabBaseUrl in
      let! workspace := getOrCreateWorkspaceEntry (bd_workspaceUuid binding) in
      let! p := getTrackerProject (we_client workspace) (bd_hulyProjectRef binding) in
      let! len := get_prop p.2 "length" in
      if bool_decide (len = VNum 0) then
        throw (JsError ("BindingLoader: project " +:+ bd_hulyProjectRef binding +:+
                        " has no TaskType; cannot mirror issues/MRs"))
      else
        ret (MkBindingContext (bd_workspaceUuid binding) (bd_gitlabProjectId binding)
               (bd_gitlabProjectPath binding) (bd_hulyProjectRef binding) p.1
               (js_String (js_index p.2 0)) gitlabBaseUrl (Some multi))
  end.

(** [loadForPipelines]: the fields of the context the pipeline manager
    reads; a missing credential is tolerated. *)
Record PipelineContext := MkPipelineContext {
  px_workspaceUuid : string;
  px_gitlabProjectId : Z;
  px_hulyProjectRef : string;
  px_client : nat;
  px_gitlabBaseUrl : string;
  px_isMultiInstanceWorkspace : bool
}.

Definition loadForPipelines (bindingId : string) : ML PipelineContext :=
  let! binding := resolveBinding bindingId in
  let! credential := resolve (bd_credentialRef binding) in
  let gitlabBaseUrl := default (dl_defaultGitlabBaseUrl deps) (mbind rc_gitlabBaseUrl credential) in
  let! multi := register binding bindingId gitlabBaseUrl in
  let! workspace := getOrCreateWorkspaceEntry (bd_workspaceUuid binding) in
  ret (MkPipelineContext (bd_workspaceUuid binding) (bd_gitlabProjectId binding)
         (bd_hulyProjectRef binding) (we_client workspace) gitlabBaseUrl multi).

(** The actor-token lookup of [loadForMergeRequests]. *)
Definition resolveActorToken (gitlabBaseUrl : string) (workspaceUuid hulyPersonUuid : option string)
    : ML (option string) :=
  match workspaceUuid, hulyPersonUuid with
  | Some w, Some p =>
      let! credential := on_creds (getUserCredential (dl_encryptionKey deps) w p (Some gitlabBaseUrl)) in
      match credential with
      | None => ret None
      | Some c =>
          match ut_expiresAt c with
          | None => ret (Some (ut_token c))
          | Some e =>
              let! now := loader_now in
              if match e with Some t => (t <? now)%Z | None => false end then ret None
              else ret (Some (ut_token c))
          end
      end
  | _, _ => ret None
  end.

Definition loader_close : ML unit :=
  let! entries := gets (fun s => ld_workspaceCache (l_loader s)) in
  forM_ entries (fun e =>
    invokeEvictionHook e.1 ;;!
    caught (on_world (closePlatformClient (we_client e.2)))) ;;!
  on_loader (fun l => set_projects [] (set_cache [] l)).
End Load.

(** ** Renaming the keys of a map *)

Section Rename.
Context {K K' V V' : Type} `{EqDecision K} `{EqDecision K'}.

Definition rename (f : K -> K') (g : K -> V -> V') (m : jsmap K V) : jsmap K' V' :=
  map (fun e => (f e.1, g e.1 e.2)) m.

Definition inj_on (f : K -> K') (ks : list K) : Prop :=
  forall k k', k ∈ ks -> k' ∈ ks -> f k = f k' -> k = k'.

Lemma jget_rename f g m k ks :
  inj_on f ks -> k ∈ ks -> (forall k', k' ∈ jkeys m -> k' ∈ ks) ->
  jget (f k) (rename f g m) = option_map (g k) (jget k m).
Proof.
  intros Hi Hk Hm. induction m as [|[k' v] m IH]; [done|].
  cbn [rename map jget fst snd]. destruct (decide (f k = f k')) as [E|E].
  - apply Hi in E as ->; [|done|apply Hm; left]. by rewrite decide_True.
  - rewrite decide_False by congruence. apply IH. intros k'' Hk''. apply Hm. by right.
Qed.

Lemma jset_rename f g m k v ks :
  inj_on f ks -> k ∈ ks -> (forall k', k' ∈ jkeys m -> k' ∈ ks) ->
  jset (f k) (g k v) (rename f g m) = rename f g (jset k v m).
Proof.
  intros Hi Hk Hm. induction m as [|[k' w] m IH]; [done|].
  cbn [rename map jset fst snd]. destruct (decide (f k = f k')) as [E|E].
  - apply Hi in E as ->; [|done|apply Hm; left]. by rewrite decide_True.
  - rewrite decide_False by congruence. cbn [map fst snd]. f_equal. apply IH.
    intros k'' Hk''. apply Hm. by right.
Qed.
End Rename.

(** ** The registry refines a map from project to binding *)

Section RegistrySpec.
Context `{Sha256}.

(** One load, as the registry sees it. *)
Record Registration := MkRegistration {
  rg_workspace : string;
  rg_gitlabBaseUrl : string;
  rg_projectId : Z;
  rg_bindingId : string
}.

Definition register_step (l : Loader) (r : Registration) : Loader :=
  registerBinding (rg_workspace r) (rg_projectId r) (rg_bindingId r) (rg_gitlabBaseUrl r)
    (registerBaseUrl (rg_workspace r) (rg_gitlabBaseUrl r) l).

(** The registrations of a workspace, the instances they name, and the last
    binding of each project of each instance. *)
Definition registered (ws : string) (hs : list Registration) : list Registration :=
  List.filter (fun r => bool_decide (rg_workspace r = ws)) hs.

Definition instances (hs : list Registration) : list string :=
  fold_left (fun l r => set_add (rg_gitlabBaseUrl r) l) hs [].

Definition project_map (hs : list Registration) : jsmap (string * Z) string :=
  fold_left (fun m r => jset (rg_gitlabBaseUrl r, rg_projectId r) (rg_bindingId r) m) hs [].

Definition spans_instances (hs : list Registration) : bool := (2 <=? length (instances hs))%nat.

Definition key_of (multi : bool) (k : string * Z) : string := bindingsByProjectKey multi k.1 k.2.

Lemma key_of_inj multi (urls : list string) (ks : list (string * Z)) :
  (forall u u', u ∈ urls -> u' ∈ urls -> hash8 u = hash8 u' -> u = u') ->
  (multi = false -> forall u u', u ∈ urls -> u' ∈ urls -> u = u') ->
  (forall k, k ∈ ks -> k.1 ∈ urls) -> inj_on (key_of multi) ks.
Proof.
  intros Hh Hs Hk [u p] [u' p'] H1 H2. apply Hk in H1, H2. cbn [fst] in *.
  unfold key_of, bindingsByProjectKey. cbn [fst snd]. destruct multi.
  - intros E. apply (f_equal (js_split colon)) in E. unfold join_colon in E.
    rewrite !js_split_app in E by apply no_colon_hash8.
    rewrite !js_split_no_char in E by auto with js. injection E as E1 E2.
    apply (inj num_to_string) in E2 as ->. by rewrite (Hh u u').
  - intros ->%(inj num_to_string). by rewrite (Hs eq_refl u u').
Qed.

Lemma rekey_run (m : jsmap (string * Z) string) old :
  inj_on (key_of old) (jkeys m) -> inj_on (key_of true) (jkeys m) -> jwf m ->
  rekey (rename (key_of old) (fun _ b => b) m) (rename (key_of old) (fun k _ => MkBindingMeta k.2 k.1) m) =
  (rename (key_of true) (fun _ b => b) m, rename (key_of true) (fun k _ => MkBindingMeta k.2 k.1) m,
   existsb (fun e => negb (bool_decide (key_of true e.1 = key_of old e.1))) m).
Proof.
  intros Ho Hn Hwf. unfold rekey.
  set (meta := rename (key_of old) (fun k _ => MkBindingMeta k.2 k.1) m).
  enough (forall pre suf flag, m = pre ++ suf ->
    fold_left (fun acc e =>
      let '(rekeyed, rekeyedMeta, needsRekey) := acc in
      match jget e.1 meta with
      | None => (jset e.1 e.2 rekeyed, rekeyedMeta, needsRekey)
      | Some m =>
          let newKey := bindingsByProjectKey true (bm_gitlabBaseUrl m) (bm_projectId m) in
          (jset newKey e.2 rekeyed, jset newKey m rekeyedMeta,
           needsRekey || negb (bool_decide (newKey = e.1)))
      end) (rename (key_of old) (fun _ b => b) suf)
      (rename (key_of true) (fun _ b => b) pre, rename (key_of true) (fun k _ => MkBindingMeta k.2 k.1) pre, flag) =
    (rename (key_of true) (fun _ b => b) m, rename (key_of true) (fun k _ => MkBindingMeta k.2 k.1) m,
     flag || existsb (fun e => negb (bool_decide (key_of true e.1 = key_of old e.1))) suf)) as He.
  { by apply (He [] m false). }
  intros pre suf. revert pre. induction suf as [|[k b] suf IH]; intros pre flag Em.
  { rewrite app_nil_r in Em. subst pre. cbn [rename map fold_left existsb]. by rewrite orb_false_r. }
  cbn [rename map fold_left existsb fst snd].
  assert (k ∈ jkeys m) as Hk.
  { rewrite Em. unfold jkeys. rewrite map_app. apply elem_of_app. right. left. }
  assert (jget (key_of old k) meta = Some (MkBindingMeta k.2 k.1)) as ->.
  { unfold meta. rewrite (jget_rename _ _ _ _ (jkeys m)) by done.
    destruct (jkeys_get _ _ Hk) as [w ->]. done. }
  assert (jget k pre = None) as Hpre.
  { apply jget_None_keys. intros Hin. rewrite Em in Hwf. unfold jwf, jkeys in Hwf.
    rewrite map_app in Hwf. apply NoDup_app in Hwf as (_ & Hd & _). apply (Hd k Hin). left. }
  assert (forall (V' : Type) (g : string * Z -> string -> V'),
    jset (key_of true k) (g k b) (rename (key_of true) g pre) = rename (key_of true) g (pre ++ [(k, b)])) as Hset.
  { intros V' g. rewrite (jset_rename _ _ _ _ _ (jkeys m)); [by rewrite jset_new|done|done|].
    intros k' Hk'. rewrite Em. unfold jkeys. rewrite map_app. apply elem_of_app. by left. }
  cbn [bm_gitlabBaseUrl bm_projectId].
  change (bindingsByProjectKey true k.1 k.2) with (key_of true k).
  pose proof (Hset _ (fun _ b => b)) as H1. cbv beta in H1. rewrite H1.
  pose proof (Hset _ (fun k _ => MkBindingMeta k.2 k.1)) as H2. cbv beta in H2. rewrite H2.
  specialize (IH (pre ++ [(k, b)]) (flag || negb (bool_decide (key_of true k = key_of old k)))).
  unfold rename in IH |- *. rewrite IH by by rewrite <- app_assoc. by rewrite orb_assoc.
Qed.

Lemma elem_of_set_add x y l : y ∈ set_add x l <-> y = x \/ y ∈ l.
Proof.
  unfold set_add. case_decide; [|rewrite elem_of_app, list_elem_of_singleton; tauto].
  split; [by right|]. by intros [->|].
Qed.

Lemma instances_snoc hs r : instances (hs ++ [r]) = set_add (rg_gitlabBaseUrl r) (instances hs).
Proof. unfold instances. by rewrite fold_left_app. Qed.

Lemma project_map_snoc hs r :
  project_map (hs ++ [r]) = jset (rg_gitlabBaseUrl r, rg_projectId r) (rg_bindingId r) (project_map hs).
Proof. unfold project_map. by rewrite fold_left_app. Qed.

Lemma project_map_wf hs : jwf (project_map hs).
Proof.
  induction hs as [|r hs IH] using rev_ind; [apply jwf_nil|]. rewrite project_map_snoc. by apply jwf_set.
Qed.

Lemma project_map_keys hs k : k ∈ jkeys (project_map hs) -> k.1 ∈ instances hs.
Proof.
  induction hs as [|r hs IH] using rev_ind; [by intros ?%elem_of_nil|].
  rewrite project_map_snoc, instances_snoc, elem_of_set_add, elem_of_jkeys_set.
  intros [->|Hk]; [by left|right; auto].
Qed.

(** One instance at most, unless two were registered. *)
Lemma single_instance hs u u' :
  spans_instances hs = false -> u ∈ instances hs -> u' ∈ instances hs -> u = u'.
Proof.
  unfold spans_instances. intros Hl. apply Nat.leb_gt in Hl.
  destruct (instances hs) as [|x [|y l]]; cbn [length] in Hl; [by intros ?%elem_of_nil|..|lia].
  by intros ->%list_elem_of_singleton ->%list_elem_of_singleton.
Qed.

Lemma keys_inj hs multi :
  (forall u u', u ∈ instances hs -> u' ∈ instances hs -> hash8 u = hash8 u' -> u = u') ->
  (multi = false -> spans_instances hs = false) ->
  forall ks, (forall k, k ∈ ks -> k.1 ∈ instances hs) -> inj_on (key_of multi) ks.
Proof.
  intros Hh Hm ks Hk. apply (key_of_inj multi (instances hs)); [done| |done].
  intros E u u'. apply single_instance; auto.
Qed.

(** What the registry of one workspace holds after its registrations. *)
Record registry_ok (ws : string) (hs : list Registration) (l : Loader) : Prop := {
  ro_urls : default [] (jget ws (ld_workspaceBaseUrls l)) = instances hs;
  ro_map : default [] (getBindingsByProject ws l) =
    rename (key_of (spans_instances hs)) (fun _ b => b) (project_map hs);
  ro_meta : default [] (jget ws (ld_bindingMetaByWorkspace l)) =
    rename (key_of (spans_instances hs)) (fun k _ => MkBindingMeta k.2 k.1) (project_map hs)
}.

(** Re-keying on the way from one mode to the next. *)
Lemma rekeyed_maps hs r :
  (forall u u', u ∈ instances (hs ++ [r]) -> u' ∈ instances (hs ++ [r]) -> hash8 u = hash8 u' -> u = u') ->
  let old := spans_instances hs in
  let new := spans_instances (hs ++ [r]) in
  let map := rename (key_of old) (fun _ b => b) (project_map hs) in
  let meta := rename (key_of old) (fun k _ => MkBindingMeta k.2 k.1) (project_map hs) in
  (if new then
     let '(rekeyed, rekeyedMeta, needsRekey) := rekey map meta in
     if needsRekey then (rekeyed, rekeyedMeta) else (map, meta)
   else (map, meta)) =
  (rename (key_of new) (fun _ b => b) (project_map hs),
   rename (key_of new) (fun k _ => MkBindingMeta k.2 k.1) (project_map hs)).
Proof.
  intros Hh. cbn zeta.
  assert (forall u, u ∈ instances hs -> u ∈ instances (hs ++ [r])) as Hsub.
  { intros u Hu. rewrite instances_snoc, elem_of_set_add. by right. }
  assert (spans_instances hs = true -> spans_instances (hs ++ [r]) = true) as Hmono.
  { unfold spans_instances. rewrite instances_snoc. intros Hl%Nat.leb_le. apply Nat.leb_le.
    unfold set_add. case_decide; rewrite ?length_app; lia. }
  destruct (spans_instances (hs ++ [r])) eqn:Enew.
  2: { destruct (spans_instances hs); [by specialize (Hmono eq_refl)|done]. }
  assert (forall multi, (multi = false -> spans_instances hs = false) ->
    inj_on (key_of multi) (jkeys (project_map hs))) as Hinj.
  { intros multi Hm. apply (keys_inj hs); [|done|apply project_map_keys]. auto. }
  rewrite rekey_run; [|by apply Hinj|by apply Hinj|apply project_map_wf].
  destruct (existsb _ _) eqn:Ex; [done|].
  assert (forall (V' : Type) (g : string * Z -> string -> V'),
    rename (key_of (spans_instances hs)) g (project_map hs) = rename (key_of true) g (project_map hs)) as He.
  { intros V' g. unfold rename. apply map_ext_in. intros e He. f_equal.
    apply not_true_iff_false in Ex. destruct (decide (key_of true e.1 = key_of (spans_instances hs) e.1)) as [E|E];
      [done|]. exfalso. apply Ex, existsb_exists. exists e. split; [done|].
    by rewrite bool_decide_eq_false_2. }
  by rewrite !He.
Qed.

Lemma register_step_ok ws hs l r :
  (forall u u', u ∈ instances (registered ws (hs ++ [r])) -> u' ∈ instances (registered ws (hs ++ [r])) ->
     hash8 u = hash8 u' -> u = u') ->
  registry_ok ws (registered ws hs) l -> registry_ok ws (registered ws (hs ++ [r])) (register_step l r).
Proof.
  intros Hh [Hu Hb Hm]. unfold registered in *. rewrite List.filter_app in *. cbn [List.filter] in *.
  set (hs0 := List.filter _ hs) in *. set (l1 := registerBaseUrl (rg_workspace r) (rg_gitlabBaseUrl r) l).
  assert (forall w, default [] (jget w (ld_workspaceBaseUrls l1)) =
    if decide (rg_workspace r = w) then set_add (rg_gitlabBaseUrl r) (default [] (jget w (ld_workspaceBaseUrls l)))
    else default [] (jget w (ld_workspaceBaseUrls l))) as Hurls.
  { intros w. unfold l1, registerBaseUrl. cbn [ld_workspaceBaseUrls set_baseUrls]. rewrite jget_set.
    destruct (decide (rg_workspace r = w)) as [<-|E].
    - by destruct (jget (rg_workspace r) (ld_workspaceBaseUrls l)).
    - reflexivity. }
  assert (exists l2, getOrCreateBindingsByProject (rg_workspace r) l1 =
      (default [] (jget (rg_workspace r) (ld_bindingsByWorkspace l)), l2) /\
    ld_workspaceBaseUrls l2 = ld_workspaceBaseUrls l1 /\
    ld_bindingMetaByWorkspace l2 = ld_bindingMetaByWorkspace l /\
    (forall w, rg_workspace r <> w -> jget w (ld_bindingsByWorkspace l2) = jget w (ld_bindingsByWorkspace l)))
    as (l2 & Eg & E1 & E2 & E3).
  { unfold getOrCreateBindingsByProject. change (ld_bindingsByWorkspace l1) with (ld_bindingsByWorkspace l).
    destruct (jget (rg_workspace r) (ld_bindingsByWorkspace l)); eexists; (split; [reflexivity|]);
      (split; [done|split; [done|]]); [done|].
    intros w Hw. cbn [ld_bindingsByWorkspace set_projects]. by rewrite jget_set_ne. }
  unfold register_step, registerBinding. fold l1. rewrite Eg. unfold isMultiInstance. rewrite E1, E2.
  case_bool_decide as Ew; cbn [List.filter] in *.
  - subst ws. rewrite Hurls, decide_True by done. unfold getBindingsByProject in Hb.
    rewrite Hu, Hb, Hm, <- instances_snoc.
    fold (spans_instances (hs0 ++ [r])).
    pose proof (rekeyed_maps hs0 r Hh) as Hre. cbv zeta in Hre.
    match goal with |- context [let '(_, _) := ?X in _] => replace X with
      (rename (key_of (spans_instances (hs0 ++ [r]))) (fun (_ : string * Z) (b : string) => b) (project_map hs0),
       rename (key_of (spans_instances (hs0 ++ [r]))) (fun k (_ : string) => MkBindingMeta k.2 k.1) (project_map hs0))
      by (symmetry; exact Hre) end.
    assert (inj_on (key_of (spans_instances (hs0 ++ [r])))
      ((rg_gitlabBaseUrl r, rg_projectId r) :: jkeys (project_map hs0))) as Hinj.
    { apply (keys_inj (hs0 ++ [r])); [done|done|]. intros k Hk. rewrite instances_snoc, elem_of_set_add.
      apply elem_of_cons in Hk as [->|Hk]; [by left|right; by apply project_map_keys]. }
    assert (forall (V' : Type) (g : string * Z -> string -> V'),
      jset (bindingsByProjectKey (spans_instances (hs0 ++ [r])) (rg_gitlabBaseUrl r) (rg_projectId r))
        (g (rg_gitlabBaseUrl r, rg_projectId r) (rg_bindingId r))
        (rename (key_of (spans_instances (hs0 ++ [r]))) g (project_map hs0)) =
      rename (key_of (spans_instances (hs0 ++ [r]))) g (project_map (hs0 ++ [r]))) as Hset.
    { intros V' g. rewrite project_map_snoc. 
      apply (jset_rename (key_of (spans_instances (hs0 ++ [r]))) g (project_map hs0)
               (rg_gitlabBaseUrl r, rg_projectId r) (rg_bindingId r) _ Hinj); [left|].
      intros k Hk. by right. }
    split; unfold getBindingsByProject;
      cbn [set_projects set_meta ld_workspaceBaseUrls ld_bindingsByWorkspace ld_bindingMetaByWorkspace];
      rewrite ?jget_set_eq, ?E1.
    + by rewrite Hurls, decide_True, Hu, instances_snoc.
    + exact (Hset string (fun _ b => b)).
    + exact (Hset BindingMeta (fun k _ => MkBindingMeta k.2 k.1)).
  - rewrite app_nil_r. match goal with |- context [let '(_, _) := ?X in _] => destruct X as [map' meta'] end.
    split; unfold getBindingsByProject;
      cbn [set_projects set_meta ld_workspaceBaseUrls ld_bindingsByWorkspace ld_bindingMetaByWorkspace];
      rewrite ?jget_set_ne by done.
    + by rewrite E1, Hurls, decide_False.
    + unfold getBindingsByProject in Hb. by rewrite E3.
    + exact Hm.
Qed.

(** C37: after any sequence of loads the registry of a workspace is the map from
    (instance, project) to the binding loaded last for it: its keys are the
    plain project ids as long as one instance was seen, and all of them -
    those registered before the second instance appeared too - carry the
    instance's hash afterwards.  The base URLs are told apart by their hash
    prefix. *)
Theorem registry_refines ws hs :
  let rs := registered ws hs in
  (forall u u', u ∈ instances rs -> u' ∈ instances rs -> hash8 u = hash8 u' -> u = u') ->
  let l := fold_left register_step hs new_loader in
  isMultiInstance ws l = spans_instances rs /\
  default [] (getBindingsByProject ws l) = rename (key_of (spans_instances rs)) (fun _ b => b) (project_map rs).
Proof.
  intros rs Hh l. enough (registry_ok ws rs l) as [Hu Hb _].
  { split; [|exact Hb]. unfold isMultiInstance, spans_instances. by rewrite Hu. }
  unfold rs, l in *. clear rs l. induction hs as [|r hs IH] using rev_ind; [done|].
  rewrite fold_left_app. apply register_step_ok; [done|]. apply IH. intros u u' Hu Hu'.
  apply Hh; unfold registered; rewrite List.filter_app; cbn [List.filter];
    (case_bool_decide; [rewrite instances_snoc, elem_of_set_add; by right|by rewrite app_nil_r]).
Qed.
End RegistrySpec.

(** ** What every load answers *)

(** [m] preserves [I] and its results satisfy [Q]. *)
Definition holds {S A} (I : S -> Prop) (m : M S A) (Q : A -> Prop) : Prop :=
  forall s, I s -> I (m s).2 /\ forall a, (m s).1 = Ok a -> Q a.

Section Holds.
Context {S : Type} (I : S -> Prop).

Lemma holds_ret {A} (a : A) (Q : A -> Prop) : Q a -> holds I (ret a) Q.
Proof. intros Ha s Hs. split; [done|]. by intros ? [= <-]. Qed.

Lemma holds_throw {A} e (Q : A -> Prop) : holds I (throw e) Q.
Proof. by intros s Hs. Qed.

Lemma holds_bind {A B} (m : M S A) (k : A -> M S B) Q R :
  holds I m Q -> (forall a, Q a -> holds I (k a) R) -> holds I (bind m k) R.
Proof.
  intros Hm Hk s Hs. destruct (Hm s Hs) as [H1 H2]. unfold bind.
  destruct (m s) as [[a|e] s1]; cbn [fst snd] in *; [|done]. by apply Hk; [apply H2|].
Qed.

Lemma holds_weaken {A} (m : M S A) (Q R : A -> Prop) :
  holds I m Q -> (forall a, Q a -> R a) -> holds I m R.
Proof. intros Hm Hq s Hs. destruct (Hm s Hs) as [H1 H2]. split; auto. Qed.

Lemma holds_try {A} (m : M S A) (h : exn -> M S A) Q :
  holds I m Q -> (forall e, holds I (h e) Q) -> holds I (try_catch m h) Q.
Proof.
  intros Hm Hh s Hs. destruct (Hm s Hs) as [H1 H2]. unfold try_catch.
  destruct (m s) as [[a|e] s1]; cbn [fst snd] in *; [by split|]. by apply Hh.
Qed.

Lemma holds_gets {A} (f : S -> A) (Q : A -> Prop) : (forall s, I s -> Q (f s)) -> holds I (gets f) Q.
Proof. intros Hq s Hs. split; [done|]. intros a [= <-]. auto. Qed.

Lemma holds_modify f : (forall s, I s -> I (f s)) -> holds I (modify f) (fun _ => True).
Proof. intros Hf s Hs. by split; [apply Hf|]. Qed.

Lemma holds_forM {A} (l : list A) (f : A -> M S unit) :
  (forall x, holds I (f x) (fun _ => True)) -> holds I (forM_ l f) (fun _ => True).
Proof.
  intros Hf. induction l as [|x l IH]; cbn [forM_]; [by apply holds_ret|].
  by eapply holds_bind; [apply Hf|].
Qed.

Lemma holds_mapM {A B} (l : list A) (f : A -> M S B) :
  (forall x, holds I (f x) (fun _ => True)) -> holds I (mapM_js l f) (fun _ => True).
Proof.
  intros Hf. induction l as [|x l IH]; cbn [mapM_js]; [by apply holds_ret|].
  eapply holds_bind; [apply Hf|]. intros y _. eapply holds_bind; [exact IH|]. intros ys _. by apply holds_ret.
Qed.

(** Parts of the state that the invariant does not read. *)
Lemma holds_zoom {T A} (get : S -> T) set (m : M T A) :
  (forall t s, I s -> I (set t s)) -> holds I (zoom get set m) (fun _ => True).
Proof. intros Hs s Hi. unfold zoom. destruct (m (get s)) as [r t]. by split; [apply Hs|]. Qed.
End Holds.

Section SingleInstance.
Context {Coll : Type -> Type} `{Mongo Coll} {P : Platform} {C : Cipher} `{Sha256} {W : Type} `{LoaderWorld W}.
Abbreviation LS := (LoadState Coll W).
Context (deps : BindingLoaderDeps (W := W)).

Inductive LoaderOp := OpLoad (bindingId : string) | OpPipelines (bindingId : string) | OpClose.

Definition loader_step (op : LoaderOp) (s : LS) : LS :=
  match op with
  | OpLoad b => (loadInternal deps b s).2
  | OpPipelines b => (loadForPipelines deps b s).2
  | OpClose => (loader_close deps s).2
  end.

Definition loader_run (ops : list LoaderOp) (s : LS) : LS := fold_left (fun s op => loader_step op s) ops s.

(** No workspace has seen another instance than the default one. *)
Definition default_only (s : LS) : Prop :=
  forall ws urls, jget ws (ld_workspaceBaseUrls (l_loader s)) = Some urls ->
    urls = [dl_defaultGitlabBaseUrl deps].

Lemma default_only_single s ws : default_only s -> isMultiInstance ws (l_loader s) = false.
Proof.
  intros Hd. unfold isMultiInstance. destruct (jget ws _) as [urls|] eqn:E; [|done].
  by apply Hd in E as ->.
Qed.

Lemma resolve_no_url ref :
  holds default_only (resolve (Coll := Coll) deps ref) (fun c => mbind rc_gitlabBaseUrl c = None).
Proof.
  unfold resolve. eapply holds_bind; [by apply holds_zoom|]. intros [r|] _; by apply holds_ret.
Qed.

Lemma find_by_id_holds c cls id : holds default_only (find_by_id (Coll := Coll) c cls id) (fun _ => True).
Proof. by apply holds_zoom. Qed.

Lemma iterate_holds v : holds default_only (iterate v) (fun _ => True).
Proof. unfold iterate. destruct (js_iter v); [by apply holds_ret|apply holds_throw]. Qed.

Lemma caught_holds (m : M LS unit) : holds default_only m (fun _ => True) -> holds default_only (caught m) (fun _ => True).
Proof. intros Hm. apply holds_try; [done|]. intros e. by apply holds_ret. Qed.

Lemma eviction_holds ws : holds default_only (invokeEvictionHook (Coll := Coll) deps ws) (fun _ => True).
Proof.
  unfold invokeEvictionHook. destruct (dl_onWorkspaceEvicted deps); [|by apply holds_ret].
  by apply caught_holds, holds_zoom.
Qed.

Lemma workspace_holds ws : holds default_only (getOrCreateWorkspaceEntry (Coll := Coll) deps ws) (fun _ => True).
Proof.
  unfold getOrCreateWorkspaceEntry. eapply holds_bind with (Q := fun _ => True); [by intros s Hs|].
  intros now _. eapply holds_bind with (Q := fun _ => True); [by apply holds_gets|]. intros cached _.
  set (create := bind _ _). assert (holds default_only create (fun _ => True)) as Hc.
  { eapply holds_bind; [by apply holds_zoom|]. intros client _.
    eapply holds_bind; [by apply holds_modify|]. intros _ _.
    destruct (dl_onWorkspaceLoaded deps); [|by apply holds_ret].
    eapply holds_bind; [apply holds_modify|].
    { intros s0 Hs. unfold getOrCreateBindingsByProject, default_only. by destruct (jget ws _). }
    intros _ _. eapply holds_bind; [by apply caught_holds, holds_zoom|]. intros _ _. by apply holds_ret. }
  destruct cached as [c|]; [|exact Hc]. destruct (now <? _)%Z; [by apply holds_ret|].
  eapply holds_bind; [apply eviction_holds|]. intros _ _.
  eapply holds_bind; [by apply holds_modify|]. intros _ _.
  eapply holds_bind; [by apply caught_holds, holds_zoom|]. by intros _ _.
Qed.

Lemma project_holds c ref : holds default_only (getTrackerProject (Coll := Coll) c ref) (fun _ => True).
Proof.
  unfold getTrackerProject. eapply holds_bind; [apply find_by_id_holds|]. intros [p|] _; [|apply holds_throw].
  eapply holds_bind; [apply find_by_id_holds|]. intros [t|] _; [|by apply holds_ret].
  eapply holds_bind; [apply iterate_holds|]. intros refs _.
  eapply holds_bind; [|intros ? _; by apply holds_ret]. apply holds_mapM. intros x. unfold statuses_of_type.
  eapply holds_bind; [apply find_by_id_holds|]. intros [d|] _; [|by apply holds_ret].
  eapply holds_bind; [apply iterate_holds|]. intros rs _.
  eapply holds_bind; [|intros ? _; by apply holds_ret]. apply holds_mapM. intros y.
  eapply holds_bind; [apply find_by_id_holds|]. intros z _. by apply holds_ret.
Qed.

Lemma register_holds b id :
  holds default_only (register (Coll := Coll) b id (dl_defaultGitlabBaseUrl deps)) (fun multi => multi = false).
Proof.
  unfold register. eapply holds_bind; [apply holds_modify|].
  { intros s Hs ws urls. cbn [l_loader registerBaseUrl set_baseUrls ld_workspaceBaseUrls]. rewrite jget_set.
    case_decide; [|apply Hs]. intros [= <-]. destruct (jget _ _) as [us|] eqn:E; [|done].
    apply Hs in E as ->. unfold set_add. by rewrite decide_True by left. }
  intros _ _. eapply holds_bind; [apply holds_modify|].
  { intros s Hs ws urls. cbn [l_loader]. unfold registerBinding, getOrCreateBindingsByProject.
    destruct (jget _ (ld_bindingsByWorkspace _));
      match goal with |- context [let '(_, _) := ?X in _] => destruct X end; apply Hs. }
  intros _ _. apply holds_gets. intros s Hs. by apply default_only_single.
Qed.

(** The context of a load. *)
Lemma loadInternal_holds id :
  holds default_only (loadInternal (Coll := Coll) deps id) (fun ctx =>
    bx_gitlabBaseUrl ctx = dl_defaultGitlabBaseUrl deps /\ bx_isMultiInstanceWorkspace ctx = Some false).
Proof.
  unfold loadInternal, resolveBinding. eapply holds_bind with (Q := fun _ => True).
  { eapply holds_bind; [by apply holds_zoom|]. intros [b|] _; [by apply holds_ret|apply holds_throw]. }
  intros b _. eapply holds_bind; [apply resolve_no_url|]. intros [c|] Hc; [|apply holds_throw].
  cbn [mbind option_bind] in Hc. rewrite Hc. cbn [default from_option Datatypes.id].
  eapply holds_bind; [by apply caught_holds, holds_zoom|]. intros _ _.
  eapply holds_bind; [apply register_holds|]. intros multi ->.
  eapply holds_bind; [apply workspace_holds|]. intros w _.
  eapply holds_bind; [apply project_holds|]. intros p _.
  eapply holds_bind with (Q := fun _ => True).
  { unfold get_prop. destruct (js_get _ _); [by apply holds_ret|apply holds_throw]. }
  intros len _. destruct (bool_decide _); [apply holds_throw|by apply holds_ret].
Qed.

Lemma loader_step_holds op s : default_only s -> default_only (loader_step op s).
Proof.
  intros Hs. destruct op as [id|id|]; cbn [loader_step].
  - by apply loadInternal_holds.
  - revert s Hs. enough (holds default_only (loadForPipelines (Coll := Coll) deps id) (fun _ => True)) as Hp
      by by intros s Hs; apply Hp.
    unfold loadForPipelines, resolveBinding. eapply holds_bind with (Q := fun _ => True).
    { eapply holds_bind; [by apply holds_zoom|]. intros [b|] _; [by apply holds_ret|apply holds_throw]. }
    intros b _. eapply holds_bind; [apply resolve_no_url|]. intros c ->. cbn [default from_option Datatypes.id].
    eapply holds_bind; [apply register_holds|]. intros multi ->.
    eapply holds_bind; [apply workspace_holds|]. intros w _. by apply holds_ret.
  - revert s Hs. enough (holds default_only (loader_close (Coll := Coll) deps) (fun _ => True)) as Hp
      by by intros s Hs; apply Hp.
    unfold loader_close. eapply holds_bind with (Q := fun _ => True); [by apply holds_gets|]. intros es _.
    eapply holds_bind with (Q := fun _ => True).
    { apply holds_forM. intros e. eapply holds_bind; [apply eviction_holds|]. intros _ _.
      by apply caught_holds, holds_zoom. }
    intros _ _. by apply holds_modify.
Qed.

(** Whatever bindings and credentials the store holds and whatever was
    loaded before, every loaded context talks to the default GitLab base URL
    and takes its workspace for a single-instance one: the credential
    resolver answers no base URL.  The multi-instance keys are never used. *)
Theorem every_context_single_instance ops s id ctx s' :
  l_loader s = new_loader ->
  loadInternal deps id (loader_run ops s) = (Ok ctx, s') ->
  bx_gitlabBaseUrl ctx = dl_defaultGitlabBaseUrl deps /\ bx_isMultiInstanceWorkspace ctx = Some false.
Proof.
  intros Hs Hr. assert (default_only (loader_run ops s)) as Hd.
  { unfold loader_run. assert (default_only s) as Hd by (intros ws urls; by rewrite Hs).
    clear Hs Hr. revert s Hd. induction ops as [|op ops IH]; intros s Hd; [done|].
    by apply IH, loader_step_holds. }
  destruct (loadInternal_holds id _ Hd) as [_ Hc]. apply Hc. by rewrite Hr.
Qed.
End SingleInstance.

(** ** Closed examples

    A world with one project; clients are numbered by how many were opened. *)

#[export] Instance toy_loader_world : LoaderWorld nat := {
  createPlatformClient _ := fun n => (Ok n, S n);
  closePlatformClient _ := ret tt;
  client_findOne _ cls query :=
    ret (if bool_decide (cls = TRACKER_PROJECT) then
           Some (MkHulyDoc "proj" TRACKER_PROJECT "space" [("type", VStr "ptype")] [])
         else if bool_decide (cls = TASK_PROJECT_TYPE) then
           Some (MkHulyDoc "ptype" TASK_PROJECT_TYPE "space" [("tasks", VArr [VStr "tt"])] [])
         else if bool_decide (cls = TASK_TASK_TYPE) then
           Some (MkHulyDoc "tt" TASK_TASK_TYPE "space" [("statuses", VArr [VStr "s-todo"])] [])
         else Some (MkHulyDoc "s-todo" TRACKER_ISSUE_STATUS "space"
                      [("category", VStr "task:statusCategory:ToDo")] []));
  detectCapabilities _ _ := ret tt
}.

(** A binding whose credential was stored for a self-hosted instance. *)
Definition self_hosted : LoadState list nat :=
  MkLoadState
    (MkStore [MkBindingDoc "oid-9" "ws" "proj" 42 "group/project" "oid-0" "secret" None true 0 false]
       [] [] [] [])
    (putCredential "key"
       (MkPutCredentialInput CkOauth "token" None None (Some "https://gitlab.example") (Some "ws")) empty_creds).2
    new_loader 0.

Definition toy_loader_deps : BindingLoaderDeps (W := nat) :=
  MkLoaderDeps "https://gitlab.com" "key" 1800000 None None.

Lemma every_context_single_instance_witness :
  exists ctx s', loadInternal toy_loader_deps "oid-9" (loader_run toy_loader_deps [OpLoad "oid-9"; OpClose] self_hosted)
      = (Ok ctx, s') /\
    bx_gitlabBaseUrl ctx = "https://gitlab.com".
Proof.
  destruct (loadInternal toy_loader_deps "oid-9" (loader_run toy_loader_deps [OpLoad "oid-9"; OpClose] self_hosted))
    as [[ctx|e] s'] eqn:E; [|by vm_compute in E].
  exists ctx, s'. split; [done|].
  by destruct (every_context_single_instance toy_loader_deps [OpLoad "oid-9"; OpClose] self_hosted "oid-9" ctx s').
Defined.

Definition toy_registrations : list Registration :=
  [MkRegistration "ws" "https://a.example" 42 "b1"; MkRegistration "other" "https://a.example" 7 "b9";
   MkRegistration "ws" "https://bb.example" 42 "b2"; MkRegistration "ws" "https://a.example" 42 "b3"].

Lemma registry_refines_witness :
  default [] (getBindingsByProject "ws" (fold_left register_step toy_registrations new_loader)) =
  [("bbbbbbbb:42", "b3"); ("aaaaaaaa:42", "b2")].
Proof.
  destruct (registry_refines "ws" toy_registrations) as [_ E].
  - intros u u' Hu Hu'. 
    change (instances (registered "ws" toy_registrations)) with ["https://a.example"; "https://bb.example"] in *.
    rewrite !elem_of_cons, elem_of_nil in Hu, Hu'.
    by destruct Hu as [->|[->|[]]], Hu' as [->|[->|[]]].
  - rewrite E. by vm_compute.
Defined.
