(* ===== verification/TxSubscriber.v ===== *)
(** * The Huly transaction subscriber (src/sync/tx-subscription.ts,
    src/sync/originated-marker.ts and its wiring in src/index.ts)

    The subscriber translates the platform's transactions into local sync
    events.  It filters the echoes of the pod's own writes by author and by
    marker, classifies the rest, resolves their binding, and either hands
    them to the engine or, until the engine has started, buffers them.

    The engine is seen through the class [LocalQueue]; the sync engine is an
    instance. *)

From S2P Require Import Prelude JsMap JsVal Metrics Platform Conflict Mongo Store Queue Breaker.
From S2P Require Import Engine.
Open Scope string_scope.
Open Scope list_scope.

(** ** originated-marker.ts *)

Definition ORIGINATED_MARKER_KEY : string := "_originated".
Definition ORIGINATED_MARKER_VALUE : string := "gitlab".

Definition withOriginatedMarker (attrs : record) : record :=
  jset ORIGINATED_MARKER_KEY (VStr ORIGINATED_MARKER_VALUE) attrs.

(** [typeof setOp === 'object']: an object, or an array or date, which are
    spread into an object without their own named keys. *)
Definition withOriginatedMarkerForOperators (ops : record) : record :=
  match field "$set" ops with
  | Some (VObj setOp) => jset "$set" (VObj (withOriginatedMarker setOp)) ops
  | Some (VArr l) =>
      jset "$set" (VObj (withOriginatedMarker
        (imap (fun i v => (pretty i, v)) l))) ops
  | Some (VDate _) => jset "$set" (VObj (withOriginatedMarker [])) ops
  | _ => withOriginatedMarker ops
  end.

(** ** Transactions *)

Definition TX_CLASS_CREATE : string := "core:class:TxCreateDoc".
Definition TX_CLASS_UPDATE : string := "core:class:TxUpdateDoc".
Definition TX_CLASS_REMOVE : string := "core:class:TxRemoveDoc".
Definition TX_CLASS_MIXIN : string := "core:class:TxMixin".
Definition HULY_CLASS_ISSUE : string := "tracker:class:Issue".
Definition HULY_CLASS_CHAT_MESSAGE : string := "chunter:class:ChatMessage".
Definition MR_MIXIN : string := "gitlab-mr".
Definition MR_REVIEW_THREAD_MIXIN : string := "gitlab-review".

Record Tx := MkTx {
  tx_class : string;
  tx_modifiedBy : string;
  tx_objectId : string;
  tx_objectClass : string;
  tx_mixin : option string;
  tx_attributes : option record;
  tx_operations : option record
}.

(** [o?._originated === 'gitlab'] *)
Definition has_marker (o : option record) : bool :=
  match o with
  | Some r => bool_decide (field ORIGINATED_MARKER_KEY r = Some (VStr ORIGINATED_MARKER_VALUE))
  | None => false
  end.

Definition isGitlabOriginated (tx : Tx) : bool :=
  if decide (tx_class tx = TX_CLASS_REMOVE) then false
  else
    has_marker (tx_attributes tx) ||
    has_marker (tx_operations tx) ||
    has_marker (match tx_operations tx with
                | Some ops => as_object (field "$set" ops)
                | None => None
                end).

Inductive SyncKind := SkMergeRequest | SkReview | SkIssue | SkNote.

Definition kind_string (k : SyncKind) : string :=
  match k with
  | SkMergeRequest => "merge_request" | SkReview => "review" | SkIssue => "issue" | SkNote => "note"
  end.

(** [BufferedEntry] *)
Record BufferedEntry := MkBufferedEntry {
  be_binding : string;
  be_kind : SyncKind;
  be_doc : string;
  be_change : record
}.

Record Classified := MkClassified {
  cl_kind : SyncKind;
  cl_doc : string;
  cl_change : record;
  cl_objectClass : string
}.

(** The kind of an object class, shared by the update, create and remove
    branches of [classify]. *)
Definition class_kind (objectClass : string) : option SyncKind :=
  if decide (objectClass = HULY_CLASS_ISSUE) then Some SkIssue
  else if decide (objectClass = HULY_CLASS_CHAT_MESSAGE) then Some SkNote
  else None.

Definition classified_as (tx : Tx) (change : record) (k : SyncKind) : Classified :=
  MkClassified k (tx_objectId tx) change (tx_objectClass tx).

Definition classify (tx : Tx) : option Classified :=
  if decide (tx_class tx = TX_CLASS_MIXIN) then
    let change := default [] (tx_attributes tx) in
    if decide (tx_mixin tx = Some MR_MIXIN) then Some (classified_as tx change SkMergeRequest)
    else if decide (tx_mixin tx = Some MR_REVIEW_THREAD_MIXIN)
         then Some (classified_as tx change SkReview)
    else None
  else if decide (tx_class tx = TX_CLASS_UPDATE) then
    option_map (classified_as tx (default [] (tx_operations tx))) (class_kind (tx_objectClass tx))
  else if decide (tx_class tx = TX_CLASS_CREATE) then
    option_map (classified_as tx (default [] (tx_attributes tx))) (class_kind (tx_objectClass tx))
  else if decide (tx_class tx = TX_CLASS_REMOVE) then
    option_map (classified_as tx [("_removed", VBool true)]) (class_kind (tx_objectClass tx))
  else None.

(** ** The subscriber *)

(** What the subscriber needs of the engine: an [enqueueLocalEvent] that
    returns. *)
Class LocalQueue (E : Type) := {
  enqueue_local : forall (binding kind doc : string) (change : record), M E unit;
  enqueue_local_ok : forall b k d c e, exists e', enqueue_local b k d c e = (Ok tt, e')
}.

#[export] Instance engine_local_queue {Coll X} `{Mongo Coll} : LocalQueue (Engine Coll X) := {
  enqueue_local := enqueueLocalEvent;
  enqueue_local_ok b k d c e := ex_intro _ _ eq_refl
}.

Definition BUFFER_MAX : nat := 1024.

(** [sb_attached]: [client.notify] is this subscriber's handler. *)
Record Sub := MkSub {
  sb_buffer : list BufferedEntry;
  sb_engineStarted : bool;
  sb_stopped : bool;
  sb_attached : bool
}.

Definition new_sub : Sub := MkSub [] false false false.

(** The construction-time dependencies a transaction is checked against;
    the project map is the live map at the time of the transaction. *)
Record TxSubscriberDeps := MkDeps {
  dp_serviceAccountPersonId : string;
  dp_bindingsByProject : jsmap string string;
  dp_resolveBindingForDoc : option (string -> string -> res (option string))
}.

Record SubState (E : Type) := MkSubState {
  ss_sub : Sub;
  ss_metrics : counters;
  ss_engine : E
}.
Arguments MkSubState {E}.
Arguments ss_sub {E}.
Arguments ss_metrics {E}.
Arguments ss_engine {E}.

Section Subscriber.
Context {E : Type} `{LocalQueue E}.

Definition set_sub (f : Sub -> Sub) : M (SubState E) unit :=
  modify (fun s => MkSubState (f (ss_sub s)) (ss_metrics s) (ss_engine s)).

Definition sub_count (name : string) : M (SubState E) unit :=
  modify (fun s => MkSubState (ss_sub s) (increment name (ss_metrics s)) (ss_engine s)).

Definition sub_enqueue (entry : BufferedEntry) : M (SubState E) unit := fun s =>
  let '(r, e) := enqueue_local (be_binding entry) (kind_string (be_kind entry)) (be_doc entry)
                   (be_change entry) (ss_engine s) in
  (r, MkSubState (ss_sub s) (ss_metrics s) e).

Definition resolveBinding (dp : TxSubscriberDeps) (docRef objectClass : string)
    : M (SubState E) (option string) :=
  match dp_resolveBindingForDoc dp with
  | Some resolve => fun s => (resolve docRef objectClass, s)
  | None =>
      ret (if decide (jsize (dp_bindingsByProject dp) = 1) then
             head (jvalues (dp_bindingsByProject dp))
           else None)
  end.

Definition onTx (dp : TxSubscriberDeps) (tx : Tx) : M (SubState E) unit :=
  let! stopped := gets (fun s => sb_stopped (ss_sub s)) in
  if (stopped : bool) then ret tt
  else if decide (tx_modifiedBy tx = dp_serviceAccountPersonId dp) then
    sub_count TX_SUBSCRIPTION_ECHO_DROPPED
  else if isGitlabOriginated tx then sub_count TX_SUBSCRIPTION_ECHO_DROPPED
  else
    match classify tx with
    | None => ret tt
    | Some c =>
        let! binding := resolveBinding dp (cl_doc c) (cl_objectClass c) in
        match binding with
        | None => ret tt
        | Some b =>
            let entry := MkBufferedEntry b (cl_kind c) (cl_doc c) (cl_change c) in
            let! started := gets (fun s => sb_engineStarted (ss_sub s)) in
            if (started : bool) then sub_enqueue entry
            else
              let! buffer := gets (fun s => sb_buffer (ss_sub s)) in
              if (BUFFER_MAX <=? length buffer)%nat then sub_count TX_SUBSCRIPTION_BUFFER_OVERFLOW
              else set_sub (fun sb => MkSub (sb_buffer sb ++ [entry]) (sb_engineStarted sb)
                                        (sb_stopped sb) (sb_attached sb))
        end
    end.

(** [client.notify(...txes)]: nothing when no handler is attached. *)
Definition notify (dp : TxSubscriberDeps) (txes : list Tx) : M (SubState E) unit :=
  let! attached := gets (fun s => sb_attached (ss_sub s)) in
  if (attached : bool) then forM_ txes (fun tx => try_catch (onTx dp tx) (fun _ => ret tt))
  else ret tt.

Definition sub_start : M (SubState E) unit :=
  set_sub (fun sb => MkSub (sb_buffer sb) (sb_engineStarted sb) false true).

Definition markEngineStarted : M (SubState E) unit :=
  let! drained := gets (fun s => sb_buffer (ss_sub s)) in
  set_sub (fun sb => MkSub [] true (sb_stopped sb) (sb_attached sb)) ;;!
  forM_ drained sub_enqueue.

Definition sub_stop : M (SubState E) unit :=
  set_sub (fun sb => MkSub [] (sb_engineStarted sb) true false).

(** ** Specification

    What a transaction is to the engine: the entry it is delivered as, or
    [None] when it is dropped. *)

Definition echo (dp : TxSubscriberDeps) (tx : Tx) : bool :=
  bool_decide (tx_modifiedBy tx = dp_serviceAccountPersonId dp) || isGitlabOriginated tx.

Definition binding_of (dp : TxSubscriberDeps) (c : Classified) : option string :=
  match dp_resolveBindingForDoc dp with
  | Some resolve => match resolve (cl_doc c) (cl_objectClass c) with Ok b => b | Throw _ => None end
  | None => match dp_bindingsByProject dp with [(_, b)] => Some b | _ => None end
  end.

Definition delivered (dp : TxSubscriberDeps) (tx : Tx) : option BufferedEntry :=
  if echo dp tx then None
  else c ← classify tx; b ← binding_of dp c;
       Some (MkBufferedEntry b (cl_kind c) (cl_doc c) (cl_change c)).

(** The engine after these local events, in this order. *)
Definition deliver (entries : list BufferedEntry) (e : E) : E :=
  fold_left (fun e entry =>
    (enqueue_local (be_binding entry) (kind_string (be_kind entry)) (be_doc entry)
       (be_change entry) e).2) entries e.

(** ** Lemmas *)

Lemma sub_enqueue_eq entry s :
  sub_enqueue entry s = (Ok tt, MkSubState (ss_sub s) (ss_metrics s) (deliver [entry] (ss_engine s))).
Proof.
  unfold sub_enqueue, deliver. cbn [fold_left].
  destruct (enqueue_local_ok (be_binding entry) (kind_string (be_kind entry)) (be_doc entry)
    (be_change entry) (ss_engine s)) as [e' E']. by rewrite E'.
Qed.

Lemma forM_enqueue entries s :
  forM_ entries sub_enqueue s =
  (Ok tt, MkSubState (ss_sub s) (ss_metrics s) (deliver entries (ss_engine s))).
Proof.
  revert s. induction entries as [|x l IH]; intros s; [by destruct s|].
  cbn [forM_]. rewrite (bind_ok _ _ _ _ _ (sub_enqueue_eq x s)), IH. done.
Qed.

Lemma resolveBinding_eq dp c (s : SubState E) :
  exists r, resolveBinding dp (cl_doc c) (cl_objectClass c) s = (r, s) /\
    match r with Ok b => b | Throw _ => None end = binding_of dp c.
Proof.
  unfold resolveBinding, binding_of. destruct (dp_resolveBindingForDoc dp) as [f|]; [by eexists|].
  eexists. split; [reflexivity|]. destruct (dp_bindingsByProject dp) as [|[k b] [|]]; done.
Qed.

(** The effect of one transaction on a live subscriber. *)
Definition tx_effect (dp : TxSubscriberDeps) (tx : Tx) (s : SubState E) : SubState E :=
  let 'MkSubState sb m e := s in
  if echo dp tx then MkSubState sb (increment TX_SUBSCRIPTION_ECHO_DROPPED m) e
  else
    match delivered dp tx with
    | None => s
    | Some entry =>
        if sb_engineStarted sb then MkSubState sb m (deliver [entry] e)
        else if (BUFFER_MAX <=? length (sb_buffer sb))%nat
             then MkSubState sb (increment TX_SUBSCRIPTION_BUFFER_OVERFLOW m) e
        else MkSubState (MkSub (sb_buffer sb ++ [entry]) false (sb_stopped sb) (sb_attached sb)) m e
    end.

Lemma onTx_effect dp tx s :
  sb_stopped (ss_sub s) = false ->
  try_catch (onTx dp tx) (fun _ => ret tt) s = (Ok tt, tx_effect dp tx s).
Proof.
  destruct s as [sb m e]. cbn [ss_sub]. intros Hst.
  unfold try_catch, onTx, bind at 1, gets at 1. cbn [ss_sub]. rewrite Hst.
  unfold tx_effect, delivered, echo. case_bool_decide as Ha;
    [rewrite decide_True by done; done|rewrite decide_False by done]. cbn [orb].
  destruct (isGitlabOriginated tx); [done|].
  destruct (classify tx) as [c|]; [|done]. cbn [mbind option_bind].
  destruct (resolveBinding_eq dp c (MkSubState sb m e)) as (r & Er & Eb).
  unfold bind at 1. rewrite Er, <- Eb. destruct r as [[b|]|]; cbn [mbind option_bind]; [|done|done].
  unfold bind, gets. cbn [ss_sub]. destruct sb as [bf st sp at_].
  cbn [sb_engineStarted sb_buffer sb_stopped sb_attached]. destruct st.
  - by rewrite sub_enqueue_eq.
  - by destruct (_ <=? _)%nat.
Qed.

Lemma tx_effect_flags dp tx s :
  sb_stopped (ss_sub (tx_effect dp tx s)) = sb_stopped (ss_sub s) /\
  sb_attached (ss_sub (tx_effect dp tx s)) = sb_attached (ss_sub s) /\
  sb_engineStarted (ss_sub (tx_effect dp tx s)) = sb_engineStarted (ss_sub s).
Proof.
  destruct s as [[bf st sp at_] m e]. unfold tx_effect. destruct (echo dp tx); [done|].
  destruct (delivered dp tx); [|done]. cbn [sb_engineStarted sb_buffer].
  destruct st; [done|]. by destruct (_ <=? _)%nat.
Qed.

Lemma notify_effect dp txes s :
  sb_attached (ss_sub s) = true -> sb_stopped (ss_sub s) = false ->
  notify dp txes s = (Ok tt, fold_left (fun s tx => tx_effect dp tx s) txes s).
Proof.
  intros Ha. unfold notify, bind at 1, gets. rewrite Ha. clear Ha.
  revert s. induction txes as [|tx l IH]; intros s Hs; [done|].
  cbn [forM_ fold_left]. rewrite (bind_ok _ _ _ _ _ (onTx_effect dp tx s Hs)).
  apply IH. by rewrite (proj1 (tx_effect_flags dp tx s)).
Qed.

(** What a run of transactions adds to each counter of the process. *)
Definition counted (echoes overflow : nat) (name : string) : Z :=
  if decide (name = TX_SUBSCRIPTION_ECHO_DROPPED) then Z.of_nat echoes
  else if decide (name = TX_SUBSCRIPTION_BUFFER_OVERFLOW) then Z.of_nat overflow
  else 0%Z.

Definition counts (echoes overflow : nat) (m m' : counters) : Prop :=
  forall name, metric name m' = (metric name m + counted echoes overflow name)%Z.

Lemma counts_refl m : counts 0 0 m m.
Proof. intros name. unfold counted. repeat case_decide; lia. Qed.

Lemma counts_echo n k m m' :
  counts n k (increment TX_SUBSCRIPTION_ECHO_DROPPED m) m' -> counts (S n) k m m'.
Proof.
  intros Hc name. rewrite Hc, metric_increment. unfold counted.
  repeat case_decide; subst; try done; lia.
Qed.

Lemma counts_overflow n k m m' :
  counts n k (increment TX_SUBSCRIPTION_BUFFER_OVERFLOW m) m' -> counts n (S k) m m'.
Proof.
  intros Hc name. rewrite Hc, metric_increment. unfold counted.
  repeat case_decide; subst; try done; lia.
Qed.

(** A started subscriber: every delivered entry goes to the engine. *)
Lemma started_run dp txes sb m e :
  sb_engineStarted sb = true ->
  exists m', fold_left (fun s tx => tx_effect dp tx s) txes (MkSubState sb m e) =
    MkSubState sb m' (deliver (omap (delivered dp) txes) e) /\
    counts (length (List.filter (echo dp) txes)) 0 m m'.
Proof.
  intros Hst. revert m e. induction txes as [|tx l IH]; intros m e.
  { exists m. split; [done|apply counts_refl]. }
  cbn [fold_left omap list_omap List.filter]. unfold tx_effect at 2.
  destruct (echo dp tx) eqn:Ee.
  - destruct (IH (increment TX_SUBSCRIPTION_ECHO_DROPPED m) e) as (m' & -> & Hc).
    exists m'. unfold delivered at 2. rewrite Ee. split; [done|]. by apply counts_echo.
  - destruct (delivered dp tx) as [entry|]; [|apply IH].
    rewrite Hst. destruct (IH m (deliver [entry] e)) as (m' & -> & Hc). by exists m'.
Qed.

(** A subscriber that waits for the engine buffers the first entries. *)
Lemma waiting_run dp txes buf at_ m e :
  length buf <= BUFFER_MAX ->
  exists m', fold_left (fun s tx => tx_effect dp tx s) txes
      (MkSubState (MkSub buf false false at_) m e) =
    MkSubState (MkSub (take BUFFER_MAX (buf ++ omap (delivered dp) txes)) false false at_) m' e /\
    counts (length (List.filter (echo dp) txes)) (length (buf ++ omap (delivered dp) txes) - BUFFER_MAX) m m'.
Proof.
  revert buf m. induction txes as [|tx l IH]; intros buf m Hb.
  - exists m. cbn [fold_left omap list_omap List.filter length]. rewrite app_nil_r, take_ge by done.
    split; [done|]. replace (length buf - BUFFER_MAX) with 0 by lia. apply counts_refl.
  - cbn [fold_left]. unfold tx_effect at 2. cbn [omap list_omap List.filter].
    destruct (echo dp tx) eqn:Ee.
    + destruct (IH buf (increment TX_SUBSCRIPTION_ECHO_DROPPED m) Hb) as (m' & -> & Hc).
      assert (delivered dp tx = None) as -> by (unfold delivered; by rewrite Ee).
      exists m'. split; [done|]. by apply counts_echo.
    + destruct (delivered dp tx) as [entry|]; [|apply IH; done].
      cbn [sb_engineStarted sb_buffer sb_stopped sb_attached].
      destruct (_ <=? _)%nat eqn:El; reflect_bools.
      * destruct (IH buf (increment TX_SUBSCRIPTION_BUFFER_OVERFLOW m) Hb) as (m' & -> & Hc).
        exists m'. split; [by rewrite !take_app_le by lia|]. apply counts_overflow in Hc.
        rewrite length_app in *. cbn [length]. revert Hc.
        by replace (length buf + S (length (omap (delivered dp) l)) - BUFFER_MAX)
          with (S (length buf + length (omap (delivered dp) l) - BUFFER_MAX)) by lia.
      * destruct (IH (buf ++ [entry]) m) as (m' & -> & Hc); [rewrite length_app; cbn; lia|].
        exists m'. rewrite <- app_assoc in *. cbn [app] in *. done.
Qed.
End Subscriber.

(** ** The subscribers of a process (src/index.ts)

    One subscriber per workspace, all before one engine; a workspace loaded
    after the engine has started is marked at once. *)

Record Pod (E : Type) := MkPod {
  pod_subs : jsmap string Sub;
  pod_engineHasStarted : bool;
  pod_metrics : counters;
  pod_engine : E
}.
Arguments MkPod {E}.
Arguments pod_subs {E}.
Arguments pod_engineHasStarted {E}.
Arguments pod_metrics {E}.
Arguments pod_engine {E}.

Section PodOps.
Context {E : Type} `{LocalQueue E}.

(** Run an operation of the subscriber of a workspace. *)
Definition on_sub (ws : string) (m : M (SubState E) unit) : M (Pod E) unit := fun p =>
  match jget ws (pod_subs p) with
  | None => (Ok tt, p)
  | Some sb =>
      let '(r, s) := m (MkSubState sb (pod_metrics p) (pod_engine p)) in
      (r, MkPod (jset ws (ss_sub s) (pod_subs p)) (pod_engineHasStarted p) (ss_metrics s) (ss_engine s))
  end.

Definition startTxSubscriberForWorkspace (ws : string) : M (Pod E) unit :=
  let! known := gets (fun p => jhas ws (pod_subs p)) in
  if (known : bool) then ret tt
  else
    modify (fun p => MkPod (jset ws new_sub (pod_subs p)) (pod_engineHasStarted p)
                       (pod_metrics p) (pod_engine p)) ;;!
    on_sub ws sub_start ;;!
    let! started := gets pod_engineHasStarted in
    if (started : bool) then on_sub ws markEngineStarted else ret tt.

Definition stopTxSubscriberForWorkspace (ws : string) : M (Pod E) unit :=
  let! known := gets (fun p => jhas ws (pod_subs p)) in
  if (known : bool) then
    on_sub ws sub_stop ;;!
    modify (fun p => MkPod (jdelete ws (pod_subs p)) (pod_engineHasStarted p)
                       (pod_metrics p) (pod_engine p))
  else ret tt.

(** After [await syncEngine.start()]. *)
Definition mark_all_started : M (Pod E) unit :=
  modify (fun p => MkPod (pod_subs p) true (pod_metrics p) (pod_engine p)) ;;!
  let! ks := gets (fun p => jkeys (pod_subs p)) in
  forM_ ks (fun ws => on_sub ws markEngineStarted).

(** The platform calls the handler of a workspace's client. *)
Definition pod_notify (ws : string) (dp : TxSubscriberDeps) (txes : list Tx) : M (Pod E) unit :=
  on_sub ws (notify dp txes).
End PodOps.

(** ** Theorems *)

Section Theorems.
Context {E : Type} `{LocalQueue E}.


(** A transaction whose payload was stamped by either marker helper, or
    whose author is the service account, only moves the echo counter; a
    remove has no payload, so a remove by any other author is not filtered. *)
Theorem echo_filter dp tx (s : SubState E) :
  sb_attached (ss_sub s) = true -> sb_stopped (ss_sub s) = false ->
  (tx_modifiedBy tx = dp_serviceAccountPersonId dp \/
   tx_class tx <> TX_CLASS_REMOVE /\
     ((exists attrs, tx_attributes tx = Some (withOriginatedMarker attrs)) \/
      (exists ops, tx_operations tx = Some (withOriginatedMarker ops)) \/
      (exists ops, tx_operations tx = Some (withOriginatedMarkerForOperators ops))) ->
   notify dp [tx] s = (Ok tt, MkSubState (ss_sub s)
     (increment TX_SUBSCRIPTION_ECHO_DROPPED (ss_metrics s)) (ss_engine s))) /\
  (tx_class tx = TX_CLASS_REMOVE -> tx_modifiedBy tx <> dp_serviceAccountPersonId dp ->
   echo dp tx = false).
Proof.
  intros Ha Hs.
  assert (forall r, has_marker (Some (withOriginatedMarker r)) = true) as Hm.
  { intros r. unfold has_marker, withOriginatedMarker, field. rewrite jget_set_eq.
    by apply bool_decide_eq_true. }
  split.
  - intros Hecho. rewrite notify_effect by done. cbn [fold_left]. unfold tx_effect.
    destruct s as [sb m e]. cbn [ss_sub ss_metrics ss_engine].
    enough (echo dp tx = true) as -> by done. unfold echo.
    destruct Hecho as [->|[Hc Hp]]; [by rewrite bool_decide_eq_true_2|].
    enough (isGitlabOriginated tx = true) as -> by apply orb_true_r.
    unfold isGitlabOriginated. rewrite decide_False by done.
    destruct Hp as [[r ->]|[[r ->]|[r ->]]]; [by rewrite Hm|by rewrite Hm, orb_true_r|].
    unfold withOriginatedMarkerForOperators.
    destruct (field "$set" r) as [[]|]; rewrite ?Hm, ?orb_true_r; try done;
      unfold field at 1; rewrite jget_set_eq; cbn [as_object];
      rewrite Hm; by rewrite ?orb_true_r.
  - intros Hc Hne. unfold echo, isGitlabOriginated. rewrite bool_decide_eq_false_2 by done.
    by rewrite decide_True.
Qed.

(** Without a resolver, a workspace with no binding or with more than
    one delivers nothing: every transaction that is not an echo is dropped
    without a trace. *)
Theorem ambiguous_workspace_drops_all dp txes (s : SubState E) :
  dp_resolveBindingForDoc dp = None -> jsize (dp_bindingsByProject dp) <> 1 ->
  ss_sub (notify dp txes s).2 = ss_sub s /\ ss_engine (notify dp txes s).2 = ss_engine s /\
  (List.filter (echo dp) txes = [] -> (notify dp txes s).2 = s).
Proof.
  intros Hr Hsz.
  assert (forall tx, delivered dp tx = None) as Hnone.
  { intros tx. unfold delivered, binding_of. rewrite Hr. destruct (echo dp tx); [done|].
    destruct (classify tx) as [c|]; [|done]. cbn. destruct (dp_bindingsByProject dp) as [|[k b] [|]]; done. }
  destruct (sb_attached (ss_sub s)) eqn:Ha.
  2: { unfold notify, bind, gets. rewrite Ha. done. }
  assert (forall l s', (sb_stopped (ss_sub s') = true -> forM_ l (fun tx => try_catch (onTx dp tx) (fun _ => ret tt)) s' = (Ok tt, s'))) as Hstop.
  { induction l as [|tx l IH]; intros s' Hs'; [done|]. cbn [forM_].
    erewrite bind_ok; [by apply IH|]. unfold try_catch, onTx, bind, gets. by rewrite Hs'. }
  destruct (sb_stopped (ss_sub s)) eqn:Hs.
  { unfold notify, bind, gets. rewrite Ha, Hstop by done. done. }
  rewrite notify_effect by done. cbn [snd]. clear Ha Hs Hstop.
  revert s. induction txes as [|tx l IH]; intros s; [done|]. cbn [fold_left List.filter].
  assert (tx_effect dp tx s = if echo dp tx then MkSubState (ss_sub s)
    (increment TX_SUBSCRIPTION_ECHO_DROPPED (ss_metrics s)) (ss_engine s) else s) as ->.
  { unfold tx_effect. rewrite Hnone. by destruct s. }
  destruct (echo dp tx).
  - destruct (IH (MkSubState (ss_sub s) (increment TX_SUBSCRIPTION_ECHO_DROPPED (ss_metrics s)) (ss_engine s)))
      as (-> & -> & _). done.
  - apply IH.
Qed.

(** *** The process *)

Definition sub_ok (started : bool) (sb : Sub) : Prop :=
  sb_attached sb = true /\ sb_stopped sb = false /\
  (started = true -> sb_engineStarted sb = true /\ sb_buffer sb = []).

Definition pod_inv (p : Pod E) : Prop :=
  jwf (pod_subs p) /\
  forall ws sb, jget ws (pod_subs p) = Some sb -> sub_ok (pod_engineHasStarted p) sb.

Inductive pod_step (p : Pod E) : Pod E -> Prop :=
  | ps_load ws : pod_step p (startTxSubscriberForWorkspace ws p).2
  | ps_evict ws : pod_step p (stopTxSubscriberForWorkspace ws p).2
  | ps_started : pod_step p (mark_all_started p).2
  | ps_notify ws dp txes : pod_step p (pod_notify ws dp txes p).2.

Inductive pod_reach (p0 : Pod E) : Pod E -> Prop :=
  | pr_refl : pod_reach p0 p0
  | pr_step p p' : pod_reach p0 p -> pod_step p p' -> pod_reach p0 p'.

(** An operation of one subscriber touches no other. *)
Lemma on_sub_get ws m (p : Pod E) ws' :
  pod_engineHasStarted (on_sub ws m p).2 = pod_engineHasStarted p /\
  (jwf (pod_subs p) -> jwf (pod_subs (on_sub ws m p).2)) /\
  jget ws' (pod_subs (on_sub ws m p).2) =
    if decide (ws = ws') then
      option_map (fun sb => ss_sub (m (MkSubState sb (pod_metrics p) (pod_engine p))).2) (jget ws (pod_subs p))
    else jget ws' (pod_subs p).
Proof.
  unfold on_sub. destruct (jget ws (pod_subs p)) as [sb|] eqn:Eg.
  - cbn [option_map]. destruct (m _) as [r s]. cbn [snd pod_subs pod_engineHasStarted ss_sub option_map]. split; [done|].
    split; [apply jwf_set|]. rewrite jget_set. by case_decide.
  - cbn [snd option_map]. split; [done|]. split; [done|]. case_decide; by subst.
Qed.

(** An operation that does not throw. *)
Lemma on_sub_ok ws m (p : Pod E) :
  (forall s, (m s).1 = Ok tt) -> on_sub ws m p = (Ok tt, (on_sub ws m p).2).
Proof.
  intros Hm. unfold on_sub. destruct (jget ws (pod_subs p)) as [sb|]; [|done].
  specialize (Hm (MkSubState sb (pod_metrics p) (pod_engine p))).
  destruct (m _) as [r s]. cbn [fst] in Hm. by rewrite Hm.
Qed.

Lemma mark_sub sb m e :
  ss_sub (markEngineStarted (MkSubState sb m e)).2 = MkSub [] true (sb_stopped sb) (sb_attached sb).
Proof.
  unfold markEngineStarted, bind, gets, set_sub, modify. cbn [ss_sub ss_metrics ss_engine].
  by rewrite forM_enqueue.
Qed.

Lemma notify_sub_ok started dp txes sb m e :
  sub_ok started sb -> sub_ok started (ss_sub (notify dp txes (MkSubState sb m e)).2).
Proof.
  intros (Ha & Hs & Hst). rewrite notify_effect by done. cbn [snd].
  destruct (sb_engineStarted sb) eqn:Es.
  - destruct (started_run dp txes sb m e Es) as (m' & -> & _). repeat split; try done; by apply Hst.
  - assert (started = false) as -> by (destruct started; [by destruct (Hst eq_refl)|done]).
    assert (forall l s, sb_attached (ss_sub s) = true -> sb_stopped (ss_sub s) = false ->
      sub_ok false (ss_sub (fold_left (fun s tx => tx_effect dp tx s) l s))) as Hf.
    { induction l as [|tx l IH]; intros s Ha' Hs'; [done|]. cbn [fold_left].
      destruct (tx_effect_flags dp tx s) as (F1 & F2 & _). apply IH; by rewrite ?F1, ?F2. }
    by apply Hf.
Qed.

Lemma mark_all_get (l : list string) p :
  jwf (pod_subs p) ->
  let p' := (forM_ l (fun ws => on_sub ws markEngineStarted) p).2 in
  pod_engineHasStarted p' = pod_engineHasStarted p /\ jwf (pod_subs p') /\
  forall ws, jget ws (pod_subs p') =
    if decide (ws ∈ l) then
      option_map (fun sb => MkSub [] true (sb_stopped sb) (sb_attached sb)) (jget ws (pod_subs p))
    else jget ws (pod_subs p).
Proof.
  revert p. induction l as [|w l IH]; intros p Hwf; cbn zeta.
  - cbn [forM_ ret snd]. split; [done|]. split; [done|]. intros ws. rewrite decide_False; [done|].
    intros Hin. by apply elem_of_nil in Hin.
  - cbn [forM_]. assert (exists p1, on_sub w markEngineStarted p = (Ok tt, p1)) as [p1 Ep1].
    { unfold on_sub. destruct (jget w (pod_subs p)) as [sb|]; [|by eexists].
      unfold markEngineStarted, bind, gets, set_sub, modify. cbn [ss_sub ss_metrics ss_engine].
      rewrite forM_enqueue. by eexists. }
    rewrite (bind_ok _ _ _ _ _ Ep1).
    pose proof (on_sub_get w markEngineStarted p) as Hg. rewrite Ep1 in Hg. cbn [snd] in Hg.
    destruct (Hg w) as (He1 & Hwf1 & _).
    destruct (IH p1 (Hwf1 Hwf)) as (He & Hwf' & Hget).
    split; [by rewrite He|]. split; [done|]. intros ws. rewrite Hget.
    destruct (Hg ws) as (_ & _ & ->).
    destruct (decide (w = ws)) as [->|Hne].
    + destruct (decide (ws ∈ ws :: l)) as [|n]; [|exfalso; apply n; left].
      destruct (jget ws (pod_subs p)) as [sb|]; cbn [option_map]; [rewrite mark_sub|]; by case_decide.
    + destruct (decide (ws ∈ l)); [rewrite decide_True by (by right)|rewrite decide_False]; try done.
      rewrite elem_of_cons. intros [->|]; done.
Qed.

Lemma pod_step_inv p p' : pod_inv p -> pod_step p p' -> pod_inv p'.
Proof.
  intros [Hwf Hinv] [ws|ws| |ws dp txes].
  - unfold startTxSubscriberForWorkspace, bind, gets, modify, jhas.
    destruct (jget ws (pod_subs p)) as [sb|] eqn:Eg; [by split|].
    set (p1 := MkPod _ _ _ _). 
    assert (on_sub ws sub_start p1 = (Ok tt, (on_sub ws sub_start p1).2)) as Eo by by apply on_sub_ok.
    rewrite Eo. set (p2 := (on_sub ws sub_start p1).2).
    assert (forall w, jget w (pod_subs p2) =
      if decide (ws = w) then Some (MkSub [] false false true) else jget w (pod_subs p)) as G2.
    { intros w. unfold p2. rewrite (proj2 (proj2 (on_sub_get ws sub_start p1 w))).
      unfold p1. cbn [pod_subs]. rewrite jget_set_eq. case_decide; [done|]. by rewrite jget_set_ne. }
    assert (pod_engineHasStarted p2 = pod_engineHasStarted p /\ jwf (pod_subs p2)) as [E2 W2].
    { destruct (on_sub_get ws sub_start p1 ws) as (He & Hw & _). split; [exact He|].
      apply Hw. by apply jwf_set. }
    destruct (pod_engineHasStarted p2) eqn:Est.
    + destruct (on_sub_get ws markEngineStarted p2 ws) as (He & Hw & _).
      split; [by apply Hw|]. intros w sb Hg. rewrite He, Est.
      rewrite (proj2 (proj2 (on_sub_get ws markEngineStarted p2 w))) in Hg.
      case_decide; subst.
      * rewrite G2 in Hg. destruct (decide (w = w)); [|done]. cbn [option_map] in Hg.
        rewrite mark_sub in Hg. by injection Hg as <-.
      * rewrite G2, decide_False in Hg by done. rewrite E2. by eapply Hinv.
    + split; [done|]. intros w sb Hg. cbn [snd ret] in Hg |- *. rewrite Est.
      rewrite G2 in Hg. case_decide; [by injection Hg as <-|]. rewrite E2. by eapply Hinv.
  - unfold stopTxSubscriberForWorkspace, bind, gets, modify, jhas.
    destruct (jget ws (pod_subs p)) as [sb|] eqn:Eg; [|by split].
    assert (on_sub ws sub_stop p = (Ok tt, (on_sub ws sub_stop p).2)) as Eo by by apply on_sub_ok.
    rewrite Eo. cbn [snd]. destruct (on_sub_get ws sub_stop p ws) as (He & Hw & _).
    specialize (Hw Hwf). split; [by apply jwf_delete|]. cbn [pod_subs pod_engineHasStarted].
    intros w sb' Hg. rewrite jget_delete in Hg by done. case_decide; [done|].
    rewrite (proj2 (proj2 (on_sub_get ws sub_stop p w))), decide_False in Hg by done.
    rewrite He. by eapply Hinv.
  - unfold mark_all_started, bind, modify, gets. set (p1 := MkPod _ _ _ _).
    destruct (mark_all_get (jkeys (pod_subs p1)) p1 Hwf) as (He & Hw & Hget).
    split; [done|]. intros w sb Hg. rewrite Hget in Hg. rewrite He.
    change (pod_subs p1) with (pod_subs p) in Hg. case_decide as Hin.
    + destruct (jget w (pod_subs p)) as [sb0|] eqn:Eg; [|done]. injection Hg as <-.
      destruct (Hinv w sb0 Eg) as (? & ? & _). done.
    + by apply jget_Some_keys in Hg.
  - destruct (on_sub_get ws (notify dp txes) p ws) as (He & Hw & _). unfold pod_notify.
    split; [by apply Hw|]. intros w sb Hg. rewrite He.
    rewrite (proj2 (proj2 (on_sub_get ws (notify dp txes) p w))) in Hg.
    case_decide; [|by eapply Hinv].
    destruct (jget ws (pod_subs p)) as [sb0|] eqn:Eg; [|done]. injection Hg as <-.
    apply notify_sub_ok. by eapply Hinv.
Qed.

(** In every execution of the process - workspaces loaded and evicted,
    the engine started, transactions arriving in any order - no subscriber
    holds back events once the engine has started: each registered one is
    attached, and after the start it is in direct dispatch with an empty
    buffer. *)
Theorem pod_no_stranded_events ws sb m e p :
  pod_reach (MkPod [] false m e) p ->
  jget ws (pod_subs p) = Some sb ->
  sb_attached sb = true /\ sb_stopped sb = false /\
  (pod_engineHasStarted p = true -> sb_engineStarted sb = true /\ sb_buffer sb = []).
Proof.
  intros Hr. enough (pod_inv p) as [_ Hinv] by apply Hinv.
  induction Hr as [|p p' _ IH Hs]; [|by eapply pod_step_inv].
  split; [apply jwf_nil|done].
Qed.
End Theorems.

(** ** Closed examples: an engine that records what it is handed *)

#[export] Instance recording_queue : LocalQueue (list (string * string * string * record)) := {
  enqueue_local b k d c := modify (fun l => l ++ [(b, k, d, c)]);
  enqueue_local_ok b k d c e := ex_intro _ _ eq_refl
}.

Definition issue_update (author doc : string) (ops : record) : Tx :=
  MkTx TX_CLASS_UPDATE author doc HULY_CLASS_ISSUE None None (Some ops).

Definition one_binding : TxSubscriberDeps := MkDeps "svc" [("42", "b1")] None.
Definition two_bindings : TxSubscriberDeps := MkDeps "svc" [("42", "b1"); ("43", "b2")] None.

Definition live_state : SubState (list (string * string * string * record)) :=
  MkSubState (MkSub [] true false true) [] [].

Lemma echo_filter_witness :
  notify one_binding [issue_update "u" "i1" (withOriginatedMarker [("title", VStr "t")])] live_state =
    (Ok tt, MkSubState (MkSub [] true false true) [(TX_SUBSCRIPTION_ECHO_DROPPED, 1%Z)] []).
Proof.
  apply (echo_filter one_binding
    (issue_update "u" "i1" (withOriginatedMarker [("title", VStr "t")])) live_state eq_refl eq_refl).
  right. split; [done|]. right. left. by eexists.
Defined.

Lemma ambiguous_workspace_drops_all_witness :
  notify one_binding [issue_update "u" "i1" [("title", VStr "t")]] live_state =
    (Ok tt, MkSubState (MkSub [] true false true) [] [("b1", "issue", "i1", [("title", VStr "t")])]) /\
  (notify two_bindings [issue_update "u" "i1" [("title", VStr "t")]] live_state).2 = live_state.
Proof.
  split; [reflexivity|].
  apply (ambiguous_workspace_drops_all two_bindings
    [issue_update "u" "i1" [("title", VStr "t")]] live_state); [reflexivity|done|reflexivity].
Defined.

Lemma pod_no_stranded_events_witness :
  jget "w" (pod_subs (mark_all_started (startTxSubscriberForWorkspace "w"
    (MkPod [] false [] ([] : list (string * string * string * record)))).2).2) =
    Some (MkSub [] true false true) /\
  sb_buffer (MkSub [] true false true) = [].
Proof.
  split; [reflexivity|].
  eapply (pod_no_stranded_events (E := list (string * string * string * record)) "w" _ [] []).
  - eapply pr_step; [eapply pr_step; [apply pr_refl|apply (ps_load _ "w")]|apply ps_started].
  - reflexivity.
  - reflexivity.
Defined.
