(* ===== verification/Backfill.v ===== *)
(** * The backfill scheduler (src/sync/backfill.ts)

    A timer runs [tick]: one sweep over the bindings that are not disabled,
    sixteen at a time, which enqueues a backfill for each binding whose
    breaker is not open.  The scheduler has no state beside its timer; it
    works on the engine's store, breaker and queue.

    The bindings of a batch are processed one after the other here; in the
    source their cursor reads interleave, but no two of them touch the same
    breaker entry, queue key or cursor. *)

From S2P Require Import Prelude JsMap JsVal Platform Conflict Mongo Store Queue Breaker Engine.
Open Scope nat_scope.
Open Scope string_scope.
Open Scope list_scope.

Definition BACKFILL_CONCURRENCY : nat := 16.

(** The interval timer: [None], or the handle of the running one. *)
Record BackfillScheduler := MkBackfillScheduler {
  timer : option nat;
  intervalMs : Z
}.

Definition new_scheduler (interval : option Z) : BackfillScheduler :=
  MkBackfillScheduler None (default 300000%Z interval).

(** [setInterval] returns [handle]. *)
Definition scheduler_start (handle : nat) (s : BackfillScheduler) : BackfillScheduler :=
  match timer s with Some _ => s | None => MkBackfillScheduler (Some handle) (intervalMs s) end.

Definition scheduler_stop (s : BackfillScheduler) : BackfillScheduler :=
  MkBackfillScheduler None (intervalMs s).

Section Backfill.
Context {Coll : Type -> Type} `{Mongo Coll} {P : Platform} {X : Type}.
Abbreviation Engine := (Engine Coll X).

(** [cursor > now ? now : cursor] *)
Definition clamp (now cursor : jsdate) : jsdate := if date_gt cursor now then now else cursor.

Definition push_cursor (now : jsdate) (cursor : option jsdate) (dates : list jsdate) : list jsdate :=
  match cursor with Some c => dates ++ [clamp now c] | None => dates end.

Definition older (min d : jsdate) : jsdate := if date_gt min d then d else min.

Definition resolveSince (bindingId : string) : M Engine (option jsdate) :=
  let! n := read_clock in
  let now := Some n in
  let! issues := on_store (getCursor bindingId CIssues) in
  let! notes := on_store (getCursor bindingId CNotes) in
  match push_cursor now notes (push_cursor now issues []) with
  | [] => ret None
  | d :: ds => ret (Some (fold_left older ds d))
  end.

(** The log line formats [since]: [toISOString] throws on an invalid date. *)
Definition log_since (since : option jsdate) : M Engine unit :=
  match since with
  | Some None => throw (JsError "RangeError")
  | _ => ret tt
  end.

Definition processBinding (bindingId : string) : M Engine unit :=
  read_clock ;;!
  let! is_open := breaker_is_open bindingId in
  if (is_open : bool) then ret tt
  else
    try_catch
      (let! since := resolveSince bindingId in
       log_since since ;;!
       enqueueBackfill bindingId since ;;!
       record_success bindingId)
      (fun _ => record_failure bindingId).

(** The batches of [bindings.slice(i, i + 16)]; fuel is the length of the
    list. *)
Fixpoint batches {A} (fuel : nat) (l : list A) : list (list A) :=
  match fuel, l with
  | _, [] | O, _ => []
  | S fuel, _ => take BACKFILL_CONCURRENCY l :: batches fuel (drop BACKFILL_CONCURRENCY l)
  end.

(** [Promise.allSettled]: a rejection is dropped. *)
Definition settle_all (batch : list BindingDoc) : M Engine unit :=
  forM_ batch (fun b => try_catch (processBinding (bd_id b)) (fun _ => ret tt)).

Definition tick : M Engine unit :=
  read_clock ;;!
  let! docs := gets (fun e => find_docs (fun b => negb (bd_disabled b)) (bindings (store e))) in
  forM_ (batches (length docs) docs) settle_all ;;!
  read_clock ;;!
  ret tt.
End Backfill.

(** ** Specification *)

(** The instant a sweep starts from, given the clock and the two cursors. *)
Definition since_of (now : jsdate) (issues notes : option jsdate) : option jsdate :=
  match push_cursor now notes (push_cursor now issues []) with
  | [] => None
  | d :: ds => Some (fold_left older ds d)
  end.

Section Spec.
Context {Coll : Type -> Type} `{HL : MongoLaws Coll} {P : Platform} {X : Type}.
Implicit Types (e : Engine Coll X).

Definition cursor_of e (b : string) (k : CursorKind) : option jsdate :=
  option_map cu_updatedAfter (findOne (by_cursor b k) (cursors (store e))).

(** What a sweep decides for a binding, when its breaker is checked at [n]
    and the cursors are clamped at [m]: skip it, or enqueue a backfill. *)
Definition decision (n m : nat) e (b : string) : option (option jsdate) :=
  if decide (state (refresh (clock n) (entry_of b (brk e))) = open) then None
  else match since_of (Some (clock m)) (cursor_of e b CIssues) (cursor_of e b CNotes) with
       | Some None => None
       | since => Some since
       end.

Definition backfill_entries e (b : string) (d : option (option jsdate)) : list (string * QueueEntry) :=
  match d with
  | None => []
  | Some since =>
      map (fun kind => (queueKey b ("backfill:" +:+ kind),
                        MkQueueEntry (EvBackfill b since) kind None)) (jkeys (managers e))
  end.

(** ** Lemmas *)

Lemma enqueueBackfill_eq b since e :
  exists w, enqueueBackfill b since e = (Ok tt, set_world w e) /\
    accepted w = accepted (world e) ++ backfill_entries e b (Some since).
Proof.
  unfold enqueueBackfill, bind, gets, backfill_entries. generalize (jkeys (managers e)). intros ks.
  revert e. induction ks as [|k ks IH]; intros e.
  - exists (world e). rewrite app_nil_r. by destruct e.
  - cbn [forM_ map]. unfold bind at 1, enqueue_entry at 1, modify.
    destruct (IH (set_world (do_enqueue (queueKey b ("backfill:" +:+ k))
      (MkQueueEntry (EvBackfill b since) k None) (world e)) e)) as (w & -> & Ew).
    exists w. split; [done|]. rewrite Ew. cbn [set_world world]. rewrite accepted_enqueue.
    by rewrite <- app_assoc.
Qed.

Lemma resolveSince_eq b e :
  resolveSince b e =
  (Ok (since_of (Some (clock (readings e))) (cursor_of e b CIssues) (cursor_of e b CNotes)),
   (read_clock e).2).
Proof.
  unfold resolveSince, since_of, bind, read_clock, on_store, getCursor, gets, cursor_of.
  cbn [store set_store managers brk world ext readings ids snd].
  by destruct (push_cursor _ _ _).
Qed.

(** Everything [processBinding] does to the engine. *)
Lemma processBinding_run b e :
  exists e' n m, processBinding b e = (Ok tt, e') /\
    store e' = store e /\ managers e' = managers e /\ ext e' = ext e /\
    accepted (world e') = accepted (world e) ++ backfill_entries e b (decision n m e b) /\
    (forall b', b' <> b -> entry_of b' (brk e') = entry_of b' (brk e)) /\
    (is_Some (decision n m e b) -> entry_of b (brk e') = fresh_entry).
Proof.
  unfold processBinding. set (e1 := (read_clock e).2).
  assert (bind read_clock (fun _ => let! is_open := breaker_is_open b in
    if (is_open : bool) then ret tt else try_catch (let! since := resolveSince b in
       log_since since ;;! enqueueBackfill b since ;;! record_success b)
      (fun _ => record_failure b)) e =
    (let! is_open := breaker_is_open b in
    if (is_open : bool) then ret tt else try_catch (let! since := resolveSince b in
       log_since since ;;! enqueueBackfill b since ;;! record_success b)
      (fun _ => record_failure b)) e1) as -> by done.
  destruct (isOpen (clock (readings e1)) b (brk e1)) as [o b2] eqn:Eo.
  set (e2 := set_brk b2 (read_clock e1).2).
  assert (breaker_is_open b e1 = (Ok o, e2)) as Ebo.
  { unfold breaker_is_open, bind, read_clock, e2. cbn [brk]. by rewrite Eo. }
  assert (o = bool_decide (state (refresh (clock (readings e1)) (entry_of b (brk e))) = open) /\
    forall b', b' <> b -> entry_of b' b2 = entry_of b' (brk e)) as [Ho Hb2].
  { unfold isOpen in Eo. destruct (getState _ _ _) as [st b3] eqn:Eg. injection Eo as <- <-.
    pose proof (getState_fst (clock (readings e1)) b (brk e1)) as Hf.
    split; [rewrite Eg in Hf; cbn in Hf; by rewrite Hf|]. intros b' Hne.
    pose proof (entry_of_getState (clock (readings e1)) b b' (brk e1)) as Hs.
    rewrite Eg in Hs. cbn [snd] in Hs. by rewrite Hs, decide_False. }
  rewrite (bind_ok _ _ _ _ _ Ebo). unfold decision.
  destruct o.
  - exists e2, (readings e1), (readings e2).
    rewrite decide_True by (symmetry in Ho; by apply bool_decide_eq_true in Ho).
    cbn [backfill_entries]. rewrite app_nil_r. do 5 (split; [done|]). split; [exact Hb2|].
    by intros [? ?].
  - assert (state (refresh (clock (readings e1)) (entry_of b (brk e))) <> open) as Hno.
    { symmetry in Ho. by apply bool_decide_eq_false in Ho. }
    set (since := since_of (Some (clock (readings e2))) (cursor_of e b CIssues) (cursor_of e b CNotes)).
    set (e3 := (read_clock e2).2).
    assert (resolveSince b e2 = (Ok since, e3)) as Er by apply resolveSince_eq.
    assert (forall b', b' <> b -> forall now e', entry_of b' (brk e') = entry_of b' (brk e) ->
      entry_of b' (recordSuccess now b (brk e')) = entry_of b' (brk e)) as Hsucc.
    { intros b' Hne now e' <-. rewrite entry_of_success. by rewrite decide_False. }
    assert (forall since', since' <> Some None -> since = since' ->
      exists w, (try_catch (let! since := resolveSince b in
         log_since since ;;! enqueueBackfill b since ;;! record_success b)
        (fun _ => record_failure b)) e2 =
        (Ok tt, set_brk (recordSuccess (clock (readings e3)) b b2) (read_clock (set_world w e3)).2) /\
        accepted w = accepted (world e) ++ backfill_entries e b (Some since')) as Hok.
    { intros since' Hv Es. destruct (enqueueBackfill_eq b since' e3) as (w & Ew & Hw).
      exists w. split; [|exact Hw]. unfold try_catch. rewrite (bind_ok _ _ _ _ _ Er), Es.
      rewrite (bind_ok _ _ e3 tt e3) by by destruct since' as [[]|].
      by rewrite (bind_ok _ _ _ _ _ Ew). }
    assert (forall w, exists e', e' = set_brk (recordSuccess (clock (readings e3)) b b2) (read_clock (set_world w e3)).2 /\
      (forall b', b' <> b -> entry_of b' (brk e') = entry_of b' (brk e)) /\
      entry_of b (brk e') = fresh_entry) as Hend.
    { intros w. eexists. split; [reflexivity|]. cbn [brk set_brk].
      split; [intros b' Hne|]; rewrite entry_of_success; [rewrite decide_False by done; by apply Hb2|].
      by rewrite decide_True. }
    destruct since as [[s|]|] eqn:Es.
    2: { eexists _, (readings e1), (readings e2). rewrite decide_False by exact Hno. fold since. rewrite Es.
      split; [unfold try_catch; rewrite (bind_ok _ _ _ _ _ Er); reflexivity|].
      cbn [backfill_entries]. rewrite app_nil_r. do 4 (split; [done|]). split; [|by intros [? ?]].
      intros b' Hne. cbn [brk set_brk]. rewrite entry_of_failure, decide_False by done.
      by apply Hb2. }
    all: match type of Es with _ = ?x => destruct (Hok x) as (w & Hrun & Hw); [done|done|] end;
      destruct (Hend w) as (e' & Ee & Hb' & Hf);
      exists e', (readings e1), (readings e2); rewrite (decide_False (P := _ = open)) by exact Hno; fold since; rewrite Es, Hrun;
      (split; [by subst|]); do 3 (split; [by subst|]); (split; [by subst|]); done.
Qed.

Lemma forM_concat {S A} (ls : list (list A)) (f : A -> M S unit) s :
  forM_ (concat ls) f s = forM_ ls (fun l => forM_ l f) s.
Proof.
  revert s. induction ls as [|l ls IH]; intros s; [done|]. cbn [concat forM_].
  unfold bind at 1. revert s. induction l as [|x l IHl]; intros s; cbn [app forM_].
  - cbn [ret]. apply IH.
  - unfold bind at 1 2. destruct (f x s) as [[[]|er] s']; [apply IHl|done].
Qed.

Lemma concat_batches {A} fuel (l : list A) : length l <= fuel -> concat (batches fuel l) = l.
Proof.
  revert l. induction fuel as [|n IH]; intros [|x l] Hl; cbn [batches]; try done; [cbn in Hl; lia|].
  cbn [concat]. rewrite IH; [apply take_drop|]. rewrite length_drop. cbn in Hl |- *.
  unfold BACKFILL_CONCURRENCY. lia.
Qed.

(** Each batch but the last has sixteen bindings. *)
Lemma batches_size {A} fuel (l : list A) b : b ∈ batches fuel l -> length b <= BACKFILL_CONCURRENCY.
Proof.
  revert l. induction fuel as [|n IH]; intros [|x l]; cbn [batches];
    try (intros Hb; by apply elem_of_nil in Hb).
  intros [->|Hb]%elem_of_cons; [rewrite length_take; lia|by eapply IH].
Qed.

(** A sweep over a list of distinct bindings. *)
Lemma sweep_run (docs : list BindingDoc) e :
  NoDup (map bd_id docs) ->
  exists e' plan, forM_ docs (fun d => try_catch (processBinding (bd_id d)) (fun _ => ret tt)) e = (Ok tt, e') /\
    store e' = store e /\ managers e' = managers e /\ ext e' = ext e /\
    map fst plan = map bd_id docs /\
    (forall b d, (b, d) ∈ plan -> exists n m, d = decision n m e b) /\
    accepted (world e') = accepted (world e) ++ flat_map (fun p => backfill_entries e p.1 p.2) plan /\
    (forall b, b ∉ map bd_id docs -> entry_of b (brk e') = entry_of b (brk e)) /\
    (forall b since, (b, Some since) ∈ plan -> entry_of b (brk e') = fresh_entry).
Proof.
  revert e. induction docs as [|d docs IH]; intros e Hnd.
  - exists e, []. cbn. rewrite app_nil_r. split_and!; try done; intros b ? Hin; by apply elem_of_nil in Hin.
  - cbn [map] in Hnd. apply NoDup_cons in Hnd as [Hd Hnd].
    destruct (processBinding_run (bd_id d) e) as (e1 & n & m & E1 & S1 & M1 & X1 & A1 & B1 & F1).
    destruct (IH e1 Hnd) as (e' & plan & E' & S' & M' & X' & P' & D' & A' & B' & F').
    assert (forall b n m, b <> bd_id d -> decision n m e1 b = decision n m e b) as Hdec.
    { intros b n' m' Hne. unfold decision, cursor_of. by rewrite S1, B1. }
    assert (forall b x, (b, x) ∈ plan -> b <> bd_id d) as Hnot.
    { intros b x Hin ->. apply Hd. rewrite <- P'. apply list_elem_of_In, in_map_iff.
      eexists. split; [|by apply list_elem_of_In]. done. }
    exists e', ((bd_id d, decision n m e (bd_id d)) :: plan).
    cbn [forM_ map flat_map fst snd].
    rewrite (bind_ok _ _ _ tt e1); [|unfold try_catch; by rewrite E1].
    split_and!; [done|congruence|congruence|congruence|by rewrite P'| | | |].
    + intros b x [[= -> ->]|Hin]%elem_of_cons; [by eexists _, _|].
      destruct (D' b x Hin) as (n' & m' & ->). exists n', m'. apply Hdec. by eapply Hnot.
    + rewrite A', A1, <- app_assoc. do 2 f_equal. clear -M1.
      induction plan as [|[b x] plan IH]; [done|]. cbn [flat_map]. f_equal; [|apply IH].
      unfold backfill_entries. by rewrite M1.
    + intros b Hb. rewrite not_elem_of_cons in Hb. destruct Hb as [Hne Hb]. rewrite B' by done.
      by apply B1.
    + intros b since [[= -> Hs]|Hin]%elem_of_cons; [|by eapply F'].
      rewrite B' by done. apply F1. rewrite <- Hs. by eexists.
Qed.

Lemma resolve_older ds d : exists x, fold_left older ds d = x /\ (x = d \/ x ∈ ds).
Proof.
  revert d. induction ds as [|y ds IH]; intros d; [exists d; auto|]. cbn [fold_left].
  destruct (IH (older d y)) as (x & Ex & Hx). exists x. split; [done|].
  unfold older in Hx. destruct (date_gt d y); destruct Hx as [->|Hx]; auto; right;
    [left|by right|by right].
Qed.

(** ** Theorems *)

(** One sweep visits every binding that is not disabled exactly once; a
    binding whose breaker is open (or whose cursor is not a date) is skipped,
    every other one gets one backfill per registered manager from the oldest
    of its cursors and its breaker is closed, and nothing else changes. *)
Theorem tick_spec e :
  NoDup (map bd_id (scan (bindings (store e)))) ->
  exists e' plan, tick e = (Ok tt, e') /\
    store e' = store e /\ ext e' = ext e /\ managers e' = managers e /\
    map fst plan = map bd_id (List.filter (fun b => negb (bd_disabled b)) (scan (bindings (store e)))) /\
    (forall b d, (b, d) ∈ plan -> exists n m, d = decision n m e b) /\
    accepted (world e') = accepted (world e) ++ flat_map (fun p => backfill_entries e p.1 p.2) plan /\
    (forall b since, (b, Some since) ∈ plan -> entry_of b (brk e') = fresh_entry) /\
    (forall b, b ∉ map fst plan -> entry_of b (brk e') = entry_of b (brk e)).
Proof.
  intros Hnd. unfold tick. unfold bind at 1. set (e1 := (read_clock e).2).
  change (read_clock e) with (Ok (clock (readings e)), e1). cbv iota beta.
  unfold bind at 1, gets. rewrite find_docs_scan. change (bindings (store e1)) with (bindings (store e)).
  set (docs := List.filter _ _).
  destruct (sweep_run docs e1) as (e2 & plan & E2 & S2 & M2 & X2 & P2 & D2 & A2 & B2 & F2).
  { clear -Hnd. unfold docs. induction (scan _) as [|d l IH]; [constructor|].
    cbn [map] in Hnd. apply NoDup_cons in Hnd as [Hd Hnd]. cbn [List.filter].
    destruct (negb _); [|by apply IH]. cbn [map]. apply NoDup_cons. split; [|by apply IH].
    intros Hin. apply Hd. apply list_elem_of_In, in_map_iff in Hin as (x & Hx & Hin).
    apply filter_In in Hin as [Hin _]. rewrite <- Hx. apply list_elem_of_In. by apply in_map. }
  exists (read_clock e2).2, plan.
  rewrite (bind_ok _ _ e1 tt e2).
  2: { unfold settle_all. rewrite <- forM_concat, concat_batches by done. exact E2. }
  split_and!; try done.
  rewrite P2. exact B2.
Qed.

(** The sweep never starts in the future, its start is the clamped value
    of one of the two cursors, and it is at or before each valid cursor; it
    is from the beginning of time exactly when neither cursor exists. *)
Theorem resolveSince_spec b e :
  exists since, resolveSince b e = (Ok since, (read_clock e).2) /\
    (since = None <-> cursor_of e b CIssues = None /\ cursor_of e b CNotes = None) /\
    forall t, since = Some (Some t) ->
      (t <= clock (readings e))%Z /\
      forall k c, (k = CIssues \/ k = CNotes) -> cursor_of e b k = Some (Some c) -> (t <= c)%Z.
Proof.
  eexists. split; [apply resolveSince_eq|]. unfold since_of, push_cursor.
  destruct (cursor_of e b CIssues) as [[i|]|] eqn:Ei, (cursor_of e b CNotes) as [[n|]|] eqn:En;
    cbn [app fold_left clamp date_gt]; (split; [by naive_solver|]); intros t Ht;
    unfold older, clamp, date_gt in Ht;
    repeat match goal with
    | H : context [(?a <? ?b)%Z] |- _ => destruct (Z.ltb_spec a b)
    end; simplify_eq; (split; [lia|]); intros k c [->| ->] Hc; rewrite ?Ei, ?En in Hc; simplify_eq; lia.
Qed.

(** A kind that has no cursor yet is swept from the other kind's cursor,
    not from the beginning: with an issues cursor and no notes cursor, every
    registered manager - notes, merge requests, reviews and epics too - is
    asked only for what changed after the issues cursor. *)
Theorem resolveSince_starves b e t :
  cursor_of e b CIssues = Some (Some t) -> cursor_of e b CNotes = None ->
  (t <= clock (readings e))%Z ->
  resolveSince b e = (Ok (Some (Some t)), (read_clock e).2).
Proof.
  intros Hi Hn Ht. rewrite resolveSince_eq, Hi, Hn. unfold since_of, push_cursor, clamp, date_gt. cbn [app fold_left].
  by rewrite (proj2 (Z.ltb_ge _ _) Ht).
Qed.
End Spec.

(** ** Closed examples *)

Definition sweep_engine : Engine list unit :=
  MkEngine (managers sample_engine)
    (MkStore [MkBindingDoc "oid-b" "w" "p" 7 "g/p" "c" "s" None false 0 false;
              MkBindingDoc "oid-c" "w" "q" 8 "g/q" "c" "s" None false 0 true]
       [MkCursorDoc "oid-b" CIssues (Some 500%Z)] [] [] [])
    [] (init 1000) tt 10 0.

Lemma tick_spec_witness :
  exists e' plan, tick sweep_engine = (Ok tt, e') /\
    map fst plan = ["oid-b"] /\
    accepted (world e') = flat_map (fun p => backfill_entries sweep_engine p.1 p.2) plan.
Proof.
  destruct (tick_spec sweep_engine) as (e' & plan & E & _ & _ & _ & Hp & _ & Ha & _).
  - apply (bool_decide_eq_true_1 _). vm_compute. reflexivity.
  - exists e', plan. split; [exact E|]. split; [exact Hp|exact Ha].
Defined.

Lemma resolveSince_spec_witness :
  exists since, resolveSince "oid-b" sweep_engine = (Ok since, (read_clock sweep_engine).2) /\
    (since = None <-> cursor_of sweep_engine "oid-b" CIssues = None /\
                      cursor_of sweep_engine "oid-b" CNotes = None).
Proof.
  destruct (resolveSince_spec "oid-b" sweep_engine) as (since & E & Hn & _). by exists since.
Defined.

Lemma resolveSince_starves_witness :
  resolveSince "oid-b" sweep_engine = (Ok (Some (Some 500%Z)), (read_clock sweep_engine).2).
Proof.
  apply (resolveSince_starves "oid-b" sweep_engine 500); [reflexivity|reflexivity|].
  vm_compute. discriminate.
Defined.
