(* ===== verification/FieldSync.v ===== *)
(** * Field-by-field synchronisation of a mirrored document

    The part of applyRemote that the issues and the merge-request managers
    have in common (src/sync/issues.ts and src/sync/mr.ts write it twice):
    the two sides of each mirrored field go through the last-write-wins
    resolution, and the fields GitLab wins and that differ are collected
    into one update, which is stamped and written when it is not empty.

    [lww_settles] is the fact both managers' theorems rest on. *)

From S2P Require Import Prelude JsMap JsString JsVal Platform Conflict Huly TxSubscriber.
Open Scope nat_scope.
Open Scope string_scope.
Open Scope list_scope.

(** ** Equality of field values *)

(** [Set] membership: by value on primitives. *)
Definition same_value (a b : jsval) : bool := primitive a && bool_decide (a = b).

Fixpoint js_set (seen l : list jsval) : list jsval :=
  match l with
  | [] => seen
  | x :: l' => js_set (if existsb (same_value x) seen then seen else seen ++ [x]) l'
  end.

(** [v] where a value may be missing: [undefined] has no version. *)
Definition field_version (v : jsval) (ts : option jsdate) : FieldVersion jsval :=
  MkFieldVersion (match v with VUndef => None | _ => Some v end) ts.

(** [hulyIssue.modifiedOn > 0 ? new Date(hulyIssue.modifiedOn) : undefined] *)
Definition local_ts (hulyIssue : record) : option jsdate :=
  match prop_of hulyIssue "modifiedOn" with
  | VNum n => if (0 <? n)%Z then Some (Some n) else None
  | _ => None
  end.

Definition local_value (hulyIssue : record) (k : string) : jsval :=
  if decide (k = "milestone") then js_coalesce (prop_of hulyIssue k) VNull
  else if decide (k = "labels") then js_coalesce (prop_of hulyIssue k) (VArr [])
  else prop_of hulyIssue k.

Section Sync.
Context `{FastEquals}.

Definition areEqual (a b : jsval) : bool :=
  if strict_eq a b then true
  else
    match a, b with
    | VArr la, VArr lb =>
        if negb (bool_decide (length la = length lb)) then false
        else
          let sa := js_set [] la in
          let sb := js_set [] lb in
          bool_decide (length sa = length sb) &&
          forallb (fun x => existsb (same_value x) sb) sa
    | _, _ => deepEqual a b
    end.

(** One call of [take] on the pending update; [dirty] is its second part. *)
Definition take_field (remoteVal localVal : jsval) (k : string) (decision : option FieldDecision)
    (u : record * bool) : record * bool :=
  if bool_decide (decision = Some DRemote) then
    if areEqual remoteVal localVal then u else (jset k remoteVal u.1, true)
  else u.

(** The update object and whether it is dirty. *)
Definition lww_update (fields : list string) (lv rv : string -> jsval)
    (localTs : option jsdate) (remoteTs : jsdate) : record * bool :=
  let local := map (fun k => (k, field_version (lv k) localTs)) fields in
  let remote := map (fun k => (k, field_version (rv k) (Some remoteTs))) fields in
  let decisions := applyLwwFieldByField local remote in
  fold_left (fun u k => take_field (rv k) (lv k) k (jget k decisions) u) fields ([], false).

(** ** The comparison *)

(** Reflexivity of the field comparison on the values a field has. *)
Definition scalar_or_list (v : jsval) : Prop :=
  match v with
  | VArr l => Forall (fun x => primitive x = true) l
  | VUndef => False
  | _ => True
  end.

Lemma js_set_subset seen l x : x ∈ js_set seen l -> x ∈ seen \/ x ∈ l.
Proof.
  revert seen. induction l as [|y l IH]; intros seen; cbn [js_set]; [by left|].
  intros [Hx|Hx]%IH; [|right; by right]. destruct (existsb _ _); [by left|].
  apply elem_of_app in Hx as [Hx| ->%list_elem_of_singleton]; [by left|right; left].
Qed.

Lemma areEqual_refl (x : jsval) : scalar_or_list x -> areEqual x x = true.
Proof.
  intros Hv. unfold areEqual. destruct (strict_eq x x); [done|].
  destruct x; try (apply deepEqual_refl). rewrite bool_decide_eq_true_2 by done. cbn [negb].
  rewrite bool_decide_eq_true_2 by done. cbn [andb]. apply forallb_forall. intros y Hy.
  apply existsb_exists. exists y. split; [done|].
  apply list_elem_of_In, js_set_subset in Hy as [Hy|Hy]; [by apply elem_of_nil in Hy|].
  cbn [scalar_or_list] in Hv. rewrite Forall_forall in Hv.
  unfold same_value. rewrite Hv by done. by rewrite bool_decide_eq_true_2.
Qed.

(** ** The update as a pure function *)

(** The Huly side is strictly newer. *)
Definition newer (lt : option jsdate) (rt : jsdate) : bool :=
  match lt with Some l => date_gt l rt | None => false end.

Definition has_fields (fields : list string) (f : string -> jsval) : Prop :=
  forall k, k ∈ fields -> f k <> VUndef.

Definition differs (lv rv : string -> jsval) (k : string) : bool := negb (areEqual (rv k) (lv k)).

(** The Huly fields agree with the record. *)
Definition agree (fields : list string) (lv rv : string -> jsval) : Prop :=
  forall k, k ∈ fields -> differs lv rv k = false.

Section Update.
Context (fields : list string) (rv : string -> jsval) (rt : jsdate).
Implicit Types (lv : string -> jsval) (lt : option jsdate).

Lemma lww_decision lv lt k :
  k ∈ fields -> has_fields fields lv -> has_fields fields rv ->
  jget k (applyLwwFieldByField
    (map (fun k => (k, field_version (lv k) lt)) fields)
    (map (fun k => (k, field_version (rv k) (Some rt))) fields))
  = Some (if newer lt rt then DLocal else DRemote).
Proof.
  intros Hk Hl Hr. specialize (Hl k Hk). specialize (Hr k Hk).
  unfold applyLwwFieldByField. rewrite fold_jset_get, decide_True.
  2: { apply elem_of_all_keys. left. unfold jkeys. rewrite map_map. cbn [fst]. by rewrite map_id. }
  f_equal. unfold decide_field. rewrite !jget_map_keys, !decide_True by done.
  unfold field_version. cbn [mbind option_bind fv_value fv_ts].
  destruct (lv k) eqn:El; try done; destruct (rv k) eqn:Er; try done;
    cbn [fv_value fv_ts]; unfold newer, resolveLww;
    (destruct lt as [lt|]; [|done]); cbn [side_missing andb default from_option id];
    (destruct (date_gt rt lt) eqn:E; [by rewrite (date_gt_asym _ _ E)|];
     by destruct (date_gt lt _)).
Qed.

Lemma take_fold lv (decisions : jsmap string FieldDecision) dec ks u0 d0 :
  (forall k, k ∈ ks -> jget k decisions = Some dec) ->
  let res := fold_left (fun u k => take_field (rv k) (lv k) k (jget k decisions) u) ks (u0, d0) in
  match dec with
  | DRemote =>
      res.2 = d0 || existsb (differs lv rv) ks /\ (jwf u0 -> jwf res.1) /\
      forall k, jget k res.1 =
        if decide (k ∈ ks) then (if differs lv rv k then Some (rv k) else jget k u0)
        else jget k u0
  | _ => res = (u0, d0)
  end.
Proof.
  revert u0 d0. induction ks as [|k ks IH]; intros u0 d0 Hd; cbn zeta.
  - cbn [fold_left existsb fst snd]. destruct dec; try done. rewrite orb_false_r.
    split_and!; [done|done|]. intros k. rewrite decide_False; [done|]. apply not_elem_of_nil.
  - cbn [fold_left]. rewrite (Hd k) by left.
    assert (forall k', k' ∈ ks -> jget k' decisions = Some dec) as Hd'.
    { intros k' Hk'. apply Hd. by right. }
    assert (take_field (rv k) (lv k) k (Some dec) (u0, d0) =
      match dec with
      | DRemote => if differs lv rv k then (jset k (rv k) u0, true) else (u0, d0)
      | _ => (u0, d0)
      end) as ->.
    { unfold take_field, differs. destruct dec; try done.
      rewrite bool_decide_eq_true_2 by done. by destruct (areEqual _ _). }
    destruct dec; [by apply (IH u0 d0)| |by apply (IH u0 d0)].
    cbn [existsb]. destruct (differs lv rv k) eqn:Ec.
    + specialize (IH (jset k (rv k) u0) true Hd') as (E2 & Hw & Hg).
      split; [|split].
      { etransitivity; [exact E2|]. by rewrite orb_true_r. }
      { intros Hu. by apply Hw, jwf_set. }
      intros k'. etransitivity; [exact (Hg k')|]. rewrite jget_set. destruct (decide (k = k')) as [<-|Hne].
      * rewrite (decide_True (P := k ∈ k :: ks)), Ec by left. by case_decide.
      * destruct (decide (k' ∈ ks)); [by rewrite decide_True by by right|].
        rewrite decide_False; [done|]. rewrite not_elem_of_cons. by split; [congruence|].
    + specialize (IH u0 d0 Hd') as (E2 & Hw & Hg). split; [exact E2|split; [exact Hw|]].
      intros k'. etransitivity; [exact (Hg k')|]. destruct (decide (k = k')) as [<-|Hne].
      * rewrite (decide_True (P := k ∈ k :: ks)), Ec by left. by case_decide.
      * destruct (decide (k' ∈ ks)); [by rewrite decide_True by by right|].
        rewrite decide_False; [done|]. rewrite not_elem_of_cons. by split; [congruence|].
Qed.

Lemma lww_update_spec lv lt :
  has_fields fields lv -> has_fields fields rv ->
  if newer lt rt then lww_update fields lv rv lt rt = ([], false)
  else exists u, lww_update fields lv rv lt rt = (u, existsb (differs lv rv) fields) /\ jwf u /\
    forall k, jget k u = if decide (k ∈ fields) then
                           (if differs lv rv k then Some (rv k) else None)
                         else None.
Proof.
  intros Hl Hr.
  pose proof (take_fold lv _ (if newer lt rt then DLocal else DRemote) fields [] false
      (fun k Hk => lww_decision lv lt k Hk Hl Hr)) as Hf.
  cbn zeta in Hf.
  change (fold_left _ fields ([], false)) with (lww_update fields lv rv lt rt) in Hf.
  destruct (newer lt rt); [exact Hf|].
  destruct (lww_update fields lv rv lt rt) as [u d]. cbn [fst snd] in Hf.
  destruct Hf as (-> & Hw & Hg). exists u. split; [done|]. split; [apply Hw, jwf_nil|exact Hg].
Qed.

Lemma agree_no_update lv lt :
  has_fields fields lv -> has_fields fields rv -> agree fields lv rv ->
  lww_update fields lv rv lt rt = ([], false).
Proof.
  intros Hl Hr Hs. pose proof (lww_update_spec lv lt Hl Hr) as Hu.
  destruct (newer lt rt); [done|]. destruct Hu as (u & -> & _ & Hg).
  assert (existsb (differs lv rv) fields = false) as ->.
  { apply not_true_iff_false. intros (k & Hk & Hc)%existsb_exists.
    rewrite Hs in Hc; [done|]. by apply list_elem_of_In. }
  f_equal. destruct u as [|[k w] u]; [done|]. specialize (Hg k). cbn [jget] in Hg.
  rewrite decide_True in Hg by done. destruct (decide (k ∈ fields)) as [Hk|]; [|done].
  by rewrite Hs in Hg.
Qed.

(** ** The stamped update *)

(** What is written when the update is dirty. *)
Definition stamped (u : record) : record := withOriginatedMarker (jset "modifiedOn" (getTime rt) u).

Definition stamp_free : Prop := "modifiedOn" ∉ fields /\ "_originated" ∉ fields.

Lemma stamped_get u a k :
  jwf u -> jget "modifiedOn" u = None -> jget "_originated" u = None ->
  jget k (assign (stamped u) a) =
  if decide (k = "_originated") then Some (VStr "gitlab")
  else if decide (k = "modifiedOn") then Some (getTime rt)
  else match jget k u with Some VUndef | None => jget k a | Some w => Some w end.
Proof.
  intros Hw Hm Ho. unfold stamped, withOriginatedMarker.
  rewrite field_assign by by apply jwf_set, jwf_set. rewrite !jget_set.
  unfold ORIGINATED_MARKER_KEY. destruct (decide ("_originated" = k)) as [<-|].
  - by rewrite decide_True.
  - rewrite (decide_False (P := k = _)) by congruence.
    destruct (decide ("modifiedOn" = k)) as [<-|].
    + rewrite decide_True by done. by destruct rt.
    + by rewrite decide_False by congruence.
Qed.

(** The record's values are present, compare equal to themselves, and the
    labels are not [null]. *)
Definition good_values : Prop :=
  (forall k, k ∈ fields -> scalar_or_list (rv k) /\ rv k <> VUndef) /\ rv "labels" <> VNull.

Lemma good_has_fields : good_values -> has_fields fields rv.
Proof. intros [Hg _] k Hk. by apply Hg. Qed.

(** After an update that the record wins, the fields agree with it and the
    rest of the document is as before. *)
Lemma lww_settles a :
  has_fields fields (local_value a) -> good_values -> stamp_free -> newer (local_ts a) rt = false ->
  exists u dirty, lww_update fields (local_value a) rv (local_ts a) rt = (u, dirty) /\
    (dirty = false -> agree fields (local_value a) rv) /\
    (dirty = true ->
       let a' := assign (stamped u) a in
       agree fields (local_value a') rv /\ has_fields fields (local_value a') /\
       jget "modifiedOn" a' = Some (getTime rt) /\
       forall k, k ∉ fields -> k <> "modifiedOn" -> k <> "_originated" -> jget k a' = jget k a).
Proof.
  intros Hl Hv [Hfm Hfo] Hn.
  pose proof (lww_update_spec (local_value a) (local_ts a) Hl (good_has_fields Hv)) as Hu.
  rewrite Hn in Hu. destruct Hu as (u & -> & Hw & Hg). destruct Hv as [Hv Hlab].
  eexists u, _. split; [done|]. split.
  - intros Hf k Hk. apply not_true_iff_false. intros Hc. apply not_true_iff_false in Hf. apply Hf.
    apply existsb_exists. exists k. split; [by apply list_elem_of_In|done].
  - intros _. cbn zeta.
    assert (jget "modifiedOn" u = None) as Hm by by rewrite Hg, decide_False.
    assert (jget "_originated" u = None) as Ho by by rewrite Hg, decide_False.
    assert (forall k, k ∈ fields -> local_value (assign (stamped u) a) k =
      if differs (local_value a) rv k then rv k else local_value a k) as Hloc.
    { intros k Hk. destruct (Hv k Hk) as [_ Hne].
      assert (jget k (assign (stamped u) a) =
        if differs (local_value a) rv k then Some (rv k) else jget k a) as Hk'.
      { rewrite stamped_get by done. rewrite Hg, (decide_True (P := k ∈ fields)) by done.
        rewrite !decide_False by (intros ->; contradiction).
        destruct (differs (local_value a) rv k); [|done]. by destruct (rv k). }
      unfold local_value at 1, prop_of. rewrite Hk'. destruct (differs (local_value a) rv k) eqn:Ec; [|done].
      cbn [default from_option id].
      destruct (decide (k = "milestone")) as [->|]; [by destruct (rv "milestone")|].
      destruct (decide (k = "labels")) as [->|]; [by destruct (rv "labels")|done]. }
    split_and!.
    + intros k Hk. unfold differs. rewrite Hloc by done.
      destruct (differs (local_value a) rv k) eqn:Ec; [|exact Ec].
      apply negb_false_iff, areEqual_refl. by apply Hv.
    + intros k Hk. rewrite Hloc by done. destruct (differs _ _ k); [by apply Hv|by apply Hl].
    + by rewrite stamped_get by done.
    + intros k Hk Hk1 Hk2. rewrite stamped_get by done. rewrite !decide_False by done.
      by rewrite Hg, decide_False.
Qed.
End Update.
End Sync.
