(* ===== verification/Issues.v ===== *)
(** * The issues sync manager (src/sync/issues.ts)

    Two-way sync of tracker issues: [applyRemote] mirrors a GitLab record
    into Huly, [applyLocal] pushes a Huly change to GitLab, [backfill] hands
    the listed records to the engine.

    Records and changes are dynamic values, as in the source, where the
    engine passes any [Record<string, unknown>] where the manager's types say
    [SyncIssue]: a property read of a nullish value throws, a missing
    property is [undefined]. *)

From S2P Require Import Prelude JsMap JsString JsVal Metrics Platform Conflict Mongo Store Ids.
From S2P Require Import StatusMap Huly Caches Queue Breaker Engine Sync TxSubscriber FieldSync.
Open Scope nat_scope.
Open Scope string_scope.
Open Scope list_scope.

Definition IssuePriority_NoPriority : Z := 0.

(** ** Dependencies *)

Section Issues.
Context {Coll : Type -> Type} `{Mongo Coll} {P : Platform} `{Sha256} `{Markdown} `{FastEquals}.
Context {HU GL AC : Type} `{HulyClient HU} `{IssueGitLabClient GL} `{LabelGitLabClient GL}
  `{MilestoneGitLabClient GL} `{AccountClient AC}.
Abbreviation X := (SyncState HU GL AC).
Abbreviation MM := (M (Store Coll * X)).

Record IssuesSyncManagerDeps := MkIssuesDeps {
  is_loadBinding : string -> MM BindingContext;
  is_enqueuer : option (string -> string -> record -> string -> string -> MM unit);
  is_backfillEnqueuer : option (string -> string -> record -> string -> string -> MM unit);
  is_mirrorDeps : option (MirrorDeps (Store Coll * X))
}.

Context (deps : IssuesSyncManagerDeps).

Definition resolveIssueRef (ctx : SyncContext) (binding : BindingContext) (gitlabIssueIid : jsval)
    : MM (option string) :=
  let! mapping := on_db (findByGitlab (ctx_workspaceUuid ctx) KIssue (scoped_key binding gitlabIssueIid)) in
  ret (option_map im_hulyRef mapping).

Definition issue_resourceKey (r : record) : option string :=
  match as_number (field "iid" r) with
  | Some iid => Some ("issue:" +:+ num_to_string iid)
  | None =>
      match as_object (field "object_attributes" r) with
      | Some objAttrs =>
          match as_number (field "iid" objAttrs) with
          | Some i => Some ("issue:" +:+ num_to_string i)
          | None => None
          end
      | None => None
      end
  end.

Definition enqueueRecord (binding kind : string) (r : record) (eventId version : string) : MM unit :=
  match is_backfillEnqueuer deps with
  | Some f => f binding kind r eventId version
  | None =>
      match is_enqueuer deps with
      | Some f => f binding kind r eventId version
      | None => ret tt
      end
  end.

(** ** Resolution of a remote record *)

(** [{ ...(v !== null ? { k: v } : {}) }] and the like *)
Definition identity_of (first : jsval) : MM IdentityUser :=
  let! id := get_prop first "id" in
  let! email := get_prop first "email" in
  let! name := get_prop first "name" in
  let! username := get_prop first "username" in
  let unless_empty v := if bool_decide (v = VStr "") then VUndef else v in
  ret (MkIdentityUser (js_String id) (if bool_decide (email = VNull) then VUndef else email)
         (unless_empty name) (unless_empty username)).

Definition resolveAssignee (bctx : BindingContext) (assignees : jsval) : MM jsval :=
  let! len := get_prop assignees "length" in
  if bool_decide (len = VNum 0) then ret VNull
  else
    let! identity := identity_of (js_index assignees 0) in
    let! matched := mapByGitlabUser identity in
    match matched with
    | Some p => ret (VStr p)
    | None =>
        let! stub := ensureStubGuest (bx_workspaceUuid bctx) identity in
        ret (VStr stub)
    end.

Definition resolveLocalLabels (bctx : BindingContext) (names : jsval) : MM (list jsval) :=
  let! l := iterate names in
  mapM_js l (fun name =>
    let! ref := on_label_tags (ensureLocalTag_js (bx_hulyProjectRef bctx) name) in
    ret (VStr ref)).

Definition resolveMilestone (bctx : BindingContext) (milestone : jsval) : MM jsval :=
  match milestone with
  | VNull => ret VNull
  | m =>
      let! title := get_prop m "title" in
      let! description := get_prop m "description" in
      let! ref := on_milestone_local (ensureLocalMilestone_js (bx_hulyProjectRef bctx) title
                    (js_coalesce description VUndef)) in
      ret (VStr ref)
  end.

(** [syncIssue.state === 'closed'] decides. *)
Definition issue_state (state : jsval) : IssueState :=
  if bool_decide (state = VStr "closed") then IsClosed else IsOpened.

Definition remote_description (bctx : BindingContext) (syncIssue : record) : MM jsval :=
  let raw := js_coalesce (prop_of syncIssue "description") (VStr "") in
  let! body :=
    match is_mirrorDeps deps with
    | Some md =>
        try_catch (mirrorBodyGitlabToHuly md raw (bx_gitlabBaseUrl bctx) (bx_gitlabProjectPath bctx))
          (fun _ => ret raw)
    | None => ret raw
    end in
  let! markup := lift_res (gfmMarkdownToMarkup body (issue_ref_url bctx) (image_url bctx)) in
  ret (VStr markup).

(** The fields of a remote record, in Huly's terms. *)
Record RemoteView := MkRemoteView {
  rv_description : jsval;
  rv_assignee : jsval;
  rv_labels : list jsval;
  rv_milestone : jsval;
  rv_status : option string
}.

Definition resolveRemote (bctx : BindingContext) (syncIssue : record) : MM RemoteView :=
  let! description := remote_description bctx syncIssue in
  let! assignee := resolveAssignee bctx (prop_of syncIssue "assignees") in
  let! labels := resolveLocalLabels bctx (prop_of syncIssue "labels") in
  let! milestone := resolveMilestone bctx (prop_of syncIssue "milestone") in
  let! status := on_statuses (mapRemoteState (num_to_string (bx_gitlabProjectId bctx))
                   (issue_state (prop_of syncIssue "state")) (bx_statuses bctx)) in
  ret (MkRemoteView description assignee labels milestone status).

(** ** applyRemote *)

Definition issue_attrs (bctx : BindingContext) (syncIssue : record) (v : RemoteView)
    (statusRef : string) : record :=
  withOriginatedMarker
    [("title", prop_of syncIssue "title");
     ("description", rv_description v);
     ("status", VStr statusRef);
     ("priority", VNum IssuePriority_NoPriority);
     ("assignee", rv_assignee v);
     ("labels", VArr (rv_labels v));
     ("milestone", rv_milestone v);
     ("kind", VStr (bx_defaultTaskType bctx));
     ("modifiedOn", getTime (new_Date (prop_of syncIssue "updatedAt")))].

Definition create_issue (bctx : BindingContext) (binding gitlabId : string) (syncIssue : record)
    (v : RemoteView) (statusRef : string) : MM unit :=
  let! issueRef := on_huly (createDoc HULY_CLASS_ISSUE (bx_hulyProjectRef bctx)
                     (issue_attrs bctx syncIssue v statusRef)) in
  on_db (upsertIdMap (bx_workspaceUuid bctx) KIssue gitlabId HULY_CLASS_ISSUE issueRef) ;;!
  on_db (setCursor binding CIssues (new_Date (prop_of syncIssue "updatedAt"))).

Definition ISSUE_FIELDS : list string :=
  ["title"; "description"; "status"; "assignee"; "milestone"; "labels"].

Definition remote_value (syncIssue : record) (v : RemoteView) (statusRef : string) (k : string)
    : jsval :=
  if decide (k = "title") then prop_of syncIssue k
  else if decide (k = "description") then rv_description v
  else if decide (k = "status") then VStr statusRef
  else if decide (k = "assignee") then rv_assignee v
  else if decide (k = "milestone") then rv_milestone v
  else VArr (rv_labels v).

(** The update object of [applyRemote] and whether it is dirty. *)
Definition issue_update_of (hulyIssue syncIssue : record) (v : RemoteView) (statusRef : string)
    : record * bool :=
  lww_update ISSUE_FIELDS (local_value hulyIssue) (remote_value syncIssue v statusRef)
    (local_ts hulyIssue) (new_Date (prop_of syncIssue "updatedAt")).

Definition update_issue (bctx : BindingContext) (binding hulyRef : string) (hulyIssue syncIssue : record)
    (v : RemoteView) (statusRef : string) : MM unit :=
  let localTs := local_ts hulyIssue in
  let remoteTs := new_Date (prop_of syncIssue "updatedAt") in
  let '(update, dirty) := issue_update_of hulyIssue syncIssue v statusRef in
  when dirty
    (on_huly (updateDoc HULY_CLASS_ISSUE (bx_hulyProjectRef bctx) hulyRef
       (withOriginatedMarker (jset "modifiedOn" (getTime remoteTs) update)))) ;;!
  when (match localTs with None => true | Some l => date_gt remoteTs l end)
    (on_db (setCursor binding CIssues remoteTs)).

Definition issue_applyRemote (ctx : SyncContext) (binding : string) (syncIssue : record) : MM unit :=
  let! bctx := is_loadBinding deps binding in
  let gitlabId := scoped_key bctx (prop_of syncIssue "iid") in
  let! existing := on_db (findByGitlab (bx_workspaceUuid bctx) KIssue gitlabId) in
  let! v := resolveRemote bctx syncIssue in
  match rv_status v with
  | None => ret tt
  | Some statusRef =>
      match existing with
      | None => create_issue bctx binding gitlabId syncIssue v statusRef
      | Some mapping =>
          let! found := on_huly (findOneDoc HULY_CLASS_ISSUE [("_id", VStr (im_hulyRef mapping))]) in
          match found with
          | None => ret tt
          | Some d => update_issue bctx binding (im_hulyRef mapping) (hd_attrs d) syncIssue v statusRef
          end
      end
  end.

(** ** applyLocal *)

Definition ensureRemoteLabels (bctx : BindingContext) (labels : jsval) : MM (list string) :=
  let! l := iterate labels in
  mapM_js l (fun x =>
    let! name := get_prop x "name" in
    let! color := get_prop x "color" in
    let! ensured := on_label_remote (ensureRemoteLabel_js (bx_gitlabProjectId bctx) name color) in
    ret (lb_name ensured)).

(** Run [f] unless the value is [undefined]. *)
Definition if_defined {B} (v : jsval) (f : jsval -> MM B) : MM (option B) :=
  match v with
  | VUndef => ret None
  | _ => let! x := f v in ret (Some x)
  end.

Definition local_milestone_id (bctx : BindingContext) (milestone : jsval) : MM (option jsval) :=
  match milestone with
  | VUndef | VNull => ret None
  | m =>
      let! title := get_prop m "title" in
      let! description := get_prop m "description" in
      let! ensured := on_milestone_remote
        (ensureRemoteMilestone_js (bx_gitlabProjectId bctx) title description) in
      ret (Some (VNum (mi_id ensured)))
  end.

Definition state_event (bctx : BindingContext) (statusRef : jsval) : MM jsval :=
  let ref := match statusRef with VStr s => s | _ => "" end in
  let! st := on_statuses (mapHulyStatus (num_to_string (bx_gitlabProjectId bctx)) ref (bx_statuses bctx)) in
  let closed := match statusRef with VStr _ => bool_decide (st = IsClosed) | _ => false end in
  ret (VStr (if closed then "close" else "reopen")).

Definition local_description (bctx : BindingContext) (descriptionMarkup : jsval) : MM jsval :=
  let! text := lift_res (markupToGfmMarkdown descriptionMarkup (issue_ref_url bctx) (image_url bctx) None) in
  match is_mirrorDeps deps with
  | None => ret (VStr text)
  | Some md =>
      try_catch (mirrorBodyHulyToGitlab md (VStr text) (bx_gitlabProjectId bctx))
        (fun _ => ret (VStr text))
  end.

(** [if (v !== undefined) body.k = v] *)
Definition with_prop (k : string) (v : option jsval) (body : record) : record :=
  match v with Some x => jset k x body | None => body end.

Definition defined (v : jsval) : option jsval := match v with VUndef => None | _ => Some v end.

(** The body of the create and update calls: the properties in the order
    the source assigns them. *)
Definition issue_body (title : option jsval) (description : option jsval)
    (labelNames : option (list string)) (milestoneId assigneeIds stateEvent : option jsval) : record :=
  with_prop "state_event" stateEvent
    (with_prop "assignee_ids" assigneeIds
       (with_prop "milestone_id" milestoneId
          (with_prop "labels" (option_map (fun l => VStr (js_join "," l)) labelNames)
             (with_prop "description" description (with_prop "title" title []))))).

Definition issue_applyLocal (ctx : SyncContext) (binding doc : string) (change : record) : MM unit :=
  let! bctx := is_loadBinding deps binding in
  let hulyRef := stripDocPrefix doc in
  let! mapping := on_db (findByHuly (bx_workspaceUuid bctx) HULY_CLASS_ISSUE hulyRef) in
  let title := defined (prop_of change "title") in
  let! labelNames := if_defined (prop_of change "labels") (ensureRemoteLabels bctx) in
  let! milestoneId := local_milestone_id bctx (prop_of change "milestone") in
  let! stateEvent := if_defined (prop_of change "status") (state_event bctx) in
  let! description := if_defined (prop_of change "description") (local_description bctx) in
  let assigneeIds := defined (prop_of change "assigneeIds") in
  let body := issue_body title description labelNames milestoneId assigneeIds stateEvent in
  match mapping with
  | None =>
      match title with
      | None => ret tt
      | Some _ =>
          let! created := on_gitlab (createIssue (bx_gitlabProjectId bctx) body) in
          on_db (upsertIdMap (bx_workspaceUuid bctx) KIssue
            (scoped_key bctx (prop_of created "iid")) HULY_CLASS_ISSUE hulyRef) ;;!
          let! now := date_now in
          on_db (setCursor binding CIssues (Some now))
      end
  | Some m =>
      match parseIid (im_gitlabId m) with
      | None => ret tt
      | Some iid =>
          match body with
          | [] => ret tt
          | _ =>
              on_gitlab (updateIssue (bx_gitlabProjectId bctx) iid body) ;;!
              let! now := date_now in
              on_db (setCursor binding CIssues (Some now))
          end
      end
  end.

(** ** backfill *)

(** [since.toISOString()]: throws on an invalid date. *)
Definition iso_string (since : option jsdate) : MM (option string) :=
  match since with
  | None => ret None
  | Some None => throw (JsError "RangeError")
  | Some (Some t) => ret (Some (toISOString t))
  end.

Definition issue_backfill (ctx : SyncContext) (binding : string) (since : option jsdate) : MM unit :=
  let! bctx := is_loadBinding deps binding in
  let! updatedAfter := iso_string since in
  let! issues := on_gitlab (listIssues (bx_gitlabProjectId bctx) updatedAfter) in
  forM_ issues (fun issue =>
    let updatedAt := js_String (prop_of issue "updatedAt") in
    enqueueRecord binding "issue" issue
      ("backfill:" +:+ num_to_string (bx_gitlabProjectId bctx) +:+ ":" +:+
       js_String (prop_of issue "iid") +:+ ":" +:+ updatedAt)
      updatedAt).

(** The manager, as the engine sees it. *)
Definition issues_manager : SyncManager Coll X :=
  MkSyncManager "issue" issue_applyRemote issue_applyLocal issue_backfill (Some issue_resourceKey).
End Issues.
