(* ===== verification/SyncToy.v ===== *)
(** * A world for closed examples

    Concrete instances of the clients of Sync.v: a markdown library that
    keeps text as it is, an account service that knows nobody, and a GitLab
    that records the calls it receives and answers with the next iid. *)

From S2P Require Import Prelude JsMap JsString JsVal Metrics Platform Conflict Mongo Store Ids.
From S2P Require Import StatusMap Huly Caches Queue Breaker Engine Sync TxSubscriber FieldSync Issues.
Open Scope nat_scope.
Open Scope string_scope.
Open Scope list_scope.

#[export] Instance toy_markdown : Markdown := {
  markup_node := string;
  MarkdownParser_parse _ _ message :=
    match message with VStr s => Ok s | _ => Throw (JsError "TypeError") end;
  jsonToMarkup s := s;
  markupToJSON v := match v with VStr s => Ok s | _ => Throw (JsError "TypeError") end;
  serializeMarkupNode s _ _ := Ok s
}.

#[export] Instance toy_accounts : AccountClient unit := {
  findPersonBySocialKey _ := ret None
}.

(** One recorded call: its name, its numeric argument and its body. *)
Definition ToyGitLab : Type := list (string * Z * record).

Definition toy_call (name : string) (n : Z) (body : record) : M ToyGitLab Z := fun g =>
  (Ok (Z.of_nat (length g) + 1)%Z, g ++ [(name, n, body)]).

#[export] Instance toy_issues : IssueGitLabClient ToyGitLab := {
  listIssues _ _ := ret [];
  createIssue pid body :=
    let! iid := toy_call "createIssue" pid body in ret [("iid", VNum iid)];
  updateIssue pid iid body :=
    toy_call "updateIssue" iid body ;;! ret [("iid", VNum iid)]
}.

#[export] Instance toy_label_client : LabelGitLabClient ToyGitLab := {
  listLabels _ := ret [];
  createLabel pid body :=
    let! n := toy_call "createLabel" pid body in
    ret (MkSyncLabel n (default "" (as_string (field "name" body))) "#A0A0A0" None)
}.

#[export] Instance toy_milestone_client : MilestoneGitLabClient ToyGitLab := {
  listMilestones _ := ret [];
  createMilestone pid body :=
    let! n := toy_call "createMilestone" pid body in
    ret (MkSyncMilestone n n (default "" (as_string (field "title" body))) None MsActive None None "" "")
}.

Abbreviation ToyX := (SyncState (list HulyDoc) ToyGitLab unit).

Definition toy_state : Store list * ToyX :=
  (empty_store, MkSyncState [] [] tt new_label_cache new_milestone_cache [] [] [] 0).

Definition toy_statuses : list Status :=
  [MkStatus "s-todo" (Some "task:statusCategory:ToDo");
   MkStatus "s-done" (Some "task:statusCategory:Won")].

Definition toy_bctx (multi : bool) : BindingContext :=
  MkBindingContext "ws" 42 "group/project" "proj" toy_statuses "tt" "https://gitlab.com/"
    (Some multi).

(** The loader of src/sync/binding-loader.ts gives every load new caches. *)
Definition toy_load (multi : bool) (binding : string)
    : M (Store list * ToyX) BindingContext := fun s =>
  (Ok (toy_bctx multi), (s.1, set_labels new_label_cache (set_milestones new_milestone_cache s.2))).

Definition toy_deps (multi : bool) :
    IssuesSyncManagerDeps (Coll := list) (HU := list HulyDoc) (GL := ToyGitLab) (AC := unit) :=
  MkIssuesDeps (toy_load multi) None (Some (fun _ _ _ _ _ => ret tt)) None.

(** A record as the GitLab adapter builds it, with its update time in the
    length of a string (see [toy_platform]). *)
Fixpoint stamp (n : nat) : string := match n with O => "" | S n => "t" +:+ stamp n end.

Definition toy_issue (iid : Z) (title : string) (labels : list string) (updated : nat) : record :=
  [("id", VNum (1000 + iid)%Z); ("iid", VNum iid); ("projectId", VNum 42); ("title", VStr title);
   ("description", VStr "text"); ("state", VStr "opened"); ("labels", VArr (map VStr labels));
   ("milestone", VNull); ("assignees", VArr []); ("confidential", VBool false);
   ("updatedAt", VStr (stamp updated))].

Definition toy_apply (multi : bool) (r : record) (s : Store list * ToyX) : Store list * ToyX :=
  (issue_applyRemote (toy_deps multi) (MkSyncContext "ws") "b" r s).2.
