(* ===== verification/MergeRequests.v ===== *)
(** * The merge-request sync manager (src/sync/mr.ts)

    Two-way sync of merge requests, which Huly holds as tracker issues with
    two runtime mixins: [applyRemote] mirrors a GitLab record, [applyLocal]
    pushes a Huly change - fields of the request and approvals - and
    [backfill] hands the listed records to the engine.  The helpers are those
    of src/sync/mr-helpers.ts, the mixin builders and the approval actions
    those of src/sync/mr-approvals.ts, the mixin reader that of
    src/sync/mr-mixin.ts.  Values are dynamic, as in Issues.v. *)

From S2P Require Import Prelude JsMap JsString JsVal Metrics Platform Conflict Mongo Store Ids.
From S2P Require Import StatusMap Huly Caches Queue Breaker Engine Sync TxSubscriber FieldSync Issues.
Open Scope nat_scope.
Open Scope string_scope.
Open Scope list_scope.

(** ** Mixins *)

Definition MR_MIXIN : string := "gitlab-mr".
Definition MR_CORE_MIXIN : string := "gitlab-mr-core".
Definition MR_REVIEW_MIXIN_DOC : string := "gitlab-mr-review".

(** [{ ...(core ?? {}), ...(review ?? {}) }] when one of them is there *)
Definition merged_mixins (core review : option record) : option record :=
  match core, review with
  | None, None => None
  | _, _ => Some (jset_all (default [] review) (default [] core))
  end.

(** [hierarchy] is the platform's mixin view; [None] of its answer is the
    exception of an absent mixin. *)
Definition readMRMixinAttributes (issue : option HulyDoc)
    (hierarchy : option (HulyDoc -> string -> option record)) : record :=
  match issue with
  | None => []
  | Some d =>
      let by_key :=
        match merged_mixins (mixin_of MR_CORE_MIXIN d) (mixin_of MR_REVIEW_MIXIN_DOC d) with
        | Some merged => merged
        | None => default [] (mixin_of MR_MIXIN d)
        end in
      match hierarchy with
      | None => by_key
      | Some as_ =>
          match merged_mixins (as_ d MR_CORE_MIXIN) (as_ d MR_REVIEW_MIXIN_DOC) with
          | Some merged => merged
          | None => default by_key (as_ d MR_MIXIN)
          end
      end
  end.

(** ** Mixin builders *)

Definition is_defined (v : jsval) : bool := match v with VUndef => false | _ => true end.

(** The loop of [deriveApprovalStatusFromRules]: some rule has fewer
    approvals than it requires. *)
Fixpoint some_rule_pending (rules : list jsval) : res bool :=
  match rules with
  | [] => Ok false
  | rule :: rest =>
      let? approvedBy := res_prop rule "approvedBy" in
      let? n := res_prop approvedBy "length" in
      let? required := res_prop rule "approvalsRequired" in
      if js_lt n required then Ok true else some_rule_pending rest
  end.

Definition deriveApprovalStatusFromRules (rules : jsval) : res string :=
  let? l := res_elements rules in
  let? pending := some_rule_pending l in
  Ok (if pending then "pending" else "approved").

Definition deriveApprovalStatus (approvedBy approvalsRequired : jsval) : res string :=
  if is_defined approvalsRequired && js_lt (VNum 0) approvalsRequired && is_defined approvedBy then
    let? n := res_prop approvedBy "length" in
    Ok (if js_le approvalsRequired n then "approved" else "pending")
  else Ok "pending".

(** The value of [approvalStatus], when it is written. *)
Definition approval_status (syncMR : record) (approvedByUuids : jsval) : res (option jsval) :=
  let rules := prop_of syncMR "approvalRules" in
  let? has_rules :=
    (if is_defined rules then let? n := res_prop rules "length" in Ok (js_lt (VNum 0) n) else Ok false) in
  if has_rules then
    let? st := deriveApprovalStatusFromRules rules in Ok (Some (VStr st))
  else if is_defined (prop_of syncMR "approvedBy") && is_defined (prop_of syncMR "approvalsRequired") then
    let? st := deriveApprovalStatus (js_coalesce approvedByUuids (VArr []))
                 (prop_of syncMR "approvalsRequired") in
    Ok (Some (VStr st))
  else Ok None.

(** [if (syncMR.k !== undefined && uuids !== undefined) target.k = uuids] *)
Definition fetched (syncMR : record) (k : string) (uuids : jsval) : option jsval :=
  if is_defined (prop_of syncMR k) then defined uuids else None.

(** The assignments to [target], in the order of the source. *)
Definition applyPhase3MixinFields (target syncMR : record) (reviewerUuids approvedByUuids : jsval)
    : res record :=
  let target := with_prop "reviewers" (fetched syncMR "reviewers" reviewerUuids) target in
  let target := with_prop "approvedBy" (fetched syncMR "approvedBy" approvedByUuids) target in
  let target := with_prop "approvalsRequired" (defined (prop_of syncMR "approvalsRequired")) target in
  let target := with_prop "approvalRules" (defined (prop_of syncMR "approvalRules")) target in
  let? status := approval_status syncMR approvedByUuids in
  let target := with_prop "approvalStatus" status target in
  let target := with_prop "iteration" (defined (prop_of syncMR "iteration")) target in
  let target := with_prop "diffWebUrl" (defined (prop_of syncMR "diffWebUrl")) target in
  Ok (with_prop "changedFiles" (defined (prop_of syncMR "changedFiles")) target).

(** The same assignments to an empty target; the source writes them out
    again. *)
Definition buildReviewFromSyncMR (syncMR : record) (reviewerUuids approvedByUuids : jsval)
    : res record :=
  let target := with_prop "reviewers" (fetched syncMR "reviewers" reviewerUuids) [] in
  let target := with_prop "approvedBy" (fetched syncMR "approvedBy" approvedByUuids) target in
  let target := with_prop "approvalsRequired" (defined (prop_of syncMR "approvalsRequired")) target in
  let target := with_prop "approvalRules" (defined (prop_of syncMR "approvalRules")) target in
  let? status := approval_status syncMR approvedByUuids in
  let target := with_prop "approvalStatus" status target in
  let target := with_prop "iteration" (defined (prop_of syncMR "iteration")) target in
  let target := with_prop "diffWebUrl" (defined (prop_of syncMR "diffWebUrl")) target in
  Ok (with_prop "changedFiles" (defined (prop_of syncMR "changedFiles")) target).

Definition buildCoreFromSyncMR (syncMR : record) : record :=
  [("sourceBranch", prop_of syncMR "sourceBranch");
   ("targetBranch", prop_of syncMR "targetBranch");
   ("draft", prop_of syncMR "draft");
   ("mergedAt", prop_of syncMR "mergedAt");
   ("mergeStatus", prop_of syncMR "mergeStatus");
   ("webUrl", prop_of syncMR "webUrl");
   ("gitlabIid", prop_of syncMR "iid");
   ("gitlabProjectId", prop_of syncMR "projectId")].

(** The attributes of the mixin before it was split. *)
Definition buildMixinCreateData (syncMR : record) (reviewerUuids approvedByUuids : jsval)
    : res record :=
  applyPhase3MixinFields
    [("sourceBranch", prop_of syncMR "sourceBranch");
     ("targetBranch", prop_of syncMR "targetBranch");
     ("draft", prop_of syncMR "draft");
     ("mergedAt", prop_of syncMR "mergedAt");
     ("mergeStatus", prop_of syncMR "mergeStatus");
     ("webUrl", prop_of syncMR "webUrl");
     ("gitlabIid", prop_of syncMR "iid");
     ("gitlabProjectId", prop_of syncMR "projectId")]
    syncMR reviewerUuids approvedByUuids.

Definition buildMixinUpdateData (syncMR : record) (reviewerUuids approvedByUuids : jsval)
    : res record :=
  applyPhase3MixinFields
    [("sourceBranch", prop_of syncMR "sourceBranch");
     ("targetBranch", prop_of syncMR "targetBranch");
     ("draft", prop_of syncMR "draft");
     ("mergedAt", prop_of syncMR "mergedAt");
     ("mergeStatus", prop_of syncMR "mergeStatus");
     ("webUrl", prop_of syncMR "webUrl")]
    syncMR reviewerUuids approvedByUuids.

(** ** The manager *)

(** The GitLab calls of the manager. *)
Class MRGitLabClient (G : Type) := {
  listMergeRequests : forall (projectId : Z) (updatedAfter : option jsdate), M G (list record);
  updateMergeRequest : forall (projectId mrIid : Z) (body : record), M G record;
  approveMR : forall (projectId mrIid : Z) (actorToken : option string), M G unit;
  unapproveMR : forall (projectId mrIid : Z) (actorToken : option string), M G unit;
  getProject : forall (projectId : Z), M G record
}.

Definition APPROVAL_RACE_WINDOW_MS : Z := 30000.
Definition CLASS_CHAT_MESSAGE : string := "chunter:class:ChatMessage".

Inductive ApprovalKind := AkApprove | AkUnapprove.

Section MergeRequests.
Context {Coll : Type -> Type} `{Mongo Coll} {P : Platform} `{Sha256} `{Markdown} `{FastEquals}.
Context {HU GL AC : Type} `{HulyClient HU} `{MRGitLabClient GL} `{LabelGitLabClient GL}
  `{MilestoneGitLabClient GL} `{AccountClient AC}.
Abbreviation X := (SyncState HU GL AC).
Abbreviation MM := (M (Store Coll * X)).

(** [mr_credentials] is the [resolveActorToken] of the binding context. *)
Record MergeRequestsSyncManagerDeps := MkMRDeps {
  mr_loadBinding : string -> MM BindingContext;
  mr_enqueuer : option (string -> string -> record -> string -> string -> MM unit);
  mr_backfillEnqueuer : option (string -> string -> record -> string -> string -> MM unit);
  mr_credentials : string -> jsval -> MM (option string)
}.

Context (deps : MergeRequestsSyncManagerDeps).

Definition resolveMRRef (ctx : SyncContext) (binding : BindingContext) (mrIid : jsval)
    : MM (option string) :=
  let! mapping := on_db (findByGitlab (ctx_workspaceUuid ctx) KMergeRequest (scoped_key binding mrIid)) in
  ret (option_map im_hulyRef mapping).

Definition mr_resourceKey (r : record) : option string :=
  match as_number (field "iid" r) with
  | Some iid => Some ("mr:" +:+ num_to_string iid)
  | None =>
      match as_object (field "object_attributes" r) with
      | Some objAttrs =>
          match as_number (field "iid" objAttrs) with
          | Some i => Some ("mr:" +:+ num_to_string i)
          | None => None
          end
      | None => None
      end
  end.

Definition mr_enqueueRecord (binding kind : string) (r : record) (eventId version : string) : MM unit :=
  match mr_backfillEnqueuer deps with
  | Some f => f binding kind r eventId version
  | None =>
      match mr_enqueuer deps with
      | Some f => f binding kind r eventId version
      | None => ret tt
      end
  end.

(** *** mr-helpers.ts *)

(** The person of a GitLab user, a stub when there is none. *)
Definition resolve_user (bctx : BindingContext) (user : jsval) : MM jsval :=
  let! identity := identity_of user in
  let! matched := mapByGitlabUser identity in
  match matched with
  | Some p => ret (VStr p)
  | None =>
      let! stub := ensureStubGuest (bx_workspaceUuid bctx) identity in
      ret (VStr stub)
  end.

Definition mr_resolveAssignee (bctx : BindingContext) (assignees : jsval) : MM jsval :=
  let! len := get_prop assignees "length" in
  if bool_decide (len = VNum 0) then ret VNull
  else resolve_user bctx (js_index assignees 0).

Definition resolveReviewerUuids (bctx : BindingContext) (users : jsval) : MM jsval :=
  match users with
  | VUndef => ret VUndef
  | _ =>
      let! l := iterate users in
      let! out := mapM_js l (resolve_user bctx) in
      ret (VArr out)
  end.

Definition mr_resolveLocalLabels (bctx : BindingContext) (names : jsval) : MM (list jsval) :=
  let! l := iterate names in
  mapM_js l (fun name =>
    let! ref := on_label_tags (ensureLocalTag_js (bx_hulyProjectRef bctx) name) in
    ret (VStr ref)).

Definition mr_ensureRemoteLabels (bctx : BindingContext) (labels : jsval) : MM (list string) :=
  let! l := iterate labels in
  mapM_js l (fun x =>
    let! name := get_prop x "name" in
    let! color := get_prop x "color" in
    let! ensured := on_label_remote (ensureRemoteLabel_js (bx_gitlabProjectId bctx) name color) in
    ret (lb_name ensured)).

(** *** Resolution of a remote record *)

Definition mr_ref_url (bctx : BindingContext) : string := image_url bctx +:+ "/-/merge_requests".

Definition mr_resolveMilestone (bctx : BindingContext) (milestone : jsval) : MM jsval :=
  match milestone with
  | VNull => ret VNull
  | m =>
      let! title := get_prop m "title" in
      let! ref := on_milestone_local (ensureLocalMilestone_js (bx_hulyProjectRef bctx) title VUndef) in
      ret (VStr ref)
  end.

(** The parameter [remote] of [mapRemoteMRState]: every other value falls
    through to the last branch. *)
Definition mr_state (state : jsval) : MRState :=
  if bool_decide (state = VStr "locked") then MrLocked
  else if bool_decide (state = VStr "merged") then MrMerged
  else if bool_decide (state = VStr "closed") then MrClosed
  else MrOpened.

(** The fields of a remote record, in Huly's terms. *)
Record MRView := MkMRView {
  mv_description : jsval;
  mv_assignee : jsval;
  mv_reviewers : jsval;
  mv_approvedBy : jsval;
  mv_labels : list jsval;
  mv_milestone : jsval
}.

Definition resolveMR (bctx : BindingContext) (syncMR : record) : MM MRView :=
  let! markup := lift_res (gfmMarkdownToMarkup (js_coalesce (prop_of syncMR "description") (VStr ""))
                   (mr_ref_url bctx) (image_url bctx)) in
  let! assignee := mr_resolveAssignee bctx (prop_of syncMR "assignees") in
  let! reviewers := resolveReviewerUuids bctx (prop_of syncMR "reviewers") in
  let! approvedBy := resolveReviewerUuids bctx (prop_of syncMR "approvedBy") in
  let! labels := mr_resolveLocalLabels bctx (prop_of syncMR "labels") in
  let! milestone := mr_resolveMilestone bctx (prop_of syncMR "milestone") in
  ret (MkMRView (VStr markup) assignee reviewers approvedBy labels milestone).

Definition mr_status (bctx : BindingContext) (syncMR : record) (current : jsval) : MRStateMapping :=
  mapRemoteMRState (mr_state (prop_of syncMR "state")) (truthy (prop_of syncMR "draft")) current
    (bx_statuses bctx).

Definition mr_remoteTs (syncMR : record) : jsdate := new_Date (prop_of syncMR "updatedAt").

(** *** applyRemote *)

Definition mr_attrs (bctx : BindingContext) (syncMR : record) (v : MRView) (statusRef : jsval)
    (priority : Z) : record :=
  withOriginatedMarker
    [("title", prop_of syncMR "title");
     ("description", mv_description v);
     ("status", statusRef);
     ("priority", VNum priority);
     ("assignee", mv_assignee v);
     ("labels", VArr (mv_labels v));
     ("milestone", mv_milestone v);
     ("kind", VStr (bx_defaultTaskType bctx));
     ("modifiedOn", getTime (mr_remoteTs syncMR))].

Definition create_mr (bctx : BindingContext) (binding gitlabId : string) (syncMR : record) (v : MRView)
    : MM unit :=
  let initialStatus := mr_status bctx syncMR (VStr "") in
  let statusRef := ms_status initialStatus in
  if bool_decide (statusRef = VUndef) || bool_decide (js_String statusRef = "") then ret tt
  else
    let priority := default IssuePriority_NoPriority (ms_priority initialStatus) in
    let! issueRef := on_huly (createDoc HULY_CLASS_ISSUE (bx_hulyProjectRef bctx)
                       (mr_attrs bctx syncMR v statusRef priority)) in
    on_huly (createMixin issueRef HULY_CLASS_ISSUE (bx_hulyProjectRef bctx) MR_CORE_MIXIN
      (withOriginatedMarker (buildCoreFromSyncMR syncMR))) ;;!
    let! reviewCreate := lift_res (buildReviewFromSyncMR syncMR (mv_reviewers v) (mv_approvedBy v)) in
    when (negb (bool_decide (reviewCreate = [])))
      (on_huly (createMixin issueRef HULY_CLASS_ISSUE (bx_hulyProjectRef bctx) MR_REVIEW_MIXIN_DOC
        (withOriginatedMarker reviewCreate))) ;;!
    on_db (upsertIdMap (bx_workspaceUuid bctx) KMergeRequest gitlabId HULY_CLASS_ISSUE issueRef) ;;!
    on_db (setCursor binding CMergeRequests (mr_remoteTs syncMR)).

Definition MR_FIELDS : list string :=
  ["title"; "description"; "status"; "assignee"; "milestone"; "labels"; "priority"].

(** The [value]s of [remote]; [hulyIssue] has the values that are kept. *)
Definition mr_remote_value (bctx : BindingContext) (hulyIssue syncMR : record) (v : MRView) (k : string)
    : jsval :=
  let stateMapping := mr_status bctx syncMR (prop_of hulyIssue "status") in
  if decide (k = "title") then prop_of syncMR k
  else if decide (k = "description") then mv_description v
  else if decide (k = "status") then
    (if bool_decide (prop_of syncMR "state" = VStr "locked") then prop_of hulyIssue k
     else ms_status stateMapping)
  else if decide (k = "assignee") then mv_assignee v
  else if decide (k = "milestone") then mv_milestone v
  else if decide (k = "labels") then VArr (mv_labels v)
  else match ms_priority stateMapping with Some p => VNum p | None => prop_of hulyIssue k end.

(** The update object of [applyRemote] and whether it is dirty. *)
Definition mr_update_of (bctx : BindingContext) (hulyIssue syncMR : record) (v : MRView)
    : record * bool :=
  lww_update MR_FIELDS (local_value hulyIssue) (mr_remote_value bctx hulyIssue syncMR v)
    (local_ts hulyIssue) (mr_remoteTs syncMR).

(** [resolvedApprovedBy]: the approvers Huly knows are kept when GitLab
    lists fewer of them while an approval may be under way. *)
Definition resolve_approvedBy (hulyIssue : HulyDoc) (remoteTs : jsdate) (approvedByUuids : jsval)
    : MM jsval :=
  match approvedByUuids with
  | VUndef => ret VUndef
  | _ =>
      let existingMixin := readMRMixinAttributes (Some hulyIssue) None in
      let localApprovedBy := js_coalesce (prop_of existingMixin "approvedBy") (VArr []) in
      let localTsMs := prop_of (hd_attrs hulyIssue) "modifiedOn" in
      let! withinRace :=
        match localTsMs with
        | VNum n =>
            if (0 <? n)%Z then
              let! now := date_now in ret (now - n <? APPROVAL_RACE_WINDOW_MS)%Z
            else ret false
        | _ => ret false
        end in
      let localNewer := js_lt (VNum 0) localTsMs && js_le (getTime remoteTs) localTsMs in
      let! nl := get_prop localApprovedBy "length" in
      let! nr := get_prop approvedByUuids "length" in
      ret (if js_lt nr nl && ((withinRace : bool) || localNewer) then localApprovedBy
           else approvedByUuids)
  end.

Definition update_mr (bctx : BindingContext) (binding hulyRef : string) (hulyIssue : HulyDoc)
    (syncMR : record) (v : MRView) : MM unit :=
  let localTs := local_ts (hd_attrs hulyIssue) in
  let remoteTs := mr_remoteTs syncMR in
  let '(update, dirty) := mr_update_of bctx (hd_attrs hulyIssue) syncMR v in
  when dirty
    (on_huly (updateDoc HULY_CLASS_ISSUE (bx_hulyProjectRef bctx) hulyRef
       (withOriginatedMarker (jset "modifiedOn" (getTime remoteTs) update)))) ;;!
  let! resolvedApprovedBy := resolve_approvedBy hulyIssue remoteTs (mv_approvedBy v) in
  on_huly (updateMixin hulyRef HULY_CLASS_ISSUE (bx_hulyProjectRef bctx) MR_CORE_MIXIN
    (withOriginatedMarker (buildCoreFromSyncMR syncMR))) ;;!
  let! reviewUpdate := lift_res (buildReviewFromSyncMR syncMR (mv_reviewers v) resolvedApprovedBy) in
  when (negb (bool_decide (reviewUpdate = [])))
    (on_huly (updateMixin hulyRef HULY_CLASS_ISSUE (bx_hulyProjectRef bctx) MR_REVIEW_MIXIN_DOC
      (withOriginatedMarker reviewUpdate))) ;;!
  when (match localTs with None => true | Some l => date_gt remoteTs l end)
    (on_db (setCursor binding CMergeRequests remoteTs)).

Definition mr_applyRemote (ctx : SyncContext) (binding : string) (syncMR : record) : MM unit :=
  let! bctx := mr_loadBinding deps binding in
  let gitlabId := scoped_key bctx (prop_of syncMR "iid") in
  let! existing := on_db (findByGitlab (bx_workspaceUuid bctx) KMergeRequest gitlabId) in
  let! v := resolveMR bctx syncMR in
  match existing with
  | None => create_mr bctx binding gitlabId syncMR v
  | Some mapping =>
      let! found := on_huly (findOneDoc HULY_CLASS_ISSUE [("_id", VStr (im_hulyRef mapping))]) in
      match found with
      | None => ret tt
      | Some d => update_mr bctx binding (im_hulyRef mapping) d syncMR v
      end
  end.

(** *** Approval actions (mr-approvals.ts) *)

Definition comment_attrs (issueRef body : string) : record :=
  withOriginatedMarker
    [("attachedTo", VStr issueRef);
     ("attachedToClass", VStr HULY_CLASS_ISSUE);
     ("collection", VStr "comments");
     ("message", VStr body)].

(** [createDoc] within [try], whose exceptions are swallowed *)
Definition post_comment (bctx : BindingContext) (issueRef body : string) : MM unit :=
  try_catch
    (on_huly (createDoc CLASS_CHAT_MESSAGE (bx_hulyProjectRef bctx) (comment_attrs issueRef body)) ;;!
     ret tt)
    (fun _ => ret tt).

Definition postVisibilityComment (bctx : BindingContext) (issueRef : string) (kind : ApprovalKind)
    : MM unit :=
  let verb := match kind with AkApprove => "Approved" | AkUnapprove => "Unapproved" end in
  post_comment bctx issueRef
    (verb +:+ " via service account; per-user OAuth UI coming in Phase 4").

Definition postFailureComment (bctx : BindingContext) (issueRef : string) (kind : ApprovalKind)
    : MM unit :=
  let verb := match kind with AkApprove => "Approval" | AkUnapprove => "Unapproval" end in
  post_comment bctx issueRef (verb +:+ " failed — see logs for details").

Definition approval_call (bctx : BindingContext) (iid : Z) (actorToken : option string)
    (kind : ApprovalKind) : MM unit :=
  match kind with
  | AkApprove => on_gitlab (approveMR (bx_gitlabProjectId bctx) iid actorToken)
  | AkUnapprove => on_gitlab (unapproveMR (bx_gitlabProjectId bctx) iid actorToken)
  end.

Definition invokeApprovalAction (bctx : BindingContext) (issueRef : string) (iid : Z) (person : jsval)
    (kind : ApprovalKind) : MM unit :=
  let! actorToken := mr_credentials deps (bx_workspaceUuid bctx) person in
  let usingServiceAccount := match actorToken with None => true | Some _ => false end in
  when usingServiceAccount (count APPROVAL_SERVICE_ACCOUNT_FALLBACK) ;;!
  let! done :=
    try_catch (approval_call bctx iid actorToken kind ;;! ret true)
      (fun err =>
         match err with
         | ApprovalActionError _ => postFailureComment bctx issueRef kind ;;! ret false
         | _ => throw err
         end) in
  when (done && usingServiceAccount) (postVisibilityComment bctx issueRef kind).

(** [v.map(...)]: arrays only. *)
Definition array_of (v : jsval) : MM (list jsval) :=
  match v with VArr l => ret l | _ => type_error end.

(** The elements of [l] whose string is not among those of [other]. *)
Definition missing_from (other l : list jsval) : list jsval :=
  let otherSet := map js_String other in
  List.filter (fun u => negb (bool_decide (js_String u ∈ otherSet))) l.

Definition applyApprovalActions (bctx : BindingContext) (issueRef : string) (iid : Z)
    (incoming : jsval) : MM unit :=
  let! hulyIssue := on_huly (findOneDoc HULY_CLASS_ISSUE [("_id", VStr issueRef)]) in
  let! current := array_of (js_coalesce (prop_of (readMRMixinAttributes hulyIssue None) "approvedBy")
                              (VArr [])) in
  let! incoming := array_of incoming in
  let added := missing_from current incoming in
  let removed := missing_from incoming current in
  forM_ added (fun person => invokeApprovalAction bctx issueRef iid person AkApprove) ;;!
  forM_ removed (fun person => invokeApprovalAction bctx issueRef iid person AkUnapprove).

(** *** applyLocal *)

Definition mr_body (title description : option jsval) (labelNames : option (list string))
    (milestoneId assigneeIds : option jsval) (stateEvent : option StateEvent)
    (targetBranch : option jsval) : record :=
  with_prop "target_branch" targetBranch
    (with_prop "state_event"
       (option_map (fun e => VStr (match e with SeClose => "close" | SeReopen => "reopen" end)) stateEvent)
       (with_prop "assignee_ids" assigneeIds
          (with_prop "milestone_id" milestoneId
             (with_prop "labels" (option_map (fun l => VStr (js_join "," l)) labelNames)
                (with_prop "description" description (with_prop "title" title [])))))).

Definition mr_local_description (bctx : BindingContext) (descriptionMarkup : jsval) : MM jsval :=
  let! text := lift_res (markupToGfmMarkdown descriptionMarkup (mr_ref_url bctx) (image_url bctx) None) in
  ret (VStr text).

Definition mr_applyLocal (ctx : SyncContext) (binding doc : string) (change : record) : MM unit :=
  let! bctx := mr_loadBinding deps binding in
  let hulyRef := stripDocPrefix doc in
  let! mapping := on_db (findByHuly (bx_workspaceUuid bctx) HULY_CLASS_ISSUE hulyRef) in
  match mapping with
  | None => ret tt
  | Some m =>
      match parseIid (im_gitlabId m) with
      | None => ret tt
      | Some iid =>
          let! labelNames := if_defined (prop_of change "labels") (mr_ensureRemoteLabels bctx) in
          let! milestoneId := local_milestone_id bctx (prop_of change "milestone") in
          let stateEvent :=
            if is_defined (prop_of change "status")
            then mapHulyStatusToMRStateEvent (prop_of change "status") (bx_statuses bctx) else None in
          let! description := if_defined (prop_of change "description") (mr_local_description bctx) in
          let update := mr_body (defined (prop_of change "title")) description labelNames milestoneId
                          (defined (prop_of change "assigneeIds")) stateEvent
                          (defined (prop_of change "targetBranch")) in
          let nonempty := negb (bool_decide (update = [])) in
          when nonempty
            (on_gitlab (updateMergeRequest (bx_gitlabProjectId bctx) iid update) ;;! ret tt) ;;!
          when (is_defined (prop_of change "approvedBy"))
            (applyApprovalActions bctx hulyRef iid (prop_of change "approvedBy")) ;;!
          if nonempty || is_defined (prop_of change "approvedBy") then
            let! now := date_now in
            on_db (setCursor binding CMergeRequests (Some now))
          else ret tt
      end
  end.

(** *** backfill *)

(** [v.toISOString()] *)
Definition to_iso (v : jsval) : MM string :=
  match v with
  | VDate (Some t) => ret (toISOString t)
  | VDate None => throw (JsError "RangeError")
  | _ => type_error
  end.

Definition mr_backfill (ctx : SyncContext) (binding : string) (since : option jsdate) : MM unit :=
  let! bctx := mr_loadBinding deps binding in
  let! mrs := on_gitlab (listMergeRequests (bx_gitlabProjectId bctx) since) in
  forM_ mrs (fun mr =>
    let! versionIso := to_iso (prop_of mr "updatedAt") in
    mr_enqueueRecord binding "merge_request" mr
      ("backfill:mr:" +:+ num_to_string (bx_gitlabProjectId bctx) +:+ ":" +:+
       js_String (prop_of mr "iid") +:+ ":" +:+ versionIso)
      versionIso).

(** *** Reviewer labels and the project path *)

(** The labels that stood for reviewers; kept for the migration. *)
Definition resolveReviewerLabels (bctx : BindingContext) (reviewers : jsval) : MM (list jsval) :=
  let! l := iterate (js_coalesce reviewers (VArr [])) in
  mapM_js l (fun r =>
    let! username := get_prop r "username" in
    let! ref := on_label_tags (ensureLocalTag_js (bx_hulyProjectRef bctx)
                  (VStr ("gitlab:reviewer:" +:+ js_String username))) in
    ret (VStr ref)).

(** The path and the new value of [bctx.resolvedProjectPath]. *)
Definition resolveProjectPath (bctx : BindingContext) (resolvedProjectPath : jsval)
    : MM (jsval * jsval) :=
  match resolvedProjectPath with
  | VUndef =>
      try_catch
        (let! project := on_gitlab (getProject (bx_gitlabProjectId bctx)) in
         let path := prop_of project "pathWithNamespace" in
         ret (path, path))
        (fun _ => ret (VStr (num_to_string (bx_gitlabProjectId bctx)), VUndef))
  | path => ret (path, path)
  end.

(** The manager, as the engine sees it. *)
Definition merge_requests_manager : SyncManager Coll X :=
  MkSyncManager "merge_request" mr_applyRemote mr_applyLocal mr_backfill (Some mr_resourceKey).
End MergeRequests.
