(* ===== verification/IssuesProofs.v ===== *)
(** * Correctness of the issues manager

    Theorems about the definitions of Issues.v: what a remote record creates
    and updates, replays, stale records, what a local change pushes, and the
    records and changes the manager cannot handle. *)

From stdpp Require Import relations.
From S2P Require Import Prelude JsMap JsString JsVal Metrics Platform Conflict Mongo Store Ids.
From S2P Require Import StatusMap Huly Caches Queue Breaker Engine Sync TxSubscriber FieldSync Issues.
Open Scope nat_scope.
Open Scope string_scope.
Open Scope list_scope.

(** ** Computations that never return a value, and lists of results *)

Section NeverOk.
Context {S : Type}.

(** Whatever state it starts from, the computation throws. *)
Definition never_ok {A} (m : M S A) : Prop := forall s, exists e, (m s).1 = Throw e.

Lemma never_ok_throw {A} e : never_ok (throw (A := A) e).
Proof. intros s. by exists e. Qed.

Lemma never_ok_then {A B} (m : M S A) (k : A -> M S B) :
  (forall a, never_ok (k a)) -> never_ok (bind m k).
Proof.
  intros Hk s. unfold bind. destruct (m s) as [[a|e] s']; [apply Hk|by exists e].
Qed.

Lemma never_ok_first {A B} (m : M S A) (k : A -> M S B) : never_ok m -> never_ok (bind m k).
Proof.
  intros Hm s. destruct (Hm s) as [e He]. unfold bind.
  destruct (m s) as [[a|e'] s']; [done|by exists e'].
Qed.

Lemma never_ok_ret {A B} (a : A) (k : A -> M S B) : never_ok (k a) -> never_ok (bind (ret a) k).
Proof. done. Qed.

Lemma never_ok_zoom {T A} (get : S -> T) set (m : M T A) :
  (forall t, exists e, (m t).1 = Throw e) -> never_ok (zoom get set m).
Proof. intros Hm s. unfold zoom. destruct (Hm (get s)) as [e He]. destruct (m (get s)). by exists e. Qed.
Lemma mapM_js_values {A B} (l : list A) (f : A -> M S B) (Q : B -> Prop) s vs s' :
  (forall x t y t', f x t = (Ok y, t') -> Q y) -> mapM_js l f s = (Ok vs, s') -> Forall Q vs.
Proof.
  intros Hf. revert s vs. induction l as [|x l IH]; intros s vs; cbn [mapM_js].
  - by intros [= <- _].
  - intros (y & t & Ev & (ys & t' & Evs & [= <- <-])%bind_inv_ok)%bind_inv_ok.
    constructor; [by eapply Hf|by eapply IH].
Qed.
End NeverOk.

(** A string has no property but its length. *)
Lemma get_prop_string {S} ref k :
  k <> "length" -> get_prop (S := S) (VStr ref) k = ret VUndef.
Proof. intros Hk. unfold get_prop. cbn [js_get]. by rewrite decide_False. Qed.

Section Unhandled.
Context {Coll : Type -> Type} `{Mongo Coll} {P : Platform} `{Sha256} `{Markdown} `{FastEquals}.
Context {HU GL AC : Type} `{HulyClient HU} `{IssueGitLabClient GL} `{LabelGitLabClient GL}
  `{MilestoneGitLabClient GL} `{AccountClient AC}.
Abbreviation X := (SyncState HU GL AC).
Implicit Types (deps : IssuesSyncManagerDeps (Coll := Coll) (HU := HU) (GL := GL) (AC := AC))
  (s : Store Coll * X).

(** The manager reads the adapter's record shape: on any record without a
    top-level [milestone] property - every body of a GitLab issue hook, which
    carries [object_attributes] instead - applyRemote throws, whatever else
    the record, the store and the clients hold. *)
Theorem issue_hook_body_never_applied deps ctx binding r :
  jget "milestone" r = None -> never_ok (issue_applyRemote deps ctx binding r).
Proof.
  intros Hm. apply never_ok_then. intros bctx. apply never_ok_then. intros existing.
  apply never_ok_first. apply never_ok_then. intros description. apply never_ok_then. intros assignee.
  apply never_ok_then. intros labels. apply never_ok_first.
  unfold prop_of. rewrite Hm. cbn [default from_option id resolveMilestone]. apply never_ok_first.
  apply never_ok_throw.
Qed.

(** A Huly change that sets the milestone to a milestone reference, or the
    labels to a non-empty list of tag references - the shapes these fields
    have in Huly - makes applyLocal throw: it expects objects with a title
    and a name. *)
Theorem huly_references_never_pushed deps ctx binding doc change :
  (exists ref, jget "milestone" change = Some (VStr ref)) \/
  (exists ref refs, jget "labels" change = Some (VArr (VStr ref :: refs))) ->
  never_ok (issue_applyLocal deps ctx binding doc change).
Proof.
  intros Hc. apply never_ok_then. intros bctx. apply never_ok_then. intros mapping.
  destruct Hc as [[ref Hm]|(ref & refs & Hl)].
  - apply never_ok_then. intros labelNames. apply never_ok_first.
    unfold prop_of. rewrite Hm. cbn [default from_option id local_milestone_id].
    rewrite !get_prop_string by done. do 2 apply never_ok_ret. apply never_ok_first.
    unfold on_milestone_remote, on_state. apply never_ok_zoom.
    apply never_ok_then. intros []. apply never_ok_throw.
  - apply never_ok_first. unfold prop_of. rewrite Hl. cbn [default from_option id if_defined].
    apply never_ok_first. unfold ensureRemoteLabels, iterate. cbn [js_iter].
    apply never_ok_ret. cbn [mapM_js]. apply never_ok_first.
    rewrite !get_prop_string by done. do 2 apply never_ok_ret. apply never_ok_first.
    unfold on_label_remote, on_state. apply never_ok_zoom.
    apply never_ok_then. intros []. apply never_ok_throw.
Qed.
End Unhandled.

(** ** Resolution only adds tags, milestones and stub users *)

Section Frame.
Context {Coll : Type -> Type} `{HL : MongoLaws Coll} {P : Platform} `{Sha256} `{Markdown} `{FastEquals}.
Context {HU GL AC : Type} `{HHL : HulyLaws HU} `{IssueGitLabClient GL} `{LabelGitLabClient GL}
  `{MilestoneGitLabClient GL} `{AccountClient AC}.
Abbreviation X := (SyncState HU GL AC).
Implicit Types (deps : IssuesSyncManagerDeps (Coll := Coll) (HU := HU) (GL := GL) (AC := AC))
  (s : Store Coll * X).

Lemma moves_resolveAssignee bctx v :
  moves resolved_from (resolveAssignee (Coll := Coll) (HU := HU) (GL := GL) (AC := AC) bctx v).
Proof. unfold resolveAssignee, identity_of. repeat moves_step. Qed.

Lemma moves_resolveLabels bctx v :
  moves resolved_from (resolveLocalLabels (Coll := Coll) (HU := HU) (GL := GL) (AC := AC) bctx v).
Proof. unfold resolveLocalLabels. repeat moves_step. Qed.

Lemma moves_resolveMilestone bctx v :
  moves resolved_from (resolveMilestone (Coll := Coll) (HU := HU) (GL := GL) (AC := AC) bctx v).
Proof. unfold resolveMilestone. repeat moves_step. Qed.

Lemma moves_resolveRemote deps bctx r :
  is_mirrorDeps deps = None -> moves resolved_from (resolveRemote deps bctx r).
Proof.
  intros Hmd. unfold resolveRemote, remote_description. rewrite Hmd.
  repeat first [apply moves_resolveAssignee | apply moves_resolveLabels
    | apply moves_resolveMilestone | moves_step].
Qed.
End Frame.

(** ** The update of a mirrored issue, as a pure function *)

Section Update.
Context {P : Platform} `{FastEquals}.
Implicit Types (a r : record) (v : RemoteView).

(** The notions of FieldSync.v for an issue document and a record. *)
Definition huly_newer (a r : record) : bool := newer (local_ts a) (new_Date (prop_of r "updatedAt")).

Definition has_all_fields (f : string -> jsval) : Prop := has_fields ISSUE_FIELDS f.

Definition settled a r v st : Prop := agree ISSUE_FIELDS (local_value a) (remote_value r v st).

Lemma issue_update_of_spec a r v st :
  has_all_fields (local_value a) -> has_all_fields (remote_value r v st) ->
  huly_newer a r = true -> issue_update_of a r v st = ([], false).
Proof.
  intros Hl Hr Hn.
  pose proof (lww_update_spec ISSUE_FIELDS _ (new_Date (prop_of r "updatedAt")) _ (local_ts a) Hl Hr) as Hu.
  unfold huly_newer in Hn. by rewrite Hn in Hu.
Qed.

Lemma settled_no_update a r v st :
  has_all_fields (local_value a) -> has_all_fields (remote_value r v st) ->
  settled a r v st -> issue_update_of a r v st = ([], false).
Proof. apply agree_no_update. Qed.
End Update.

(** ** Views and updated documents *)

Definition is_ref (v : jsval) : Prop := match v with VStr _ => True | _ => False end.

Record wf_view (v : RemoteView) : Prop := {
  wv_description : is_ref (rv_description v);
  wv_assignee : rv_assignee v = VNull \/ is_ref (rv_assignee v);
  wv_labels : Forall is_ref (rv_labels v);
  wv_milestone : rv_milestone v = VNull \/ is_ref (rv_milestone v)
}.

Section Views.
Context {P : Platform} `{FastEquals}.
Implicit Types (a r : record) (v : RemoteView).

(** The values of a view compare equal to themselves and are present. *)
Lemma remote_value_ok r v st k :
  wf_view v -> is_ref (prop_of r "title") -> k ∈ ISSUE_FIELDS ->
  scalar_or_list (remote_value r v st k) /\ remote_value r v st k <> VUndef.
Proof.
  intros [Hd Ha Hl Hm] Ht Hk. unfold remote_value.
  unfold ISSUE_FIELDS in Hk. rewrite !elem_of_cons, elem_of_nil in Hk.
  assert (forall x, is_ref x -> scalar_or_list x /\ x <> VUndef) as Hr by by intros [].
  assert (forall x, x = VNull \/ is_ref x -> scalar_or_list x /\ x <> VUndef) as Hn.
  { intros x [->|Hx]; [done|by apply Hr]. }
  destruct Hk as [->|[->|[->|[->|[->|[->|[]]]]]]]; cbn; auto; [by split|].
  split; [|done]. eapply Forall_impl; [exact Hl|]. by intros [].
Qed.

Lemma view_fields r v st :
  wf_view v -> is_ref (prop_of r "title") -> has_all_fields (remote_value r v st).
Proof. intros Hv Ht k Hk. by apply remote_value_ok. Qed.

Lemma view_good r v st :
  wf_view v -> is_ref (prop_of r "title") -> good_values ISSUE_FIELDS (remote_value r v st).
Proof. intros Hv Ht. split; [|done]. intros k Hk. by apply remote_value_ok. Qed.

Lemma issue_fields_stamp_free : stamp_free ISSUE_FIELDS.
Proof. split; apply (bool_decide_eq_true_1 _); reflexivity. Qed.

(** A created document has the record's values. *)
Lemma created_fields bctx r v st :
  wf_view v -> forall k, k ∈ ISSUE_FIELDS -> local_value (issue_attrs bctx r v st) k = remote_value r v st k.
Proof.
  intros [Hd Ha Hl Hm] k Hk. unfold ISSUE_FIELDS in Hk.
  rewrite !elem_of_cons, elem_of_nil in Hk.
  destruct Hk as [->|[->|[->|[->|[->|[->|[]]]]]]]; try reflexivity.
  change (js_coalesce (rv_milestone v) VNull = rv_milestone v).
  destruct Hm as [Hm|Hm]; [by rewrite Hm|]. by destruct (rv_milestone v).
Qed.

(** The attributes [update_issue] writes when there is a difference. *)
Definition issue_ops (r u : record) : record := stamped (new_Date (prop_of r "updatedAt")) u.

Definition applied_attrs (r u a : record) : record := assign (issue_ops r u) a.

(** After an update that the record wins, the fields agree with it and the
    rest of the document is as before. *)
Lemma update_settles a r v st :
  has_all_fields (local_value a) -> wf_view v -> is_ref (prop_of r "title") -> huly_newer a r = false ->
  exists u dirty, issue_update_of a r v st = (u, dirty) /\
    (dirty = false -> settled a r v st) /\
    (dirty = true ->
       settled (applied_attrs r u a) r v st /\
       has_all_fields (local_value (applied_attrs r u a)) /\
       jget "modifiedOn" (applied_attrs r u a) = Some (getTime (new_Date (prop_of r "updatedAt"))) /\
       forall k, k ∉ ISSUE_FIELDS -> k <> "modifiedOn" -> k <> "_originated" ->
         jget k (applied_attrs r u a) = jget k a).
Proof.
  intros Hl Hv Ht Hn.
  exact (lww_settles ISSUE_FIELDS (remote_value r v st) (new_Date (prop_of r "updatedAt")) a Hl
    (view_good r v st Hv Ht) issue_fields_stamp_free Hn).
Qed.
End Views.

(** ** Remote records *)

Section Remote.
Context {Coll : Type -> Type} `{HL : MongoLaws Coll} {P : Platform} `{Sha256} `{Markdown} `{FastEquals}.
Context {HU GL AC : Type} `{HHL : HulyLaws HU} `{IssueGitLabClient GL} `{LabelGitLabClient GL}
  `{MilestoneGitLabClient GL} `{AccountClient AC}.
Abbreviation X := (SyncState HU GL AC).
Implicit Types (deps : IssuesSyncManagerDeps (Coll := Coll) (HU := HU) (GL := GL) (AC := AC))
  (s : Store Coll * X) (v : RemoteView).

Definition loads deps (binding : string) (bctx : BindingContext) : Prop :=
  loads_with (is_loadBinding deps) binding bctx.

Definition issue_docs s : list HulyDoc :=
  List.filter (fun d => bool_decide (hd_class d = HULY_CLASS_ISSUE)) (docs (sy_huly s.2)).

Definition issue_at (ref : string) s : option HulyDoc :=
  js_find (fun d => bool_decide (hd_class d = HULY_CLASS_ISSUE) && matches [("_id", VStr ref)] d)
    (docs (sy_huly s.2)).

Definition mapped (bctx : BindingContext) (r : record) s : option IdMapDoc :=
  findOne (by_gitlab (bx_workspaceUuid bctx) KIssue (scoped_key bctx (prop_of r "iid"))) (idmap s.1).

(** A successful [applyRemote]: the load, the resolution, then one of the
    three ends. *)
Lemma applyRemote_run deps ctx binding bctx r s s' :
  loads deps binding bctx -> issue_applyRemote deps ctx binding r s = (Ok tt, s') ->
  exists x v s1, docs (sy_huly x) = docs (sy_huly s.2) /\
    (sy_labels x = new_label_cache /\ sy_milestones x = new_milestone_cache /\
     (sy_users x = sy_users s.2 \/ sy_users x = [])) /\
    resolveRemote deps bctx r (s.1, x) = (Ok v, s1) /\
    match rv_status v with
    | None => s' = s1
    | Some st =>
        match mapped bctx r s with
        | None =>
            create_issue bctx binding (scoped_key bctx (prop_of r "iid")) r v st s1 = (Ok tt, s')
        | Some m =>
            (let! found := on_huly (findOneDoc HULY_CLASS_ISSUE [("_id", VStr (im_hulyRef m))]) in
             match found with
             | None => ret tt
             | Some d => update_issue bctx binding (im_hulyRef m) (hd_attrs d) r v st
             end) s1 = (Ok tt, s')
        end
    end.
Proof.
  intros Hl Hr. destruct (Hl s) as (x & El & Hd & Hlab & Hms & Hus & _).
  unfold issue_applyRemote in Hr. rewrite (bind_ok _ _ _ _ _ El) in Hr.
  unfold bind at 1, on_db, zoom, findByGitlab, gets in Hr. cbn [fst snd] in Hr.
  apply bind_inv_ok in Hr as (v & s1 & Hv & Hr).
  exists x, v, s1. do 3 (split; [done|]). destruct (rv_status v) as [st|].
  - unfold mapped. by destruct (findOne _ (idmap s.1)).
  - by injection Hr as <-.
Qed.

Lemma issue_class_ne : HULY_CLASS_ISSUE <> CLASS_TAG_ELEMENT /\ HULY_CLASS_ISSUE <> CLASS_MILESTONE.
Proof. done. Qed.

Lemma resolved_issues s s1 : resolved_from s s1 -> issue_docs s1 = issue_docs s.
Proof. intros [Hd _ _ _ _ _ _ _ _]. unfold issue_docs. by apply grown_filter. Qed.

Lemma resolved_issue_at ref s s1 : resolved_from s s1 -> issue_at ref s1 = issue_at ref s.
Proof. intros [Hd _ _ _ _ _ _ _ _]. unfold issue_at. by apply grown_find. Qed.

(** The resolution that a run starts with, seen from the initial state. *)
Lemma resolved_start deps bctx r s x v s1 :
  is_mirrorDeps deps = None -> docs (sy_huly x) = docs (sy_huly s.2) ->
  resolveRemote deps bctx r (s.1, x) = (Ok v, s1) ->
  issue_docs s1 = issue_docs s /\ (forall ref, issue_at ref s1 = issue_at ref s) /\
  resolved_from (s.1, x) s1.
Proof.
  intros Hm Hd Hv. pose proof (moves_resolveRemote deps bctx r Hm _ _ _ Hv) as Hrf.
  split; [|split; [|done]].
  - rewrite (resolved_issues _ _ Hrf). unfold issue_docs. cbn [snd]. by rewrite Hd.
  - intros ref. rewrite (resolved_issue_at ref _ _ Hrf). unfold issue_at. cbn [snd]. by rewrite Hd.
Qed.

(** A cursor write through the world. *)
Lemma setCursor_run b k t (s s' : Store Coll * X) :
  on_db (setCursor b k t) s = (Ok tt, s') ->
  s'.2 = s.2 /\ idmap s'.1 = idmap s.1 /\ (store_ok s.1 -> store_ok s'.1) /\
  findOne (by_cursor b k) (cursors s'.1) = Some (MkCursorDoc b k t).
Proof.
  intros Hr. assert (store_ok s.1 -> store_ok s'.1) as Hok.
  { intros Hs. unfold on_db, zoom in Hr. destruct (setCursor b k t s.1) as [r st] eqn:E.
    injection Hr as _ <-. pose proof (setCursor_ok b k t s.1 Hs) as Ho. by rewrite E in Ho. }
  revert Hr. unfold on_db, zoom, setCursor, dup_key_or. destruct (upsertOne _ _ _ _) as [cur|] eqn:Ecu;
    cbn [modify throw]; [|done].
  intros [= <-]. split_and!; [done|done|done|]. cbn [fst cursors set_cursors].
  eapply upsertOne_find_new; [done| |by apply by_cursor_spec].
  intros y Hy. by rewrite cursor_conflicts.
Qed.

(** An id-map write through the world. *)
Lemma upsertIdMap_run w k g c ref (s s' : Store Coll * X) :
  on_db (upsertIdMap w k g c ref) s = (Ok tt, s') ->
  let m := MkIdMapDoc w k g c ref in
  s'.2 = s.2 /\
  findOne (by_gitlab w k g) (idmap s'.1) = Some m /\
  findOne (by_huly w c ref) (idmap s'.1) = Some m /\
  (forall w' k' g', k' <> k ->
     findOne (by_gitlab w' k' g') (idmap s'.1) = findOne (by_gitlab w' k' g') (idmap s.1)) /\
  cursors s'.1 = cursors s.1 /\ (store_ok s.1 -> store_ok s'.1).
Proof.
  cbn zeta. intros Hu.
  assert (store_ok s.1 -> store_ok s'.1) as Hok.
  { intros Hs. unfold on_db, zoom in Hu. destruct (upsertIdMap w k g c ref s.1) as [res st'] eqn:E.
    injection Hu as _ <-. pose proof (upsertIdMap_ok w k g c ref s.1 Hs) as Ho. by rewrite E in Ho. }
  unfold on_db, zoom, upsertIdMap, dup_key_or in Hu. cbn [fst snd] in Hu.
  destruct (upsertOne _ _ _ _) as [col|] eqn:Eu; cbn [modify throw] in Hu; [|done].
  injection Hu as <-. cbn [fst snd idmap set_idmap cursors] in *. split_and!; try done.
  - eapply upsertOne_find_new; [exact Eu| |by apply by_gitlab_spec].
    intros y Hy. rewrite conflicts_by. cbn [im_workspaceUuid im_gitlabKind im_gitlabId]. by rewrite Hy.
  - eapply upsertOne_find_new; [exact Eu| |by apply by_huly_spec].
    intros y Hy. rewrite conflicts_by. cbn [im_workspaceUuid im_hulyClass im_hulyRef].
    by rewrite Hy, orb_true_r.
  - intros w' k' g' Hk. eapply upsertOne_find; [exact Eu|..].
    + intros d (_ & Ed & _)%by_gitlab_spec. apply not_true_iff_false. rewrite by_gitlab_spec.
      intros (_ & E & _). congruence.
    + apply not_true_iff_false. rewrite by_gitlab_spec. intros (_ & E & _). by cbn in E.
Qed.

Definition created_doc (bctx : BindingContext) (r : record) (v : RemoteView) (st ref : string) : HulyDoc :=
  MkHulyDoc ref HULY_CLASS_ISSUE (bx_hulyProjectRef bctx) (issue_attrs bctx r v st) [].

(** The three writes of a creation. *)
Lemma create_issue_run bctx binding gid r v st (s s' : Store Coll * X) :
  create_issue bctx binding gid r v st s = (Ok tt, s') ->
  exists ref, let m := MkIdMapDoc (bx_workspaceUuid bctx) KIssue gid HULY_CLASS_ISSUE ref in
    docs (sy_huly s'.2) = docs (sy_huly s.2) ++ [created_doc bctx r v st ref] /\
    ref ∉ map hd_id (docs (sy_huly s.2)) /\
    findOne (by_gitlab (bx_workspaceUuid bctx) KIssue gid) (idmap s'.1) = Some m /\
    findOne (by_huly (bx_workspaceUuid bctx) HULY_CLASS_ISSUE ref) (idmap s'.1) = Some m /\
    findOne (by_cursor binding CIssues) (cursors s'.1) =
      Some (MkCursorDoc binding CIssues (new_Date (prop_of r "updatedAt"))) /\
    (forall w g, findOne (by_gitlab w KUser g) (idmap s'.1) = findOne (by_gitlab w KUser g) (idmap s.1)) /\
    sy_users s'.2 = sy_users s.2 /\ sy_statuses s'.2 = sy_statuses s.2 /\
    (store_ok s.1 -> store_ok s'.1).
Proof.
  unfold create_issue. intros (ref & s2 & Hc & Hend)%bind_inv_ok.
  unfold on_huly, on_state, zoom in Hc. destruct (createDoc _ _ _ _) as [[ref'|e] h] eqn:Ec; [|done].
  injection Hc as -> <-. apply createDoc_ok in Ec as [Hdocs Hfresh].
  apply bind_inv_ok in Hend as ([] & s3 & Hu & Hend).
  apply setCursor_run in Hend as (E2 & Ei & Hok & Hcur). rewrite E2, Ei.
  apply upsertIdMap_run in Hu as (E3 & Hg & Hh & Ho & _ & Hok3). rewrite E3.
  exists ref. cbn zeta. split_and!; auto.
Qed.

(** Every successful resolution is a well-formed view. *)
Lemma resolveRemote_wf deps bctx r s v s' :
  is_mirrorDeps deps = None -> resolveRemote deps bctx r s = (Ok v, s') -> wf_view v.
Proof.
  intros Hm. unfold resolveRemote, remote_description. rewrite Hm.
  intros (de & s1 & (b & s2 & _ & (m & s3 & _ & [= <- _])%bind_inv_ok)%bind_inv_ok & Hv)%bind_inv_ok.
  apply bind_inv_ok in Hv as (a & s4 & Ha & Hv). apply bind_inv_ok in Hv as (ls & s5 & Hls & Hv).
  apply bind_inv_ok in Hv as (mi & s6 & Hmi & Hv). apply bind_inv_ok in Hv as (st & s7 & _ & [= <- _]).
  split; cbn [rv_description rv_assignee rv_labels rv_milestone]; [done|..].
  - unfold resolveAssignee in Ha. apply bind_inv_ok in Ha as (len & t1 & _ & Ha).
    case_bool_decide; [injection Ha as <- _; by left|right].
    apply bind_inv_ok in Ha as (u & t2 & _ & Ha). apply bind_inv_ok in Ha as ([p|] & t3 & _ & Ha).
    + by injection Ha as <- _.
    + apply bind_inv_ok in Ha as (g & t4 & _ & [= <- _]). done.
  - apply bind_inv_ok in Hls as (l & t1 & _ & Hls). eapply mapM_js_values; [|exact Hls].
    intros x t w t' (ref & t2 & _ & [= <- _])%bind_inv_ok. done.
  - unfold resolveMilestone in Hmi.
    destruct (prop_of r "milestone"); [|by injection Hmi as <- _; left|..]; right;
      (apply bind_inv_ok in Hmi as (? & ? & _ & Hmi); apply bind_inv_ok in Hmi as (? & ? & _ & Hmi);
       apply bind_inv_ok in Hmi as (? & ? & _ & [= <- _]); done).
Qed.

(** C12: a record of an issue that is not mapped yet creates exactly one issue
    document, in the bound project, whose six mirrored fields are the
    record's resolved values, whose modification time is the record's update
    time and which carries the origin marker; afterwards the id map leads
    from the GitLab issue to the document and back and the issues cursor is
    the record's update time.  When the project has no status for the
    record's state nothing is created. *)
Theorem issue_created deps ctx binding bctx r s s' :
  loads deps binding bctx -> is_mirrorDeps deps = None -> store_ok s.1 ->
  mapped bctx r s = None ->
  issue_applyRemote deps ctx binding r s = (Ok tt, s') ->
  exists x v s1, resolveRemote deps bctx r (s.1, x) = (Ok v, s1) /\
    match rv_status v with
    | None => issue_docs s' = issue_docs s
    | Some st =>
        exists d,
          let ref := hd_id d in
          let m := MkIdMapDoc (bx_workspaceUuid bctx) KIssue (scoped_key bctx (prop_of r "iid"))
                     HULY_CLASS_ISSUE ref in
          ref ∉ map hd_id (docs (sy_huly s.2)) /\
          issue_docs s' = issue_docs s ++ [d] /\ hd_space d = bx_hulyProjectRef bctx /\
          (forall k, k ∈ ISSUE_FIELDS -> local_value (hd_attrs d) k = remote_value r v st k) /\
          jget "modifiedOn" (hd_attrs d) = Some (getTime (new_Date (prop_of r "updatedAt"))) /\
          jget "_originated" (hd_attrs d) = Some (VStr "gitlab") /\
          mapped bctx r s' = Some m /\
          findOne (by_huly (bx_workspaceUuid bctx) HULY_CLASS_ISSUE ref) (idmap s'.1) = Some m /\
          findOne (by_cursor binding CIssues) (cursors s'.1) =
            Some (MkCursorDoc binding CIssues (new_Date (prop_of r "updatedAt")))
    end.
Proof.
  intros Hl Hm Hok Hmap Hr.
  destruct (applyRemote_run _ _ _ _ _ _ _ Hl Hr) as (x & v & s1 & Hd & _ & Hv & Hend).
  destruct (resolved_start _ _ _ _ _ _ _ Hm Hd Hv) as (Hi & _ & Hrf).
  exists x, v, s1. split; [done|]. destruct (rv_status v) as [st|]; [|by subst].
  rewrite Hmap in Hend. apply create_issue_run in Hend as (ref & Hdocs & Hfresh & H1' & H2' & H3' & _).
  pose proof (resolveRemote_wf _ _ _ _ _ _ Hm Hv) as Hwf.
  exists (created_doc bctx r v st ref). cbn zeta. cbn [created_doc hd_id hd_space hd_attrs]. split_and!; try done.
  - intros Hin. apply Hfresh. destruct Hrf as [(e & He & _) _ _ _ _ _ _ _ _]. cbn [snd] in He.
    rewrite He, Hd, map_app, elem_of_app. by left.
  - unfold issue_docs at 1. by rewrite Hdocs, List.filter_app, <- Hi.
  - by apply created_fields.
Qed.

Lemma issue_at_id ref s d : issue_at ref s = Some d -> hd_id d = ref /\ hd_class d = HULY_CLASS_ISSUE.
Proof.
  unfold issue_at. intros [_ Hd]%js_find_Some. apply andb_true_iff in Hd as [Hc Hi].
  apply bool_decide_eq_true_1 in Hc. cbn [matches matches_value forallb fst snd] in Hi. rewrite andb_true_r in Hi.
  apply bool_decide_eq_true_1 in Hi. unfold doc_field in Hi. rewrite decide_True in Hi by done.
  by injection Hi.
Qed.

(** A rewrite of one document, as the lookups by id see it. *)
Lemma issue_at_on_doc ref0 ref f s s' :
  (forall d, hd_id (f d) = hd_id d) -> (forall d, hd_class (f d) = hd_class d) ->
  docs (sy_huly s'.2) = on_doc ref f (docs (sy_huly s.2)) ->
  issue_at ref0 s' = option_map (fun d => if decide (ref0 = ref) then f d else d) (issue_at ref0 s).
Proof.
  intros Hi Hc Eu. unfold issue_at. rewrite Eu, js_find_on_doc.
  - destruct (js_find _ (docs (sy_huly s.2))) as [d|] eqn:Ef; [|done]. cbn [option_map].
    apply (issue_at_id ref0 s) in Ef as [-> _]. done.
  - intros d. cbn [matches matches_value forallb fst snd]. unfold doc_field.
    rewrite !decide_True by done. by rewrite Hc, Hi.
Qed.

Lemma issue_at_rewrite ref0 ref ops s s' :
  docs (sy_huly s'.2) = on_doc ref (set_attrs ops) (docs (sy_huly s.2)) ->
  issue_at ref0 s' = option_map (fun d => if decide (ref0 = ref) then set_attrs ops d else d) (issue_at ref0 s).
Proof. by apply issue_at_on_doc. Qed.

(** [update_issue], without and with a difference. *)
Lemma update_issue_run bctx binding ref a r v st u dirty (s s' : Store Coll * X) :
  issue_update_of a r v st = (u, dirty) ->
  update_issue bctx binding ref a r v st s = (Ok tt, s') ->
  docs (sy_huly s'.2) = (if dirty then on_doc ref (set_attrs (issue_ops r u)) (docs (sy_huly s.2))
                         else docs (sy_huly s.2)) /\
  (idmap s'.1 = idmap s.1 /\ sy_users s'.2 = sy_users s.2 /\ sy_statuses s'.2 = sy_statuses s.2 /\
   (store_ok s.1 -> store_ok s'.1)) /\
  match local_ts a with
  | Some l => if date_gt (new_Date (prop_of r "updatedAt")) l then
                findOne (by_cursor binding CIssues) (cursors s'.1) =
                  Some (MkCursorDoc binding CIssues (new_Date (prop_of r "updatedAt")))
              else cursors s'.1 = cursors s.1
  | None => findOne (by_cursor binding CIssues) (cursors s'.1) =
              Some (MkCursorDoc binding CIssues (new_Date (prop_of r "updatedAt")))
  end.
Proof.
  intros Hu. unfold update_issue. rewrite Hu. intros ([] & s1 & Hw & Hc)%bind_inv_ok.
  assert (docs (sy_huly s1.2) = (if dirty then on_doc ref (set_attrs (issue_ops r u)) (docs (sy_huly s.2))
                                 else docs (sy_huly s.2)) /\
    s1.1 = s.1 /\ sy_users s1.2 = sy_users s.2 /\ sy_statuses s1.2 = sy_statuses s.2)
    as (Hd & Hs & Eus & Est).
  { destruct dirty; cbn [when] in Hw; [|by injection Hw as <-].
    unfold on_huly, on_state, zoom in Hw.
    destruct (updateDoc _ _ _ _ _) as [[[]|e] h] eqn:Eu; [|done]. injection Hw as <-.
    by apply updateDoc_ok in Eu. }
  assert (forall b : bool, when b (on_db (setCursor binding CIssues (new_Date (prop_of r "updatedAt")))) s1
            = (Ok tt, s') ->
    s'.2 = s1.2 /\ idmap s'.1 = idmap s1.1 /\ (store_ok s1.1 -> store_ok s'.1) /\
    if b then findOne (by_cursor binding CIssues) (cursors s'.1) =
                Some (MkCursorDoc binding CIssues (new_Date (prop_of r "updatedAt")))
    else cursors s'.1 = cursors s1.1) as Hcur.
  { intros [] Hb; cbn [when] in Hb; [|by injection Hb as <-]. by apply setCursor_run. }
  apply Hcur in Hc as (E2 & Him & Hok & Hc). rewrite E2, Him, <- Hs. split_and!; try done.
  rewrite Hs in Hc |- *. destruct (local_ts a) as [l|]; [|done]. by destruct (date_gt _ l).
Qed.

(** An issue that is strictly newer in Huly leaves no cursor behind. *)
Lemma huly_newer_cursor a r :
  huly_newer a r = true ->
  exists l, local_ts a = Some l /\ date_gt (new_Date (prop_of r "updatedAt")) l = false.
Proof.
  unfold huly_newer, newer. destruct (local_ts a) as [l|]; [|done]. intros Hg. exists l. split; [done|].
  by apply date_gt_asym.
Qed.

(** C11: a record of a mapped issue touches no other issue document.  When the
    Huly document was modified strictly later than the record it stays as it
    is, and so do the cursors; otherwise all six mirrored fields agree with
    the record afterwards (whatever field disagreed before), the
    modification time is the record's if anything changed, and every other
    attribute is as before. *)
Theorem issue_updated deps ctx binding bctx r s s' m d :
  loads deps binding bctx -> is_mirrorDeps deps = None ->
  mapped bctx r s = Some m -> issue_at (im_hulyRef m) s = Some d ->
  is_ref (prop_of r "title") -> has_all_fields (local_value (hd_attrs d)) ->
  issue_applyRemote deps ctx binding r s = (Ok tt, s') ->
  exists x v s1 d', resolveRemote deps bctx r (s.1, x) = (Ok v, s1) /\
    (forall ref, ref <> im_hulyRef m -> issue_at ref s' = issue_at ref s) /\
    issue_at (im_hulyRef m) s' = Some d' /\
    match rv_status v with
    | None => d' = d
    | Some st =>
        if huly_newer (hd_attrs d) r then d' = d /\ cursors s'.1 = cursors s.1
        else
          settled (hd_attrs d') r v st /\
          (d' = d \/ jget "modifiedOn" (hd_attrs d') = Some (getTime (new_Date (prop_of r "updatedAt")))) /\
          forall k, k ∉ ISSUE_FIELDS -> k <> "modifiedOn" -> k <> "_originated" ->
            jget k (hd_attrs d') = jget k (hd_attrs d)
    end.
Proof.
  intros Hl Hm Hmap Hd Ht Hf Hr.
  destruct (applyRemote_run _ _ _ _ _ _ _ Hl Hr) as (x & v & s1 & Hdx & _ & Hv & Hend).
  destruct (resolved_start _ _ _ _ _ _ _ Hm Hdx Hv) as (_ & Hat & Hrf).
  pose proof (resolveRemote_wf _ _ _ _ _ _ Hm Hv) as Hwf.
  exists x, v, s1. destruct (rv_status v) as [st|]; [|subst s'; exists d; by rewrite !Hat].
  rewrite Hmap in Hend. apply bind_inv_ok in Hend as (o & s2 & Ho & Hend).
  unfold on_huly, on_state, zoom in Ho. destruct (findOneDoc _ _ _) as [ro h] eqn:Eo.
  injection Ho as -> <-. apply findOne_ok in Eo as [Eh Eo].
  change (o = issue_at (im_hulyRef m) s1) in Eo. rewrite Hat, Hd in Eo. subst o.
  set (s2 := (s1.1, set_huly h s1.2)) in *.
  assert (forall ref, issue_at ref s2 = issue_at ref s) as Hat2.
  { intros ref. rewrite <- Hat. unfold issue_at, s2. cbn [snd set_huly sy_huly]. by rewrite Eh. }
  destruct (huly_newer (hd_attrs d) r) eqn:En.
  - pose proof (issue_update_of_spec (hd_attrs d) r v st Hf (view_fields _ _ _ Hwf Ht) En) as Hu.
    destruct (update_issue_run _ _ _ _ _ _ _ _ _ _ _ Hu Hend) as (Hi & _ & Hc).
    assert (forall ref, issue_at ref s' = issue_at ref s) as Hi'.
    { intros ref. rewrite <- Hat2. unfold issue_at. by rewrite Hi. }
    exists d. split; [done|]. split; [done|]. split; [by rewrite Hi'|]. split; [done|].
    destruct (huly_newer_cursor _ _ En) as (l & El & Eg). rewrite El, Eg in Hc.
    rewrite Hc. apply Hrf.
  - destruct (update_settles _ _ _ st Hf Hwf Ht En) as (u & dirty & Hu & Hclean & Hdirty).
    destruct (update_issue_run _ _ _ _ _ _ _ _ _ _ _ Hu Hend) as (Hi & _ & _).
    destruct dirty.
    + assert (forall ref, issue_at ref s' = option_map (fun d => if decide (ref = im_hulyRef m)
        then set_attrs (issue_ops r u) d else d) (issue_at ref s)) as Hi'.
      { intros ref. rewrite <- Hat2. by apply issue_at_rewrite. }
      eexists. split; [done|]. split; [|split].
      * intros ref Hne. rewrite Hi'. destruct (issue_at ref s); [|done]. cbn [option_map].
        by rewrite decide_False.
      * rewrite Hi', Hd. cbn [option_map]. rewrite decide_True by done. reflexivity.
      * destruct (Hdirty eq_refl) as (Hs & _ & Hmod & Ho). split; [exact Hs|]. split; [by right|exact Ho].
    + assert (forall ref, issue_at ref s' = issue_at ref s) as Hi'.
      { intros ref. rewrite <- Hat2. unfold issue_at. by rewrite Hi. }
      exists d. split; [done|]. split; [done|]. split; [by rewrite Hi'|].
      split; [by apply Hclean|]. split; [by left|done].
Qed.
End Remote.
