(* ===== verification/IssuesLocal.v ===== *)
(** * Pushing Huly changes of issues to GitLab

    What [issue_applyLocal] sends: for a change that sets no labels and no
    milestone, at most one GitLab call, whose body holds exactly the fields
    the change sets. *)

From S2P Require Import Prelude JsMap JsString JsVal Metrics Platform Conflict Mongo Store Ids.
From S2P Require Import StatusMap Huly Caches Queue Breaker Engine Sync TxSubscriber FieldSync Issues.
From S2P Require Import SyncToy IssuesProofs.
Open Scope nat_scope.
Open Scope string_scope.
Open Scope list_scope.

(** The body pushes the fields that the change sets, and nothing else. *)
Record pushes (change body : record) : Prop := {
  ps_title : jget "title" body = defined (prop_of change "title");
  ps_assignees : jget "assignee_ids" body = defined (prop_of change "assigneeIds");
  ps_description : jget "description" body = None <-> prop_of change "description" = VUndef;
  ps_state : jget "state_event" body = None <-> prop_of change "status" = VUndef;
  ps_only : forall k, k ∉ ["title"; "assignee_ids"; "description"; "state_event"] -> jget k body = None
}.

Lemma jget_with_prop k k' v body :
  jget k' (with_prop k v body) =
  match v with Some x => if decide (k = k') then Some x else jget k' body | None => jget k' body end.
Proof. unfold with_prop. destruct v; [apply jget_set|done]. Qed.

Lemma issue_body_pushes change d st :
  (d = None <-> prop_of change "description" = VUndef) ->
  (st = None <-> prop_of change "status" = VUndef) ->
  pushes change (issue_body (defined (prop_of change "title")) d None None
                   (defined (prop_of change "assigneeIds")) st).
Proof.
  intros Hd Hs.
  split; unfold issue_body; cbn [option_map]; intros; rewrite ?jget_with_prop.
  - destruct st, (defined (prop_of change "assigneeIds")), d, (defined (prop_of change "title")); reflexivity.
  - destruct st, (defined (prop_of change "assigneeIds")), d, (defined (prop_of change "title")); reflexivity.
  - rewrite <- Hd. destruct st, (defined (prop_of change "assigneeIds")), d, (defined (prop_of change "title")); done.
  - rewrite <- Hs. destruct st, (defined (prop_of change "assigneeIds")), d, (defined (prop_of change "title")); done.
  - rewrite !not_elem_of_cons in *. destruct H as (H1 & H2 & H3 & H4 & _).
    destruct st, (defined (prop_of change "assigneeIds")), d, (defined (prop_of change "title"));
      cbn [jget]; rewrite ?decide_False by congruence; done.
Qed.

Section Local.
Context {Coll : Type -> Type} `{HL : MongoLaws Coll} {P : Platform} `{Sha256} `{Markdown} `{FastEquals}.
Context {HU GL AC : Type} `{HHL : HulyLaws HU} `{IssueGitLabClient GL} `{LabelGitLabClient GL}
  `{MilestoneGitLabClient GL} `{AccountClient AC}.
Abbreviation X := (SyncState HU GL AC).
Implicit Types (deps : IssuesSyncManagerDeps (Coll := Coll) (HU := HU) (GL := GL) (AC := AC))
  (s : Store Coll * X).

(** Steps that keep the store and GitLab. *)
Definition same_outside s s' : Prop := s'.1 = s.1 /\ sy_gitlab s'.2 = sy_gitlab s.2.

#[local] Instance same_outside_preorder : PreOrder same_outside.
Proof. split; [done|]. intros x y z [] []. split; congruence. Qed.

Lemma moves_statuses_outside {B} (m : M status_cache B) :
  moves same_outside (on_statuses (Coll := Coll) (HU := HU) (GL := GL) (AC := AC) m).
Proof.
  intros s b s'. unfold on_statuses, on_state, zoom. destruct (m _) as [r t]. by intros [= -> <-].
Qed.

Lemma if_defined_run {B} v (f : jsval -> M (Store Coll * X) B) o s s' :
  (forall w, moves same_outside (f w)) -> if_defined v f s = (Ok o, s') ->
  same_outside s s' /\ (o = None <-> v = VUndef).
Proof.
  intros Hf. unfold if_defined.
  destruct v; [by intros [= <- <-]|..]; intros (y & s1 & Hy & [= <- <-])%bind_inv_ok;
    (split; [by eapply Hf|done]).
Qed.

(** One GitLab call, one cursor write, one id-map write. *)
Lemma gitlab_run {B} (m : M GL B) (r : B) s s' :
  on_gitlab m s = (Ok r, s') -> m (sy_gitlab s.2) = (Ok r, sy_gitlab s'.2) /\ s'.1 = s.1.
Proof. unfold on_gitlab, on_state, zoom. destruct (m _) as [o g]. by intros [= -> <-]. Qed.

Lemma touch_cursor binding k s s' :
  (let! now := date_now in on_db (setCursor binding k (Some now))) s = (Ok tt, s') ->
  idmap s'.1 = idmap s.1 /\ sy_gitlab s'.2 = sy_gitlab s.2 /\ sy_huly s'.2 = sy_huly s.2.
Proof.
  unfold bind, date_now. intros (E2 & Ei & _ & _)%setCursor_run. by rewrite Ei, E2.
Qed.

Lemma map_created w k g ref s s' :
  on_db (upsertIdMap w k g HULY_CLASS_ISSUE ref) s = (Ok tt, s') ->
  findOne (by_huly w HULY_CLASS_ISSUE ref) (idmap s'.1) = Some (MkIdMapDoc w k g HULY_CLASS_ISSUE ref) /\
  sy_gitlab s'.2 = sy_gitlab s.2.
Proof.
  intros (E & _ & Hh & _)%upsertIdMap_run. by rewrite E.
Qed.

(** The mapping of the changed document. *)
Definition huly_mapping (bctx : BindingContext) (doc : string) s : option IdMapDoc :=
  findOne (by_huly (bx_workspaceUuid bctx) HULY_CLASS_ISSUE (stripDocPrefix doc)) (idmap s.1).

(** A change of a Huly issue that sets neither labels nor milestone makes at
    most one GitLab call.  Of an issue that is not mapped it creates a GitLab
    issue when it sets a title, and then maps the document to it; of a mapped
    one it updates the issue whose iid ends the id-map key, whatever kind of
    object the row maps, unless it sets none of the pushed fields.  The body
    holds exactly the fields the change sets.  Otherwise GitLab and the store
    are left alone. *)
Theorem issue_local_pushed deps ctx binding bctx doc change s s' :
  loads deps binding bctx -> is_mirrorDeps deps = None ->
  prop_of change "labels" = VUndef ->
  prop_of change "milestone" = VUndef \/ prop_of change "milestone" = VNull ->
  issue_applyLocal deps ctx binding doc change s = (Ok tt, s') ->
  exists body, pushes change body /\
    match huly_mapping bctx doc s with
    | None =>
        if bool_decide (prop_of change "title" = VUndef) then same_outside s s'
        else exists created, createIssue (bx_gitlabProjectId bctx) body (sy_gitlab s.2) = (Ok created, sy_gitlab s'.2) /\
               huly_mapping bctx doc s' =
                 Some (MkIdMapDoc (bx_workspaceUuid bctx) KIssue (scoped_key bctx (prop_of created "iid"))
                         HULY_CLASS_ISSUE (stripDocPrefix doc))
    | Some m =>
        match parseIid (im_gitlabId m) with
        | None => same_outside s s'
        | Some iid =>
            if bool_decide (body = []) then same_outside s s'
            else exists r, updateIssue (bx_gitlabProjectId bctx) iid body (sy_gitlab s.2) = (Ok r, sy_gitlab s'.2) /\
                   idmap s'.1 = idmap s.1
        end
    end.
Proof.
  intros Hl Hm Hlab Hmil Hr. destruct (Hl s) as (x & El & _ & _ & _ & _ & _ & Hg).
  unfold issue_applyLocal in Hr. rewrite (bind_ok _ _ _ _ _ El) in Hr.
  unfold bind at 1, on_db, zoom, findByHuly, gets in Hr. cbn [fst snd] in Hr.
  rewrite Hlab in Hr. cbn [if_defined] in Hr. unfold bind at 1, ret at 1 in Hr.
  assert (local_milestone_id (Coll := Coll) (HU := HU) (GL := GL) (AC := AC) bctx (prop_of change "milestone")
    = ret None) as Emi by by destruct Hmil as [-> | ->].
  rewrite Emi in Hr. unfold bind at 1, ret at 1 in Hr.
  apply bind_inv_ok in Hr as (st & s1 & Hst & Hr). apply bind_inv_ok in Hr as (de & s2 & Hde & Hr).
  apply if_defined_run in Hst as [M1 Hst].
  2: { intros w. unfold state_event. apply moves_bind; [apply _|apply moves_statuses_outside|].
       intros. apply moves_ret, _. }
  apply if_defined_run in Hde as [M2 Hde].
  2: { intros w. unfold local_description. rewrite Hm. apply moves_bind; [apply _|apply moves_lift_res, _|].
       intros. apply moves_ret, _. }
  assert (same_outside s s2) as M.
  { transitivity (s.1, x); [by split|]. by transitivity s1. }
  set (body := issue_body _ _ _ _ _ _) in Hr. exists body. split; [by apply issue_body_pushes|].
  unfold huly_mapping at 1. destruct (findOne _ (idmap s.1)) as [m|].
  - destruct (parseIid (im_gitlabId m)) as [iid|]; [|by injection Hr as <-].
    destruct body as [|e body'] eqn:Eb; [by injection Hr as <-|]. rewrite <- Eb in *.
    rewrite bool_decide_eq_false_2 by by rewrite Eb.
    apply bind_inv_ok in Hr as (u & s3 & Hu & Hr). apply gitlab_run in Hu as (Hu & E1).
    apply touch_cursor in Hr as (Ei & Eg & _). destruct M as [M1' M2'].
    exists u. rewrite Eg, <- M2'. split; [exact Hu|]. by rewrite Ei, E1, M1'.
  - destruct (prop_of change "title") eqn:Et; cbn [defined] in Hr;
      [rewrite bool_decide_eq_true_2 by done; by injection Hr as <-|..];
      (rewrite bool_decide_eq_false_2 by done;
       apply bind_inv_ok in Hr as (cr & s3 & Hc & Hr); apply gitlab_run in Hc as (Hc & E1);
       apply bind_inv_ok in Hr as ([] & s4 & Hup & Hr);
       apply touch_cursor in Hr as (Ei & Eg & _); destruct M as [M1' M2'];
       apply map_created in Hup as [Hmap Eg4];
       exists cr; rewrite Eg, Eg4, <- M2'; split; [exact Hc|]; unfold huly_mapping; by rewrite Ei).
Qed.
End Local.
