(* ===== verification/MergeRequestsProofs.v ===== *)
(** * Correctness of the merge-request manager

    Theorems about the definitions of MergeRequests.v: the mixin builders
    and the reader, what a remote record creates and updates, what a local
    change pushes, and the approval actions. *)

From S2P Require Import Prelude JsMap JsString JsVal Metrics Platform Conflict Mongo Store Ids.
From S2P Require Import StatusMap Huly Caches Queue Breaker Engine Sync TxSubscriber FieldSync Issues.
From S2P Require Import MergeRequests IssuesProofs IssuesLocal.
Open Scope nat_scope.
Open Scope string_scope.
Open Scope list_scope.

(** ** The mixin builders *)

Lemma jwf_with_prop k v body : jwf body -> jwf (with_prop k v body).
Proof. destruct v; [by apply jwf_set|done]. Qed.

Lemma jwf_jset_all (es m : record) : jwf m -> jwf (jset_all es m).
Proof. revert m. induction es as [|e es IH]; intros m Hm; [done|]. by apply (IH (jset e.1 e.2 m)), jwf_set. Qed.

(** [t] is [u] written over [base]. *)
Definition over (base t u : record) : Prop :=
  forall k, jget k t = match jget k u with Some v => Some v | None => jget k base end.

Lemma over_nil base : over base base [].
Proof. done. Qed.

Lemma over_with_prop base t u k v : over base t u -> over base (with_prop k v t) (with_prop k v u).
Proof.
  intros Ho k'. rewrite !jget_with_prop. destruct v as [x|]; [|apply Ho].
  destruct (decide (k = k')); [done|apply Ho].
Qed.

(** No property is an explicit [undefined]. *)
Definition no_undef (m : record) : Prop := forall k, jget k m <> Some VUndef.

Lemma no_undef_with_prop k v m : v <> Some VUndef -> no_undef m -> no_undef (with_prop k v m).
Proof.
  intros Hv Hm k'. rewrite jget_with_prop. destruct v as [x|]; [|apply Hm].
  destruct (decide (k = k')); [done|apply Hm].
Qed.

Lemma defined_not_undef v : defined v <> Some VUndef.
Proof. by destruct v. Qed.

Lemma fetched_not_undef r k uuids : fetched r k uuids <> Some VUndef.
Proof. unfold fetched. destruct (is_defined _); [apply defined_not_undef|done]. Qed.

Lemma approval_status_not_undef r as_ st : approval_status r as_ = Ok st -> st <> Some VUndef.
Proof.
  unfold approval_status, res_bind. intros E. repeat destruct_match_in E; simplify_eq; done.
Qed.

(** The two copies of the review fields write the same values. *)
Lemma phase3_over target syncMR rs as_ :
  match applyPhase3MixinFields target syncMR rs as_, buildReviewFromSyncMR syncMR rs as_ with
  | Ok t, Ok review => jwf review /\ no_undef review /\ (jwf target -> jwf t) /\ over target t review
  | Throw e, Throw e' => e = e'
  | _, _ => False
  end.
Proof.
  unfold applyPhase3MixinFields, buildReviewFromSyncMR. destruct (approval_status _ _) as [st|e] eqn:Est; [|done].
  cbn [res_bind]. split_and!.
  - repeat apply jwf_with_prop. apply jwf_nil.
  - apply approval_status_not_undef in Est.
    repeat apply no_undef_with_prop; auto using defined_not_undef, fetched_not_undef. by intros k.
  - intros Ht. by repeat apply jwf_with_prop.
  - repeat apply over_with_prop. apply over_nil.
Qed.

Lemma buildReview_jwf syncMR rs as_ review : buildReviewFromSyncMR syncMR rs as_ = Ok review -> jwf review.
Proof.
  intros E. pose proof (phase3_over [] syncMR rs as_) as Hp. rewrite E in Hp.
  destruct (applyPhase3MixinFields _ _ _ _); [apply Hp|done].
Qed.

(** *** The documents the mixin writes leave *)

(** The core mixin, when the document is created and when it is updated. *)
Definition write_core (syncMR : record) (d : HulyDoc) : HulyDoc :=
  set_mixin MR_CORE_MIXIN (withOriginatedMarker (buildCoreFromSyncMR syncMR)) d.

Definition update_core (removes : bool) (syncMR : record) (d : HulyDoc) : HulyDoc :=
  change_mixin removes MR_CORE_MIXIN (withOriginatedMarker (buildCoreFromSyncMR syncMR)) d.

(** The review mixin is written when it has a field. *)
Definition write_review (review : record) (d : HulyDoc) : HulyDoc :=
  if bool_decide (review = []) then d
  else set_mixin MR_REVIEW_MIXIN_DOC (withOriginatedMarker review) d.

Lemma jwf_marked attrs : jwf attrs -> jwf (withOriginatedMarker attrs).
Proof. apply jwf_set. Qed.

Lemma core_jwf syncMR : jwf (buildCoreFromSyncMR syncMR).
Proof. apply (bool_decide_eq_true_1 _). reflexivity. Qed.

Lemma jwf_assign ops attrs : jwf attrs -> jwf (assign ops attrs).
Proof. apply jwf_jset_all. Qed.

(** The value an assignment to an empty object leaves. *)
Definition kept (o : option jsval) : option jsval := match o with Some VUndef => None | _ => o end.

Lemma jget_marked k attrs :
  jget k (withOriginatedMarker attrs) =
  if decide (k = "_originated") then Some (VStr "gitlab") else jget k attrs.
Proof.
  unfold withOriginatedMarker, ORIGINATED_MARKER_KEY. rewrite jget_set.
  destruct (decide (k = _)) as [->|]; [by rewrite decide_True|by rewrite decide_False].
Qed.

Lemma jget_assign_nil k ops : jwf ops -> jget k (assign ops []) = kept (jget k ops).
Proof. intros Hw. rewrite field_assign by done. by destruct (jget k ops) as [[]|]. Qed.

(** A key is [undefined] in both records or has the same value: the two
    records have the same properties for a reader. *)
Lemma mixin_of_write_core r d : mixin_of MR_CORE_MIXIN (write_core r d) =
  Some (assign (withOriginatedMarker (buildCoreFromSyncMR r)) (default [] (mixin_of MR_CORE_MIXIN d))).
Proof. unfold mixin_of, write_core, set_mixin. cbn [hd_mixins]. by rewrite jget_set_eq. Qed.

Lemma mixin_of_write_core_ne r d m : m <> MR_CORE_MIXIN -> mixin_of m (write_core r d) = mixin_of m d.
Proof. intros Hm. unfold mixin_of, write_core, set_mixin. cbn [hd_mixins]. by rewrite jget_set_ne. Qed.

Lemma mixin_of_update_core rm r d : mixin_of MR_CORE_MIXIN (update_core rm r d) =
  Some (change rm (withOriginatedMarker (buildCoreFromSyncMR r)) (default [] (mixin_of MR_CORE_MIXIN d))).
Proof. unfold mixin_of, update_core, change_mixin. cbn [hd_mixins]. by rewrite jget_set_eq. Qed.

Lemma mixin_of_update_core_ne rm r d m : m <> MR_CORE_MIXIN -> mixin_of m (update_core rm r d) = mixin_of m d.
Proof. intros Hm. unfold mixin_of, update_core, change_mixin. cbn [hd_mixins]. by rewrite jget_set_ne. Qed.

Lemma no_undef_marked attrs : no_undef attrs -> no_undef (withOriginatedMarker attrs).
Proof. intros Hn k. rewrite jget_marked. by destruct (decide _). Qed.

Lemma buildReview_no_undef syncMR rs as_ review : buildReviewFromSyncMR syncMR rs as_ = Ok review -> no_undef review.
Proof.
  intros E. pose proof (phase3_over [] syncMR rs as_) as Hp. rewrite E in Hp.
  destruct (applyPhase3MixinFields _ _ _ _); [apply Hp|done].
Qed.

Lemma mixin_of_write_review review d :
  mixin_of MR_REVIEW_MIXIN_DOC (write_review review d) =
  if bool_decide (review = []) then mixin_of MR_REVIEW_MIXIN_DOC d
  else Some (assign (withOriginatedMarker review) (default [] (mixin_of MR_REVIEW_MIXIN_DOC d))).
Proof.
  unfold mixin_of, write_review, set_mixin. case_bool_decide; [done|]. cbn [hd_mixins].
  by rewrite jget_set_eq.
Qed.

Lemma mixin_of_write_review_ne review d m :
  m <> MR_REVIEW_MIXIN_DOC -> mixin_of m (write_review review d) = mixin_of m d.
Proof.
  intros Hm. unfold mixin_of, write_review, set_mixin. case_bool_decide; [done|]. cbn [hd_mixins].
  by rewrite jget_set_ne.
Qed.

(** What a reader sees after both writes on a document without mixins. *)
Lemma read_split syncMR review d k :
  hd_mixins d = [] -> jwf review ->
  jget k (readMRMixinAttributes (Some (write_review review (write_core syncMR d))) None) =
  if decide (k = "_originated") then Some (VStr "gitlab")
  else match kept (jget k review) with
       | Some v => Some v
       | None => kept (jget k (buildCoreFromSyncMR syncMR))
       end.
Proof.
  intros Hd Hwr. unfold readMRMixinAttributes.
  rewrite mixin_of_write_review, mixin_of_write_review_ne, mixin_of_write_core by done.
  rewrite mixin_of_write_core_ne by done. unfold mixin_of. rewrite Hd.
  destruct (decide (review = [])) as [->|Hr].
  - rewrite bool_decide_eq_true_2 by done. cbn [jget merged_mixins default from_option id jset_all fold_left kept].
    rewrite jget_assign_nil by apply jwf_marked, core_jwf. rewrite jget_marked. by destruct (decide _).
  - rewrite bool_decide_eq_false_2 by done. cbn [jget merged_mixins default from_option id].
    rewrite jget_set_all by by apply (jwf_assign (withOriginatedMarker review) []), jwf_nil.
    rewrite !jget_assign_nil by (apply jwf_marked; done || apply core_jwf).
    rewrite !jget_marked. by destruct (decide _).
Qed.

(** Splitting the mixin kept what readers see: on a document without
    mixins, writing a record to the core and review mixins as the manager
    does, and writing it to the single mixin it used before, give the same
    attributes through [readMRMixinAttributes]; and the one write throws
    exactly when the other does. *)
Theorem split_mixins_equivalent syncMR reviewers approvers d :
  hd_mixins d = [] ->
  match buildMixinCreateData syncMR reviewers approvers,
        buildReviewFromSyncMR syncMR reviewers approvers with
  | Ok legacy, Ok review =>
      readMRMixinAttributes (Some (write_review review (write_core syncMR d))) None ≡
      readMRMixinAttributes (Some (set_mixin MR_MIXIN (withOriginatedMarker legacy) d)) None
  | Throw e, Throw e' => e = e'
  | _, _ => False
  end.
Proof.
  intros Hd. pose proof (phase3_over (buildCoreFromSyncMR syncMR) syncMR reviewers approvers) as Hp.
  change (applyPhase3MixinFields _ _ _ _) with (buildMixinCreateData syncMR reviewers approvers) in Hp.
  destruct (buildMixinCreateData _ _ _) as [legacy|e], (buildReviewFromSyncMR _ _ _) as [review|e'];
    try done.
  destruct Hp as (Hwr & Hnu & Hwl & Ho). specialize (Hwl (core_jwf syncMR)).
  intros k. rewrite read_split by done.
  unfold readMRMixinAttributes, mixin_of, set_mixin. cbn [hd_mixins]. rewrite Hd.
  cbn [jget default from_option id]. rewrite jget_set_eq, !jget_set_ne by done.
  cbn [jget merged_mixins default from_option id].
  rewrite (jget_assign_nil k (withOriginatedMarker legacy)) by by apply jwf_marked.
  rewrite jget_marked, Ho. destruct (decide (k = "_originated")) as [->|]; [done|].
  specialize (Hnu k). by destruct (jget k review) as [[]|].
Qed.

(** The fields of the core mixin and the properties they are read from. *)
Definition CORE_KEYS : list (string * string) :=
  [("sourceBranch", "sourceBranch"); ("targetBranch", "targetBranch"); ("draft", "draft");
   ("mergedAt", "mergedAt"); ("mergeStatus", "mergeStatus"); ("webUrl", "webUrl");
   ("gitlabIid", "iid"); ("gitlabProjectId", "projectId")].

Lemma core_get r k k' : (k, k') ∈ CORE_KEYS -> jget k (buildCoreFromSyncMR r) = Some (prop_of r k').
Proof.
  unfold CORE_KEYS. rewrite !elem_of_cons, elem_of_nil.
  intros Hk. repeat destruct Hk as [[= -> ->]|Hk]; try reflexivity. done.
Qed.

Lemma core_get_none r k : k ∉ map fst CORE_KEYS -> jget k (buildCoreFromSyncMR r) = None.
Proof. intros Hk. apply jget_None_keys. exact Hk. Qed.

(** ** Resolution *)

Section Resolution.
Context {Coll : Type -> Type} `{HL : MongoLaws Coll} {P : Platform} `{Sha256} `{Markdown} `{FastEquals}.
Context {HU GL AC : Type} `{HHL : HulyLaws HU} `{MRGitLabClient GL} `{LabelGitLabClient GL}
  `{MilestoneGitLabClient GL} `{AccountClient AC}.
Abbreviation X := (SyncState HU GL AC).
Implicit Types (s : Store Coll * X).

Lemma moves_resolve_user bctx u :
  moves resolved_from (resolve_user (Coll := Coll) (HU := HU) (GL := GL) (AC := AC) bctx u).
Proof. unfold resolve_user, identity_of. repeat moves_step. Qed.

Lemma moves_mr_resolveAssignee bctx v :
  moves resolved_from (mr_resolveAssignee (Coll := Coll) (HU := HU) (GL := GL) (AC := AC) bctx v).
Proof. unfold mr_resolveAssignee. repeat first [apply moves_resolve_user | moves_step]. Qed.

Lemma moves_resolveReviewerUuids bctx v :
  moves resolved_from (resolveReviewerUuids (Coll := Coll) (HU := HU) (GL := GL) (AC := AC) bctx v).
Proof. unfold resolveReviewerUuids. repeat first [apply moves_resolve_user | moves_step]. Qed.

Lemma moves_resolveMR bctx r :
  moves resolved_from (resolveMR (Coll := Coll) (HU := HU) (GL := GL) (AC := AC) bctx r).
Proof.
  unfold resolveMR, mr_resolveLocalLabels, mr_resolveMilestone.
  repeat first [apply moves_mr_resolveAssignee | apply moves_resolveReviewerUuids | moves_step].
Qed.

(** [undefined], or a list of references, as the record has them or not. *)
Definition ref_list_or_undef (source v : jsval) : Prop :=
  (source = VUndef /\ v = VUndef) \/
  (source <> VUndef /\ exists l, v = VArr l /\ Forall is_ref l).

Lemma resolve_user_ref bctx u s v s' :
  resolve_user (Coll := Coll) (HU := HU) (GL := GL) (AC := AC) bctx u s = (Ok v, s') -> is_ref v.
Proof.
  unfold resolve_user. intros (id & s1 & _ & ([p|] & s2 & _ & Hv)%bind_inv_ok)%bind_inv_ok.
  - by injection Hv as <- _.
  - by apply bind_inv_ok in Hv as (g & s3 & _ & [= <- _]).
Qed.

Lemma resolveReviewerUuids_refs bctx users s v s' :
  resolveReviewerUuids (Coll := Coll) (HU := HU) (GL := GL) (AC := AC) bctx users s = (Ok v, s') ->
  ref_list_or_undef users v.
Proof.
  intros Hr. unfold ref_list_or_undef. destruct (decide (users = VUndef)) as [->|Hu].
  - injection Hr as <- _. by left.
  - right. split; [done|].
    assert (exists l t t' out, mapM_js l (resolve_user (Coll := Coll) (HU := HU) (GL := GL) (AC := AC) bctx) t = (Ok out, t') /\ v = VArr out)
      as (l & t & t' & out & Ho & ->).
    { unfold resolveReviewerUuids in Hr. destruct users; [done|..];
        apply bind_inv_ok in Hr as (us & t & _ & (out & t' & Ho & [= <- _])%bind_inv_ok);
        by exists us, t, t', out. }
    exists out. split; [done|]. eapply mapM_js_values; [|exact Ho].
    intros. by eapply resolve_user_ref.
Qed.

(** A merge-request view: the document fields are those of an issue view. *)
Record wf_mr_view (r : record) (v : MRView) : Prop := {
  wm_description : is_ref (mv_description v);
  wm_assignee : mv_assignee v = VNull \/ is_ref (mv_assignee v);
  wm_reviewers : ref_list_or_undef (prop_of r "reviewers") (mv_reviewers v);
  wm_approvedBy : ref_list_or_undef (prop_of r "approvedBy") (mv_approvedBy v);
  wm_labels : Forall is_ref (mv_labels v);
  wm_milestone : mv_milestone v = VNull \/ is_ref (mv_milestone v)
}.

(** typing of the resolution: whatever dynamic record resolves, the result
    has the types the document fields have - a description string, an
    assignee and a milestone that are references or [null], labels that are
    references - and the reviewers and approvers are lists of references
    exactly when the record has them, [undefined] otherwise; and resolving
    adds at most tags, milestones and stub users. *)
Theorem resolveMR_typed bctx r s v s' :
  resolveMR (Coll := Coll) (HU := HU) (GL := GL) (AC := AC) bctx r s = (Ok v, s') ->
  wf_mr_view r v /\ resolved_from s s'.
Proof.
  intros Hr. split; [|by eapply moves_resolveMR]. revert Hr.
  unfold resolveMR. intros (de & s1 & _ & (a & s2 & Ha & Hr)%bind_inv_ok)%bind_inv_ok.
  apply bind_inv_ok in Hr as (rs & s3 & Hrs & Hr). apply bind_inv_ok in Hr as (ap & s4 & Hap & Hr).
  apply bind_inv_ok in Hr as (ls & s5 & Hls & Hr). apply bind_inv_ok in Hr as (mi & s6 & Hmi & [= <- _]).
  split; cbn [mv_description mv_assignee mv_reviewers mv_approvedBy mv_labels mv_milestone]; [done|..].
  - unfold mr_resolveAssignee in Ha. apply bind_inv_ok in Ha as (len & t1 & _ & Ha).
    case_bool_decide; [injection Ha as <- _; by left|right]. by eapply resolve_user_ref.
  - by eapply resolveReviewerUuids_refs.
  - by eapply resolveReviewerUuids_refs.
  - unfold mr_resolveLocalLabels in Hls. apply bind_inv_ok in Hls as (l & t1 & _ & Hls).
    eapply mapM_js_values; [|exact Hls]. intros x t w t' (ref & t2 & _ & [= <- _])%bind_inv_ok. done.
  - unfold mr_resolveMilestone in Hmi.
    destruct (prop_of r "milestone"); [|by injection Hmi as <- _; left|..]; right;
      (apply bind_inv_ok in Hmi as (? & ? & _ & Hmi); apply bind_inv_ok in Hmi as (? & ? & _ & [= <- _]); done).
Qed.
End Resolution.

(** ** What the review builder writes *)

Lemma jget_with_prop_ne k k' v body : k <> k' -> jget k' (with_prop k v body) = jget k' body.
Proof. intros Hk. rewrite jget_with_prop. destruct v; [by rewrite decide_False|done]. Qed.

Lemma jget_with_prop_new k v body : jget k body = None -> jget k (with_prop k v body) = v.
Proof. intros Hk. rewrite jget_with_prop. destruct v; [by rewrite decide_True|done]. Qed.

(** Look a literal key up in a chain of assignments. *)
Ltac with_prop_get :=
  repeat match goal with
  | |- jget ?k (with_prop ?k ?v ?b) = _ => apply (jget_with_prop_new k v b)
  | |- jget ?k (with_prop ?k' ?v ?b) = _ => rewrite (jget_with_prop_ne k' k v b) by (intros [=])
  end; try reflexivity.

(** The optional fields that are copied from the record. *)
Definition COPIED_KEYS : list string :=
  ["approvalsRequired"; "approvalRules"; "iteration"; "diffWebUrl"; "changedFiles"].

(** Each field is written from its source when that is there; the status is
    derived; nothing else is written. *)
Lemma buildReview_get r rs ap review :
  buildReviewFromSyncMR r rs ap = Ok review ->
  jget "reviewers" review = fetched r "reviewers" rs /\
  jget "approvedBy" review = fetched r "approvedBy" ap /\
  approval_status r ap = Ok (jget "approvalStatus" review) /\
  (forall k, k ∈ COPIED_KEYS -> jget k review = defined (prop_of r k)) /\
  (forall k, k ∉ "reviewers" :: "approvedBy" :: "approvalStatus" :: COPIED_KEYS -> jget k review = None).
Proof.
  unfold buildReviewFromSyncMR. destruct (approval_status r ap) as [st|]; [|done].
  cbn [res_bind]. intros [= <-].
  split_and!.
  - with_prop_get.
  - with_prop_get.
  - f_equal. symmetry. with_prop_get.
  - intros k Hk. unfold COPIED_KEYS in Hk. rewrite !elem_of_cons, elem_of_nil in Hk.
    destruct Hk as [->|[->|[->|[->|[->|[]]]]]]; with_prop_get.
  - unfold COPIED_KEYS. intros k Hk. rewrite !not_elem_of_cons in Hk.
    destruct Hk as (? & ? & ? & ? & ? & ? & ? & ? & _).
    repeat (rewrite jget_with_prop_ne; [|congruence]). done.
Qed.

Lemma on_doc_fresh_snoc ref f (l : list HulyDoc) d :
  ref ∉ map hd_id l -> hd_id d = ref -> on_doc ref f (l ++ [d]) = l ++ [f d].
Proof.
  intros Hn Hd. unfold on_doc. rewrite map_app. cbn [map]. rewrite decide_True by done. f_equal.
  induction l as [|x l IH]; [done|]. cbn [map] in *. apply not_elem_of_cons in Hn as [Hx Hn].
  rewrite decide_False by congruence. by rewrite IH.
Qed.

Lemma on_doc_on_doc ref f g (l : list HulyDoc) :
  (forall d, hd_id (f d) = hd_id d) ->
  on_doc ref g (on_doc ref f l) = on_doc ref (fun d => g (f d)) l.
Proof.
  intros Hf. unfold on_doc. rewrite map_map. apply map_ext. intros d.
  destruct (decide (hd_id d = ref)) as [E|E]; [by rewrite decide_True by by rewrite Hf|by rewrite decide_False].
Qed.

Lemma on_doc_same ref (l : list HulyDoc) : on_doc ref (fun d => d) l = l.
Proof. unfold on_doc. rewrite <- (map_id l) at 2. apply map_ext. intros d. by destruct (decide _). Qed.

Lemma write_core_id r d :
  hd_id (write_core r d) = hd_id d /\ hd_class (write_core r d) = hd_class d /\
  hd_space (write_core r d) = hd_space d /\ hd_attrs (write_core r d) = hd_attrs d.
Proof. done. Qed.

Lemma write_review_id review d :
  hd_id (write_review review d) = hd_id d /\ hd_class (write_review review d) = hd_class d /\
  hd_space (write_review review d) = hd_space d /\ hd_attrs (write_review review d) = hd_attrs d.
Proof. unfold write_review. by destruct (bool_decide _). Qed.
