(* ===== verification/MergeRequestsRemote.v ===== *)
(** * Remote merge requests

    What a successful [mr_applyRemote] leaves behind: the created document
    with its mixins and its mapping, and, for a mapped request, which
    attributes and mixin fields the record decides and which are kept. *)

From S2P Require Import Prelude JsMap JsString JsVal Metrics Platform Conflict Mongo Store Ids.
From S2P Require Import StatusMap Huly Caches Queue Breaker Engine Sync TxSubscriber FieldSync Issues.
From S2P Require Import MergeRequests IssuesProofs IssuesLocal MergeRequestsProofs.
Open Scope nat_scope.
Open Scope string_scope.
Open Scope list_scope.

Section Remote.
Context {Coll : Type -> Type} `{HL : MongoLaws Coll} {P : Platform} `{Sha256} `{Markdown} `{FastEquals}.
Context {HU GL AC : Type} `{HHL : HulyLaws HU} `{MRGitLabClient GL} `{LabelGitLabClient GL}
  `{MilestoneGitLabClient GL} `{AccountClient AC}.
Abbreviation X := (SyncState HU GL AC).
Implicit Types (deps : MergeRequestsSyncManagerDeps (Coll := Coll) (HU := HU) (GL := GL) (AC := AC))
  (s : Store Coll * X) (v : MRView).

Definition mr_loads deps (binding : string) (bctx : BindingContext) : Prop :=
  loads_with (mr_loadBinding deps) binding bctx.

Definition mr_mapped (bctx : BindingContext) (r : record) s : option IdMapDoc :=
  findOne (by_gitlab (bx_workspaceUuid bctx) KMergeRequest (scoped_key bctx (prop_of r "iid"))) (idmap s.1).

(** A lookup of an issue document by its reference. *)
Lemma find_issue_run {B} ref (k : option HulyDoc -> M (Store Coll * X) B) s b s' :
  (let! found := on_huly (findOneDoc HULY_CLASS_ISSUE [("_id", VStr ref)]) in k found) s = (Ok b, s') ->
  exists h, docs h = docs (sy_huly s.2) /\ k (issue_at ref s) (s.1, set_huly h s.2) = (Ok b, s').
Proof.
  intros (o & s2 & Ho & Hend)%bind_inv_ok.
  unfold on_huly, on_state, zoom in Ho. destruct (findOneDoc _ _ _) as [ro h] eqn:Eo.
  injection Ho as -> <-. apply findOne_ok in Eo as [Eh Eo].
  change (o = issue_at ref s) in Eo. subst o. by exists h.
Qed.

(** A successful [applyRemote]: the load, the resolution, then a creation or
    an update. *)
Lemma mr_applyRemote_run deps ctx binding bctx r s s' :
  mr_loads deps binding bctx -> mr_applyRemote deps ctx binding r s = (Ok tt, s') ->
  exists x v s1, resolveMR bctx r (s.1, x) = (Ok v, s1) /\ wf_mr_view r v /\
    docs (sy_huly x) = docs (sy_huly s.2) /\ resolved_from (s.1, x) s1 /\
    issue_docs s1 = issue_docs s /\ (forall ref, issue_at ref s1 = issue_at ref s) /\
    match mr_mapped bctx r s with
    | None => create_mr bctx binding (scoped_key bctx (prop_of r "iid")) r v s1 = (Ok tt, s')
    | Some m =>
        exists h, docs h = docs (sy_huly s1.2) /\
          match issue_at (im_hulyRef m) s with
          | None => s' = (s1.1, set_huly h s1.2)
          | Some d => update_mr bctx binding (im_hulyRef m) d r v (s1.1, set_huly h s1.2) = (Ok tt, s')
          end
    end.
Proof.
  intros Hl Hr. destruct (Hl s) as (x & El & Hd & _).
  unfold mr_applyRemote in Hr. rewrite (bind_ok _ _ _ _ _ El) in Hr.
  unfold bind at 1, on_db, zoom, findByGitlab, gets in Hr. cbn [fst snd] in Hr.
  apply bind_inv_ok in Hr as (v & s1 & Hv & Hr).
  destruct (resolveMR_typed _ _ _ _ _ Hv) as [Hwf Hrf].
  assert (forall ref, issue_at ref s1 = issue_at ref s) as Hat.
  { intros ref. rewrite (resolved_issue_at ref _ _ Hrf). unfold issue_at. cbn [snd]. by rewrite Hd. }
  exists x, v, s1. split_and!; try done.
  - rewrite (resolved_issues _ _ Hrf). unfold issue_docs. cbn [snd]. by rewrite Hd.
  - unfold mr_mapped. destruct (findOne _ (idmap s.1)) as [m|]; [|done].
    apply find_issue_run in Hr as (h & Eh & Hr). rewrite Hat in Hr. exists h. split; [done|].
    destruct (issue_at (im_hulyRef m) s); [done|by injection Hr as <-].
Qed.

(** ** Creation *)

(** The document a creation leaves. *)
Definition mr_created_doc (bctx : BindingContext) (r : record) v (st : jsval) (priority : Z)
    (review : record) (ref : string) : HulyDoc :=
  write_review review (write_core r
    (MkHulyDoc ref HULY_CLASS_ISSUE (bx_hulyProjectRef bctx) (mr_attrs bctx r v st priority) [])).

Lemma huly_run {B} (m : M HU B) s b s' :
  on_huly m s = (Ok b, s') -> exists h, m (sy_huly s.2) = (Ok b, h) /\ s' = (s.1, set_huly h s.2).
Proof. unfold on_huly, on_state, zoom. destruct (m _) as [o h]. intros [= -> <-]. by exists h. Qed.

(** The review write, as a rewrite of the document. *)
Lemma review_write_run (write : string -> string -> string -> string -> record -> M HU unit)
    ref space review s s' :
  (forall r c sp m h h', write r c sp m (withOriginatedMarker review) h = (Ok tt, h') ->
     docs h' = on_doc r (set_mixin m (withOriginatedMarker review)) (docs h)) ->
  when (negb (bool_decide (review = [])))
    (on_huly (write ref HULY_CLASS_ISSUE space MR_REVIEW_MIXIN_DOC (withOriginatedMarker review)))
    s = (Ok tt, s') ->
  docs (sy_huly s'.2) = on_doc ref (write_review review) (docs (sy_huly s.2)) /\ s'.1 = s.1.
Proof.
  intros Hw. destruct (decide (review = [])) as [->|Hr].
  - intros [= <-]. split; [|done]. symmetry. apply on_doc_same.
  - rewrite bool_decide_eq_false_2 by done. cbn [negb when].
    assert (write_review review = set_mixin MR_REVIEW_MIXIN_DOC (withOriginatedMarker review)) as ->.
    { unfold write_review. by rewrite bool_decide_eq_false_2. }
    intros (h & Eh & ->)%huly_run. apply Hw in Eh. done.
Qed.

Lemma create_mr_run bctx binding gid r v s s' :
  create_mr bctx binding gid r v s = (Ok tt, s') ->
  let st := ms_status (mr_status bctx r (VStr "")) in
  if bool_decide (js_String st = "") then s' = s
  else exists ref review,
    buildReviewFromSyncMR r (mv_reviewers v) (mv_approvedBy v) = Ok review /\
    let m := MkIdMapDoc (bx_workspaceUuid bctx) KMergeRequest gid HULY_CLASS_ISSUE ref in
    docs (sy_huly s'.2) = docs (sy_huly s.2) ++
      [mr_created_doc bctx r v st (default IssuePriority_NoPriority (ms_priority (mr_status bctx r (VStr ""))))
         review ref] /\
    ref ∉ map hd_id (docs (sy_huly s.2)) /\
    findOne (by_gitlab (bx_workspaceUuid bctx) KMergeRequest gid) (idmap s'.1) = Some m /\
    findOne (by_huly (bx_workspaceUuid bctx) HULY_CLASS_ISSUE ref) (idmap s'.1) = Some m /\
    findOne (by_cursor binding CMergeRequests) (cursors s'.1) =
      Some (MkCursorDoc binding CMergeRequests (mr_remoteTs r)).
Proof.
  unfold create_mr. cbn zeta. set (st := ms_status _).
  destruct (decide (st = VUndef)) as [Hu|Hu].
  { exfalso. unfold st, mr_status in Hu. edestruct mapRemoteMRState_ref as [ref E].
    rewrite E in Hu. done. }
  rewrite (bool_decide_eq_false_2 (st = VUndef)) by done. cbn [orb].
  case_bool_decide; [by intros [= <-]|].
  intros (ref & s2 & Hc & Hend)%bind_inv_ok. apply huly_run in Hc as (h & Ec & ->).
  apply createDoc_ok in Ec as [Hdocs Hfresh].
  apply bind_inv_ok in Hend as ([] & s3 & Hcore & Hend). apply huly_run in Hcore as (h3 & Ecore & ->).
  apply createMixin_ok in Ecore. cbn [fst snd set_huly sy_huly] in Ecore.
  apply bind_inv_ok in Hend as (review & s4 & Hrev & Hend). unfold lift_res in Hrev.
  injection Hrev as Hrev <-.
  apply bind_inv_ok in Hend as ([] & s5 & Hw & Hend).
  apply (review_write_run createMixin) in Hw as [Hd5 E5]; [|intros *; apply createMixin_ok].
  cbn [fst snd set_huly sy_huly] in Hd5, E5.
  apply bind_inv_ok in Hend as ([] & s6 & Hup & Hcur).
  apply upsertIdMap_run in Hup as (E6 & Hg & Hh & _).
  apply setCursor_run in Hcur as (E7 & Ei & _ & Hcur). rewrite E7, Ei, E6.
  exists ref, review. split; [done|]. split_and!; try done.
  rewrite Hd5, Ecore, Hdocs, !on_doc_fresh_snoc; done.
Qed.

(** A core field is not a review field. *)
Lemma core_not_review r rs ap review k k' :
  buildReviewFromSyncMR r rs ap = Ok review -> (k, k') ∈ CORE_KEYS -> jget k review = None.
Proof.
  intros Hb Hk. apply (buildReview_get _ _ _ _ Hb).
  assert (k ∈ map fst CORE_KEYS) as Hin by by apply (list_elem_of_fmap_2 fst) in Hk.
  clear Hk. revert k Hin. apply Forall_forall. apply (bool_decide_eq_true_1 _). reflexivity.
Qed.

Lemma mr_created_doc_id bctx r v st p review ref :
  let d := mr_created_doc bctx r v st p review ref in
  hd_id d = ref /\ hd_class d = HULY_CLASS_ISSUE /\ hd_space d = bx_hulyProjectRef bctx /\
  hd_attrs d = mr_attrs bctx r v st p.
Proof. unfold mr_created_doc, write_review. by destruct (bool_decide _). Qed.

(** Reviewers and approvers read back from a document without mixins. *)
Lemma read_uuids k r rs ap review d u :
  hd_mixins d = [] -> buildReviewFromSyncMR r rs ap = Ok review ->
  jget k review = fetched r k u -> k ∉ map fst CORE_KEYS -> k <> "_originated" ->
  ref_list_or_undef (prop_of r k) u ->
  prop_of (readMRMixinAttributes (Some (write_review review (write_core r d))) None) k = u.
Proof.
  intros Hd Hb Hk Hc Ho Hu. unfold prop_of at 1.
  rewrite read_split, decide_False by (done || by eapply buildReview_jwf).
  rewrite Hk, core_get_none by done. unfold fetched.
  destruct Hu as [[-> ->]|[Hs (l & -> & _)]]; [done|].
  by destruct (prop_of r k).
Qed.

(** A record of a merge request that is not mapped yet creates exactly one
    issue document, in the bound project, with the record's resolved fields,
    the status its state and draft flag select, the priority Low for an open
    draft and none otherwise, the record's update time and the origin
    marker; its mixins read back as the record's branches, merge state, url
    and ids and its reviewers and approvers when they were fetched;
    afterwards the id map leads from the merge request to the document and
    back and the cursor is the record's update time.  When no status
    matches - always so for a locked request - nothing is created. *)
Theorem mr_created deps ctx binding bctx r s s' :
  mr_loads deps binding bctx -> mr_mapped bctx r s = None ->
  mr_applyRemote deps ctx binding r s = (Ok tt, s') ->
  exists x v s1, resolveMR bctx r (s.1, x) = (Ok v, s1) /\
    let mapping := mr_status bctx r (VStr "") in
    if bool_decide (js_String (ms_status mapping) = "") then issue_docs s' = issue_docs s
    else exists d,
      let ref := hd_id d in
      let a := hd_attrs d in
      let mixin := readMRMixinAttributes (Some d) None in
      let m := MkIdMapDoc (bx_workspaceUuid bctx) KMergeRequest (scoped_key bctx (prop_of r "iid"))
                 HULY_CLASS_ISSUE ref in
      ref ∉ map hd_id (docs (sy_huly s.2)) /\ issue_docs s' = issue_docs s ++ [d] /\
      hd_space d = bx_hulyProjectRef bctx /\
      (prop_of a "title" = prop_of r "title" /\ prop_of a "description" = mv_description v /\
       prop_of a "status" = ms_status mapping /\ prop_of a "assignee" = mv_assignee v /\
       prop_of a "labels" = VArr (mv_labels v) /\ prop_of a "milestone" = mv_milestone v /\
       prop_of a "priority" = VNum (default 0%Z (ms_priority mapping)) /\
       prop_of a "modifiedOn" = getTime (new_Date (prop_of r "updatedAt")) /\
       prop_of a "_originated" = VStr "gitlab") /\
      (forall k k', (k, k') ∈ CORE_KEYS -> prop_of mixin k = prop_of r k') /\
      prop_of mixin "reviewers" = mv_reviewers v /\ prop_of mixin "approvedBy" = mv_approvedBy v /\
      mr_mapped bctx r s' = Some m /\
      findOne (by_huly (bx_workspaceUuid bctx) HULY_CLASS_ISSUE ref) (idmap s'.1) = Some m /\
      findOne (by_cursor binding CMergeRequests) (cursors s'.1) =
        Some (MkCursorDoc binding CMergeRequests (new_Date (prop_of r "updatedAt"))).
Proof.
  intros Hl Hmap Hr.
  destruct (mr_applyRemote_run _ _ _ _ _ _ _ Hl Hr) as (x & v & s1 & Hv & Hwf & Hdx & Hrf & Hi & _ & Hend).
  exists x, v, s1. split; [done|]. rewrite Hmap in Hend. apply create_mr_run in Hend. cbn zeta in *.
  destruct (bool_decide (js_String _ = "")); [by subst|].
  destruct Hend as (ref & review & Hb & Hdocs & Hfresh & Hg & Hh & Hcur).
  pose proof (buildReview_jwf _ _ _ _ Hb) as Hwr.
  match type of Hdocs with _ = _ ++ [?d] => exists d end.
  destruct (mr_created_doc_id bctx r v (ms_status (mr_status bctx r (VStr "")))
    (default IssuePriority_NoPriority (ms_priority (mr_status bctx r (VStr "")))) review ref)
    as (-> & Ecl & -> & ->).
  split_and!; try done.
  - intros Hin. apply Hfresh. destruct Hrf as [(e & He & _) _ _ _ _ _ _ _ _]. cbn [snd] in He.
    rewrite He, Hdx, map_app, elem_of_app. by left.
  - unfold issue_docs at 1. rewrite Hdocs, List.filter_app, <- Hi. cbn [List.filter].
    by rewrite Ecl, bool_decide_eq_true_2.
  - intros k k' Hk. unfold prop_of at 1. unfold mr_created_doc. rewrite read_split by done.
    rewrite (core_not_review _ _ _ _ _ _ Hb Hk), (core_get r k k') by done.
    rewrite decide_False by (intros ->; revert Hk; unfold CORE_KEYS; rewrite !elem_of_cons, elem_of_nil; naive_solver).
    cbn [kept]. by destruct (prop_of r k').
  - destruct (buildReview_get _ _ _ _ Hb) as (Er & _). eapply read_uuids; try done; [|apply Hwf].
    by apply (bool_decide_eq_true_1 _).
  - destruct (buildReview_get _ _ _ _ Hb) as (_ & Ea & _). eapply read_uuids; try done; [|apply Hwf].
    by apply (bool_decide_eq_true_1 _).
Qed.

(** ** Update *)

(** The approvers Huly knows. *)
Definition known_approvers (d : HulyDoc) : jsval :=
  js_coalesce (prop_of (readMRMixinAttributes (Some d) None) "approvedBy") (VArr []).

Lemma known_approvers_defined d : known_approvers d <> VUndef.
Proof.
  unfold known_approvers. intros E. set (w := prop_of _ _) in E. by destruct w.
Qed.

(** Huly's document is recent, or not older than the record. *)
Definition approval_in_flight (d : HulyDoc) (remoteTs : jsdate) (now : Z) : bool :=
  match prop_of (hd_attrs d) "modifiedOn" with
  | VNum n => (0 <? n)%Z && ((now - n <? APPROVAL_RACE_WINDOW_MS)%Z || js_le (getTime remoteTs) (VNum n))
  | _ => false
  end.

(** A list (or what the mixin holds instead) longer than [l]. *)
Definition more_than (l : list jsval) (v : jsval) : bool :=
  match js_get v "length" with
  | Some n => js_lt (VNum (Z.of_nat (List.length l))) n
  | None => false
  end.

(** The approvers an update writes, by the record's and the clock. *)
Definition approvers_after (d : HulyDoc) (remoteTs : jsdate) (l : list jsval) (now : Z) : jsval :=
  if more_than l (known_approvers d) && approval_in_flight d remoteTs now then known_approvers d
  else VArr l.

Lemma resolve_approvedBy_run d rt ap s w s' :
  resolve_approvedBy d rt ap s = (Ok w, s') ->
  s'.1 = s.1 /\ sy_huly s'.2 = sy_huly s.2 /\
  match ap with
  | VUndef => w = VUndef
  | VArr l => exists n, w = approvers_after d rt l (clock n)
  | _ => True
  end.
Proof.
  intros Hr. destruct (decide (ap = VUndef)) as [->|Hap]; [by injection Hr as <- <-|].
  unfold resolve_approvedBy in Hr.
  assert (forall A (y z : A), match ap with VUndef => y | _ => z end = z) as Em by by destruct ap.
  rewrite Em in Hr. cbn zeta in Hr. fold (known_approvers d) in Hr.
  apply bind_inv_ok in Hr as (race & t & Hrace & Hr).
  assert ((t.1 = s.1 /\ sy_huly t.2 = sy_huly s.2) /\ exists n, forall m,
    prop_of (hd_attrs d) "modifiedOn" = VNum m ->
    race = (0 <? m)%Z && (clock n - m <? APPROVAL_RACE_WINDOW_MS)%Z) as [[E1 E2] [n Hn]].
  { destruct (prop_of (hd_attrs d) "modifiedOn"); try (injection Hrace as <- <-; split; [done|by exists 0]).
    destruct (0 <? n)%Z eqn:Ep.
    - apply bind_inv_ok in Hrace as (now & t' & [= <- <-] & [= <- <-]). split; [done|].
      eexists. intros m [= <-]. by rewrite Ep.
    - injection Hrace as <- <-. split; [done|]. exists 0. intros m [= <-]. by rewrite Ep. }
  apply bind_inv_ok in Hr as (nl & t1 & Hnl & Hr). apply bind_inv_ok in Hr as (nr & t2 & Hnr & [= <- <-]).
  unfold get_prop in Hnl, Hnr. destruct (js_get (known_approvers d) "length") as [len|] eqn:El; [|done].
  injection Hnl as <- <-. destruct (js_get ap "length") as [len'|] eqn:El'; [|done]. injection Hnr as <- <-.
  split_and!; [done|done|]. destruct ap; try done. exists n.
  unfold approvers_after, more_than, approval_in_flight. rewrite El.
  cbn [js_get] in El'. injection El' as <-.
  destruct (js_lt _ len); cbn [andb]; [|done].
  destruct (prop_of (hd_attrs d) "modifiedOn") as [| | |m| | | | |];
    try (injection Hrace as <- _; done).
  rewrite (Hn m eq_refl). cbn [js_lt]. by destruct (0 <? m)%Z.
Qed.

(** What an update does to the document. *)
Definition mr_rewrite (rt : jsdate) (r u : record) (dirty : bool) (review : record) (d : HulyDoc) : HulyDoc :=
  write_review review (update_core (undefined_removes HU) r (if dirty then set_attrs (stamped rt u) d else d)).

Lemma mr_rewrite_id rt r u dirty review d :
  hd_id (mr_rewrite rt r u dirty review d) = hd_id d /\
  hd_class (mr_rewrite rt r u dirty review d) = hd_class d /\
  hd_attrs (mr_rewrite rt r u dirty review d) = hd_attrs (if dirty then set_attrs (stamped rt u) d else d).
Proof. unfold mr_rewrite, write_review. by destruct (bool_decide _), dirty. Qed.

Lemma update_mr_run bctx binding ref d r v u dirty s s' :
  mr_update_of bctx (hd_attrs d) r v = (u, dirty) ->
  update_mr bctx binding ref d r v s = (Ok tt, s') ->
  exists w review,
    match mv_approvedBy v with
    | VUndef => w = VUndef
    | VArr l => exists n, w = approvers_after d (mr_remoteTs r) l (clock n)
    | _ => True
    end /\
    buildReviewFromSyncMR r (mv_reviewers v) w = Ok review /\
    docs (sy_huly s'.2) = on_doc ref (mr_rewrite (mr_remoteTs r) r u dirty review) (docs (sy_huly s.2)) /\
    idmap s'.1 = idmap s.1 /\
    (newer (local_ts (hd_attrs d)) (mr_remoteTs r) = true -> cursors s'.1 = cursors s.1).
Proof.
  intros Hu. unfold update_mr. rewrite Hu. intros ([] & s1 & Hw & Hr)%bind_inv_ok.
  assert (docs (sy_huly s1.2) =
      on_doc ref (fun d => if dirty then set_attrs (stamped (mr_remoteTs r) u) d else d) (docs (sy_huly s.2)) /\
    s1.1 = s.1) as [Hd1 E1].
  { destruct dirty; cbn [when] in Hw; [|injection Hw as <-; by rewrite on_doc_same].
    apply huly_run in Hw as (h & Eh & ->). by apply updateDoc_ok in Eh. }
  apply bind_inv_ok in Hr as (w & s2 & Hap & Hr). apply resolve_approvedBy_run in Hap as (E2 & Eh2 & Hap).
  apply bind_inv_ok in Hr as ([] & s3 & Hcore & Hr). apply huly_run in Hcore as (h3 & Ecore & ->).
  apply updateMixin_ok in Ecore. rewrite Eh2, Hd1 in Ecore.
  change (change_mixin _ MR_CORE_MIXIN _) with (update_core (undefined_removes HU) r) in Ecore.
  apply bind_inv_ok in Hr as (review & s4 & [= Hrev <-] & Hr).
  apply bind_inv_ok in Hr as ([] & s5 & Hwr & Hr).
  apply (review_write_run updateMixin) in Hwr as [Hd5 E5].
  2:{ intros * Eu. apply updateMixin_ok in Eu. rewrite Eu. apply on_doc_ext. intros d0.
      by eapply change_mixin_defined, no_undef_marked, buildReview_no_undef. }
  cbn [fst snd set_huly sy_huly] in Hd5, E5. rewrite Ecore in Hd5.
  exists w, review. do 2 (split; [done|]).
  assert (docs (sy_huly s'.2) = docs (sy_huly s5.2) /\ idmap s'.1 = idmap s5.1 /\
    (newer (local_ts (hd_attrs d)) (mr_remoteTs r) = true -> cursors s'.1 = cursors s5.1)) as (E6 & Ei & Ec).
  { destruct (local_ts (hd_attrs d)) as [l|]; cbn [newer].
    - destruct (date_gt (mr_remoteTs r) l) eqn:Eg; cbn [when] in Hr; [|by injection Hr as <-].
      apply setCursor_run in Hr as (-> & -> & _). split_and!; try done.
      intros Hl. by rewrite (date_gt_asym _ _ Eg) in Hl.
    - cbn [when] in Hr. apply setCursor_run in Hr as (-> & -> & _). done. }
  rewrite E6, Ei, Hd5, E5, E2, E1. split_and!; [|done|].
  - rewrite !on_doc_on_doc; [done|..]; intros d0; by destruct dirty.
  - intros Hl. by rewrite (Ec Hl), E5, E2, E1.
Qed.

(** A Huly document the update can compare: its fields are there, and the
    two that may be kept are not lists. *)
Definition mr_fields_ok (a : record) : Prop :=
  has_fields MR_FIELDS (local_value a) /\
  primitive (prop_of a "status") = true /\ primitive (prop_of a "priority") = true.

Lemma mr_good_values bctx a r v :
  mr_fields_ok a -> wf_mr_view r v -> is_ref (prop_of r "title") ->
  good_values MR_FIELDS (mr_remote_value bctx a r v).
Proof.
  intros (Hf & Hs & Hp) [Hd Ha _ _ Hl Hm] Ht.
  assert (forall x, primitive x = true -> x <> VUndef -> scalar_or_list x /\ x <> VUndef) as Hprim by by intros [].
  assert (forall x, is_ref x -> scalar_or_list x /\ x <> VUndef) as Hr by by intros [].
  assert (forall x, x = VNull \/ is_ref x -> scalar_or_list x /\ x <> VUndef) as Hn.
  { intros x [->|Hx]; [done|by apply Hr]. }
  assert (prop_of a "status" <> VUndef /\ prop_of a "priority" <> VUndef) as [Hs' Hp'].
  { split; [apply (Hf "status")|apply (Hf "priority")]; apply (bool_decide_eq_true_1 _); reflexivity. }
  split; [|done]. intros k Hk. unfold MR_FIELDS in Hk. rewrite !elem_of_cons, elem_of_nil in Hk.
  unfold mr_remote_value.
  destruct Hk as [->|[->|[->|[->|[->|[->|[->|[]]]]]]]]; cbn; auto.
  - case_bool_decide; [by apply Hprim|]. unfold mr_status.
    edestruct mapRemoteMRState_status as [E|[ref E]]; rewrite E; [by apply Hprim|done].
  - split; [|done]. eapply Forall_impl; [exact Hl|]. by intros [].
  - destruct (ms_priority _); [done|by apply Hprim].
Qed.

Lemma mr_fields_stamp_free : stamp_free MR_FIELDS.
Proof. split; apply (bool_decide_eq_true_1 _); reflexivity. Qed.

(** The update of a mapped document, in terms of its lookups. *)
Lemma mr_update_doc deps ctx binding bctx r s s' m d :
  mr_loads deps binding bctx -> mr_mapped bctx r s = Some m -> issue_at (im_hulyRef m) s = Some d ->
  mr_applyRemote deps ctx binding r s = (Ok tt, s') ->
  exists x v s1 u dirty w review,
    resolveMR bctx r (s.1, x) = (Ok v, s1) /\ wf_mr_view r v /\
    mr_update_of bctx (hd_attrs d) r v = (u, dirty) /\
    match mv_approvedBy v with
    | VUndef => w = VUndef
    | VArr l => exists n, w = approvers_after d (mr_remoteTs r) l (clock n)
    | _ => True
    end /\
    buildReviewFromSyncMR r (mv_reviewers v) w = Ok review /\
    (forall ref, ref <> im_hulyRef m -> issue_at ref s' = issue_at ref s) /\
    issue_at (im_hulyRef m) s' = Some (mr_rewrite (mr_remoteTs r) r u dirty review d) /\
    (newer (local_ts (hd_attrs d)) (mr_remoteTs r) = true -> cursors s'.1 = cursors s.1).
Proof.
  intros Hl Hmap Hd Hr.
  destruct (mr_applyRemote_run _ _ _ _ _ _ _ Hl Hr) as (x & v & s1 & Hv & Hwf & _ & Hrf & _ & Hat & Hend).
  rewrite Hmap in Hend. destruct Hend as (h & Eh & Hend). rewrite Hd in Hend.
  destruct (mr_update_of bctx (hd_attrs d) r v) as [u dirty] eqn:Eu.
  destruct (update_mr_run _ _ _ _ _ _ _ _ _ _ Eu Hend) as (w & review & Hw & Hb & Hdocs & _ & Hcur).
  exists x, v, s1, u, dirty, w, review. do 5 (split; [done|]).
  cbn [fst snd set_huly sy_huly] in Hdocs. rewrite Eh in Hdocs.
  assert (forall ref, issue_at ref s' = option_map (fun d => if decide (ref = im_hulyRef m)
      then mr_rewrite (mr_remoteTs r) r u dirty review d else d) (issue_at ref s)) as Hi.
  { intros ref. rewrite <- Hat. apply issue_at_on_doc; [intros d0; apply mr_rewrite_id..|done]. }
  split_and!.
  - intros ref Hne. rewrite Hi. destruct (issue_at ref s); [|done]. cbn [option_map]. by rewrite decide_False.
  - rewrite Hi, Hd. cbn [option_map]. by rewrite decide_True.
  - intros Hn. rewrite (Hcur Hn). apply Hrf.
Qed.

(** C13: a record of a mapped merge request touches no other issue document.
    When the Huly document was modified strictly later than the record, its
    attributes and the cursors stay as they are; otherwise its seven
    mirrored fields agree with the record afterwards - the status being the
    one the state selects, or the present one for a locked request or a
    project without a match, the priority Low for an open draft and the
    present one otherwise - the modification time is the record's if
    anything changed, and every other attribute is as before. *)
Theorem mr_updated deps ctx binding bctx r s s' m d :
  mr_loads deps binding bctx -> mr_mapped bctx r s = Some m -> issue_at (im_hulyRef m) s = Some d ->
  is_ref (prop_of r "title") -> mr_fields_ok (hd_attrs d) ->
  mr_applyRemote deps ctx binding r s = (Ok tt, s') ->
  exists x v s1 d', resolveMR bctx r (s.1, x) = (Ok v, s1) /\
    (forall ref, ref <> im_hulyRef m -> issue_at ref s' = issue_at ref s) /\
    issue_at (im_hulyRef m) s' = Some d' /\
    if newer (local_ts (hd_attrs d)) (new_Date (prop_of r "updatedAt")) then
      hd_attrs d' = hd_attrs d /\ cursors s'.1 = cursors s.1
    else
      agree MR_FIELDS (local_value (hd_attrs d')) (mr_remote_value bctx (hd_attrs d) r v) /\
      (hd_attrs d' = hd_attrs d \/
       jget "modifiedOn" (hd_attrs d') = Some (getTime (new_Date (prop_of r "updatedAt")))) /\
      forall k, k ∉ MR_FIELDS -> k <> "modifiedOn" -> k <> "_originated" ->
        jget k (hd_attrs d') = jget k (hd_attrs d).
Proof.
  intros Hl Hmap Hd Ht Hf Hr.
  destruct (mr_update_doc _ _ _ _ _ _ _ _ _ Hl Hmap Hd Hr)
    as (x & v & s1 & u & dirty & w & review & Hv & Hwf & Hu & _ & _ & Ho & Hd' & Hcur).
  pose proof (mr_good_values bctx _ _ _ Hf Hwf Ht) as Hg.
  eexists x, v, s1, _. split; [done|]. split; [done|]. split; [exact Hd'|].
  destruct (mr_rewrite_id (mr_remoteTs r) r u dirty review d) as (_ & _ & Ea). rewrite Ea.
  unfold mr_update_of in Hu. fold (mr_remoteTs r). destruct (newer _ _) eqn:En.
  - pose proof (lww_update_spec MR_FIELDS _ (mr_remoteTs r) _ (local_ts (hd_attrs d))
      (proj1 Hf) (good_has_fields _ _ Hg)) as Hs.
    rewrite En, Hu in Hs. injection Hs as -> ->. by split; [|apply Hcur].
  - destruct (lww_settles MR_FIELDS _ (mr_remoteTs r) _ (proj1 Hf) Hg mr_fields_stamp_free En)
      as (u' & dirty' & Hu' & Hclean & Hdirty).
    rewrite Hu in Hu'. injection Hu' as <- <-. destruct dirty.
    + destruct (Hdirty eq_refl) as (Hs & _ & Hmod & Hk). split; [exact Hs|]. split; [by right|exact Hk].
    + split; [by apply Hclean|]. split; [by left|done].
Qed.

(** *** Mixin fields *)

Definition core_attrs (d : HulyDoc) : record := default [] (mixin_of MR_CORE_MIXIN d).
Definition review_attrs (d : HulyDoc) : record := default [] (mixin_of MR_REVIEW_MIXIN_DOC d).

Definition or_before (w : jsval) (before : option jsval) : option jsval :=
  match w with VUndef => before | _ => Some w end.

Lemma review_attrs_written review d k :
  jwf review -> k <> "_originated" ->
  jget k (review_attrs (write_review review d)) = or_before (prop_of review k) (jget k (review_attrs d)).
Proof.
  intros Hw Hk. unfold review_attrs. rewrite mixin_of_write_review.
  destruct (decide (review = [])) as [->|Hr]; [by rewrite bool_decide_eq_true_2|].
  rewrite bool_decide_eq_false_2 by done. cbn [default from_option id].
  rewrite field_assign by by apply jwf_marked. rewrite jget_marked, decide_False by done.
  unfold prop_of. by destruct (jget k review) as [[]|].
Qed.

(** What an update that carries the value makes of a field. *)
Definition or_updated (removes : bool) (w : jsval) (before : option jsval) : option jsval :=
  match w with
  | VUndef => if removes then None else before
  | _ => Some w
  end.

Lemma core_attrs_written rm r d k k' :
  (k, k') ∈ CORE_KEYS -> k <> "_originated" ->
  jget k (core_attrs (update_core rm r d)) = or_updated rm (prop_of r k') (jget k (core_attrs d)).
Proof.
  intros Hin Hk. unfold core_attrs. rewrite mixin_of_update_core. cbn [default from_option id].
  rewrite field_change by apply jwf_marked, core_jwf. rewrite jget_marked, decide_False by done.
  rewrite (core_get r k k') by done. by destruct (prop_of r k').
Qed.

Lemma core_attrs_kept rm r d k :
  k ∉ map fst CORE_KEYS -> k <> "_originated" ->
  jget k (core_attrs (update_core rm r d)) = jget k (core_attrs d).
Proof.
  intros Hin Hk. unfold core_attrs. rewrite mixin_of_update_core. cbn [default from_option id].
  rewrite field_change by apply jwf_marked, core_jwf. rewrite jget_marked, decide_False by done.
  by rewrite core_get_none.
Qed.

Lemma mr_rewrite_mixins rt r u dirty review d :
  core_attrs (mr_rewrite rt r u dirty review d) = core_attrs (update_core (undefined_removes HU) r d) /\
  review_attrs (mr_rewrite rt r u dirty review d) = review_attrs (write_review review d) /\
  forall mixin, mixin <> MR_CORE_MIXIN -> mixin <> MR_REVIEW_MIXIN_DOC ->
    mixin_of mixin (mr_rewrite rt r u dirty review d) = mixin_of mixin d.
Proof.
  unfold mr_rewrite, core_attrs, review_attrs. split_and!.
  - rewrite mixin_of_write_review_ne by done. by destruct dirty.
  - rewrite !mixin_of_write_review, mixin_of_update_core_ne by done. by destruct dirty.
  - intros mixin Hc Hr. rewrite mixin_of_write_review_ne, mixin_of_update_core_ne by done. by destruct dirty.
Qed.

Lemma prop_of_defined (m : record) k w : jget k m = defined w -> prop_of m k = w.
Proof. unfold prop_of. intros ->. by destruct w. Qed.

(** C14: field ownership: applying a record to a mapped merge request writes
    of its mixins only the eight core fields and the fetched review fields.
    A core field is the record's; when the record does not have it, it is
    gone on a platform that takes [undefined] attributes away and otherwise
    what it was before.  A copied review field is the record's, or what it
    was before when the record does not have it; the reviewers likewise; the approvers
    are the fetched ones, or those Huly knows when they are more and an
    approval may be under way; every other mixin (the pipeline status), every
    other field of the two mixins (the parent epic) is as before. *)
Theorem mr_mixins_owned deps ctx binding bctx r s s' m d :
  mr_loads deps binding bctx -> mr_mapped bctx r s = Some m -> issue_at (im_hulyRef m) s = Some d ->
  mr_applyRemote deps ctx binding r s = (Ok tt, s') ->
  exists x v s1 d', resolveMR bctx r (s.1, x) = (Ok v, s1) /\ issue_at (im_hulyRef m) s' = Some d' /\
    (forall mixin, mixin <> MR_CORE_MIXIN -> mixin <> MR_REVIEW_MIXIN_DOC ->
       mixin_of mixin d' = mixin_of mixin d) /\
    (forall k k', (k, k') ∈ CORE_KEYS ->
       jget k (core_attrs d') = or_updated (undefined_removes HU) (prop_of r k') (jget k (core_attrs d))) /\
    (forall k, k ∉ map fst CORE_KEYS -> k <> "_originated" ->
       jget k (core_attrs d') = jget k (core_attrs d)) /\
    (forall k, k ∈ COPIED_KEYS ->
       jget k (review_attrs d') = or_before (prop_of r k) (jget k (review_attrs d))) /\
    (forall k, k ∉ "reviewers" :: "approvedBy" :: "approvalStatus" :: COPIED_KEYS -> k <> "_originated" ->
       jget k (review_attrs d') = jget k (review_attrs d)) /\
    jget "reviewers" (review_attrs d') = or_before (mv_reviewers v) (jget "reviewers" (review_attrs d)) /\
    match mv_approvedBy v with
    | VArr l => exists n, jget "approvedBy" (review_attrs d') =
                  Some (approvers_after d (new_Date (prop_of r "updatedAt")) l (clock n))
    | _ => jget "approvedBy" (review_attrs d') = jget "approvedBy" (review_attrs d)
    end.
Proof.
  intros Hl Hmap Hd Hr.
  destruct (mr_update_doc _ _ _ _ _ _ _ _ _ Hl Hmap Hd Hr)
    as (x & v & s1 & u & dirty & w & review & Hv & Hwf & _ & Hw & Hb & _ & Hd' & _).
  pose proof (buildReview_jwf _ _ _ _ Hb) as Hwr.
  destruct (buildReview_get _ _ _ _ Hb) as (Er & Ea & _ & Ec & En).
  destruct (mr_rewrite_mixins (mr_remoteTs r) r u dirty review d) as (Mc & Mr & Mo).
  eexists x, v, s1, _. split; [done|]. split; [exact Hd'|]. split; [exact Mo|]. rewrite Mc, Mr.
  assert (forall k, k ∈ map fst CORE_KEYS -> k <> "_originated") as Hko.
  { intros k Hk ->. revert Hk. apply (bool_decide_eq_true_1 _). reflexivity. }
  split_and!.
  - intros k k' Hk. pose proof (list_elem_of_fmap_2 fst _ _ Hk) as Hin.
    by apply core_attrs_written; [|apply Hko].
  - intros k Hk Ho. by apply core_attrs_kept.
  - intros k Hk. rewrite review_attrs_written; [|done|].
    + f_equal. by apply prop_of_defined, Ec.
    + intros ->. revert Hk. apply (bool_decide_eq_true_1 _). reflexivity.
  - intros k Hk Ho. rewrite review_attrs_written by done. unfold prop_of. by rewrite En.
  - rewrite review_attrs_written by done. f_equal. unfold prop_of. rewrite Er. unfold fetched.
    destruct (wm_reviewers _ _ Hwf) as [[-> ->]|[Hs (l & -> & _)]]; [done|]. by destruct (prop_of r _).
  - assert (prop_of review "approvedBy" = match fetched r "approvedBy" w with Some z => z | None => VUndef end)
      as Eq by by unfold prop_of; rewrite Ea; destruct (fetched _ _ _).
    rewrite review_attrs_written, Eq by done. unfold fetched.
    destruct (wm_approvedBy _ _ Hwf) as [[-> Hu]|[Hs (l & Hu & _)]]; rewrite Hu in *; [done|].
    destruct Hw as [n ->]. exists n. fold (mr_remoteTs r).
    assert (is_defined (prop_of r "approvedBy") = true) as -> by by destruct (prop_of r _).
    unfold approvers_after. destruct (more_than _ _ && _); [|done].
    pose proof (known_approvers_defined d) as Hk.
    by destruct (known_approvers d).
Qed.
End Remote.
