(* ===== verification/MergeRequestsLocal.v ===== *)
(** * Pushing Huly changes of merge requests to GitLab

    What [mr_applyLocal] sends - never a creation, at most one update, and
    one approval call per person who joined or left the approvers - and the
    records and hook bodies [mr_applyRemote] cannot handle. *)

From S2P Require Import Prelude JsMap JsString JsVal Metrics Platform Conflict Mongo Store Ids.
From S2P Require Import StatusMap Huly Caches Queue Breaker Engine Sync TxSubscriber FieldSync Issues.
From S2P Require Import MergeRequests IssuesProofs IssuesLocal MergeRequestsProofs MergeRequestsRemote.
Open Scope nat_scope.
Open Scope string_scope.
Open Scope list_scope.

(** ** The update body *)

(** The body pushes the fields that the change sets, and nothing else; a
    status is pushed as the event its category selects, if there is one. *)
Record mr_pushes (statuses : list Status) (change body : record) : Prop := {
  mp_title : jget "title" body = defined (prop_of change "title");
  mp_assignees : jget "assignee_ids" body = defined (prop_of change "assigneeIds");
  mp_target : jget "target_branch" body = defined (prop_of change "targetBranch");
  mp_description : jget "description" body = None <-> prop_of change "description" = VUndef;
  mp_state : jget "state_event" body =
    match prop_of change "status" with
    | VUndef => None
    | st => match mapHulyStatusToMRStateEvent st statuses with
            | Some SeClose => Some (VStr "close")
            | Some SeReopen => Some (VStr "reopen")
            | None => None
            end
    end;
  mp_only : forall k,
    k ∉ ["title"; "assignee_ids"; "description"; "state_event"; "target_branch"] -> jget k body = None
}.

Lemma mr_body_pushes statuses change de :
  (de = None <-> prop_of change "description" = VUndef) ->
  mr_pushes statuses change
    (mr_body (defined (prop_of change "title")) de None None (defined (prop_of change "assigneeIds"))
       (if is_defined (prop_of change "status")
        then mapHulyStatusToMRStateEvent (prop_of change "status") statuses else None)
       (defined (prop_of change "targetBranch"))).
Proof.
  intros Hd. split; unfold mr_body; cbn [option_map]; try (with_prop_get; fail).
  - rewrite <- Hd. match goal with |- ?x = None <-> _ => assert (x = de) as ->; [with_prop_get|reflexivity] end.
  - etransitivity; [with_prop_get|]. destruct (prop_of change "status"); cbn [is_defined option_map];
      try done; by destruct (mapHulyStatusToMRStateEvent _ _) as [[]|].
  - intros k Hk. rewrite !not_elem_of_cons in Hk. destruct Hk as (? & ? & ? & ? & ? & _).
    change (with_prop "labels" None) with (fun b : record => b).
    change (with_prop "milestone_id" None) with (fun b : record => b). cbv beta.
    repeat (rewrite jget_with_prop_ne; [|congruence]). done.
Qed.

(** ** Approval actions *)

Section Local.
Context {Coll : Type -> Type} `{HL : MongoLaws Coll} {P : Platform} `{Sha256} `{Markdown} `{FastEquals}.
Context {HU GL AC : Type} `{HHL : HulyLaws HU} `{MRGitLabClient GL} `{LabelGitLabClient GL}
  `{MilestoneGitLabClient GL} `{AccountClient AC}.
Abbreviation X := (SyncState HU GL AC).
Implicit Types (deps : MergeRequestsSyncManagerDeps (Coll := Coll) (HU := HU) (GL := GL) (AC := AC))
  (s : Store Coll * X).

(** The credential lookup answers [tok] and leaves the rest alone. *)
Definition tokens_answer deps (tok : string -> jsval -> option string) : Prop :=
  forall w p s, exists x, mr_credentials deps w p s = (Ok (tok w p), (s.1, x)) /\
    sy_gitlab x = sy_gitlab s.2 /\ docs (sy_huly x) = docs (sy_huly s.2).

Definition gitlab_call (pid iid : Z) (token : option string) (kind : ApprovalKind) : M GL unit :=
  match kind with AkApprove => approveMR pid iid token | AkUnapprove => unapproveMR pid iid token end.

(** GitLab received exactly these approval calls, in this order, each one
    accepted or refused with the error that is reported and dropped. *)
Inductive approval_calls (pid iid : Z) (tok : jsval -> option string)
    : list (ApprovalKind * jsval) -> GL -> GL -> Prop :=
  | calls_nil g : approval_calls pid iid tok [] g g
  | calls_cons kind p rest g r g1 g2 :
      gitlab_call pid iid (tok p) kind g = (r, g1) ->
      (r = Ok tt \/ exists msg, r = Throw (ApprovalActionError msg)) ->
      approval_calls pid iid tok rest g1 g2 ->
      approval_calls pid iid tok ((kind, p) :: rest) g g2.

Lemma approval_calls_app pid iid tok l1 l2 g g1 g2 :
  approval_calls pid iid tok l1 g g1 -> approval_calls pid iid tok l2 g1 g2 ->
  approval_calls pid iid tok (l1 ++ l2) g g2.
Proof. induction 1; intros Hl; [done|]. cbn [app]. econstructor; eauto. Qed.

(** Comments reach Huly only, and never fail. *)
Lemma post_comment_run bctx ref body s :
  exists x, post_comment bctx ref body s = (Ok tt, (s.1, x)) /\ sy_gitlab x = sy_gitlab s.2.
Proof.
  unfold post_comment, try_catch, bind, on_huly, on_state, zoom.
  destruct (createDoc _ _ _ _) as [[r|e] h]; by eexists.
Qed.

Lemma approval_call_run bctx iid token kind s r s' :
  approval_call bctx iid token kind s = (r, s') ->
  gitlab_call (bx_gitlabProjectId bctx) iid token kind (sy_gitlab s.2) = (r, sy_gitlab s'.2) /\ s'.1 = s.1.
Proof.
  unfold approval_call, gitlab_call, on_gitlab, on_state, zoom.
  destruct kind; [destruct (approveMR _ _ _ _)|destruct (unapproveMR _ _ _ _)]; by intros [= <- <-].
Qed.

Lemma invokeApprovalAction_run deps tok bctx ref iid p kind s s' :
  tokens_answer deps tok -> invokeApprovalAction deps bctx ref iid p kind s = (Ok tt, s') ->
  approval_calls (bx_gitlabProjectId bctx) iid (tok (bx_workspaceUuid bctx)) [(kind, p)]
    (sy_gitlab s.2) (sy_gitlab s'.2) /\ s'.1 = s.1.
Proof.
  intros Ht. destruct (Ht (bx_workspaceUuid bctx) p s) as (x & Ex & Eg & _).
  unfold invokeApprovalAction. rewrite (bind_ok _ _ _ _ _ Ex).
  set (token := tok _ p). set (fallback := match token with None => true | Some _ => false end).
  intros ([] & s1 & Hc & Hr)%bind_inv_ok.
  assert (s1.1 = s.1 /\ sy_gitlab s1.2 = sy_gitlab s.2) as [E1 E2].
  { destruct fallback; cbn [when] in Hc; by injection Hc as <-. }
  apply bind_inv_ok in Hr as (don & s2 & Hcall & Hr). unfold try_catch, bind in Hcall.
  destruct (approval_call bctx iid token kind s1) as [r s3] eqn:Ec.
  apply approval_call_run in Ec as [Ec E3]. rewrite E2 in Ec.
  assert ((r = Ok tt \/ exists msg, r = Throw (ApprovalActionError msg)) /\
    s2.1 = s3.1 /\ sy_gitlab s2.2 = sy_gitlab s3.2) as (Hout & E4 & E5).
  { destruct r as [[]|[]]; try done; [injection Hcall as <- <-; split; [by left|done]|].
    split; [right; by eexists|].
    destruct (post_comment_run bctx ref ((match kind with AkApprove => "Approval" | AkUnapprove => "Unapproval" end)
      +:+ " failed — see logs for details") s3) as (x3 & Ep & Eg3).
    unfold postFailureComment in Hcall. rewrite Ep in Hcall. by injection Hcall as <- <-. }
  assert (s'.1 = s2.1 /\ sy_gitlab s'.2 = sy_gitlab s2.2) as (E6 & E7).
  { destruct (don && fallback); cbn [when] in Hr; [|by injection Hr as <-].
    unfold postVisibilityComment in Hr. edestruct post_comment_run as (x3 & Ep & Eg3).
    rewrite Ep in Hr. by injection Hr as <-. }
  rewrite E6, E4, E3, E1, E7, E5. split; [|done]. econstructor; [exact Ec|exact Hout|constructor].
Qed.

Lemma approvals_loop deps tok bctx ref iid kind people s s' :
  tokens_answer deps tok ->
  forM_ people (fun p => invokeApprovalAction deps bctx ref iid p kind) s = (Ok tt, s') ->
  approval_calls (bx_gitlabProjectId bctx) iid (tok (bx_workspaceUuid bctx)) (map (pair kind) people)
    (sy_gitlab s.2) (sy_gitlab s'.2) /\ s'.1 = s.1.
Proof.
  intros Ht. revert s. induction people as [|p people IH]; intros s; cbn [forM_ map].
  - intros [= <-]. split; [constructor|done].
  - intros ([] & s1 & Hp & Hr)%bind_inv_ok.
    apply (invokeApprovalAction_run _ tok) in Hp as [Hp E1]; [|done]. apply IH in Hr as [Hr E2].
    rewrite E2, E1. split; [|done]. by apply (approval_calls_app _ _ _ [_] _ _ _ _ Hp).
Qed.

(** The people of [l] that are not, as strings, in [other]. *)
Definition only_in (l other people : list jsval) : Prop :=
  sublist people l /\ forall u, u ∈ people <-> u ∈ l /\ js_String u ∉ map js_String other.

Lemma missing_from_spec other l : only_in l other (missing_from other l).
Proof.
  split.
  - unfold missing_from. cbn zeta. generalize (fun u => negb (bool_decide (js_String u ∈ map js_String other))).
    intros f. induction l as [|x l IH]; [constructor|]. cbn [List.filter].
    destruct (f x); by constructor.
  - intros u. unfold missing_from. rewrite list_elem_of_In, filter_In, <- list_elem_of_In.
    by rewrite negb_true_iff, bool_decide_eq_false.
Qed.

(** A changed approver list is pushed as its difference to the approvers
    the review mixin holds: GitLab receives one approve call for each person
    who joined, in the list's order, then one unapprove call for each person
    who left, each with that person's token or none, and nothing else; a
    refused action does not stop the ones after it. *)
Lemma approvals_pushed deps tok bctx ref iid incoming s s' :
  tokens_answer deps tok ->
  applyApprovalActions deps bctx ref iid incoming s = (Ok tt, s') ->
  exists now new added removed,
    js_coalesce (prop_of (readMRMixinAttributes (issue_at ref s) None) "approvedBy") (VArr []) = VArr now /\
    incoming = VArr new /\ only_in new now added /\ only_in now new removed /\
    approval_calls (bx_gitlabProjectId bctx) iid (tok (bx_workspaceUuid bctx))
      (map (pair AkApprove) added ++ map (pair AkUnapprove) removed)
      (sy_gitlab s.2) (sy_gitlab s'.2) /\ s'.1 = s.1.
Proof.
  intros Ht Hr. apply find_issue_run in Hr as (h & Eh & Hr).
  set (w := js_coalesce _ _) in *. apply bind_inv_ok in Hr as (now & s1 & Hnow & Hr).
  apply bind_inv_ok in Hr as (new & s2 & Hnew & Hr).
  destruct w as [| | | | | | |l|]; try done. injection Hnow as <- <-.
  destruct incoming as [| | | | | | |l'|]; try done. injection Hnew as <- <-.
  exists l, l', (missing_from l l'), (missing_from l' l).
  apply bind_inv_ok in Hr as ([] & s3 & Ha & Hb).
  apply (approvals_loop _ tok) in Ha as [Ha E1]; [|done]. apply (approvals_loop _ tok) in Hb as [Hb E2]; [|done].
  split_and!; try done; [apply missing_from_spec..| |].
  - by eapply approval_calls_app.
  - by rewrite E2, E1.
Qed.

(** ** applyLocal *)

(** The approval part of a push: no call without a new list, and else the
    difference between the approvers of the document and that list. *)
Definition approvals_done (tok : jsval -> option string) (bctx : BindingContext) (d : option HulyDoc)
    (iid : Z) (approvedBy : jsval) (g g' : GL) : Prop :=
  if bool_decide (approvedBy = VUndef) then g' = g
  else exists now new added removed,
    js_coalesce (prop_of (readMRMixinAttributes d None) "approvedBy") (VArr []) = VArr now /\
    approvedBy = VArr new /\ only_in new now added /\ only_in now new removed /\
    approval_calls (bx_gitlabProjectId bctx) iid tok
      (map (pair AkApprove) added ++ map (pair AkUnapprove) removed) g g'.

(** C38: a change of a Huly document that sets neither labels nor milestone
    never creates a merge request: without a mapping GitLab and the store are
    left alone.  Of a mapped document it updates the request whose iid ends
    the id-map key, once, with a body that holds exactly the pushed fields the
    change sets, unless there are none; then a changed approver list is
    pushed as its difference to the approvers the document has - one approve
    call for each person who joined, in the list's order, then one unapprove
    call for each person who left, each with that person's token or none, a
    refused call not stopping the ones after it. *)
Theorem mr_local_pushed deps tok ctx binding bctx doc change s s' :
  mr_loads deps binding bctx -> tokens_answer deps tok ->
  prop_of change "labels" = VUndef ->
  prop_of change "milestone" = VUndef \/ prop_of change "milestone" = VNull ->
  mr_applyLocal deps ctx binding doc change s = (Ok tt, s') ->
  match huly_mapping bctx doc s with
  | None => same_outside s s'
  | Some m =>
      match parseIid (im_gitlabId m) with
      | None => same_outside s s'
      | Some iid =>
          exists body g, mr_pushes (bx_statuses bctx) change body /\
            (if bool_decide (body = []) then g = sy_gitlab s.2
             else exists r, updateMergeRequest (bx_gitlabProjectId bctx) iid body (sy_gitlab s.2) = (Ok r, g)) /\
            approvals_done (tok (bx_workspaceUuid bctx)) bctx (issue_at (stripDocPrefix doc) s) iid
              (prop_of change "approvedBy") g (sy_gitlab s'.2) /\
            idmap s'.1 = idmap s.1
      end
  end.
Proof.
  intros Hl Ht Hlab Hmil Hr. destruct (Hl s) as (x & El & Hdx & _ & _ & _ & _ & Hg).
  unfold mr_applyLocal in Hr. rewrite (bind_ok _ _ _ _ _ El) in Hr.
  unfold bind at 1, on_db, zoom, findByHuly, gets in Hr. cbn [fst snd] in Hr.
  unfold huly_mapping. destruct (findOne _ (idmap s.1)) as [m|]; [|by injection Hr as <-].
  destruct (parseIid (im_gitlabId m)) as [iid|]; [|by injection Hr as <-].
  rewrite Hlab in Hr. cbn [if_defined] in Hr. unfold bind at 1, ret at 1 in Hr.
  assert (local_milestone_id (Coll := Coll) (HU := HU) (GL := GL) (AC := AC) bctx (prop_of change "milestone")
    = ret None) as Emi by by destruct Hmil as [-> | ->].
  rewrite Emi in Hr. unfold bind at 1, ret at 1 in Hr.
  apply bind_inv_ok in Hr as (de & s1 & Hde & Hr).
  assert (s1 = (s.1, x) /\ (de = None <-> prop_of change "description" = VUndef)) as [-> Hdn].
  { unfold if_defined in Hde. destruct (prop_of change "description"); [by injection Hde as <- <-|..];
      (apply bind_inv_ok in Hde as (y & s2 & (tx & s3 & [= _ <-] & [= <- <-])%bind_inv_ok & [= <- <-]); done). }
  set (body := mr_body _ _ _ _ _ _ _) in Hr.
  apply bind_inv_ok in Hr as ([] & s2 & Hup & Hr). apply bind_inv_ok in Hr as ([] & s3 & Hap & Hr).
  exists body, (sy_gitlab s2.2). split; [by apply mr_body_pushes|].
  assert ((if bool_decide (body = []) then sy_gitlab s2.2 = sy_gitlab s.2
     else exists r, updateMergeRequest (bx_gitlabProjectId bctx) iid body (sy_gitlab s.2) = (Ok r, sy_gitlab s2.2)) /\
    s2.1 = s.1 /\ docs (sy_huly s2.2) = docs (sy_huly s.2)) as (Hbody & E1 & Ed).
  { destruct (decide (body = [])) as [Eb|Eb].
    - rewrite (bool_decide_eq_true_2 (body = [])) in Hup by done. injection Hup as <-.
      by rewrite bool_decide_eq_true_2.
    - rewrite (bool_decide_eq_false_2 (body = [])) in Hup by done. cbn [negb when] in Hup.
      apply bind_inv_ok in Hup as (u & s4 & Hu & [= <-]). rewrite bool_decide_eq_false_2 by done.
      assert (docs (sy_huly s4.2) = docs (sy_huly x)) as Edu.
      { unfold on_gitlab, on_state, zoom in Hu. destruct (updateMergeRequest _ _ _ _). by injection Hu as _ <-. }
      apply gitlab_run in Hu as (Hu & E1). cbn [snd] in Hu. rewrite Hg in Hu.
      rewrite Edu, Hdx. eauto. }
  split; [exact Hbody|].
  assert (sy_gitlab s'.2 = sy_gitlab s3.2 /\ idmap s'.1 = idmap s3.1) as [E4 E5].
  { destruct (_ || _); [|by injection Hr as <-]. by apply touch_cursor in Hr as (-> & -> & _). }
  rewrite E4, E5. unfold approvals_done.
  destruct (decide (prop_of change "approvedBy" = VUndef)) as [Ea|Ea].
  - rewrite bool_decide_eq_true_2 by done. rewrite Ea in Hap. injection Hap as <-. by rewrite E1.
  - rewrite bool_decide_eq_false_2 by done.
    assert (is_defined (prop_of change "approvedBy") = true) as Eda by by destruct (prop_of change "approvedBy").
    rewrite Eda in Hap. cbn [when] in Hap. eapply approvals_pushed in Hap; [|done].
    destruct Hap as (now & new & added & removed & H1' & H2' & H3' & H4' & H5' & E6).
    rewrite E6, E1. split; [|done]. exists now, new, added, removed. split_and!; try done.
    unfold issue_at in *. by rewrite Ed in H1'.
Qed.

(** a merge-request hook carries the request below [object_attributes] and
    has no top-level milestone: on any record without that property
    applyRemote throws, whatever else the record, the store and the clients
    hold. *)
Theorem mr_hook_body_never_applied deps ctx binding r :
  jget "milestone" r = None -> never_ok (mr_applyRemote deps ctx binding r).
Proof.
  intros Hm. apply never_ok_then. intros bctx. apply never_ok_then. intros existing.
  apply never_ok_first. do 5 (apply never_ok_then; intros ?). apply never_ok_first.
  unfold prop_of. rewrite Hm. cbn [default from_option id mr_resolveMilestone]. apply never_ok_first.
  apply never_ok_throw.
Qed.
End Local.
