(* ===== verification/IssuesReplay.v ===== *)
(** * Redelivery of an issue record

    The engine retries and the webhook source redelivers, so the same record
    can reach [applyRemote] twice.  A second application resolves to the same
    view - the same assignee, tags, milestone and status - and changes no
    workspace document and no id-map row. *)

From stdpp Require Import relations.
From S2P Require Import Prelude JsMap JsString JsVal Metrics Platform Conflict Mongo Store Ids.
From S2P Require Import StatusMap Huly Caches Queue Breaker Engine Sync TxSubscriber FieldSync Issues.
From S2P Require Import IssuesProofs.
Open Scope nat_scope.
Open Scope string_scope.
Open Scope list_scope.

Section Replay.
Context {Coll : Type -> Type} `{HL : MongoLaws Coll} {P : Platform} `{Sha256} `{Markdown} `{FastEquals}.
Context {HU GL AC : Type} `{HHL : HulyLaws HU} `{IssueGitLabClient GL} `{LabelGitLabClient GL}
  `{MilestoneGitLabClient GL} `{AccountClient AC}.
Abbreviation X := (SyncState HU GL AC).
Abbreviation World := (Store Coll * X)%type.
Implicit Types (deps : IssuesSyncManagerDeps (Coll := Coll) (HU := HU) (GL := GL) (AC := AC))
  (s t : World) (x : X).

(** ** Computations that do not touch the state *)

Definition stateless {A} (m : M World A) : Prop := exists r, forall s, m s = (r, s).

Lemma stateless_ret {A} (a : A) : stateless (ret a).
Proof. by exists (Ok a). Qed.

Lemma stateless_get_prop w k : stateless (get_prop w k).
Proof. unfold get_prop. destruct (js_get w k); [apply stateless_ret|by exists (Throw (JsError "TypeError"))]. Qed.

Lemma stateless_iterate w : stateless (iterate w).
Proof. unfold iterate. destruct (js_iter w); [apply stateless_ret|by exists (Throw (JsError "TypeError"))]. Qed.

Lemma stateless_lift {A} (r : res A) : stateless (lift_res r).
Proof. by exists r. Qed.

Lemma stateless_bind {A B} (m : M World A) (k : A -> M World B) :
  stateless m -> (forall a, stateless (k a)) -> stateless (bind m k).
Proof.
  intros [[a|e] Hm] Hk.
  - destruct (Hk a) as [r Hr]. exists r. intros s. unfold bind. by rewrite Hm.
  - exists (Throw e). intros s. unfold bind. by rewrite Hm.
Qed.

Lemma stateless_run {A} (m : M World A) s a s' : stateless m -> m s = (Ok a, s') -> s' = s /\ forall t, m t = (Ok a, t).
Proof. intros [r Hr] E. rewrite Hr in E. injection E as -> ->. by split. Qed.

Lemma stateless_identity w : stateless (identity_of w).
Proof.
  unfold identity_of. repeat (apply stateless_bind; [apply stateless_get_prop|intros]). apply stateless_ret.
Qed.

(** ** Identities *)

Section Users.
Context (person : string -> option string).

(** The account service answers, the same for a key whenever it is asked. *)
Definition accounts_answer : Prop :=
  forall k a, exists a', findPersonBySocialKey k a = (Ok (person k), a').

(** The user cache holds answers of the service. *)
Definition users_sound x : Prop :=
  forall k c, jget k (sy_users x) = Some c -> ce_value c = person k.

(** Only the user cache, the account client and the clock readings differ. *)
Record users_only x x' : Prop := {
  uo_huly : sy_huly x' = sy_huly x;
  uo_gitlab : sy_gitlab x' = sy_gitlab x;
  uo_labels : sy_labels x' = sy_labels x;
  uo_milestones : sy_milestones x' = sy_milestones x;
  uo_statuses : sy_statuses x' = sy_statuses x
}.

#[local] Instance users_only_trans : Transitive users_only.
Proof. intros x y z [] []. split; congruence. Qed.

Context (Hans : accounts_answer).

Lemma lookupCached_run key s :
  users_sound s.2 ->
  exists x, lookupCached key s = (Ok (person key), (s.1, x)) /\ users_only s.2 x /\ users_sound x.
Proof.
  intros Hs. unfold lookupCached, bind at 1, date_now. unfold bind at 1, gets. cbn [fst snd set_readings sy_users].
  destruct (Hans key (sy_accounts s.2)) as (a' & Ea).
  set (fetch := bind _ _). set (s0 := (s.1, _) : World).
  assert (exists x, fetch s0 = (Ok (person key), (s.1, x)) /\ users_only s.2 x /\ users_sound x) as Hf.
  { unfold fetch, bind at 1, on_accounts, on_state, zoom, s0.
    cbn [fst snd set_readings sy_accounts]. rewrite Ea. unfold bind, modify, ret. cbn [fst snd].
    eexists. split; [reflexivity|]. split; [by split|].
    intros k c. cbn [set_users sy_users set_accounts set_readings]. rewrite jget_set.
    case_decide as Hk; [|by apply Hs]. intros [= <-]. by subst. }
  destruct (jget key (sy_users s.2)) as [c|] eqn:Ec; [|exact Hf].
  destruct (_ <? _)%Z; [|exact Hf]. unfold ret, s0. rewrite (Hs _ _ Ec).
  eexists. split; [reflexivity|]. split; [by split|]. done.
Qed.

(** A lookup that answered answers the same from any later state. *)
Lemma mapByGitlabUser_replay u s p s' t :
  users_sound s.2 -> mapByGitlabUser u s = (Ok p, s') -> users_sound t.2 ->
  exists x, mapByGitlabUser u t = (Ok p, (t.1, x)) /\ users_only t.2 x /\ users_sound x.
Proof.
  intros Hs Hr Ht. unfold mapByGitlabUser in *.
  destruct (lookupCached_run (SOCIAL_KEY_GITLAB (iu_gitlabId u)) s Hs) as (x1 & E1 & _ & S1).
  destruct (lookupCached_run (SOCIAL_KEY_GITLAB (iu_gitlabId u)) t Ht) as (y1 & F1 & U1 & T1).
  rewrite (bind_ok _ _ _ _ _ E1) in Hr. rewrite (bind_ok _ _ _ _ _ F1).
  destruct (person _) as [q|]; [injection Hr as <- _; by exists y1|].
  destruct (iu_email u) as [| | | | |e| | |] eqn:Ee; try done; [injection Hr as <- _; by exists y1|].
  cbn [mapByEmail] in *.
  destruct (lookupCached_run (SOCIAL_KEY_EMAIL e) (s.1, x1) S1) as (x2 & E2 & _ & _).
  destruct (lookupCached_run (SOCIAL_KEY_EMAIL e) (t.1, y1) T1) as (y2 & F2 & U2 & T2).
  rewrite E2 in Hr. injection Hr as <- _. exists y2. rewrite F2. split_and!; [done|by etransitivity|done].
Qed.

Definition user_row w g (s : World) : option IdMapDoc := findOne (by_gitlab w KUser g) (idmap s.1).

Lemma ensureStubGuest_row w u s ref s' :
  ensureStubGuest w u s = (Ok ref, s') ->
  s'.2 = s.2 /\ exists row, user_row w (iu_gitlabId u) s' = Some row /\ im_hulyRef row = ref.
Proof.
  unfold ensureStubGuest, getIdMap, on_db, zoom, findByGitlab, gets, bind at 1 2, ret, user_row.
  destruct s as [st x]. cbn [fst snd].
  destruct (findOne _ (idmap st)) as [row|] eqn:Ef; cbn [option_map].
  - intros [= <- <-]. split; [done|]. exists row. by split; [exact Ef|].
  - intros ([] & s1 & Hp & [= <- <-])%bind_inv_ok.
    unfold putIdMap, on_db, zoom, upsertIdMap, dup_key_or in Hp. cbn [fst snd] in Hp.
    destruct (upsertOne _ _ _ _) as [col|] eqn:Eu; cbn [modify throw] in Hp; [|done].
    injection Hp as <-. cbn [fst snd idmap set_idmap]. split; [done|].
    refine (ex_intro _ (MkIdMapDoc w KUser (iu_gitlabId u) HULY_CLASS_PERSON _) (conj _ eq_refl)).
    eapply upsertOne_find_new; [exact Eu| |by apply by_gitlab_spec].
    intros y Hy. rewrite conflicts_by. cbn [im_workspaceUuid im_gitlabKind im_gitlabId]. by rewrite Hy.
Qed.

Lemma ensureStubGuest_hit w u t row :
  user_row w (iu_gitlabId u) t = Some row -> ensureStubGuest w u t = (Ok (im_hulyRef row), t).
Proof.
  unfold ensureStubGuest, getIdMap, on_db, zoom, findByGitlab, gets, bind, ret, user_row.
  intros E. destruct t. cbn [fst snd] in *. by rewrite E.
Qed.

Lemma mapByGitlabUser_run u s p s' :
  users_sound s.2 -> mapByGitlabUser u s = (Ok p, s') ->
  s'.1 = s.1 /\ users_only s.2 s'.2 /\ users_sound s'.2.
Proof.
  intros Hs Hr. destruct (mapByGitlabUser_replay _ _ _ _ _ Hs Hr Hs) as (x & E & U & S).
  rewrite E in Hr. by injection Hr as <-.
Qed.

(** The stub users recorded in one store are recorded in another. *)
Definition users_kept w s t : Prop := forall g row, user_row w g s = Some row -> user_row w g t = Some row.

Lemma resolveAssignee_replay bctx w s a s' :
  users_sound s.2 -> resolveAssignee bctx w s = (Ok a, s') ->
  users_only s.2 s'.2 /\ users_sound s'.2 /\
  forall t, users_sound t.2 -> users_kept (bx_workspaceUuid bctx) s' t ->
    exists x, resolveAssignee bctx w t = (Ok a, (t.1, x)) /\ users_only t.2 x /\ users_sound x.
Proof.
  intros Hs Hr. unfold resolveAssignee in *.
  apply bind_inv_ok in Hr as (len & s0 & Hlen & Hr).
  apply stateless_run in Hlen as [-> Hlen]; [|apply stateless_get_prop].
  setoid_rewrite (bind_ok _ _ _ _ _ (Hlen _)).
  case_bool_decide as Hn.
  { injection Hr as <- <-. split_and!; [by split|done|]. intros t Ht _. exists t.2.
    destruct t. by repeat split. }
  apply bind_inv_ok in Hr as (u & s1 & Hu & Hr).
  apply stateless_run in Hu as [-> Hu]; [|apply stateless_identity].
  apply bind_inv_ok in Hr as (p & s2 & Hp & Hr).
  destruct (mapByGitlabUser_run _ _ _ _ Hs Hp) as (_ & U & S).
  assert (forall t, users_sound t.2 -> exists x, mapByGitlabUser u t = (Ok p, (t.1, x)) /\
    users_only t.2 x /\ users_sound x) as Hrep.
  { intros t Ht. exact (mapByGitlabUser_replay _ _ _ _ t Hs Hp Ht). }
  destruct p as [p|].
  - injection Hr as <- <-. split_and!; [done|done|]. intros t Ht _.
    destruct (Hrep t Ht) as (x & E & Ux & Sx). exists x.
    by rewrite (bind_ok _ _ _ _ _ (Hu _)), (bind_ok _ _ _ _ _ E).
  - apply bind_inv_ok in Hr as (ref & s3 & Hst & [= <- <-]).
    apply ensureStubGuest_row in Hst as (E2 & row & Hrow & <-).
    rewrite E2. split_and!; [done|done|]. intros t Ht Hk.
    destruct (Hrep t Ht) as (x & E & Ux & Sx). exists x.
    rewrite (bind_ok _ _ _ _ _ (Hu _)), (bind_ok _ _ _ _ _ E).
    unfold bind. rewrite (ensureStubGuest_hit _ _ _ row); [done|].
    by apply Hk.
Qed.
End Users.

(** ** Labels and milestones *)

Definition put_tags (p : LabelCache * HU) x : X := set_labels p.1 (set_huly p.2 x).
Definition put_milestones (p : MilestoneCache * HU) x : X := set_milestones p.1 (set_huly p.2 x).

Definition resolve_names (p : string) (names : list jsval) : M World (list jsval) :=
  mapM_js names (fun name => let! ref := on_label_tags (ensureLocalTag_js p name) in ret (VStr ref)).

Lemma label_loop_cons p n names (c : LabelCache * HU) :
  label_loop p (n :: names) c =
  match ensureLocalTag_js p n c with
  | (Ok r, c1) => match label_loop p names c1 with
                  | (Ok rs, c2) => (Ok (r :: rs), c2)
                  | (Throw e, c2) => (Throw e, c2)
                  end
  | (Throw e, c1) => (Throw e, c1)
  end.
Proof.
  unfold label_loop. cbn [mapM_js]. unfold bind. destruct (ensureLocalTag_js p n c) as [[r|e] c1]; [|done].
  by destruct (mapM_js names _ c1) as [[rs|e] c2].
Qed.

Lemma resolve_names_cons p n names s :
  resolve_names p (n :: names) s =
  match ensureLocalTag_js p n (sy_labels s.2, sy_huly s.2) with
  | (Ok r, c1) => match resolve_names p names (s.1, put_tags c1 s.2) with
                  | (Ok rs, s2) => (Ok (VStr r :: rs), s2)
                  | (Throw e, s2) => (Throw e, s2)
                  end
  | (Throw e, c1) => (Throw e, (s.1, put_tags c1 s.2))
  end.
Proof.
  unfold resolve_names.
  set (f := fun name : jsval => let! ref := on_label_tags (ensureLocalTag_js p name) in ret (VStr ref)).
  cbn [mapM_js].
  assert (forall name s, f name s = match ensureLocalTag_js p name (sy_labels s.2, sy_huly s.2) with
    | (Ok r, c1) => (Ok (VStr r), (s.1, put_tags c1 s.2))
    | (Throw e, c1) => (Throw e, (s.1, put_tags c1 s.2))
    end) as Hf.
  { intros name s0. unfold f, bind, on_label_tags, on_state, zoom.
    by destruct (ensureLocalTag_js p name _) as [[r|e] c1]. }
  unfold bind. rewrite Hf. destruct (ensureLocalTag_js p n _) as [[r|e] c1]; [|done].
  by destruct (mapM_js names f (s.1, put_tags c1 s.2)) as [[rs|e] s2].
Qed.

(** Resolving a label list in the world is [label_loop] on its cache and
    client. *)
Lemma resolve_names_loop p names s :
  resolve_names p names s =
  (match (label_loop p names (sy_labels s.2, sy_huly s.2)).1 with
   | Ok refs => Ok (map VStr refs)
   | Throw e => Throw e
   end, (s.1, put_tags (label_loop p names (sy_labels s.2, sy_huly s.2)).2 s.2)).
Proof.
  revert s. induction names as [|n names IH]; intros s; [by destruct s as [st []]|].
  rewrite resolve_names_cons, label_loop_cons.
  destruct (ensureLocalTag_js p n (sy_labels s.2, sy_huly s.2)) as [[ref|e] [lc h]]; [|done].
  rewrite IH. cbn [fst snd put_tags set_labels set_huly sy_labels sy_huly].
  by destruct (label_loop p names (lc, h)) as [[refs|e] [lc' h']].
Qed.

Definition tags s : list HulyDoc := issue_tags (docs (sy_huly s.2)).

Lemma resolveLabels_replay bctx w s refs s' :
  huly_up HU -> sy_labels s.2 = new_label_cache ->
  resolveLocalLabels bctx w s = (Ok refs, s') -> length (tags s') <= CACHE_MAX ->
  (exists p, s' = (s.1, put_tags p s.2)) /\
  forall t, sy_labels t.2 = new_label_cache -> tags t = tags s' ->
    exists p, resolveLocalLabels bctx w t = (Ok refs, (t.1, put_tags p t.2)) /\ docs p.2 = docs (sy_huly t.2).
Proof.
  intros Hup Hn Hr Hlen. unfold resolveLocalLabels in *.
  apply bind_inv_ok in Hr as (names & s0 & Hi & Hr).
  apply stateless_run in Hi as [-> Hi]; [|apply stateless_iterate].
  setoid_rewrite (bind_ok _ _ _ _ _ (Hi _)).
  change (resolve_names (bx_hulyProjectRef bctx) names s = (Ok refs, s')) in Hr.
  rewrite resolve_names_loop in Hr.
  destruct (label_loop _ names (sy_labels s.2, sy_huly s.2)) as [[rs|e] p] eqn:El; [|done].
  cbn [fst snd] in Hr. injection Hr as <- <-. split; [by exists p|]. intros t Ht Htags.
  destruct (label_loop_replay (bx_hulyProjectRef bctx) names (sy_labels s.2, sy_huly s.2) p
    (sy_labels t.2, sy_huly t.2) rs Hup) as (p3 & E3 & D3); try done.
  - unfold label_exact. cbn [fst]. by rewrite Hn.
  - by rewrite Hn.
  - cbn [fst]. by rewrite Ht.
  - cbn [fst]. by rewrite Ht.
  - exists p3. split; [|exact D3].
    change (resolve_names (bx_hulyProjectRef bctx) names t = (Ok (map VStr rs), (t.1, put_tags p3 t.2))).
    rewrite resolve_names_loop, E3. done.
Qed.

Definition milestones (p : string) s : list HulyDoc := project_milestones p (docs (sy_huly s.2)).

Lemma resolveMilestone_replay bctx w s m s' :
  huly_up HU -> sy_milestones s.2 = new_milestone_cache ->
  resolveMilestone bctx w s = (Ok m, s') ->
  (exists p, s' = (s.1, put_milestones p s.2)) /\
  forall t, sy_milestones t.2 = new_milestone_cache ->
    milestones (bx_hulyProjectRef bctx) t = milestones (bx_hulyProjectRef bctx) s' ->
    exists p, resolveMilestone bctx w t = (Ok m, (t.1, put_milestones p t.2)) /\
      docs p.2 = docs (sy_huly t.2).
Proof.
  intros Hup Hn Hr.
  assert (w = VNull \/ w <> VNull) as [->|Hw] by by destruct w; auto.
  { injection Hr as <- <-. split; [exists (sy_milestones s.2, sy_huly s.2); by destruct s as [? []]|].
    intros t _ _. exists (sy_milestones t.2, sy_huly t.2). by destruct t as [? []]. }
  set (run := let! title := get_prop w "title" in
    let! description := get_prop w "description" in
    let! ref := on_milestone_local (ensureLocalMilestone_js (bx_hulyProjectRef bctx) title
                  (js_coalesce description VUndef)) in
    ret (VStr ref) : M World jsval).
  assert (resolveMilestone bctx w = run) as Erun by by destruct w.
  rewrite Erun in *. unfold run in *.
  apply bind_inv_ok in Hr as (title & s0 & Hi & Hr).
  apply stateless_run in Hi as [-> Hi]; [|apply stateless_get_prop].
  apply bind_inv_ok in Hr as (desc & s0 & Hj & Hr).
  apply stateless_run in Hj as [-> Hj]; [|apply stateless_get_prop].
  apply bind_inv_ok in Hr as (ref & s0 & Hk & [= <- <-]).
  unfold on_milestone_local, on_state, zoom in Hk.
  destruct (ensureLocalMilestone_js _ _ _ (sy_milestones s.2, sy_huly s.2)) as [r p] eqn:El.
  injection Hk as -> <-. split; [by exists p|]. intros t Ht Hms.
  apply ensureLocalMilestone_js_inv in El as (label & -> & El).
  destruct (milestone_replay (bx_hulyProjectRef bctx) label (js_coalesce desc VUndef) (js_coalesce desc VUndef)
    (sy_milestones s.2, sy_huly s.2) p (sy_milestones t.2, sy_huly t.2) ref Hup) as (p3 & E3 & D3); try done.
  - unfold milestone_exact. cbn [fst]. by rewrite Hn.
  - cbn [fst]. by rewrite Ht.
  - cbn [fst]. by rewrite Ht.
  - exists p3. split; [|exact D3]. rewrite (bind_ok _ _ _ _ _ (Hi _)), (bind_ok _ _ _ _ _ (Hj _)).
    unfold bind, on_milestone_local, on_state, zoom, ensureLocalMilestone_js. by rewrite E3.
Qed.

Lemma resolveMilestone_tags bctx w s m s' :
  resolveMilestone bctx w s = (Ok m, s') -> tags s' = tags s.
Proof.
  intros Hr. pose proof (moves_resolveMilestone bctx w s m s' Hr) as _.
  assert (moves (fun s s' => tags s' = tags s) (resolveMilestone bctx w)) as Hm; [|by eapply Hm].
  assert (PreOrder (fun s s' : World => tags s' = tags s)) as Hp.
  { split; [done|]. intros ? ? ? ? ?. congruence. }
  unfold resolveMilestone.
  assert (forall title desc, moves (fun s s' : World => tags s' = tags s)
    (on_milestone_local (ensureLocalMilestone_js (bx_hulyProjectRef bctx) title desc))) as Hx.
  { intros title desc t ref t'. unfold on_milestone_local, on_state, zoom.
    destruct (ensureLocalMilestone_js _ _ _ _) as [res p] eqn:E. intros [= -> <-].
    apply ensureLocalMilestone_js_inv in E as (label & -> & E).
    apply ensureLocalMilestone_docs in E. unfold tags. cbn [fst snd set_milestones set_huly sy_huly] in *.
    destruct E as [->|[-> _]]; [done|]. rewrite issue_tags_app.
    assert (issue_tags [milestone_doc (bx_hulyProjectRef bctx) label desc ref] = []) as -> by done.
    by rewrite app_nil_r. }
  destruct w; try (apply moves_ret, _);
    (apply moves_bind; [done|apply moves_get_prop, _|intros]);
    (apply moves_bind; [done|apply moves_get_prop, _|intros]);
    (apply moves_bind; [done|apply Hx|intros; apply moves_ret, _]).
Qed.

(** ** Statuses *)

Lemma status_replay k st l s o s' :
  on_statuses (mapRemoteState k st l) s = (Ok o, s') ->
  s'.1 = s.1 /\ sy_huly s'.2 = sy_huly s.2 /\ sy_users s'.2 = sy_users s.2 /\
  forall t, sy_statuses t.2 = sy_statuses s'.2 -> on_statuses (mapRemoteState k st l) t = (Ok o, t).
Proof.
  unfold on_statuses, on_state, zoom, mapRemoteState, bind, StatusMap.getEntry, ret.
  destruct (jget k (sy_statuses s.2)) as [e|] eqn:Ek.
  - intros [= <- <-]. split_and!; try done. intros [t x] Ht. cbn [fst snd set_statuses sy_statuses] in *.
    rewrite Ht, Ek. destruct x. cbn in *. by subst.
  - intros [= <- <-]. split_and!; try done. intros [t x] Ht. cbn [fst snd set_statuses sy_statuses] in *.
    rewrite Ht, jget_set_eq. destruct x. cbn in *. by subst.
Qed.

(** ** A whole record *)

Lemma stateless_description deps bctx r :
  is_mirrorDeps deps = None -> stateless (remote_description deps bctx r).
Proof.
  intros Hm. unfold remote_description. rewrite Hm. apply stateless_bind; [apply stateless_ret|intros].
  apply stateless_bind; [apply stateless_lift|intros]. apply stateless_ret.
Qed.

Lemma resolveRemote_replay person deps bctx r s v s1 :
  accounts_answer person -> is_mirrorDeps deps = None -> huly_up HU -> users_sound person s.2 ->
  sy_labels s.2 = new_label_cache -> sy_milestones s.2 = new_milestone_cache ->
  resolveRemote deps bctx r s = (Ok v, s1) -> length (tags s1) <= CACHE_MAX ->
  users_sound person s1.2 /\
  forall t, users_sound person t.2 -> sy_labels t.2 = new_label_cache ->
    sy_milestones t.2 = new_milestone_cache -> users_kept (bx_workspaceUuid bctx) s1 t ->
    sy_statuses t.2 = sy_statuses s1.2 -> tags t = tags s1 ->
    milestones (bx_hulyProjectRef bctx) t = milestones (bx_hulyProjectRef bctx) s1 ->
    exists x, resolveRemote deps bctx r t = (Ok v, (t.1, x)) /\ docs (sy_huly x) = docs (sy_huly t.2).
Proof.
  intros Hans Hmd Hup Hs Hlab Hms Hr Hlen. unfold resolveRemote in *.
  apply bind_inv_ok in Hr as (de & s0 & Hde & Hr).
  apply stateless_run in Hde as [-> Hde]; [|by apply stateless_description].
  apply bind_inv_ok in Hr as (a & sA & Ha & Hr).
  destruct (resolveAssignee_replay _ Hans _ _ _ _ _ Hs Ha) as (UA & SA & RA).
  apply bind_inv_ok in Hr as (ls & sB & Hls & Hr).
  apply bind_inv_ok in Hr as (mi & sC & Hmi & Hr).
  pose proof (resolveMilestone_tags _ _ _ _ _ Hmi) as HtC.
  apply bind_inv_ok in Hr as (o & sD & Ho & [= <- <-]).
  destruct (status_replay _ _ _ _ _ _ Ho) as (ED & HD & UD & RD).
  assert (tags sD = tags sB) as HtD.
  { rewrite <- HtC. unfold tags. by rewrite HD. }
  destruct (resolveLabels_replay _ _ _ _ _ Hup (eq_trans (uo_labels _ _ UA) Hlab) Hls)
    as ((pB & EB) & RB); [by rewrite <- HtD|].
  destruct (resolveMilestone_replay bctx (prop_of r "milestone") sB mi sC Hup) as ((pC & EC) & RC); [|done|].
  { rewrite EB. cbn [snd put_tags set_labels set_huly sy_milestones]. by rewrite (uo_milestones _ _ UA). }
  assert (sD.1 = sA.1) as E1 by by rewrite ED, EC, EB.
  split.
  { intros k c. rewrite UD, EC, EB. apply SA. }
  intros t Ht Tl Tm Tk Ts Tt Tms.
  rewrite (bind_ok _ _ _ _ _ (Hde t)).
  destruct (RA t Ht) as (x1 & E2 & U1 & _).
  { intros g row. unfold user_row. rewrite <- E1. apply Tk. }
  rewrite (bind_ok _ _ _ _ _ E2).
  destruct (RB (t.1, x1)) as (p2 & E3 & D3).
  { cbn [snd]. by rewrite (uo_labels _ _ U1). }
  { rewrite <- HtD, <- Tt. unfold tags. cbn [snd]. by rewrite (uo_huly _ _ U1). }
  rewrite (bind_ok _ _ _ _ _ E3). cbn [fst snd] in *.
  destruct (RC (t.1, put_tags p2 x1)) as (p3 & E4 & D4).
  { cbn [snd put_tags set_labels set_huly sy_milestones]. by rewrite (uo_milestones _ _ U1). }
  { unfold milestones in *. cbn [snd put_tags set_labels set_huly sy_huly].
    by rewrite D3, (uo_huly _ _ U1), Tms, HD. }
  rewrite (bind_ok _ _ _ _ _ E4). cbn [fst snd] in *.
  rewrite (bind_ok _ _ _ _ _ (RD (t.1, put_milestones p3 (put_tags p2 x1)) ltac:(
    cbn [snd put_milestones put_tags set_milestones set_labels set_huly sy_statuses];
    by rewrite (uo_statuses _ _ U1)))).
  eexists. split; [reflexivity|].
  cbn [put_milestones put_tags set_milestones set_labels set_huly sy_huly] in *.
  by rewrite D4, D3, (uo_huly _ _ U1).
Qed.

(** ** What the writes leave alone *)

Lemma tags_snoc l d : hd_class d <> CLASS_TAG_ELEMENT -> issue_tags (l ++ [d]) = issue_tags l.
Proof.
  intros Hc. rewrite issue_tags_app. unfold issue_tags at 2. cbn [List.filter].
  by rewrite bool_decide_eq_false_2, app_nil_r.
Qed.

Lemma milestones_snoc p l d : hd_class d <> CLASS_MILESTONE -> project_milestones p (l ++ [d]) = project_milestones p l.
Proof.
  intros Hc. rewrite project_milestones_app. unfold project_milestones at 2. cbn [List.filter].
  by rewrite bool_decide_eq_false_2, app_nil_r.
Qed.

(** Rewriting the document with an id leaves the documents of another class
    as they are, when ids are unique. *)
Lemma on_doc_other ref f c d0 l :
  NoDup (map hd_id l) -> d0 ∈ l -> hd_id d0 = ref -> hd_class d0 <> c ->
  (forall d, hd_class (f d) = hd_class d) ->
  List.filter (fun d => bool_decide (hd_class d = c) && matches [] d) (on_doc ref f l) =
  List.filter (fun d => bool_decide (hd_class d = c) && matches [] d) l.
Proof.
  intros Hnd Hin Hid Hc Hf. unfold on_doc. induction l as [|d l IH]; [by apply elem_of_nil in Hin|].
  cbn [map] in Hnd. apply NoDup_cons in Hnd as [Hn Hnd]. cbn [map List.filter].
  apply elem_of_cons in Hin as [<-|Hin].
  - rewrite decide_True, Hf by done. rewrite bool_decide_eq_false_2 by done. cbn [andb].
    clear IH. induction l as [|d l IH]; [done|]. cbn [map] in Hn, Hnd. apply not_elem_of_cons in Hn as [Hne Hn].
    apply NoDup_cons in Hnd as [_ Hnd]. cbn [map List.filter]. rewrite decide_False by congruence.
    by rewrite IH.
  - rewrite IH by done. rewrite decide_False; [done|]. intros E. apply Hn. rewrite E, <- Hid.
    by apply list_elem_of_fmap_2.
Qed.

Lemma issue_at_in ref s d : issue_at ref s = Some d -> d ∈ docs (sy_huly s.2).
Proof. unfold issue_at. by intros [? _]%js_find_Some. Qed.

(** ** A second application *)

(** A created document agrees with its record. *)
Lemma created_settled bctx r v st :
  wf_view v -> is_ref (prop_of r "title") ->
  issue_update_of (issue_attrs bctx r v st) r v st = ([], false).
Proof.
  intros Hv Ht.
  pose proof (created_fields bctx r v st Hv) as He.
  apply settled_no_update; [|by apply view_fields|].
  - intros k Hk. rewrite He by done. by apply remote_value_ok.
  - intros k Hk. unfold differs. rewrite He by done. apply negb_false_iff, areEqual_refl.
    by apply remote_value_ok.
Qed.

Lemma second_application deps ctx binding bctx r v s x0 x :
  store_ok s.1 ->
  is_loadBinding deps binding s = (Ok bctx, (s.1, x0)) -> docs (sy_huly x0) = docs (sy_huly s.2) ->
  resolveRemote deps bctx r (s.1, x0) = (Ok v, (s.1, x)) -> docs (sy_huly x) = docs (sy_huly x0) ->
  huly_up HU ->
  (forall st m d, rv_status v = Some st -> mapped bctx r s = Some m -> issue_at (im_hulyRef m) s = Some d ->
     issue_update_of (hd_attrs d) r v st = ([], false)) ->
  (rv_status v <> None -> mapped bctx r s <> None) ->
  exists s2, issue_applyRemote deps ctx binding r s = (Ok tt, s2) /\
    docs (sy_huly s2.2) = docs (sy_huly s.2) /\ idmap s2.1 = idmap s.1.
Proof.
  intros Hok Hl Hd0 Hv Hd Hup Hset Hmap. unfold issue_applyRemote. rewrite (bind_ok _ _ _ _ _ Hl).
  assert (forall k, (let! existing := on_db (findByGitlab (bx_workspaceUuid bctx) KIssue k) in
    let! v := resolveRemote deps bctx r in
    match rv_status v with
    | Some statusRef => match existing with
        | Some mapping =>
            let! found := on_huly (findOneDoc HULY_CLASS_ISSUE [("_id", VStr (im_hulyRef mapping))]) in
            match found with
            | Some d => update_issue bctx binding (im_hulyRef mapping) (hd_attrs d) r v statusRef
            | None => ret tt
            end
        | None => create_issue bctx binding k r v statusRef
        end
    | None => ret tt
    end) (s.1, x0) =
    (match rv_status v with
    | Some statusRef => match findOne (by_gitlab (bx_workspaceUuid bctx) KIssue k) (idmap s.1) with
        | Some mapping =>
            let! found := on_huly (findOneDoc HULY_CLASS_ISSUE [("_id", VStr (im_hulyRef mapping))]) in
            match found with
            | Some d => update_issue bctx binding (im_hulyRef mapping) (hd_attrs d) r v statusRef
            | None => ret tt
            end
        | None => create_issue bctx binding k r v statusRef
        end
    | None => ret tt
    end) (s.1, x)) as Hrun.
  { intros k. unfold bind at 1, on_db, zoom, findByGitlab, gets. cbn [fst snd].
    by rewrite (bind_ok _ _ _ _ _ Hv). }
  cbn zeta. rewrite Hrun. clear Hrun.
  destruct (rv_status v) as [st|] eqn:Est.
  2: { eexists. split; [reflexivity|]. cbn [fst snd]. by rewrite Hd. }
  destruct (findOne _ (idmap s.1)) as [m|] eqn:Em; [|by destruct Hmap].
  destruct (up_findOne _ Hup HULY_CLASS_ISSUE [("_id", VStr (im_hulyRef m))] (sy_huly x)) as (o & h & Ef).
  pose proof (findOne_ok _ _ _ _ _ Ef) as [Eh Eo].
  rewrite Hd, Hd0 in Eo. change (o = issue_at (im_hulyRef m) s) in Eo.
  unfold bind at 1, on_huly, on_state, zoom. cbn [fst snd]. rewrite Ef. cbn [fst snd].
  destruct o as [d|]; [|eexists; split; [reflexivity|]; cbn [fst snd set_huly sy_huly]; by rewrite Eh, Hd].
  specialize (Hset st m d eq_refl Em (eq_sym Eo)). unfold update_issue. rewrite Hset. cbn [when].
  unfold bind at 1, ret at 1. destruct (match local_ts _ with Some _ => _ | None => _ end); cbn [when].
  - unfold on_db, zoom. cbn [fst snd]. destruct (setCursor_total s.1 binding CIssues (new_Date (prop_of r "updatedAt")) Hok) as (c & Ec).
    unfold setCursor, dup_key_or. rewrite Ec. eexists. split; [reflexivity|]. cbn [fst snd set_huly sy_huly]. by rewrite Eh, Hd.
  - eexists. split; [reflexivity|]. cbn [fst snd set_huly sy_huly]. by rewrite Eh, Hd.
Qed.

(** A rewritten issue leaves the tags and milestones as they are. *)
Lemma rewrite_keeps ref f p s d (l : list HulyDoc) :
  NoDup (map hd_id (docs (sy_huly s.2))) -> issue_at ref s = Some d ->
  (forall d, hd_class (f d) = hd_class d) -> l = on_doc ref f (docs (sy_huly s.2)) ->
  issue_tags l = tags s /\ project_milestones p l = milestones p s.
Proof.
  intros Hnd Hd Hf ->. pose proof (issue_at_id _ _ _ Hd) as [Hid Hcl].
  pose proof (issue_at_in _ _ _ Hd) as Hin. unfold tags, milestones, issue_tags, project_milestones.
  split; f_equal; eapply on_doc_other; try done; by rewrite Hcl.
Qed.

(** What an update leaves behind, and a creation. *)
Definition replay_ready bctx r v s1 s' : Prop :=
  tags s' = tags s1 /\ milestones (bx_hulyProjectRef bctx) s' = milestones (bx_hulyProjectRef bctx) s1 /\
  users_kept (bx_workspaceUuid bctx) s1 s' /\ sy_users s'.2 = sy_users s1.2 /\
  sy_statuses s'.2 = sy_statuses s1.2 /\ store_ok s'.1 /\
  (forall st m d, rv_status v = Some st -> mapped bctx r s' = Some m -> issue_at (im_hulyRef m) s' = Some d ->
     issue_update_of (hd_attrs d) r v st = ([], false)) /\
  (rv_status v <> None -> mapped bctx r s' <> None).

Lemma created_found bctx r v st ref :
  js_find (fun d => bool_decide (hd_class d = HULY_CLASS_ISSUE) && matches [("_id", VStr ref)] d)
    [created_doc bctx r v st ref] = Some (created_doc bctx r v st ref).
Proof.
  cbn [js_find created_doc hd_class matches matches_value forallb fst snd]. rewrite bool_decide_eq_true_2 by done.
  unfold doc_field. rewrite decide_True by done. cbn [hd_id]. by rewrite bool_decide_eq_true_2.
Qed.

Lemma finish_create bctx binding r v st s1 s' :
  wf_view v -> is_ref (prop_of r "title") -> store_ok s1.1 -> rv_status v = Some st ->
  create_issue bctx binding (scoped_key bctx (prop_of r "iid")) r v st s1 = (Ok tt, s') ->
  replay_ready bctx r v s1 s'.
Proof.
  intros Hwf Ht Hok Est (ref & Hdocs & Hfresh & Hg & _ & _ & Hk & Hu & Hs & Ho)%create_issue_run.
  unfold replay_ready, tags, milestones. rewrite Hdocs. split_and!; auto.
  - by apply tags_snoc.
  - by apply milestones_snoc.
  - intros g row. unfold user_row. by rewrite Hk.
  - intros st' m d. rewrite Est. intros [= <-]. unfold mapped. rewrite Hg. intros [= <-].
    cbn [im_hulyRef]. intros Hd.
    assert (d = created_doc bctx r v st ref) as ->; [|by apply created_settled].
    unfold issue_at in Hd. rewrite Hdocs, js_find_app in Hd.
    destruct (js_find _ _) as [d'|] eqn:Ef; [|by rewrite created_found in Hd; injection Hd as <-].
    exfalso. apply Hfresh. apply (issue_at_id ref s1) in Ef as Hid.
    apply (issue_at_in ref s1) in Ef. destruct Hid as [<- _]. by apply list_elem_of_fmap_2.
  - unfold mapped. by rewrite Hg.
Qed.

(** An update computed twice is empty the second time. *)
Lemma update_then_none a r v st :
  has_all_fields (local_value a) -> wf_view v -> is_ref (prop_of r "title") ->
  exists u dirty, issue_update_of a r v st = (u, dirty) /\
    if dirty then issue_update_of (applied_attrs r u a) r v st = ([], false)
    else issue_update_of a r v st = ([], false).
Proof.
  intros Hl Hv Ht. pose proof (view_fields r v st Hv Ht) as Hr.
  destruct (huly_newer a r) eqn:En.
  - pose proof (issue_update_of_spec a r v st Hl Hr En) as Hu. by exists [], false.
  - destruct (update_settles a r v st Hl Hv Ht En) as (u & dirty & Hu & Hclean & Hdirty).
    exists u, dirty. split; [done|]. destruct dirty.
    + destruct (Hdirty eq_refl) as (Hs & Hl' & _). by apply settled_no_update.
    + apply settled_no_update; auto.
Qed.

Lemma finish_update bctx binding r v st m s1 s' :
  wf_view v -> is_ref (prop_of r "title") -> store_ok s1.1 -> rv_status v = Some st ->
  mapped bctx r s1 = Some m -> NoDup (map hd_id (docs (sy_huly s'.2))) ->
  (forall d, issue_at (im_hulyRef m) s1 = Some d -> has_all_fields (local_value (hd_attrs d))) ->
  (let! found := on_huly (findOneDoc HULY_CLASS_ISSUE [("_id", VStr (im_hulyRef m))]) in
   match found with
   | None => ret tt
   | Some d => update_issue bctx binding (im_hulyRef m) (hd_attrs d) r v st
   end) s1 = (Ok tt, s') ->
  replay_ready bctx r v s1 s'.
Proof.
  intros Hwf Ht Hok Est Hmap Hnd Hf (o & s2 & Ho & Hend)%bind_inv_ok.
  unfold on_huly, on_state, zoom in Ho. destruct (findOneDoc _ _ _) as [ro h] eqn:Eo.
  injection Ho as -> <-. apply findOne_ok in Eo as [Eh Eo].
  change (o = issue_at (im_hulyRef m) s1) in Eo. symmetry in Eo. set (s2 := (s1.1, set_huly h s1.2)) in *.
  assert (docs (sy_huly s2.2) = docs (sy_huly s1.2)) as Ed by exact Eh.
  unfold replay_ready. destruct o as [d|].
  2: { injection Hend as <-. unfold tags, milestones. rewrite Ed. split_and!; try done.
       - by intros g row.
       - intros st' m' d' _ Hm'. change (mapped bctx r s1 = Some m') in Hm'.
         assert (m' = m) as -> by congruence.
         unfold issue_at. rewrite Ed. intros Hd'. change (issue_at (im_hulyRef m) s1 = Some d') in Hd'. congruence.
       - intros _. change (mapped bctx r s1 <> None). by rewrite Hmap. }
  destruct (update_then_none (hd_attrs d) r v st (Hf d Eo) Hwf Ht) as (u & dirty & Hu & Hnone).
  destruct (update_issue_run _ _ _ _ _ _ _ _ _ _ _ Hu Hend) as (Hdocs & (Hi & Eu & Es & Ho) & _).
  assert (mapped bctx r s' = Some m) as Hmap' by by unfold mapped; rewrite Hi.
  assert (map hd_id (docs (sy_huly s'.2)) = map hd_id (docs (sy_huly s1.2))) as Eids.
  { rewrite Hdocs, Ed. destruct dirty; [by apply on_doc_id|done]. }
  rewrite Eids in Hnd.
  assert (exists d', issue_at (im_hulyRef m) s' = Some d' /\ issue_update_of (hd_attrs d') r v st = ([], false)) as Hset.
  { rewrite Ed in Hdocs. destruct dirty.
    - exists (set_attrs (issue_ops r u) d). split; [|exact Hnone].
      rewrite (issue_at_rewrite _ _ _ s1 s' Hdocs), Eo. cbn [option_map]. by rewrite decide_True.
    - exists d. split; [|exact Hnone]. unfold issue_at. by rewrite Hdocs. }
  assert (tags s' = tags s1 /\ milestones (bx_hulyProjectRef bctx) s' = milestones (bx_hulyProjectRef bctx) s1)
    as [Etags Ems].
  { rewrite Ed in Hdocs. unfold tags at 1, milestones at 1. destruct dirty.
    - by eapply (rewrite_keeps _ (set_attrs (issue_ops r u)) _ s1).
    - by rewrite Hdocs. }
  split_and!; auto.
  - intros g row. unfold user_row. by rewrite Hi.
  - intros st' m' d'. rewrite Est, Hmap'. intros [= <-] [= <-] Hd'.
    destruct Hset as (d2 & Ed2 & Hn). congruence.
  - by rewrite Hmap'.
Qed.

(** C8: an issue record that is applied a second time, to the state its first
    successful application left, succeeds - as long as the Huly client
    answers - and changes no workspace document, tag and milestone included,
    and no id-map row.  The assumptions are those under which a replay is
    comparable: the account service answers a key the same both times, the
    tags fit the label cache, and document ids are unique. *)
Theorem issue_redelivery person deps ctx binding bctx r s s' :
  loads deps binding bctx -> is_mirrorDeps deps = None -> huly_up HU -> accounts_answer person ->
  store_ok s.1 -> users_sound person s.2 -> is_ref (prop_of r "title") ->
  (forall m d, mapped bctx r s = Some m -> issue_at (im_hulyRef m) s = Some d ->
     has_all_fields (local_value (hd_attrs d))) ->
  issue_applyRemote deps ctx binding r s = (Ok tt, s') ->
  NoDup (map hd_id (docs (sy_huly s'.2))) -> length (tags s') <= CACHE_MAX ->
  exists s2, issue_applyRemote deps ctx binding r s' = (Ok tt, s2) /\
    docs (sy_huly s2.2) = docs (sy_huly s'.2) /\ idmap s2.1 = idmap s'.1.
Proof.
  intros Hl Hm Hup Hans Hok Hus Ht Hfields Hr Hnd Hlen.
  destruct (applyRemote_run _ _ _ _ _ _ _ Hl Hr) as (x & v & s1 & Hdx & (Hlab & Hms & Hux) & Hv & Hend).
  destruct (resolved_start _ _ _ _ _ _ _ Hm Hdx Hv) as (_ & Hat & Hrf).
  pose proof (resolveRemote_wf _ _ _ _ _ _ Hm Hv) as Hwf.
  assert (users_sound person x) as Hsx.
  { destruct Hux as [E|E]; intros k c; rewrite E; [apply Hus|done]. }
  assert (mapped bctx r s1 = mapped bctx r s) as Hms1 by by apply Hrf.
  assert (replay_ready bctx r v s1 s') as (Htags & Hmil & Hkept & Hu & Hst & Hok' & Hset & Hmap).
  { pose proof (rf_ok _ _ Hrf Hok) as Hok1. destruct (rv_status v) as [st|] eqn:Est.
    2: { subst s'. unfold replay_ready, users_kept. rewrite Est. split_and!; auto; done. }
    destruct (mapped bctx r s) as [m|] eqn:Emap; [|by eapply finish_create].
    eapply (finish_update bctx binding r v st m s1); try done.
    intros d. rewrite Hat. by apply Hfields. }
  destruct (Hl s') as (x' & El & Hdx' & Hlab' & Hms' & Hux' & Hst' & _).
  destruct (resolveRemote_replay person deps bctx r (s.1, x) v s1 Hans Hm Hup Hsx Hlab Hms Hv)
    as (Hs1 & Hrep); [by rewrite <- Htags|].
  destruct (Hrep (s'.1, x')) as (x2 & Hv2 & Hd2).
  - destruct Hux' as [E|E]; intros k c; cbn [snd]; rewrite E, ?Hu; [apply Hs1|done].
  - done.
  - done.
  - done.
  - cbn [snd]. by rewrite Hst'.
  - rewrite <- Htags. unfold tags. cbn [snd]. by rewrite Hdx'.
  - rewrite <- Hmil. unfold milestones. cbn [snd]. by rewrite Hdx'.
  - by eapply second_application.
Qed.
End Replay.
