(* ===== verification/IssuesExamples.v ===== *)
(** * The issues manager on concrete workspaces

    Witnesses of the theorems of IssuesProofs.v and IssuesReplay.v in the
    world of SyncToy.v, and two closed executions in which the manager does
    something else than its comments promise. *)

From S2P Require Import Prelude JsMap JsString JsVal Metrics Platform Conflict Mongo Store Ids.
From S2P Require Import StatusMap Huly Caches Queue Breaker Engine Sync TxSubscriber FieldSync Issues.
From S2P Require Import SyncToy IssuesProofs IssuesLocal IssuesReplay.
Open Scope nat_scope.
Open Scope string_scope.
Open Scope list_scope.

(** What the examples look at: the title and modification time of each
    issue document. *)
Definition issue_summary (s : Store list * ToyX) : list (jsval * jsval) :=
  map (fun d => (prop_of (hd_attrs d) "title", prop_of (hd_attrs d) "modifiedOn"))
    (issue_docs (HU := list HulyDoc) s).

Definition toy_run (multi : bool) (r : record) (s : Store list * ToyX) : res unit :=
  (issue_applyRemote (toy_deps multi) (MkSyncContext "ws") "b" r s).1.

(** GitLab's successive states A (time 1), B (time 3) and A again (time 5)
    of an issue: delivered in the order 1, 5, 3, the issue ends in state B
    in Huly. The record of time 5 changes no field, so it does not move the
    modification time, and the older record of time 3 wins against time 1. *)
Theorem stale_record_applied :
  let a := toy_issue 7 "A" ["bug"] in
  let b := toy_issue 7 "B" ["bug"] in
  let s1 := toy_apply false (a 1) toy_state in
  let s2 := toy_apply false (a 5) s1 in
  issue_summary s1 = [(VStr "A", VNum 1)] /\
  issue_summary s2 = [(VStr "A", VNum 1)] /\
  issue_summary (toy_apply false (b 3) s2) = [(VStr "B", VNum 3)] /\
  issue_summary (toy_apply false (a 5) (toy_apply false (b 3) s1)) = [(VStr "A", VNum 5)].
Proof. by vm_compute. Qed.

(** An issue that was mirrored while its workspace had one GitLab instance
    is mirrored a second time after a binding of another instance has been
    loaded: the id-map key of the same issue changes from the plain to the
    prefixed form and the existing row is not found. *)
Theorem multi_instance_flip_duplicates :
  let r := toy_issue 7 "A" ["bug"] in
  let s1 := toy_apply false (r 1) toy_state in
  let s2 := toy_apply true (r 2) s1 in
  issue_summary s1 = [(VStr "A", VNum 1)] /\
  issue_summary s2 = [(VStr "A", VNum 1); (VStr "A", VNum 2)] /\
  scoped_key (toy_bctx false) (VNum 7) <> scoped_key (toy_bctx true) (VNum 7).
Proof. by vm_compute. Qed.

(** A Huly document that mirrors merge request 7 of the project: it is an
    issue document, mapped with kind [merge_request]. *)
Definition mr_mirrored : Store list * ToyX :=
  (set_idmap [MkIdMapDoc "ws" KMergeRequest "42:7" HULY_CLASS_ISSUE "doc-mr"] empty_store, toy_state.2).

Definition rename_tx : Tx :=
  MkTx TX_CLASS_UPDATE "someone" "doc-mr" HULY_CLASS_ISSUE None None (Some [("title", VStr "Renamed")]).

Definition toy_local (doc : string) (change : record) (s : Store list * ToyX) : res unit * ToyGitLab :=
  let '(res, s') := issue_applyLocal (toy_deps false) (MkSyncContext "ws") "b" doc change s in
  (res, sy_gitlab s'.2).

(** Renaming the Huly document of merge request 7 renames issue 7: the
    transaction is classified as an issue change, the issues manager looks
    the document up by class and reference only, and takes the iid of the
    merge-request row for an issue's.  A change of the assignee, which Huly
    sends as [assignee], reaches no GitLab object at all. *)
Theorem mr_edit_updates_foreign_issue :
  option_map (fun c => (cl_kind c, cl_doc c, cl_change c)) (classify rename_tx) =
    Some (SkIssue, "doc-mr", [("title", VStr "Renamed")]) /\
  toy_local "doc-mr" [("title", VStr "Renamed")] mr_mirrored =
    (Ok tt, [("updateIssue", 7%Z, [("title", VStr "Renamed")])]) /\
  toy_local "doc-mr" [("assignee", VStr "person-1")] mr_mirrored = (Ok tt, []).
Proof. by vm_compute. Qed.

(** ** Witnesses *)

Lemma toy_loads multi binding : loads (toy_deps multi) binding (toy_bctx multi).
Proof. intros s. eexists. split; [reflexivity|]. repeat split. by left. Qed.

Lemma toy_accounts_answer : accounts_answer (AC := unit) (fun _ => None).
Proof. intros k []. by exists tt. Qed.

Lemma toy_run_state multi r s :
  toy_run multi r s = Ok tt ->
  issue_applyRemote (toy_deps multi) (MkSyncContext "ws") "b" r s = (Ok tt, toy_apply multi r s).
Proof. unfold toy_run, toy_apply. destruct (issue_applyRemote _ _ _ _ _) as [res s']. by intros [= ->]. Qed.

Lemma issue_created_witness :
  issue_summary (toy_apply false (toy_issue 7 "A" ["bug"] 1) toy_state) = [(VStr "A", VNum 1)] /\
  exists x v s1, resolveRemote (toy_deps false) (toy_bctx false) (toy_issue 7 "A" ["bug"] 1) (toy_state.1, x) = (Ok v, s1).
Proof.
  split; [by vm_compute|].
  destruct (issue_created (toy_deps false) (MkSyncContext "ws") "b" (toy_bctx false)
    (toy_issue 7 "A" ["bug"] 1) toy_state (toy_apply false (toy_issue 7 "A" ["bug"] 1) toy_state))
    as (x & v & s1 & E & _).
  - apply toy_loads.
  - reflexivity.
  - apply empty_store_ok.
  - reflexivity.
  - apply toy_run_state. by vm_compute.
  - exists x, v, s1. exact E.
Defined.

(** The workspace after the issue has been mirrored. *)
Definition toy_mirrored : Store list * ToyX := toy_apply false (toy_issue 7 "A" ["bug"] 1) toy_state.

Definition toy_mapping : IdMapDoc := MkIdMapDoc "ws" KIssue "42:7" HULY_CLASS_ISSUE "1".

Definition toy_issue_doc : HulyDoc :=
  default (MkHulyDoc "" "" "" [] []) (issue_at (HU := list HulyDoc) "1" toy_mirrored).

Lemma toy_fields : has_all_fields (local_value (hd_attrs toy_issue_doc)).
Proof.
  intros k Hk. unfold ISSUE_FIELDS in Hk. rewrite !elem_of_cons, elem_of_nil in Hk.
  by destruct Hk as [->|[->|[->|[->|[->|[->|[]]]]]]]; vm_compute.
Qed.

Lemma issue_updated_witness :
  issue_summary (toy_apply false (toy_issue 7 "B" [] 3) toy_mirrored) = [(VStr "B", VNum 3)] /\
  exists x v s1 d',
    resolveRemote (toy_deps false) (toy_bctx false) (toy_issue 7 "B" [] 3) (toy_mirrored.1, x) = (Ok v, s1) /\
    issue_at (im_hulyRef toy_mapping) (toy_apply false (toy_issue 7 "B" [] 3) toy_mirrored) = Some d'.
Proof.
  split; [by vm_compute|].
  destruct (issue_updated (toy_deps false) (MkSyncContext "ws") "b" (toy_bctx false)
    (toy_issue 7 "B" [] 3) toy_mirrored (toy_apply false (toy_issue 7 "B" [] 3) toy_mirrored)
    toy_mapping toy_issue_doc) as (x & v & s1 & d' & E & _ & E' & _).
  - apply toy_loads.
  - reflexivity.
  - by vm_compute.
  - by vm_compute.
  - exact I.
  - apply toy_fields.
  - apply toy_run_state. by vm_compute.
  - exists x, v, s1, d'. split; [exact E|exact E'].
Defined.

Lemma issue_redelivery_witness :
  exists s2, issue_applyRemote (toy_deps false) (MkSyncContext "ws") "b" (toy_issue 7 "A" ["bug"] 1) toy_mirrored
      = (Ok tt, s2) /\
    sy_huly s2.2 = sy_huly toy_mirrored.2.
Proof.
  destruct (issue_redelivery (fun _ => None) (toy_deps false) (MkSyncContext "ws") "b" (toy_bctx false)
    (toy_issue 7 "A" ["bug"] 1) toy_state toy_mirrored) as (s2 & E & Hd & _).
  - apply toy_loads.
  - reflexivity.
  - apply memory_up.
  - apply toy_accounts_answer.
  - apply empty_store_ok.
  - intros k c. cbn. intros [=].
  - exact I.
  - intros m d. cbn. intros [=].
  - apply toy_run_state. by vm_compute.
  - apply (bool_decide_eq_true_1 _). by vm_compute.
  - apply (bool_decide_eq_true_1 _). by vm_compute.
  - exists s2. split; [exact E|exact Hd].
Defined.

(** The body of a GitLab issue hook carries the issue below
    [object_attributes]. *)
Definition issue_hook_body : record :=
  [("object_kind", VStr "issue"); ("project", VObj [("id", VNum 42)]);
   ("object_attributes", VObj [("iid", VNum 7); ("title", VStr "A"); ("action", VStr "open")])].

Lemma issue_hook_body_never_applied_witness :
  exists e, (issue_applyRemote (toy_deps false) (MkSyncContext "ws") "b" issue_hook_body toy_state).1 = Throw e.
Proof. apply issue_hook_body_never_applied. by vm_compute. Defined.

Lemma huly_references_never_pushed_witness :
  exists e, (issue_applyLocal (toy_deps false) (MkSyncContext "ws") "b" "1"
    [("milestone", VStr "m1")] toy_mirrored).1 = Throw e.
Proof. apply huly_references_never_pushed. left. by exists "m1". Defined.

Lemma issue_local_pushed_witness :
  exists body, pushes [("title", VStr "Renamed")] body /\
    exists r g, updateIssue (IssueGitLabClient := toy_issues) 42 7 body (sy_gitlab mr_mirrored.2) = (Ok r, g).
Proof.
  destruct (issue_local_pushed (toy_deps false) (MkSyncContext "ws") "b" (toy_bctx false) "doc-mr"
    [("title", VStr "Renamed")] mr_mirrored
    (issue_applyLocal (toy_deps false) (MkSyncContext "ws") "b" "doc-mr" [("title", VStr "Renamed")] mr_mirrored).2)
    as (body & Hp & Hm).
  - apply toy_loads.
  - reflexivity.
  - reflexivity.
  - by left.
  - by vm_compute.
  - exists body. split; [exact Hp|]. pose proof (ps_title _ _ Hp) as Ht.
    destruct body as [|e body]; [done|]. destruct Hm as (r & E & _). eexists r, _. exact E.
Defined.
