(* ===== verification/Webhook.v ===== *)
(** * The webhook endpoint (src/http/webhook.ts)

    [POST /webhook/:bindingId]: the checks a delivery passes - id format,
    confidential hook names, binding, pause flag, secret - and the dispatch
    on the event header.  The handler runs over the engine, the credentials
    and the metric counters; its result is the HTTP response, and a [Throw]
    is an error forwarded to the error middleware ([asyncHandler]).

    Strings are byte strings, so [Buffer.from] is the identity and
    [timingSafeEqual] is equality of byte strings of one length. *)

From S2P Require Import Prelude JsMap JsString JsVal Metrics Platform Conflict Mongo Store Queue.
From S2P Require Import Breaker Engine Credentials.
Open Scope string_scope.
Open Scope list_scope.

(** ** src/util/object-id.ts *)

(** [/^[0-9a-fA-F]$/] on one character *)
Definition is_hex (a : Ascii.ascii) : bool :=
  let n := Ascii.N_of_ascii a in
  ((48 <=? n) && (n <=? 57) || (65 <=? n) && (n <=? 70) || (97 <=? n) && (n <=? 102))%N.

Fixpoint all_hex (s : string) : bool :=
  match s with "" => true | String a s' => is_hex a && all_hex s' end.

Definition HEX24 (s : string) : bool := bool_decide (String.length s = 24) && all_hex s.

Definition parseObjectId `{Platform} (raw : string) : option string :=
  if HEX24 raw then newObjectId raw else None.

(** ** Requests and responses *)

Record Request := MkRequest {
  rq_bindingId : string;
  rq_event : option string;
  rq_token : option string;
  rq_uuid : option string;
  rq_body : record
}.

Record Response := MkResponse { rs_status : Z; rs_json : option record }.

Definition error_json (status : Z) (msg : string) : Response :=
  MkResponse status (Some [("error", VStr msg)]).
Definition no_content : Response := MkResponse 204 None.
Definition accepted_json : Response := MkResponse 200 (Some [("accepted", VBool true)]).

Definition CONFIDENTIAL_HOOKS : list string :=
  ["Confidential Issue Hook"; "Confidential Note Hook"; "Confidential Epic Hook"].

(** [payload.a?.b] *)
Definition prop (a b : string) (payload : record) : option jsval :=
  match field a payload with Some (VObj o) => field b o | _ => None end.

(** [v === undefined || v === null] *)
Definition nullish (v : option jsval) : bool :=
  match v with None | Some VNull => true | _ => false end.

Definition timingSafeEqual (a b : string) : bool := bool_decide (a = b).

Definition token_matches (received stored : string) : bool :=
  if bool_decide (String.length received = String.length stored)
  then timingSafeEqual received stored else false.

Section Webhook.
Context {Coll : Type -> Type} `{Mongo Coll} {P : Platform} {C : Cipher} {X : Type}.

Record Http := MkHttp {
  engine : Engine Coll X;
  creds : Creds Coll;
  metrics : counters
}.

Definition on_engine {A} (m : M (Engine Coll X) A) : M Http A := fun h =>
  let '(r, e) := m (engine h) in (r, MkHttp e (creds h) (metrics h)).

Definition on_creds {A} (m : M (Creds Coll) A) : M Http A := fun h =>
  let '(r, c) := m (creds h) in (r, MkHttp (engine h) c (metrics h)).

Definition count_metric (name : string) : M Http unit :=
  modify (fun h => MkHttp (engine h) (creds h) (increment name (metrics h))).

(** [v ?? String(Date.now())] *)
Definition version_or_now (v : option jsval) : M Http string :=
  match v with
  | None | Some VNull => let! now := on_engine read_clock in ret (pretty now)
  | Some v => ret (js_String v)
  end.

Definition accept_event (req : Request) (kind eventUuid : string) (version : option jsval)
    : M Http Response :=
  let! version := version_or_now version in
  on_engine (enqueueWebhookEvent (rq_bindingId req) kind (rq_body req) eventUuid version) ;;!
  ret accepted_json.

Definition drop_confidential : M Http Response :=
  count_metric WEBHOOK_CONFIDENTIAL_SKIPPED ;;! ret no_content.

(** ** Dispatch on the event header, after authentication *)

Definition handle_issue (req : Request) (eventUuid : string) : M Http Response :=
  let payload := rq_body req in
  if is_true_val (prop "object_attributes" "confidential" payload) then drop_confidential
  else accept_event req "issue" eventUuid (prop "object_attributes" "updated_at" payload).

Definition handle_merge_request (req : Request) (eventUuid : string) : M Http Response :=
  let payload := rq_body req in
  if is_true_val (prop "object_attributes" "confidential" payload)
  then
    count_metric WEBHOOK_CONFIDENTIAL_SKIPPED ;;!
    count_metric WEBHOOK_MR_SKIPPED ;;!
    ret no_content
  else accept_event req "merge_request" eventUuid (prop "object_attributes" "updated_at" payload).

Definition handle_pipeline (req : Request) (eventUuid : string) : M Http Response :=
  let payload := rq_body req in
  if nullish (prop "merge_request" "iid" payload)
  then count_metric WEBHOOK_UNBOUND_PIPELINE ;;! ret no_content
  else accept_event req "pipeline" eventUuid (prop "object_attributes" "updated_at" payload).

Definition handle_note (req : Request) (eventUuid : string) : M Http Response :=
  let payload := rq_body req in
  let noteableType := prop "object_attributes" "noteable_type" payload in
  let version := prop "object_attributes" "updated_at" payload in
  if decide (noteableType = Some (VStr "Issue") \/ noteableType = None)
  then
    if is_true_val (prop "issue" "confidential" payload) then drop_confidential
    else accept_event req "note" eventUuid version
  else if decide (noteableType = Some (VStr "MergeRequest"))
  then accept_event req "note" eventUuid version
  else ret accepted_json.

Definition handle_epic (req : Request) (eventUuid : string) : M Http Response :=
  let payload := rq_body req in
  if nullish (prop "object_attributes" "iid" payload) ||
     nullish (prop "object_attributes" "group_id" payload)
  then
    count_metric WEBHOOK_PAYLOAD_INVALID ;;!
    ret (error_json 400 "invalid payload: missing object_attributes.iid or group_id")
  else if is_true_val (prop "object_attributes" "confidential" payload) then drop_confidential
  else accept_event req "epic" eventUuid (prop "object_attributes" "updated_at" payload).

Definition dispatch_hook (req : Request) (eventUuid : string) : M Http Response :=
  match rq_event req with
  | Some header =>
      if decide (header = "Issue Hook") then handle_issue req eventUuid
      else if decide (header = "Merge Request Hook") then handle_merge_request req eventUuid
      else if decide (header = "Pipeline Hook") then handle_pipeline req eventUuid
      else if decide (header = "Note Hook") then handle_note req eventUuid
      else if decide (header = "Epic Hook") then handle_epic req eventUuid
      else ret accepted_json
  | None => ret accepted_json
  end.

(** ** Authentication *)

Definition event_uuid (req : Request) : M Http string :=
  match rq_uuid req with
  | Some u => ret u
  | None => let! now := on_engine read_clock in ret (rq_bindingId req +:+ "-" +:+ pretty now)
  end.

Definition confidential_hook (req : Request) : bool :=
  match rq_event req with
  | Some header => bool_decide (header ∈ CONFIDENTIAL_HOOKS)
  | None => false
  end.

(** The token check against the binding's webhook secret; [None] lets the
    request through. *)
Definition authorize (encryptionKey : string) (req : Request) (binding : BindingDoc)
    : M Http (option Response) :=
  let! credential := on_creds (getCredential encryptionKey (bd_webhookSecretRef binding)) in
  match credential with
  | None => ret (Some (error_json 500 "Internal error"))
  | Some credential =>
      match rq_token req with
      | None | Some "" => ret (Some (error_json 401 "Unauthorized"))
      | Some token =>
          if token_matches token (cr_plaintext credential) then ret None
          else ret (Some (error_json 401 "Unauthorized"))
      end
  end.

Definition webhook (encryptionKey : string) (req : Request) : M Http Response :=
  match parseObjectId (rq_bindingId req) with
  | None => ret (error_json 400 "invalid id format")
  | Some _ =>
      let! eventUuid := event_uuid req in
      if confidential_hook req then drop_confidential
      else
        let! binding := try_catch
          (let! b := on_engine (on_store (getBinding (rq_bindingId req))) in ret (Some b))
          (fun _ => ret None) in
        match binding with
        | None => ret (error_json 404 "Not found")
        | Some None => ret (error_json 404 "Binding not found")
        | Some (Some binding) =>
            if bd_disabled binding
            then ret (MkResponse 200 (Some [("accepted", VBool false);
                                            ("reason", VStr "binding disabled")]))
            else
              let! rejected := authorize encryptionKey req binding in
              match rejected with
              | Some response => ret response
              | None => dispatch_hook req eventUuid
              end
        end
  end.
End Webhook.

Arguments Http : clear implicits.

(** ** Properties *)

(** The payload says its object is confidential, where the hook carries it. *)
Definition confidential_payload (req : Request) : bool :=
  match rq_event req with
  | Some header =>
      if decide (header ∈ ["Issue Hook"; "Merge Request Hook"; "Epic Hook"])
      then is_true_val (prop "object_attributes" "confidential" (rq_body req))
      else if decide (header = "Note Hook" /\
             prop "object_attributes" "noteable_type" (rq_body req) ∈ [Some (VStr "Issue"); None])
      then is_true_val (prop "issue" "confidential" (rq_body req))
      else false
  | None => false
  end.

Section WebhookLaws.
Context {Coll : Type -> Type} `{Mongo Coll} {P : Platform} {C : Cipher} {X : Type}.
Implicit Types (h : Http Coll X) (req : Request).

(** The engine's collections and queue are as they were. *)
Definition untouched h h' : Prop :=
  store (engine h') = store (engine h) /\ world (engine h') = world (engine h).

Definition idle {A} (m : M (Http Coll X) A) : Prop := forall h, untouched h (m h).2.

Lemma idle_preserves {A} (m : M (Http Coll X) A) :
  idle m <-> forall h0, preserves (untouched h0) m.
Proof.
  split.
  - intros Hm h0 h [E1 E2]. destruct (Hm h) as [F1 F2]. split; congruence.
  - intros Hm h. by apply (Hm h h).
Qed.

Lemma untouched_trans h1 h2 h3 : untouched h1 h2 -> untouched h2 h3 -> untouched h1 h3.
Proof. intros [E1 E2] [F1 F2]. split; congruence. Qed.

Lemma idle_ret {A} (a : A) : idle (ret a).
Proof. done. Qed.
Lemma idle_bind {A B} (m : M (Http Coll X) A) (k : A -> M (Http Coll X) B) :
  idle m -> (forall a, idle (k a)) -> idle (bind m k).
Proof.
  rewrite !idle_preserves. intros Hm Hk h0. apply preserves_bind; [done|].
  intros a. specialize (Hk a). rewrite idle_preserves in Hk. done.
Qed.
Lemma idle_count name : idle (count_metric name).
Proof. done. Qed.
Lemma idle_clock : idle (on_engine read_clock).
Proof. done. Qed.
Lemma idle_creds {A} (m : M (Creds Coll) A) : idle (on_creds m).
Proof. intros h. unfold on_creds. by destruct (m (creds h)). Qed.
Lemma idle_uuid req : idle (event_uuid req).
Proof. unfold event_uuid. by destruct (rq_uuid req). Qed.
Lemma idle_drop : idle drop_confidential.
Proof. done. Qed.

Hint Resolve idle_ret idle_bind idle_count idle_clock idle_creds idle_uuid idle_drop : idle.

Lemma idle_binding id :
  idle (try_catch (let! b := on_engine (on_store (getBinding id)) in ret (Some b)) (fun _ => ret None)).
Proof.
  intros h. unfold try_catch, bind, on_engine, on_store, getBinding, with_object_id.
  destruct (newObjectId id); done.
Qed.

Lemma idle_authorize key req b : idle (authorize key req b).
Proof.
  unfold authorize. apply idle_bind; [auto with idle|]. intros [c|]; [|auto with idle].
  destruct (rq_token req) as [[|a tok]|]; auto with idle. destruct (token_matches _ _); auto with idle.
Qed.

(** A confidential payload is dropped by every branch of the dispatch. *)
Lemma dispatch_confidential req u : confidential_payload req = true -> idle (dispatch_hook req u).
Proof.
  unfold confidential_payload, dispatch_hook. destruct (rq_event req) as [hd|]; [|done].
  destruct (decide (hd ∈ _)) as [Hin|Hnin].
  - intros Hc. unfold handle_issue, handle_merge_request, handle_epic. rewrite Hc.
    repeat (destruct (decide _) as [->|?]); auto 6 with idle;
      first [by destruct (_ || _); auto with idle
            | exfalso; rewrite !elem_of_cons, elem_of_nil in Hin; naive_solver].
  - destruct (decide (hd = "Note Hook" /\ _)) as [[-> Hn]|]; [|done]. intros Hc.
    unfold handle_note. rewrite Hc.
    repeat (destruct (decide _); try done); auto with idle; set_solver.
Qed.

(** [authorize] lets a request through only with the stored secret. *)
Lemma authorize_token key req b h h' :
  authorize key req b h = (Ok None, h') ->
  exists c tok, (getCredential key (bd_webhookSecretRef b) (creds h)).1 = Ok (Some c) /\
    rq_token req = Some tok /\ tok <> "" /\ tok = cr_plaintext c.
Proof.
  unfold authorize, bind, on_creds.
  destruct (getCredential _ _ (creds h)) as [[[c|]|e] cs]; [|done|done].
  destruct (rq_token req) as [[|a tok]|]; [done| |done].
  unfold token_matches, timingSafeEqual.
  destruct (bool_decide (String.length _ = _)); [|done].
  case_bool_decide as Ht; [|done]. intros _. by exists c, (String a tok).
Qed.

(** Only authenticated deliveries reach the engine: a request that
    changes a collection of the engine or its queue names an existing
    binding that is not paused, presents exactly that binding's webhook
    secret, and is confidential neither by its hook nor by its payload. *)
Theorem webhook_authorized key req h :
  let h' := (webhook key req h).2 in
  untouched h h' \/
  exists oid b c tok,
    parseObjectId (rq_bindingId req) = Some oid /\
    findOne (fun d => bool_decide (bd_id d = oid)) (bindings (store (engine h))) = Some b /\
    bd_disabled b = false /\
    (getCredential key (bd_webhookSecretRef b) (creds h)).1 = Ok (Some c) /\
    rq_token req = Some tok /\ tok <> "" /\ tok = cr_plaintext c /\
    confidential_hook req = false /\ confidential_payload req = false.
Proof.
  cbn zeta. unfold webhook. destruct (parseObjectId (rq_bindingId req)) as [oid|] eqn:Eid; [|by left].
  pose proof (idle_uuid req h) as Hu. unfold bind at 1.
  destruct (event_uuid req h) as [[u|e] h1] eqn:Eu; [|by left]. cbn [snd] in Hu.
  assert (creds h1 = creds h) as Ec.
  { unfold event_uuid, bind, on_engine, read_clock, ret in Eu.
    destruct (rq_uuid req); by injection Eu as _ <-. }
  destruct (confidential_hook req) eqn:Eh.
  { left. destruct Hu. by split. }
  unfold bind at 1.
  assert (newObjectId (rq_bindingId req) = Some oid) as Enew.
  { unfold parseObjectId in Eid. by destruct (HEX24 _). }
  unfold try_catch, bind at 1, on_engine, on_store, getBinding, with_object_id. rewrite Enew. cbn [gets].
  rewrite set_store_same. destruct Hu as [Hs Hw].
  destruct (findOne _ _) as [b|] eqn:Eb; cbn [ret]; [|by left].
  destruct (bd_disabled b) eqn:Edis; [by left|].
  set (h2 := MkHttp (engine h1) (creds h1) (metrics h1)).
  assert (untouched h h2) as Hh2 by (split; [exact Hs|exact Hw]).
  unfold bind. pose proof (untouched_trans _ _ _ Hh2 (idle_authorize key req b h2)) as Ha.
  destruct (authorize key req b h2) as [[[r|]|e] h3] eqn:Ea; [by left| |by left].
  destruct (confidential_payload req) eqn:Ep.
  - left. apply (untouched_trans _ _ _ Ha). by apply dispatch_confidential.
  - right. apply authorize_token in Ea as (c & tok & Hc & Ht & Hne & Heq). cbn in Hc.
    rewrite Ec in Hc. rewrite <- Hs. by exists oid, b, c, tok.
Qed.

(** The kind an authenticated delivery is enqueued under; [None] when it is
    dropped. *)
Definition hook_kind req : option string :=
  let payload := rq_body req in
  let confidential := is_true_val (prop "object_attributes" "confidential" payload) in
  match rq_event req with
  | Some header =>
      if decide (header = "Issue Hook") then if confidential then None else Some "issue"
      else if decide (header = "Merge Request Hook")
      then if confidential then None else Some "merge_request"
      else if decide (header = "Pipeline Hook")
      then if nullish (prop "merge_request" "iid" payload) then None else Some "pipeline"
      else if decide (header = "Note Hook")
      then
        let t := prop "object_attributes" "noteable_type" payload in
        if decide (t = Some (VStr "Issue") \/ t = None)
        then if is_true_val (prop "issue" "confidential" payload) then None else Some "note"
        else if decide (t = Some (VStr "MergeRequest")) then Some "note" else None
      else if decide (header = "Epic Hook")
      then
        if nullish (prop "object_attributes" "iid" payload) ||
           nullish (prop "object_attributes" "group_id" payload)
        then None else if confidential then None else Some "epic"
      else None
  | None => None
  end.

Lemma dispatch_kind req u :
  match hook_kind req with
  | Some kind => dispatch_hook (X := X) req u =
      accept_event req kind u (prop "object_attributes" "updated_at" (rq_body req))
  | None => idle (dispatch_hook (X := X) req u)
  end.
Proof.
  unfold hook_kind, dispatch_hook, handle_issue, handle_merge_request, handle_pipeline,
    handle_note, handle_epic.
  repeat (destruct_match; cbn zeta; try reflexivity); auto 6 with idle.
Qed.

(** What the checks before the dispatch require of a delivery. *)
Record authorized key req h (b : BindingDoc) : Prop := {
  au_id : exists oid, parseObjectId (rq_bindingId req) = Some oid /\
    findOne (fun d => bool_decide (bd_id d = oid)) (bindings (store (engine h))) = Some b;
  au_hook : confidential_hook req = false;
  au_enabled : bd_disabled b = false;
  au_token : exists c cs tok, getCredential key (bd_webhookSecretRef b) (creds h) = (Ok (Some c), cs) /\
    rq_token req = Some tok /\ tok <> "" /\ tok = cr_plaintext c
}.

(** Accepted deliveries: an authorized delivery is answered 200 and handed
    to the engine exactly once, with the body, uuid and version it carries,
    when its hook is one of the tracked kinds and it is not dropped; and any
    other authorized delivery leaves the engine alone. *)
Theorem webhook_accepts key req h b u v :
  authorized key req h b -> rq_uuid req = Some u ->
  prop "object_attributes" "updated_at" (rq_body req) = Some (VStr v) ->
  match hook_kind req with
  | Some kind =>
      let '(r, e) := enqueueWebhookEvent (rq_bindingId req) kind (rq_body req) u v (engine h) in
      engine (webhook key req h).2 = e /\
      (webhook key req h).1 = match r with Ok _ => Ok accepted_json | Throw ex => Throw ex end
  | None => untouched h (webhook key req h).2
  end.
Proof.
  intros [(oid & Hid & Hb) Hhook Hen (c & cs & tok & Hc & Ht & Hne & Heq)] Hu Hv.
  assert (newObjectId (rq_bindingId req) = Some oid) as Enew.
  { unfold parseObjectId in Hid. by destruct (HEX24 _). }
  set (h1 := MkHttp (engine h) cs (metrics h)).
  assert (webhook key req h = dispatch_hook req u h1) as ->.
  { unfold webhook. rewrite Hid. unfold event_uuid. rewrite Hu. unfold bind at 1. cbn [ret].
    rewrite Hhook. unfold bind at 1, try_catch, bind at 1, on_engine, on_store, getBinding, with_object_id.
    rewrite Enew. cbn [gets]. rewrite Hb, set_store_same. cbn [ret]. rewrite Hen.
    unfold bind at 1, authorize, bind at 1, on_creds. cbn [creds]. rewrite Hc, Ht. subst tok.
    destruct (cr_plaintext c) as [|a t]; [done|].
    unfold token_matches, timingSafeEqual. by rewrite !bool_decide_eq_true_2. }
  pose proof (dispatch_kind req u) as Hk. destruct (hook_kind req) as [kind|].
  - rewrite Hk, Hv. unfold accept_event, version_or_now, h1, bind, on_engine, ret. cbn [engine creds metrics js_String].
    by destruct (enqueueWebhookEvent _ _ _ _ _ _) as [[[]|e] e'].
  - apply (untouched_trans _ h1); [done|apply Hk].
Qed.
End WebhookLaws.

(** ** Closed example *)

Definition hook_binding : BindingDoc :=
  MkBindingDoc "aaaaaaaaaaaaaaaaaaaaaaaa" "ws" "space" 42 "g/p" "cred" "oid-0" None true 0 false.

(** A platform that, unlike [toy_platform], accepts 24-digit ids. *)
Definition hook_parse (s : string) : option string :=
  if String.prefix "oid-" s || bool_decide (s = "aaaaaaaaaaaaaaaaaaaaaaaa") then Some s else None.

Definition hook_platform : Platform.
Proof.
  refine {| clock := fun n => (1000 * Z.of_nat n)%Z;
            newObjectId := hook_parse;
            freshObjectId := toy_object_id;
            parseDate := fun s => Some (Z.of_nat (String.length s));
            dateString := fun z => pretty z;
            toISOString := fun z => pretty z |}.
  - intros s o. unfold hook_parse. destruct (_ || _) eqn:E; [|done]. intros [= <-]. by rewrite E.
  - exact (@freshObjectId_inj toy_platform).
  - intros n. unfold hook_parse, toy_object_id. cbn. by destruct (pretty n).
Defined.

Definition hook_state : Http list unit :=
  MkHttp (MkEngine [] (set_bindings [hook_binding] empty_store) [] (init 10) tt 0 0)
    (putCredential (P := hook_platform) "key"
       (MkPutCredentialInput CkWebhookSecret "s3cret" None None None None) empty_creds).2 [].

Definition hook_request (token : string) (confidential : bool) : Request :=
  MkRequest "aaaaaaaaaaaaaaaaaaaaaaaa" (Some "Issue Hook") (Some token) (Some "uuid-1")
    [("object_attributes", VObj [("iid", VNum 7); ("updated_at", VStr "2024-01-01");
                                 ("confidential", VBool confidential)])].

Lemma hook_authorized : authorized (P := hook_platform) "key" (hook_request "s3cret" false) hook_state hook_binding.
Proof.
  split; try reflexivity.
  - exists "aaaaaaaaaaaaaaaaaaaaaaaa". split; reflexivity.
  - eexists _, _, "s3cret". split; [reflexivity|]. by split_and!.
Qed.

Lemma webhook_accepts_witness :
  let r := webhook (P := hook_platform) "key" (hook_request "s3cret" false) hook_state in
  r.1 = Ok accepted_json /\
  engine r.2 = (enqueueWebhookEvent (P := hook_platform) "aaaaaaaaaaaaaaaaaaaaaaaa" "issue"
                  (rq_body (hook_request "s3cret" false)) "uuid-1" "2024-01-01" (engine hook_state)).2.
Proof.
  cbn zeta.
  pose proof (webhook_accepts (P := hook_platform) "key" (hook_request "s3cret" false) hook_state
    hook_binding "uuid-1" "2024-01-01" hook_authorized eq_refl eq_refl) as E.
  destruct E as [E1 E2]. split; [exact E2|exact E1].
Defined.
