(* ===== verification/MergeRequestsExamples.v ===== *)
(** * The merge-request manager on concrete workspaces

    Witnesses of the theorems of MergeRequestsProofs.v,
    MergeRequestsRemote.v and MergeRequestsLocal.v in the world of
    SyncToy.v, and closed executions that show limits of the manager. *)

From S2P Require Import Prelude JsMap JsString JsVal Metrics Platform Conflict Mongo Store Ids.
From S2P Require Import StatusMap Huly Caches Queue Breaker Engine Sync TxSubscriber FieldSync Issues.
From S2P Require Import SyncToy MergeRequests IssuesProofs IssuesLocal IssuesExamples.
From S2P Require Import MergeRequestsProofs MergeRequestsRemote MergeRequestsLocal.
Open Scope nat_scope.
Open Scope string_scope.
Open Scope list_scope.

Definition toy_token (token : option string) : record :=
  match token with Some t => [("token", VStr t)] | None => [] end.

#[export] Instance toy_mrs : MRGitLabClient ToyGitLab := {
  listMergeRequests _ _ := ret [];
  updateMergeRequest pid iid body :=
    toy_call "updateMergeRequest" iid body ;;! ret [("iid", VNum iid)];
  approveMR _ iid token := toy_call "approveMR" iid (toy_token token) ;;! ret tt;
  unapproveMR _ iid token := toy_call "unapproveMR" iid (toy_token token) ;;! ret tt;
  getProject _ := ret [("pathWithNamespace", VStr "group/project")]
}.

(** One person has linked an account. *)
Definition toy_tokens (_ : string) (person : jsval) : option string :=
  if bool_decide (person = VStr "linked") then Some "tok" else None.

Definition toy_mr_deps : MergeRequestsSyncManagerDeps (Coll := list) (HU := list HulyDoc)
    (GL := ToyGitLab) (AC := unit) :=
  MkMRDeps (toy_load false) None (Some (fun _ _ _ _ _ => ret tt)) (fun w p => ret (toy_tokens w p)).

Definition toy_user (id : Z) : jsval :=
  VObj [("id", VNum id); ("email", VNull); ("name", VStr ""); ("username", VStr "")].

Definition toy_mr (iid : Z) (title : string) (draft : bool) (updated : nat) (more : record) : record :=
  [("iid", VNum iid); ("projectId", VNum 42); ("title", VStr title); ("description", VStr "text");
   ("state", VStr "opened"); ("draft", VBool draft); ("sourceBranch", VStr "feature");
   ("targetBranch", VStr "main"); ("mergeStatus", VStr "unchecked"); ("mergedAt", VNull);
   ("webUrl", VStr "url"); ("labels", VArr []); ("milestone", VNull); ("assignees", VArr []);
   ("updatedAt", VStr (stamp updated))] ++ more.

Definition toy_mr_run (r : record) (s : Store list * ToyX) : res unit * (Store list * ToyX) :=
  mr_applyRemote toy_mr_deps (MkSyncContext "ws") "b" r s.

Definition toy_mr_apply (r : record) (s : Store list * ToyX) : Store list * ToyX := (toy_mr_run r s).2.

Lemma toy_mr_ok r s : (toy_mr_run r s).1 = Ok tt -> mr_applyRemote toy_mr_deps (MkSyncContext "ws") "b" r s = (Ok tt, toy_mr_apply r s).
Proof.
  unfold toy_mr_apply, toy_mr_run. destruct (mr_applyRemote _ _ _ _ _) as [res s']. by intros [= ->].
Qed.

Lemma toy_mr_loads : mr_loads toy_mr_deps "b" (toy_bctx false).
Proof. intros s. eexists. split; [reflexivity|]. repeat split. by left. Qed.

Lemma toy_tokens_answer : tokens_answer toy_mr_deps toy_tokens.
Proof. intros w p [st x]. by exists x. Qed.

(** A mirrored merge request with one approver. *)
Definition toy_mirrored_mr : Store list * ToyX :=
  toy_mr_apply (toy_mr 7 "A" true 1 [("approvedBy", VArr [toy_user 5])]) toy_state.

Definition mr_summary (s : Store list * ToyX) : list (jsval * jsval * jsval) :=
  map (fun d => (prop_of (hd_attrs d) "title", prop_of (hd_attrs d) "priority",
                 prop_of (readMRMixinAttributes (Some d) None) "approvedBy"))
    (issue_docs (HU := list HulyDoc) s).

Lemma mr_created_witness :
  mr_summary toy_mirrored_mr = [(VStr "A", VNum 4, VArr [VStr "stub:gitlab:5"])] /\
  exists (x : ToyX) v s1, resolveMR (toy_bctx false) (toy_mr 7 "A" true 1 [("approvedBy", VArr [toy_user 5])])
    (toy_state.1, x) = (Ok v, s1).
Proof.
  split; [by vm_compute|].
  destruct (mr_created toy_mr_deps (MkSyncContext "ws") "b" (toy_bctx false)
    (toy_mr 7 "A" true 1 [("approvedBy", VArr [toy_user 5])]) toy_state toy_mirrored_mr) as (x & v & s1 & E & _).
  - apply toy_mr_loads.
  - reflexivity.
  - apply toy_mr_ok. by vm_compute.
  - exists x, v, s1. exact E.
Defined.

Definition toy_mr_mapping : IdMapDoc :=
  default (MkIdMapDoc "" KIssue "" "" "")
    (mr_mapped (HU := list HulyDoc) (GL := ToyGitLab) (AC := unit) (toy_bctx false) (toy_mr 7 "A" true 1 []) toy_mirrored_mr).

Definition toy_mr_doc : HulyDoc :=
  default (MkHulyDoc "" "" "" [] []) (issue_at (HU := list HulyDoc) (im_hulyRef toy_mr_mapping) toy_mirrored_mr).

Lemma toy_mr_fields : mr_fields_ok (hd_attrs toy_mr_doc).
Proof.
  split; [|by vm_compute].
  intros k Hk. unfold MR_FIELDS in Hk. rewrite !elem_of_cons, elem_of_nil in Hk.
  by destruct Hk as [->|[->|[->|[->|[->|[->|[->|[]]]]]]]]; vm_compute.
Qed.

Lemma mr_updated_witness :
  mr_summary (toy_mr_apply (toy_mr 7 "B" false 3 []) toy_mirrored_mr) =
    [(VStr "B", VNum 4, VArr [VStr "stub:gitlab:5"])] /\
  exists (x : ToyX) v s1 d', resolveMR (toy_bctx false) (toy_mr 7 "B" false 3 []) (toy_mirrored_mr.1, x) = (Ok v, s1) /\
    issue_at (im_hulyRef toy_mr_mapping) (toy_mr_apply (toy_mr 7 "B" false 3 []) toy_mirrored_mr) = Some d'.
Proof.
  split; [by vm_compute|].
  destruct (mr_updated toy_mr_deps (MkSyncContext "ws") "b" (toy_bctx false) (toy_mr 7 "B" false 3 [])
    toy_mirrored_mr (toy_mr_apply (toy_mr 7 "B" false 3 []) toy_mirrored_mr) toy_mr_mapping toy_mr_doc)
    as (x & v & s1 & d' & E & _ & E' & _).
  - apply toy_mr_loads.
  - by vm_compute.
  - by vm_compute.
  - exact I.
  - apply toy_mr_fields.
  - apply toy_mr_ok. by vm_compute.
  - exists x, v, s1, d'. split; [exact E|exact E'].
Defined.

Lemma mr_mixins_owned_witness :
  exists d', issue_at (im_hulyRef toy_mr_mapping) (toy_mr_apply (toy_mr 7 "B" false 3 []) toy_mirrored_mr) = Some d' /\
    jget "approvedBy" (review_attrs d') = Some (VArr [VStr "stub:gitlab:5"]).
Proof.
  destruct (mr_mixins_owned toy_mr_deps (MkSyncContext "ws") "b" (toy_bctx false) (toy_mr 7 "B" false 3 [])
    toy_mirrored_mr (toy_mr_apply (toy_mr 7 "B" false 3 []) toy_mirrored_mr) toy_mr_mapping toy_mr_doc)
    as (x & v & s1 & d' & E & E' & _).
  - apply toy_mr_loads.
  - by vm_compute.
  - by vm_compute.
  - apply toy_mr_ok. by vm_compute.
  - exists d'. split; [exact E'|]. revert E'. vm_compute. by intros [= <-].
Defined.

Lemma split_mixins_equivalent_witness :
  let d := MkHulyDoc "1" HULY_CLASS_ISSUE "proj" [] [] in
  match buildMixinCreateData (toy_mr 7 "A" false 1 [("approvalsRequired", VNum 2)]) VUndef VUndef,
        buildReviewFromSyncMR (toy_mr 7 "A" false 1 [("approvalsRequired", VNum 2)]) VUndef VUndef with
  | Ok legacy, Ok review =>
      readMRMixinAttributes (Some (write_review review (write_core (toy_mr 7 "A" false 1 [("approvalsRequired", VNum 2)]) d))) None ≡
      readMRMixinAttributes (Some (set_mixin MR_MIXIN (withOriginatedMarker legacy) d)) None
  | _, _ => False
  end.
Proof.
  exact (split_mixins_equivalent (toy_mr 7 "A" false 1 [("approvalsRequired", VNum 2)]) VUndef VUndef
    (MkHulyDoc "1" HULY_CLASS_ISSUE "proj" [] []) eq_refl).
Defined.

Lemma resolveMR_typed_witness :
  let r := toy_mr 7 "A" false 1 [("reviewers", VArr [toy_user 5])] in
  exists v s', resolveMR (toy_bctx false) r toy_state = (Ok v, s') /\ wf_mr_view r v.
Proof.
  cbn zeta. eexists _, _. split; [vm_compute; reflexivity|].
  eapply resolveMR_typed with (bctx := toy_bctx false) (s := toy_state). vm_compute. reflexivity.
Defined.

(** The linked person approves, the mirrored approver is removed. *)
Definition toy_mr_change : record := [("title", VStr "R"); ("approvedBy", VArr [VStr "linked"])].

Definition toy_mr_pushed : Store list * ToyX :=
  (mr_applyLocal toy_mr_deps (MkSyncContext "ws") "b" (im_hulyRef toy_mr_mapping) toy_mr_change toy_mirrored_mr).2.

Lemma mr_local_pushed_witness :
  sy_gitlab toy_mr_pushed.2 =
    [("updateMergeRequest", 7%Z, [("title", VStr "R")]); ("approveMR", 7%Z, [("token", VStr "tok")]);
     ("unapproveMR", 7%Z, [])] /\
  exists body g, mr_pushes (bx_statuses (toy_bctx false)) toy_mr_change body /\
    approvals_done (toy_tokens "ws") (toy_bctx false) (Some toy_mr_doc) 7 (VArr [VStr "linked"]) g
      (sy_gitlab toy_mr_pushed.2).
Proof.
  split; [by vm_compute|].
  pose proof (mr_local_pushed toy_mr_deps toy_tokens (MkSyncContext "ws") "b" (toy_bctx false)
    (im_hulyRef toy_mr_mapping) toy_mr_change toy_mirrored_mr toy_mr_pushed) as Hp.
  assert (huly_mapping (toy_bctx false) (im_hulyRef toy_mr_mapping) toy_mirrored_mr = Some toy_mr_mapping) as Em
    by by vm_compute.
  assert (parseIid (im_gitlabId toy_mr_mapping) = Some 7%Z) as Ei by by vm_compute.
  assert (issue_at (stripDocPrefix (im_hulyRef toy_mr_mapping)) toy_mirrored_mr = Some toy_mr_doc) as Ed
    by by vm_compute.
  rewrite Em, Ei, Ed in Hp. destruct Hp as (body & g & Hb & _ & Ha & _).
  - apply toy_mr_loads.
  - apply toy_tokens_answer.
  - reflexivity.
  - by left.
  - unfold toy_mr_pushed.
    assert ((mr_applyLocal toy_mr_deps (MkSyncContext "ws") "b" (im_hulyRef toy_mr_mapping) toy_mr_change
      toy_mirrored_mr).1 = Ok tt) as E by by vm_compute.
    destruct (mr_applyLocal _ _ _ _ _ _) as [res s']. cbn [fst snd] in *. by rewrite E.
  - exists body, g. split; [exact Hb|exact Ha].
Defined.

Lemma mr_hook_body_never_applied_witness :
  exists e, (mr_applyRemote toy_mr_deps (MkSyncContext "ws") "b"
    [("object_kind", VStr "merge_request"); ("object_attributes", VObj [("iid", VNum 7)])] toy_state).1 = Throw e.
Proof. apply mr_hook_body_never_applied. by vm_compute. Defined.

(** The race guard compares numbers of approvers: an approval made in Huly
    that GitLab does not list yet is dropped when somebody else's arrives
    instead, within the window in which the guard should keep it. *)
Theorem approval_swap_lost :
  mr_summary toy_mirrored_mr = [(VStr "A", VNum 4, VArr [VStr "stub:gitlab:5"])] /\
  mr_summary (toy_mr_apply (toy_mr 7 "A" true 1 [("approvedBy", VArr [])]) toy_mirrored_mr) =
    [(VStr "A", VNum 4, VArr [VStr "stub:gitlab:5"])] /\
  mr_summary (toy_mr_apply (toy_mr 7 "A" true 1 [("approvedBy", VArr [toy_user 6])]) toy_mirrored_mr) =
    [(VStr "A", VNum 4, VArr [VStr "stub:gitlab:6"])].
Proof. by vm_compute. Qed.
