(* ===== verification/Pipeline.v ===== *)
(** * The pipeline sync manager (src/sync/pipeline.ts)

    Writes the CI status of a pipeline onto the document of its merge
    request; nothing flows back and there is no backfill. *)

From S2P Require Import Prelude JsMap JsString JsVal Metrics Platform Conflict Mongo Store Ids.
From S2P Require Import StatusMap Huly Caches Queue Breaker Engine Sync TxSubscriber FieldSync Issues.
From S2P Require Import SyncToy MergeRequests IssuesProofs IssuesExamples MergeRequestsProofs.
From S2P Require Import MergeRequestsRemote MergeRequestsExamples.
Open Scope nat_scope.
Open Scope string_scope.
Open Scope list_scope.

Definition getPipelineLruDropCount (c : counters) : Z := metric PIPELINE_LRU_DROP c.
Definition incrementPipelineLruDrop (c : counters) : counters := increment PIPELINE_LRU_DROP c.
Definition getUnboundPipelineCount (c : counters) : Z := metric WEBHOOK_UNBOUND_PIPELINE c.

Section Pipeline.
Context {Coll : Type -> Type} `{Mongo Coll} {P : Platform} `{Sha256}.
Context {HU GL AC : Type} `{HulyClient HU}.
Abbreviation X := (SyncState HU GL AC).
Abbreviation MM := (M (Store Coll * X)).

Record PipelineSyncManagerDeps := MkPipelineDeps {
  pl_loadBinding : string -> MM BindingContext
}.

Context (deps : PipelineSyncManagerDeps).

Definition pl_resourceKey (r : record) : option string :=
  let top :=
    match as_number (field "id" r) with
    | Some id => Some ("pipeline:" +:+ num_to_string id)
    | None => None
    end in
  match as_object (field "object_attributes" r) with
  | Some attrs =>
      match as_number (field "id" attrs) with
      | Some id => Some ("pipeline:" +:+ num_to_string id)
      | None => top
      end
  | None => top
  end.

Definition pl_applyRemote (ctx : SyncContext) (binding : string) (syncPipeline : record) : MM unit :=
  match prop_of syncPipeline "mergeRequestIid" with
  | VNull => count WEBHOOK_UNBOUND_PIPELINE
  | mergeRequestIid =>
      let! bctx := pl_loadBinding deps binding in
      let gitlabId := scoped_key bctx mergeRequestIid in
      let! mrRef := on_db (findByGitlab (bx_workspaceUuid bctx) KMergeRequest gitlabId) in
      match mrRef with
      | None => ret tt
      | Some mapping =>
          on_huly (updateMixin (im_hulyRef mapping) HULY_CLASS_ISSUE (bx_hulyProjectRef bctx) MR_MIXIN
            (withOriginatedMarker [("pipelineStatus", prop_of syncPipeline "status")]))
      end
  end.

Definition pl_applyLocal (ctx : SyncContext) (binding doc : string) (change : record) : MM unit := ret tt.

Definition pl_backfill (ctx : SyncContext) (binding : string) (since : option jsdate) : MM unit := ret tt.

(** The manager, as the engine sees it. *)
Definition pipeline_manager : SyncManager Coll X :=
  MkSyncManager "pipeline" pl_applyRemote pl_applyLocal pl_backfill (Some pl_resourceKey).
End Pipeline.

(** ** Theorems *)

Section Remote.
Context {Coll : Type -> Type} `{HL : MongoLaws Coll} {P : Platform} `{Sha256}.
Context {HU GL AC : Type} `{HHL : HulyLaws HU}.
Abbreviation X := (SyncState HU GL AC).
Implicit Types (deps : PipelineSyncManagerDeps (Coll := Coll) (HU := HU) (GL := GL) (AC := AC))
  (s : Store Coll * X).

(** What a successful run does: it counts a pipeline without a merge
    request, ignores one whose request is not mirrored, and otherwise sets
    one field of one mixin of one document. *)
Lemma pl_applyRemote_run deps ctx binding bctx r s s' :
  loads_with (pl_loadBinding deps) binding bctx ->
  pl_applyRemote deps ctx binding r s = (Ok tt, s') ->
  s'.1 = s.1 /\
  docs (sy_huly s'.2) =
    if bool_decide (prop_of r "mergeRequestIid" = VNull) then docs (sy_huly s.2)
    else match findOne (by_gitlab (bx_workspaceUuid bctx) KMergeRequest
                 (scoped_key bctx (prop_of r "mergeRequestIid"))) (idmap s.1) with
         | None => docs (sy_huly s.2)
         | Some m => on_doc (im_hulyRef m)
             (change_mixin (undefined_removes HU) MR_MIXIN
               (withOriginatedMarker [("pipelineStatus", prop_of r "status")]))
             (docs (sy_huly s.2))
         end.
Proof.
  intros Hl. unfold pl_applyRemote. destruct (decide (prop_of r "mergeRequestIid" = VNull)) as [E|E].
  { rewrite E, bool_decide_eq_true_2 by done. by intros [= <-]. }
  rewrite bool_decide_eq_false_2 by done. intros Hr.
  assert (forall A (y z : A), match prop_of r "mergeRequestIid" with VNull => y | _ => z end = z) as Em
    by by destruct (prop_of r "mergeRequestIid").
  destruct (Hl s) as (x & El & Hd & _).
  assert ((let! mrRef := on_db (findByGitlab (bx_workspaceUuid bctx) KMergeRequest
             (scoped_key bctx (prop_of r "mergeRequestIid"))) in
           match mrRef with
           | None => ret tt
           | Some mapping =>
               on_huly (updateMixin (im_hulyRef mapping) HULY_CLASS_ISSUE (bx_hulyProjectRef bctx) MR_MIXIN
                 (withOriginatedMarker [("pipelineStatus", prop_of r "status")]))
           end) (s.1, x) = (Ok tt, s')) as Hr'.
  { destruct (prop_of r "mergeRequestIid"); try done; by rewrite (bind_ok _ _ _ _ _ El) in Hr. }
  unfold bind at 1, on_db, zoom, findByGitlab, gets in Hr'. cbn [fst snd] in Hr'.
  destruct (findOne _ (idmap s.1)) as [m|]; [|injection Hr' as <-; by cbn [fst snd]].
  apply huly_run in Hr' as (h & Eh & ->). apply updateMixin_ok in Eh. cbn [fst snd] in *.
  cbn [set_huly sy_huly]. by rewrite Eh, Hd.
Qed.

(** a pipeline hook body carries its merge request below [merge_request]:
    without a top-level [mergeRequestIid] the status reaches no document,
    unless a merge request is mapped under the key that ends in
    [undefined]; and there is no backfill that would bring it later. *)
Theorem pipeline_hook_body_dropped deps ctx binding bctx r s s' :
  loads_with (pl_loadBinding deps) binding bctx ->
  jget "mergeRequestIid" r = None ->
  findOne (by_gitlab (bx_workspaceUuid bctx) KMergeRequest (scoped_key bctx VUndef)) (idmap s.1) = None ->
  pl_applyRemote deps ctx binding r s = (Ok tt, s') ->
  s'.1 = s.1 /\ docs (sy_huly s'.2) = docs (sy_huly s.2) /\
  forall since, pl_backfill ctx binding since s' = (Ok tt, s').
Proof.
  intros Hl Hm Hf Hr. destruct (pl_applyRemote_run _ _ _ _ _ _ _ Hl Hr) as [E1 E2].
  unfold prop_of in E2. rewrite Hm in E2. cbn [default from_option id] in E2.
  rewrite bool_decide_eq_false_2, Hf in E2 by done. done.
Qed.

(** the pipeline status is written to the mixin that was split: on a
    document that has the core mixin - every request the manager mirrors -
    applying a pipeline changes no attribute that [readMRMixinAttributes]
    answers, of this document or any other. *)
Theorem pipeline_status_unread deps ctx binding bctx r s s' :
  loads_with (pl_loadBinding deps) binding bctx ->
  pl_applyRemote deps ctx binding r s = (Ok tt, s') ->
  forall ref d, issue_at ref s = Some d -> is_Some (mixin_of MR_CORE_MIXIN d) ->
    exists d', issue_at ref s' = Some d' /\ hd_attrs d' = hd_attrs d /\
      readMRMixinAttributes (Some d') None = readMRMixinAttributes (Some d) None.
Proof.
  intros Hl Hr ref d Hd [c Hc]. destruct (pl_applyRemote_run _ _ _ _ _ _ _ Hl Hr) as [_ E].
  destruct (bool_decide _); [exists d; unfold issue_at in *; by rewrite E|].
  destruct (findOne _ _) as [m|]; [|exists d; unfold issue_at in *; by rewrite E].
  set (f := change_mixin _ _ _) in E.
  rewrite (issue_at_on_doc ref (im_hulyRef m) f s s') by done. rewrite Hd. cbn [option_map].
  destruct (decide (ref = im_hulyRef m)); [|by exists d].
  exists (f d). split_and!; [done|done|].
  unfold readMRMixinAttributes, f, mixin_of, change_mixin in *. cbn [hd_mixins].
  rewrite !jget_set_ne by done. by rewrite Hc.
Qed.
End Remote.

(** ** Closed examples *)

Definition toy_pl_deps : PipelineSyncManagerDeps (Coll := list) (HU := list HulyDoc) (GL := ToyGitLab) (AC := unit) :=
  MkPipelineDeps (toy_load false).

Definition toy_pipeline (iid : jsval) : record :=
  [("id", VNum 99); ("mergeRequestIid", iid); ("status", VStr "success")].

Lemma toy_pl_loads : loads_with (pl_loadBinding toy_pl_deps) "b" (toy_bctx false).
Proof. intros s. eexists. split; [reflexivity|]. repeat split. by left. Qed.

Definition toy_pl_apply (r : record) (s : Store list * ToyX) : Store list * ToyX :=
  (pl_applyRemote toy_pl_deps (MkSyncContext "ws") "b" r s).2.

Lemma pipeline_hook_body_dropped_witness :
  docs (sy_huly (toy_pl_apply [("object_kind", VStr "pipeline"); ("merge_request", VObj [("iid", VNum 7)])]
    toy_mirrored_mr).2) = docs (sy_huly toy_mirrored_mr.2).
Proof.
  destruct (pipeline_hook_body_dropped toy_pl_deps (MkSyncContext "ws") "b" (toy_bctx false)
    [("object_kind", VStr "pipeline"); ("merge_request", VObj [("iid", VNum 7)])] toy_mirrored_mr
    (toy_pl_apply [("object_kind", VStr "pipeline"); ("merge_request", VObj [("iid", VNum 7)])] toy_mirrored_mr))
    as (_ & E & _).
  - apply toy_pl_loads.
  - reflexivity.
  - by vm_compute.
  - by vm_compute.
  - exact E.
Defined.

Lemma pipeline_status_unread_witness :
  exists d', issue_at (im_hulyRef toy_mr_mapping) (toy_pl_apply (toy_pipeline (VNum 7)) toy_mirrored_mr) = Some d' /\
    mixin_of MR_MIXIN d' = Some [("pipelineStatus", VStr "success"); ("_originated", VStr "gitlab")] /\
    readMRMixinAttributes (Some d') None = readMRMixinAttributes (Some toy_mr_doc) None.
Proof.
  destruct (pipeline_status_unread toy_pl_deps (MkSyncContext "ws") "b" (toy_bctx false)
    (toy_pipeline (VNum 7)) toy_mirrored_mr (toy_pl_apply (toy_pipeline (VNum 7)) toy_mirrored_mr))
    with (ref := im_hulyRef toy_mr_mapping) (d := toy_mr_doc) as (d' & E & _ & Er).
  - apply toy_pl_loads.
  - by vm_compute.
  - by vm_compute.
  - vm_compute. by eexists.
  - exists d'. split; [exact E|]. split; [|exact Er]. revert E. vm_compute. by intros [= <-].
Defined.
