(* ===== verification/Epics.v ===== *)
(** * The epics sync manager (src/sync/epics.ts)

    Mirrors a GitLab epic as a tracker issue with an epic mixin and writes
    the epic's iid as the parent of each child that is mirrored.  Nothing
    flows back. *)

From S2P Require Import Prelude JsMap JsString JsVal Metrics Platform Conflict Mongo Store Ids.
From S2P Require Import StatusMap Huly Caches Queue Breaker Engine Sync TxSubscriber FieldSync Issues.
From S2P Require Import MergeRequests.
Open Scope nat_scope.
Open Scope string_scope.
Open Scope list_scope.

Definition MR_EPIC_MIXIN : string := "gitlab-epic".

(** The GitLab calls of the manager; of the issues of an epic it uses the
    iids. *)
Class EpicGitLabClient (G : Type) := {
  listEpics : forall (groupId : Z) (updatedAfter : option jsdate), M G (list record);
  listEpicIssues : forall (groupId : Z) (epicIid : jsval), M G (list jsval);
  resolveTopLevelGroupForProject : forall (projectId : Z), M G Z
}.

(** The binding context and the edition of the capabilities, when known. *)
Record EpicsBindingContext := MkEpicsContext {
  ep_bctx : BindingContext;
  ep_edition : option string
}.

(** [v.slice()] *)
Definition js_slice (v : jsval) : res jsval :=
  match v with VArr _ | VStr _ => Ok v | _ => Throw (JsError "TypeError") end.

Definition buildEpicMixinCreateData (syncEpic : record) : res record :=
  let? children := js_slice (prop_of syncEpic "childIssueIids") in
  Ok [("epicIid", prop_of syncEpic "iid");
      ("groupId", prop_of syncEpic "groupId");
      ("state", prop_of syncEpic "state");
      ("webUrl", prop_of syncEpic "webUrl");
      ("childIssueIids", children)].

Definition buildEpicMixinUpdateData (syncEpic : record) : res record :=
  let? children := js_slice (prop_of syncEpic "childIssueIids") in
  Ok [("state", prop_of syncEpic "state");
      ("webUrl", prop_of syncEpic "webUrl");
      ("childIssueIids", children)].

(** The loop of [pickBacklogStatus]: these keywords are case-sensitive. *)
Definition is_backlog_status (s : Status) : bool :=
  let cat := default "" (st_category s) in includes "Backlog" cat || includes "ToDo" cat.

Definition pickBacklogStatus (statuses : list Status) : option string :=
  match js_find is_backlog_status statuses with
  | Some s => Some (st_id s)
  | None => option_map st_id (head statuses)
  end.

Section Epics.
Context {Coll : Type -> Type} `{Mongo Coll} {P : Platform} `{Sha256} `{Markdown}.
Context {HU GL AC : Type} `{HulyClient HU} `{EpicGitLabClient GL}.
Abbreviation X := (SyncState HU GL AC).
Abbreviation MM := (M (Store Coll * X)).

Record EpicsSyncManagerDeps := MkEpicsDeps {
  ep_loadBinding : string -> MM EpicsBindingContext;
  ep_enqueuer : option (string -> string -> record -> string -> string -> MM unit);
  ep_backfillEnqueuer : option (string -> string -> record -> string -> string -> MM unit)
}.

Context (deps : EpicsSyncManagerDeps).

Definition ep_resourceKey (r : record) : option string :=
  let top :=
    match as_number (field "iid" r) with
    | Some iid => Some ("epic:" +:+ num_to_string iid)
    | None => None
    end in
  match as_object (field "object_attributes" r) with
  | Some objAttrs =>
      match as_number (field "iid" objAttrs) with
      | Some i => Some ("epic:" +:+ num_to_string i)
      | None => top
      end
  | None => top
  end.

Definition ep_enqueueRecord (binding kind : string) (r : record) (eventId version : string) : MM unit :=
  match ep_backfillEnqueuer deps with
  | Some f => f binding kind r eventId version
  | None =>
      match ep_enqueuer deps with
      | Some f => f binding kind r eventId version
      | None => ret tt
      end
  end.

(** [`${syncEpic.groupId}:${syncEpic.iid}`], prefixed *)
Definition epic_key (bctx : BindingContext) (syncEpic : record) : string :=
  prefixGitlabIdForMultiInstance (is_multi bctx) (bx_gitlabBaseUrl bctx)
    (join_colon (js_String (prop_of syncEpic "groupId")) (js_String (prop_of syncEpic "iid"))).

Definition epic_image_url (bctx : BindingContext) (syncEpic : record) : string :=
  strip_trailing_slash (bx_gitlabBaseUrl bctx) +:+ "/groups/" +:+ js_String (prop_of syncEpic "groupId").

Definition epic_attrs (bctx : BindingContext) (syncEpic : record) (markup statusRef : string)
    (remoteTsMs : jsval) : record :=
  withOriginatedMarker
    [("title", prop_of syncEpic "title");
     ("description", VStr markup);
     ("status", VStr statusRef);
     ("priority", VNum IssuePriority_NoPriority);
     ("assignee", VNull);
     ("labels", VArr []);
     ("milestone", VNull);
     ("kind", VStr (bx_defaultTaskType bctx));
     ("modifiedOn", remoteTsMs)].

Definition create_epic (bctx : BindingContext) (gitlabId : string) (syncEpic : record)
    (markup statusRef : string) (remoteTsMs : jsval) : MM unit :=
  let! issueRef := on_huly (createDoc HULY_CLASS_ISSUE (bx_hulyProjectRef bctx)
                     (epic_attrs bctx syncEpic markup statusRef remoteTsMs)) in
  on_db (upsertIdMap (bx_workspaceUuid bctx) KEpic gitlabId HULY_CLASS_ISSUE issueRef) ;;!
  let! data := lift_res (buildEpicMixinCreateData syncEpic) in
  on_huly (createMixin issueRef HULY_CLASS_ISSUE (bx_hulyProjectRef bctx) MR_EPIC_MIXIN
    (withOriginatedMarker data)).

(** [update] and [dirty] for a document that is not newer. *)
Definition epic_update_of (hulyIssue syncEpic : record) (markup : string) : record :=
  let update :=
    if strict_eq (prop_of hulyIssue "title") (prop_of syncEpic "title") then []
    else [("title", prop_of syncEpic "title")] in
  if strict_eq (prop_of hulyIssue "description") (VStr markup) then update
  else jset "description" (VStr markup) update.

Definition update_epic (bctx : BindingContext) (issueRef : string) (hulyIssue syncEpic : record)
    (markup : string) (remoteTsMs : jsval) : MM unit :=
  let localTsMs := prop_of hulyIssue "modifiedOn" in
  let update := epic_update_of hulyIssue syncEpic markup in
  when ((js_le localTsMs (VNum 0) || js_lt localTsMs remoteTsMs) && negb (bool_decide (update = [])))
    (on_huly (updateDoc HULY_CLASS_ISSUE (bx_hulyProjectRef bctx) issueRef
       (jset "modifiedOn" remoteTsMs update))) ;;!
  let! data := lift_res (buildEpicMixinUpdateData syncEpic) in
  on_huly (updateMixin issueRef HULY_CLASS_ISSUE (bx_hulyProjectRef bctx) MR_EPIC_MIXIN
    (withOriginatedMarker data)).

(** [{ parentEpicIid: syncEpic.iid }] on the review mixin of a child *)
Definition set_parent (bctx : BindingContext) (syncEpic : record) (childRef : string) : MM unit :=
  on_huly (updateMixin childRef HULY_CLASS_ISSUE (bx_hulyProjectRef bctx) MR_REVIEW_MIXIN_DOC
    (withOriginatedMarker [("parentEpicIid", prop_of syncEpic "iid")])).

Definition propagate_child (bctx : BindingContext) (syncEpic : record) (childIid : jsval) : MM unit :=
  let childGitlabId := scoped_key bctx childIid in
  let! mrChild := on_db (findByGitlab (bx_workspaceUuid bctx) KMergeRequest childGitlabId) in
  match mrChild with
  | Some m => set_parent bctx syncEpic (im_hulyRef m)
  | None =>
      let! issueChild := on_db (findByGitlab (bx_workspaceUuid bctx) KIssue childGitlabId) in
      match issueChild with
      | Some m => set_parent bctx syncEpic (im_hulyRef m)
      | None => count EPIC_CHILD_DEFERRED
      end
  end.

(** The end of [applyRemote], after the document is there. *)
Definition propagate_children (bctx : BindingContext) (binding : string) (syncEpic : record) : MM unit :=
  let! children := iterate (prop_of syncEpic "childIssueIids") in
  forM_ children (propagate_child bctx syncEpic) ;;!
  on_db (setCursor binding CEpics (new_Date (prop_of syncEpic "updatedAt"))).

Definition is_ee (ctx : EpicsBindingContext) : bool :=
  match ep_edition ctx with Some e => bool_decide (e = "ee") | None => true end.

Definition ep_applyRemote (ctx : SyncContext) (binding : string) (syncEpic : record) : MM unit :=
  let! ectx := ep_loadBinding deps binding in
  let bctx := ep_bctx ectx in
  if negb (is_ee ectx) then count EPIC_EE_SKIPPED
  else
    let gitlabId := epic_key bctx syncEpic in
    let! existing := on_db (findByGitlab (bx_workspaceUuid bctx) KEpic gitlabId) in
    let! markup := lift_res (gfmMarkdownToMarkup (prop_of syncEpic "description")
                     (epic_image_url bctx syncEpic +:+ "/-/epics") (epic_image_url bctx syncEpic)) in
    match pickBacklogStatus (bx_statuses bctx) with
    | None => ret tt
    | Some statusRef =>
        let! remoteTsMs := call_getTime (prop_of syncEpic "updatedAt") in
        match existing with
        | None =>
            create_epic bctx gitlabId syncEpic markup statusRef remoteTsMs ;;!
            propagate_children bctx binding syncEpic
        | Some mapping =>
            let! found := on_huly (findOneDoc HULY_CLASS_ISSUE [("_id", VStr (im_hulyRef mapping))]) in
            match found with
            | None => ret tt
            | Some d =>
                update_epic bctx (im_hulyRef mapping) (hd_attrs d) syncEpic markup remoteTsMs ;;!
                propagate_children bctx binding syncEpic
            end
        end
    end.

Definition ep_applyLocal (ctx : SyncContext) (binding doc : string) (change : record) : MM unit := ret tt.

Definition ep_backfill (ctx : SyncContext) (binding : string) (since : option jsdate) : MM unit :=
  let! ectx := ep_loadBinding deps binding in
  let! topGroupId := on_gitlab (resolveTopLevelGroupForProject (bx_gitlabProjectId (ep_bctx ectx))) in
  let! epics := on_gitlab (listEpics topGroupId since) in
  forM_ epics (fun epic =>
    let! iids := on_gitlab (listEpicIssues topGroupId (prop_of epic "iid")) in
    let enriched := jset "childIssueIids" (VArr iids) epic in
    let! versionIso := to_iso (prop_of enriched "updatedAt") in
    ep_enqueueRecord binding "epic" enriched
      ("backfill:epic:" +:+ js_String (prop_of enriched "groupId") +:+ ":" +:+
       js_String (prop_of enriched "iid") +:+ ":" +:+ versionIso)
      versionIso).

(** The manager, as the engine sees it. *)
Definition epics_manager : SyncManager Coll X :=
  MkSyncManager "epic" ep_applyRemote ep_applyLocal ep_backfill (Some ep_resourceKey).
End Epics.
