(* ===== verification/EpicsProofs.v ===== *)
(** * Correctness of the epics manager

    Which documents get the parent of an epic, and a closed example of a
    child that is mistaken for a merge request. *)

From S2P Require Import Prelude JsMap JsString JsVal Metrics Platform Conflict Mongo Store Ids.
From S2P Require Import StatusMap Huly Caches Queue Breaker Engine Sync TxSubscriber FieldSync Issues.
From S2P Require Import SyncToy MergeRequests IssuesProofs IssuesExamples MergeRequestsProofs.
From S2P Require Import MergeRequestsRemote MergeRequestsExamples Epics.
Open Scope nat_scope.
Open Scope string_scope.
Open Scope list_scope.

Section Parents.
Context {Coll : Type -> Type} `{HL : MongoLaws Coll} {P : Platform} `{Sha256} `{Markdown}.
Context {HU GL AC : Type} `{HHL : HulyLaws HU} `{EpicGitLabClient GL}.
Abbreviation X := (SyncState HU GL AC).
Implicit Types (deps : EpicsSyncManagerDeps (Coll := Coll) (HU := HU) (GL := GL) (AC := AC))
  (s : Store Coll * X).

Definition ep_loads deps (binding : string) (ectx : EpicsBindingContext) : Prop :=
  forall s, exists x, ep_loadBinding deps binding s = (Ok ectx, (s.1, x)) /\
    docs (sy_huly x) = docs (sy_huly s.2).

Definition epic_mapped (bctx : BindingContext) (r : record) s : option IdMapDoc :=
  findOne (by_gitlab (bx_workspaceUuid bctx) KEpic (epic_key bctx r)) (idmap s.1).

(** The document a child iid stands for: the mirrored merge request with
    that iid, else the mirrored issue. *)
Definition child_ref (bctx : BindingContext) s (childIid : jsval) : option string :=
  let lookup kind :=
    option_map im_hulyRef
      (findOne (by_gitlab (bx_workspaceUuid bctx) kind (scoped_key bctx childIid)) (idmap s.1)) in
  match lookup KMergeRequest with Some ref => Some ref | None => lookup KIssue end.

Definition child_refs (bctx : BindingContext) s (children : list jsval) : list string :=
  omap (child_ref bctx s) children.

Definition parent_mixin (removes : bool) (r : record) : HulyDoc -> HulyDoc :=
  change_mixin removes MR_REVIEW_MIXIN_DOC (withOriginatedMarker [("parentEpicIid", prop_of r "iid")]).

Lemma propagate_child_run bctx r c s s' :
  propagate_child bctx r c s = (Ok tt, s') ->
  s'.1 = s.1 /\
  docs (sy_huly s'.2) =
    match child_ref bctx s c with
    | Some ref => on_doc ref (parent_mixin (undefined_removes HU) r) (docs (sy_huly s.2))
    | None => docs (sy_huly s.2)
    end.
Proof.
  unfold propagate_child, child_ref. cbn zeta. intros Hr.
  unfold bind at 1, on_db at 1, zoom at 1, findByGitlab, gets in Hr. cbn [fst snd] in Hr.
  destruct s as [st x]. cbn [fst snd] in *.
  destruct (findOne (by_gitlab _ KMergeRequest _) _) as [m|]; cbn [option_map].
  - apply huly_run in Hr as (h & Eh & ->). by apply updateMixin_ok in Eh.
  - unfold bind, on_db, zoom in Hr. cbn [fst snd] in Hr.
    destruct (findOne (by_gitlab _ KIssue _) _) as [m|]; cbn [option_map].
    + apply huly_run in Hr as (h & Eh & ->). by apply updateMixin_ok in Eh.
    + by injection Hr as <-.
Qed.

(** A document after the propagation: only the parent field of the review
    mixin may differ, and does for a child. *)
Record parented (r : record) (is_child : bool) (d d' : HulyDoc) : Prop := {
  pa_attrs : hd_attrs d' = hd_attrs d;
  pa_mixins : forall mixin, mixin <> MR_REVIEW_MIXIN_DOC -> mixin_of mixin d' = mixin_of mixin d;
  pa_review : forall k, k <> "parentEpicIid" -> k <> "_originated" ->
    jget k (review_attrs d') = jget k (review_attrs d);
  pa_parent : jget "parentEpicIid" (review_attrs d') =
    if is_child then Some (prop_of r "iid") else jget "parentEpicIid" (review_attrs d)
}.

Lemma parented_refl r d : parented r false d d.
Proof. by split. Qed.

Lemma parented_trans r b1 b2 d1 d2 d3 :
  parented r b1 d1 d2 -> parented r b2 d2 d3 -> parented r (b1 || b2) d1 d3.
Proof.
  intros [A1 M1 R1 P1] [A2 M2 R2 P2]. split.
  - congruence.
  - intros m Hm. by rewrite M2, M1.
  - intros k Hk Ho. by rewrite R2, R1.
  - rewrite P2, P1. by destruct b2, b1.
Qed.

Lemma parented_set rm r d : prop_of r "iid" <> VUndef -> parented r true d (parent_mixin rm r d).
Proof.
  intros Hi.
  assert (review_attrs (parent_mixin rm r d) =
    change rm (withOriginatedMarker [("parentEpicIid", prop_of r "iid")]) (review_attrs d)) as E.
  { unfold review_attrs, parent_mixin, mixin_of, change_mixin. cbn [hd_mixins]. by rewrite jget_set_eq. }
  assert (jwf (withOriginatedMarker [("parentEpicIid", prop_of r "iid")])) as Hw.
  { apply jwf_marked. apply (bool_decide_eq_true_1 _). reflexivity. }
  split.
  - done.
  - intros m Hm. unfold parent_mixin, mixin_of, change_mixin. cbn [hd_mixins]. by rewrite jget_set_ne.
  - intros k Hk Ho. rewrite E, field_change by done. rewrite jget_marked, decide_False by done.
    cbn [jget]. by rewrite decide_False.
  - rewrite E, field_change by done. rewrite jget_marked, decide_False by done. cbn [jget].
    rewrite decide_True by done. by destruct (prop_of r "iid").
Qed.

Lemma propagate_loop bctx r children s s' :
  prop_of r "iid" <> VUndef ->
  forM_ children (propagate_child bctx r) s = (Ok tt, s') ->
  s'.1 = s.1 /\
  forall ref d, issue_at ref s = Some d ->
    exists d', issue_at ref s' = Some d' /\
      parented r (bool_decide (ref ∈ child_refs bctx s children)) d d'.
Proof.
  intros Hi. revert s. induction children as [|c children IH]; intros s; cbn [forM_].
  - intros [= <-]. split; [done|]. intros ref d Hd. exists d. split; [done|].
    rewrite bool_decide_eq_false_2 by apply not_elem_of_nil. apply parented_refl.
  - intros ([] & s1 & Hc & Hr)%bind_inv_ok. apply propagate_child_run in Hc as [E1 Ed].
    apply IH in Hr as [E2 Hl]. rewrite E2. split; [done|]. intros ref d Hd.
    assert (child_refs bctx s1 children = child_refs bctx s children) as Ec.
    { unfold child_refs. apply list_omap_ext, Forall2_same_length_lookup_2; [done|].
      intros i y z Hy Hz. simplify_eq. unfold child_ref. by rewrite E1. }
    assert (exists d1, issue_at ref s1 = Some d1 /\ parented r (bool_decide (child_ref bctx s c = Some ref)) d d1)
      as (d1 & Hd1 & Hp1).
    { destruct (child_ref bctx s c) as [cref|].
      - rewrite (issue_at_on_doc ref cref (parent_mixin (undefined_removes HU) r) s s1) by done. rewrite Hd. cbn [option_map].
        eexists. split; [done|]. destruct (decide (ref = cref)) as [->|Hne].
        + rewrite bool_decide_eq_true_2 by done. by apply parented_set.
        + rewrite bool_decide_eq_false_2 by congruence. apply parented_refl.
      - exists d. unfold issue_at in *. rewrite Ed. split; [done|].
        rewrite bool_decide_eq_false_2 by done. apply parented_refl. }
    destruct (Hl ref d1 Hd1) as (d' & Hd' & Hp'). exists d'. split; [done|].
    pose proof (parented_trans _ _ _ _ _ _ Hp1 Hp') as Hp. rewrite Ec in Hp.
    enough (bool_decide (ref ∈ child_refs bctx s (c :: children)) =
      bool_decide (child_ref bctx s c = Some ref) || bool_decide (ref ∈ child_refs bctx s children)) as -> by done.
    unfold child_refs. cbn [omap list_omap]. destruct (child_ref bctx s c) as [cref|].
    + apply Bool.eq_iff_eq_true. rewrite orb_true_iff, !bool_decide_eq_true, elem_of_cons. naive_solver.
    + by rewrite (bool_decide_eq_false_2 (None = Some ref)).
Qed.

(** The document part of a run leaves the other documents and the mappings
    of merge requests and issues alone. *)
Record epic_written (own : option string) s s1 : Prop := {
  ew_docs : forall ref d, issue_at ref s = Some d -> own <> Some ref -> issue_at ref s1 = Some d;
  ew_keys : forall w k g, k <> KEpic ->
    findOne (by_gitlab w k g) (idmap s1.1) = findOne (by_gitlab w k g) (idmap s.1)
}.

Lemma create_epic_run bctx gid r markup st ts s s1 :
  create_epic bctx gid r markup st ts s = (Ok tt, s1) -> epic_written None s s1.
Proof.
  unfold create_epic. intros (ref & s2 & Hc & Hr)%bind_inv_ok. apply huly_run in Hc as (h & Ec & ->).
  apply createDoc_ok in Ec as [Hdocs Hfresh].
  apply bind_inv_ok in Hr as ([] & s3 & Hup & Hr). apply upsertIdMap_run in Hup as (E3 & _ & _ & Ho & _).
  apply bind_inv_ok in Hr as (data & s4 & [= _ <-] & Hr). apply huly_run in Hr as (h5 & E5 & ->).
  apply createMixin_ok in E5. rewrite E3 in E5. cbn [snd set_huly sy_huly] in E5. rewrite Hdocs in E5.
  rewrite on_doc_fresh_snoc in E5 by done. split.
  - intros ref0 d Hd _. unfold issue_at in *. cbn [snd set_huly sy_huly]. by rewrite E5, js_find_app, Hd.
  - intros w k g Hk. cbn [fst]. by rewrite Ho.
Qed.

Lemma update_epic_run bctx ref a r markup ts s s1 :
  update_epic bctx ref a r markup ts s = (Ok tt, s1) -> epic_written (Some ref) s s1.
Proof.
  unfold update_epic. intros ([] & s2 & Hw & Hr)%bind_inv_ok.
  apply bind_inv_ok in Hr as (data & s4 & [= _ <-] & Hr). apply huly_run in Hr as (h5 & E5 & ->).
  apply updateMixin_ok in E5.
  assert (s2.1 = s.1 /\ forall ref0, ref0 <> ref -> issue_at ref0 s2 = issue_at ref0 s) as [E1 Hat].
  { destruct (_ && _); cbn [when] in Hw; [|by injection Hw as <-].
    apply huly_run in Hw as (h & Eh & ->). apply updateDoc_ok in Eh. split; [done|]. intros ref0 Hne.
    rewrite (issue_at_rewrite ref0 ref _ s (s.1, set_huly h s.2) Eh).
    destruct (issue_at ref0 s); [|done]. cbn [option_map]. by rewrite decide_False. }
  split.
  - intros ref0 d Hd Hne. rewrite <- Hat in Hd by congruence.
    rewrite (issue_at_on_doc ref0 ref (change_mixin (undefined_removes HU) MR_EPIC_MIXIN (withOriginatedMarker data)) s2 _) by done.
    rewrite Hd. cbn [option_map]. rewrite decide_False by congruence. done.
  - intros w k g Hk. cbn [fst]. by rewrite E1.
Qed.

(** C39: parent propagation: when an epic is applied - on a GitLab that is
    the enterprise edition or whose capabilities are not known, the code
    treating the two alike - the document each iid of its child list leads to
    has the epic's iid as its parent afterwards.  That document is the
    mirrored merge request with the iid when there is one, which takes the
    parent from the issue of the same iid, and the mirrored issue otherwise.
    Of every issue document but the epic's own nothing else changes: no
    attribute, no other mixin, no other field of the review mixin, and the
    parent of a document no child iid leads to stays.  The epic has an iid,
    the project a status for it, and a recorded epic its document; without
    one of the last two the code leaves before the children. *)
Theorem epic_parents_set deps ctx binding ectx r s s' :
  ep_loads deps binding ectx -> is_ee ectx = true ->
  pickBacklogStatus (bx_statuses (ep_bctx ectx)) <> None -> prop_of r "iid" <> VUndef ->
  (forall m, epic_mapped (ep_bctx ectx) r s = Some m -> issue_at (im_hulyRef m) s <> None) ->
  ep_applyRemote deps ctx binding r s = (Ok tt, s') ->
  exists children, js_iter (prop_of r "childIssueIids") = Some children /\
    forall ref d, issue_at ref s = Some d ->
      option_map im_hulyRef (epic_mapped (ep_bctx ectx) r s) <> Some ref ->
      exists d', issue_at ref s' = Some d' /\
        parented r (bool_decide (ref ∈ child_refs (ep_bctx ectx) s children)) d d'.
Proof.
  intros Hl Hee Hst Hi Hex Hr. destruct (Hl s) as (x & El & Hdx). set (bctx := ep_bctx ectx) in *.
  unfold ep_applyRemote in Hr. rewrite (bind_ok _ _ _ _ _ El) in Hr. fold bctx in Hr. rewrite Hee in Hr.
  cbn [negb] in Hr. unfold bind at 1, on_db at 1, zoom at 1, findByGitlab, gets in Hr. cbn [fst snd] in Hr.
  apply bind_inv_ok in Hr as (markup & s0 & [= _ <-] & Hr).
  destruct (pickBacklogStatus (bx_statuses bctx)) as [st|]; [|done].
  apply bind_inv_ok in Hr as (ts & s0 & Hts & Hr).
  assert (s0 = (s.1, x)) as -> by by (unfold call_getTime in Hts; destruct (prop_of r "updatedAt"); by injection Hts as _ <-).
  assert (forall ref, issue_at ref (s.1, x) = issue_at ref s) as Hat0.
  { intros ref. unfold issue_at. cbn [snd]. by rewrite Hdx. }
  assert (exists s1, epic_written (option_map im_hulyRef (epic_mapped bctx r s)) (s.1, x) s1 /\
    propagate_children bctx binding r s1 = (Ok tt, s')) as (s1 & [Hwd Hwk] & Hp).
  { unfold epic_mapped. specialize (Hex). unfold epic_mapped in Hex.
    destruct (findOne (by_gitlab _ KEpic _) (idmap s.1)) as [m|].
    - apply find_issue_run in Hr as (h & Eh & Hr). rewrite Hat0 in Hr.
      destruct (issue_at (im_hulyRef m) s) as [d|] eqn:Ed; [|by destruct (Hex m)].
      apply bind_inv_ok in Hr as ([] & s1 & Hw & Hp). apply update_epic_run in Hw as [Hd Hk].
      exists s1. split; [|done]. cbn [option_map]. split.
      + intros ref d0 Hd0 Hne. apply Hd; [|done]. unfold issue_at in *. cbn [snd set_huly sy_huly].
        by rewrite Eh.
      + exact Hk.
    - apply bind_inv_ok in Hr as ([] & s1 & Hw & Hp). apply create_epic_run in Hw. by exists s1. }
  unfold propagate_children in Hp. apply bind_inv_ok in Hp as (children & s2 & Hch & Hp).
  unfold iterate in Hch. destruct (js_iter _) as [l|]; [|done]. injection Hch as -> <-.
  exists children. split; [done|]. intros ref d Hd Hne. rewrite <- Hat0 in Hd. specialize (Hwd ref d Hd Hne).
  apply bind_inv_ok in Hp as ([] & s3 & Hloop & Hcur). apply propagate_loop in Hloop as [_ Hloop]; [|done].
  apply setCursor_run in Hcur as (E & _). destruct (Hloop ref d Hwd) as (d' & Hd' & Hpa).
  exists d'. unfold issue_at in *. rewrite E. split; [done|].
  enough (child_refs bctx s1 children = child_refs bctx s children) as <- by done.
  unfold child_refs. apply list_omap_ext, Forall2_same_length_lookup_2; [done|].
  intros i y z Hy Hz. simplify_eq. unfold child_ref. by rewrite !Hwk.
Qed.
End Parents.

(** ** Closed examples *)

#[export] Instance toy_epics : EpicGitLabClient ToyGitLab := {
  listEpics _ _ := ret [];
  listEpicIssues _ _ := ret [];
  resolveTopLevelGroupForProject _ := ret 1%Z
}.

Definition toy_ep_ctx : EpicsBindingContext := MkEpicsContext (toy_bctx false) (Some "ee").

Definition toy_ep_deps : EpicsSyncManagerDeps (Coll := list) (HU := list HulyDoc) (GL := ToyGitLab) (AC := unit) :=
  MkEpicsDeps (fun b s => let '(_, s') := toy_load false b s in (Ok toy_ep_ctx, s')) None None.

Definition toy_epic (children : list Z) : record :=
  [("iid", VNum 3); ("groupId", VNum 1); ("title", VStr "E"); ("description", VStr "text");
   ("state", VStr "opened"); ("webUrl", VStr "url"); ("updatedAt", VDate (Some 9%Z));
   ("childIssueIids", VArr (map VNum children))].

Definition toy_ep_apply (r : record) (s : Store list * ToyX) : Store list * ToyX :=
  (ep_applyRemote toy_ep_deps (MkSyncContext "ws") "b" r s).2.

(** Issue 7 and merge request 7 of one project, both mirrored. *)
Definition toy_both : Store list * ToyX := toy_apply false (toy_issue 7 "I" [] 2) toy_mirrored_mr.

Definition parents (s : Store list * ToyX) : list (jsval * option jsval) :=
  map (fun d => (prop_of (hd_attrs d) "title", jget "parentEpicIid" (review_attrs d)))
    (issue_docs (HU := list HulyDoc) s).

Lemma toy_ep_loads : ep_loads toy_ep_deps "b" toy_ep_ctx.
Proof. intros s. by eexists. Qed.

(** the children of an epic are issues, but a child is looked up among
    the merge requests first: when the project also has a mirrored merge
    request with the child's iid, that request gets the parent and the issue
    does not. *)
Theorem epic_child_shadowed :
  parents (toy_ep_apply (toy_epic [7%Z]) toy_mirrored) = [(VStr "A", Some (VNum 3)); (VStr "E", None)] /\
  parents toy_both = [(VStr "A", None); (VStr "I", None)] /\
  parents (toy_ep_apply (toy_epic [7%Z]) toy_both) =
    [(VStr "A", Some (VNum 3)); (VStr "I", None); (VStr "E", None)].
Proof. by vm_compute. Qed.

Lemma epic_parents_set_witness :
  exists children d', js_iter (prop_of (toy_epic [7%Z]) "childIssueIids") = Some children /\
    issue_at (im_hulyRef toy_mapping) (toy_ep_apply (toy_epic [7%Z]) toy_mirrored) = Some d' /\
    parented (toy_epic [7%Z]) (bool_decide (im_hulyRef toy_mapping ∈ child_refs (toy_bctx false) toy_mirrored children))
      toy_issue_doc d'.
Proof.
  destruct (epic_parents_set toy_ep_deps (MkSyncContext "ws") "b" toy_ep_ctx (toy_epic [7%Z]) toy_mirrored
    (toy_ep_apply (toy_epic [7%Z]) toy_mirrored)) as (children & Hc & Hp).
  - apply toy_ep_loads.
  - reflexivity.
  - by vm_compute.
  - by vm_compute.
  - intros m. by vm_compute.
  - by vm_compute.
  - destruct (Hp (im_hulyRef toy_mapping) toy_issue_doc) as (d' & Hd & Hpa); [by vm_compute..|].
    by exists children, d'.
Defined.
