(* ===== verification/Notes.v ===== *)
(** * The notes sync manager (src/sync/notes.ts)

    Two-way sync of comments on issues and merge requests: GitLab notes and
    Huly chat messages.  A note whose parent is not mirrored yet is put back
    once (src/sync/deferred-parent.ts); a note on a line of a diff is handed
    to the review-thread manager. *)

From S2P Require Import Prelude JsMap JsString JsVal Metrics Platform Conflict Mongo Store Ids.
From S2P Require Import StatusMap Huly Caches Queue Breaker Engine Sync TxSubscriber FieldSync Issues.
From S2P Require Import MergeRequests.
Open Scope nat_scope.
Open Scope string_scope.
Open Scope list_scope.

(** ** Deferred parents (deferred-parent.ts) *)

Definition NOTE_RETRY_FLAG : string := "_noteRetried".
Definition REVIEW_RETRY_FLAG : string := "_reviewRetried".

(** The answer and the record after the call. *)
Definition markAndRetry (r : record) (flagKey : string) : bool * record :=
  if bool_decide (prop_of r flagKey = VBool true) then (false, r)
  else (true, jset flagKey (VBool true) r).

(** ** Parsing a note hook *)

(** [idmap.hulyClass] of messages; not the reference of the class. *)
Definition NOTES_CLASS_CHAT_MESSAGE : string := "chunter.class.ChatMessage".

(** [SyncNoteRecord], with the mark of a malformed position. *)
Record SyncNoteRecord := MkSyncNoteRecord {
  sn_noteableIid : Z;
  sn_note : record;
  sn_isReview : bool;
  sn_position : jsval;
  sn_discussionId : option string;
  sn_malformedPosition : bool
}.

Definition string_of (v : option jsval) (d : string) : jsval :=
  VStr (default d (as_string v)).
Definition string_or_null (v : option jsval) : jsval :=
  match as_string v with Some s => VStr s | None => VNull end.
Definition number_or_null (v : option jsval) : jsval :=
  match as_number v with Some n => VNum n | None => VNull end.

Definition parse_author (authorObj : option jsval) : record :=
  match as_object authorObj with
  | Some au =>
      [("id", VNum (default 0%Z (as_number (field "id" au))));
       ("username", string_of (field "username" au) "");
       ("name", string_of (field "name" au) "");
       ("email", string_or_null (field "email" au));
       ("avatarUrl", string_or_null (field "avatar_url" au));
       ("webUrl", string_of (field "url" au) "")]
  | None =>
      [("id", VNum 0); ("username", VStr ""); ("name", VStr ""); ("email", VNull);
       ("avatarUrl", VNull); ("webUrl", VStr "")]
  end.

(** [None] is a type that is not synced; the flag says merge request. *)
Definition parse_noteable_type (v : option jsval) : option bool :=
  match v with
  | None => Some false
  | Some (VStr t) =>
      if bool_decide (t = "Issue") then Some false
      else if bool_decide (t = "MergeRequest") then Some true else None
  | Some _ => None
  end.

Definition parse_position (pos : record) : record :=
  [("filePath",
    VStr (match as_string (field "new_path" pos) with
          | Some p => p
          | None => default "" (as_string (field "old_path" pos))
          end));
   ("oldLine", number_or_null (field "old_line" pos));
   ("newLine", number_or_null (field "new_line" pos));
   ("baseSha", prop_of pos "base_sha");
   ("headSha", prop_of pos "head_sha");
   ("startSha", prop_of pos "start_sha");
   ("positionType", VStr "text")].

Definition has_shas (pos : record) : bool :=
  let is_string k := match as_string (field k pos) with Some _ => true | None => false end in
  is_string "head_sha" && is_string "base_sha" && is_string "start_sha".

(** The GitLab calls of the manager, beyond the listings of the issues and
    merge-request managers. *)
Class NoteGitLabClient (G : Type) := {
  listNotes : forall (projectId : Z) (issueIid : jsval) (updatedAfter : option string), M G (list record);
  createNote : forall (projectId : Z) (issueIid : jsval) (body : record), M G record;
  updateNote : forall (projectId : Z) (issueIid : jsval) (noteId : Z) (body : record), M G record;
  deleteNote : forall (projectId : Z) (issueIid : jsval) (noteId : Z), M G unit;
  listMRNotes : forall (projectId : Z) (mrIid : jsval) (updatedAfter : option jsdate), M G (list record);
  createMRNote : forall (projectId : Z) (mrIid : jsval) (body : record), M G record;
  updateMRNote : forall (projectId : Z) (mrIid : jsval) (noteId : Z) (body : record), M G record;
  deleteMRNote : forall (projectId : Z) (mrIid : jsval) (noteId : Z), M G unit
}.

Section Notes.
Context {Coll : Type -> Type} `{Mongo Coll} {P : Platform} `{Sha256} `{Markdown}.
Context {HU GL AC : Type} `{HulyClient HU} `{IssueGitLabClient GL} `{MRGitLabClient GL}
  `{NoteGitLabClient GL} `{AccountClient AC}.
Abbreviation X := (SyncState HU GL AC).
Abbreviation MM := (M (Store Coll * X)).

Record NotesSyncManagerDeps := MkNotesDeps {
  nt_loadBinding : string -> MM BindingContext;
  nt_enqueuer : option (string -> string -> record -> string -> string -> MM unit);
  nt_backfillEnqueuer : option (string -> string -> record -> string -> string -> MM unit);
  nt_mirrorDeps : option (MirrorDeps (Store Coll * X))
}.

Context (deps : NotesSyncManagerDeps).

(** [typeof v === 'string' ? v : new Date().toISOString()]; a valid clock. *)
Definition string_or_now (v : option jsval) : MM jsval :=
  match as_string v with
  | Some s => ret (VStr s)
  | None => let! now := date_now in ret (VStr (toISOString now))
  end.

Definition parseWebhookPayload (r : record) : MM (option SyncNoteRecord) :=
  match as_object (field "object_attributes" r) with
  | None => ret None
  | Some a =>
      match as_number (field "id" a), parse_noteable_type (field "noteable_type" a) with
      | Some noteId, Some is_mr =>
          let parent := as_object (field (if is_mr then "merge_request" else "issue") r) in
          match parent ≫= (fun p => as_number (field "iid" p)) with
          | None => ret None
          | Some noteableIid =>
              let! createdAt := string_or_now (field "created_at" a) in
              let! updatedAt := string_or_now (field "updated_at" a) in
              let note :=
                [("id", VNum noteId);
                 ("body", string_of (field "body" a) "");
                 ("author", VObj (parse_author (field "author" a)));
                 ("createdAt", createdAt);
                 ("updatedAt", updatedAt);
                 ("system", VBool (is_true_val (field "system" a)));
                 ("confidential", VBool (is_true_val (field "confidential" a)));
                 ("noteableType", VStr (if is_mr then "MergeRequest" else "Issue"))] in
              let plain := MkSyncNoteRecord noteableIid note false VUndef None false in
              match as_object (field "position" a) with
              | Some pos =>
                  if is_mr && bool_decide (prop_of pos "position_type" = VStr "text") then
                    if has_shas pos then
                      let position := VObj (parse_position pos) in
                      ret (Some (MkSyncNoteRecord noteableIid (jset "position" position note) true position
                                   (as_string (field "discussion_id" a)) false))
                    else ret (Some (MkSyncNoteRecord noteableIid note false VUndef None true))
                  else ret (Some plain)
              | None => ret (Some plain)
              end
          end
      | _, _ => ret None
      end
  end.

Definition nt_resourceKey (r : record) : option string :=
  let id_of k := as_object (field k r) ≫= (fun o => as_number (field "id" o)) in
  match id_of "note" with
  | Some id => Some ("note:" +:+ num_to_string id)
  | None =>
      match id_of "object_attributes" with
      | Some id => Some ("note:" +:+ num_to_string id)
      | None => None
      end
  end.

Definition nt_enqueueRecord (binding kind : string) (r : record) (eventId version : string) : MM unit :=
  match nt_backfillEnqueuer deps with
  | Some f => f binding kind r eventId version
  | None =>
      match nt_enqueuer deps with
      | Some f => f binding kind r eventId version
      | None => ret tt
      end
  end.

(** ** applyRemote *)

(** [{ note.a, note.b }] on a note of any type. *)
Definition note_fields (note : jsval) : MM record :=
  match note with
  | VUndef | VNull => type_error
  | VObj r => ret r
  | _ => ret []
  end.

(** The envelope handed to the review-thread manager. *)
Definition review_envelope (bctx : BindingContext) (rawRecord : record) (p : SyncNoteRecord) : record :=
  let note := sn_note p in
  let updatedAt := VDate (new_Date (prop_of note "updatedAt")) in
  let envelope :=
    [("discussionId", VStr (default ("note:" +:+ js_String (prop_of note "id")) (sn_discussionId p)));
     ("mergeRequestIid", VNum (sn_noteableIid p));
     ("projectId", VNum (bx_gitlabProjectId bctx));
     ("resolved", VBool false);
     ("resolvedBy", VNull);
     ("resolvedAt", VNull);
     ("updatedAt", updatedAt);
     ("notes", VArr [VObj
       [("id", prop_of note "id");
        ("body", prop_of note "body");
        ("author", prop_of note "author");
        ("createdAt", VDate (new_Date (prop_of note "createdAt")));
        ("updatedAt", updatedAt);
        ("system", prop_of note "system");
        ("resolvable", VBool true);
        ("resolved", VBool false);
        ("position", sn_position p)]])] in
  if bool_decide (prop_of rawRecord REVIEW_RETRY_FLAG = VBool true) ||
     bool_decide (prop_of rawRecord NOTE_RETRY_FLAG = VBool true)
  then jset REVIEW_RETRY_FLAG (VBool true) envelope else envelope.

(** [`${gitlabProjectId}:${parentIid}:${note.id}`] *)
Definition note_event (bctx : BindingContext) (noteableIid : Z) (note : record) : string :=
  num_to_string (bx_gitlabProjectId bctx) +:+ ":" +:+ num_to_string noteableIid +:+ ":" +:+
  js_String (prop_of note "id").

Definition route_review (binding : string) (rawRecord : record) (p : SyncNoteRecord) : MM unit :=
  let! bctx := nt_loadBinding deps binding in
  let note := sn_note p in
  let version := js_String (prop_of note "updatedAt") in
  let! parentMapping := on_db (findByGitlab (bx_workspaceUuid bctx) KMergeRequest
                          (scoped_key bctx (VNum (sn_noteableIid p)))) in
  match parentMapping with
  | None =>
      let rawRecord :=
        if bool_decide (prop_of rawRecord NOTE_RETRY_FLAG = VBool true)
        then jset REVIEW_RETRY_FLAG (VBool true) rawRecord else rawRecord in
      let '(retry, marked) := markAndRetry rawRecord REVIEW_RETRY_FLAG in
      if retry then
        nt_enqueueRecord binding "note" marked
          ("deferred:review:" +:+ note_event bctx (sn_noteableIid p) note) version
      else count REVIEW_PARENT_MISSING
  | Some _ =>
      nt_enqueueRecord binding "review" (review_envelope bctx rawRecord p)
        ("review:" +:+ note_event bctx (sn_noteableIid p) note) version
  end.

(** The Huly document of the parent. *)
Definition note_parent (bctx : BindingContext) (note : record) (noteableIid : Z) : MM (option string) :=
  let kind :=
    if bool_decide (js_coalesce (prop_of note "noteableType") (VStr "Issue") = VStr "MergeRequest")
    then KMergeRequest else KIssue in
  let! mapping := on_db (findByGitlab (bx_workspaceUuid bctx) kind (scoped_key bctx (VNum noteableIid))) in
  ret (option_map im_hulyRef mapping).

Definition note_markup (bctx : BindingContext) (note : record) : MM jsval :=
  let raw := prop_of note "body" in
  let! body :=
    match nt_mirrorDeps deps with
    | Some md =>
        try_catch (mirrorBodyGitlabToHuly md raw (bx_gitlabBaseUrl bctx) (bx_gitlabProjectPath bctx))
          (fun _ => ret raw)
    | None => ret raw
    end in
  let! markup := lift_res (gfmMarkdownToMarkup body (issue_ref_url bctx) (image_url bctx)) in
  ret (VStr markup).

Definition message_attrs (issueRef : string) (markup authorRef modifiedOn createdOn : jsval) : record :=
  withOriginatedMarker
    [("attachedTo", VStr issueRef);
     ("attachedToClass", VStr HULY_CLASS_ISSUE);
     ("collection", VStr "comments");
     ("message", markup);
     ("modifiedBy", authorRef);
     ("modifiedOn", modifiedOn);
     ("createdBy", authorRef);
     ("createdOn", createdOn)].

Definition mirror_note (binding : string) (bctx : BindingContext) (issueRef : string) (note : record)
    : MM unit :=
  let gitlabId := scoped_key bctx (prop_of note "id") in
  let! existing := on_db (findByGitlab (bx_workspaceUuid bctx) KNote gitlabId) in
  let! markup := note_markup bctx note in
  let! authorRef := resolve_user bctx (prop_of note "author") in
  let remoteTs := new_Date (prop_of note "updatedAt") in
  match existing with
  | None =>
      let! msgRef := on_huly (createDoc CLASS_CHAT_MESSAGE (bx_hulyProjectRef bctx)
        (message_attrs issueRef markup authorRef (getTime remoteTs)
           (getTime (new_Date (prop_of note "createdAt"))))) in
      on_db (upsertIdMap (bx_workspaceUuid bctx) KNote gitlabId NOTES_CLASS_CHAT_MESSAGE msgRef) ;;!
      on_db (setCursor binding CNotes remoteTs)
  | Some mapping =>
      let! cursor := on_db (getCursor binding CNotes) in
      let localTs := default (Some 0%Z) cursor in
      when (date_gt remoteTs localTs)
        (on_huly (updateDoc CLASS_CHAT_MESSAGE (bx_hulyProjectRef bctx) (im_hulyRef mapping)
           (withOriginatedMarker
              [("message", markup); ("modifiedOn", getTime remoteTs); ("modifiedBy", authorRef)])) ;;!
         on_db (setCursor binding CNotes remoteTs))
  end.

(** The part after unpacking. *)
Definition apply_note (binding : string) (rawRecord : record) (noteableIid : Z) (note : record) : MM unit :=
  if truthy (prop_of note "system") then ret tt
  else
    let! bctx := nt_loadBinding deps binding in
    let! issueRef := note_parent bctx note noteableIid in
    match issueRef with
    | None =>
        let '(retry, marked) := markAndRetry rawRecord NOTE_RETRY_FLAG in
        if retry then
          nt_enqueueRecord binding "note" marked
            ("deferred:" +:+ note_event bctx noteableIid note) (js_String (prop_of note "updatedAt"))
        else ret tt
    | Some issueRef => mirror_note binding bctx issueRef note
    end.

Definition nt_applyRemote (ctx : SyncContext) (binding : string) (rawRecord : record) : MM unit :=
  match as_number (field "noteableIid" rawRecord), prop_of rawRecord "note" with
  | Some noteableIid, (VNull | VBool _ | VNum _ | VNaN | VStr _ | VDate _ | VArr _ | VObj _) as v =>
      let! note := note_fields v in
      apply_note binding rawRecord noteableIid note
  | _, _ =>
      let! parsed := parseWebhookPayload rawRecord in
      match parsed with
      | None => ret tt
      | Some p =>
          if sn_malformedPosition p then count REVIEW_POSITION_MALFORMED
          else if sn_isReview p then route_review binding rawRecord p
          else apply_note binding rawRecord (sn_noteableIid p) (sn_note p)
      end
  end.

(** ** applyLocal *)

(** The message as a request body. *)
Definition local_note_body (bctx : BindingContext) (messageMarkup : jsval) : MM record :=
  let! text := lift_res (markupToGfmMarkdown messageMarkup (issue_ref_url bctx) (image_url bctx) None) in
  let! body :=
    match nt_mirrorDeps deps with
    | Some md =>
        try_catch (mirrorBodyHulyToGitlab md (VStr text) (bx_gitlabProjectId bctx))
          (fun _ => ret (VStr text))
    | None => ret (VStr text)
    end in
  ret [("body", body)].

Definition touch_notes (binding : string) : MM unit :=
  let! now := date_now in on_db (setCursor binding CNotes (Some now)).

(** [hulyAttachedTo] *)
Definition attached_to (change : record) : jsval :=
  match as_object (field "hulyMessage" change) with
  | Some m => prop_of m "attachedTo"
  | None => VUndef
  end.

(** [resolvedIid] and [parentIsMR], or [None] for the early return. *)
Definition resolve_parent (bctx : BindingContext) (change : record) : MM (option (jsval * bool)) :=
  let hintIid := prop_of change "noteableIid" in
  match attached_to change with
  | VUndef => ret (Some (hintIid, false))
  | attachedTo =>
      let! parentMap := on_db (findByHuly (bx_workspaceUuid bctx) HULY_CLASS_ISSUE (js_String attachedTo)) in
      match parentMap with
      | Some m =>
          match parseProjectIid (im_gitlabId m) with
          | Some (_, iid) =>
              ret (Some (if is_defined hintIid then hintIid else VNum iid,
                         bool_decide (im_gitlabKind m = KMergeRequest)))
          | None => ret (Some (hintIid, false))
          end
      | None => if is_defined hintIid then ret (Some (hintIid, false)) else ret None
      end
  end.

Definition create_remote_note (binding hulyRef : string) (bctx : BindingContext)
    (messageMarkup resolvedIid : jsval) (parentIsMR : bool) : MM unit :=
  if negb (is_defined messageMarkup) || negb (is_defined resolvedIid) then ret tt
  else
    let! body := local_note_body bctx messageMarkup in
    let! created :=
      on_gitlab ((if parentIsMR then createMRNote else createNote) (bx_gitlabProjectId bctx) resolvedIid body) in
    on_db (upsertIdMap (bx_workspaceUuid bctx) KNote (scoped_key bctx (prop_of created "id"))
      NOTES_CLASS_CHAT_MESSAGE hulyRef) ;;!
    touch_notes binding.

Definition change_remote_note (binding : string) (bctx : BindingContext) (change : record) (noteId : Z)
    (parentIsMR : bool) : MM unit :=
  let messageMarkup := prop_of change "message" in
  let issueIid := js_coalesce (prop_of change "issueIid") (prop_of change "noteableIid") in
  if negb (is_defined issueIid) then ret tt
  else if is_true_val (field "deleted" change) then
    on_gitlab ((if parentIsMR then deleteMRNote else deleteNote) (bx_gitlabProjectId bctx) issueIid noteId) ;;!
    touch_notes binding
  else if is_defined messageMarkup then
    let! body := local_note_body bctx messageMarkup in
    on_gitlab ((if parentIsMR then updateMRNote else updateNote) (bx_gitlabProjectId bctx) issueIid noteId body) ;;!
    touch_notes binding
  else ret tt.

Definition nt_applyLocal (ctx : SyncContext) (binding doc : string) (change : record) : MM unit :=
  if bool_decide (prop_of change "kind" = VStr "review") then ret tt
  else
    let! bctx := nt_loadBinding deps binding in
    let hulyRef := stripDocPrefix doc in
    let! mapping := on_db (findByHuly (bx_workspaceUuid bctx) NOTES_CLASS_CHAT_MESSAGE hulyRef) in
    if (match mapping with Some m => bool_decide (im_gitlabKind m = KReviewThread) | None => false end)
    then ret tt
    else
      let! parent := resolve_parent bctx change in
      match parent with
      | None => ret tt
      | Some (resolvedIid, parentIsMR) =>
          match mapping with
          | None =>
              create_remote_note binding hulyRef bctx (prop_of change "message") resolvedIid parentIsMR
          | Some m =>
              match parseNoteId (im_gitlabId m) with
              | None => ret tt
              | Some noteId => change_remote_note binding bctx change noteId parentIsMR
              end
          end
      end.

(** ** backfill *)

Definition note_envelope (noteableIid : jsval) (noteableType : string) (note : record) : record :=
  [("noteableIid", noteableIid); ("note", VObj (jset "noteableType" (VStr noteableType) note))].

Definition backfill_notes (binding : string) (bctx : BindingContext) (prefix : string) (iid : jsval)
    (noteableType : string) (notes : list record) : MM unit :=
  forM_ notes (fun note =>
    if truthy (prop_of note "system") then ret tt
    else
      let updatedAt := js_String (prop_of note "updatedAt") in
      nt_enqueueRecord binding "note" (note_envelope iid noteableType note)
        (prefix +:+ num_to_string (bx_gitlabProjectId bctx) +:+ ":" +:+ js_String iid +:+ ":" +:+
         js_String (prop_of note "id") +:+ ":" +:+ updatedAt)
        updatedAt).

(** The client has [listMergeRequests]. *)
Definition nt_backfill (ctx : SyncContext) (binding : string) (since : option jsdate) : MM unit :=
  let! bctx := nt_loadBinding deps binding in
  let! issues := on_gitlab (listIssues (bx_gitlabProjectId bctx) None) in
  let! updatedAfter := iso_string since in
  forM_ issues (fun issue =>
    let iid := prop_of issue "iid" in
    let! notes := on_gitlab (listNotes (bx_gitlabProjectId bctx) iid updatedAfter) in
    backfill_notes binding bctx "backfill:" iid "Issue" notes) ;;!
  let! mrs := on_gitlab (listMergeRequests (bx_gitlabProjectId bctx) None) in
  forM_ mrs (fun mr =>
    let iid := prop_of mr "iid" in
    let! mrNotes := on_gitlab (listMRNotes (bx_gitlabProjectId bctx) iid since) in
    backfill_notes binding bctx "backfill:mr:" iid "MergeRequest" mrNotes).

(** The manager, as the engine sees it. *)
Definition notes_manager : SyncManager Coll X :=
  MkSyncManager "note" nt_applyRemote nt_applyLocal nt_backfill (Some nt_resourceKey).
End Notes.
