(* ===== verification/NotesProofs.v ===== *)
(** * Correctness of the notes manager

    A note is put back at most once, what mirroring a note writes, and that
    no change a Huly transaction carries is pushed to GitLab as a note. *)

From S2P Require Import Prelude JsMap JsString JsVal Metrics Platform Conflict Mongo Store Ids.
From S2P Require Import StatusMap Huly Caches Queue Breaker Engine Sync TxSubscriber FieldSync Issues.
From S2P Require Import SyncToy MergeRequests IssuesProofs IssuesReplay IssuesLocal IssuesExamples.
From S2P Require Import MergeRequestsProofs MergeRequestsRemote MergeRequestsExamples Notes.
Open Scope nat_scope.
Open Scope string_scope.
Open Scope list_scope.

(** ** Putting a note back *)

(** The attempts a record has left. *)
Definition flagged (flag : string) (r : record) : bool := bool_decide (prop_of r flag = VBool true).

Definition tries (r : record) : nat :=
  (if flagged NOTE_RETRY_FLAG r then 0 else 1) + (if flagged REVIEW_RETRY_FLAG r then 0 else 1).

(** The same record up to the two marks. *)
Definition same_note (r r' : record) : Prop :=
  forall k, k <> NOTE_RETRY_FLAG -> k <> REVIEW_RETRY_FLAG -> jget k r' = jget k r.

Lemma flagged_set flag k v r : flagged flag (jset k v r) =
  if decide (flag = k) then bool_decide (v = VBool true) else flagged flag r.
Proof.
  unfold flagged, prop_of. destruct (decide (flag = k)) as [->|Hne].
  - by rewrite jget_set_eq.
  - by rewrite jget_set_ne.
Qed.

Lemma same_note_set flag v r :
  flag = NOTE_RETRY_FLAG \/ flag = REVIEW_RETRY_FLAG -> same_note r (jset flag v r).
Proof. intros Hf k Hn Hv. rewrite jget_set_ne; [done|]. by destruct Hf as [->| ->]. Qed.

(** [markAndRetry] answers true once, and then the record has an attempt
    less. *)
Lemma markAndRetry_tries r flag marked :
  flag = NOTE_RETRY_FLAG \/ flag = REVIEW_RETRY_FLAG -> markAndRetry r flag = (true, marked) ->
  same_note r marked /\ tries marked < tries r /\ markAndRetry marked flag = (false, marked).
Proof.
  intros Hf. unfold markAndRetry. fold (flagged flag r). destruct (flagged flag r) eqn:E; [done|].
  intros [= <-]. split; [by apply same_note_set|]. split.
  - unfold tries. rewrite !flagged_set. destruct Hf as [->| ->]; rewrite E;
      repeat (destruct (decide _); try done); rewrite bool_decide_eq_true_2 by done;
      destruct (flagged _ r); lia.
  - fold (flagged flag (jset flag (VBool true) r)). by rewrite flagged_set, decide_True by done.
Qed.

Section Deferral.
Context {Coll : Type -> Type} `{Mongo Coll} {P : Platform} `{Sha256} `{Markdown}.
Context {HU GL AC : Type} `{HulyClient HU} `{IssueGitLabClient GL} `{MRGitLabClient GL}
  `{NoteGitLabClient GL} `{AccountClient AC}.
Abbreviation X := (SyncState HU GL AC).
Abbreviation MM := (M (Store Coll * X)).
Implicit Types (deps : NotesSyncManagerDeps (Coll := Coll) (HU := HU) (GL := GL) (AC := AC))
  (s : Store Coll * X).

Definition enqueuer_fn : Type := string -> string -> record -> string -> string -> MM unit.

Definition with_enqueuer (f : enqueuer_fn) deps : NotesSyncManagerDeps :=
  MkNotesDeps (nt_loadBinding deps) (nt_enqueuer deps) (Some f) (nt_mirrorDeps deps).

(** A run that hands at most one record to the enqueuer, as its last step:
    either it is the same run for every enqueuer, or it ends with the
    enqueuer's run on a record [Q] describes. *)
Definition hands_over (Q : string -> record -> Prop) (binding : string)
    (m : enqueuer_fn -> MM unit) s : Prop :=
  (exists out, forall f, m f s = out) \/
  (exists kind r' eventId version s1, Q kind r' /\
     forall f, m f s = f binding kind r' eventId version s1).

Lemma hands_over_bind Q b {A} (c : MM A) (k : A -> enqueuer_fn -> MM unit) s :
  (forall a s', hands_over Q b (k a) s') -> hands_over Q b (fun f => bind c (fun a => k a f)) s.
Proof.
  intros Hk. destruct (c s) as [[a|e] s'] eqn:E.
  - destruct (Hk a s') as [[out Ho]|(kind & r' & i & v & s1 & HQ & Ho)].
    + left. exists out. intros f. by rewrite (bind_ok _ _ _ _ _ E).
    + right. exists kind, r', i, v, s1. split; [done|]. intros f. by rewrite (bind_ok _ _ _ _ _ E).
  - left. exists (Throw e, s'). intros f. unfold bind. by rewrite E.
Qed.

Lemma hands_over_const Q b (m : MM unit) s : hands_over Q b (fun _ => m) s.
Proof. left. by exists (m s). Qed.

Lemma hands_over_enqueue Q deps b kind r' i v s :
  Q kind r' -> hands_over Q b (fun f => nt_enqueueRecord (with_enqueuer f deps) b kind r' i v) s.
Proof. intros HQ. right. exists kind, r', i, v, s. by split. Qed.

(** What a note run may put back: a review envelope, or the record itself
    with one attempt less. *)
Definition put_back (r : record) (kind : string) (r' : record) : Prop :=
  kind = "review" \/ (kind = "note" /\ same_note r r' /\ tries r' < tries r).

Lemma apply_note_hands deps b r iid note s :
  hands_over (put_back r) b (fun f => apply_note (with_enqueuer f deps) b r iid note) s.
Proof.
  unfold apply_note. destruct (truthy _); [apply hands_over_const|].
  apply (hands_over_bind _ _ (nt_loadBinding deps b) (fun bctx f => _)). intros bctx s1.
  apply (hands_over_bind _ _ (note_parent bctx note iid) (fun o f => _)). intros [ref|] s2.
  - apply (hands_over_const _ _ (mirror_note deps b bctx ref note)).
  - destruct (markAndRetry r NOTE_RETRY_FLAG) as [[] marked] eqn:E; [|apply hands_over_const].
    apply hands_over_enqueue. right. split; [done|].
    destruct (markAndRetry_tries _ _ _ (or_introl eq_refl) E) as (Hs & Ht & _). done.
Qed.

Lemma route_review_hands deps b r p s :
  hands_over (put_back r) b (fun f => route_review (with_enqueuer f deps) b r p) s.
Proof.
  unfold route_review.
  apply (hands_over_bind _ _ (nt_loadBinding deps b) (fun bctx f => _)). intros bctx s1.
  apply (hands_over_bind _ _ (on_db _) (fun o f => _)). intros [m|] s2.
  - apply hands_over_enqueue. by left.
  - fold (flagged NOTE_RETRY_FLAG r). destruct (flagged NOTE_RETRY_FLAG r).
    + assert (markAndRetry (jset REVIEW_RETRY_FLAG (VBool true) r) REVIEW_RETRY_FLAG =
        (false, jset REVIEW_RETRY_FLAG (VBool true) r)) as ->.
      { unfold markAndRetry. fold (flagged REVIEW_RETRY_FLAG (jset REVIEW_RETRY_FLAG (VBool true) r)).
        by rewrite flagged_set, decide_True by done. }
      apply hands_over_const.
    + destruct (markAndRetry r REVIEW_RETRY_FLAG) as [[] marked] eqn:E; [|apply hands_over_const].
      apply hands_over_enqueue. right. split; [done|].
      destruct (markAndRetry_tries _ _ _ (or_intror eq_refl) E) as (Hs & Ht & _). done.
Qed.

(** A note whose parent is not mirrored does not circulate for ever:
    applying any record hands at most one record to the enqueuer, as its last
    step, and that is either an envelope for the review manager or the record
    itself with one of its two attempts used up and nothing else changed. *)
Theorem note_deferral_terminates deps ctx b r s :
  hands_over (put_back r) b (fun f => nt_applyRemote (with_enqueuer f deps) ctx b r) s.
Proof.
  unfold nt_applyRemote.
  assert (hands_over (put_back r) b (fun f =>
    let! parsed := parseWebhookPayload r in
    match parsed with
    | None => ret tt
    | Some p =>
        if sn_malformedPosition p then count REVIEW_POSITION_MALFORMED
        else if sn_isReview p then route_review (with_enqueuer f deps) b r p
        else apply_note (with_enqueuer f deps) b r (sn_noteableIid p) (sn_note p)
    end) s) as Hhook.
  { apply (hands_over_bind _ _ (parseWebhookPayload r) (fun o f => _)). intros [p|] s1; [|apply hands_over_const].
    destruct (sn_malformedPosition p); [apply hands_over_const|].
    destruct (sn_isReview p); [apply route_review_hands|apply apply_note_hands]. }
  destruct (as_number _) as [iid|]; [|exact Hhook].
  destruct (prop_of r "note") as [| | | | | | | |fs] eqn:En; [exact Hhook|..];
    apply (hands_over_bind _ _ (note_fields _) (fun n f => _)); intros; apply apply_note_hands.
Qed.
End Deferral.

(** ** Mirroring a note *)

Lemma filter_on_doc ref f p (l : list HulyDoc) :
  (forall d, p (f d) = p d) -> List.filter p (on_doc ref f l) = on_doc ref f (List.filter p l).
Proof.
  intros Hp. unfold on_doc. induction l as [|d l IH]; [done|]. cbn [map List.filter].
  destruct (decide (hd_id d = ref)) as [E|E]; rewrite ?Hp; destruct (p d); cbn [map];
    rewrite ?IH; rewrite ?decide_True by done; rewrite ?decide_False by done; done.
Qed.

Section Mirror.
Context {Coll : Type -> Type} `{HL : MongoLaws Coll} {P : Platform} `{Sha256} `{Markdown}.
Context {HU GL AC : Type} `{HHL : HulyLaws HU} `{IssueGitLabClient GL} `{MRGitLabClient GL}
  `{NoteGitLabClient GL} `{AccountClient AC}.
Abbreviation X := (SyncState HU GL AC).
Implicit Types (deps : NotesSyncManagerDeps (Coll := Coll) (HU := HU) (GL := GL) (AC := AC))
  (s : Store Coll * X).

(** *** The author

    [person] is what the account service answers for a social key. *)

(** The user a GitLab author is mapped from; [None] when a property of it
    cannot be read. *)
Definition identity (author : jsval) : option IdentityUser :=
  id ← js_get author "id"; email ← js_get author "email";
  name ← js_get author "name"; username ← js_get author "username";
  Some (MkIdentityUser (js_String id) (if bool_decide (email = VNull) then VUndef else email)
    (if bool_decide (name = VStr "") then VUndef else name)
    (if bool_decide (username = VStr "") then VUndef else username)).

(** The person of the GitLab id, else the person of the email address, else
    the user recorded in the id map, else a new stub. *)
Definition user_ref (person : string -> option string) (ws : string) (u : IdentityUser) s : string :=
  match person (SOCIAL_KEY_GITLAB (iu_gitlabId u)) with
  | Some p => p
  | None =>
      match (match iu_email u with VStr e => person (SOCIAL_KEY_EMAIL e) | _ => None end) with
      | Some p => p
      | None =>
          match user_row ws (iu_gitlabId u) s with
          | Some row => im_hulyRef row
          | None => "stub:gitlab:" +:+ iu_gitlabId u
          end
      end
  end.

Definition author_of (person : string -> option string) (bctx : BindingContext) (note : record) s : option string :=
  u ← identity (prop_of note "author"); Some (user_ref person (bx_workspaceUuid bctx) u s).

Lemma get_prop_run w k s a s' : get_prop w k s = (Ok a, s') -> js_get w k = Some a /\ s' = s.
Proof. unfold get_prop. destruct (js_get w k); [|done]. by intros [= -> <-]. Qed.

Lemma identity_of_run w s u s' : identity_of w s = (Ok u, s') -> identity w = Some u /\ s' = s.
Proof.
  unfold identity_of, identity.
  intros (id & s1 & [Ei ->]%get_prop_run & E)%bind_inv_ok.
  apply bind_inv_ok in E as (em & s1 & [Ee ->]%get_prop_run & E).
  apply bind_inv_ok in E as (nm & s1 & [En ->]%get_prop_run & E).
  apply bind_inv_ok in E as (un & s1 & [Eu ->]%get_prop_run & E).
  injection E as <- <-. rewrite Ei, Ee, En, Eu. done.
Qed.

Lemma mapByGitlabUser_person person u s p s' :
  accounts_answer (AC := AC) person -> users_sound person s.2 -> mapByGitlabUser u s = (Ok p, s') ->
  s'.1 = s.1 /\
  p = match person (SOCIAL_KEY_GITLAB (iu_gitlabId u)) with
      | Some q => Some q
      | None => match iu_email u with VStr e => person (SOCIAL_KEY_EMAIL e) | _ => None end
      end.
Proof.
  intros Ha Hs. unfold mapByGitlabUser.
  destruct (lookupCached_run person Ha (SOCIAL_KEY_GITLAB (iu_gitlabId u)) s Hs) as (x1 & E1 & _ & S1).
  intros Hr. rewrite (bind_ok _ _ _ _ _ E1) in Hr.
  destruct (person _) as [q|]; [by injection Hr as <- <-|].
  destruct (iu_email u) as [| | | | |e| | |]; try done; [by injection Hr as <- <-|]. cbn [mapByEmail] in Hr.
  destruct (lookupCached_run person Ha (SOCIAL_KEY_EMAIL e) (s.1, x1) S1) as (x2 & E2 & _).
  rewrite E2 in Hr. by injection Hr as <- <-.
Qed.

Lemma resolve_user_person person bctx w s v s' :
  accounts_answer (AC := AC) person -> users_sound person s.2 -> resolve_user bctx w s = (Ok v, s') ->
  exists u, identity w = Some u /\ v = VStr (user_ref person (bx_workspaceUuid bctx) u s).
Proof.
  intros Ha Hs. unfold resolve_user. intros (u & s1 & [Hi ->]%identity_of_run & E)%bind_inv_ok.
  exists u. split; [done|]. apply bind_inv_ok in E as (p & s2 & Hp & E).
  apply (mapByGitlabUser_person person) in Hp as [E2 Hp]; [|done..]. unfold user_ref.
  destruct (person (SOCIAL_KEY_GITLAB _)) as [q|]; [subst p; by injection E as <- _|].
  destruct (match iu_email u with VStr e => _ | _ => None end) as [q|]; [subst p; by injection E as <- _|].
  subst p. apply bind_inv_ok in E as (ref & s3 & E & [= <- _]). f_equal.
  unfold ensureStubGuest, getIdMap, on_db, zoom, findByGitlab, gets, bind at 1 2, ret in E.
  unfold user_row. rewrite <- E2. destruct s2 as [st x]. cbn [fst snd] in *.
  destruct (findOne _ (idmap st)) as [row|]; cbn [option_map] in E; [by injection E as <- _|].
  by apply bind_inv_ok in E as ([] & s4 & _ & [= <- _]).
Qed.

(** *** The records of a note *)

(** A note hook, of the two types that are synced and not on a line of a
    diff, with the note the manager reads from it. *)
Definition hook_note (r : record) (iid : Z) (note : record) : Prop :=
  exists a parent noteId is_mr created updated,
    as_object (field "object_attributes" r) = Some a /\ as_number (field "id" a) = Some noteId /\
    parse_noteable_type (field "noteable_type" a) = Some is_mr /\
    as_object (field (if is_mr then "merge_request" else "issue") r) = Some parent /\
    as_number (field "iid" parent) = Some iid /\
    field "created_at" a = Some (VStr created) /\ field "updated_at" a = Some (VStr updated) /\
    (forall pos, as_object (field "position" a) = Some pos -> is_mr = true -> prop_of pos "position_type" <> VStr "text") /\
    note =
      [("id", VNum noteId); ("body", string_of (field "body" a) "");
       ("author", VObj (parse_author (field "author" a)));
       ("createdAt", VStr created); ("updatedAt", VStr updated);
       ("system", VBool (is_true_val (field "system" a)));
       ("confidential", VBool (is_true_val (field "confidential" a)));
       ("noteableType", VStr (if is_mr then "MergeRequest" else "Issue"))].

(** A record that carries the note [note] of the issue or merge request
    [iid]: the envelope of a backfill, or a hook, which has no [noteableIid]
    of its own. *)
Definition carries_note (r : record) (iid : Z) (note : record) : Prop :=
  (as_number (field "noteableIid" r) = Some iid /\ prop_of r "note" = VObj note) \/
  (as_number (field "noteableIid" r) = None /\ hook_note r iid note).

Lemma hook_note_parsed r iid note s :
  hook_note r iid note ->
  parseWebhookPayload r s = (Ok (Some (MkSyncNoteRecord iid note false VUndef None false)), s).
Proof.
  intros (a & parent & noteId & is_mr & created & updated & Ea & Ei & Et & Ep & Eiid & Ec & Eu & Hpos & ->).
  unfold parseWebhookPayload. rewrite Ea, Ei, Et, Ep. cbn [mbind option_bind].
  rewrite Eiid. unfold string_or_now. rewrite Ec, Eu. cbn [as_string].
  unfold bind, ret. destruct (as_object (field "position" a)) as [pos|] eqn:Epos; [|done].
  destruct is_mr; [|done]. cbn [andb]. rewrite bool_decide_eq_false_2; [done|exact (Hpos pos eq_refl eq_refl)].
Qed.

Lemma carries_note_applied deps ctx b r iid note s :
  carries_note r iid note -> nt_applyRemote deps ctx b r s = apply_note deps b r iid note s.
Proof.
  intros [[Hi Hn]|[Hi Hh]]; unfold nt_applyRemote; rewrite Hi; [by rewrite Hn|].
  by rewrite (bind_ok _ _ _ _ _ (hook_note_parsed r iid note s Hh)).
Qed.

(** *** What a note leaves *)

Definition chat_docs s : list HulyDoc :=
  List.filter (fun d => bool_decide (hd_class d = CLASS_CHAT_MESSAGE)) (docs (sy_huly s.2)).

Definition note_mapped (bctx : BindingContext) (note : record) s : option IdMapDoc :=
  findOne (by_gitlab (bx_workspaceUuid bctx) KNote (scoped_key bctx (prop_of note "id"))) (idmap s.1).

(** The document a note belongs to: a note on a merge request says so, any
    other is a note on an issue. *)
Definition parent_of (bctx : BindingContext) (note : record) (iid : Z) s : option string :=
  let kind :=
    if bool_decide (js_coalesce (prop_of note "noteableType") (VStr "Issue") = VStr "MergeRequest")
    then KMergeRequest else KIssue in
  option_map im_hulyRef
    (findOne (by_gitlab (bx_workspaceUuid bctx) kind (scoped_key bctx (VNum iid))) (idmap s.1)).

Definition note_cursor (b : string) s : jsdate :=
  default (Some 0%Z) (option_map cu_updatedAfter (findOne (by_cursor b CNotes) (cursors s.1))).

Definition message_doc (bctx : BindingContext) (issueRef msg : string) (note : record)
    (markup author : jsval) : HulyDoc :=
  MkHulyDoc msg CLASS_CHAT_MESSAGE (bx_hulyProjectRef bctx)
    (message_attrs issueRef markup author (getTime (new_Date (prop_of note "updatedAt")))
       (getTime (new_Date (prop_of note "createdAt")))) [].

Definition message_update (note : record) (markup author : jsval) : record :=
  withOriginatedMarker
    [("message", markup); ("modifiedOn", getTime (new_Date (prop_of note "updatedAt")));
     ("modifiedBy", author)].

(** What the writes of [mirror_note] do, given the markup and the author. *)
Definition note_written (b : string) (bctx : BindingContext) (issueRef : string) (note : record)
    (markup author : jsval) s s' : Prop :=
  let updatedAt := new_Date (prop_of note "updatedAt") in
  match note_mapped bctx note s with
  | None =>
      exists msg, msg ∉ map hd_id (docs (sy_huly s.2)) /\
        chat_docs s' = chat_docs s ++ [message_doc bctx issueRef msg note markup author] /\
        note_mapped bctx note s' =
          Some (MkIdMapDoc (bx_workspaceUuid bctx) KNote (scoped_key bctx (prop_of note "id"))
                  NOTES_CLASS_CHAT_MESSAGE msg) /\
        findOne (by_cursor b CNotes) (cursors s'.1) = Some (MkCursorDoc b CNotes updatedAt)
  | Some m =>
      if date_gt updatedAt (note_cursor b s) then
        chat_docs s' = on_doc (im_hulyRef m) (set_attrs (message_update note markup author)) (chat_docs s) /\
        findOne (by_cursor b CNotes) (cursors s'.1) = Some (MkCursorDoc b CNotes updatedAt)
      else chat_docs s' = chat_docs s /\ cursors s'.1 = cursors s.1
  end.

Lemma resolved_chat s s1 : resolved_from s s1 -> chat_docs s1 = chat_docs s.
Proof. intros [Hd _ _ _ _ _ _ _ _]. unfold chat_docs. by apply grown_filter. Qed.

Lemma resolved_fresh s s1 msg :
  resolved_from s s1 -> msg ∉ map hd_id (docs (sy_huly s1.2)) -> msg ∉ map hd_id (docs (sy_huly s.2)).
Proof.
  intros [(e & He & _) _ _ _ _ _ _ _ _] Hf Hin. apply Hf. rewrite He, map_app, elem_of_app. by left.
Qed.

Lemma mirror_note_run person deps b bctx issueRef note s s' :
  accounts_answer (AC := AC) person -> users_sound person s.2 ->
  nt_mirrorDeps deps = None -> mirror_note deps b bctx issueRef note s = (Ok tt, s') ->
  exists markup author,
    gfmMarkdownToMarkup (prop_of note "body") (issue_ref_url bctx) (image_url bctx) = Ok markup /\
    author_of person bctx note s = Some author /\ sy_gitlab s'.2 = sy_gitlab s.2 /\
    note_written b bctx issueRef note (VStr markup) (VStr author) s s'.
Proof.
  intros Hac Hus Hm. unfold mirror_note, note_markup. rewrite Hm.
  unfold bind at 1, on_db at 1, zoom at 1, findByGitlab, gets. cbn [fst snd]. destruct s as [st x]. cbn [fst snd].
  intros (mk & s1 & (raw & s1' & [= <- <-] & (markup & s1'' & Hg & [= <- <-])%bind_inv_ok)%bind_inv_ok & Hr)%bind_inv_ok.
  unfold lift_res in Hg. injection Hg as Hg <-.
  apply bind_inv_ok in Hr as (author & s2 & Ha & Hr).
  pose proof (moves_resolve_user _ _ _ _ _ Ha) as Hrf.
  apply (resolve_user_person person) in Ha as (u & Hid & ->); [|done..].
  eexists markup, _. split; [done|]. split; [unfold author_of; rewrite Hid; reflexivity|]. unfold note_written, note_mapped. cbn [fst].
  destruct (findOne _ (idmap st)) as [m|] eqn:Em.
  - apply bind_inv_ok in Hr as (cur & s3 & Hcur & Hr). injection Hcur as <- <-.
    rewrite <- surjective_pairing in Hr.
    assert (default (Some 0%Z) (option_map cu_updatedAfter (findOne (by_cursor b CNotes) (cursors s2.1))) =
      note_cursor b (st, x)) as Ec by by (unfold note_cursor; rewrite (rf_cursors _ _ Hrf)).
    rewrite Ec in Hr. destruct (date_gt _ _); cbn [when] in Hr.
    + apply bind_inv_ok in Hr as ([] & s3 & Hu & Hcur). apply huly_run in Hu as (h & Eh & ->).
      apply updateDoc_ok in Eh. apply setCursor_run in Hcur as (E2 & _ & _ & Hc).
      rewrite E2. cbn [snd set_huly sy_gitlab]. split; [apply (rf_gitlab _ _ Hrf)|]. split; [|done].
      rewrite <- (resolved_chat _ _ Hrf). unfold chat_docs. rewrite E2. cbn [snd set_huly sy_huly].
      rewrite Eh. by apply filter_on_doc.
    + injection Hr as <-. split; [apply (rf_gitlab _ _ Hrf)|]. split; [by apply resolved_chat|apply (rf_cursors _ _ Hrf)].
  - apply bind_inv_ok in Hr as (msg & s3 & Hcr & Hr). apply huly_run in Hcr as (h & Eh & ->).
    apply createDoc_ok in Eh as [Hdocs Hfresh].
    apply bind_inv_ok in Hr as ([] & s4 & Hup & Hcur). apply upsertIdMap_run in Hup as (E4 & Hn & _).
    apply setCursor_run in Hcur as (E5 & Ei & _ & Hc).
    rewrite E5, E4. split; [apply (rf_gitlab _ _ Hrf)|]. exists msg. split_and!.
    + by eapply (resolved_fresh (st, x)).
    + rewrite <- (resolved_chat _ _ Hrf). unfold chat_docs. rewrite E5, E4. cbn [snd set_huly sy_huly].
      by rewrite Hdocs, List.filter_app.
    + by rewrite Ei.
    + done.
Qed.

End Mirror.

(** ** Changes made in Huly *)

Section Local.
Context {Coll : Type -> Type} `{HL : MongoLaws Coll} {P : Platform} `{Sha256} `{Markdown}.
Context {HU GL AC : Type} `{HHL : HulyLaws HU} `{IssueGitLabClient GL} `{MRGitLabClient GL}
  `{NoteGitLabClient GL} `{AccountClient AC}.
Abbreviation X := (SyncState HU GL AC).
Implicit Types (deps : NotesSyncManagerDeps (Coll := Coll) (HU := HU) (GL := GL) (AC := AC))
  (s : Store Coll * X).

(** A set of attributes without the hints [applyLocal] looks for. *)
Definition no_hints (o : option record) : Prop :=
  forall a, o = Some a ->
    jget "noteableIid" a = None /\ jget "issueIid" a = None /\ jget "hulyMessage" a = None.

Lemma classified_no_hints tx c :
  classify tx = Some c -> no_hints (tx_attributes tx) -> no_hints (tx_operations tx) ->
  no_hints (Some (cl_change c)).
Proof.
  intros Hc Ha Ho a [= <-].
  assert (forall o, no_hints o -> jget "noteableIid" (default [] o) = None /\
    jget "issueIid" (default [] o) = None /\ jget "hulyMessage" (default [] o) = None) as Hd.
  { intros [o|] Hn; [by apply (Hn o)|done]. }
  unfold classify in Hc. revert Hc.
  repeat destruct (decide _); try done; unfold option_map; try (destruct (class_kind _); [|done]);
    intros [= <-]; cbn [cl_change classified_as]; auto.
Qed.

(** Comments written in Huly never reach GitLab: a transaction on a chat
    message carries the message's own attributes, and what the subscriber
    makes of it has neither the parent's iid nor the [hulyMessage] the notes
    manager takes it from, so applying it - be it a creation, an edit or a
    removal, of a mapped message or not - calls no GitLab operation, writes
    no document and leaves the store as it is. *)
Theorem huly_comments_never_pushed deps ctx b bctx doc tx c s s' :
  loads_with (nt_loadBinding deps) b bctx ->
  classify tx = Some c -> no_hints (tx_attributes tx) -> no_hints (tx_operations tx) ->
  nt_applyLocal deps ctx b doc (cl_change c) s = (Ok tt, s') ->
  same_outside s s' /\ docs (sy_huly s'.2) = docs (sy_huly s.2).
Proof.
  intros Hl Hc Ha Ho Hr.
  destruct (classified_no_hints tx c Hc Ha Ho _ eq_refl) as (E1 & E2 & E3).
  unfold nt_applyLocal in Hr. destruct (bool_decide _); [by injection Hr as <-|].
  destruct (Hl s) as (x & El & Hd & _ & _ & _ & _ & Hg). rewrite (bind_ok _ _ _ _ _ El) in Hr.
  enough (s' = (s.1, x)) as -> by (split; [by split|done]).
  unfold bind at 1, on_db, zoom, findByHuly, gets in Hr. cbn [fst snd] in Hr.
  assert (resolve_parent bctx (cl_change c) (s.1, x) = (Ok (Some (VUndef, false)), (s.1, x))) as Ep.
  { unfold resolve_parent, attached_to, prop_of, field. by rewrite E1, E3. }
  destruct (match findOne _ _ with Some m => _ | None => _ end); [by injection Hr as <-|].
  rewrite (bind_ok _ _ _ _ _ Ep) in Hr.
  destruct (findOne _ _) as [m|].
  - destruct (parseNoteId _) as [n|]; [|by injection Hr as <-].
    unfold change_remote_note in Hr.
    assert (js_coalesce (prop_of (cl_change c) "issueIid") (prop_of (cl_change c) "noteableIid") = VUndef) as En
      by by (unfold prop_of; rewrite E1, E2).
    rewrite En in Hr. by injection Hr as <-.
  - unfold create_remote_note in Hr. cbn [is_defined negb] in Hr. rewrite orb_true_r in Hr. by injection Hr as <-.
Qed.
End Local.

(** ** Closed examples *)

#[export] Instance toy_notes : NoteGitLabClient ToyGitLab := {
  listNotes _ _ _ := ret [];
  createNote _ _ body := let! id := toy_call "createNote" 0 body in ret [("id", VNum id)];
  updateNote _ _ id body := toy_call "updateNote" id body ;;! ret [("id", VNum id)];
  deleteNote _ _ id := toy_call "deleteNote" id [] ;;! ret tt;
  listMRNotes _ _ _ := ret [];
  createMRNote _ _ body := let! id := toy_call "createMRNote" 0 body in ret [("id", VNum id)];
  updateMRNote _ _ id body := toy_call "updateMRNote" id body ;;! ret [("id", VNum id)];
  deleteMRNote _ _ id := toy_call "deleteMRNote" id [] ;;! ret tt
}.

Definition toy_nt_deps : NotesSyncManagerDeps (Coll := list) (HU := list HulyDoc) (GL := ToyGitLab) (AC := unit) :=
  MkNotesDeps (toy_load false) None (Some (fun _ _ _ _ _ => ret tt)) None.

Definition toy_note (id : Z) (body : string) (updated : nat) : record :=
  [("id", VNum id); ("body", VStr body); ("author", toy_user 5); ("createdAt", VStr (stamp 1));
   ("updatedAt", VStr (stamp updated)); ("system", VBool false); ("noteableType", VStr "Issue")].

(** A note on issue 7, as the backfill wraps it. *)
Definition toy_note_record (note : record) : record := [("noteableIid", VNum 7); ("note", VObj note)].

Definition toy_nt_run (r : record) (s : Store list * ToyX) : res unit * (Store list * ToyX) :=
  nt_applyRemote toy_nt_deps (MkSyncContext "ws") "b" r s.

Definition toy_nt_apply (note : record) (s : Store list * ToyX) : Store list * ToyX :=
  (toy_nt_run (toy_note_record note) s).2.

Lemma toy_nt_loads : loads_with (nt_loadBinding toy_nt_deps) "b" (toy_bctx false).
Proof. intros s. eexists. split; [reflexivity|]. repeat split. by left. Qed.

Lemma toy_nt_ok note s :
  (toy_nt_run (toy_note_record note) s).1 = Ok tt ->
  nt_applyRemote toy_nt_deps (MkSyncContext "ws") "b" (toy_note_record note) s = (Ok tt, toy_nt_apply note s).
Proof.
  unfold toy_nt_apply, toy_nt_run. destruct (nt_applyRemote _ _ _ _ _) as [o s']. by intros [= ->].
Qed.

Definition messages (s : Store list * ToyX) : list (jsval * jsval) :=
  map (fun d => (prop_of (hd_attrs d) "message", prop_of (hd_attrs d) "modifiedOn"))
    (chat_docs (HU := list HulyDoc) s).

(** Two notes on one issue. *)
Definition toy_two_notes : Store list * ToyX :=
  toy_nt_apply (toy_note 12 "second" 5) (toy_nt_apply (toy_note 11 "first" 2) toy_mirrored).

(** all notes of a binding share one cursor, and an edit of a note is
    compared with it and not with the message: an edit of the first note at
    time 4 is dropped because the second note was seen with time 5; without
    the second note it is applied. *)
Theorem note_edit_lost :
  messages toy_two_notes = [(VStr "first", VNum 2); (VStr "second", VNum 5)] /\
  (toy_nt_run (toy_note_record (toy_note 11 "edited" 4)) toy_two_notes).1 = Ok tt /\
  messages (toy_nt_apply (toy_note 11 "edited" 4) toy_two_notes) =
    [(VStr "first", VNum 2); (VStr "second", VNum 5)] /\
  messages (toy_nt_apply (toy_note 11 "edited" 4) (toy_nt_apply (toy_note 11 "first" 2) toy_mirrored)) =
    [(VStr "edited", VNum 4)].
Proof. by vm_compute. Qed.

(** The same note as the webhook sends it. *)
Definition toy_note_hook (id : Z) (body : string) (updated : nat) : record :=
  [("object_kind", VStr "note");
   ("object_attributes", VObj
      [("id", VNum id); ("noteable_type", VStr "Issue"); ("body", VStr body); ("created_at", VStr (stamp 1));
       ("updated_at", VStr (stamp updated)); ("system", VBool false);
       ("author", VObj [("id", VNum 5); ("username", VStr "ann"); ("name", VStr "Ann")])]);
   ("issue", VObj [("iid", VNum 7)])].

Definition parsed_hook_note (id : Z) (body : string) (updated : nat) : record :=
  [("id", VNum id); ("body", VStr body);
   ("author", VObj [("id", VNum 5); ("username", VStr "ann"); ("name", VStr "Ann"); ("email", VNull);
                    ("avatarUrl", VNull); ("webUrl", VStr "")]);
   ("createdAt", VStr (stamp 1)); ("updatedAt", VStr (stamp updated)); ("system", VBool false);
   ("confidential", VBool false); ("noteableType", VStr "Issue")].


(** A comment written in Huly. *)
Definition comment_tx : Tx :=
  MkTx TX_CLASS_CREATE "someone" "msg" HULY_CLASS_CHAT_MESSAGE None
    (Some [("attachedTo", VStr "1"); ("message", VStr "hello")]) None.

Lemma huly_comments_never_pushed_witness :
  exists c s', classify comment_tx = Some c /\
    nt_applyLocal toy_nt_deps (MkSyncContext "ws") "b" "note:msg" (cl_change c) toy_mirrored = (Ok tt, s') /\
    sy_gitlab s'.2 = sy_gitlab toy_mirrored.2.
Proof.
  destruct (classify comment_tx) as [c|] eqn:Ec; [|by vm_compute in Ec].
  destruct (nt_applyLocal toy_nt_deps (MkSyncContext "ws") "b" "note:msg" (cl_change c) toy_mirrored)
    as [o s'] eqn:Er.
  assert (o = Ok tt) as ->.
  { vm_compute in Ec. injection Ec as <-. vm_compute in Er. by injection Er as <- _. }
  exists c, s'. split; [done|]. split; [done|].
  destruct (huly_comments_never_pushed toy_nt_deps (MkSyncContext "ws") "b" (toy_bctx false) "note:msg"
    comment_tx c toy_mirrored s' toy_nt_loads Ec) as [[_ Hg] _].
  - intros a [= <-]. done.
  - done.
  - exact Er.
  - exact Hg.
Defined.
