(* ===== verification/Reviews.v ===== *)
(** * The review-thread sync manager (src/sync/mr-review.ts)

    Mirrors the discussions of a merge request: every note of a thread as a
    chat message with a mixin that carries the thread's id and resolution.
    From Huly only a change of the resolution flows back. *)

From S2P Require Import Prelude JsMap JsString JsVal Metrics Platform Conflict Mongo Store Ids.
From S2P Require Import StatusMap Huly Caches Queue Breaker Engine Sync TxSubscriber FieldSync Issues.
From S2P Require Import MergeRequests Notes.
Open Scope nat_scope.
Open Scope string_scope.
Open Scope list_scope.

(** The GitLab calls of the manager, beyond [listMergeRequests]. *)
Class MRReviewGitLabClient (G : Type) := {
  listDiscussions : forall (projectId : Z) (mrIid : jsval) (updatedAfter : option jsdate), M G (list record);
  resolveDiscussion : forall (projectId : Z) (mrIid : jsval) (discussionId : string) (resolved : bool)
    (actorToken : option string), M G unit
}.

(** [`${discussionId}:${noteId}`] *)
Definition thread_note_key `{Platform} (discussionId noteId : jsval) : string :=
  join_colon (js_String discussionId) (js_String noteId).

(** The attributes of the mixin of one note. *)
Definition mixin_attrs (syncThread note : record) (rootNoteId resolvedByUuid resolvedAtMs : jsval) : record :=
  let base :=
    [("threadId", prop_of syncThread "discussionId"); ("resolved", prop_of syncThread "resolved")] in
  let attrs :=
    if truthy (prop_of syncThread "resolved") then
      let attrs :=
        if is_defined resolvedByUuid then jset "resolvedBy" resolvedByUuid base else base in
      if is_defined resolvedAtMs then jset "resolvedAt" resolvedAtMs attrs else attrs
    else jset "resolvedAt" VUndef (jset "resolvedBy" VUndef base) in
  let isRoot := is_defined rootNoteId && strict_eq (prop_of note "id") rootNoteId in
  if isRoot && is_defined (prop_of note "position")
  then jset "position" (prop_of note "position") attrs else attrs.

Section Reviews.
Context {Coll : Type -> Type} `{Mongo Coll} {P : Platform} `{Sha256} `{Markdown}.
Context {HU GL AC : Type} `{HulyClient HU} `{MRGitLabClient GL} `{MRReviewGitLabClient GL}
  `{AccountClient AC}.
Abbreviation X := (SyncState HU GL AC).
Abbreviation MM := (M (Store Coll * X)).

Record ReviewThreadsSyncManagerDeps := MkReviewDeps {
  rv_loadBinding : string -> MM BindingContext;
  rv_enqueuer : option (string -> string -> record -> string -> string -> MM unit);
  rv_backfillEnqueuer : option (string -> string -> record -> string -> string -> MM unit)
}.

Context (deps : ReviewThreadsSyncManagerDeps).

Definition rv_resourceKey (r : record) : option string :=
  let key v := match v with
    | VStr d => if bool_decide (d = "") then None else Some ("review:" +:+ d)
    | _ => None
    end in
  match key (js_coalesce (prop_of r "discussionId") (prop_of r "discussion_id")) with
  | Some k => Some k
  | None =>
      match as_object (field "object_attributes" r) with
      | Some objAttrs => key (prop_of objAttrs "discussion_id")
      | None => None
      end
  end.

Definition rv_enqueueRecord (binding kind : string) (r : record) (eventId version : string) : MM unit :=
  match rv_backfillEnqueuer deps with
  | Some f => f binding kind r eventId version
  | None =>
      match rv_enqueuer deps with
      | Some f => f binding kind r eventId version
      | None => ret tt
      end
  end.

(** [resolvePerson], [undefined] when nobody matches *)
Definition resolvePerson (user : jsval) : MM jsval :=
  let! identity := identity_of user in
  let! matched := mapByGitlabUser identity in
  ret (match matched with Some p => VStr p | None => VUndef end).

(** ** applyRemote *)

Definition mr_url (bctx : BindingContext) : string := image_url bctx +:+ "/-/merge_requests".

(** The parent is missing: put the thread back once. *)
Definition defer_thread (binding : string) (bctx : BindingContext) (syncThread : record) : MM unit :=
  let '(retry, marked) := markAndRetry syncThread REVIEW_RETRY_FLAG in
  if retry then
    let! versionIso := to_iso (prop_of marked "updatedAt") in
    rv_enqueueRecord binding "review" marked
      ("deferred:review:" +:+ num_to_string (bx_gitlabProjectId bctx) +:+ ":" +:+
       js_String (prop_of marked "mergeRequestIid") +:+ ":" +:+
       js_String (prop_of marked "discussionId"))
      versionIso
  else count REVIEW_PARENT_MISSING.

(** The message of a note: created, or updated when the note is newer. *)
Definition create_message (bctx : BindingContext) (issueRef noteIdmapKey markup : string)
    (authorRef noteCreatedMs noteUpdatedMs : jsval) : MM string :=
  let! messageRef := on_huly (createDoc CLASS_CHAT_MESSAGE (bx_hulyProjectRef bctx)
    (message_attrs issueRef (VStr markup) authorRef noteUpdatedMs noteCreatedMs)) in
  on_db (upsertIdMap (bx_workspaceUuid bctx) KReviewThread noteIdmapKey NOTES_CLASS_CHAT_MESSAGE messageRef) ;;!
  ret messageRef.

Definition update_message (bctx : BindingContext) (messageRef markup : string)
    (authorRef noteUpdatedMs : jsval) : MM unit :=
  let! hulyMessage := on_huly (findOneDoc CLASS_CHAT_MESSAGE [("_id", VStr messageRef)]) in
  let read k := match hulyMessage with Some d => prop_of (hd_attrs d) k | None => VUndef end in
  let localTs := js_coalesce (read "modifiedOn") (VNum 0) in
  when (js_lt localTs noteUpdatedMs && negb (strict_eq (read "message") (VStr markup)))
    (on_huly (updateDoc CLASS_CHAT_MESSAGE (bx_hulyProjectRef bctx) messageRef
       (withOriginatedMarker
          [("message", VStr markup); ("modifiedOn", noteUpdatedMs); ("modifiedBy", authorRef)]))).

(** One turn of the loop. *)
Definition mirror_thread_note (bctx : BindingContext) (syncThread : record) (issueRef : string)
    (resolvedByUuid resolvedAtMs rootNoteId : jsval) (element : jsval) : MM unit :=
  let! note := note_fields element in
  if truthy (prop_of note "system") then ret tt
  else
    let noteIdmapKey := thread_note_key (prop_of syncThread "discussionId") (prop_of note "id") in
    let! existing := on_db (findByGitlab (bx_workspaceUuid bctx) KReviewThread noteIdmapKey) in
    let! markup := lift_res (gfmMarkdownToMarkup (prop_of note "body") (mr_url bctx) (image_url bctx)) in
    let! authorRef := resolve_user bctx (prop_of note "author") in
    let! noteCreatedMs := call_getTime (prop_of note "createdAt") in
    let! noteUpdatedMs := call_getTime (prop_of note "updatedAt") in
    let attrs :=
      withOriginatedMarker (mixin_attrs syncThread note rootNoteId resolvedByUuid resolvedAtMs) in
    match existing with
    | None =>
        let! messageRef :=
          create_message bctx issueRef noteIdmapKey markup authorRef noteCreatedMs noteUpdatedMs in
        on_huly (createMixin messageRef CLASS_CHAT_MESSAGE (bx_hulyProjectRef bctx)
          MR_REVIEW_THREAD_MIXIN attrs)
    | Some mapping =>
        update_message bctx (im_hulyRef mapping) markup authorRef noteUpdatedMs ;;!
        on_huly (updateMixin (im_hulyRef mapping) CLASS_CHAT_MESSAGE (bx_hulyProjectRef bctx)
          MR_REVIEW_THREAD_MIXIN attrs)
    end.

(** [notes.length > 0 ? notes[0].id : undefined] *)
Definition root_note_id (notes : jsval) : MM jsval :=
  let! len := get_prop notes "length" in
  if js_lt (VNum 0) len then get_prop (js_index notes 0) "id" else ret VUndef.

Definition mirror_thread (binding : string) (bctx : BindingContext) (syncThread : record)
    (issueRef : string) : MM unit :=
  let resolvedBy := prop_of syncThread "resolvedBy" in
  let! resolvedByUuid :=
    if bool_decide (resolvedBy = VNull) then ret VUndef else resolvePerson resolvedBy in
  let resolvedAt := prop_of syncThread "resolvedAt" in
  let! resolvedAtMs :=
    if bool_decide (resolvedAt = VNull) then ret VUndef else call_getTime resolvedAt in
  let! rootNoteId := root_note_id (prop_of syncThread "notes") in
  let! notes := iterate (prop_of syncThread "notes") in
  forM_ notes (mirror_thread_note bctx syncThread issueRef resolvedByUuid resolvedAtMs rootNoteId) ;;!
  on_db (setCursor binding CReviews (new_Date (prop_of syncThread "updatedAt"))).

Definition rv_applyRemote (ctx : SyncContext) (binding : string) (syncThread : record) : MM unit :=
  let! bctx := rv_loadBinding deps binding in
  let! parentMapping := on_db (findByGitlab (bx_workspaceUuid bctx) KMergeRequest
                          (scoped_key bctx (prop_of syncThread "mergeRequestIid"))) in
  match parentMapping with
  | None => defer_thread binding bctx syncThread
  | Some m => mirror_thread binding bctx syncThread (im_hulyRef m)
  end.

(** ** applyLocal *)

Definition rv_applyLocal (ctx : SyncContext) (binding doc : string) (change : record) : MM unit :=
  if negb (is_defined (prop_of change "resolved")) then ret tt
  else
    let! bctx := rv_loadBinding deps binding in
    let hulyRef := stripDocPrefix doc in
    let! mapping := on_db (findByHuly (bx_workspaceUuid bctx) NOTES_CLASS_CHAT_MESSAGE hulyRef) in
    match mapping with
    | None => ret tt
    | Some m =>
        if negb (bool_decide (im_gitlabKind m = KReviewThread)) then ret tt
        else
          match parseDiscussionNoteKey (im_gitlabId m) with
          | None => ret tt
          | Some (discussionId, _) =>
              let mrIidHint := prop_of change "mergeRequestIid" in
              if negb (is_defined mrIidHint) then ret tt
              else
                let resolved := bool_decide (prop_of change "resolved" = VBool true) in
                on_gitlab (resolveDiscussion (bx_gitlabProjectId bctx) mrIidHint discussionId resolved None) ;;!
                let! now := date_now in
                on_db (setCursor binding CReviews (Some now))
          end
    end.

(** ** backfill *)

Definition rv_backfill (ctx : SyncContext) (binding : string) (since : option jsdate) : MM unit :=
  let! bctx := rv_loadBinding deps binding in
  let! mrs := on_gitlab (listMergeRequests (bx_gitlabProjectId bctx) since) in
  forM_ mrs (fun mr =>
    let iid := prop_of mr "iid" in
    let! threads := on_gitlab (listDiscussions (bx_gitlabProjectId bctx) iid since) in
    forM_ threads (fun thread =>
      let! versionIso := to_iso (prop_of thread "updatedAt") in
      rv_enqueueRecord binding "review" thread
        ("backfill:review:" +:+ num_to_string (bx_gitlabProjectId bctx) +:+ ":" +:+ js_String iid +:+ ":" +:+
         js_String (prop_of thread "discussionId") +:+ ":" +:+ versionIso)
        versionIso)).

(** The manager, as the engine sees it. *)
Definition reviews_manager : SyncManager Coll X :=
  MkSyncManager "review" rv_applyRemote rv_applyLocal rv_backfill (Some rv_resourceKey).
End Reviews.
