(* ===== verification/ReviewsProofs.v ===== *)
(** * Correctness of the review-thread manager

    What applying a thread leaves for each of its notes, that a resolution
    made in Huly is never pushed, and two closed executions that combine the
    manager with the notes manager. *)

From S2P Require Import Prelude JsMap JsString JsVal Metrics Platform Conflict Mongo Store Ids.
From S2P Require Import StatusMap Huly Caches Queue Breaker Engine Sync TxSubscriber FieldSync Issues.
From S2P Require Import SyncToy MergeRequests IssuesProofs IssuesLocal IssuesExamples.
From S2P Require Import MergeRequestsProofs MergeRequestsRemote MergeRequestsExamples Notes NotesProofs.
From S2P Require Import Reviews.
Open Scope nat_scope.
Open Scope string_scope.
Open Scope list_scope.

Section Threads.
Context {Coll : Type -> Type} `{HL : MongoLaws Coll} {P : Platform} `{Sha256} `{Markdown}.
Context {HU GL AC : Type} `{HHL : HulyLaws HU} `{MRGitLabClient GL} `{MRReviewGitLabClient GL}
  `{AccountClient AC}.
Abbreviation X := (SyncState HU GL AC).
Implicit Types (deps : ReviewThreadsSyncManagerDeps (Coll := Coll) (HU := HU) (GL := GL) (AC := AC))
  (s : Store Coll * X).

Definition message_at (ref : string) s : option HulyDoc :=
  js_find (fun d => bool_decide (hd_class d = CLASS_CHAT_MESSAGE) && matches [("_id", VStr ref)] d)
    (docs (sy_huly s.2)).

Definition thread_row (bctx : BindingContext) (g : string) s : option IdMapDoc :=
  findOne (by_gitlab (bx_workspaceUuid bctx) KReviewThread g) (idmap s.1).

(** The row of a note of a thread. *)
Definition note_row (bctx : BindingContext) (thread note : record) s : option IdMapDoc :=
  thread_row bctx (thread_note_key (prop_of thread "discussionId") (prop_of note "id")) s.

(** The message says which thread it belongs to and whether it is
    resolved. *)
Definition carries (thread : record) (d : HulyDoc) : Prop :=
  exists attrs, mixin_of MR_REVIEW_THREAD_MIXIN d = Some attrs /\
    jget "threadId" attrs = Some (prop_of thread "discussionId") /\
    jget "resolved" attrs = Some (prop_of thread "resolved").

Definition mirrored_in (bctx : BindingContext) (thread note : record) s : Prop :=
  exists m d, note_row bctx thread note s = Some m /\ message_at (im_hulyRef m) s = Some d /\ carries thread d.

(** The messages of the mapped notes exist. *)
Definition rows_live (bctx : BindingContext) s : Prop :=
  forall g m, thread_row bctx g s = Some m -> is_Some (message_at (im_hulyRef m) s).

Lemma message_at_id ref s d : message_at ref s = Some d -> hd_id d = ref /\ hd_class d = CLASS_CHAT_MESSAGE.
Proof.
  unfold message_at. intros [_ Hd]%js_find_Some. apply andb_true_iff in Hd as [Hc Hi].
  apply bool_decide_eq_true_1 in Hc. cbn [matches matches_value forallb fst snd] in Hi. rewrite andb_true_r in Hi.
  apply bool_decide_eq_true_1 in Hi. unfold doc_field in Hi. rewrite decide_True in Hi by done.
  by injection Hi.
Qed.

Lemma message_at_on_doc ref0 ref f s s' :
  (forall d, hd_id (f d) = hd_id d) -> (forall d, hd_class (f d) = hd_class d) ->
  docs (sy_huly s'.2) = on_doc ref f (docs (sy_huly s.2)) ->
  message_at ref0 s' = option_map (fun d => if decide (ref0 = ref) then f d else d) (message_at ref0 s).
Proof.
  intros Hi Hc Eu. unfold message_at. rewrite Eu, js_find_on_doc.
  - destruct (js_find _ (docs (sy_huly s.2))) as [d|] eqn:Ef; [|done]. cbn [option_map].
    apply (message_at_id ref0 s) in Ef as [-> _]. done.
  - intros d. cbn [matches matches_value forallb fst snd]. unfold doc_field.
    rewrite !decide_True by done. by rewrite Hc, Hi.
Qed.

Lemma resolved_message_at ref s s1 : resolved_from s s1 -> message_at ref s1 = message_at ref s.
Proof. intros [Hd _ _ _ _ _ _ _ _]. unfold message_at. by apply grown_find. Qed.

(** An id-map write leaves the rows of all other keys. *)
Lemma upsertIdMap_others w k g c ref (s s' : Store Coll * X) :
  on_db (upsertIdMap w k g c ref) s = (Ok tt, s') ->
  forall w' k' g', g' <> g ->
    findOne (by_gitlab w' k' g') (idmap s'.1) = findOne (by_gitlab w' k' g') (idmap s.1).
Proof.
  unfold on_db, zoom, upsertIdMap, dup_key_or. destruct (upsertOne _ _ _ _) as [col|] eqn:Eu;
    cbn [modify throw]; [|done].
  intros [= <-] w' k' g' Hne. cbn [fst idmap set_idmap]. eapply upsertOne_find; [exact Eu|..].
  - intros d (_ & _ & Ed)%by_gitlab_spec. apply not_true_iff_false. rewrite by_gitlab_spec.
    intros (_ & _ & E). congruence.
  - apply not_true_iff_false. rewrite by_gitlab_spec. intros (_ & _ & E). by cbn in E.
Qed.

(** What one turn of the loop leaves: its own note mirrored when it is not a
    system note, and the rows and messages of the others as good as
    before. *)
Record thread_step (bctx : BindingContext) (thread : record) s s' : Prop := {
  ts_rows : forall g m, thread_row bctx g s = Some m -> thread_row bctx g s' = Some m;
  ts_messages : forall ref d, message_at ref s = Some d ->
    exists d', message_at ref s' = Some d' /\ (carries thread d -> carries thread d');
  ts_live : rows_live bctx s -> rows_live bctx s';
  ts_parent : forall w g, findOne (by_gitlab w KMergeRequest g) (idmap s'.1) = findOne (by_gitlab w KMergeRequest g) (idmap s.1);
  ts_gitlab : sy_gitlab s'.2 = sy_gitlab s.2
}.

Lemma resolved_thread_step bctx thread s s' : resolved_from s s' -> thread_step bctx thread s s'.
Proof.
  intros Hrf. assert (forall g, thread_row bctx g s' = thread_row bctx g s) as Hr.
  { intros g. unfold thread_row. by rewrite (rf_gitlab_key _ _ Hrf). }
  split.
  - intros g m Hm. by rewrite Hr.
  - intros ref d Hd. exists d. by rewrite (resolved_message_at _ _ _ Hrf).
  - intros Hl g m Hm. rewrite Hr in Hm. rewrite (resolved_message_at _ _ _ Hrf). eauto.
  - intros w g. by apply (rf_gitlab_key _ _ Hrf).
  - apply (rf_gitlab _ _ Hrf).
Qed.

#[local] Instance thread_step_preorder bctx thread : PreOrder (thread_step bctx thread).
Proof.
  split.
  - intros s. by apply resolved_thread_step.
  - intros s1 s2 s3 [R1 M1 L1 P1 G1] [R2 M2 L2 P2 G2]. split; try congruence; auto.
    intros ref d Hd. destruct (M1 ref d Hd) as (d2 & Hd2 & C2). destruct (M2 ref d2 Hd2) as (d3 & Hd3 & C3).
    exists d3. auto.
Qed.

Lemma mirrored_in_step bctx thread note s s' :
  thread_step bctx thread s s' -> mirrored_in bctx thread note s -> mirrored_in bctx thread note s'.
Proof.
  intros [HR HM _ _ _] (m & d & Hm & Hd & Hc). destruct (HM _ _ Hd) as (d' & Hd' & Hc').
  exists m, d'. split; [by apply HR|]. auto.
Qed.

(** Rewriting one message. *)
Lemma rewrite_thread_step bctx thread ref f s h :
  (forall d, hd_id (f d) = hd_id d) -> (forall d, hd_class (f d) = hd_class d) ->
  (forall d, carries thread d -> carries thread (f d)) ->
  docs h = on_doc ref f (docs (sy_huly s.2)) -> thread_step bctx thread s (s.1, set_huly h s.2).
Proof.
  intros Hi Hc Hf Eh.
  assert (forall ref0, message_at ref0 (s.1, set_huly h s.2) =
    option_map (fun d => if decide (ref0 = ref) then f d else d) (message_at ref0 s)) as Hm.
  { intros ref0. by apply message_at_on_doc. }
  split; try done.
  - intros ref0 d Hd. rewrite Hm, Hd. cbn [option_map]. eexists. split; [done|].
    destruct (decide _); auto.
  - intros Hl g m Hg. rewrite Hm. destruct (Hl g m Hg) as [d ->]. by eexists.
Qed.

(** *** The mixin *)

Lemma mixin_attrs_get thread note root ru ra :
  jget "threadId" (mixin_attrs thread note root ru ra) = Some (prop_of thread "discussionId") /\
  jget "resolved" (mixin_attrs thread note root ru ra) = Some (prop_of thread "resolved") /\
  jwf (mixin_attrs thread note root ru ra).
Proof.
  set (base := [("threadId", prop_of thread "discussionId"); ("resolved", prop_of thread "resolved")] : record).
  assert (jwf base) as Hb by (apply (bool_decide_eq_true_1 _); reflexivity).
  unfold mixin_attrs. fold base. cbn zeta.
  repeat match goal with |- context [if ?b then _ else _] => destruct b end;
    rewrite ?jget_set_ne by done; (split; [done|split; [done|]]); by repeat apply jwf_set.
Qed.

Lemma change_mixin_carries rm thread note root ru ra d :
  prop_of thread "discussionId" <> VUndef -> prop_of thread "resolved" <> VUndef ->
  carries thread (change_mixin rm MR_REVIEW_THREAD_MIXIN
    (withOriginatedMarker (mixin_attrs thread note root ru ra)) d).
Proof.
  intros Hd Hr. destruct (mixin_attrs_get thread note root ru ra) as (Ei & Er & Hw).
  unfold carries, mixin_of, change_mixin. cbn [hd_mixins]. rewrite jget_set_eq. eexists. split; [done|].
  rewrite !field_change by by apply jwf_marked. rewrite !jget_marked, !decide_False, Ei, Er by done.
  split; [by destruct (prop_of thread "discussionId")|by destruct (prop_of thread "resolved")].
Qed.

Lemma set_mixin_carries thread note root ru ra d :
  prop_of thread "discussionId" <> VUndef -> prop_of thread "resolved" <> VUndef ->
  carries thread (set_mixin MR_REVIEW_THREAD_MIXIN
    (withOriginatedMarker (mixin_attrs thread note root ru ra)) d).
Proof.
  intros Hd Hr. exact (change_mixin_carries false thread note root ru ra d Hd Hr).
Qed.

(** *** One note *)

Lemma create_message_run bctx issueRef g markup au c u s ref s' :
  create_message bctx issueRef g markup au c u s = (Ok ref, s') ->
  ref ∉ map hd_id (docs (sy_huly s.2)) /\ sy_gitlab s'.2 = sy_gitlab s.2 /\
  docs (sy_huly s'.2) = docs (sy_huly s.2) ++
    [MkHulyDoc ref CLASS_CHAT_MESSAGE (bx_hulyProjectRef bctx) (message_attrs issueRef (VStr markup) au u c) []] /\
  thread_row bctx g s' = Some (MkIdMapDoc (bx_workspaceUuid bctx) KReviewThread g NOTES_CLASS_CHAT_MESSAGE ref) /\
  (forall g', g' <> g -> thread_row bctx g' s' = thread_row bctx g' s) /\
  (forall w g, findOne (by_gitlab w KMergeRequest g) (idmap s'.1) = findOne (by_gitlab w KMergeRequest g) (idmap s.1)).
Proof.
  unfold create_message. intros (ref' & s1 & Hc & ([] & s2 & Hu & [= -> <-])%bind_inv_ok)%bind_inv_ok.
  apply huly_run in Hc as (h & Eh & ->). apply createDoc_ok in Eh as [Hdocs Hfresh].
  pose proof (upsertIdMap_others _ _ _ _ _ _ _ Hu) as Ho.
  apply upsertIdMap_run in Hu as (E & Hn & _ & Hk & _). rewrite E. split_and!; try done.
  - intros g' Hg. unfold thread_row. by rewrite Ho.
  - intros w g'. by rewrite Hk.
Qed.

(** A new message with its mixin. *)
Lemma created_thread_step bctx thread issueRef g markup au c u note root ru ra s ref s1 s' :
  prop_of thread "discussionId" <> VUndef -> prop_of thread "resolved" <> VUndef ->
  thread_row bctx g s = None ->
  create_message bctx issueRef g markup au c u s = (Ok ref, s1) ->
  on_huly (createMixin ref CLASS_CHAT_MESSAGE (bx_hulyProjectRef bctx) MR_REVIEW_THREAD_MIXIN
    (withOriginatedMarker (mixin_attrs thread note root ru ra))) s1 = (Ok tt, s') ->
  thread_step bctx thread s s' /\
  exists m d, thread_row bctx g s' = Some m /\ message_at (im_hulyRef m) s' = Some d /\ carries thread d.
Proof.
  intros Hi Hr Hnone Hc Hm. apply create_message_run in Hc as (Hfresh & Hg & Hdocs & Hrow & Hrows & Hpar).
  apply huly_run in Hm as (h & Eh & ->). apply createMixin_ok in Eh. rewrite Hdocs, on_doc_fresh_snoc in Eh by done.
  set (d := set_mixin _ _ _) in Eh.
  assert (forall ref0, message_at ref0 (s1.1, set_huly h s1.2) =
    match message_at ref0 s with Some x => Some x | None => if decide (ref0 = ref) then Some d else None end) as Hat.
  { intros ref0. unfold message_at. cbn [snd set_huly sy_huly]. rewrite Eh, js_find_app.
    destruct (js_find _ (docs (sy_huly s.2))); [done|]. cbn [js_find]. unfold d, set_mixin.
    cbn [hd_class matches matches_value forallb fst snd]. rewrite bool_decide_eq_true_2 by done.
    unfold doc_field. rewrite decide_True by done. cbn [hd_id]. rewrite andb_true_r, andb_true_l.
    destruct (decide (ref0 = ref)) as [->|Hne];
      [by rewrite bool_decide_eq_true_2|by rewrite bool_decide_eq_false_2 by congruence]. }
  assert (message_at ref s = None) as Hno.
  { destruct (message_at ref s) as [x|] eqn:Ex; [|done]. exfalso. apply Hfresh.
    pose proof (message_at_id _ _ _ Ex) as [<- _]. unfold message_at in Ex. apply js_find_Some in Ex as [Hin _].
    apply list_elem_of_In, in_map, list_elem_of_In. done. }
  split.
  - split; cbn [fst snd set_huly sy_gitlab].
    + intros g' m Hm. destruct (decide (g' = g)) as [->|Hne]; [congruence|]. unfold thread_row in *. cbn [fst].
      by rewrite Hrows.
    + intros ref0 x Hx. exists x. by rewrite Hat, Hx.
    + intros Hl g' m Hm. rewrite Hat. unfold thread_row in Hm. cbn [fst] in Hm.
      destruct (decide (g' = g)) as [->|Hne].
      * unfold thread_row in Hrow. rewrite Hrow in Hm. injection Hm as <-. cbn [im_hulyRef].
        rewrite Hno, decide_True by done. by eexists.
      * unfold thread_row in Hrows. rewrite Hrows in Hm by done. destruct (Hl g' m Hm) as [x ->]. by eexists.
    + done.
    + done.
  - eexists _, d. split; [exact Hrow|]. cbn [im_hulyRef]. rewrite Hat, Hno, decide_True by done.
    split; [done|]. by apply set_mixin_carries.
Qed.

Lemma update_message_step bctx thread ref markup au u s s' :
  update_message bctx ref markup au u s = (Ok tt, s') -> thread_step bctx thread s s'.
Proof.
  unfold update_message. intros (o & s1 & Ho & Hw)%bind_inv_ok.
  apply huly_run in Ho as (h & Eh & ->). apply findOne_ok in Eh as [Eh _].
  assert (resolved_from s (s.1, set_huly h s.2)) as Hrf.
  { split; try done. cbn [snd set_huly sy_huly]. rewrite Eh. apply grown_refl. }
  transitivity (s.1, set_huly h s.2); [by apply resolved_thread_step|].
  destruct (_ && _); cbn [when] in Hw; [|by injection Hw as <-].
  apply huly_run in Hw as (h2 & E2 & ->). apply updateDoc_ok in E2.
  by eapply (rewrite_thread_step bctx thread ref); [| | |exact E2].
Qed.

Lemma mirror_thread_note_step bctx thread issueRef ru ra root el s s' :
  prop_of thread "discussionId" <> VUndef -> prop_of thread "resolved" <> VUndef -> rows_live bctx s ->
  mirror_thread_note bctx thread issueRef ru ra root el s = (Ok tt, s') ->
  thread_step bctx thread s s' /\
  forall note, el = VObj note -> truthy (prop_of note "system") = false -> mirrored_in bctx thread note s'.
Proof.
  intros Hi Hr Hl. unfold mirror_thread_note. intros (note & s0 & Hn & Hrun)%bind_inv_ok.
  assert (s0 = s) as -> by by (destruct el; by injection Hn).
  assert (forall n, el = VObj n -> n = note) as Hel by by (intros n ->; injection Hn as <-).
  destruct (truthy (prop_of note "system")) eqn:Es.
  { injection Hrun as <-. split; [reflexivity|]. intros n Ee Hs. rewrite (Hel n Ee) in Hs. congruence. }
  unfold bind at 1, on_db at 1, zoom at 1, findByGitlab, gets in Hrun. cbn [fst snd] in Hrun.
  rewrite <- surjective_pairing in Hrun.
  apply bind_inv_ok in Hrun as (markup & s1 & Hmk & Hrun). injection Hmk as _ <-.
  apply bind_inv_ok in Hrun as (au & s1 & Hau & Hrun). apply moves_resolve_user in Hau.
  pose proof (resolved_thread_step bctx thread _ _ Hau) as Hst.
  assert (forall v (t : Store Coll * X) (w : jsval) t', call_getTime v t = (Ok w, t') -> t' = t) as Hgt.
  { intros v t w t' E. destruct v; try done. by injection E. }
  apply bind_inv_ok in Hrun as (c & s2 & Hc & Hrun). apply Hgt in Hc as ->.
  apply bind_inv_ok in Hrun as (u & s2 & Hu & Hrun). apply Hgt in Hu as ->.
  set (g := thread_note_key _ _) in Hrun.
  assert (findOne (by_gitlab (bx_workspaceUuid bctx) KReviewThread g) (idmap s.1) = thread_row bctx g s1) as Eg.
  { symmetry. by apply (rf_gitlab_key _ _ Hau). }
  rewrite Eg in Hrun. clear Eg.
  assert (thread_step bctx thread s1 s' /\
    exists m d, thread_row bctx g s' = Some m /\ message_at (im_hulyRef m) s' = Some d /\ carries thread d)
    as [Hs2 Hex].
  { destruct (thread_row bctx g s1) as [m|] eqn:Em.
    - apply bind_inv_ok in Hrun as ([] & s2 & Hup & Hmx).
      pose proof (update_message_step bctx thread _ _ _ _ _ _ Hup) as H12.
      apply huly_run in Hmx as (h & Eh & ->). apply updateMixin_ok in Eh.
      set (f := change_mixin _ _ _) in Eh.
      assert (thread_step bctx thread s2 (s2.1, set_huly h s2.2)) as H23.
      { apply (rewrite_thread_step bctx thread (im_hulyRef m) f); try done. intros d _. by apply change_mixin_carries. }
      split; [by etransitivity|].
      assert (thread_row bctx g s2 = Some m) as Em2 by by apply (ts_rows _ _ _ _ H12).
      destruct (ts_live _ _ _ _ H12 (ts_live _ _ _ _ Hst Hl) g m Em2) as [d Hd].
      exists m, (f d). split; [done|]. split; [|by apply change_mixin_carries].
      rewrite (message_at_on_doc (im_hulyRef m) (im_hulyRef m) f s2 _), Hd by done. cbn [option_map].
      by rewrite decide_True.
    - apply bind_inv_ok in Hrun as (ref & s2 & Hcr & Hmx). by eapply created_thread_step. }
  split; [by etransitivity|]. intros n Ee _. rewrite (Hel n Ee). exact Hex.
Qed.

Lemma mirror_notes_loop bctx thread issueRef ru ra root notes s s' :
  prop_of thread "discussionId" <> VUndef -> prop_of thread "resolved" <> VUndef -> rows_live bctx s ->
  forM_ notes (mirror_thread_note bctx thread issueRef ru ra root) s = (Ok tt, s') ->
  thread_step bctx thread s s' /\
  forall note, VObj note ∈ notes -> truthy (prop_of note "system") = false -> mirrored_in bctx thread note s'.
Proof.
  intros Hi Hr. revert s. induction notes as [|el notes IH]; intros s Hl; cbn [forM_].
  - intros [= <-]. split; [reflexivity|]. intros note Hn. by apply elem_of_nil in Hn.
  - intros ([] & s1 & He & Hrest)%bind_inv_ok.
    destruct (mirror_thread_note_step _ _ _ _ _ _ _ _ _ Hi Hr Hl He) as [Hs Hm].
    destruct (IH s1 (ts_live _ _ _ _ Hs Hl) Hrest) as [Hs' Hm'].
    split; [by etransitivity|]. intros note [E|Hin]%elem_of_cons Hsys; [|by apply Hm'].
    eapply mirrored_in_step; [exact Hs'|]. by apply Hm.
Qed.


(** a resolution made in Huly never reaches GitLab: the mixin transaction
    carries the mixin's own attributes, the request's iid is none of them and
    nothing adds it, so [applyLocal] returns before it calls
    [resolveDiscussion]; the store and the documents stay as they are. *)
Theorem resolution_never_pushed deps ctx b bctx doc tx c s s' :
  loads_with (rv_loadBinding deps) b bctx -> classify tx = Some c ->
  jget "mergeRequestIid" (default [] (tx_attributes tx)) = None ->
  jget "mergeRequestIid" (default [] (tx_operations tx)) = None ->
  rv_applyLocal deps ctx b doc (cl_change c) s = (Ok tt, s') ->
  same_outside s s' /\ docs (sy_huly s'.2) = docs (sy_huly s.2).
Proof.
  intros Hl Hc Ha Ho Hr.
  assert (jget "mergeRequestIid" (cl_change c) = None) as E.
  { revert Hc. unfold classify. repeat destruct (decide _); try done; unfold option_map;
      try (destruct (class_kind _); [|done]); intros [= <-]; done. }
  unfold rv_applyLocal in Hr. destruct (negb _); [by injection Hr as <-|].
  destruct (Hl s) as (x & El & Hd & _ & _ & _ & _ & Hg). rewrite (bind_ok _ _ _ _ _ El) in Hr.
  enough (s' = (s.1, x)) as -> by (split; [by split|done]).
  unfold bind at 1, on_db, zoom, findByHuly, gets in Hr. cbn [fst snd] in Hr.
  destruct (findOne _ _) as [m|]; [|by injection Hr as <-].
  destruct (negb _); [by injection Hr as <-|].
  destruct (parseDiscussionNoteKey _) as [[di n]|]; [|by injection Hr as <-].
  unfold prop_of in Hr. rewrite E in Hr. by injection Hr as <-.
Qed.
End Threads.

(** ** Closed examples *)

#[export] Instance toy_reviews : MRReviewGitLabClient ToyGitLab := {
  listDiscussions _ _ _ := ret [];
  resolveDiscussion _ _ did resolved _ :=
    toy_call "resolveDiscussion" 0 [("id", VStr did); ("resolved", VBool resolved)] ;;! ret tt
}.

Definition toy_rv_deps : ReviewThreadsSyncManagerDeps (Coll := list) (HU := list HulyDoc) (GL := ToyGitLab) (AC := unit) :=
  MkReviewDeps (toy_load false) None (Some (fun _ _ _ _ _ => ret tt)).

Definition toy_position : jsval := VObj [("filePath", VStr "a.ts"); ("newLine", VNum 3)].

Definition toy_thread_note (id : Z) (body : string) (position : jsval) : jsval :=
  VObj [("id", VNum id); ("body", VStr body); ("author", toy_user 5); ("createdAt", VDate (Some 1%Z));
        ("updatedAt", VDate (Some 4%Z)); ("system", VBool false); ("position", position)].

(** A resolved discussion of merge request 7: a comment on a line and a
    reply. *)
Definition toy_thread : record :=
  [("discussionId", VStr "d1"); ("mergeRequestIid", VNum 7); ("projectId", VNum 42);
   ("resolved", VBool true); ("resolvedBy", VNull); ("resolvedAt", VNull);
   ("updatedAt", VDate (Some 4%Z));
   ("notes", VArr [toy_thread_note 31 "why?" toy_position; toy_thread_note 32 "because" VUndef])].

Definition toy_rv_run (r : record) (s : Store list * ToyX) : res unit * (Store list * ToyX) :=
  rv_applyRemote toy_rv_deps (MkSyncContext "ws") "b" r s.

Definition toy_thread_state : Store list * ToyX := (toy_rv_run toy_thread toy_mirrored_mr).2.

(** Text, resolution and position of every message. *)
Definition thread_summary (s : Store list * ToyX) : list (jsval * jsval * bool) :=
  map (fun d => let m := default [] (mixin_of MR_REVIEW_THREAD_MIXIN d) in
         (prop_of (hd_attrs d) "message", prop_of m "resolved", is_defined (prop_of m "position")))
    (chat_docs (HU := list HulyDoc) s).

(** a comment on a line of a merge request is mirrored twice: the backfill
    of the notes manager lists all notes of the request and the backfill of
    the review manager its discussions, and each creates a chat message of
    its own for the same note. *)
Theorem line_comment_mirrored_twice :
  let note := jset "noteableType" (VStr "MergeRequest") (toy_note 31 "why?" 4) in
  thread_summary toy_thread_state =
    [(VStr "why?", VBool true, true); (VStr "because", VBool true, false)] /\
  thread_summary (toy_nt_apply note toy_thread_state) =
    [(VStr "why?", VBool true, true); (VStr "because", VBool true, false); (VStr "why?", VUndef, false)].
Proof. by vm_compute. Qed.

(** The notes manager with the review manager as its queue. *)
Definition toy_forward : enqueuer_fn (Coll := list) (HU := list HulyDoc) (GL := ToyGitLab) (AC := unit) :=
  fun binding kind r _ _ =>
    if bool_decide (kind = "review") then rv_applyRemote toy_rv_deps (MkSyncContext "ws") binding r else ret tt.

(** The hook GitLab sends when the reply has been edited. *)
Definition toy_reply_hook : record :=
  [("object_kind", VStr "note"); ("merge_request", VObj [("iid", VNum 7)]);
   ("object_attributes", VObj
     [("id", VNum 32); ("body", VStr "because!"); ("noteable_type", VStr "MergeRequest");
      ("discussion_id", VStr "d1"); ("created_at", VStr (stamp 1)); ("updated_at", VStr (stamp 6));
      ("position", VObj [("position_type", VStr "text"); ("new_path", VStr "a.ts"); ("new_line", VNum 3);
                         ("head_sha", VStr "h"); ("base_sha", VStr "b"); ("start_sha", VStr "s")])])].

(** a hook for a comment of a resolved discussion reopens it in Huly: the
    notes manager hands the review manager an envelope that always says
    unresolved and has the one note in it, so the message of a reply loses
    the resolution and, taken for the root, gets a position. *)
Theorem note_hook_reopens_thread :
  let run := nt_applyRemote (with_enqueuer toy_forward toy_nt_deps) (MkSyncContext "ws") "b"
               toy_reply_hook toy_thread_state in
  run.1 = Ok tt /\
  thread_summary run.2 = [(VStr "why?", VBool true, true); (VStr "because!", VBool false, true)].
Proof. by vm_compute. Qed.

Lemma toy_rv_loads : loads_with (rv_loadBinding toy_rv_deps) "b" (toy_bctx false).
Proof. intros s. eexists. split; [reflexivity|]. repeat split. by left. Qed.

Lemma toy_rv_ok r s :
  (toy_rv_run r s).1 = Ok tt ->
  rv_applyRemote toy_rv_deps (MkSyncContext "ws") "b" r s = (Ok tt, (toy_rv_run r s).2).
Proof. unfold toy_rv_run. destruct (rv_applyRemote _ _ _ _ _) as [o s']. by intros [= ->]. Qed.


(** A user resolves the thread in Huly. *)
Definition resolve_tx (message : string) : Tx :=
  MkTx TX_CLASS_MIXIN "someone" message HULY_CLASS_CHAT_MESSAGE (Some MR_REVIEW_THREAD_MIXIN)
    (Some [("resolved", VBool false)]) None.

Lemma resolution_never_pushed_witness :
  exists message c s', is_Some (message_at (HU := list HulyDoc) message toy_thread_state) /\
    classify (resolve_tx message) = Some c /\
    rv_applyLocal toy_rv_deps (MkSyncContext "ws") "b" ("review:" +:+ message) (cl_change c) toy_thread_state
      = (Ok tt, s') /\
    sy_gitlab s'.2 = sy_gitlab toy_thread_state.2.
Proof.
  set (message := default "" (option_map hd_id (last (chat_docs (HU := list HulyDoc) toy_thread_state)))).
  destruct (classify (resolve_tx message)) as [c|] eqn:Ec; [|by vm_compute in Ec].
  destruct (rv_applyLocal toy_rv_deps (MkSyncContext "ws") "b" ("review:" +:+ message) (cl_change c) toy_thread_state)
    as [o s'] eqn:Er.
  assert (o = Ok tt) as ->.
  { vm_compute in Ec. injection Ec as <-. vm_compute in Er. by injection Er as <- _. }
  exists message, c, s'. split; [by vm_compute; eexists|]. split; [done|]. split; [done|].
  destruct (resolution_never_pushed toy_rv_deps (MkSyncContext "ws") "b" (toy_bctx false) ("review:" +:+ message)
    (resolve_tx message) c toy_thread_state s' toy_rv_loads Ec) as [[_ Hg] _].
  - reflexivity.
  - reflexivity.
  - exact Er.
  - exact Hg.
Defined.
