(* ===== verification/Json.v ===== *)
(** * JSON texts

    [JSON.stringify] and [JSON.parse] on byte strings (a string is its UTF-8
    bytes).  Numbers are integers, as everywhere in this library: a text with
    a fraction or an exponent has no value here and [JSON_parse] refuses it.
    The parser runs on fuel; [JSON_parse] gives twice the length of the text,
    and what [JSON_stringify] prints of plain data is read back. *)

From Stdlib Require Import Ascii.
From S2P Require Import Prelude JsMap JsString JsVal Platform.
Open Scope nat_scope.
Open Scope string_scope.
Open Scope list_scope.

Definition chr (n : N) : ascii := ascii_of_N n.
Definition code (a : ascii) : N := N_of_ascii a.
Definition dquote : ascii := chr 34.
Definition backslash : ascii := chr 92.

(** ** Printing *)

Definition hex_char (d : N) : ascii := if (d <? 10)%N then chr (48 + d) else chr (87 + d).

(** The letter of a two-character escape, by the code of the character. *)
Definition short_escape (n : N) : option ascii :=
  match n with
  | 8%N => Some "b"%char | 9%N => Some "t"%char | 10%N => Some "n"%char
  | 12%N => Some "f"%char | 13%N => Some "r"%char
  | 34%N => Some dquote | 92%N => Some backslash
  | _ => None
  end.

Definition escape_char (a : ascii) (rest : string) : string :=
  match short_escape (code a) with
  | Some b => String backslash (String b rest)
  | None =>
      if (code a <? 32)%N
      then String backslash ("u00" +:+ String (hex_char (code a / 16)) (String (hex_char (code a mod 16)) rest))
      else String a rest
  end.

Fixpoint escape (s : string) : string :=
  match s with "" => "" | String a s => escape_char a (escape s) end.

Definition json_quote (s : string) : string := String dquote (escape s +:+ String dquote "").

(** [JSON.stringify(v)]; [None] is [undefined]. *)
Fixpoint JSON_stringify `{Platform} (v : jsval) : option string :=
  match v with
  | VUndef => None
  | VNull | VNaN | VDate None => Some "null"
  | VBool true => Some "true"
  | VBool false => Some "false"
  | VNum n => Some (num_to_string n)
  | VStr s => Some (json_quote s)
  | VDate (Some d) => Some (json_quote (toISOString d))
  | VArr l =>
      Some ("[" +:+ js_join "," (map (fun x => default "null" (JSON_stringify x)) l) +:+ "]")
  | VObj r =>
      Some ("{" +:+ js_join "," (flat_map (fun e =>
        match JSON_stringify e.2 with Some t => [json_quote e.1 +:+ ":" +:+ t] | None => [] end) r) +:+ "}")
  end.

(** ** Parsing *)

Definition json_space (a : ascii) : bool :=
  let n := code a in ((n =? 32) || (n =? 9) || (n =? 10) || (n =? 13))%N.

Fixpoint skip_ws (s : string) : string :=
  match s with
  | "" => ""
  | String a s' => if json_space a then skip_ws s' else s
  end.

Definition hex_value (a : ascii) : option N :=
  let n := code a in
  if ((48 <=? n) && (n <=? 57))%N then Some (n - 48)%N
  else if ((97 <=? n) && (n <=? 102))%N then Some (n - 87)%N
  else if ((65 <=? n) && (n <=? 70))%N then Some (n - 55)%N
  else None.

(** The code unit of four hexadecimal digits. *)
Definition hex4 (a b c d : ascii) : option N :=
  match hex_value a, hex_value b, hex_value c, hex_value d with
  | Some a, Some b, Some c, Some d => Some (((a * 16 + b) * 16 + c) * 16 + d)%N
  | _, _, _, _ => None
  end.

(** The UTF-8 bytes of a code point, in front of [rest]. *)
Definition utf8 (n : N) (rest : string) : string :=
  if (n <? 128)%N then String (chr n) rest
  else if (n <? 2048)%N then String (chr (192 + n / 64)) (String (chr (128 + n mod 64)) rest)
  else if (n <? 65536)%N then
    String (chr (224 + n / 4096)) (String (chr (128 + n / 64 mod 64)) (String (chr (128 + n mod 64)) rest))
  else
    String (chr (240 + n / 262144)) (String (chr (128 + n / 4096 mod 64))
      (String (chr (128 + n / 64 mod 64)) (String (chr (128 + n mod 64)) rest))).

Definition is_high (n : N) : bool := ((55296 <=? n) && (n <? 56320))%N.
Definition is_low (n : N) : bool := ((56320 <=? n) && (n <? 57344))%N.
Definition pair_code (hi lo : N) : N := (65536 + (hi - 55296) * 1024 + (lo - 56320))%N.

Definition plain_escape (b : ascii) : option ascii :=
  match b with
  | "b"%char => Some (chr 8) | "t"%char => Some (chr 9) | "n"%char => Some (chr 10)
  | "f"%char => Some (chr 12) | "r"%char => Some (chr 13) | "/"%char => Some "/"%char
  | _ => if decide (b = dquote \/ b = backslash) then Some b else None
  end.

Definition prepend (f : string -> string) (o : option (string * string)) : option (string * string) :=
  match o with Some (t, r) => Some (f t, r) | None => None end.

(** The characters of a string after the opening quote, and what follows the
    closing one. *)
Fixpoint string_body (s : string) : option (string * string) :=
  match s with
  | "" => None
  | String a s1 =>
      if decide (a = dquote) then Some ("", s1)
      else if decide (a = backslash) then
        match s1 with
        | String b s2 =>
            if decide (b = "u"%char) then
              match s2 with
              | String h1 (String h2 (String h3 (String h4 s3))) =>
                  match hex4 h1 h2 h3 h4 with
                  | None => None
                  | Some u =>
                      match s3 with
                      | String b1 (String u1 (String l1 (String l2 (String l3 (String l4 s4))))) =>
                          match (if decide (b1 = backslash /\ u1 = "u"%char) then hex4 l1 l2 l3 l4 else None) with
                          | Some lo =>
                              if is_high u && is_low lo then prepend (utf8 (pair_code u lo)) (string_body s4)
                              else prepend (utf8 u) (string_body s3)
                          | None => prepend (utf8 u) (string_body s3)
                          end
                      | _ => prepend (utf8 u) (string_body s3)
                      end
                  end
              | _ => None
              end
            else
              match plain_escape b with
              | Some c => prepend (String c) (string_body s2)
              | None => None
              end
        | "" => None
        end
      else if (code a <? 32)%N then None
      else prepend (String a) (string_body s1)
  end.

Definition number_char (a : ascii) : bool :=
  match digit_of a with
  | Some _ => true
  | None => bool_decide (a = "-"%char \/ a = "+"%char \/ a = "."%char \/ a = "e"%char \/ a = "E"%char)
  end.

Fixpoint number_run (s : string) : string * string :=
  match s with
  | "" => ("", "")
  | String a s' => if number_char a then let '(t, r) := number_run s' in (String a t, r) else ("", s)
  end.

(** The value of a number's text: a canonical integer, or minus zero. *)
Definition number_value (t : string) : option jsval :=
  if decide (t = "-0") then Some (VNum 0)
  else match parseInt t with
       | Some n => if decide (num_to_string n = t) then Some (VNum n) else None
       | None => None
       end.

Definition keyword (s : string) : option (jsval * string) :=
  match after_prefix "true" s with
  | Some r => Some (VBool true, r)
  | None =>
      match after_prefix "false" s with
      | Some r => Some (VBool false, r)
      | None =>
          match after_prefix "null" s with
          | Some r => Some (VNull, r)
          | None =>
              let '(t, r) := number_run s in
              match number_value t with Some v => Some (v, r) | None => None end
          end
      end
  end.

(** The expected character after white space. *)
Definition expect (c : ascii) (s : string) : option string :=
  match skip_ws s with
  | String a r => if decide (a = c) then Some r else None
  | "" => None
  end.

(** A value; the values of a non-empty array up to the bracket; the members
    of a non-empty object up to the brace. *)
Fixpoint value (fuel : nat) (s : string) {struct fuel} : option (jsval * string) :=
  match fuel with
  | O => None
  | S fuel =>
      match skip_ws s with
      | "" => None
      | String a r =>
          if decide (a = dquote) then
            match string_body r with Some (t, r) => Some (VStr t, r) | None => None end
          else if decide (a = "["%char) then
            match expect "]" r with
            | Some r => Some (VArr [], r)
            | None => match elements fuel r with Some (l, r) => Some (VArr l, r) | None => None end
            end
          else if decide (a = "{"%char) then
            match expect "}" r with
            | Some r => Some (VObj [], r)
            | None => match members fuel r with Some (es, r) => Some (VObj (jset_all es []), r) | None => None end
            end
          else keyword (String a r)
      end
  end
with elements (fuel : nat) (s : string) {struct fuel} : option (list jsval * string) :=
  match fuel with
  | O => None
  | S fuel =>
      match value fuel s with
      | None => None
      | Some (v, r) =>
          match expect "," r with
          | Some r => match elements fuel r with Some (l, r) => Some (v :: l, r) | None => None end
          | None => match expect "]" r with Some r => Some ([v], r) | None => None end
          end
      end
  end
with members (fuel : nat) (s : string) {struct fuel} : option (record * string) :=
  match fuel with
  | O => None
  | S fuel =>
      match expect dquote s with
      | None => None
      | Some r =>
          match string_body r with
          | None => None
          | Some (k, r) =>
              match expect ":" r with
              | None => None
              | Some r =>
                  match value fuel r with
                  | None => None
                  | Some (v, r) =>
                      match expect "," r with
                      | Some r => match members fuel r with Some (l, r) => Some ((k, v) :: l, r) | None => None end
                      | None => match expect "}" r with Some r => Some ([(k, v)], r) | None => None end
                      end
                  end
              end
          end
      end
  end.

(** [JSON.parse(s)]; [None] is the exception. *)
Definition JSON_parse (s : string) : option jsval :=
  match value (S (2 * String.length s)) s with
  | Some (v, r) => if decide (skip_ws r = "") then Some v else None
  | None => None
  end.

(** ** Strings are read back *)

Lemma string_body_u h1 h2 h3 h4 u s :
  hex4 h1 h2 h3 h4 = Some u -> is_high u = false ->
  string_body (String backslash (String "u" (String h1 (String h2 (String h3 (String h4 s)))))) =
  prepend (utf8 u) (string_body s).
Proof.
  intros E Hu. cbn [string_body]. rewrite E.
  destruct s as [|b1 [|u1 [|l1 [|l2 [|l3 [|l4 s]]]]]]; try reflexivity.
  destruct (if decide (b1 = backslash /\ u1 = "u"%char) then _ else _); by rewrite ?Hu.
Qed.

Lemma string_body_escape a s : string_body (escape_char a s) = prepend (String a) (string_body s).
Proof.
  destruct a as [[] [] [] [] [] [] [] []];
    first [reflexivity
          | lazymatch goal with
            | |- string_body (escape_char ?a _) = _ =>
                exact (string_body_u "0" "0" (hex_char (code a / 16)) (hex_char (code a mod 16)) (code a) s eq_refl eq_refl)
            end].
Qed.

Lemma escape_char_app a s t : escape_char a s +:+ t = escape_char a (s +:+ t).
Proof. unfold escape_char. destruct (short_escape _); [done|]. by destruct (_ <? _)%N. Qed.

Lemma string_body_quoted s rest : string_body (escape s +:+ String dquote rest) = Some (s, rest).
Proof.
  induction s as [|a s IH]; [done|]. cbn [escape]. by rewrite escape_char_app, string_body_escape, IH.
Qed.

Lemma json_quote_app s rest : json_quote s +:+ rest = String dquote (escape s +:+ String dquote rest).
Proof.
  change (String dquote ((escape s +:+ String dquote "") +:+ rest) = String dquote (escape s +:+ String dquote rest)).
  f_equal. by rewrite str_app_assoc.
Qed.

(** ** Numbers are read back *)

Definition all_chars (p : ascii -> bool) (s : string) : Prop := Forall (fun a => p a = true) (String.list_ascii_of_string s).

(** What may follow a value. *)
Definition ends (s : string) : Prop := match s with "" => True | String a _ => number_char a = false end.

Lemma number_run_app t rest : all_chars number_char t -> ends rest -> number_run (t +:+ rest) = (t, rest).
Proof.
  unfold all_chars. induction t as [|a t IH]; intros Ht Hr.
  - destruct rest as [|a rest]; [done|]. cbn [ends] in Hr.
    change ("" +:+ String a rest) with (String a rest). cbn [number_run]. by rewrite Hr.
  - cbn [String.list_ascii_of_string] in Ht. apply Forall_cons in Ht as [Ha Ht].
    rewrite str_app_cons. cbn [number_run]. by rewrite Ha, (IH Ht Hr).
Qed.

Lemma number_pretty_char d : (d < 10)%N -> number_char (pretty_N_char d) = true.
Proof. intros Hd. destruct d as [|p]; [done|]. do 4 (destruct p as [p|p|]; try done); lia. Qed.

Lemma number_go n s : all_chars number_char s -> all_chars number_char (pretty_N_go n s).
Proof.
  revert s. induction (N.lt_wf_0 n) as [n _ IH]; intros s Hs.
  destruct (decide (n = 0)%N) as [->|Hn]; [by rewrite pretty_N_go_0|].
  rewrite pretty_N_go_step by lia. apply IH; [apply N.div_lt; lia|].
  apply Forall_cons. split; [|done]. apply number_pretty_char. by apply N.mod_lt.
Qed.

Lemma number_num n : all_chars number_char (num_to_string n).
Proof.
  unfold num_to_string. destruct n as [|p|p]; [by repeat constructor| |].
  - rewrite pretty_N_Z. apply number_go. constructor.
  - change (pretty (Z.neg p)) with ("-" +:+ pretty (Z.pos p)). apply Forall_cons. split; [done|].
    rewrite pretty_N_Z. apply number_go. constructor.
Qed.

Lemma num_nonempty n : exists a t, num_to_string n = String a t.
Proof.
  pose proof (parseInt_num_to_string n) as E. destruct (num_to_string n) as [|a t]; [done|]. by eexists _, _.
Qed.

Lemma number_value_num n : number_value (num_to_string n) = Some (VNum n).
Proof.
  unfold number_value. rewrite parseInt_num_to_string. destruct (decide (num_to_string n = "-0")) as [E|_].
  - exfalso. pose proof (parseInt_num_to_string n) as Hn. rewrite E in Hn. injection Hn as <-. done.
  - by rewrite decide_True.
Qed.

Lemma keyword_num n rest : ends rest -> keyword (num_to_string n +:+ rest) = Some (VNum n, rest).
Proof.
  intros Hr. unfold keyword. pose proof (number_run_app _ _ (number_num n) Hr) as E.
  destruct (num_nonempty n) as (a & t & En). pose proof (number_num n) as Hc. rewrite En in Hc.
  apply Forall_cons in Hc as [Ha _].
  assert (forall p, number_char p = false -> forall q, after_prefix (String p q) (num_to_string n +:+ rest) = None) as Hp.
  { intros p Hp q. rewrite En, str_app_cons. cbn [after_prefix]. rewrite decide_False; [done|]. congruence. }
  rewrite !Hp by done. by rewrite E, number_value_num.
Qed.

(** ** Values are read back *)

(** Data as [JSON.parse] makes it: no [undefined], [NaN] or date, and no key
    twice in an object. *)
Fixpoint json_plain (v : jsval) : bool :=
  match v with
  | VUndef | VNaN | VDate _ => false
  | VArr l => forallb json_plain l
  | VObj r => bool_decide (NoDup (map fst r)) && forallb (fun e => json_plain e.2) r
  | _ => true
  end.

Section Texts.
Context {P : Platform}.

Definition text (v : jsval) : string := default "" (JSON_stringify v).

Lemma stringify_plain v : json_plain v = true -> JSON_stringify v = Some (text v).
Proof. by destruct v as [| |[]| | | | | |]. Qed.

Definition member_text (e : string * jsval) : string := json_quote e.1 +:+ ":" +:+ text e.2.

Lemma text_arr l : forallb json_plain l = true -> text (VArr l) = "[" +:+ js_join "," (map text l) +:+ "]".
Proof.
  intros Hl. unfold text at 1. cbn [JSON_stringify default from_option id]. do 3 f_equal.
  apply map_ext_in. intros x Hx. rewrite forallb_forall in Hl. by rewrite stringify_plain by by apply Hl.
Qed.

Lemma text_obj r :
  forallb (fun e => json_plain e.2) r = true -> text (VObj r) = "{" +:+ js_join "," (map member_text r) +:+ "}".
Proof.
  intros Hr. unfold text at 1. cbn [JSON_stringify default from_option id]. do 3 f_equal.
  induction r as [|e r IH]; [done|]. cbn [forallb] in Hr. apply andb_prop in Hr as [He Hr].
  cbn [flat_map map]. rewrite stringify_plain by done. cbn [app]. by rewrite IH.
Qed.

(** The first character of a text. *)
Definition starts (t : string) : Prop :=
  exists a t', t = String a t' /\ json_space a = false /\ a <> "]"%char /\ a <> "}"%char.

Lemma number_starts a : number_char a = true -> json_space a = false /\ a <> "]"%char /\ a <> "}"%char.
Proof. destruct a as [[] [] [] [] [] [] [] []]; intros Ha; try discriminate Ha; by split_and!. Qed.

Lemma text_starts v : json_plain v = true -> starts (text v).
Proof.
  intros Hv. destruct v as [| |b|n| |s|d|l|r]; try discriminate Hv.
  - by eexists _, _.
  - destruct b; by eexists _, _.
  - destruct (num_nonempty n) as (a & t & E). exists a, t. split; [exact E|]. apply number_starts.
    pose proof (number_num n) as Hc. rewrite E in Hc. by apply Forall_cons in Hc as [Ha _].
  - by eexists _, _.
  - by eexists _, _.
  - by eexists _, _.
Qed.

Lemma starts_skip t rest : starts t -> skip_ws (t +:+ rest) = t +:+ rest.
Proof. intros (a & t' & -> & Ha & _). rewrite str_app_cons. cbn [skip_ws]. by rewrite Ha. Qed.

Lemma starts_expect t rest c :
  starts t -> c = "]"%char \/ c = "}"%char -> expect c (t +:+ rest) = None.
Proof.
  intros (a & t' & -> & Ha & H1 & H2) Hc. unfold expect. rewrite str_app_cons. cbn [skip_ws]. rewrite Ha.
  rewrite decide_False; [done|].
  by destruct Hc as [-> | ->].
Qed.

(** [v] is read back with the fuel its text asks for. *)
Definition read_back (v : jsval) : Prop := forall fuel rest,
  ends rest -> 2 * String.length (text v) + 1 <= fuel -> value fuel (text v +:+ rest) = Some (v, rest).

Lemma str_length_app (s t : string) : String.length (s +:+ t) = String.length s + String.length t.
Proof. induction s as [|a s IH]; [done|]. rewrite str_app_cons. cbn [String.length]. by rewrite IH. Qed.

Lemma elements_read l fuel rest :
  l <> [] -> forallb json_plain l = true -> Forall read_back l ->
  2 * String.length (js_join "," (map text l)) + 2 <= fuel ->
  elements fuel (js_join "," (map text l) +:+ String "]" rest) = Some (l, rest).
Proof.
  intros Hne Hp Hl. revert fuel. induction Hl as [|x l Hx Hl IH]; [done|]. intros fuel Hf.
  cbn [forallb] in Hp. apply andb_prop in Hp as [Hpx Hp].
  destruct fuel as [|fuel]; [lia|]. cbn [elements].
  destruct l as [|y l].
  - cbn [map js_join] in *. rewrite Hx by (done || lia). done.
  - change (js_join "," (map text (x :: y :: l))) with (text x +:+ "," +:+ js_join "," (map text (y :: l))) in *.
    rewrite !str_app_assoc. rewrite !str_length_app in Hf. cbn [String.length] in Hf.
    rewrite Hx by (done || lia). change (expect "," (("," +:+ js_join "," (map text (y :: l)) +:+ String "]" rest)))
      with (Some (js_join "," (map text (y :: l)) +:+ String "]" rest)). cbv beta iota.
    rewrite IH by (done || lia). done.
Qed.

Lemma members_read r fuel rest :
  r <> [] -> forallb (fun e => json_plain e.2) r = true -> Forall (fun e => read_back e.2) r ->
  2 * String.length (js_join "," (map member_text r)) + 2 <= fuel ->
  members fuel (js_join "," (map member_text r) +:+ String "}" rest) = Some (r, rest).
Proof.
  intros Hne Hp Hl. revert fuel. induction Hl as [|[k x] r Hx Hl IH]; [done|]. intros fuel Hf.
  cbn [forallb snd] in Hp, Hx. apply andb_prop in Hp as [Hpx Hp].
  destruct fuel as [|fuel]; [lia|]. cbn [members].
  assert (forall tl, expect dquote (member_text (k, x) +:+ tl) =
                     Some (escape k +:+ String dquote (":" +:+ text x +:+ tl))) as Hq.
  { intros tl. unfold member_text. cbn [fst snd]. rewrite str_app_assoc, json_quote_app. unfold expect. cbn.
    by rewrite ?str_app_assoc. }
  assert (String.length (text x) + 3 <= String.length (member_text (k, x))) as Hlen.
  { unfold member_text, json_quote. cbn [fst snd]. rewrite str_app_cons. cbn [String.length].
    rewrite !str_length_app. cbn [String.length]. lia. }
  destruct r as [|y r].
  - cbn [map js_join] in *. rewrite Hq, string_body_quoted.
    change (expect ":" (":" +:+ ?t)) with (Some t). cbv beta iota. rewrite Hx by (done || lia). done.
  - change (js_join "," (map member_text ((k, x) :: y :: r)))
      with (member_text (k, x) +:+ "," +:+ js_join "," (map member_text (y :: r))) in *.
    rewrite !str_app_assoc. rewrite !str_length_app in Hf. cbn [String.length] in Hf.
    rewrite Hq, string_body_quoted. change (expect ":" (":" +:+ ?t)) with (Some t). cbv beta iota.
    rewrite Hx by (done || lia). change (expect "," ("," +:+ ?t)) with (Some t). cbv beta iota.
    rewrite IH by (done || lia). done.
Qed.

Lemma jset_fresh {V} k (v : V) (m : jsmap string V) : k ∉ jkeys m -> jset k v m = m ++ [(k, v)].
Proof.
  induction m as [|[k' v'] m IH]; [done|]. intros [Hne Hni]%not_elem_of_cons. cbn [jset].
  rewrite decide_False by done. cbn [app]. by rewrite IH.
Qed.

Lemma jset_all_fresh {V} (es m : jsmap string V) : NoDup (jkeys (m ++ es)) -> jset_all es m = m ++ es.
Proof.
  unfold jset_all. revert m. induction es as [|[k v] es IH]; intros m Hn; [by rewrite app_nil_r|].
  cbn [fold_left fst snd]. rewrite jset_fresh.
  - rewrite IH, <-app_assoc; [done|]. by rewrite <-app_assoc.
  - unfold jkeys in *. rewrite map_app in Hn. apply NoDup_app in Hn as (_ & Hd & _).
    intros Hk. apply (Hd k Hk). by left.
Qed.

Lemma read_back_plain v : json_plain v = true -> read_back v.
Proof.
  induction v as [| |b|n| |s|d|l IH|r IH] using jsval_rec'; intros Hv fuel rest Hr Hf; try discriminate Hv.
  - destruct fuel; [lia|]. done.
  - destruct fuel; [lia|]. by destruct b.
  - destruct fuel as [|fuel]; [lia|]. unfold text. cbn [JSON_stringify default from_option id value].
    pose proof (keyword_num n rest Hr) as Hk. destruct (text_starts (VNum n) eq_refl) as (a & t & E & Hs & Hb & Hc).
    change (text (VNum n)) with (num_to_string n) in E. pose proof (number_num n) as Hn.
    rewrite E, str_app_cons in *. cbn [skip_ws]. rewrite Hs. apply Forall_cons in Hn as [Ha _].
    rewrite !decide_False by (intros ->; discriminate Ha). done.
  - destruct fuel as [|fuel]; [lia|]. unfold text. cbn [JSON_stringify default from_option id value].
    rewrite json_quote_app. change (skip_ws (String dquote ?t)) with (String dquote t).
    cbv beta iota. rewrite decide_True by done. by rewrite string_body_quoted.
  - cbn [json_plain] in Hv. rewrite text_arr in * by done. destruct fuel as [|fuel]; [lia|].
    rewrite !str_app_assoc. change ("[" +:+ ?t) with (String "[" t) in *. cbn [value].
    change (skip_ws (String "[" ?t)) with (String "[" t). cbv beta iota.
    rewrite decide_False, decide_True by done. change ("]" +:+ rest) with (String "]" rest).
    destruct l as [|x l]; [done|].
    assert (exists tl, js_join "," (map text (x :: l)) = text x +:+ tl) as [tl Etl].
    { destruct l; [exists ""|by eexists]. by rewrite str_app_nil_r. }
    rewrite Etl at 1. rewrite str_app_assoc.
    pose proof Hv as Hv'. cbn [forallb] in Hv'. apply andb_prop in Hv' as [Hx _].
    rewrite starts_expect by (by apply text_starts || by left).
    cbn [String.length] in Hf. rewrite str_length_app in Hf. cbn [String.length] in Hf.
    rewrite elements_read; [done|done|done| |lia].
    rewrite Forall_forall in IH |- *. intros y Hy. apply IH; [done|].
    rewrite forallb_forall in Hv. by apply Hv, list_elem_of_In.
  - cbn [json_plain] in Hv. apply andb_prop in Hv as [Hnd Hv]. apply bool_decide_eq_true in Hnd.
    rewrite text_obj in * by done. destruct fuel as [|fuel]; [lia|].
    rewrite !str_app_assoc. change ("{" +:+ ?t) with (String "{" t) in *. cbn [value].
    change (skip_ws (String "{" ?t)) with (String "{" t). cbv beta iota.
    do 2 rewrite decide_False by done. rewrite decide_True by done. change ("}" +:+ rest) with (String "}" rest).
    destruct r as [|e r]; [done|].
    assert (exists tl, js_join "," (map member_text (e :: r)) = String dquote tl) as [tl Etl].
    { destruct r; by eexists. }
    rewrite Etl at 1. rewrite str_app_cons.
    change (expect "}" (String dquote ?t)) with (@None string). cbv beta iota.
    cbn [String.length] in Hf. rewrite str_length_app in Hf. cbn [String.length] in Hf.
    rewrite members_read; [by rewrite jset_all_fresh|done|done| |lia].
    rewrite Forall_forall in IH |- *. intros y Hy. apply IH; [done|].
    rewrite forallb_forall in Hv. by apply Hv, list_elem_of_In.
Qed.

(** JSON texts round-trip: what [JSON_stringify] prints of plain data -
    nested lists and objects of strings, integers, booleans and null, with
    any characters in the strings - [JSON_parse] reads back, with the fuel it
    gives itself. *)
Theorem json_round_trip v t : json_plain v = true -> JSON_stringify v = Some t -> JSON_parse t = Some v.
Proof.
  intros Hv Ht. rewrite stringify_plain in Ht by done. injection Ht as <-. unfold JSON_parse.
  rewrite <-(str_app_nil_r (text v)). rewrite (read_back_plain v Hv) by (done || (rewrite str_app_nil_r; lia)).
  done.
Qed.
End Texts.

(** ** The fuel is enough for every text *)

Lemma prepend_some f o t r : prepend f o = Some (t, r) -> exists t', o = Some (t', r).
Proof. destruct o as [[t' r']|]; [|done]. intros [= _ <-]. by exists t'. Qed.

Lemma string_body_shrinks n s t r :
  String.length s <= n -> string_body s = Some (t, r) -> String.length r < String.length s.
Proof.
  revert s t r. induction n as [|n IH]; intros [|a s] t r Hn; cbn [String.length] in Hn; try done; [lia|].
  cbn [string_body]. destruct (decide _); [intros [= _ <-]; cbn; lia|].
  destruct (decide _).
  2:{ destruct (_ <? _)%N; [done|]. intros (t' & E)%prepend_some. apply IH in E; cbn; lia. }
  destruct s as [|b s]; [done|]. cbn [String.length] in *. destruct (decide _).
  2:{ destruct (plain_escape b); [|done]. intros (t' & E)%prepend_some. apply IH in E; lia. }
  destruct s as [|h1 [|h2 [|h3 [|h4 s]]]]; try done. cbn [String.length] in *.
  destruct (hex4 h1 h2 h3 h4) as [u|]; [|done].
  assert (forall t, prepend (utf8 u) (string_body s) = Some (t, r) -> String.length r < String.length s) as Hs.
  { intros t0 (t' & E)%prepend_some. apply IH in E; lia. }
  destruct s as [|b1 [|u1 [|l1 [|l2 [|l3 [|l4 s]]]]]]; try (intros E; apply Hs in E; cbn [String.length] in *; lia).
  destruct (if decide _ then _ else _) as [lo|]; [|intros E; apply Hs in E; cbn [String.length] in *; lia].
  destruct (_ && _); [|intros E; apply Hs in E; cbn [String.length] in *; lia].
  intros (t' & E)%prepend_some. apply IH in E; cbn [String.length] in *; lia.
Qed.

Lemma number_run_length s : String.length (number_run s).1 + String.length (number_run s).2 = String.length s.
Proof.
  induction s as [|a s IH]; [done|]. cbn [number_run]. destruct (number_char a); [|done].
  destruct (number_run s) as [t r]. cbn [fst snd String.length] in *. lia.
Qed.

Lemma after_prefix_length p s r : after_prefix p s = Some r -> String.length s = String.length p + String.length r.
Proof.
  revert s. induction p as [|a p IH]; intros s; [by intros [= ->]|]. destruct s as [|b s]; [done|]. cbn.
  destruct (decide _); [|done]. intros ->%IH. done.
Qed.

Lemma keyword_shrinks s v r : keyword s = Some (v, r) -> String.length r < String.length s.
Proof.
  unfold keyword. destruct (after_prefix "true" s) eqn:E1.
  { intros [= _ <-]. apply after_prefix_length in E1. cbn in E1. lia. }
  destruct (after_prefix "false" s) eqn:E2.
  { intros [= _ <-]. apply after_prefix_length in E2. cbn in E2. lia. }
  destruct (after_prefix "null" s) eqn:E3.
  { intros [= _ <-]. apply after_prefix_length in E3. cbn in E3. lia. }
  pose proof (number_run_length s) as Hl. destruct (number_run s) as [t r']. cbn [fst snd] in Hl.
  destruct t as [|a t]; [done|]. destruct (number_value _); [|done]. intros [= _ <-]. cbn [String.length] in Hl. lia.
Qed.

Lemma skip_ws_length s : String.length (skip_ws s) <= String.length s.
Proof. induction s as [|a s IH]; [done|]. cbn [skip_ws]. destruct (json_space a); cbn; lia. Qed.

Lemma expect_shrinks c s r : expect c s = Some r -> String.length r < String.length s.
Proof.
  unfold expect. pose proof (skip_ws_length s) as Hs. destruct (skip_ws s) as [|a t]; [done|].
  cbn [String.length] in Hs. destruct (decide _); [|done]. intros [= <-]. lia.
Qed.

(** What is left after a value, elements or members is shorter. *)
Lemma values_shrink fuel :
  (forall s v r, value fuel s = Some (v, r) -> String.length r < String.length s) /\
  (forall s l r, elements fuel s = Some (l, r) -> String.length r < String.length s) /\
  (forall s es r, members fuel s = Some (es, r) -> String.length r < String.length s).
Proof.
  induction fuel as [|fuel (IHv & IHe & IHm)]; [done|]. split_and!; intros s v r.
  - cbn [value]. pose proof (skip_ws_length s) as Hs. destruct (skip_ws s) as [|a t] eqn:E; [done|].
    cbn [String.length] in Hs. destruct (decide _).
    { destruct (string_body t) as [[t' r']|] eqn:Eb; [|done]. intros [= _ <-].
      apply (string_body_shrinks _ _ _ _ (Nat.le_refl _)) in Eb. lia. }
    destruct (decide _).
    { destruct (expect "]" t) eqn:Ex; [intros [= _ <-]; apply expect_shrinks in Ex; lia|].
      destruct (elements fuel t) as [[l r']|] eqn:Ee; [|done]. intros [= _ <-]. apply IHe in Ee. lia. }
    destruct (decide _).
    { destruct (expect "}" t) eqn:Ex; [intros [= _ <-]; apply expect_shrinks in Ex; lia|].
      destruct (members fuel t) as [[l r']|] eqn:Ee; [|done]. intros [= _ <-]. apply IHm in Ee. lia. }
    intros Hk%keyword_shrinks. cbn [String.length] in Hk. lia.
  - cbn [elements]. destruct (value fuel s) as [[x r1]|] eqn:Ev; [|done]. apply IHv in Ev.
    destruct (expect "," r1) as [r2|] eqn:Ec.
    + apply expect_shrinks in Ec. destruct (elements fuel r2) as [[l r3]|] eqn:Ee; [|done].
      intros [= _ <-]. apply IHe in Ee. lia.
    + destruct (expect "]" r1) eqn:Ex; [|done]. intros [= _ <-]. apply expect_shrinks in Ex. lia.
  - cbn [members]. destruct (expect dquote s) as [r0|] eqn:E0; [|done]. apply expect_shrinks in E0.
    destruct (string_body r0) as [[k r1]|] eqn:Eb; [|done].
    apply (string_body_shrinks _ _ _ _ (Nat.le_refl _)) in Eb.
    destruct (expect ":" r1) as [r2|] eqn:E2; [|done]. apply expect_shrinks in E2.
    destruct (value fuel r2) as [[x r3]|] eqn:Ev; [|done]. apply IHv in Ev.
    destruct (expect "," r3) as [r4|] eqn:Ec.
    + apply expect_shrinks in Ec. destruct (members fuel r4) as [[l r5]|] eqn:Ee; [|done].
      intros [= _ <-]. apply IHm in Ee. lia.
    + destruct (expect "}" r3) eqn:Ex; [|done]. intros [= _ <-]. apply expect_shrinks in Ex. lia.
Qed.

Lemma fuel_enough n s f f' :
  String.length s <= n ->
  (2 * n + 1 <= f -> 2 * n + 1 <= f' -> value f s = value f' s) /\
  (2 * n + 2 <= f -> 2 * n + 2 <= f' -> elements f s = elements f' s) /\
  (2 * n + 2 <= f -> 2 * n + 2 <= f' -> members f s = members f' s).
Proof.
  revert s f f'. induction n as [n IH] using lt_wf_ind; intros s f f' Hs.
  assert (forall f f', 2 * n + 1 <= f -> 2 * n + 1 <= f' -> value f s = value f' s) as Hv.
  { intros [|g] [|g'] Hf Hf'; [lia..|]. cbn [value]. pose proof (skip_ws_length s) as Hw.
    destruct (skip_ws s) as [|a t]; [done|]. cbn [String.length] in Hw.
    destruct (decide _); [done|]. destruct n as [|n]; [lia|].
    destruct (IH n (Nat.lt_succ_diag_r n) t g g') as (_ & He & Hm); [lia|].
    rewrite He, Hm by lia. done. }
  split; [apply Hv|]. split; intros Hf Hf'; (destruct f as [|g], f' as [|g']; [lia..|]); cbn [elements members].
  - rewrite (Hv g g') by lia. destruct (value g' s) as [[x r1]|] eqn:Ev; [|done]. apply values_shrink in Ev.
    destruct (expect "," r1) as [r2|] eqn:Ec; [|done]. apply expect_shrinks in Ec.
    destruct n as [|n]; [lia|]. destruct (IH n (Nat.lt_succ_diag_r n) r2 g g') as (_ & He & _); [lia|].
    by rewrite He by lia.
  - destruct (expect dquote s) as [r0|] eqn:E0; [|done]. apply expect_shrinks in E0.
    destruct (string_body r0) as [[k r1]|] eqn:Eb; [|done].
    apply (string_body_shrinks _ _ _ _ (Nat.le_refl _)) in Eb.
    destruct (expect ":" r1) as [r2|] eqn:E2; [|done]. apply expect_shrinks in E2.
    destruct n as [|n]; [lia|].
    destruct (IH n (Nat.lt_succ_diag_r n) r2 g g') as (Hv2 & _ & _); [lia|]. rewrite Hv2 by lia.
    destruct (value g' r2) as [[x r3]|] eqn:Ev; [|done]. apply values_shrink in Ev.
    destruct (expect "," r3) as [r4|] eqn:Ec; [|done]. apply expect_shrinks in Ec.
    destruct (IH n (Nat.lt_succ_diag_r n) r4 g g') as (_ & _ & Hm); [lia|]. by rewrite Hm by lia.
Qed.

(** More fuel than [JSON_parse] gives changes nothing, for any text. *)
Lemma JSON_parse_fuel s fuel :
  S (2 * String.length s) <= fuel -> value fuel s = value (S (2 * String.length s)) s.
Proof. intros Hf. apply (fuel_enough (String.length s) s); lia. Qed.

(** A text with white space, an escape, a surrogate pair and a repeated key. *)
Definition sample_text : string :=
  let q := String dquote "" in
  " { " +:+ q +:+ "a" +:+ q +:+ " : [1, -20 ,true], " +:+ q +:+ "b" +:+ q +:+ ":" +:+
  q +:+ "x\n\u00e9\ud83d\ude00" +:+ q +:+ ", " +:+ q +:+ "a" +:+ q +:+ ":null}".

Example parse_sample :
  JSON_parse sample_text =
  Some (VObj [("a", VNull); ("b", VStr (String "x" (String (chr 10) (utf8 233 (utf8 128512 "")))))]).
Proof. by vm_compute. Qed.

Example parse_refuses :
  map JSON_parse ["[1,]"; "007"; "tru"; "[1] x"; ""] = [None; None; None; None; None].
Proof. by vm_compute. Qed.

Lemma json_round_trip_witness :
  JSON_parse (default "" (JSON_stringify (VObj [("w", VStr "ws"); ("e", VNum (-5)); ("l", VArr [VNull; VStr "{"])]))) =
  Some (VObj [("w", VStr "ws"); ("e", VNum (-5)); ("l", VArr [VNull; VStr "{"])]).
Proof. apply json_round_trip; by vm_compute. Defined.
