(* ===== verification/RateLimit.v ===== *)
(** * Rate-limit retries (src/adapter/rate-limit.ts)

    A request is repeated at most five times while GitLab answers 429, after
    the longer of the wait its headers ask for and an exponential delay.  The
    loop counts down, so it is structural. *)

From S2P Require Import Prelude JsMap JsString JsVal Platform.
Open Scope nat_scope.
Open Scope string_scope.
Open Scope list_scope.

Definition MAX_RETRIES : nat := 5.
Definition BASE_DELAY_MS : Z := 500.
Definition BACKOFF_FACTOR : Z := 2.
Definition MAX_DELAY_MS : Z := 30000.

(** [s.trim()] *)
Fixpoint trim_end (s : string) : string :=
  match s with
  | "" => ""
  | String a s' =>
      let t := trim_end s' in
      if is_space a && bool_decide (t = "") then "" else String a t
  end.
Definition js_trim (s : string) : string := trim_end (trim_start s).

Record RateLimitHeaders := MkRateLimitHeaders {
  rl_retry_after : option string;
  rl_reset : option string;
  rl_x_reset : option string
}.

(** The reply of the wrapped request; [body] runs only when it is used. *)
Record Reply (S T : Type) := MkReply {
  rp_status : Z;
  rp_headers : RateLimitHeaders;
  rp_body : M S T
}.
Arguments MkReply {S T}.
Arguments rp_status {S T}.
Arguments rp_headers {S T}.
Arguments rp_body {S T}.

Definition exponentialDelay (attempt : nat) : Z :=
  Z.min (BASE_DELAY_MS * BACKOFF_FACTOR ^ Z.of_nat attempt) MAX_DELAY_MS.

Section Retry.
Context {P : Platform} {S : Type}.

(** [Date.now()] and the delay function of the caller's state. *)
Context (date_now : M S Z) (delayFn : Z -> M S unit).

(** The time from now to [t], not negative. *)
Definition until (t : Z) : M S Z :=
  let! now := date_now in
  let diff := (t - now)%Z in
  ret (if (0 <? diff)%Z then diff else 0%Z).

Definition parseRetryAfter (value : string) : M S Z :=
  let by_date :=
    match parseDate value with
    | Some t => until t
    | None => ret BASE_DELAY_MS
    end in
  match parseInt value with
  | Some asSeconds =>
      if bool_decide (num_to_string asSeconds = js_trim value) then ret (asSeconds * 1000)%Z else by_date
  | None => by_date
  end.

Definition extractWaitMs (headers : RateLimitHeaders) : M S Z :=
  let by_reset :=
    match (match rl_reset headers with Some r => Some r | None => rl_x_reset headers end) with
    | Some reset =>
        match parseInt reset with
        | Some resetEpoch => until (resetEpoch * 1000)
        | None => ret BASE_DELAY_MS
        end
    | None => ret BASE_DELAY_MS
    end in
  match rl_retry_after headers with
  | Some retryAfter => if bool_decide (retryAfter = "") then by_reset else parseRetryAfter retryAfter
  | None => by_reset
  end.

Context {T : Type} (fn : M S (Reply S T)).

(** The loop with [left] retries left. *)
Fixpoint retry_loop (left : nat) (lastWaitMs : Z) : M S T :=
  let! result := fn in
  if negb (rp_status result =? 429)%Z then rp_body result
  else
    match left with
    | O => throw (RateLimitError "Rate limit exceeded after 5 retries" lastWaitMs)
    | Datatypes.S left' =>
        let! headerWait := extractWaitMs (rp_headers result) in
        let backoffWait := exponentialDelay (MAX_RETRIES - left) in
        let lastWaitMs := Z.max headerWait backoffWait in
        delayFn lastWaitMs ;;!
        retry_loop left' lastWaitMs
    end.

Definition withRateLimitRetry : M S T := retry_loop MAX_RETRIES 0.
End Retry.

(** ** What a run of the loop is *)

Section Runs.
Context {P : Platform} {S T : Type} (date_now : M S Z) (delayFn : Z -> M S unit) (fn : M S (Reply S T)).
Implicit Types s : S.

(** One rejected attempt: the request answers 429 and the wait is served. *)
Definition rejected (attempt : nat) (wait : Z) s s' : Prop :=
  exists reply s1 hw s2, fn s = (Ok reply, s1) /\ rp_status reply = 429%Z /\
    extractWaitMs date_now (rp_headers reply) s1 = (Ok hw, s2) /\
    wait = Z.max hw (exponentialDelay attempt) /\ delayFn wait s2 = (Ok tt, s').

(** Rejected attempts [from], [from + 1], ..., with their waits. *)
Inductive rejections : nat -> list Z -> S -> S -> Prop :=
  | rejections_nil from s : rejections from [] s s
  | rejections_cons from w ws s s1 s' :
      rejected from w s s1 -> rejections (Datatypes.S from) ws s1 s' -> rejections from (w :: ws) s s'.

(** How a run ends after its rejections. *)
Inductive retry_end (left : nat) (last : Z) s : res T -> S -> Prop :=
  | end_answer reply s1 o s' :
      fn s = (Ok reply, s1) -> rp_status reply <> 429%Z -> rp_body reply s1 = (o, s') ->
      retry_end left last s o s'
  | end_exhausted reply s' :
      fn s = (Ok reply, s') -> rp_status reply = 429%Z -> left = 0 ->
      retry_end left last s (Throw (RateLimitError "Rate limit exceeded after 5 retries" last)) s'
  | end_request_fails e s' : fn s = (Throw e, s') -> retry_end left last s (Throw e) s'
  | end_clock_fails reply s1 e s' :
      fn s = (Ok reply, s1) -> rp_status reply = 429%Z -> left <> 0 ->
      extractWaitMs date_now (rp_headers reply) s1 = (Throw e, s') ->
      retry_end left last s (Throw e) s'
  | end_delay_fails reply s1 hw s2 w e s' :
      fn s = (Ok reply, s1) -> rp_status reply = 429%Z -> left <> 0 ->
      extractWaitMs date_now (rp_headers reply) s1 = (Ok hw, s2) -> delayFn w s2 = (Throw e, s') ->
      retry_end left last s (Throw e) s'.

Lemma retry_loop_run left lastw s o s' :
  left <= MAX_RETRIES -> retry_loop date_now delayFn fn left lastw s = (o, s') ->
  exists ws s1, length ws <= left /\ rejections (MAX_RETRIES - left) ws s s1 /\
    retry_end (left - length ws) (List.last ws lastw) s1 o s'.
Proof.
  revert lastw s. induction left as [|left IH]; intros lastw s Hle Hr; cbn [retry_loop] in Hr;
    unfold bind at 1 in Hr; destruct (fn s) as [[reply|e] s1] eqn:Ef.
  - exists [], s. split; [done|]. split; [constructor|]. cbn.
    destruct (Z.eqb_spec (rp_status reply) 429); cbn [negb] in Hr.
    + injection Hr as <- <-. by eapply end_exhausted.
    + by eapply end_answer.
  - injection Hr as <- <-. exists [], s. split; [done|]. split; [constructor|]. by apply end_request_fails.
  - destruct (Z.eqb_spec (rp_status reply) 429) as [E|E]; cbn [negb] in Hr.
    + unfold bind at 1 in Hr. destruct (extractWaitMs date_now (rp_headers reply) s1) as [[hw|e] s2] eqn:Ew.
      * unfold bind at 1 in Hr. destruct (delayFn _ s2) as [[[]|e] s3] eqn:Ed.
        { destruct (IH _ s3 ltac:(lia) Hr) as (ws & s4 & Hn & Hrej & Hend).
          exists (Z.max hw (exponentialDelay (MAX_RETRIES - Datatypes.S left)) :: ws), s4.
          split; [cbn [length]; lia|]. split.
          - econstructor; [by exists reply, s1, hw, s2|].
            by replace (Datatypes.S (MAX_RETRIES - Datatypes.S left)) with (MAX_RETRIES - left) by lia.
          - replace (List.last (_ :: ws) lastw) with (List.last ws (Z.max hw (exponentialDelay (MAX_RETRIES - Datatypes.S left))))
              by (destruct ws as [|w ws]; [done|]; clear; revert w; induction ws as [|w' ws IH]; intros w; [done|]; apply IH).
            by replace (Datatypes.S left - length (_ :: ws)) with (left - length ws) by (cbn [length]; lia). }
        { injection Hr as <- <-. exists [], s. split; [cbn; lia|]. split; [constructor|].
          by eapply end_delay_fails. }
      * injection Hr as <- <-. exists [], s. split; [cbn; lia|]. split; [constructor|].
        by eapply end_clock_fails.
    + exists [], s. split; [cbn; lia|]. split; [constructor|]. by eapply end_answer.
  - injection Hr as <- <-. exists [], s. split; [cbn; lia|]. split; [constructor|]. by apply end_request_fails.
Qed.

Lemma rejections_waits from ws s s' :
  rejections from ws s s' -> forall i w, ws !! i = Some w -> (exponentialDelay (from + i) <= w)%Z.
Proof.
  induction 1 as [|from w ws s s1 s' (reply & t1 & hw & t2 & _ & _ & _ & -> & _) _ IH]; [done|].
  intros [|i] w0; cbn [lookup list_lookup].
  - intros [= <-]. rewrite Nat.add_0_r. lia.
  - intros Hi. replace (from + Datatypes.S i) with (Datatypes.S from + i) by lia. by apply IH.
Qed.

(** C28: A request through [withRateLimitRetry] always returns or throws after
    at most five rejected attempts: it is a sequence of rejections whose
    [i]-th wait is at least the exponential delay, followed by exactly one of
    the ends - an answer that is not 429, whose body decides the result; a
    sixth 429, which throws [RateLimitError] with the last wait; or a failure
    of the request or of the delay itself, which is passed on. *)
Theorem retry_terminates s :
  exists o s' ws s1,
    withRateLimitRetry date_now delayFn fn s = (o, s') /\
    length ws <= 5 /\ rejections 0 ws s s1 /\
    (forall i w, ws !! i = Some w -> (Z.min (500 * 2 ^ Z.of_nat i) 30000 <= w)%Z) /\
    retry_end (5 - length ws) (List.last ws 0%Z) s1 o s'.
Proof.
  destruct (withRateLimitRetry date_now delayFn fn s) as [o s'] eqn:E.
  destruct (retry_loop_run 5 0 s o s' ltac:(done) E) as (ws & s1 & Hn & Hrej & Hend).
  exists o, s', ws, s1. split_and!; try done. intros i w Hi. by apply (rejections_waits 0 ws s s1 Hrej i w).
Qed.
End Runs.
