(* ===== verification/BaseUrl.v ===== *)
(** * The check of a GitLab base URL (src/util/url-validation.ts)

    What the code takes from Node is the class [NodeUrl]: the URL parser and
    [isIP], with the documented facts the proofs use.  The environment
    variable GITLAB_ALLOWED_HOSTS is an argument.  An IPv4 address is checked
    by its decimal octets; the theorem says which blocks of addresses that
    rejects. *)

From Stdlib Require Import Ascii.
From S2P Require Import Prelude JsMap JsString RateLimit.
Open Scope nat_scope.
Open Scope string_scope.
Open Scope list_scope.

(** ** What Node provides *)

Record URL := MkURL {
  url_protocol : string;
  url_username : string;
  url_password : string;
  url_hostname : string
}.

(** An address of four octets in the dotted notation. *)
Definition dotted (a b c d : Z) : string :=
  num_to_string a +:+ "." +:+ num_to_string b +:+ "." +:+ num_to_string c +:+ "." +:+ num_to_string d.

Definition octet (a : Z) : Prop := (0 <= a < 256)%Z.

Class NodeUrl := {
  new_URL : string -> option URL;
  isIP : string -> Z;
  isIP_dotted : forall s, isIP s = 4%Z ->
    exists a b c d, octet a /\ octet b /\ octet c /\ octet d /\ s = dotted a b c d;
  isIP_bracket : forall s, isIP ("[" +:+ s) = 0%Z
}.

(** ** The check *)

Definition dot : Ascii.ascii := "."%char.
Definition comma : Ascii.ascii := ","%char.

(** The comparisons of the first two octets. *)
Definition private_octets (a b : Z) : bool :=
  ((a =? 10) || (a =? 127) || (a =? 0) || ((a =? 169) && (b =? 254)) ||
   ((a =? 172) && (16 <=? b) && (b <=? 31)) || ((a =? 192) && (b =? 168)) ||
   ((a =? 100) && (64 <=? b) && (b <=? 127)))%Z.

Definition isPrivateIpv4 (ip : string) : bool :=
  match map parseInt (js_split dot ip) with
  | [Some a; Some b; Some _; Some _] => private_octets a b
  | _ => false
  end.

Section Check.
Context `{NodeUrl}.

Definition isPrivateIpv6 (ip : string) : bool :=
  let lower := to_lower ip in
  bool_decide (lower = "::1") || bool_decide (lower = "::") || starts_with "fc" lower ||
  starts_with "fd" lower || starts_with "fe80:" lower ||
  match after_prefix "::ffff:" lower with
  | Some v4 => (isIP v4 =? 4)%Z && isPrivateIpv4 v4
  | None => false
  end.

Definition isPrivateIp (ip : string) (version : Z) : bool :=
  if (version =? 4)%Z then isPrivateIpv4 ip
  else if (version =? 6)%Z then isPrivateIpv6 ip
  else false.

(** The entries of the allowlist. *)
Definition allowed_hosts (allowedRaw : option string) : list string :=
  match allowedRaw with
  | Some raw =>
      if (0 <? String.length raw)%nat then
        List.filter (fun s => (0 <? String.length s)%nat) (map js_trim (js_split comma raw))
      else ["gitlab.com"]
  | None => ["gitlab.com"]
  end.

Definition host_matches (hostLower entry : string) : bool :=
  let e := to_lower entry in
  bool_decide (e = "*") || bool_decide (e = hostLower) || (starts_with "." e && ends_with e hostLower).

Definition validateGitLabBaseUrl (allowedRaw : option string) (raw : string) : res URL :=
  match new_URL raw with
  | None => Throw (JsError ("Invalid gitlabBaseUrl: " +:+ raw))
  | Some url =>
      if negb (bool_decide (url_protocol url = "http:")) && negb (bool_decide (url_protocol url = "https:"))
      then Throw (JsError ("gitlabBaseUrl must use http or https: " +:+ raw))
      else if negb (bool_decide (url_username url = "")) || negb (bool_decide (url_password url = ""))
      then Throw (JsError "gitlabBaseUrl must not contain user-info credentials")
      else
        let host := url_hostname url in
        let ipVersion := isIP host in
        if negb (ipVersion =? 0)%Z && isPrivateIp host ipVersion
        then Throw (JsError ("gitlabBaseUrl resolves to a private/link-local IP: " +:+ host))
        else if existsb (host_matches (to_lower host)) (allowed_hosts allowedRaw) then Ok url
        else Throw (JsError ("gitlabBaseUrl host not in allowlist: " +:+ host))
  end.
End Check.

(** ** Properties *)

(** The 32-bit number of an address, and membership in a block of addresses. *)
Definition address (a b c d : Z) : Z := (((a * 256 + b) * 256 + c) * 256 + d)%Z.

Definition in_block (addr : Z) (block : Z * Z) : bool :=
  (addr / 2 ^ (32 - block.2) =? block.1 / 2 ^ (32 - block.2))%Z.

(** 10/8, 127/8, 0/8, 169.254/16, 172.16/12, 192.168/16 and 100.64/10. *)
Definition PRIVATE_BLOCKS : list (Z * Z) :=
  [(address 10 0 0 0, 8); (address 127 0 0 0, 8); (address 0 0 0 0, 8); (address 169 254 0 0, 16);
   (address 172 16 0 0, 12); (address 192 168 0 0, 16); (address 100 64 0 0, 10)]%Z.

Definition octets : list Z := map Z.of_nat (seq 0 256).

Lemma in_octets a : octet a -> In a octets.
Proof. intros Ha. apply in_map_iff. exists (Z.to_nat a). rewrite in_seq. unfold octet in Ha. lia. Qed.

(** What holds of each octet by computation. *)
Lemma octet_ind (p : Z -> bool) : forallb p octets = true -> forall a, octet a -> p a = true.
Proof. intros Hp a Ha. rewrite forallb_forall in Hp. by apply Hp, in_octets. Qed.

Lemma octet_no_dot a : octet a -> no_char dot (num_to_string a).
Proof.
  intros Ha. apply (bool_decide_eq_true_1 _). revert a Ha.
  apply (octet_ind (fun a => bool_decide (after_first dot (num_to_string a) = None))). vm_compute. reflexivity.
Qed.

Lemma split_dotted a b c d :
  octet a -> octet b -> octet c -> octet d ->
  map parseInt (js_split dot (dotted a b c d)) = [Some a; Some b; Some c; Some d].
Proof.
  intros Ha Hb Hc Hd. unfold dotted.
  change ("." +:+ num_to_string b +:+ "." +:+ num_to_string c +:+ "." +:+ num_to_string d)
    with (String dot (num_to_string b +:+ String dot (num_to_string c +:+ String dot (num_to_string d)))).
  rewrite !js_split_app, js_split_no_char by by apply octet_no_dot.
  cbn [map]. by rewrite !parseInt_num_to_string.
Qed.

Lemma private_blocks a b c d :
  octet a -> octet b -> octet c -> octet d ->
  private_octets a b = existsb (in_block (address a b c d)) PRIVATE_BLOCKS.
Proof.
  unfold octet. intros Ha Hb Hc Hd.
  assert (H8 : (address a b c d / 2 ^ (32 - 8) = a)%Z)
    by (unfold address; Z.to_euclidean_division_equations; lia).
  assert (H16 : (address a b c d / 2 ^ (32 - 16) = a * 256 + b)%Z)
    by (unfold address; Z.to_euclidean_division_equations; lia).
  assert (H12 : (address a b c d / 2 ^ (32 - 12) = a * 16 + b / 16)%Z)
    by (unfold address; Z.to_euclidean_division_equations; lia).
  assert (H10 : (address a b c d / 2 ^ (32 - 10) = a * 4 + b / 64)%Z)
    by (unfold address; Z.to_euclidean_division_equations; lia).
  unfold PRIVATE_BLOCKS, in_block. cbn [existsb fst snd]. rewrite H8, H16, H12, H10.
  apply eq_true_iff_eq. unfold private_octets.
  rewrite !orb_true_iff, !andb_true_iff, !Z.eqb_eq, !Z.leb_le.
  change (address 10 0 0 0 / 2 ^ (32 - 8))%Z with 10%Z. change (address 127 0 0 0 / 2 ^ (32 - 8))%Z with 127%Z.
  change (address 0 0 0 0 / 2 ^ (32 - 8))%Z with 0%Z. change (address 169 254 0 0 / 2 ^ (32 - 16))%Z with 43518%Z.
  change (address 172 16 0 0 / 2 ^ (32 - 12))%Z with 2753%Z.
  change (address 192 168 0 0 / 2 ^ (32 - 16))%Z with 49320%Z.
  change (address 100 64 0 0 / 2 ^ (32 - 10))%Z with 401%Z.
  split; intros Hx; Z.to_euclidean_division_equations; lia.
Qed.

Section Properties.
Context `{NodeUrl}.

Lemma validate_ok allowedRaw raw url :
  validateGitLabBaseUrl allowedRaw raw = Ok url ->
  new_URL raw = Some url /\ url_protocol url ∈ ["http:"; "https:"] /\
  url_username url = "" /\ url_password url = "" /\
  (isIP (url_hostname url) <> 0%Z -> isPrivateIp (url_hostname url) (isIP (url_hostname url)) = false) /\
  existsb (host_matches (to_lower (url_hostname url))) (allowed_hosts allowedRaw) = true.
Proof.
  unfold validateGitLabBaseUrl. destruct (new_URL raw) as [u|]; [|done].
  destruct (negb (bool_decide (url_protocol u = "http:")) && _) eqn:Ep; [done|].
  destruct (negb _ || _) eqn:Eu; [done|].
  destruct (negb (isIP (url_hostname u) =? 0)%Z && _) eqn:Ei; [done|].
  destruct (existsb _ _) eqn:Ea; [|done]. intros [= <-].
  apply orb_false_iff in Eu as [Eu Epw]. apply negb_false_iff, bool_decide_eq_true in Eu.
  apply negb_false_iff, bool_decide_eq_true in Epw. split_and!; try done.
  - apply andb_false_iff in Ep as [Ep|Ep]; apply negb_false_iff, bool_decide_eq_true in Ep as ->; set_solver.
  - intros Hne. apply andb_false_iff in Ei as [Ei|Ei]; [|done]. apply negb_false_iff, Z.eqb_eq in Ei. done.
Qed.

(** A base URL is accepted only when it parses, uses http or https, carries
    no user and no password, its host matches an entry of the allowlist, and
    the host is not an IPv4 address of the blocks 10/8, 127/8, 0/8,
    169.254/16, 172.16/12, 192.168/16 or 100.64/10. *)
Theorem base_url_accepted allowedRaw raw url :
  validateGitLabBaseUrl allowedRaw raw = Ok url ->
  new_URL raw = Some url /\ url_protocol url ∈ ["http:"; "https:"] /\
  url_username url = "" /\ url_password url = "" /\
  (exists entry, entry ∈ allowed_hosts allowedRaw /\
     host_matches (to_lower (url_hostname url)) entry = true) /\
  (forall a b c d, octet a -> octet b -> octet c -> octet d -> url_hostname url = dotted a b c d ->
     isIP (url_hostname url) = 4%Z -> existsb (in_block (address a b c d)) PRIVATE_BLOCKS = false).
Proof.
  intros Hv. destruct (validate_ok _ _ _ Hv) as (Hu & Hp & Hn & Hw & Hi & Ha). split_and!; try done.
  - apply existsb_exists in Ha as (entry & Hin & Hm). exists entry. by rewrite list_elem_of_In.
  - intros a b c d Ha' Hb Hc Hd Hh H4. rewrite <- private_blocks by done.
    specialize (Hi ltac:(rewrite H4; done)). rewrite H4 in Hi. unfold isPrivateIp, isPrivateIpv4 in Hi. cbn in Hi.
    rewrite Hh, split_dotted in Hi by done. done.
Qed.

(** An IPv6 literal is never found private: the parser leaves it in
    brackets, which [isIP] does not recognise, so that only the allowlist
    decides - with the entry [*], the loopback address is accepted. *)
Theorem ipv6_literal_unchecked raw url inner :
  new_URL raw = Some url -> url_protocol url = "http:" -> url_username url = "" -> url_password url = "" ->
  url_hostname url = "[" +:+ inner ->
  validateGitLabBaseUrl (Some "*") raw = Ok url.
Proof.
  intros Hu Hp Hn Hw Hh. unfold validateGitLabBaseUrl. rewrite Hu, Hp, Hn, Hw, Hh, isIP_bracket.
  rewrite !bool_decide_eq_true_2 by done. reflexivity.
Qed.
End Properties.

(** ** Concrete URLs *)

(** Two URLs, and the addresses that are recognised. *)
#[export] Instance toy_node_url : NodeUrl.
Proof.
  refine {| new_URL := fun s =>
              if bool_decide (s = "https://git.example.org") then Some (MkURL "https:" "" "" "git.example.org")
              else if bool_decide (s = "http://[::1]/") then Some (MkURL "http:" "" "" "[::1]")
              else if bool_decide (s = "http://172.20.0.9") then Some (MkURL "http:" "" "" "172.20.0.9")
              else None;
            isIP := fun s => if bool_decide (s = "172.20.0.9") then 4%Z else 0%Z |}.
  - intros s. case_bool_decide as Hs; [|done]. intros _. exists 172%Z, 20%Z, 0%Z, 9%Z. unfold octet.
    split_and!; try lia. rewrite Hs. vm_compute. reflexivity.
  - intros s. by case_bool_decide.
Defined.

Lemma base_url_accepted_witness :
  (exists url, validateGitLabBaseUrl (Some "gitlab.com, .Example.org") "https://git.example.org" = Ok url /\
     url_username url = "") /\
  res_ok (validateGitLabBaseUrl (Some "*") "http://172.20.0.9") = false.
Proof.
  split; [|vm_compute; reflexivity]. exists (MkURL "https:" "" "" "git.example.org").
  split; [vm_compute; reflexivity|].
  apply (base_url_accepted (Some "gitlab.com, .Example.org") "https://git.example.org"). vm_compute. reflexivity.
Defined.

Lemma ipv6_literal_unchecked_witness :
  validateGitLabBaseUrl (Some "*") "http://[::1]/" = Ok (MkURL "http:" "" "" "[::1]").
Proof.
  apply (ipv6_literal_unchecked "http://[::1]/" _ "::1]"); vm_compute; reflexivity.
Defined.
