(* ===== verification/GitLabMaps.v ===== *)
(** * From GitLab's JSON to the sync records (src/adapter/gitlab-client.ts)

    The mappers of the REST and GraphQL answers.  Raw values are dynamic; a
    property read of [null] or [undefined] throws as in JavaScript.  Strings
    are UTF-8 texts, so a byte length is the length of the string. *)

From S2P Require Import Prelude JsMap JsString JsVal Platform Sync MergeRequests.
Open Scope nat_scope.
Open Scope string_scope.
Open Scope list_scope.

(** ** Reading raw values *)

Definition is_nullish (v : jsval) : bool := match v with VUndef | VNull => true | _ => false end.

(** The properties of a value that is read from. *)
Definition fields_of (v : jsval) : res record :=
  match v with
  | VUndef | VNull => Throw (JsError "TypeError")
  | VObj r => Ok r
  | _ => Ok []
  end.

(** [v?.k] *)
Definition opt_prop (v : jsval) (k : string) : res jsval :=
  if is_nullish v then Ok VUndef else res_prop v k.

Fixpoint map_res {A B} (f : A -> res B) (l : list A) : res (list B) :=
  match l with
  | [] => Ok []
  | x :: l => let? y := f x in let? ys := map_res f l in Ok (y :: ys)
  end.

(** [v.map(f)] *)
Definition map_array {B} (f : jsval -> res B) (v : jsval) : res (list B) :=
  match v with VArr l => map_res f l | _ => Throw (JsError "TypeError") end.

Definition objects (l : list record) : jsval := VArr (map VObj l).

(** [v ?? null], [v === s] *)
Definition or_null (v : jsval) : jsval := js_coalesce v VNull.
Definition is_text (v : jsval) (s : string) : bool := bool_decide (v = VStr s).
Definition is_true (v : jsval) : bool := bool_decide (v = VBool true).

(** [v] when it is one of the listed strings, else [d]. *)
Definition one_of (v : jsval) (l : list string) (d : jsval) : jsval :=
  if existsb (is_text v) l then v else d.

(** [s.toLowerCase()] *)
Definition lower_of (v : jsval) : res jsval :=
  match v with VStr s => Ok (VStr (to_lower s)) | _ => Throw (JsError "TypeError") end.

(** ** The REST answers *)

Definition mapMergeStatus (raw : jsval) : jsval :=
  one_of raw ["can_be_merged"; "cannot_be_merged"; "unchecked"; "locked"] (VStr "unchecked").

Definition mapPipelineStatus (raw : jsval) : jsval :=
  one_of raw ["success"; "failed"; "canceled"; "pending"; "running"] VNull.

Definition mapUser (raw : jsval) : res record :=
  let? r := fields_of raw in
  Ok [("id", prop_of r "id"); ("username", prop_of r "username"); ("name", prop_of r "name");
      ("email", or_null (prop_of r "email")); ("avatarUrl", or_null (prop_of r "avatar_url"));
      ("webUrl", prop_of r "web_url")].

(** [(v ?? []).map(mapUser)] *)
Definition mapUsers (v : jsval) : res (list record) := map_array mapUser (js_coalesce v (VArr [])).

Definition mapLabel (raw : jsval) : res record :=
  let? r := fields_of raw in
  Ok [("id", prop_of r "id"); ("name", prop_of r "name"); ("color", prop_of r "color");
      ("description", or_null (prop_of r "description"))].

Definition mapMilestone (raw : jsval) : res record :=
  let? r := fields_of raw in
  Ok [("id", prop_of r "id"); ("iid", prop_of r "iid"); ("title", prop_of r "title");
      ("description", or_null (prop_of r "description"));
      ("state", VStr (if is_text (prop_of r "state") "closed" then "closed" else "active"));
      ("dueDate", or_null (prop_of r "due_date")); ("startDate", or_null (prop_of r "start_date"));
      ("createdAt", prop_of r "created_at"); ("updatedAt", prop_of r "updated_at")].

Definition mapNote (raw : jsval) : res record :=
  let? r := fields_of raw in
  let? author := mapUser (prop_of r "author") in
  Ok [("id", prop_of r "id"); ("body", prop_of r "body"); ("author", VObj author);
      ("createdAt", prop_of r "created_at"); ("updatedAt", prop_of r "updated_at");
      ("system", prop_of r "system"); ("confidential", VBool (is_true (prop_of r "confidential")))].

Definition mapIssue (raw : jsval) : res record :=
  let? r := fields_of raw in
  let milestone := prop_of r "milestone" in
  let? milestone :=
    if is_nullish milestone then Ok VNull
    else let? m := mapMilestone milestone in Ok (VObj m) in
  let? assignees := mapUsers (prop_of r "assignees") in
  let? author := mapUser (prop_of r "author") in
  Ok [("id", prop_of r "id"); ("iid", prop_of r "iid"); ("projectId", prop_of r "project_id");
      ("title", prop_of r "title"); ("description", or_null (prop_of r "description"));
      ("state", VStr (if is_text (prop_of r "state") "closed" then "closed" else "opened"));
      ("labels", prop_of r "labels"); ("milestone", milestone); ("assignees", objects assignees);
      ("author", VObj author); ("confidential", prop_of r "confidential");
      ("createdAt", prop_of r "created_at"); ("updatedAt", prop_of r "updated_at");
      ("closedAt", or_null (prop_of r "closed_at")); ("webUrl", prop_of r "web_url")].

Definition mapProject (raw : jsval) : res record :=
  let? r := fields_of raw in
  Ok [("id", prop_of r "id"); ("name", prop_of r "name");
      ("nameWithNamespace", prop_of r "name_with_namespace"); ("path", prop_of r "path");
      ("pathWithNamespace", prop_of r "path_with_namespace");
      ("description", or_null (prop_of r "description")); ("webUrl", prop_of r "web_url");
      ("visibility", prop_of r "visibility"); ("defaultBranch", or_null (prop_of r "default_branch"));
      ("createdAt", prop_of r "created_at"); ("lastActivityAt", prop_of r "last_activity_at")].

Definition mapWebhook (raw : jsval) : res record :=
  let? r := fields_of raw in
  Ok [("id", prop_of r "id"); ("url", prop_of r "url"); ("createdAt", prop_of r "created_at");
      ("issuesEvents", prop_of r "issues_events"); ("noteEvents", prop_of r "note_events");
      ("pushEvents", prop_of r "push_events"); ("tagPushEvents", prop_of r "tag_push_events");
      ("mergeRequestsEvents", prop_of r "merge_requests_events")].

Definition mapReviewPosition (raw : jsval) : res record :=
  let? r := fields_of raw in
  let filePath := js_coalesce (prop_of r "new_path") (js_coalesce (prop_of r "old_path") (VStr "")) in
  let pt := js_coalesce (prop_of r "position_type") (VStr "text") in
  let size k := (k, js_coalesce (prop_of r k) (VNum 0)) in
  let shas := [("baseSha", prop_of r "base_sha"); ("headSha", prop_of r "head_sha")] in
  Ok (if is_text pt "image" then
        [("positionType", VStr "image"); ("filePath", filePath); size "x"; size "y"; size "width";
         size "height"] ++ shas
      else if is_text pt "file" then [("positionType", VStr "file"); ("filePath", filePath)] ++ shas
      else
        [("positionType", VStr "text"); ("filePath", filePath);
         ("oldLine", or_null (prop_of r "old_line")); ("newLine", or_null (prop_of r "new_line"))] ++ shas ++
        [("startSha", prop_of r "start_sha")]).

(** *** Changed files *)

(** [buf.toString('utf8')]: an invalid or cut sequence becomes U+FFFD.  The
    bytes of the sequence that is being read are [pending]; [needed] more
    are expected, the next one between [lo] and [hi]. *)
Definition replacement : string :=
  String (Ascii.ascii_of_nat 239) (String (Ascii.ascii_of_nat 191) (String (Ascii.ascii_of_nat 189) "")).

(** The first byte of a sequence: how many follow and the range of the next. *)
Definition utf8_lead (b : nat) : option (nat * nat * nat) :=
  (if b <? 128 then Some (0, 128, 191)
   else if (194 <=? b) && (b <=? 223) then Some (1, 128, 191)
   else if b =? 224 then Some (2, 160, 191)
   else if b =? 237 then Some (2, 128, 159)
   else if (225 <=? b) && (b <=? 239) then Some (2, 128, 191)
   else if b =? 240 then Some (3, 144, 191)
   else if (241 <=? b) && (b <=? 243) then Some (3, 128, 191)
   else if b =? 244 then Some (3, 128, 143)
   else None)%nat.

Fixpoint utf8_go (pending : string) (needed lo hi : nat) (s : string) : string :=
  match s with
  | "" => if (needed =? 0)%nat then "" else replacement
  | String a s' =>
      let b := Ascii.nat_of_ascii a in
      let start (s' : string) :=
        match utf8_lead b with
        | None => replacement +:+ utf8_go "" 0 128 191 s'
        | Some (O, _, _) => String a (utf8_go "" 0 128 191 s')
        | Some (n, lo, hi) => utf8_go (String a "") n lo hi s'
        end in
      match needed with
      | O => start s'
      | S n =>
          if ((lo <=? b) && (b <=? hi))%nat then
            let pending := pending +:+ String a "" in
            match n with
            | O => pending +:+ utf8_go "" 0 128 191 s'
            | _ => utf8_go pending n 128 191 s'
            end
          else replacement +:+ start s'
      end
  end.

Definition utf8_decode (s : string) : string := utf8_go "" 0 128 191 s.

Definition DIFF_BODY_MAX_BYTES : nat := Z.to_nat (64 * 1024).

Definition mapChangedFileStatus (r : record) : jsval :=
  VStr (if is_true (prop_of r "new_file") then "added"
        else if is_true (prop_of r "deleted_file") then "deleted"
        else if is_true (prop_of r "renamed_file") then "renamed" else "modified").

(** [diffBody] and [diffOverflow] *)
Definition diff_fields (diff : string) : record :=
  if (String.length diff <=? DIFF_BODY_MAX_BYTES)%nat then [("diffBody", VStr diff)]
  else [("diffBody", VStr (utf8_decode (String.substring 0 DIFF_BODY_MAX_BYTES diff)));
        ("diffOverflow", VBool true)].

Definition mapChangedFile (raw : jsval) : res record :=
  let? r := fields_of raw in
  let path := js_coalesce (prop_of r "new_path") (js_coalesce (prop_of r "old_path") (VStr "")) in
  let file :=
    [("path", path); ("additions", VNum 0); ("deletions", VNum 0); ("status", mapChangedFileStatus r)] in
  let old_path := prop_of r "old_path" in
  let file :=
    if is_true (prop_of r "renamed_file") && is_defined old_path then file ++ [("oldPath", old_path)]
    else file in
  match prop_of r "diff" with
  | VUndef | VNull | VStr "" => Ok file
  | VStr diff => Ok (file ++ diff_fields diff)
  | _ => Throw (JsError "TypeError")
  end.

Definition mapChanges `{Platform} (raw : jsval) (fallbackWebUrl : jsval) : res record :=
  let? r := fields_of raw in
  let webUrl := js_coalesce (prop_of r "web_url") fallbackWebUrl in
  let? files := map_array mapChangedFile (js_coalesce (prop_of r "changes") (VArr [])) in
  Ok [("diffWebUrl", VStr (js_String webUrl +:+ "/diffs")); ("changedFiles", objects files)].

(** *** Approvals, iterations, epics *)

Definition mapApproval (raw : jsval) : res record :=
  let? r := fields_of raw in
  let? approvedBy := map_array (fun entry => let? user := res_prop entry "user" in mapUser user)
                       (js_coalesce (prop_of r "approved_by") (VArr [])) in
  Ok [("approvedBy", objects approvedBy);
      ("approvalsRequired", js_coalesce (prop_of r "approvals_required") (VNum 0))].

(** [deriveApprovalStatus] of the adapter *)
Definition enough_approvals (required approvers : Z) : jsval :=
  VStr (if ((0 <? required) && (required <=? approvers))%Z then "approved" else "pending").

Definition adapter_deriveApprovalStatus (approvals : record) : jsval :=
  match prop_of approvals "approvalsRequired", prop_of approvals "approvedBy" with
  | VNum required, VArr approvedBy => enough_approvals required (Z.of_nat (List.length approvedBy))
  | _, _ => VStr "pending"
  end.

Definition mapApprovalRuleType (raw : jsval) : jsval :=
  one_of raw ["regular"; "code_owner"; "any_approver"; "report_approver"] (VStr "regular").

(** The loop over [approved_by]: an entry is a user or wraps one. *)
Fixpoint rule_approvers (entries : list jsval) : res (list record) :=
  match entries with
  | [] => Ok []
  | entry :: rest =>
      let? wrapped := res_prop entry "user" in
      let userObj := js_coalesce wrapped entry in
      let? id := opt_prop userObj "id" in
      if is_defined id then
        let? user := mapUser userObj in
        let? users := rule_approvers rest in
        Ok (user :: users)
      else rule_approvers rest
  end.

Definition mapApprovalRule (raw : jsval) : res record :=
  let? r := fields_of raw in
  let? entries := res_elements (js_coalesce (prop_of r "approved_by") (VArr [])) in
  let? approvedBy := rule_approvers entries in
  let? eligible := mapUsers (prop_of r "eligible_approvers") in
  Ok [("id", prop_of r "id"); ("name", prop_of r "name");
      ("ruleType", mapApprovalRuleType (prop_of r "rule_type"));
      ("eligibleApprovers", objects eligible); ("approvalsRequired", prop_of r "approvals_required");
      ("approvedBy", objects approvedBy)].

Definition mapIterationState (raw : jsval) : jsval :=
  let among l := existsb (fun v => bool_decide (raw = v)) l in
  VStr (if among [VNum 1; VStr "1"; VStr "upcoming"] then "upcoming"
        else if among [VNum 2; VStr "2"; VStr "started"; VStr "current"] then "started"
        else if among [VNum 3; VStr "3"; VStr "closed"] then "closed" else "upcoming").

Section Dates.
Context `{Platform}.

Definition date_of (v : jsval) : jsval := VDate (new_Date v).

Definition mapMergeRequest (raw : jsval) (includeReviewers : bool) : res record :=
  let? r := fields_of raw in
  let state := prop_of r "state" in
  let merged_at := prop_of r "merged_at" in
  let head_pipeline := prop_of r "head_pipeline" in
  let? pipelineStatus :=
    if is_nullish head_pipeline then Ok VNull
    else let? st := res_prop head_pipeline "status" in Ok (mapPipelineStatus st) in
  let? assignees := mapUsers (prop_of r "assignees") in
  let? author := mapUser (prop_of r "author") in
  let mr :=
    [("iid", prop_of r "iid"); ("projectId", prop_of r "project_id"); ("title", prop_of r "title");
     ("description", js_coalesce (prop_of r "description") (VStr ""));
     ("state", one_of state ["closed"; "merged"; "locked"] (VStr "opened"));
     ("draft", prop_of r "draft"); ("sourceBranch", prop_of r "source_branch");
     ("targetBranch", prop_of r "target_branch");
     ("mergeStatus", mapMergeStatus (prop_of r "merge_status"));
     ("mergedAt", if is_nullish merged_at then VNull else date_of merged_at);
     ("pipelineStatus", pipelineStatus); ("labels", prop_of r "labels");
     ("milestone", or_null (prop_of r "milestone")); ("assignees", objects assignees);
     ("author", VObj author); ("createdAt", date_of (prop_of r "created_at"));
     ("updatedAt", date_of (prop_of r "updated_at")); ("webUrl", prop_of r "web_url");
     ("confidential", prop_of r "confidential")] in
  if includeReviewers then
    let? reviewers := mapUsers (prop_of r "reviewers") in
    Ok (mr ++ [("reviewers", objects reviewers)])
  else Ok mr.

Definition mapPipeline (raw : jsval) : res record :=
  let? r := fields_of raw in
  let? iid := opt_prop (prop_of r "merge_request") "iid" in
  Ok [("id", prop_of r "id"); ("projectId", prop_of r "project_id"); ("mergeRequestIid", or_null iid);
      ("status", mapPipelineStatus (prop_of r "status")); ("rawStatus", prop_of r "status");
      ("updatedAt", date_of (prop_of r "updated_at")); ("webUrl", prop_of r "web_url")].

Definition mapReviewNote (raw : jsval) : res record :=
  let? r := fields_of raw in
  let? author := mapUser (prop_of r "author") in
  let note :=
    [("id", prop_of r "id"); ("body", prop_of r "body"); ("author", VObj author);
     ("createdAt", date_of (prop_of r "created_at")); ("updatedAt", date_of (prop_of r "updated_at"));
     ("system", prop_of r "system"); ("resolvable", VBool (is_true (prop_of r "resolvable")));
     ("resolved", VBool (is_true (prop_of r "resolved")))] in
  if is_nullish (prop_of r "position") then Ok note
  else
    let? position := mapReviewPosition (prop_of r "position") in
    Ok (note ++ [("position", VObj position)]).

(** Some note has a position of a type that is not supported. *)
Fixpoint unsupported_position (notes : list jsval) : res bool :=
  match notes with
  | [] => Ok false
  | n :: rest =>
      let? position := res_prop n "position" in
      let? pt := opt_prop position "position_type" in
      if is_defined pt && negb (existsb (is_text pt) ["text"; "image"; "file"]) then Ok true
      else unsupported_position rest
  end.

(** [notes.reduce((acc, n) => Math.max(acc, n.updatedAt.getTime()), 0)] *)
Definition latest_update (notes : list record) : option Z :=
  fold_left (fun acc n =>
    match acc, prop_of n "updatedAt" with
    | Some a, VDate (Some t) => Some (Z.max a t)
    | _, _ => None
    end) notes (Some 0%Z).

(** [None] when the discussion is dropped. *)
Definition mapDiscussion (raw : jsval) (projectId mergeRequestIid : jsval) : res (option record) :=
  let? r := fields_of raw in
  let? notes := match prop_of r "notes" with VArr l => Ok l | _ => Throw (JsError "TypeError") end in
  match notes with
  | [] => Ok None
  | rootRaw :: _ =>
      let? unsupported := unsupported_position notes in
      if unsupported then Ok None
      else
        let? rootNote := fields_of rootRaw in
        let resolved_by := prop_of rootNote "resolved_by" in
        let? resolvedBy :=
          if is_nullish resolved_by then Ok VNull
          else let? u := mapUser resolved_by in Ok (VObj u) in
        let resolved_at := prop_of rootNote "resolved_at" in
        let? mapped := map_res mapReviewNote notes in
        Ok (Some
          [("discussionId", prop_of r "id"); ("mergeRequestIid", mergeRequestIid);
           ("projectId", projectId); ("resolved", VBool (is_true (prop_of rootNote "resolved")));
           ("resolvedBy", resolvedBy);
           ("resolvedAt", if is_nullish resolved_at then VNull else date_of resolved_at);
           ("notes", objects mapped); ("updatedAt", VDate (latest_update mapped))])
  end.

Definition mapIteration (raw : jsval) : res record :=
  let? r := fields_of raw in
  let date k := if is_nullish (prop_of r k) then VDate (Some 0%Z) else date_of (prop_of r k) in
  Ok [("id", VStr (js_String (prop_of r "id"))); ("title", prop_of r "title");
      ("startDate", date "start_date"); ("dueDate", date "due_date");
      ("state", mapIterationState (prop_of r "state")); ("webUrl", prop_of r "web_url")].

Definition mapEpic (raw : jsval) (childIssueIids : list jsval) : res record :=
  let? r := fields_of raw in
  let? author := mapUser (prop_of r "author") in
  Ok [("iid", prop_of r "iid"); ("groupId", prop_of r "group_id"); ("title", prop_of r "title");
      ("description", js_coalesce (prop_of r "description") (VStr ""));
      ("state", VStr (if is_text (prop_of r "state") "closed" then "closed" else "opened"));
      ("webUrl", prop_of r "web_url"); ("childIssueIids", VArr childIssueIids);
      ("author", VObj author); ("createdAt", date_of (prop_of r "created_at"));
      ("updatedAt", date_of (prop_of r "updated_at"))].

(** ** The GraphQL answers *)

(** [/(\d+)$/.exec(s)]: the digits a string ends with. *)
Fixpoint all_digits (s : string) : bool :=
  match s with
  | "" => true
  | String a s' => match digit_of a with Some _ => all_digits s' | None => false end
  end.

Fixpoint trailing_digits (s : string) : string :=
  match s with
  | "" => ""
  | String _ s' => if all_digits s then s else trailing_digits s'
  end.

Definition numericId (raw : jsval) : jsval :=
  match raw with
  | VNum _ | VNaN => raw
  | _ => VNum (default 0%Z (parse_digits (trailing_digits (js_String raw))))
  end.

Definition mapGraphQLUser (raw : jsval) : res record :=
  let? r := fields_of raw in
  Ok [("id", numericId (prop_of r "id")); ("username", prop_of r "username"); ("name", prop_of r "name");
      ("email", or_null (prop_of r "publicEmail")); ("avatarUrl", or_null (prop_of r "avatarUrl"));
      ("webUrl", prop_of r "webUrl")].

(** [(v?.nodes ?? [])] *)
Definition nodes_of (v : jsval) : res jsval :=
  let? nodes := opt_prop v "nodes" in Ok (js_coalesce nodes (VArr [])).

Definition mapGraphQLUsers (v : jsval) : res (list record) :=
  let? nodes := nodes_of v in map_array mapGraphQLUser nodes.

Definition mapGraphQLMRState (raw : jsval) : res jsval :=
  let? s := lower_of raw in Ok (one_of s ["closed"; "merged"; "locked"] (VStr "opened")).

Definition mapGraphQLMergeStatus (raw : jsval) : res jsval :=
  let? s := lower_of raw in Ok (mapMergeStatus s).

Definition mapGraphQLRule (raw : jsval) : res record :=
  let? r := fields_of raw in
  let? eligible := map_array mapGraphQLUser (js_coalesce (prop_of r "eligibleApprovers") (VArr [])) in
  let? approvedBy := mapGraphQLUsers (prop_of r "approvedBy") in
  Ok [("id", numericId (prop_of r "id")); ("name", prop_of r "name");
      ("ruleType", mapApprovalRuleType (js_coalesce (prop_of r "type") (VStr "regular")));
      ("eligibleApprovers", objects eligible); ("approvalsRequired", prop_of r "approvalsRequired");
      ("approvedBy", objects approvedBy)].

Definition mapDiffStat (raw : jsval) : res record :=
  let? d := fields_of raw in
  Ok [("path", prop_of d "path"); ("additions", prop_of d "additions"); ("deletions", prop_of d "deletions");
      ("status", VStr "modified")].

(** The payload of one merge request, once it is known to be there. *)
Definition mapGraphQLPayload (mr : record) : res record :=
  let? approvedBy := mapGraphQLUsers (prop_of mr "approvedBy") in
  let approvalsRequired := js_coalesce (prop_of mr "approvalsRequired") (VNum 0) in
  let approvalStatus :=
    match approvalsRequired with
    | VNum required => enough_approvals required (Z.of_nat (List.length approvedBy))
    | _ => VStr "pending"
    end in
  let? changedFiles := map_array mapDiffStat (js_coalesce (prop_of mr "diffStats") (VArr [])) in
  let? state := mapGraphQLMRState (prop_of mr "state") in
  let? mergeStatus := mapGraphQLMergeStatus (prop_of mr "mergeStatus") in
  let mergedAt := prop_of mr "mergedAt" in
  let headPipeline := prop_of mr "headPipeline" in
  let? pipelineStatus :=
    if is_nullish headPipeline then Ok VNull
    else let? st := res_prop headPipeline "status" in Ok (mapPipelineStatus st) in
  let? labelNodes := nodes_of (prop_of mr "labels") in
  let? labels := map_array (fun l => res_prop l "title") labelNodes in
  let milestone := prop_of mr "milestone" in
  let? milestone :=
    if is_nullish milestone then Ok VNull
    else
      let? m := fields_of milestone in
      Ok (VObj [("iid", numericId (prop_of m "iid")); ("title", prop_of m "title")]) in
  let? assignees := mapGraphQLUsers (prop_of mr "assignees") in
  let? author := mapGraphQLUser (prop_of mr "author") in
  let? reviewers := mapGraphQLUsers (prop_of mr "reviewers") in
  let? rules := opt_prop (prop_of mr "approvalState") "rules" in
  let? approvalRules := map_array mapGraphQLRule (js_coalesce rules (VArr [])) in
  Ok [("iid", numericId (prop_of mr "iid")); ("projectId", VNum 0); ("title", prop_of mr "title");
      ("description", js_coalesce (prop_of mr "description") (VStr "")); ("state", state);
      ("draft", prop_of mr "draft"); ("sourceBranch", prop_of mr "sourceBranch");
      ("targetBranch", prop_of mr "targetBranch"); ("mergeStatus", mergeStatus);
      ("mergedAt", if is_nullish mergedAt then VNull else date_of mergedAt);
      ("pipelineStatus", pipelineStatus); ("labels", VArr labels); ("milestone", milestone);
      ("assignees", objects assignees); ("author", VObj author);
      ("createdAt", date_of (prop_of mr "createdAt")); ("updatedAt", date_of (prop_of mr "updatedAt"));
      ("webUrl", prop_of mr "webUrl"); ("confidential", prop_of mr "confidential");
      ("reviewers", objects reviewers); ("approvedBy", objects approvedBy);
      ("approvalsRequired", approvalsRequired); ("approvalStatus", approvalStatus);
      ("diffWebUrl", VStr (js_String (prop_of mr "webUrl") +:+ "/diffs"));
      ("changedFiles", objects changedFiles); ("approvalRules", objects approvalRules)].

Definition confidential_mr (iid : jsval) : exn :=
  ConfidentialMergeRequestError (match iid with VNum n => n | _ => 0%Z end).

Definition mapGraphQLMRResponse (data : jsval) : res record :=
  let? project := res_prop data "project" in
  let? mr := opt_prop project "mergeRequest" in
  if is_nullish mr then Throw (NotFoundError "graphql.merge_request.null")
  else
    let? mr := fields_of mr in
    if truthy (prop_of mr "confidential") then Throw (confidential_mr (numericId (prop_of mr "iid")))
    else mapGraphQLPayload mr.

Definition mapGraphQLMRListNode (raw : jsval) : res record :=
  mapGraphQLMRResponse (VObj [("project", VObj [("mergeRequest", raw)])]).

Definition mapGraphQLEpicState (raw : jsval) : res jsval :=
  let? s := lower_of raw in Ok (VStr (if is_text s "closed" then "closed" else "opened")).

(** The positive iids of the child nodes. *)
Fixpoint child_iids (nodes : list jsval) : res (list jsval) :=
  match nodes with
  | [] => Ok []
  | node :: rest =>
      let? iidRaw := res_prop node "iid" in
      let? iids := child_iids rest in
      match (match iidRaw with
             | VNum n => Some n
             | VNaN => None
             | _ => parseInt (js_String iidRaw)
             end) with
      | Some n => Ok (if (0 <? n)%Z then VNum n :: iids else iids)
      | None => Ok iids
      end
  end.

Definition mapGraphQLEpicNode (raw : jsval) : res record :=
  let? r := fields_of raw in
  let? nodes := nodes_of (prop_of r "issues") in
  let? elements := res_elements nodes in
  let? childIssueIids := child_iids elements in
  let group := prop_of r "group" in
  let? groupId :=
    if is_nullish group then Ok (VNum 0)
    else let? id := res_prop group "id" in Ok (numericId id) in
  let? state := mapGraphQLEpicState (prop_of r "state") in
  let? author := mapGraphQLUser (prop_of r "author") in
  Ok [("iid", numericId (prop_of r "iid")); ("groupId", groupId); ("title", prop_of r "title");
      ("description", js_coalesce (prop_of r "description") (VStr "")); ("state", state);
      ("webUrl", prop_of r "webUrl"); ("childIssueIids", VArr childIssueIids); ("author", VObj author);
      ("createdAt", date_of (prop_of r "createdAt")); ("updatedAt", date_of (prop_of r "updatedAt"))].
End Dates.
