(* ===== verification/AdapterTypes.v ===== *)
(** * The declared types of the adapter (src/adapter/types.ts and the
      interfaces of src/adapter/gitlab-client.ts)

    The TypeScript types the adapter is written with, as data: [has_type]
    checks a dynamic value against one.  Types are structural, so a value may
    have more properties than its interface, and [k?: t] admits [undefined]
    for [k].  [mappers_typed] proves that the casts between the raw and the
    sync types tell the truth, for every mapper but one: what
    [RawApprovalRule] says of the approvers of a rule is too little for
    [mapApprovalRule], and the theorem is about [ExactApprovalRule]. *)

From S2P Require Import Prelude JsMap JsString JsVal Platform Sync MergeRequests GitLabMaps.
Open Scope nat_scope.
Open Scope string_scope.
Open Scope list_scope.

(** ** Types *)

Inductive ty :=
  | TNumber | TString | TBoolean | TDate | TNull | TUndefined
  | TLiteral (s : string)
  | TArray (t : ty)
  | TUnion (t u : ty)
  | TInterface (properties : list (string * ty)).

Declare Scope ts_scope.
Delimit Scope ts_scope with ts.
Infix "||" := TUnion : ts_scope.
Notation "k ~: t" := (k, t%ts) (at level 70, only parsing).
Notation "k ~? t" := (k, TUnion t%ts TUndefined) (at level 70, only parsing).

Definition literals (s : string) (l : list string) : ty := fold_left (fun t s => TUnion t (TLiteral s)) l (TLiteral s).
Definition nullable (t : ty) : ty := TUnion t TNull.

Fixpoint has_type (t : ty) (v : jsval) : bool :=
  match t with
  | TNumber => match v with VNum _ | VNaN => true | _ => false end
  | TString => match v with VStr _ => true | _ => false end
  | TBoolean => match v with VBool _ => true | _ => false end
  | TDate => match v with VDate _ => true | _ => false end
  | TNull => match v with VNull => true | _ => false end
  | TUndefined => match v with VUndef => true | _ => false end
  | TLiteral s => is_text v s
  | TArray t => match v with VArr l => forallb (has_type t) l | _ => false end
  | TUnion t u => has_type t v || has_type u v
  | TInterface ps =>
      match v with
      | VObj r => (fix all ps := match ps with [] => true | p :: ps => has_type p.2 (prop_of r p.1) && all ps end) ps
      | _ => false
      end
  end.

(** ** The sync records (types.ts) *)

Definition SyncUser : ty := TInterface [
  "id" ~: TNumber; "username" ~: TString; "name" ~: TString; "email" ~: nullable TString;
  "avatarUrl" ~: nullable TString; "webUrl" ~: TString].

Definition SyncLabel : ty := TInterface [
  "id" ~: TNumber; "name" ~: TString; "color" ~: TString; "description" ~: nullable TString].

Definition SyncMilestone : ty := TInterface [
  "id" ~: TNumber; "iid" ~: TNumber; "title" ~: TString; "description" ~: nullable TString;
  "state" ~: literals "active" ["closed"]; "dueDate" ~: nullable TString; "startDate" ~: nullable TString;
  "createdAt" ~: TString; "updatedAt" ~: TString].

Definition SyncReviewPosition : ty := (
  TInterface ["positionType" ~: TLiteral "text"; "filePath" ~: TString; "oldLine" ~: nullable TNumber;
              "newLine" ~: nullable TNumber; "baseSha" ~: TString; "headSha" ~: TString; "startSha" ~: TString] ||
  TInterface ["positionType" ~: TLiteral "image"; "filePath" ~: TString; "x" ~: TNumber; "y" ~: TNumber;
              "width" ~: TNumber; "height" ~: TNumber; "baseSha" ~: TString; "headSha" ~: TString] ||
  TInterface ["positionType" ~: TLiteral "file"; "filePath" ~: TString; "baseSha" ~: TString; "headSha" ~: TString])%ts.

Definition SyncNote : ty := TInterface [
  "id" ~: TNumber; "body" ~: TString; "author" ~: SyncUser; "createdAt" ~: TString; "updatedAt" ~: TString;
  "system" ~: TBoolean; "confidential" ~: TBoolean; "noteableType" ~? literals "Issue" ["MergeRequest"];
  "position" ~? SyncReviewPosition].

Definition MergeStatus : ty := literals "can_be_merged" ["cannot_be_merged"; "unchecked"; "locked"].
Definition ApprovalStatus : ty := literals "pending" ["approved"; "changes_requested"].

Definition SyncChangedFile : ty := TInterface [
  "path" ~: TString; "oldPath" ~? TString; "additions" ~: TNumber; "deletions" ~: TNumber;
  "status" ~: literals "added" ["modified"; "deleted"; "renamed"]; "diffBody" ~? TString; "diffOverflow" ~? TBoolean].

Definition SyncReviewNote : ty := TInterface [
  "id" ~: TNumber; "body" ~: TString; "author" ~: SyncUser; "createdAt" ~: TDate; "updatedAt" ~: TDate;
  "system" ~: TBoolean; "resolvable" ~: TBoolean; "resolved" ~: TBoolean; "position" ~? SyncReviewPosition].

Definition SyncReviewThread : ty := TInterface [
  "discussionId" ~: TString; "mergeRequestIid" ~: TNumber; "projectId" ~: TNumber; "resolved" ~: TBoolean;
  "resolvedBy" ~: nullable SyncUser; "resolvedAt" ~: nullable TDate; "notes" ~: TArray SyncReviewNote;
  "updatedAt" ~: TDate].

Definition SyncMRChanges : ty := TInterface ["diffWebUrl" ~: TString; "changedFiles" ~: TArray SyncChangedFile].

Definition SyncMRApprovals : ty := TInterface ["approvedBy" ~: TArray SyncUser; "approvalsRequired" ~: TNumber].

Definition SyncPipelineStatus : ty := literals "pending" ["running"; "success"; "failed"; "canceled"].

Definition SyncMRApprovalRule : ty := TInterface [
  "id" ~: TNumber; "name" ~: TString;
  "ruleType" ~: literals "regular" ["any_approver"; "code_owner"; "report_approver"];
  "eligibleApprovers" ~: TArray SyncUser; "approvalsRequired" ~: TNumber; "approvedBy" ~: TArray SyncUser].

Definition SyncIteration : ty := TInterface [
  "id" ~: TString; "title" ~: TString; "startDate" ~: TDate; "dueDate" ~: TDate;
  "state" ~: literals "upcoming" ["started"; "closed"]; "webUrl" ~: TString].

Definition SyncEpic : ty := TInterface [
  "iid" ~: TNumber; "groupId" ~: TNumber; "title" ~: TString; "description" ~: TString;
  "state" ~: literals "opened" ["closed"]; "webUrl" ~: TString; "childIssueIids" ~: TArray TNumber;
  "author" ~: SyncUser; "createdAt" ~: TDate; "updatedAt" ~: TDate].

Definition SyncMergeRequest : ty := TInterface [
  "iid" ~: TNumber; "projectId" ~: TNumber; "title" ~: TString; "description" ~: TString;
  "state" ~: literals "opened" ["closed"; "merged"; "locked"]; "draft" ~: TBoolean; "sourceBranch" ~: TString;
  "targetBranch" ~: TString; "mergeStatus" ~: MergeStatus; "mergedAt" ~: nullable TDate;
  "pipelineStatus" ~: nullable SyncPipelineStatus; "labels" ~: TArray TString;
  "milestone" ~: nullable (TInterface ["iid" ~: TNumber; "title" ~: TString]); "assignees" ~: TArray SyncUser;
  "author" ~: SyncUser; "createdAt" ~: TDate; "updatedAt" ~: TDate; "webUrl" ~: TString; "confidential" ~: TBoolean;
  "reviewers" ~? TArray SyncUser; "approvedBy" ~? TArray SyncUser; "approvalsRequired" ~? TNumber;
  "approvalStatus" ~? ApprovalStatus; "diffWebUrl" ~? TString; "changedFiles" ~? TArray SyncChangedFile;
  "approvalRules" ~? TArray SyncMRApprovalRule; "iteration" ~? nullable SyncIteration].

Definition SyncPipeline : ty := TInterface [
  "id" ~: TNumber; "projectId" ~: TNumber; "mergeRequestIid" ~: nullable TNumber;
  "status" ~: nullable SyncPipelineStatus; "rawStatus" ~: TString; "updatedAt" ~: TDate; "webUrl" ~: TString].

Definition SyncIssue : ty := TInterface [
  "id" ~: TNumber; "iid" ~: TNumber; "projectId" ~: TNumber; "title" ~: TString; "description" ~: nullable TString;
  "state" ~: literals "opened" ["closed"]; "labels" ~: TArray TString; "milestone" ~: nullable SyncMilestone;
  "assignees" ~: TArray SyncUser; "author" ~: SyncUser; "confidential" ~: TBoolean; "createdAt" ~: TString;
  "updatedAt" ~: TString; "closedAt" ~: nullable TString; "webUrl" ~: TString].

Definition SyncProject : ty := TInterface [
  "id" ~: TNumber; "name" ~: TString; "nameWithNamespace" ~: TString; "path" ~: TString;
  "pathWithNamespace" ~: TString; "description" ~: nullable TString; "webUrl" ~: TString; "visibility" ~: TString;
  "defaultBranch" ~: nullable TString; "createdAt" ~: TString; "lastActivityAt" ~: TString].

Definition SyncWebhook : ty := TInterface [
  "id" ~: TNumber; "url" ~: TString; "createdAt" ~: TString; "issuesEvents" ~: TBoolean; "noteEvents" ~: TBoolean;
  "pushEvents" ~: TBoolean; "tagPushEvents" ~: TBoolean; "mergeRequestsEvents" ~: TBoolean].

(** ** The raw answers of the REST API *)

Definition RawUser : ty := TInterface [
  "id" ~: TNumber; "username" ~: TString; "name" ~: TString; "email" ~? TString; "avatar_url" ~? TString;
  "web_url" ~: TString].

Definition RawLabel : ty := TInterface [
  "id" ~: TNumber; "name" ~: TString; "color" ~: TString; "description" ~? nullable TString].

Definition RawMilestone : ty := TInterface [
  "id" ~: TNumber; "iid" ~: TNumber; "title" ~: TString; "description" ~? nullable TString; "state" ~: TString;
  "due_date" ~? nullable TString; "start_date" ~? nullable TString; "created_at" ~: TString; "updated_at" ~: TString].

Definition RawNote : ty := TInterface [
  "id" ~: TNumber; "body" ~: TString; "author" ~: RawUser; "created_at" ~: TString; "updated_at" ~: TString;
  "system" ~: TBoolean; "confidential" ~? TBoolean].

Definition RawIssue : ty := TInterface [
  "id" ~: TNumber; "iid" ~: TNumber; "project_id" ~: TNumber; "title" ~: TString; "description" ~? nullable TString;
  "state" ~: TString; "labels" ~: TArray TString; "milestone" ~? nullable RawMilestone;
  "assignees" ~? TArray RawUser; "author" ~: RawUser; "confidential" ~: TBoolean; "created_at" ~: TString;
  "updated_at" ~: TString; "closed_at" ~? nullable TString; "web_url" ~: TString].

Definition RawProject : ty := TInterface [
  "id" ~: TNumber; "name" ~: TString; "name_with_namespace" ~: TString; "path" ~: TString;
  "path_with_namespace" ~: TString; "description" ~? nullable TString; "web_url" ~: TString; "visibility" ~: TString;
  "default_branch" ~? nullable TString; "created_at" ~: TString; "last_activity_at" ~: TString].

Definition RawWebhook : ty := TInterface [
  "id" ~: TNumber; "url" ~: TString; "created_at" ~: TString; "issues_events" ~: TBoolean; "note_events" ~: TBoolean;
  "push_events" ~: TBoolean; "tag_push_events" ~: TBoolean; "merge_requests_events" ~: TBoolean].

Definition RawMergeRequest : ty := TInterface [
  "iid" ~: TNumber; "project_id" ~: TNumber; "title" ~: TString; "description" ~? nullable TString;
  "state" ~: TString; "draft" ~: TBoolean; "source_branch" ~: TString; "target_branch" ~: TString;
  "merge_status" ~: TString; "merged_at" ~? nullable TString;
  "head_pipeline" ~? nullable (TInterface ["status" ~: TString]); "labels" ~: TArray TString;
  "milestone" ~? nullable (TInterface ["iid" ~: TNumber; "title" ~: TString; "iteration_id" ~? nullable TNumber;
                                       "group_id" ~? nullable TNumber]);
  "iteration" ~? nullable (TInterface ["id" ~: TNumber; "group_id" ~? nullable TNumber]);
  "assignees" ~? TArray RawUser; "reviewers" ~? TArray RawUser; "author" ~: RawUser; "created_at" ~: TString;
  "updated_at" ~: TString; "web_url" ~: TString; "confidential" ~: TBoolean].

Definition RawPipeline : ty := TInterface [
  "id" ~: TNumber; "project_id" ~: TNumber; "status" ~: TString; "updated_at" ~: TString; "web_url" ~: TString;
  "merge_request" ~? nullable (TInterface ["iid" ~: TNumber])].

Definition RawDiscussionPosition : ty := TInterface [
  "base_sha" ~: TString; "start_sha" ~: TString; "head_sha" ~: TString; "position_type" ~? TString;
  "new_path" ~? nullable TString; "old_path" ~? nullable TString; "new_line" ~? nullable TNumber;
  "old_line" ~? nullable TNumber; "x" ~? nullable TNumber; "y" ~? nullable TNumber; "width" ~? nullable TNumber;
  "height" ~? nullable TNumber].

Definition RawDiscussionNote : ty := TInterface [
  "id" ~: TNumber; "body" ~: TString; "author" ~: RawUser; "created_at" ~: TString; "updated_at" ~: TString;
  "system" ~: TBoolean; "resolvable" ~? TBoolean; "resolved" ~? TBoolean; "resolved_by" ~? nullable RawUser;
  "resolved_at" ~? nullable TString; "position" ~? nullable RawDiscussionPosition].

Definition RawDiscussion : ty := TInterface [
  "id" ~: TString; "individual_note" ~? TBoolean; "notes" ~: TArray RawDiscussionNote].

Definition RawApprovalResponse : ty := TInterface [
  "approvals_required" ~? TNumber; "approved_by" ~? TArray (TInterface ["user" ~: RawUser])].

Definition RawChange : ty := TInterface [
  "old_path" ~? TString; "new_path" ~? TString; "new_file" ~? TBoolean; "deleted_file" ~? TBoolean;
  "renamed_file" ~? TBoolean; "diff" ~? nullable TString].

Definition RawChangesResponse : ty := TInterface ["web_url" ~? TString; "changes" ~? TArray RawChange].

Definition RawApprovalRule : ty := TInterface [
  "id" ~: TNumber; "name" ~: TString; "rule_type" ~: TString; "eligible_approvers" ~? TArray RawUser;
  "approvals_required" ~: TNumber; "approved_by" ~? TArray (TInterface ["user" ~? RawUser] || RawUser)].

(** The rules [mapApprovalRule] is right about: an approver is an object that
    wraps a user, is a user and wraps none, or has no id and wraps none. *)
Definition RuleApprover : ty := (
  TInterface ["user" ~: RawUser] ||
  TInterface ["user" ~? TNull; "id" ~: TNumber; "username" ~: TString; "name" ~: TString; "email" ~? TString;
              "avatar_url" ~? TString; "web_url" ~: TString] ||
  TInterface ["user" ~? TNull; "id" ~: TUndefined])%ts.

Definition ExactApprovalRule : ty := TInterface [
  "id" ~: TNumber; "name" ~: TString; "rule_type" ~: TString; "eligible_approvers" ~? TArray RawUser;
  "approvals_required" ~: TNumber; "approved_by" ~? TArray RuleApprover].

Definition RawIteration : ty := TInterface [
  "id" ~: TNumber; "iid" ~? TNumber; "title" ~: TString; "description" ~? nullable TString;
  "state" ~: (TNumber || TString); "start_date" ~? nullable TString; "due_date" ~? nullable TString;
  "web_url" ~: TString].

Definition RawEpic : ty := TInterface [
  "id" ~: TNumber; "iid" ~: TNumber; "group_id" ~: TNumber; "title" ~: TString; "description" ~? nullable TString;
  "state" ~: TString; "web_url" ~: TString; "author" ~: RawUser; "created_at" ~: TString; "updated_at" ~: TString;
  "confidential" ~? TBoolean].

(** ** The GraphQL answers *)

Definition GraphQLUser : ty := TInterface [
  "id" ~: (TString || TNumber); "username" ~: TString; "name" ~: TString; "publicEmail" ~? nullable TString;
  "avatarUrl" ~? nullable TString; "webUrl" ~: TString].

(** [{ nodes?: t[] | null } | null] *)
Definition connection (t : ty) : ty := nullable (TInterface ["nodes" ~? nullable (TArray t)]).

Definition GraphQLMRRule : ty := TInterface [
  "id" ~: (TString || TNumber); "name" ~: TString; "type" ~? nullable TString; "approvalsRequired" ~: TNumber;
  "eligibleApprovers" ~? nullable (TArray GraphQLUser); "approvedBy" ~? connection GraphQLUser].

Definition GraphQLMRDiffStat : ty := TInterface ["path" ~: TString; "additions" ~: TNumber; "deletions" ~: TNumber].

Definition GraphQLMRPayload : ty := TInterface [
  "iid" ~: (TNumber || TString); "title" ~: TString; "description" ~? nullable TString; "state" ~: TString;
  "draft" ~: TBoolean; "sourceBranch" ~: TString; "targetBranch" ~: TString; "mergeStatus" ~: TString;
  "mergedAt" ~? nullable TString; "createdAt" ~: TString; "updatedAt" ~: TString; "webUrl" ~: TString;
  "confidential" ~: TBoolean; "labels" ~? connection (TInterface ["title" ~: TString]);
  "milestone" ~? nullable (TInterface ["iid" ~: (TNumber || TString); "title" ~: TString]); "author" ~: GraphQLUser;
  "assignees" ~? connection GraphQLUser; "reviewers" ~? connection GraphQLUser;
  "headPipeline" ~? nullable (TInterface ["status" ~: TString]); "approved" ~? nullable TBoolean;
  "approvalsRequired" ~? nullable TNumber; "approvedBy" ~? connection GraphQLUser;
  "approvalState" ~? nullable (TInterface ["rules" ~? nullable (TArray GraphQLMRRule)]);
  "diffStats" ~? nullable (TArray GraphQLMRDiffStat)].

Definition GraphQLMRResponse : ty := TInterface [
  "project" ~: nullable (TInterface ["mergeRequest" ~: nullable GraphQLMRPayload])].

Definition GraphQLEpicIssueNode : ty := TInterface ["iid" ~: (TNumber || TString)].

Definition GraphQLEpicNode : ty := TInterface [
  "iid" ~: (TNumber || TString); "title" ~: TString; "description" ~? nullable TString; "state" ~: TString;
  "webUrl" ~: TString; "confidential" ~? nullable TBoolean; "createdAt" ~: TString; "updatedAt" ~: TString;
  "group" ~? nullable (TInterface ["id" ~: (TString || TNumber)]); "author" ~: GraphQLUser;
  "issues" ~? connection GraphQLEpicIssueNode].

(** ** Lemmas on types *)

Definition typed_props (ps : list (string * ty)) (r : record) : Prop :=
  Forall (fun p => has_type p.2 (prop_of r p.1) = true) ps.

Lemma typed_interface ps v : has_type (TInterface ps) v = true <-> exists r, v = VObj r /\ typed_props ps r.
Proof.
  assert (forall r, has_type (TInterface ps) (VObj r) = true <-> typed_props ps r) as Hobj.
  { intros r. cbn [has_type]. unfold typed_props. induction ps as [|p ps IH]; [by split|].
    by rewrite Forall_cons, andb_true_iff, IH. }
  split.
  - intros Hv. destruct v as [| | | | | | | |r]; try done. exists r. split; [done|]. by apply Hobj.
  - intros (r & -> & Hr). by apply Hobj.
Qed.

Lemma typed_array t l : has_type (TArray t) (VArr l) = true <-> Forall (fun v => has_type t v = true) l.
Proof. cbn [has_type]. rewrite forallb_forall, Forall_forall. by setoid_rewrite list_elem_of_In. Qed.

(** An interface with fewer properties. *)
Lemma interface_width ps ps' v :
  (forall p, p ∈ ps' -> p ∈ ps) -> has_type (TInterface ps) v = true -> has_type (TInterface ps') v = true.
Proof.
  intros Hps. rewrite !typed_interface. intros (r & -> & Hr). exists r. split; [done|].
  unfold typed_props in *. rewrite Forall_forall in *. auto.
Qed.

Lemma typed_nullable t v : has_type t v = true -> has_type (nullable t) v = true.
Proof. cbn. by intros ->. Qed.

(** The left or the right part of a union. *)
Lemma typed_left t u v : has_type t v = true -> has_type (TUnion t u) v = true.
Proof. cbn. by intros ->. Qed.

Lemma typed_right t u v : has_type u v = true -> has_type (TUnion t u) v = true.
Proof. cbn. intros ->. by rewrite orb_true_r. Qed.

Lemma typed_one_of t v l d :
  (forall s, s ∈ l -> has_type t (VStr s) = true) -> has_type t d = true -> has_type t (one_of v l d) = true.
Proof.
  intros Hl Hd. unfold one_of. destruct (existsb (is_text v) l) eqn:E; [|done].
  apply existsb_exists in E as (s & Hs & Hv). apply list_elem_of_In in Hs. unfold is_text in Hv.
  apply bool_decide_eq_true in Hv as ->. by apply Hl.
Qed.

(** A mapper from one type to another. *)
Definition typed_map (f : jsval -> res record) (t u : ty) : Prop :=
  forall v, has_type t v = true -> exists r, f v = Ok r /\ has_type u (VObj r) = true.

Lemma typed_map_res f t u l :
  typed_map f t u -> Forall (fun v => has_type t v = true) l ->
  exists rs, map_res f l = Ok rs /\ has_type (TArray u) (objects rs) = true.
Proof.
  intros Hf. induction 1 as [|v l Hv _ IH]; [by exists []|]. destruct (Hf v Hv) as (r & Er & Hr).
  destruct IH as (rs & Ers & Hrs). exists (r :: rs). cbn [map_res]. rewrite Er. cbn [res_bind]. rewrite Ers.
  split; [done|]. unfold objects in *. cbn [map]. apply typed_array. apply typed_array in Hrs. by apply Forall_cons.
Qed.

Lemma typed_map_array f t u v :
  typed_map f t u -> has_type (TArray t) v = true ->
  exists rs, map_array f v = Ok rs /\ has_type (TArray u) (objects rs) = true.
Proof.
  intros Hf Hv. destruct v as [| | | | | | |l|]; try done. cbn [map_array]. apply (typed_map_res f t); [done|].
  by apply typed_array.
Qed.

(** [v ?? []] of an array that may be missing. *)
Lemma typed_or_empty t v :
  has_type (TUnion (TArray t) TUndefined) v = true -> has_type (TArray t) (js_coalesce v (VArr [])) = true.
Proof. destruct v; cbn; by rewrite ?orb_false_r. Qed.

Lemma typed_or_empty_null t v :
  has_type (TUnion (nullable (TArray t)) TUndefined) v = true -> has_type (TArray t) (js_coalesce v (VArr [])) = true.
Proof. destruct v; cbn; by rewrite ?orb_false_r. Qed.

(** The hypotheses on the properties of a typed object, one by one. *)
Lemma typed_cons p ps r : typed_props (p :: ps) r <-> has_type p.2 (prop_of r p.1) = true /\ typed_props ps r.
Proof. unfold typed_props. by rewrite Forall_cons. Qed.

Lemma typed_nil r : typed_props [] r.
Proof. apply Forall_nil_2. Qed.

Ltac open_props H :=
  match type of H with
  | typed_props (_ :: _) _ =>
      let T := fresh "T" in apply typed_cons in H; destruct H as [T H]; cbn [fst snd] in T; open_props H
  | _ => clear H
  end.

Ltac open_object H :=
  let r := fresh "r" in let E := fresh "E" in
  apply typed_interface in H; destruct H as (r & E & H); subst; open_props H.

Lemma prop_of_here k v (r : record) : prop_of ((k, v) :: r) k = v.
Proof. unfold prop_of. cbn [jget]. by rewrite decide_True. Qed.

Lemma prop_of_there k k' v (r : record) : k <> k' -> prop_of ((k', v) :: r) k = prop_of r k.
Proof. intros Hk. unfold prop_of. cbn [jget]. by rewrite decide_False. Qed.

Ltac read_props := repeat first [rewrite prop_of_here | rewrite prop_of_there by discriminate].

(** A property of a result: one of the typed object, or computed from one by
    cases on its value, or known beforehand. *)
Ltac typed_value :=
  match goal with
  | |- _ => assumption
  | T : has_type _ (prop_of ?r ?k) = true |- context [prop_of ?r ?k] =>
      revert T; destruct (prop_of r k); cbn; intros; (done || congruence)
  | |- _ => by apply typed_nullable
  | |- _ => by apply typed_left
  | |- _ => reflexivity
  | |- context [if ?b then _ else _] => by repeat match goal with |- context [if ?b then _ else _] => destruct b end
  | |- has_type _ (one_of _ _ _) = true =>
      let s := fresh "s" in let Hs := fresh "Hs" in
      apply typed_one_of; [intros s Hs; repeat (apply elem_of_cons in Hs as [->|Hs]; [reflexivity|]); by apply elem_of_nil in Hs|reflexivity]
  end.

Ltac typed_result :=
  apply typed_interface; eexists; split; [reflexivity|]; cbn [app];
  repeat (apply typed_cons; split; [cbn [fst snd]; read_props; try typed_value|]); try apply typed_nil.

Ltac typed_mapper H := open_object H; eexists; split; [reflexivity|]; typed_result.

Lemma mapUser_typed : typed_map mapUser RawUser SyncUser.
Proof. intros v Hv. typed_mapper Hv. Qed.

Lemma mapLabel_typed : typed_map mapLabel RawLabel SyncLabel.
Proof. intros v Hv. typed_mapper Hv. Qed.

Lemma mapMilestone_typed : typed_map mapMilestone RawMilestone SyncMilestone.
Proof. intros v Hv. typed_mapper Hv. Qed.

Lemma mapProject_typed : typed_map mapProject RawProject SyncProject.
Proof. intros v Hv. typed_mapper Hv. Qed.

Lemma mapWebhook_typed : typed_map mapWebhook RawWebhook SyncWebhook.
Proof. intros v Hv. typed_mapper Hv. Qed.

(** *** Parts of a result that another mapper makes *)

Lemma mapUsers_typed v :
  has_type (TUnion (TArray RawUser) TUndefined) v = true ->
  exists us, mapUsers v = Ok us /\ has_type (TArray SyncUser) (objects us) = true.
Proof. intros Hv%typed_or_empty. exact (typed_map_array _ _ _ _ mapUser_typed Hv). Qed.

(** A value that may be missing or [null]. *)
Lemma typed_missing t v :
  has_type (TUnion (nullable t) TUndefined) v = true -> is_nullish v = true \/ is_nullish v = false /\ has_type t v = true.
Proof. destruct v; cbn [is_nullish]; try (by left); cbn; rewrite ?orb_false_r; auto. Qed.

Lemma missing_mapped f t u v :
  typed_map f t u -> has_type (TUnion (nullable t) TUndefined) v = true ->
  exists w, (if is_nullish v then Ok VNull else let? m := f v in Ok (VObj m)) = Ok w /\ has_type (nullable u) w = true.
Proof.
  intros Hf [->|[-> Hv]]%typed_missing; [exists VNull; cbn; by rewrite orb_true_r|].
  destruct (Hf v Hv) as (m & -> & Hm). exists (VObj m). split; [done|]. by apply typed_nullable.
Qed.

Definition mapMilestone_missing v := missing_mapped mapMilestone RawMilestone SyncMilestone v mapMilestone_typed.

(** Use the lemma [L] on the property [k] of the typed object. *)
Ltac part L k :=
  match goal with
  | T : has_type _ (prop_of _ k) = true |- _ =>
      let u := fresh "u" in let E := fresh "E" in let Hu := fresh "Hu" in
      destruct (L _ T) as (u & E & Hu); rewrite ?E; cbn [res_bind]
  end.

Ltac finish := eexists; split; [reflexivity|]; typed_result.

Lemma mapNote_typed : typed_map mapNote RawNote SyncNote.
Proof.
  intros v Hv. open_object Hv. unfold mapNote. cbn [fields_of res_bind]. part mapUser_typed "author". finish.
Qed.

Lemma mapIssue_typed : typed_map mapIssue RawIssue SyncIssue.
Proof.
  intros v Hv. open_object Hv. unfold mapIssue. cbn [fields_of res_bind].
  part mapMilestone_missing "milestone". part mapUsers_typed "assignees". part mapUser_typed "author". finish.
Qed.

Lemma path_typed (r : record) :
  has_type (TUnion (nullable TString) TUndefined) (prop_of r "new_path") = true ->
  has_type (TUnion (nullable TString) TUndefined) (prop_of r "old_path") = true ->
  has_type TString (js_coalesce (prop_of r "new_path") (js_coalesce (prop_of r "old_path") (VStr ""))) = true.
Proof. by destruct (prop_of r "new_path"), (prop_of r "old_path"). Qed.

Lemma mapReviewPosition_typed : typed_map mapReviewPosition RawDiscussionPosition SyncReviewPosition.
Proof.
  intros v Hv. open_object Hv. eexists. split; [reflexivity|].
  pose proof (path_typed r) as Hpath. revert Hpath. generalize (js_coalesce (prop_of r "new_path") (js_coalesce (prop_of r "old_path") (VStr ""))).
  intros path Hpath. specialize (Hpath ltac:(assumption) ltac:(assumption)).
  destruct (is_text _ "image"); [|destruct (is_text _ "file")].
  - apply typed_left, typed_right. typed_result.
  - apply typed_right. typed_result.
  - apply typed_left, typed_left. typed_result.
Qed.

Lemma typed_optional t v :
  has_type (TUnion t TUndefined) v = true -> has_type (TUnion (nullable t) TUndefined) v = true.
Proof. destruct v; cbn; rewrite ?orb_false_r; try done; by intros ->. Qed.

Lemma mapChangedFile_typed : typed_map mapChangedFile RawChange SyncChangedFile.
Proof.
  intros v Hv. open_object Hv. unfold mapChangedFile, mapChangedFileStatus, diff_fields.
  cbn [fields_of res_bind].
  pose proof (path_typed r) as Hpath. revert Hpath.
  generalize (js_coalesce (prop_of r "new_path") (js_coalesce (prop_of r "old_path") (VStr ""))).
  intros path Hpath. specialize (Hpath ltac:(by apply typed_optional) ltac:(by apply typed_optional)).
  assert (has_type (nullable TString || TUndefined)%ts (prop_of r "diff") = true) as Hd by assumption.
  destruct (is_true _ && _); destruct (prop_of r "diff") as [| | | | |[|a s]| | |]; try discriminate Hd; try finish.
  all: destruct (String.length _ <=? _)%nat; finish.
Qed.

Section Dates.
Context `{Platform}.

Lemma mapChanges_typed s : typed_map (fun v => mapChanges v (VStr s)) RawChangesResponse SyncMRChanges.
Proof.
  intros v Hv. open_object Hv. unfold mapChanges. cbn [fields_of res_bind].
  assert (has_type (TArray RawChange) (js_coalesce (prop_of r "changes") (VArr [])) = true) as Hc
    by (by apply typed_or_empty).
  destruct (typed_map_array _ _ _ _ mapChangedFile_typed Hc) as (fs & -> & Hfs). cbn [res_bind]. finish.
Qed.

Lemma approver_typed :
  typed_map (fun entry => let? user := res_prop entry "user" in mapUser user) (TInterface ["user" ~: RawUser]) SyncUser.
Proof. intros v Hv. open_object Hv. by apply mapUser_typed. Qed.

Lemma mapApproval_typed : typed_map mapApproval RawApprovalResponse SyncMRApprovals.
Proof.
  intros v Hv. open_object Hv. unfold mapApproval. cbn [fields_of res_bind].
  assert (has_type (TArray (TInterface ["user" ~: RawUser])) (js_coalesce (prop_of r "approved_by") (VArr [])) = true) as Ha
    by (by apply typed_or_empty).
  destruct (typed_map_array _ _ _ _ approver_typed Ha) as (us & -> & Hus). cbn [res_bind]. finish.
Qed.

Lemma date_of_typed v : has_type TDate (date_of v) = true.
Proof. done. Qed.

Lemma mapIteration_typed : typed_map mapIteration RawIteration SyncIteration.
Proof. intros v Hv. open_object Hv. unfold mapIteration, mapIterationState. cbn [fields_of res_bind]. finish. Qed.

Lemma mapPipelineStatus_typed v : has_type (nullable SyncPipelineStatus) (mapPipelineStatus v) = true.
Proof. unfold mapPipelineStatus. typed_value. Qed.

Lemma pipeline_status_typed v :
  has_type (TUnion (nullable (TInterface ["status" ~: TString])) TUndefined) v = true ->
  exists w, (if is_nullish v then Ok VNull else let? st := res_prop v "status" in Ok (mapPipelineStatus st)) = Ok w /\
    has_type (nullable SyncPipelineStatus) w = true.
Proof.
  intros [->|[-> Hv]]%typed_missing; [by exists VNull|]. open_object Hv. eexists. split; [reflexivity|].
  apply mapPipelineStatus_typed.
Qed.

Lemma mapPipeline_typed : typed_map mapPipeline RawPipeline SyncPipeline.
Proof.
  intros v Hv. open_object Hv. unfold mapPipeline. cbn [fields_of res_bind].
  assert (exists iid, opt_prop (prop_of r "merge_request") "iid" = Ok iid /\ has_type (TUnion TNumber TUndefined) iid = true)
    as (iid & -> & Hiid).
  { match goal with T : has_type _ (prop_of r "merge_request") = true |- _ =>
      destruct (typed_missing _ _ T) as [Hn|[Hn Hm]]; clear T end; unfold opt_prop; rewrite Hn; [by eexists|].
    clear Hn. revert Hm. generalize (prop_of r "merge_request"). intros v Hm. open_object Hm.
    eexists. split; [reflexivity|]. by apply typed_left. }
  cbn [res_bind]. eexists. split; [reflexivity|]. typed_result.
  - by destruct iid.
  - apply mapPipelineStatus_typed.
Qed.

Lemma or_null_width ps ps' v :
  (forall p, p ∈ ps' -> p ∈ ps) -> has_type (TUnion (nullable (TInterface ps)) TUndefined) v = true ->
  has_type (nullable (TInterface ps')) (or_null v) = true.
Proof.
  intros Hps [Hn|[Hn Hv]]%typed_missing; [by destruct v|]. apply typed_nullable.
  replace (or_null v) with v by (by destruct v). by apply (interface_width ps).
Qed.

Lemma mapMergeRequest_typed b :
  typed_map (fun v => mapMergeRequest v b) RawMergeRequest SyncMergeRequest.
Proof.
  intros v Hv. open_object Hv. unfold mapMergeRequest, mapMergeStatus. cbn [fields_of res_bind].
  part pipeline_status_typed "head_pipeline". part mapUsers_typed "assignees". part mapUser_typed "author".
  assert (has_type (nullable (TInterface ["iid" ~: TNumber; "title" ~: TString])) (or_null (prop_of r "milestone")) = true)
    as Hm.
  { eapply or_null_width; [|eassumption]. intros p. rewrite !elem_of_cons. tauto. }
  destruct b; [part mapUsers_typed "reviewers"|]; finish.
Qed.

Definition mapReviewPosition_missing v :=
  missing_mapped mapReviewPosition RawDiscussionPosition SyncReviewPosition v mapReviewPosition_typed.

Lemma mapReviewNote_typed : typed_map mapReviewNote RawDiscussionNote SyncReviewNote.
Proof.
  intros v Hv. open_object Hv. unfold mapReviewNote. cbn [fields_of res_bind]. part mapUser_typed "author".
  match goal with T : has_type _ (prop_of r "position") = true |- _ =>
    destruct (typed_missing _ _ T) as [Hn|[Hn T']]; rewrite Hn end; [finish|].
  part mapReviewPosition_typed "position". finish.
Qed.

(** *** Discussions *)

Lemma unsupported_position_total notes :
  Forall (fun v => has_type RawDiscussionNote v = true) notes -> exists b, unsupported_position notes = Ok b.
Proof.
  induction 1 as [|n notes Hn _ IH]; [by exists false|]. open_object Hn. destruct IH as [b Eb].
  cbn [unsupported_position]. change (res_prop (VObj r) "position") with (Ok (prop_of r "position") : res jsval).
  cbn [res_bind].
  match goal with T : has_type _ (prop_of r "position") = true |- _ =>
    destruct (typed_missing _ _ T) as [Hn|[Hn Hp]]; clear T end; unfold opt_prop; rewrite Hn; cbn [res_bind].
  - rewrite Eb. destruct (_ && _); by eexists.
  - clear Hn. revert Hp. generalize (prop_of r "position"). intros p Hp. open_object Hp.
    change (res_prop (VObj r0) "position_type") with (Ok (prop_of r0 "position_type") : res jsval).
    cbn [res_bind]. rewrite Eb. destruct (_ && _); by eexists.
Qed.

Definition mapUser_missing v := missing_mapped mapUser RawUser SyncUser v mapUser_typed.

Lemma mapDiscussion_typed v projectId iid :
  has_type TNumber projectId = true -> has_type TNumber iid = true -> has_type RawDiscussion v = true ->
  exists o, mapDiscussion v projectId iid = Ok o /\ forall th, o = Some th -> has_type SyncReviewThread (VObj th) = true.
Proof.
  intros Hproject Hiid Hv. open_object Hv. unfold mapDiscussion. cbn [fields_of res_bind].
  assert (has_type (TArray RawDiscussionNote) (prop_of r "notes") = true) as Hn by assumption.
  destruct (prop_of r "notes") as [| | | | | | |notes|]; try discriminate Hn. cbn [res_bind].
  apply typed_array in Hn. destruct notes as [|root notes]; [by exists None|].
  destruct (unsupported_position_total _ Hn) as [b ->]. cbn [res_bind]. destruct b; [by exists None|].
  destruct (typed_map_res _ _ _ _ mapReviewNote_typed Hn) as (mapped & -> & Hm).
  apply Forall_cons in Hn as [Hroot _]. open_object Hroot. cbn [fields_of res_bind].
  part mapUser_missing "resolved_by". eexists. split; [reflexivity|]. intros th [= <-]. typed_result.
Qed.

(** *** Epics *)

Lemma mapEpic_typed children :
  Forall (fun v => has_type TNumber v = true) children ->
  typed_map (fun v => mapEpic v children) RawEpic SyncEpic.
Proof.
  intros Hc%typed_array v Hv. open_object Hv. unfold mapEpic. cbn [fields_of res_bind].
  part mapUser_typed "author". finish.
Qed.

(** *** GraphQL *)

Lemma numericId_typed v : has_type TNumber (numericId v) = true.
Proof. by destruct v. Qed.

Lemma mapGraphQLUser_typed : typed_map mapGraphQLUser GraphQLUser SyncUser.
Proof.
  intros v Hv. open_object Hv. pose proof (numericId_typed (prop_of r "id")).
  unfold mapGraphQLUser. cbn [fields_of res_bind]. finish.
Qed.

Lemma nodes_typed t v :
  has_type (TUnion (connection t) TUndefined) v = true ->
  exists w, nodes_of v = Ok w /\ has_type (TArray t) w = true.
Proof.
  unfold nodes_of, opt_prop. intros [->|[-> Hv]]%typed_missing; [by eexists|]. open_object Hv.
  change (res_prop (VObj r) "nodes") with (Ok (prop_of r "nodes") : res jsval). eexists. split; [reflexivity|].
  by apply typed_or_empty_null.
Qed.

Lemma mapGraphQLUsers_typed v :
  has_type (TUnion (connection GraphQLUser) TUndefined) v = true ->
  exists us, mapGraphQLUsers v = Ok us /\ has_type (TArray SyncUser) (objects us) = true.
Proof.
  intros Hv. unfold mapGraphQLUsers. destruct (nodes_typed _ _ Hv) as (w & -> & Hw).
  exact (typed_map_array _ _ _ _ mapGraphQLUser_typed Hw).
Qed.

Lemma or_empty_mapped f t u v :
  typed_map f t u -> has_type (TUnion (nullable (TArray t)) TUndefined) v = true ->
  exists rs, map_array f (js_coalesce v (VArr [])) = Ok rs /\ has_type (TArray u) (objects rs) = true.
Proof. intros Hf Hv%typed_or_empty_null. exact (typed_map_array _ _ _ _ Hf Hv). Qed.

Definition eligible_mapped v := or_empty_mapped mapGraphQLUser GraphQLUser SyncUser v mapGraphQLUser_typed.

Lemma ruleType_typed v :
  has_type (literals "regular" ["any_approver"; "code_owner"; "report_approver"]) (mapApprovalRuleType v) = true.
Proof. unfold mapApprovalRuleType. typed_value. Qed.

Lemma typed_union t u v : has_type (TUnion t u) v = true -> has_type t v = true \/ has_type u v = true.
Proof. apply orb_prop. Qed.

Lemma rule_approver_user (r : record) :
  has_type RuleApprover (VObj r) = true ->
  let u := js_coalesce (prop_of r "user") (VObj r) in
  exists id, opt_prop u "id" = Ok id /\ (is_defined id = true -> has_type RawUser u = true).
Proof.
  intros [[Hv|Hv]%typed_union|Hv]%typed_union; open_object Hv; simplify_eq; cbn zeta.
  - assert (has_type RawUser (prop_of r0 "user") = true) as Hu by assumption.
    destruct (prop_of r0 "user") eqn:Eu; try done. eexists. split; [reflexivity|]. by intros _.
  - assert (js_coalesce (prop_of r0 "user") (VObj r0) = VObj r0) as ->.
    { match goal with T : has_type _ (prop_of r0 "user") = true |- _ => revert T end.
      by destruct (prop_of r0 "user"). }
    eexists. split; [reflexivity|]. intros _. typed_result.
  - assert (js_coalesce (prop_of r0 "user") (VObj r0) = VObj r0) as ->.
    { match goal with T : has_type _ (prop_of r0 "user") = true |- _ => revert T end.
      by destruct (prop_of r0 "user"). }
    eexists. split; [reflexivity|]. change (default VUndef (jget "id" r0)) with (prop_of r0 "id").
    match goal with T : has_type TUndefined (prop_of r0 "id") = true |- _ => revert T end.
    by destruct (prop_of r0 "id").
Qed.

Lemma rule_approvers_typed l :
  forallb (has_type RuleApprover) l = true ->
  exists us, rule_approvers l = Ok us /\ has_type (TArray SyncUser) (objects us) = true.
Proof.
  induction l as [|v l IH]; cbn [forallb rule_approvers]; [by exists []|].
  intros [Hv Hl]%andb_prop. destruct (IH Hl) as (us & E & Hus).
  assert (exists r, v = VObj r) as [r ->].
  { destruct v; try (by vm_compute in Hv). by eexists. }
  change (res_prop (VObj r) "user") with (@Ok jsval (prop_of r "user")). cbn [res_bind].
  destruct (rule_approver_user r Hv) as (id & Ei & Hu). cbn zeta in Ei, Hu. rewrite Ei. cbn [res_bind].
  destruct (is_defined id); [|by exists us]. destruct (mapUser_typed _ (Hu eq_refl)) as (u & Em & Hm).
  rewrite Em, E. cbn [res_bind]. exists (u :: us). split; [done|]. cbn [objects map has_type forallb].
  apply andb_true_intro. split; [exact Hm|exact Hus].
Qed.

Lemma mapApprovalRule_typed : typed_map mapApprovalRule ExactApprovalRule SyncMRApprovalRule.
Proof.
  intros v Hv. open_object Hv. pose proof (ruleType_typed (prop_of r "rule_type")).
  unfold mapApprovalRule. cbn [fields_of res_bind].
  assert (has_type (TArray RuleApprover) (js_coalesce (prop_of r "approved_by") (VArr [])) = true) as Ha
    by (by apply typed_or_empty).
  destruct (js_coalesce (prop_of r "approved_by") (VArr [])) as [| | | | | | |l|] eqn:El; try done.
  change (res_elements (VArr l)) with (@Ok (list jsval) l). cbn [res_bind]. destruct (rule_approvers_typed l Ha) as (us & -> & Hus). cbn [res_bind].
  part mapUsers_typed "eligible_approvers". finish.
Qed.

Lemma mapGraphQLRule_typed : typed_map mapGraphQLRule GraphQLMRRule SyncMRApprovalRule.
Proof.
  intros v Hv. open_object Hv. pose proof (numericId_typed (prop_of r "id")).
  pose proof (ruleType_typed (js_coalesce (prop_of r "type") (VStr "regular"))).
  unfold mapGraphQLRule. cbn [fields_of res_bind].
  part eligible_mapped "eligibleApprovers". part mapGraphQLUsers_typed "approvedBy". finish.
Qed.

Lemma mapDiffStat_typed : typed_map mapDiffStat GraphQLMRDiffStat SyncChangedFile.
Proof. intros v Hv. open_object Hv. unfold mapDiffStat. cbn [fields_of res_bind]. finish. Qed.

Definition diffStats_mapped v := or_empty_mapped mapDiffStat GraphQLMRDiffStat SyncChangedFile v mapDiffStat_typed.
Definition rules_mapped v := or_empty_mapped mapGraphQLRule GraphQLMRRule SyncMRApprovalRule v mapGraphQLRule_typed.

(** A property of an object that may be missing. *)
Lemma opt_prop_typed v k t :
  has_type (TUnion (nullable (TInterface [(k, TUnion t TUndefined)])) TUndefined) v = true ->
  exists w, opt_prop v k = Ok w /\ has_type (TUnion t TUndefined) w = true.
Proof.
  unfold opt_prop. intros [->|[-> Hv]]%typed_missing; [exists VUndef; cbn; by rewrite orb_true_r|].
  open_object Hv. by eexists.
Qed.

Lemma mr_state_typed s :
  exists w, mapGraphQLMRState (VStr s) = Ok w /\
    has_type (literals "opened" ["closed"; "merged"; "locked"]) w = true.
Proof. eexists. split; [reflexivity|]. typed_value. Qed.

Lemma mr_mergeStatus_typed s :
  exists w, mapGraphQLMergeStatus (VStr s) = Ok w /\ has_type MergeStatus w = true.
Proof. eexists. split; [reflexivity|]. unfold mapMergeStatus. typed_value. Qed.

Lemma titles_typed v :
  has_type (TUnion (connection (TInterface ["title" ~: TString])) TUndefined) v = true ->
  exists nodes ts, nodes_of v = Ok nodes /\ map_array (fun l => res_prop l "title") nodes = Ok ts /\
    has_type (TArray TString) (VArr ts) = true.
Proof.
  intros (w & Ew & Hw)%nodes_typed. exists w. destruct w as [| | | | | | |l|]; try discriminate Hw.
  apply typed_array in Hw. cut (exists ts, map_res (fun l => res_prop l "title") l = Ok ts /\
    has_type (TArray TString) (VArr ts) = true); [intros (ts & ? & ?); by exists ts|]. clear Ew.
  induction Hw as [|x l Hx _ (ts & E & Hts)]; [by exists []|]. open_object Hx. exists (prop_of r "title" :: ts).
  cbn [map_res]. change (res_prop (VObj r) "title") with (Ok (prop_of r "title") : res jsval). cbn [res_bind].
  rewrite E. split; [done|]. apply typed_array. apply typed_array in Hts. by apply Forall_cons.
Qed.

Lemma mr_milestone_typed v :
  has_type (TUnion (nullable (TInterface ["iid" ~: (TNumber || TString); "title" ~: TString])) TUndefined) v = true ->
  exists w, (if is_nullish v then Ok VNull
             else let? m := fields_of v in
                  Ok (VObj [("iid", numericId (prop_of m "iid")); ("title", prop_of m "title")])) = Ok w /\
    has_type (nullable (TInterface ["iid" ~: TNumber; "title" ~: TString])) w = true.
Proof.
  intros [->|[-> Hv]]%typed_missing; [by exists VNull|]. open_object Hv.
  pose proof (numericId_typed (prop_of r "iid")). eexists. split; [reflexivity|]. apply typed_nullable. typed_result.
Qed.

Lemma enough_approvals_typed n m : has_type ApprovalStatus (enough_approvals n m) = true.
Proof. unfold enough_approvals. typed_value. Qed.

Lemma mapGraphQLPayload_typed (r : record) :
  has_type GraphQLMRPayload (VObj r) = true ->
  exists mr, mapGraphQLPayload r = Ok mr /\ has_type SyncMergeRequest (VObj mr) = true.
Proof.
  intros Hv. apply typed_interface in Hv as (r' & [= <-] & Hv). open_props Hv. unfold mapGraphQLPayload.
  part mapGraphQLUsers_typed "approvedBy". part diffStats_mapped "diffStats".
  assert (has_type TString (prop_of r "state") = true) as Hstate by assumption.
  destruct (prop_of r "state") as [| | | | |state| | |]; try discriminate Hstate.
  destruct (mr_state_typed state) as (w1 & -> & Hw1).
  assert (has_type TString (prop_of r "mergeStatus") = true) as Hmerge by assumption.
  destruct (prop_of r "mergeStatus") as [| | | | |merge| | |]; try discriminate Hmerge.
  destruct (mr_mergeStatus_typed merge) as (w2 & -> & Hw2). cbn [res_bind].
  part pipeline_status_typed "headPipeline".
  match goal with T : has_type _ (prop_of r "labels") = true |- _ =>
    destruct (titles_typed _ T) as (nodes & ts & -> & Ets & Hts) end. cbn [res_bind]. rewrite Ets. cbn [res_bind].
  part mr_milestone_typed "milestone". part mapGraphQLUsers_typed "assignees". part mapGraphQLUser_typed "author".
  part mapGraphQLUsers_typed "reviewers".
  match goal with T : has_type _ (prop_of r "approvalState") = true |- _ =>
    destruct (opt_prop_typed _ _ _ T) as (rules & -> & Hrules) end. cbn [res_bind].
  destruct (rules_mapped _ Hrules) as (rs & -> & Hrs). cbn [res_bind].
  pose proof (numericId_typed (prop_of r "iid")).
  assert (has_type ApprovalStatus
    match js_coalesce (prop_of r "approvalsRequired") (VNum 0) with
    | VNum required => enough_approvals required (Z.of_nat (List.length u))
    | _ => VStr "pending"
    end = true) as Hstatus
    by (destruct (js_coalesce (prop_of r "approvalsRequired") (VNum 0)); try done; apply enough_approvals_typed).
  revert Hstatus. generalize (match js_coalesce (prop_of r "approvalsRequired") (VNum 0) with
    | VNum required => enough_approvals required (Z.of_nat (List.length u)) | _ => VStr "pending" end).
  intros status Hstatus. finish.
Qed.

Lemma child_iids_typed l :
  Forall (fun v => has_type GraphQLEpicIssueNode v = true) l ->
  exists iids, child_iids l = Ok iids /\ Forall (fun v => has_type TNumber v = true) iids.
Proof.
  induction 1 as [|v l Hv _ (iids & E & Hi)]; [by exists []|]. open_object Hv. cbn [child_iids].
  change (res_prop (VObj r) "iid") with (Ok (prop_of r "iid") : res jsval). cbn [res_bind]. rewrite E. cbn [res_bind].
  destruct (match prop_of r "iid" with VNum n => Some n | VNaN => None | _ => parseInt (js_String (prop_of r "iid")) end)
    as [n|]; [destruct (0 <? n)%Z|]; eexists; (split; [reflexivity|]); by try apply Forall_cons.
Qed.

Lemma group_typed v :
  has_type (TUnion (nullable (TInterface ["id" ~: (TString || TNumber)])) TUndefined) v = true ->
  exists w, (if is_nullish v then Ok (VNum 0) else let? id := res_prop v "id" in Ok (numericId id)) = Ok w /\
    has_type TNumber w = true.
Proof.
  intros [->|[-> Hv]]%typed_missing; [by eexists|]. open_object Hv. eexists. split; [reflexivity|].
  apply numericId_typed.
Qed.

Lemma epic_state_typed s :
  exists w, mapGraphQLEpicState (VStr s) = Ok w /\ has_type (literals "opened" ["closed"]) w = true.
Proof. eexists. split; [reflexivity|]. typed_value. Qed.

Lemma mapGraphQLEpicNode_typed : typed_map mapGraphQLEpicNode GraphQLEpicNode SyncEpic.
Proof.
  intros v Hv. open_object Hv. unfold mapGraphQLEpicNode. cbn [fields_of res_bind].
  match goal with T : has_type _ (prop_of r "issues") = true |- _ =>
    destruct (nodes_typed _ _ T) as (nodes & -> & Hn) end. cbn [res_bind].
  destruct nodes as [| | | | | | |l|]; try discriminate Hn. apply typed_array in Hn.
  destruct (child_iids_typed l Hn) as (iids & E & Hi). apply typed_array in Hi.
  change (res_elements (VArr l)) with (Ok l : res (list jsval)). cbn [res_bind]. rewrite E. cbn [res_bind].
  part group_typed "group".
  assert (has_type TString (prop_of r "state") = true) as Hstate by assumption.
  destruct (prop_of r "state") as [| | | | |state| | |]; try discriminate Hstate.
  destruct (epic_state_typed state) as (w1 & -> & Hw1). cbn [res_bind]. part mapGraphQLUser_typed "author".
  pose proof (numericId_typed (prop_of r "iid")). finish.
Qed.

(** ** The casts of the adapter *)

(** A mapper with the type the adapter casts the answer to and the type it
    declares to return; [None] drops the answer. *)
(** [mp_throws]: the error the mapper is there to throw for a value, if any. *)
Record Mapper := MkMapper {
  mp_raw : ty;
  mp_map : jsval -> res (option record);
  mp_throws : jsval -> option exn;
  mp_sync : ty
}.

Definition always (f : jsval -> res record) (v : jsval) : res (option record) := let? r := f v in Ok (Some r).

Definition total (raw : ty) (map : jsval -> res (option record)) (sync : ty) : Mapper :=
  MkMapper raw map (fun _ => None) sync.

(** A GraphQL answer without a merge request, or with a confidential one. *)
Definition payload_error (mr : jsval) : option exn :=
  if is_nullish mr then Some (NotFoundError "graphql.merge_request.null")
  else match mr with
       | VObj r => if truthy (prop_of r "confidential")
                   then Some (confidential_mr (numericId (prop_of r "iid"))) else None
       | _ => None
       end.

Definition response_error (data : jsval) : option exn :=
  match data with
  | VObj r => payload_error (match prop_of r "project" with VObj p => prop_of p "mergeRequest" | _ => VUndef end)
  | _ => None
  end.

(** The mappers, for the other arguments they take: the address of a merge
    request, its project and number, the children of an epic. *)
Definition mappers (webUrl : string) (projectId iid : Z) (children : list Z) : list Mapper :=
  [total RawUser (always mapUser) SyncUser; total RawLabel (always mapLabel) SyncLabel;
   total RawMilestone (always mapMilestone) SyncMilestone; total RawNote (always mapNote) SyncNote;
   total RawIssue (always mapIssue) SyncIssue; total RawProject (always mapProject) SyncProject;
   total RawWebhook (always mapWebhook) SyncWebhook;
   total RawMergeRequest (always (fun v => mapMergeRequest v true)) SyncMergeRequest;
   total RawMergeRequest (always (fun v => mapMergeRequest v false)) SyncMergeRequest;
   total RawPipeline (always mapPipeline) SyncPipeline;
   total RawDiscussionPosition (always mapReviewPosition) SyncReviewPosition;
   total RawDiscussionNote (always mapReviewNote) SyncReviewNote;
   total RawDiscussion (fun v => mapDiscussion v (VNum projectId) (VNum iid)) SyncReviewThread;
   total RawApprovalResponse (always mapApproval) SyncMRApprovals;
   total RawChange (always mapChangedFile) SyncChangedFile;
   total RawChangesResponse (always (fun v => mapChanges v (VStr webUrl))) SyncMRChanges;
   total ExactApprovalRule (always mapApprovalRule) SyncMRApprovalRule;
   total RawIteration (always mapIteration) SyncIteration;
   total RawEpic (always (fun v => mapEpic v (map VNum children))) SyncEpic;
   total GraphQLUser (always mapGraphQLUser) SyncUser;
   total GraphQLMRRule (always mapGraphQLRule) SyncMRApprovalRule;
   total GraphQLMRDiffStat (always mapDiffStat) SyncChangedFile;
   total GraphQLMRPayload (always (fun v => let? r := fields_of v in mapGraphQLPayload r)) SyncMergeRequest;
   MkMapper GraphQLMRResponse (always mapGraphQLMRResponse) response_error SyncMergeRequest;
   MkMapper (nullable GraphQLMRPayload) (always mapGraphQLMRListNode) payload_error SyncMergeRequest;
   total GraphQLEpicNode (always mapGraphQLEpicNode) SyncEpic].

(** A mapper whose answers are of its declared type. *)
Definition truthful (m : Mapper) : Prop :=
  forall v, has_type (mp_raw m) v = true ->
  match mp_throws m v with
  | Some e => mp_map m v = Throw e
  | None => exists o, mp_map m v = Ok o /\ forall r, o = Some r -> has_type (mp_sync m) (VObj r) = true
  end.

Lemma always_truthful f t u : typed_map f t u -> truthful (total t (always f) u).
Proof.
  intros Hf v Hv. cbn in *. destruct (Hf v Hv) as (r & E & Hr). exists (Some r). unfold always. rewrite E.
  split; [done|]. by intros ? [= <-].
Qed.

Lemma payload_typed : typed_map (fun v => let? r := fields_of v in mapGraphQLPayload r) GraphQLMRPayload SyncMergeRequest.
Proof.
  intros v Hv. pose proof Hv as (r & -> & _)%typed_interface. by apply mapGraphQLPayload_typed.
Qed.

(** The two mappers that throw on purpose. *)
Definition answer_of (mr : jsval) : res record :=
  if is_nullish mr then Throw (NotFoundError "graphql.merge_request.null")
  else
    let? r := fields_of mr in
    if truthy (prop_of r "confidential") then Throw (confidential_mr (numericId (prop_of r "iid")))
    else mapGraphQLPayload r.

Lemma answer_typed mr :
  has_type (nullable GraphQLMRPayload) mr = true ->
  match payload_error mr with
  | Some e => answer_of mr = Throw e
  | None => exists r, answer_of mr = Ok r /\ has_type SyncMergeRequest (VObj r) = true
  end.
Proof.
  intros Hv. unfold payload_error, answer_of. destruct (is_nullish mr) eqn:En; [done|].
  assert (has_type GraphQLMRPayload mr = true) as Hp.
  { revert Hv. unfold nullable. cbn [has_type]. destruct mr; try done; by rewrite orb_false_r. }
  pose proof Hp as (r & -> & _)%typed_interface. cbn [fields_of res_bind].
  destruct (truthy _); [done|]. by apply mapGraphQLPayload_typed.
Qed.

Lemma response_truthful :
  truthful (MkMapper GraphQLMRResponse (always mapGraphQLMRResponse) response_error SyncMergeRequest).
Proof.
  intros v Hv. cbn [mp_raw mp_throws mp_map mp_sync] in *. open_object Hv. cbn [response_error].
  set (mr := match prop_of r "project" with VObj p => prop_of p "mergeRequest" | _ => VUndef end).
  assert (has_type (nullable GraphQLMRPayload) mr = true \/ is_nullish mr = true) as Hmr.
  { unfold mr. match goal with T : has_type _ (prop_of r "project") = true |- _ => revert T end.
    destruct (prop_of r "project") as [| | | | | | | |p] eqn:Ep; try (by right).
    intros [Hp|Hp]%typed_union; [|done]. left. open_object Hp. simplify_eq. assumption. }
  assert (mapGraphQLMRResponse (VObj r) = answer_of mr) as E.
  { unfold mapGraphQLMRResponse. cbn [res_prop res_bind]. unfold mr.
    match goal with T : has_type _ (prop_of r "project") = true |- _ => revert T end.
    unfold res_prop, opt_prop. cbn [js_get]. fold (prop_of r "project").
    by destruct (prop_of r "project") as [| | | | | | | |p]. }
  unfold always. rewrite E. assert (has_type (nullable GraphQLMRPayload) mr = true \/ mr = VUndef) as Hmr'.
  { destruct Hmr as [Hmr|Hmr]; [by left|]. destruct mr; try done; [by right|by left]. }
  destruct Hmr' as [Hmr'| ->]; [|done]. pose proof (answer_typed mr Hmr') as Ha.
  destruct (payload_error mr) as [e|]; [by rewrite Ha|]. destruct Ha as (o & -> & Ho). exists (Some o).
  split; [done|]. by intros ? [= <-].
Qed.

Lemma list_node_truthful :
  truthful (MkMapper (nullable GraphQLMRPayload) (always mapGraphQLMRListNode) payload_error SyncMergeRequest).
Proof.
  intros v Hv. cbn [mp_raw mp_throws mp_map mp_sync] in *. pose proof (answer_typed v Hv) as Ha.
  assert (mapGraphQLMRListNode v = answer_of v) as E by done. unfold always. rewrite E.
  destruct (payload_error v) as [e|]; [by rewrite Ha|]. destruct Ha as (o & -> & Ho). exists (Some o).
  split; [done|]. by intros ? [= <-].
Qed.

Lemma numbers_typed l : Forall (fun v => has_type TNumber v = true) (map VNum l).
Proof. induction l as [|n l IH]; [by apply Forall_nil_2|]. by apply Forall_cons. Qed.

(** C40: The casts of the adapter tell the truth, for every mapper of
    answers over REST and GraphQL: whenever an answer of GitLab has the raw
    type the adapter casts it to, its mapper throws exactly when it is there
    to - a merge request of GraphQL that is missing or confidential, with
    that error - and otherwise the record it returns has the type declared
    for it, every nested record, every optional property and every literal
    included.  For one mapper, [mapApprovalRule], the declared raw type is
    too weak ([rule_entry_untyped]); the list has it with
    [ExactApprovalRule], in which an approver wraps a user, is a complete
    one, or has no id. *)
Theorem mappers_typed webUrl projectId iid children m v :
  m ∈ mappers webUrl projectId iid children -> has_type (mp_raw m) v = true ->
  match mp_throws m v with
  | Some e => mp_map m v = Throw e
  | None => exists o, mp_map m v = Ok o /\ forall r, o = Some r -> has_type (mp_sync m) (VObj r) = true
  end.
Proof.
  intros Hm. cut (truthful m); [by intros Ht; apply Ht|]. revert m Hm.
  assert (Forall truthful (mappers webUrl projectId iid children)) as Hall; [|by apply Forall_forall].
  repeat (apply Forall_cons; split); try apply Forall_nil_2;
    try (apply always_truthful;
         first [exact mapUser_typed | exact mapLabel_typed | exact mapMilestone_typed | exact mapNote_typed
               | exact mapIssue_typed | exact mapProject_typed | exact mapWebhook_typed | exact (mapMergeRequest_typed _)
               | exact mapPipeline_typed | exact mapReviewPosition_typed | exact mapReviewNote_typed
               | exact mapApproval_typed | exact mapChangedFile_typed | exact (mapChanges_typed _)
               | exact mapApprovalRule_typed
               | exact mapIteration_typed | exact (mapEpic_typed _ (numbers_typed _)) | exact mapGraphQLUser_typed
               | exact mapGraphQLRule_typed | exact mapDiffStat_typed | exact payload_typed
               | exact mapGraphQLEpicNode_typed]);
    first [exact response_truthful | exact list_node_truthful | intros w Hw; by apply mapDiscussion_typed].
Qed.
End Dates.

(** ** Examples *)

Definition raw_user : jsval :=
  VObj [("id", VNum 7); ("username", VStr "ada"); ("name", VStr "Ada"); ("web_url", VStr "https://gl/ada")].

Definition raw_note : jsval :=
  VObj [("id", VNum 5); ("body", VStr "hi"); ("author", raw_user); ("created_at", VStr "2024-01-01");
        ("updated_at", VStr "2024-01-01"); ("system", VBool false)].

(** An approval-rule entry of the declared type [{ user?: RawUser }] that has
    an id of its own passes for a user and comes out without a name: the one
    mapper whose cast the types do not justify. *)
Example rule_entry_untyped :
  let raw := VObj [("id", VNum 1); ("name", VStr "any"); ("rule_type", VStr "regular"); ("approvals_required", VNum 1);
                   ("approved_by", VArr [VObj [("id", VNum 3)]])] in
  has_type RawApprovalRule raw = true /\
  match mapApprovalRule raw with Ok r => has_type SyncMRApprovalRule (VObj r) = false | Throw _ => False end.
Proof. split; vm_compute; reflexivity. Qed.

Definition raw_rule : jsval :=
  VObj [("id", VNum 1); ("name", VStr "any"); ("rule_type", VStr "regular"); ("approvals_required", VNum 1);
        ("approved_by", VArr [VObj [("user", raw_user)]; raw_user; VObj []])].

(** A note, a rule with a wrapped, a bare and no user, and an answer without
    a merge request. *)
Lemma mappers_typed_witness :
  (exists o, always mapNote raw_note = Ok o /\ forall r, o = Some r -> has_type SyncNote (VObj r) = true) /\
  (exists o, always mapApprovalRule raw_rule = Ok o /\
     forall r, o = Some r -> has_type SyncMRApprovalRule (VObj r) = true) /\
  always mapGraphQLMRResponse (VObj [("project", VNull)]) = Throw (NotFoundError "graphql.merge_request.null").
Proof.
  split; [|split].
  - apply (mappers_typed "https://gl" 42 7 [] (total RawNote (always mapNote) SyncNote) raw_note);
      [|vm_compute; reflexivity].
    do 3 (apply elem_of_cons; right). apply elem_of_cons. by left.
  - apply (mappers_typed "https://gl" 42 7 [] (total ExactApprovalRule (always mapApprovalRule) SyncMRApprovalRule)
      raw_rule); [|vm_compute; reflexivity].
    do 16 (apply elem_of_cons; right). apply elem_of_cons. by left.
  - apply (mappers_typed "https://gl" 42 7 []
      (MkMapper GraphQLMRResponse (always mapGraphQLMRResponse) response_error SyncMergeRequest)
      (VObj [("project", VNull)])); [|vm_compute; reflexivity].
    do 23 (apply elem_of_cons; right). apply elem_of_cons. by left.
Defined.
