(* ===== verification/GitLabClient.v ===== *)
(** * The GitLab REST client (src/adapter/gitlab-client.ts)

    The network is the class [Http]: a request is answered by [fetch], and a
    delay passes with [sleep].  The client keeps the detected capabilities, a
    cache of approval rules and a cache of top-level groups.  A URL object is
    its text without the query and its search parameters.

    The [while] loops over pages run on fuel and answer [None] when it is
    used up.  The calls [getMergeRequest] starts together run one after the
    other. *)

From S2P Require Import Prelude JsMap JsString JsVal Metrics Platform Conflict Sync MergeRequests.
From S2P Require Import RateLimit GitLabMaps.
Open Scope nat_scope.
Open Scope string_scope.
Open Scope list_scope.

(** ** The network *)

Record HttpRequest := MkHttpRequest {
  hq_method : string;
  hq_url : string;
  hq_params : jsmap string string;
  hq_headers : jsmap string string;
  hq_body : option record
}.

Record HttpResponse := MkHttpResponse {
  hp_status : Z;
  hp_header : string -> option string;
  hp_text : res string;
  hp_json : res jsval;
  hp_bytes : res string
}.

Class Http (W : Type) := {
  fetch : HttpRequest -> M W HttpResponse;
  sleep : Z -> M W unit
}.

(** ** The state of a client *)

Record Capabilities := MkCapabilities {
  cap_gitlabVersion : jsval;
  cap_edition : string;
  cap_graphqlAvailable : bool
}.

Record ApprovalRuleCacheEntry := MkRuleEntry { re_value : list record; re_expiresAt : Z }.
Record TopLevelGroupCacheEntry := MkGroupEntry { ge_groupId : jsval; ge_expiresAt : Z }.

Record ClientState (W : Type) := MkClientState {
  cl_world : W;
  cl_readings : nat;
  cl_capabilities : option Capabilities;
  cl_rules : jsmap string ApprovalRuleCacheEntry;
  cl_groups : jsmap string TopLevelGroupCacheEntry;
  cl_metrics : counters
}.
Arguments MkClientState {W}.
Arguments cl_world {W}.
Arguments cl_readings {W}.
Arguments cl_capabilities {W}.
Arguments cl_rules {W}.
Arguments cl_groups {W}.
Arguments cl_metrics {W}.

Definition APPROVAL_RULES_CACHE_TTL_MS : Z := 10 * 1000.
Definition APPROVAL_RULES_CACHE_CAPACITY : nat := 256.
Definition TOP_LEVEL_GROUP_CACHE_TTL_MS : Z := 60 * 60 * 1000.

(** [validateActorTokenHeader] accepts the value. *)
Fixpoint has_control (s : string) : bool :=
  match s with
  | "" => false
  | String a s' =>
      let n := Ascii.nat_of_ascii a in
      (n =? 13)%nat || (n =? 10)%nat || (n =? 0)%nat || has_control s'
  end.

Definition valid_actor_token (token : option string) : bool :=
  match token with
  | None => true
  | Some t => negb ((String.length t =? 0)%nat || (4096 <? Z.of_nat (String.length t))%Z || has_control t)
  end.

Definition header_of (res : HttpResponse) (name : string) : option string := hp_header res name.

(** [text !== null && text !== ''] *)
Definition non_empty (s : option string) : option string :=
  match s with Some "" => None | _ => s end.

Record GitLabClient := MkGitLabClient { gc_baseUrl : string; gc_token : string }.

(** [err.message] *)
Definition exn_message (e : exn) : string :=
  match e with
  | GitLabApiError _ m | ApprovalActionError m | AuthError m | RateLimitError m _ | JsError m => m
  | NotFoundError resource => "Not found: " +:+ resource
  | ConfidentialIssueError projectId iid =>
      "Issue " +:+ iid +:+ " in project " +:+ projectId +:+ " is confidential and cannot be returned"
  | ConfidentialMergeRequestError iid =>
      "Confidential merge request !" +:+ num_to_string iid +:+ " cannot be synced"
  | ConfidentialEpicError iid groupId =>
      "Confidential epic !" +:+ iid +:+ " in group " +:+ groupId +:+ " cannot be synced"
  | MongoDuplicateKey => "duplicate key"
  end.

(** [`${a}:${b}`] *)
Definition join_two (a b : string) : string := a +:+ ":" +:+ b.

Section Client.
Context {P : Platform} {W : Type} `{Http W}.
Abbreviation CS := (ClientState W).
Abbreviation MC := (M CS).
Context (client : GitLabClient).

Definition on_world {A} (m : M W A) : MC A :=
  zoom cl_world (fun w s => MkClientState w (cl_readings s) (cl_capabilities s) (cl_rules s) (cl_groups s)
                              (cl_metrics s)) m.

Definition client_now : MC Z := fun s =>
  (Ok (clock (cl_readings s)),
   MkClientState (cl_world s) (S (cl_readings s)) (cl_capabilities s) (cl_rules s) (cl_groups s) (cl_metrics s)).

Definition client_count (name : string) : MC unit :=
  modify (fun s => MkClientState (cl_world s) (cl_readings s) (cl_capabilities s) (cl_rules s) (cl_groups s)
                     (increment name (cl_metrics s))).

Definition set_rules (r : jsmap string ApprovalRuleCacheEntry) (s : CS) : CS :=
  MkClientState (cl_world s) (cl_readings s) (cl_capabilities s) r (cl_groups s) (cl_metrics s).
Definition set_groups (g : jsmap string TopLevelGroupCacheEntry) (s : CS) : CS :=
  MkClientState (cl_world s) (cl_readings s) (cl_capabilities s) (cl_rules s) g (cl_metrics s).
Definition set_capabilities (c : Capabilities) (s : CS) : CS :=
  MkClientState (cl_world s) (cl_readings s) (Some c) (cl_rules s) (cl_groups s) (cl_metrics s).

(** *** Requests *)

Definition validateActorTokenHeader (tokenOverride : option string) : MC unit :=
  if valid_actor_token tokenOverride then ret tt else throw (GitLabApiError 0 "invalid actor token").

(** The headers [request] reads; the page loops leave out the [x-] ones. *)
Definition rate_limit_headers (with_x : bool) (res : HttpResponse) : RateLimitHeaders :=
  MkRateLimitHeaders (header_of res "retry-after") (header_of res "ratelimit-reset")
    (if with_x then header_of res "x-ratelimit-reset" else None).

(** A request under [withRateLimitRetry], with the use of its response. *)
Definition with_retry {A} (with_x : bool) (req : HttpRequest) (body : HttpResponse -> MC A) : MC A :=
  withRateLimitRetry client_now (fun ms => on_world (sleep ms))
    (let! res := on_world (fetch req) in
     ret (MkReply (hp_status res) (rate_limit_headers with_x res) (body res))).

Definition api_error {A} (what : string) (res : HttpResponse) : MC A :=
  let! text := lift_res (hp_text res) in
  throw (GitLabApiError (hp_status res) (what +:+ num_to_string (hp_status res) +:+ ": " +:+ text)).

Definition auth_error {A} (doing : string) (res : HttpResponse) : MC A :=
  let! text := lift_res (hp_text res) in
  throw (AuthError ("GitLab auth error " +:+ num_to_string (hp_status res) +:+ doing +:+ ": " +:+ text)).

Definition is_auth_status (n : Z) : bool := ((n =? 401) || (n =? 403))%Z.

(** The [body] function of [request]. *)
Definition request_body (method path : string) (res : HttpResponse) : MC jsval :=
  if is_auth_status (hp_status res) then auth_error "" res
  else if (hp_status res =? 404)%Z then throw (NotFoundError (method +:+ " " +:+ path))
  else if (400 <=? hp_status res)%Z then api_error "GitLab API error " res
  else if (hp_status res =? 204)%Z then ret VUndef
  else lift_res (hp_json res).

(** The search parameters: properties that are [undefined] are left out. *)
Definition search_params (query : record) : jsmap string string :=
  fold_left (fun ps e => match e.2 with VUndef => ps | v => jset e.1 (js_String v) ps end) query [].

Definition request (method path : string) (query : record) (body : option record)
    (tokenOverride : option string) : MC jsval :=
  validateActorTokenHeader tokenOverride ;;!
  with_retry true
    (MkHttpRequest method (gc_baseUrl client +:+ path) (search_params query)
       [("PRIVATE-TOKEN", default (gc_token client) tokenOverride); ("Content-Type", "application/json")] body)
    (request_body method path).

Definition get (path : string) : MC jsval := request "GET" path [] None None.

(** *** Pages *)

(** One page: what [f] makes of the answer, and the next page. *)
Definition get_page {A} (url page : string) (params : jsmap string string) (f : jsval -> MC A)
    : MC (A * option string) :=
  with_retry false
    (MkHttpRequest "GET" (gc_baseUrl client +:+ url)
       (jset_all params (jset "page" page [("per_page", "100")])) [("PRIVATE-TOKEN", gc_token client)] None)
    (fun res =>
       if (400 <=? hp_status res)%Z then api_error "GitLab API error " res
       else
         let! raw := lift_res (hp_json res) in
         let! items := f raw in
         ret (items, non_empty (header_of res "x-next-page"))).

(** The [while] loop from a page on, in front of what was collected. *)
Fixpoint pages_from {A} (fuel : nat) (url : string) (params : jsmap string string)
    (f : jsval -> MC (list A)) (page : string) (results : list A) : MC (option (list A)) :=
  match fuel with
  | O => ret None
  | S fuel =>
      let! p := get_page url page params f in
      match p.2 with
      | None => ret (Some (results ++ p.1))
      | Some next => pages_from fuel url params f next (results ++ p.1)
      end
  end.

Definition all_pages {A} (fuel : nat) (url : string) (params : jsmap string string)
    (f : jsval -> MC (list A)) : MC (option (list A)) :=
  pages_from fuel url params f "1" [].

(** [if (opts.updatedAfter !== undefined) params.set('updated_after', ...)] *)
Definition updated_after (since : option jsdate) : MC (jsmap string string) :=
  match since with
  | None => ret []
  | Some None => throw (JsError "RangeError")
  | Some (Some t) => ret [("updated_after", toISOString t)]
  end.

(** ** Projects, issues and notes *)

Definition project_path (pid : jsval) : string := "/api/v4/projects/" +:+ js_String pid.
Definition issues_path (pid : jsval) : string := project_path pid +:+ "/issues".
Definition issue_path (pid iid : jsval) : string := issues_path pid +:+ "/" +:+ js_String iid.
Definition notes_path (pid iid : jsval) : string := issue_path pid iid +:+ "/notes".
Definition mrs_path (pid : jsval) : string := project_path pid +:+ "/merge_requests".
Definition mr_path (pid iid : jsval) : string := mrs_path pid +:+ "/" +:+ js_String iid.
Definition mr_notes_path (pid iid : jsval) : string := mr_path pid iid +:+ "/notes".
Definition group_path (gid : jsval) : string := "/api/v4/groups/" +:+ js_String gid.

Definition listProjects (page perPage : option Z) : MC (list record * jsval) :=
  with_retry false
    (MkHttpRequest "GET" (gc_baseUrl client +:+ "/api/v4/projects")
       [("page", num_to_string (default 1%Z page)); ("per_page", num_to_string (default 20%Z perPage));
        ("membership", "true")] [("PRIVATE-TOKEN", gc_token client)] None)
    (fun res =>
       if (400 <=? hp_status res)%Z then api_error "GitLab API error " res
       else
         let! raw := lift_res (hp_json res) in
         let! items := lift_res (map_array mapProject raw) in
         ret (items, match non_empty (header_of res "x-next-page") with
                     | Some next => match parseInt next with Some n => VNum n | None => VNaN end
                     | None => VNull
                     end)).

Definition client_getProject (id : jsval) : MC record :=
  let! raw := get (project_path id) in lift_res (mapProject raw).

(** [for (const x of raw) { if (confidential) continue; out.push(map(x)) }] *)
Fixpoint keep_open (hidden : jsval -> bool) (map_one : jsval -> res record) (l : list jsval)
    : res (list record) :=
  match l with
  | [] => Ok []
  | x :: rest =>
      let? confidential := res_prop x "confidential" in
      if hidden confidential then keep_open hidden map_one rest
      else
        let? y := map_one x in
        let? ys := keep_open hidden map_one rest in
        Ok (y :: ys)
  end.

Definition after_query (updatedAfter : option string) : record :=
  match updatedAfter with Some t => [("updated_after", VStr t)] | None => [] end.

Definition client_listIssues (pid : jsval) (updatedAfter : option string) : MC (list record) :=
  let! raw := request "GET" (issues_path pid)
    ([("per_page", VNum 100); ("confidential", VBool false)] ++ after_query updatedAfter) None None in
  let! l := iterate raw in
  lift_res (keep_open truthy mapIssue l).

Definition getIssue (pid iid : jsval) : MC record :=
  let! raw := get (issue_path pid iid) in
  let! confidential := get_prop raw "confidential" in
  if truthy confidential then
    throw (ConfidentialIssueError (js_String pid) (js_String iid))
  else lift_res (mapIssue raw).

Definition client_createIssue (pid : jsval) (body : record) : MC record :=
  let! raw := request "POST" (issues_path pid) [] (Some body) None in lift_res (mapIssue raw).

Definition client_updateIssue (pid iid : jsval) (body : record) : MC record :=
  let! raw := request "PUT" (issue_path pid iid) [] (Some body) None in lift_res (mapIssue raw).

Definition client_listNotes (pid iid : jsval) (updatedAfter : option string) : MC (list record) :=
  let! raw := request "GET" (notes_path pid iid) ([("per_page", VNum 100)] ++ after_query updatedAfter)
                None None in
  let! l := iterate raw in
  lift_res (keep_open is_true mapNote l).

Definition client_createNote (pid iid : jsval) (body : record) : MC record :=
  let! raw := request "POST" (notes_path pid iid) [] (Some body) None in lift_res (mapNote raw).

Definition client_updateNote (pid iid : jsval) (noteId : Z) (body : record) : MC record :=
  let! raw := request "PUT" (notes_path pid iid +:+ "/" +:+ num_to_string noteId) [] (Some body) None in
  lift_res (mapNote raw).

Definition client_deleteNote (pid iid : jsval) (noteId : Z) : MC unit :=
  request "DELETE" (notes_path pid iid +:+ "/" +:+ num_to_string noteId) [] None None ;;! ret tt.

(** ** Labels, milestones, users and webhooks *)

Definition list_once (path : string) (query : record) (map_one : jsval -> res record) : MC (list record) :=
  let! raw := request "GET" path query None None in lift_res (map_array map_one raw).

Definition client_listLabels (pid : jsval) : MC (list record) :=
  list_once (project_path pid +:+ "/labels") [("per_page", VNum 100)] mapLabel.

Definition client_createLabel (pid : jsval) (body : record) : MC record :=
  let! raw := request "POST" (project_path pid +:+ "/labels") [] (Some body) None in lift_res (mapLabel raw).

Definition client_listMilestones (pid : jsval) : MC (list record) :=
  list_once (project_path pid +:+ "/milestones") [("per_page", VNum 100)] mapMilestone.

Definition client_createMilestone (pid : jsval) (body : record) : MC record :=
  let! raw := request "POST" (project_path pid +:+ "/milestones") [] (Some body) None in
  lift_res (mapMilestone raw).

Definition getCurrentUser : MC record :=
  let! raw := get "/api/v4/user" in lift_res (mapUser raw).

(** [raw.find((u) => u.email?.toLowerCase() === email.toLowerCase())] *)
Fixpoint find_by_email (email : string) (users : list jsval) : res (option jsval) :=
  match users with
  | [] => Ok None
  | u :: rest =>
      let? e := res_prop u "email" in
      if is_nullish e then find_by_email email rest
      else
        let? lower := lower_of e in
        if is_text lower (to_lower email) then Ok (Some u) else find_by_email email rest
  end.

Definition lookupUserByEmail (email : string) : MC (option record) :=
  let! raw := request "GET" "/api/v4/users" [("search", VStr email); ("per_page", VNum 5)] None None in
  match raw with
  | VArr users =>
      let! found := lift_res (find_by_email email users) in
      match found with
      | Some u => let! user := lift_res (mapUser u) in ret (Some user)
      | None => ret None
      end
  | _ => type_error
  end.

Definition hooks_path (pid : jsval) : string := project_path pid +:+ "/hooks".

Definition listProjectWebhooks (pid : jsval) : MC (list record) := list_once (hooks_path pid) [] mapWebhook.

Definition createProjectWebhook (pid : jsval) (body : record) : MC record :=
  let! raw := request "POST" (hooks_path pid) [] (Some body) None in lift_res (mapWebhook raw).

Definition deleteProjectWebhook (pid : jsval) (hookId : Z) : MC unit :=
  request "DELETE" (hooks_path pid +:+ "/" +:+ num_to_string hookId) [] None None ;;! ret tt.

Definition updateProjectWebhook (pid : jsval) (hookId : Z) (body : record) : MC record :=
  let! raw := request "PUT" (hooks_path pid +:+ "/" +:+ num_to_string hookId) [] (Some body) None in
  lift_res (mapWebhook raw).

(** ** Merge requests *)

Definition client_listMergeRequests (fuel : nat) (pid : jsval) (since : option jsdate)
    : MC (option (list record)) :=
  let! after := updated_after since in
  all_pages fuel (mrs_path pid) (("confidential", "false") :: after)
    (fun raw => lift_res (map_array (fun m => mapMergeRequest m false) raw)).

Definition createMergeRequest (pid : jsval) (body : record) : MC record :=
  let! raw := request "POST" (mrs_path pid) [] (Some body) None in lift_res (mapMergeRequest raw false).

Definition client_updateMergeRequest (pid iid : jsval) (body : record) : MC record :=
  let! raw := request "PUT" (mr_path pid iid) [] (Some body) None in lift_res (mapMergeRequest raw false).

(** [catch (err) { if (err instanceof NotFoundError) ... throw err }] *)
Definition on_not_found {A} (m h : MC A) : MC A :=
  try_catch m (fun e => match e with NotFoundError _ => h | _ => throw e end).

Definition getMRApprovals (pid iid : jsval) : MC record :=
  on_not_found
    (let! raw := get (mr_path pid iid +:+ "/approvals") in lift_res (mapApproval raw))
    (client_count MR_COMPOSITE_PARTIAL ;;!
     ret [("approvedBy", VArr []); ("approvalsRequired", VNum 0)]).

Definition getMRChanges (pid iid fallbackWebUrl : jsval) : MC record :=
  on_not_found
    (let! raw := get (mr_path pid iid +:+ "/changes") in lift_res (mapChanges raw fallbackWebUrl))
    (client_count MR_COMPOSITE_PARTIAL ;;!
     ret [("changedFiles", VArr []); ("diffWebUrl", VStr (js_String fallbackWebUrl +:+ "/diffs"))]).

(** *** The edition gate and the approval-rules cache *)

Definition ensureEE : MC bool :=
  gets (fun s => match cl_capabilities s with
                 | Some c => bool_decide (cap_edition c = "ee")
                 | None => false
                 end).

Definition approvalRulesCacheKey (pid iid : jsval) : string := join_two (js_String pid) (js_String iid).

Definition approvalRulesCacheGet (key : string) : MC (option (list record)) :=
  let! entry := gets (fun s => jget key (cl_rules s)) in
  match entry with
  | None => ret None
  | Some e =>
      let! now := client_now in
      if (re_expiresAt e <=? now)%Z then
        modify (fun s => set_rules (jdelete key (cl_rules s)) s) ;;! ret None
      else
        modify (fun s => set_rules (jset key e (jdelete key (cl_rules s))) s) ;;!
        ret (Some (re_value e))
  end.

(** [while (size > capacity) delete the oldest]: one pass per entry. *)
Fixpoint evict_rules (fuel : nat) (m : jsmap string ApprovalRuleCacheEntry)
    : jsmap string ApprovalRuleCacheEntry :=
  match fuel with
  | O => m
  | S fuel =>
      if (APPROVAL_RULES_CACHE_CAPACITY <? List.length m)%nat then
        match m with
        | [] => m
        | (oldestKey, _) :: _ => evict_rules fuel (jdelete oldestKey m)
        end
      else m
  end.

Definition approvalRulesCacheSet (key : string) (value : list record) : MC unit :=
  let! now := client_now in
  modify (fun s =>
    let m := jset key (MkRuleEntry value (now + APPROVAL_RULES_CACHE_TTL_MS)) (jdelete key (cl_rules s)) in
    set_rules (evict_rules (List.length m) m) s).

Definition invalidateApprovalRulesCache (pid iid : jsval) : MC unit :=
  modify (fun s => set_rules (jdelete (approvalRulesCacheKey pid iid) (cl_rules s)) s).

Definition getMRApprovalRules (pid iid : jsval) : MC (list record) :=
  let! ee := ensureEE in
  if negb ee then ret []
  else
    let cacheKey := approvalRulesCacheKey pid iid in
    let! cached := approvalRulesCacheGet cacheKey in
    match cached with
    | Some rules => ret rules
    | None =>
        on_not_found
          (let! raw := get (mr_path pid iid +:+ "/approval_rules") in
           let! rules := lift_res (map_array mapApprovalRule raw) in
           approvalRulesCacheSet cacheKey rules ;;!
           ret rules)
          (client_count MR_COMPOSITE_PARTIAL ;;!
           approvalRulesCacheSet cacheKey [] ;;!
           ret [])
    end.

(** *** Iterations *)

Definition listIterations (fuel : nat) (gid : jsval) (since : option jsdate) : MC (option (list record)) :=
  let! ee := ensureEE in
  if negb ee then ret (Some [])
  else
    let! after := updated_after since in
    all_pages fuel (group_path gid +:+ "/iterations") after (fun raw => lift_res (map_array mapIteration raw)).

Definition getIteration (gid iterationId : jsval) : MC jsval :=
  let! ee := ensureEE in
  if negb ee then ret VNull
  else
    on_not_found
      (let! raw := get (group_path gid +:+ "/iterations/" +:+ js_String iterationId) in
       let! i := lift_res (mapIteration raw) in
       ret (VObj i))
      (ret VNull).

(** *** The composite fetch *)

(** One task of [Promise.allSettled]. *)
Definition settle {A} (m : MC A) : MC (option A) :=
  try_catch (let! a := m in ret (Some a)) (fun _ => ret None).

(** What a settled task adds to the merge request; a failed one is counted. *)
Definition add_settled {A} (o : option A) (add : A -> record) (mr : record) : MC record :=
  match o with
  | Some a => ret (mr ++ add a)
  | None => client_count MR_COMPOSITE_PARTIAL ;;! ret mr
  end.

Definition copy_props (keys : list string) (r : record) : record := map (fun k => (k, prop_of r k)) keys.

(** [iterationId] and [iterationGroupId] *)
Definition iteration_coordinates (r : record) : jsval * jsval :=
  let pick v id_key :=
    match v with
    | VObj o => match prop_of o id_key with
                | VNum n => Some (VNum n, or_null (prop_of o "group_id"))
                | VNaN => Some (VNaN, or_null (prop_of o "group_id"))
                | _ => None
                end
    | _ => None
    end in
  match pick (prop_of r "iteration") "id" with
  | Some c => c
  | None => match pick (prop_of r "milestone") "iteration_id" with
            | Some c => c
            | None => (VNull, VNull)
            end
  end.

Definition getMergeRequestREST (pid iid : jsval) : MC record :=
  let! raw := get (mr_path pid iid) in
  let! r := lift_res (fields_of raw) in
  if truthy (prop_of r "confidential") then throw (confidential_mr iid)
  else
    let! mr := lift_res (mapMergeRequest raw true) in
    let! isEE := ensureEE in
    let '(iterationId, iterationGroupId) := iteration_coordinates r in
    let! approvals := settle (getMRApprovals pid iid) in
    let! changes := settle (getMRChanges pid iid (prop_of mr "webUrl")) in
    let! rules := if (isEE : bool) then
                    let! o := settle (getMRApprovalRules pid iid) in ret (Some o)
                  else ret None in
    let! iteration :=
      if isEE && negb (is_nullish iterationId) && negb (is_nullish iterationGroupId) then
        let! o := settle (getIteration iterationGroupId iterationId) in ret (Some o)
      else ret None in
    let! mr := add_settled approvals (fun a =>
      copy_props ["approvedBy"; "approvalsRequired"] a ++
      [("approvalStatus", adapter_deriveApprovalStatus a)]) mr in
    let! mr := add_settled changes (copy_props ["diffWebUrl"; "changedFiles"]) mr in
    let! mr := match rules with
               | Some o => add_settled o (fun l => [("approvalRules", objects l)]) mr
               | None => ret mr
               end in
    match iteration with
    | Some o => add_settled o (fun i => [("iteration", i)]) mr
    | None => ret mr
    end.

(** ** Discussions, approvals and notes of a merge request *)

Definition discussions_path (pid iid : jsval) : string := mr_path pid iid +:+ "/discussions".

(** [typeof projectId === 'number' ? projectId : parseInt(projectId, 10)] *)
Definition project_number (pid : jsval) : jsval :=
  match pid with
  | VNum _ | VNaN => pid
  | _ => match parseInt (js_String pid) with Some n => VNum n | None => VNaN end
  end.

Fixpoint map_discussions (projectIdNum iid : jsval) (l : list jsval) : MC (list record) :=
  match l with
  | [] => ret []
  | d :: rest =>
      let! t := lift_res (mapDiscussion d projectIdNum iid) in
      match t with
      | None => client_count DISCUSSION_POSITION_UNSUPPORTED ;;! map_discussions projectIdNum iid rest
      | Some t => let! ts := map_discussions projectIdNum iid rest in ret (t :: ts)
      end
  end.

Definition client_listDiscussions (fuel : nat) (pid iid : jsval) (since : option jsdate)
    : MC (option (list record)) :=
  let! after := updated_after since in
  all_pages fuel (discussions_path pid iid) after
    (fun raw => let! l := iterate raw in map_discussions (project_number pid) iid l).

Definition createDiscussion (pid iid : jsval) (body : record) (actorToken : option string) : MC record :=
  let! raw := request "POST" (discussions_path pid iid) [] (Some [("body", VObj body)]) actorToken in
  let! mapped := lift_res (mapDiscussion raw (project_number pid) iid) in
  match mapped with
  | None => throw (GitLabApiError 0 "createDiscussion returned a discussion with unsupported position")
  | Some t => ret t
  end.

Definition client_resolveDiscussion (pid iid : jsval) (discussionId : string) (resolved : bool)
    (actorToken : option string) : MC unit :=
  request "PUT" (discussions_path pid iid +:+ "/" +:+ discussionId) [("resolved", VBool resolved)] None
    actorToken ;;! ret tt.

(** [approveMR] and [unapproveMR] *)
Definition approval_action (action : string) (pid iid : jsval) (actorToken : option string) : MC unit :=
  validateActorTokenHeader actorToken ;;!
  try_catch
    (request "POST" (mr_path pid iid +:+ "/" +:+ action) [] None actorToken ;;!
     invalidateApprovalRulesCache pid iid)
    (fun e => throw (ApprovalActionError (exn_message e))).

Definition client_approveMR : jsval -> jsval -> option string -> MC unit := approval_action "approve".
Definition client_unapproveMR : jsval -> jsval -> option string -> MC unit := approval_action "unapprove".

(** [{ ...mapNote(n), noteableType: 'MergeRequest' }] *)
Definition mapMRNote (raw : jsval) : res record :=
  let? n := mapNote raw in Ok (n ++ [("noteableType", VStr "MergeRequest")]).

Definition client_listMRNotes (fuel : nat) (pid iid : jsval) (since : option jsdate)
    : MC (option (list record)) :=
  let! after := updated_after since in
  all_pages fuel (mr_notes_path pid iid) after (fun raw => lift_res (map_array mapMRNote raw)).

Definition client_createMRNote (pid iid : jsval) (body : record) : MC record :=
  let! raw := request "POST" (mr_notes_path pid iid) [] (Some body) None in lift_res (mapMRNote raw).

Definition client_updateMRNote (pid iid : jsval) (noteId : Z) (body : record) : MC record :=
  let! raw := request "PUT" (mr_notes_path pid iid +:+ "/" +:+ num_to_string noteId) [] (Some body) None in
  lift_res (mapMRNote raw).

Definition client_deleteMRNote (pid iid : jsval) (noteId : Z) : MC unit :=
  request "DELETE" (mr_notes_path pid iid +:+ "/" +:+ num_to_string noteId) [] None None ;;! ret tt.

Definition getPipeline (pid : jsval) (pipelineId : Z) : MC record :=
  let! raw := get (project_path pid +:+ "/pipelines/" +:+ num_to_string pipelineId) in
  lift_res (mapPipeline raw).

Definition getVersion : MC jsval := get "/api/v4/version".

(** ** Epics and groups *)

Definition client_listEpics (fuel : nat) (gid : jsval) (since : option jsdate) : MC (option (list record)) :=
  let! ee := ensureEE in
  if negb ee then ret (Some [])
  else
    let! after := updated_after since in
    all_pages fuel (group_path gid +:+ "/epics") after
      (fun raw => lift_res (map_array (fun e => mapEpic e []) raw)).

Definition epic_path (gid iid : jsval) : string := group_path gid +:+ "/epics/" +:+ js_String iid.

Definition getEpic (gid iid : jsval) : MC record :=
  let! ee := ensureEE in
  if negb ee then throw (GitLabApiError 0 "getEpic invoked on a non-EE instance")
  else
    let! raw := get (epic_path gid iid) in
    let! confidential := get_prop raw "confidential" in
    if is_true confidential then
      throw (ConfidentialEpicError (js_String iid) (js_String (project_number gid)))
    else lift_res (mapEpic raw []).

(** The iid and the project id of each row. *)
Definition epic_issue (raw : jsval) : res (jsval * jsval) :=
  let? iid := res_prop raw "iid" in
  let? project_id := res_prop raw "project_id" in
  Ok (iid, project_id).

Definition client_listEpicIssues (fuel : nat) (gid iid : jsval) : MC (option (list (jsval * jsval))) :=
  let! ee := ensureEE in
  if negb ee then ret (Some [])
  else
    all_pages fuel (epic_path gid iid +:+ "/issues") []
      (fun raw => let! l := iterate raw in lift_res (map_res epic_issue l)).

(** The walk from a group to its root, 32 groups at most. *)
Fixpoint walk_up (depth : nat) (cacheKey : string) (pid currentGroupId : jsval) : MC jsval :=
  match depth with
  | O => throw (GitLabApiError 0 ("namespace walk exceeded depth for project " +:+ js_String pid))
  | S depth =>
      let! group := get (group_path currentGroupId) in
      let! parent_id := get_prop group "parent_id" in
      if is_nullish parent_id then
        let! now := client_now in
        modify (fun s => set_groups
          (jset cacheKey (MkGroupEntry currentGroupId (now + TOP_LEVEL_GROUP_CACHE_TTL_MS)) (cl_groups s)) s) ;;!
        ret currentGroupId
      else walk_up depth cacheKey pid parent_id
  end.

(** The walk from the project's namespace. *)
Definition top_level_group (cacheKey : string) (pid : jsval) : MC jsval :=
  let! project := get (project_path pid) in
  let! namespace := get_prop project "namespace" in
  if negb (is_defined namespace) then
    throw (GitLabApiError 0 ("project " +:+ js_String pid +:+ " has no namespace"))
  else
    let! kind := get_prop namespace "kind" in
    if is_text kind "user" then
      throw (GitLabApiError 0
        ("project " +:+ js_String pid +:+ " is in a user namespace; epics require a group"))
    else
      let! id := get_prop namespace "id" in
      walk_up 32 cacheKey pid id.

(** The cache is keyed by the project's number. *)
Definition client_resolveTopLevelGroupForProject (pid : jsval) : MC jsval :=
  let cacheKey := js_String (project_number pid) in
  let! cached := gets (fun s => jget cacheKey (cl_groups s)) in
  match cached with
  | Some e =>
      let! now := client_now in
      if (now <? ge_expiresAt e)%Z then ret (ge_groupId e) else top_level_group cacheKey pid
  | None => top_level_group cacheKey pid
  end.

(** ** Files *)

(** The bytes, [None] when the upload is not found. *)
Definition downloadUpload (url : string) : MC (option string) :=
  with_retry false (MkHttpRequest "GET" url [] [("PRIVATE-TOKEN", gc_token client)] None)
    (fun res =>
       if (hp_status res =? 404)%Z then ret None
       else if is_auth_status (hp_status res) then auth_error " downloading upload" res
       else if (400 <=? hp_status res)%Z then api_error "GitLab download error " res
       else let! ab := lift_res (hp_bytes res) in ret (Some ab)).
End Client.
