(* ===== verification/GitLabClientProofs.v ===== *)
(** * What the GitLab client promises (src/adapter/gitlab-client.ts)

    The page loop collects exactly what a paging server holds, the listings
    without a loop see its first page, confidential objects are left out, the
    composite merge request survives the failure of its parts, and the two
    caches keep their bounds. *)

From S2P Require Import Prelude JsMap JsString Conflict JsVal Metrics Platform Sync MergeRequests RateLimit.
From S2P Require Import GitLabMaps GitLabClient.
Open Scope nat_scope.
Open Scope string_scope.
Open Scope list_scope.

(** Each step of a synchronous computation that returned a value. *)
Ltac res_steps H :=
  repeat match type of H with
  | res_bind ?m _ = Ok _ => let E := fresh "E" in destruct m eqn:E; cbn [res_bind] in H; [|done]
  end.

Section Client.
Context {P : Platform} {W : Type} `{Http W}.
Context (client : GitLabClient).
Implicit Types s : ClientState W.

(** ** One request *)

Definition set_world (w : W) s : ClientState W :=
  MkClientState w (cl_readings s) (cl_capabilities s) (cl_rules s) (cl_groups s) (cl_metrics s).

Lemma set_world_same s : set_world (cl_world s) s = s.
Proof. by destruct s. Qed.

(** A request that is not rejected by the rate limit is made once. *)
Lemma with_retry_answer {A} with_x req (body : HttpResponse -> M (ClientState W) A) s reply w :
  fetch req (cl_world s) = (Ok reply, w) -> hp_status reply <> 429%Z ->
  with_retry with_x req body s = body reply (set_world w s).
Proof.
  intros Hf Hs. unfold with_retry, withRateLimitRetry, MAX_RETRIES. cbn [retry_loop].
  unfold bind at 1. unfold bind at 1, on_world, zoom. rewrite Hf. cbn [ret rp_status].
  by destruct (Z.eqb_spec (hp_status reply) 429).
Qed.

Lemma request_answer method path query body token s reply w :
  valid_actor_token token = true ->
  fetch (MkHttpRequest method (gc_baseUrl client +:+ path) (search_params query)
           [("PRIVATE-TOKEN", default (gc_token client) token); ("Content-Type", "application/json")] body)
    (cl_world s) = (Ok reply, w) ->
  hp_status reply <> 429%Z ->
  request client method path query body token s = request_body method path reply (set_world w s).
Proof.
  intros Ht Hf Hs. unfold request, validateActorTokenHeader. rewrite Ht. unfold bind at 1. cbn [ret].
  by rewrite (with_retry_answer _ _ _ _ _ _ Hf Hs).
Qed.

(** ** Pages *)

(** The request for a page of a listing. *)
Definition page_request (url page : string) (params : jsmap string string) : HttpRequest :=
  MkHttpRequest "GET" (gc_baseUrl client +:+ url)
    (jset_all params (jset "page" page [("per_page", "100")])) [("PRIVATE-TOKEN", gc_token client)] None.

(** The [n]-th page of a collection, counted from 1, and the next one. *)
Definition page_of (n : nat) (items : list jsval) : list jsval := take 100 (drop (100 * (n - 1)) items).
Definition page_name (n : nat) : string := num_to_string (Z.of_nat n).
Definition next_page (n : nat) (items : list jsval) : option string :=
  if (100 * n <? List.length items)%nat then Some (page_name (S n)) else None.

(** The documented paging of GitLab's listings: a world that serves a
    collection answers the request for a page with that page and names the
    next one in a header. *)
Definition serves_pages (w : W) (url : string) (params : jsmap string string) (items : list jsval) : Prop :=
  forall n, 1 <= n -> exists reply,
    fetch (page_request url (page_name n) params) w = (Ok reply, w) /\ hp_status reply = 200%Z /\
    hp_json reply = Ok (VArr (page_of n items)) /\
    non_empty (hp_header reply "x-next-page") = next_page n items.

Lemma get_page_served {A} url params items n (f : jsval -> M (ClientState W) A) s a :
  serves_pages (cl_world s) url params items -> 1 <= n -> f (VArr (page_of n items)) s = (Ok a, s) ->
  get_page client url (page_name n) params f s = (Ok (a, next_page n items), s).
Proof.
  intros Hs Hn Hf. destruct (Hs n Hn) as (reply & Hr & H200 & Hj & Hh). unfold get_page.
  rewrite (with_retry_answer _ _ _ _ _ _ Hr) by (rewrite H200; lia).
  rewrite H200, set_world_same. cbn [Z.leb Z.compare]. unfold lift_res. rewrite Hj. cbn -[page_of].
  unfold bind at 1. cbn -[page_of]. unfold bind. rewrite Hf. cbn. unfold header_of. by rewrite Hh.
Qed.

Lemma map_res_app {A B} (f : A -> res B) l1 l2 r1 :
  map_res f l1 = Ok r1 ->
  map_res f (l1 ++ l2) = match map_res f l2 with Ok r2 => Ok (r1 ++ r2) | Throw e => Throw e end.
Proof.
  revert r1. induction l1 as [|x l1 IH]; cbn; intros r1.
  - intros [= <-]. by destruct (map_res f l2).
  - destruct (f x) as [y|]; cbn; [|done]. destruct (map_res f l1) as [ys|] eqn:E; cbn; [|done].
    intros [= <-]. rewrite (IH ys eq_refl). by destruct (map_res f l2).
Qed.

Lemma map_res_split {A B} (f : A -> res B) l1 l2 r :
  map_res f (l1 ++ l2) = Ok r -> exists r1 r2, map_res f l1 = Ok r1 /\ map_res f l2 = Ok r2 /\ r = r1 ++ r2.
Proof.
  revert r. induction l1 as [|x l1 IH]; cbn; intros r; [intros E; by exists [], r|].
  destruct (f x) as [y|]; cbn; [|done].
  destruct (map_res f (l1 ++ l2)) as [ys|] eqn:E; cbn; [|done]. intros [= <-].
  destruct (IH ys eq_refl) as (r1 & r2 & -> & -> & ->). by exists (y :: r1), r2.
Qed.

(** From page [n] on, with the fuel for what is left. *)
Lemma pages_from_served {B} (f : jsval -> res B) url params items fuel n rs acc s :
  serves_pages (cl_world s) url params items -> 1 <= n ->
  map_res f (drop (100 * (n - 1)) items) = Ok rs ->
  List.length items <= 100 * (n - 1 + fuel) -> 1 <= fuel ->
  pages_from client fuel url params (fun raw => lift_res (map_array f raw)) (page_name n) acc s =
  (Ok (Some (acc ++ rs)), s).
Proof.
  intros Hs. revert n rs acc. induction fuel as [|fuel IH]; intros n rs acc Hn Hrs Hlen Hfuel; [lia|].
  cbn [pages_from].
  rewrite <- (take_drop 100 (drop (100 * (n - 1)) items)) in Hrs.
  destruct (map_res_split _ _ _ _ Hrs) as (r1 & r2 & Hr1 & Hr2 & ->).
  assert (Hp : get_page client url (page_name n) params (fun raw => lift_res (map_array f raw)) s =
               (Ok (r1, next_page n items), s)).
  { apply get_page_served; [done | done |]. unfold lift_res. cbn [map_array]. by f_equal. }
  rewrite (bind_ok _ _ _ _ _ Hp).
  cbn [snd fst]. unfold next_page. destruct (Nat.ltb_spec (100 * n) (List.length items)).
  - rewrite (IH (S n) r2 (acc ++ r1)); try lia.
    + by rewrite <- app_assoc.
    + rewrite drop_drop in Hr2. by replace (100 * (S n - 1)) with (100 * (n - 1) + 100) by lia.
  - rewrite drop_drop, drop_ge in Hr2 by lia. cbn in Hr2. injection Hr2 as <-. by rewrite app_nil_r.
Qed.

Lemma updated_after_since since s :
  updated_after (option_map Some since) s =
  (Ok match since with Some t => [("updated_after", toISOString t)] | None => [] end, s).
Proof. by destruct since. Qed.

(** The search parameters of the merge-request listing. *)
Definition mr_listing_params (since : option Z) : jsmap string string :=
  ("confidential", "false") :: match since with Some t => [("updated_after", toISOString t)] | None => [] end.


(** ** Listings without a loop *)

(** The request [listIssues] makes. *)
Definition issues_request (pid : jsval) (after : option string) : HttpRequest :=
  MkHttpRequest "GET" (gc_baseUrl client +:+ issues_path pid)
    (search_params ([("per_page", VNum 100); ("confidential", VBool false)] ++ after_query after))
    [("PRIVATE-TOKEN", gc_token client); ("Content-Type", "application/json")] None.

(** The answer to a listing request that names no page: the first one. *)
Definition answers_first_page (w : W) (req : HttpRequest) (items : list jsval) : Prop :=
  exists reply, fetch req w = (Ok reply, w) /\ hp_status reply = 200%Z /\
    hp_json reply = Ok (VArr (page_of 1 items)).

Lemma request_first_page path query items s :
  answers_first_page (cl_world s)
    (MkHttpRequest "GET" (gc_baseUrl client +:+ path) (search_params query)
       [("PRIVATE-TOKEN", gc_token client); ("Content-Type", "application/json")] None) items ->
  request client "GET" path query None None s = (Ok (VArr (page_of 1 items)), s).
Proof.
  intros (reply & Hr & H200 & Hj).
  rewrite (request_answer "GET" path query None None s reply _ eq_refl Hr) by (rewrite H200; lia).
  unfold request_body. rewrite H200, set_world_same. cbn -[page_of]. unfold lift_res. by rewrite Hj.
Qed.

(** [listIssues] makes a single request, so that from a project with more
    than 100 issues it returns those of the first page only: its result is the
    public ones of the first 100, whatever follows them. *)
Theorem issue_listing_first_page pid after items s :
  answers_first_page (cl_world s) (issues_request pid after) items ->
  client_listIssues client pid after s = (keep_open truthy mapIssue (take 100 items), s).
Proof.
  intros Ha. unfold client_listIssues.
  rewrite (bind_ok _ _ _ _ _ (request_first_page _ _ _ _ Ha)). unfold iterate. cbn [js_iter].
  unfold bind, ret, lift_res, page_of. by rewrite drop_0.
Qed.

(** ** Confidential objects *)

Lemma keep_open_forall (hidden : jsval -> bool) map_one (I : record -> Prop) l r :
  (forall x c y, res_prop x "confidential" = Ok c -> hidden c = false -> map_one x = Ok y -> I y) ->
  keep_open hidden map_one l = Ok r -> Forall I r.
Proof.
  intros Hi. revert r. induction l as [|x l IH]; cbn; intros r; [intros [= <-]; constructor|].
  destruct (res_prop x "confidential") as [c|] eqn:Ec; cbn; [|done].
  destruct (hidden c) eqn:Eh; [by apply IH|].
  destruct (map_one x) as [y|] eqn:Ey; cbn; [|done].
  destruct (keep_open hidden map_one l) as [ys|]; cbn; [|done]. intros [= <-].
  constructor; [by eapply Hi | by apply IH].
Qed.

(** What is read of a value that is also mapped. *)
Lemma fields_prop v r k c : fields_of v = Ok r -> res_prop v k = Ok c -> k <> "length" -> prop_of r k = c.
Proof.
  intros Hf Hp Hk. unfold res_prop in Hp.
  destruct v; cbn in Hf, Hp; try done; injection Hf as <-;
    rewrite ?decide_False in Hp by done; by injection Hp as <-.
Qed.

Lemma mapIssue_confidential raw y c :
  mapIssue raw = Ok y -> res_prop raw "confidential" = Ok c -> prop_of y "confidential" = c.
Proof.
  unfold mapIssue. intros Hm Hc. destruct (fields_of raw) as [r|] eqn:Er; cbn [res_bind] in Hm; [|done].
  res_steps Hm. injection Hm as <-. cbn. by eapply fields_prop.
Qed.

Lemma mapNote_confidential raw y c :
  mapNote raw = Ok y -> res_prop raw "confidential" = Ok c -> prop_of y "confidential" = VBool (is_true c).
Proof.
  unfold mapNote. intros Hm Hc. destruct (fields_of raw) as [r|] eqn:Er; cbn [res_bind] in Hm; [|done].
  res_steps Hm. injection Hm as <-. cbn. by rewrite (fields_prop _ _ _ _ Er Hc).
Qed.

(** A property read of a list of key-value pairs that goes on with others. *)
Lemma prop_of_app (r r' : record) k v : jget k r = Some v -> prop_of (r ++ r') k = v.
Proof.
  unfold prop_of. intros E. enough (jget k (r ++ r') = Some v) as -> by done.
  revert E. induction r as [|[k' v'] r IH]; cbn; [done|]. by destruct (decide (k = k')).
Qed.

Lemma mapMergeRequest_confidential raw b y r :
  fields_of raw = Ok r -> mapMergeRequest raw b = Ok y ->
  jget "confidential" y = Some (prop_of r "confidential").
Proof.
  unfold mapMergeRequest. intros -> Hm. cbn [res_bind] in Hm. res_steps Hm.
  destruct b; res_steps Hm; injection Hm as <-; reflexivity.
Qed.

(** ** The composite merge request *)

(** A computation that cannot fail. *)
Definition total {A} (m : M (ClientState W) A) : Prop := forall s, exists a s', m s = (Ok a, s').

Lemma total_ret {A} (a : A) : total (ret a).
Proof. intros s. by exists a, s. Qed.

Lemma total_gets {A} (f : ClientState W -> A) : total (gets f).
Proof. intros s. by exists (f s), s. Qed.

Lemma total_bind {A B} (m : M (ClientState W) A) (k : A -> M (ClientState W) B) :
  total m -> (forall a, total (k a)) -> total (bind m k).
Proof. intros Hm Hk s. destruct (Hm s) as (a & s' & E). rewrite (bind_ok _ _ _ _ _ E). apply Hk. Qed.

Lemma total_settle {A} (m : M (ClientState W) A) : total (settle m).
Proof. intros s. unfold settle, try_catch, bind. destruct (m s) as [[a|e] s']; cbn; eauto. Qed.

(** The fields a composite fetch adds to a merge request. *)
Definition COMPOSITE_FIELDS : list string :=
  ["approvedBy"; "approvalsRequired"; "approvalStatus"; "diffWebUrl"; "changedFiles"; "approvalRules"; "iteration"].

Definition composite_fields (r : record) : Prop := Forall (fun e => e.1 ∈ COMPOSITE_FIELDS) r.

(** A computation that cannot fail and returns [mr] with such fields added. *)
Definition extends (mr : record) (m : M (ClientState W) record) : Prop :=
  forall s, exists extra s', m s = (Ok (mr ++ extra), s') /\ composite_fields extra.

Lemma extends_ret mr : extends mr (ret mr).
Proof. intros s. exists [], s. rewrite app_nil_r. by split; [|constructor]. Qed.

Lemma extends_total {A} mr (m : M (ClientState W) A) k :
  total m -> (forall a, extends mr (k a)) -> extends mr (bind m k).
Proof. intros Hm Hk s. destruct (Hm s) as (a & s' & E). rewrite (bind_ok _ _ _ _ _ E). apply Hk. Qed.

Lemma extends_bind mr m k : extends mr m -> (forall mr', extends mr' (k mr')) -> extends mr (bind m k).
Proof.
  intros Hm Hk s. destruct (Hm s) as (x & s' & E & Hx). rewrite (bind_ok _ _ _ _ _ E).
  destruct (Hk (mr ++ x) s') as (x' & s'' & E' & Hx'). exists (x ++ x'), s''.
  rewrite app_assoc. split; [done|]. by apply Forall_app.
Qed.

Lemma extends_settled {A} mr (o : option A) add :
  (forall a, composite_fields (add a)) -> extends mr (add_settled o add mr).
Proof.
  intros Ha s. destruct o as [a|]; cbn; [by exists (add a), s|].
  exists []. rewrite app_nil_r. eexists. by split; [|constructor].
Qed.

(** Closed lists of fields. *)
Ltac fields_in := repeat constructor; apply (bool_decide_unpack _); reflexivity.

Lemma composite_run pid iid raw r mr s s1 :
  get client (mr_path pid iid) s = (Ok raw, s1) -> fields_of raw = Ok r ->
  truthy (prop_of r "confidential") = false -> mapMergeRequest raw true = Ok mr ->
  exists extra s', getMergeRequestREST client pid iid s = (Ok (mr ++ extra), s') /\ composite_fields extra.
Proof.
  intros Hg Hr Hc Hm. unfold getMergeRequestREST. rewrite (bind_ok _ _ _ _ _ Hg).
  unfold lift_res. unfold bind at 1. rewrite Hr, Hc. unfold bind at 1. rewrite Hm.
  apply extends_total; [apply total_gets|]. intros isEE. destruct (iteration_coordinates r) as [iterationId groupId].
  do 2 (apply extends_total; [apply total_settle|]; intros ?).
  apply extends_total; [destruct isEE; [apply total_bind; [apply total_settle|]; intros|]; apply total_ret|]. intros rules.
  apply extends_total; [destruct_match; [apply total_bind; [apply total_settle|]; intros|]; apply total_ret|].
  intros iteration. apply extends_bind; [apply extends_settled; intros; fields_in|]. intros mr1.
  apply extends_bind; [apply extends_settled; intros; fields_in|]. intros mr2.
  apply extends_bind; [destruct rules; [apply extends_settled; intros; fields_in | apply extends_ret]|]. intros mr3.
  destruct iteration; [apply extends_settled; intros; fields_in | apply extends_ret].
Qed.

(** Once the merge request itself is fetched, the composite fetch returns
    it: whatever the requests for approvals, changes, rules and iteration do,
    every field of the mapped merge request stays, and only the composite
    fields may follow. *)
Theorem composite_survives pid iid raw r mr s s1 :
  get client (mr_path pid iid) s = (Ok raw, s1) -> fields_of raw = Ok r ->
  truthy (prop_of r "confidential") = false -> mapMergeRequest raw true = Ok mr ->
  exists extra s', getMergeRequestREST client pid iid s = (Ok (mr ++ extra), s') /\
    (forall k, k ∈ jkeys extra ->
       k ∈ ["approvedBy"; "approvalsRequired"; "approvalStatus"; "diffWebUrl"; "changedFiles";
            "approvalRules"; "iteration"]).
Proof.
  intros Hg Hr Hc Hm. destruct (composite_run _ _ _ _ _ _ _ Hg Hr Hc Hm) as (extra & s' & E & Hx).
  exists extra, s'. split; [done|]. intros k (e & -> & He)%list_elem_of_fmap.
  by apply (proj1 (Forall_forall _ _) Hx).
Qed.

(** ** Confidential objects do not leave the client *)

Lemma composite_public pid iid s mr s' :
  getMergeRequestREST client pid iid s = (Ok mr, s') -> truthy (prop_of mr "confidential") = false.
Proof.
  intros Hg. pose proof Hg as Hg'. unfold getMergeRequestREST in Hg'.
  apply bind_inv_ok in Hg' as (raw & s1 & Hraw & Hg').
  apply bind_inv_ok in Hg' as (r & s2 & Hr & Hg'). unfold lift_res in Hr. injection Hr as Hr ->.
  destruct (truthy (prop_of r "confidential")) eqn:Hc; [done|].
  apply bind_inv_ok in Hg' as (m & s3 & Hm & _). unfold lift_res in Hm. injection Hm as Hm _.
  destruct (composite_run _ _ _ _ _ _ _ Hraw Hr Hc Hm) as (extra & s4 & E & _).
  rewrite Hg in E. injection E as -> _.
  by rewrite (prop_of_app _ _ _ _ (mapMergeRequest_confidential _ _ _ _ Hr Hm)).
Qed.

Lemma getIssue_public pid iid s issue s' :
  getIssue client pid iid s = (Ok issue, s') -> truthy (prop_of issue "confidential") = false.
Proof.
  unfold getIssue. intros (raw & s1 & _ & Hg)%bind_inv_ok. apply bind_inv_ok in Hg as (c & s2 & Hc & Hg).
  destruct (truthy c) eqn:Et; [done|]. injection Hg as Hm _.
  unfold get_prop in Hc. destruct (js_get raw "confidential") as [c'|] eqn:Ec; [|done]. injection Hc as -> _.
  rewrite (mapIssue_confidential _ _ c Hm); [done|]. unfold res_prop. by rewrite Ec.
Qed.

(** C24: What [listIssues], [getIssue], [listNotes] and the composite merge
    request return is never confidential: the flag of every object they return
    is false (or, of an issue or merge request, absent). *)
Theorem confidential_never_returned pid iid after s :
  (forall issues s', client_listIssues client pid after s = (Ok issues, s') ->
     Forall (fun i => truthy (prop_of i "confidential") = false) issues) /\
  (forall issue s', getIssue client pid iid s = (Ok issue, s') -> truthy (prop_of issue "confidential") = false) /\
  (forall notes s', client_listNotes client pid iid after s = (Ok notes, s') ->
     Forall (fun n => prop_of n "confidential" = VBool false) notes) /\
  (forall mr s', getMergeRequestREST client pid iid s = (Ok mr, s') ->
     truthy (prop_of mr "confidential") = false).
Proof.
  split_and!.
  - unfold client_listIssues. intros issues s' (raw & s1 & _ & Hl)%bind_inv_ok.
    apply bind_inv_ok in Hl as (l & s2 & _ & Hl). injection Hl as Hl _. revert Hl.
    apply keep_open_forall. intros x c y Hx Hc Hy. by rewrite (mapIssue_confidential _ _ _ Hy Hx).
  - intros issue s'. apply getIssue_public.
  - unfold client_listNotes. intros notes s' (raw & s1 & _ & Hl)%bind_inv_ok.
    apply bind_inv_ok in Hl as (l & s2 & _ & Hl). injection Hl as Hl _. revert Hl.
    apply keep_open_forall. intros x c y Hx Hc Hy. by rewrite (mapNote_confidential _ _ _ Hy Hx), Hc.
  - intros mr s'. apply composite_public.
Qed.

(** ** The root of a group *)

(** The client reads group [g] with that parent, leaving its state alone. *)
Definition reads_group s (g parent : jsval) : Prop :=
  exists raw, get client (group_path g) s = (Ok raw, s) /\ js_get raw "parent_id" = Some parent.

(** The groups from the first one up: each is the parent of the one before it,
    and the last one has none. *)
Fixpoint hierarchy s (g : jsval) (above : list jsval) : Prop :=
  match above with
  | [] => exists parent, reads_group s g parent /\ is_nullish parent = true
  | g' :: above => reads_group s g g' /\ is_nullish g' = false /\ hierarchy s g' above
  end.

Lemma walk_up_run depth cacheKey pid g above s :
  hierarchy s g above ->
  walk_up client depth cacheKey pid g s =
  if (List.length above <? depth)%nat then
    (Ok (List.last above g),
     set_groups (jset cacheKey (MkGroupEntry (List.last above g)
                                  (clock (cl_readings s) + TOP_LEVEL_GROUP_CACHE_TTL_MS)) (cl_groups s))
       (MkClientState (cl_world s) (S (cl_readings s)) (cl_capabilities s) (cl_rules s) (cl_groups s) (cl_metrics s)))
  else (Throw (GitLabApiError 0 ("namespace walk exceeded depth for project " +:+ js_String pid)), s).
Proof.
  revert depth g. induction above as [|g' above IH]; intros [|depth] g Hh; try done.
  - destruct Hh as (parent & (raw & Hraw & Hp) & Hn). cbn [walk_up]. rewrite (bind_ok _ _ _ _ _ Hraw).
    unfold get_prop. rewrite Hp. unfold bind at 1. cbn [ret]. rewrite Hn. reflexivity.
  - destruct Hh as ((raw & Hraw & Hp) & Hn & Hh). cbn [walk_up]. rewrite (bind_ok _ _ _ _ _ Hraw).
    unfold get_prop. rewrite Hp. unfold bind at 1. cbn [ret]. rewrite Hn, (IH depth g' Hh).
    replace (List.last (g' :: above) g) with (List.last above g')
      by (clear; revert g' g; induction above as [|x above IH]; intros g' g; [done|]; cbn in *; by rewrite <- (IH x g)).
    reflexivity.
Qed.

(** The clock is read once. *)
Definition tick_clock s : ClientState W :=
  MkClientState (cl_world s) (S (cl_readings s)) (cl_capabilities s) (cl_rules s) (cl_groups s) (cl_metrics s).

(** The project is in that group namespace. *)
Definition project_in s (pid g : jsval) : Prop :=
  exists project ns kind, get client (project_path pid) s = (Ok project, s) /\
    js_get project "namespace" = Some ns /\ is_defined ns = true /\ js_get ns "kind" = Some kind /\
    is_text kind "user" = false /\ js_get ns "id" = Some g.

Lemma top_level_group_run cacheKey pid g s :
  project_in s pid g -> top_level_group client cacheKey pid s = walk_up client 32 cacheKey pid g s.
Proof.
  intros (project & ns & kind & Hp & Hns & Hd & Hk & Hu & Hid). unfold top_level_group.
  rewrite (bind_ok _ _ _ _ _ Hp). unfold get_prop. rewrite Hns. unfold bind at 1. cbn [ret]. rewrite Hd. cbn [negb].
  rewrite Hk. unfold bind at 1. cbn [ret]. rewrite Hu, Hid. reflexivity.
Qed.

(** The top-level group of a project that is not cached is the last group
    of the chain of parents of its namespace, found in at most 32 requests for
    groups; a chain of more than 32 groups is an error.  For an hour the same
    question is then answered from the cache, without a request. *)
Theorem top_level_group_found pid g above s :
  jget (js_String (project_number pid)) (cl_groups s) = None ->
  project_in s pid g -> hierarchy s g above ->
  (31 < List.length above ->
   client_resolveTopLevelGroupForProject client pid s =
   (Throw (GitLabApiError 0 ("namespace walk exceeded depth for project " +:+ js_String pid)), s)) /\
  (List.length above <= 31 -> exists s',
   client_resolveTopLevelGroupForProject client pid s = (Ok (List.last above g), s') /\
   cl_world s' = cl_world s /\
   forall later, cl_groups later = cl_groups s' ->
     (clock (cl_readings later) < clock (cl_readings s) + 60 * 60 * 1000)%Z ->
     client_resolveTopLevelGroupForProject client pid later = (Ok (List.last above g), tick_clock later)).
Proof.
  intros Hc Hp Hh. set (key := js_String (project_number pid)) in *.
  assert (Hrun : client_resolveTopLevelGroupForProject client pid s = walk_up client 32 key pid g s).
  { unfold client_resolveTopLevelGroupForProject, bind, gets. fold key. rewrite Hc. by apply top_level_group_run. }
  rewrite Hrun, (walk_up_run _ _ _ _ _ _ Hh). split; intros Hl.
  - by destruct (Nat.ltb_spec (List.length above) 32); [lia|].
  - destruct (Nat.ltb_spec (List.length above) 32); [|lia]. eexists. split; [reflexivity|]. split; [done|].
    intros later Hg Ht. unfold client_resolveTopLevelGroupForProject, bind, gets. fold key. rewrite Hg.
    cbn [set_groups cl_groups]. rewrite jget_set_eq. unfold client_now. cbn [ge_expiresAt ge_groupId].
    unfold TOP_LEVEL_GROUP_CACHE_TTL_MS.
    destruct (Z.ltb_spec (clock (cl_readings later)) (clock (cl_readings s) + 60 * 60 * 1000)); [done | lia].
Qed.

(** ** The cache of approval rules *)

(** At most 256 entries, one for each key. *)
Definition rules_ok s : Prop :=
  jwf (cl_rules s) /\ List.length (cl_rules s) <= APPROVAL_RULES_CACHE_CAPACITY.

Lemma evict_rules_ok fuel m :
  jwf m -> List.length m <= APPROVAL_RULES_CACHE_CAPACITY + fuel ->
  jwf (evict_rules fuel m) /\ List.length (evict_rules fuel m) <= APPROVAL_RULES_CACHE_CAPACITY.
Proof.
  revert m. induction fuel as [|fuel IH]; intros m Hm Hl; cbn [evict_rules];
    [split; [exact Hm | lia]|].
  destruct (Nat.ltb_spec APPROVAL_RULES_CACHE_CAPACITY (List.length m)); [|split; [exact Hm | lia]].
  destruct m as [|[k v] m]; [cbn [List.length] in *; lia|]. cbn [jdelete]. rewrite decide_True by done.
  apply IH; [by inversion Hm|]. cbn [List.length] in Hl. lia.
Qed.

Lemma jdelete_length {V} k (m : jsmap string V) : List.length (jdelete k m) <= List.length m.
Proof. induction m as [|[k' v] m IH]; cbn; [done|]. destruct (decide (k = k')); cbn; lia. Qed.

(** A computation that does not touch the cache. *)
Definition keeps_rules {A} (m : M (ClientState W) A) : Prop := forall r, preserves (fun s => cl_rules s = r) m.

Lemma keeps_rules_ok {A} (m : M (ClientState W) A) : keeps_rules m -> preserves rules_ok m.
Proof. intros Hm s Hs. unfold rules_ok. by rewrite (Hm (cl_rules s) s eq_refl). Qed.

Lemma keeps_ret {A} (a : A) : keeps_rules (ret a).
Proof. intros r. apply preserves_ret. Qed.

Lemma keeps_throw {A} e : keeps_rules (throw (A := A) e).
Proof. intros r. apply preserves_throw. Qed.

Lemma keeps_lift {A} (x : res A) : keeps_rules (lift_res x).
Proof. by intros r s. Qed.

Lemma keeps_bind {A B} (m : M (ClientState W) A) (k : A -> M (ClientState W) B) :
  keeps_rules m -> (forall a, keeps_rules (k a)) -> keeps_rules (bind m k).
Proof. intros Hm Hk r. apply preserves_bind; [apply Hm|]. intros a. apply Hk. Qed.

Lemma keeps_catch {A} (m : M (ClientState W) A) h :
  keeps_rules m -> (forall e, keeps_rules (h e)) -> keeps_rules (try_catch m h).
Proof. intros Hm Hh r. apply preserves_try_catch; [apply Hm|]. intros e. apply Hh. Qed.

Lemma keeps_on_world {A} (m : M W A) : keeps_rules (on_world m).
Proof. intros r s <-. unfold on_world, zoom. by destruct (m (cl_world s)). Qed.

Lemma keeps_now : keeps_rules (client_now (W := W)).
Proof. by intros r s. Qed.

Lemma keeps_gets {A} (f : ClientState W -> A) : keeps_rules (gets f).
Proof. by intros r s. Qed.

Lemma keeps_count name : keeps_rules (client_count (W := W) name).
Proof. by intros r s. Qed.

Hint Resolve keeps_ret keeps_throw keeps_lift keeps_bind keeps_catch keeps_on_world keeps_now keeps_gets keeps_count : js.

Lemma keeps_until t : keeps_rules (until client_now t).
Proof. unfold until. auto with js. Qed.
Hint Resolve keeps_until : js.

Lemma keeps_wait h : keeps_rules (extractWaitMs client_now h).
Proof. unfold extractWaitMs, parseRetryAfter. repeat case_match; auto with js. Qed.
Hint Resolve keeps_wait : js.

Lemma keeps_retry {A} with_x req (body : HttpResponse -> M (ClientState W) A) :
  (forall res, keeps_rules (body res)) -> keeps_rules (with_retry with_x req body).
Proof.
  intros Hb. unfold with_retry, withRateLimitRetry. generalize 0%Z as lastw. generalize MAX_RETRIES as left.
  induction left as [|left IH]; intros lastw r s Hs; cbn [retry_loop]; unfold bind at 1; unfold bind at 1;
    pose proof (keeps_on_world (fetch req) r s Hs) as Hf;
    destruct (on_world (fetch req) s) as [[reply|e] s1] eqn:E; cbn [snd] in Hf; try done; cbn [ret rp_status rp_body];
    destruct (negb (hp_status reply =? 429)%Z); [by apply Hb | done | by apply Hb |].
  cbn [rp_headers]. refine (keeps_bind _ _ (keeps_wait _) _ r s1 Hf). intros wait.
  apply keeps_bind; [apply keeps_on_world|]. intros _. exact (IH _).
Qed.
Hint Resolve keeps_retry : js.

Lemma keeps_request method path query body token : keeps_rules (request client method path query body token).
Proof.
  unfold request, validateActorTokenHeader. apply keeps_bind; [destruct (valid_actor_token token); auto with js|].
  intros _. apply keeps_retry. intros res. unfold request_body, auth_error, api_error.
  repeat case_match; auto with js.
Qed.
Hint Resolve keeps_request : js.

Lemma preserves_cache_get key : preserves rules_ok (approvalRulesCacheGet (W := W) key).
Proof.
  intros s [Hw Hl]. unfold approvalRulesCacheGet, bind, gets.
  destruct (jget key (cl_rules s)) as [e|] eqn:E; [|by split].
  apply jget_Some_keys in E. pose proof (jsize_delete_in _ _ E) as Hs. unfold jsize in Hs.
  cbn. destruct (re_expiresAt e <=? _)%Z; cbn.
  - split; cbn; [by apply jwf_delete | lia].
  - split; cbn; [by apply jwf_set, jwf_delete|].
    pose proof (jsize_set_le (jdelete key (cl_rules s)) key e). unfold jsize in *. lia.
Qed.

Lemma preserves_cache_set key rules : preserves rules_ok (approvalRulesCacheSet (W := W) key rules).
Proof.
  intros s [Hw Hl]. unfold approvalRulesCacheSet, bind. cbn. apply evict_rules_ok.
  - by apply jwf_set, jwf_delete.
  - cbn. lia.
Qed.

Lemma preserves_rules pid iid : preserves rules_ok (getMRApprovalRules client pid iid).
Proof.
  unfold getMRApprovalRules, ensureEE, on_not_found.
  apply preserves_bind; [auto with js|]. intros ee. destruct (negb ee); [auto with js|].
  apply preserves_bind; [apply preserves_cache_get|]. intros [rules|]; [auto with js|].
  apply preserves_try_catch.
  - repeat (apply preserves_bind; [first [apply keeps_rules_ok; solve [auto with js | apply keeps_request] |
                                          apply preserves_cache_set] | intros]). auto with js.
  - intros [] ; auto with js.
    repeat (apply preserves_bind; [first [apply keeps_rules_ok; solve [auto with js] | apply preserves_cache_set] |
                                   intros]). auto with js.
Qed.

Lemma approval_run action pid iid token s s' :
  approval_action client action pid iid token s = (Ok tt, s') ->
  exists s1, cl_rules s' = jdelete (approvalRulesCacheKey pid iid) (cl_rules s1) /\ cl_rules s1 = cl_rules s.
Proof.
  unfold approval_action. intros ([] & s0 & Hv & Ha)%bind_inv_ok.
  assert (s0 = s) as ->.
  { unfold validateActorTokenHeader in Hv. destruct (valid_actor_token token); [by injection Hv | done]. }
  unfold try_catch, bind in Ha.
  pose proof (keeps_request "POST" (mr_path pid iid +:+ "/" +:+ action) [] None token (cl_rules s) s eq_refl) as Hk.
  destruct (request client _ _ _ _ _ s) as [[v|e] s1]; [|done]. cbn in Hk. injection Ha as <-. by exists s1.
Qed.

(** The cache of approval rules never holds more than 256 entries, nor two
    for one merge request, whichever rules are read and approvals made; and
    once an approval (or its withdrawal) succeeded the rules of that merge
    request are not in it, so that they are read again. *)
Theorem rules_cache_coherent pid iid token s :
  rules_ok s ->
  (forall rules s', getMRApprovalRules client pid iid s = (rules, s') -> rules_ok s') /\
  (forall action s', action ∈ [client_approveMR client; client_unapproveMR client] ->
     action pid iid token s = (Ok tt, s') ->
     rules_ok s' /\ jget (js_String pid +:+ ":" +:+ js_String iid) (cl_rules s') = None).
Proof.
  intros Hs. split.
  - intros rules s' E. pose proof (preserves_rules pid iid s Hs) as Hp. by rewrite E in Hp.
  - assert (Hrun : forall action s', approval_action client action pid iid token s = (Ok tt, s') ->
      rules_ok s' /\ jget (approvalRulesCacheKey pid iid) (cl_rules s') = None).
    { intros action s' Ha. destruct (approval_run _ _ _ _ _ _ Ha) as (s1 & E & E1). destruct Hs as [Hw Hl].
      rewrite <- E1 in Hw, Hl. unfold rules_ok. rewrite E. split; [split|].
      - by apply jwf_delete.
      - pose proof (jdelete_length (approvalRulesCacheKey pid iid) (cl_rules s1)). lia.
      - by apply jget_delete_eq. }
    intros action s' Hin Ha. apply elem_of_cons in Hin as [->|Hin]; [by apply (Hrun "approve")|].
    apply list_elem_of_singleton in Hin as ->. by apply (Hrun "unapprove").
Qed.
End Client.

(** * The GitLab client on concrete servers

    A GitLab server for closed examples: each address holds a paged
    collection, one object or a failure.  The instances of the properties of
    the client, and what it does with confidential notes and epics. *)

(** ** A server *)

Inductive Route :=
  | Paged (items : list jsval)
  | Holds (v : jsval)
  | Fails (status : Z).

(** The routes and the requests made so far. *)
Record Server := MkServer { sv_routes : jsmap string Route; sv_log : list string }.

Definition toy_reply (status : Z) (next : option string) (v : jsval) : HttpResponse :=
  MkHttpResponse status (fun h => if bool_decide (h = "x-next-page") then next else None) (Ok "") (Ok v) (Ok "").

Definition serve (req : HttpRequest) (w : Server) : HttpResponse :=
  match jget (hq_url req) (sv_routes w) with
  | Some (Paged items) =>
      let n := match jget "page" (hq_params req) with
               | Some p => Z.to_nat (default 1%Z (parseInt p))
               | None => 1
               end in
      toy_reply 200 (next_page n items) (VArr (page_of n items))
  | Some (Holds v) => toy_reply 200 None v
  | Some (Fails status) => toy_reply status None VNull
  | None => toy_reply 404 None VNull
  end.

(** A server that only reads, and one that writes down the addresses. *)
#[export] Instance toy_http : Http Server := {
  fetch := fun req w => (Ok (serve req w), w);
  sleep := fun _ w => (Ok tt, w)
}.

Definition toy_gitlab_client : GitLabClient := MkGitLabClient "" "instance-token".

Definition toy_client_state (ee : bool) (routes : jsmap string Route) : ClientState Server :=
  MkClientState (MkServer routes []) 0
    (Some (MkCapabilities (VStr "17.0") (if ee then "ee" else "ce") false)) [] [] [].

Lemma toy_serves_pages url since routes log items :
  jget url routes = Some (Paged items) ->
  serves_pages toy_gitlab_client (MkServer routes log) url (mr_listing_params since) items.
Proof.
  intros Hr n Hn. exists (toy_reply 200 (next_page n items) (VArr (page_of n items))).
  split_and!; try done.
  - cbn [fetch toy_http]. unfold serve. cbn [hq_url page_request toy_gitlab_client gc_baseUrl sv_routes].
    change ("" +:+ url) with url. rewrite Hr. cbn [hq_params page_request].
    replace (jget "page" (jset_all (mr_listing_params since) (jset "page" (page_name n) [("per_page", "100")])))
      with (Some (page_name n)) by (by destruct since).
    unfold page_name. rewrite parseInt_num_to_string.
    change (default 1%Z (Some (Z.of_nat n))) with (Z.of_nat n). by rewrite Nat2Z.id.
  - unfold next_page. cbn [hp_header toy_reply]. destruct (100 * n <? List.length items)%nat; [|done].
    unfold non_empty. destruct (page_name (S n)) eqn:E; [|done].
    unfold page_name in E. pose proof (parseInt_num_to_string (Z.of_nat (S n))) as Hp. by rewrite E in Hp.
Qed.

(** ** Objects *)

Definition toy_raw (n : nat) (confidential : bool) : jsval :=
  VObj [("id", VNum (Z.of_nat n)); ("iid", VNum (Z.of_nat n)); ("project_id", VNum 7);
        ("title", VStr "t"); ("body", VStr "b"); ("state", VStr "opened"); ("labels", VArr []);
        ("assignees", VArr []); ("reviewers", VArr []); ("web_url", VStr "/u");
        ("author", VObj [("id", VNum 1); ("username", VStr "ada")]);
        ("created_at", VStr "2024"); ("updated_at", VStr "2024"); ("confidential", VBool confidential)].

(** A hundred and one public objects. *)
Definition many : list jsval := map (fun n => toy_raw n false) (seq 1 101).

Definition values {A} (r : res (list A)) : list A := match r with Ok l => l | Throw _ => [] end.


Lemma issue_listing_first_page_witness :
  let s := toy_client_state true [(issues_path (VNum 7), Paged many)] in
  client_listIssues toy_gitlab_client (VNum 7) None s = (keep_open truthy mapIssue (take 100 many), s) /\
  List.length (values (keep_open truthy mapIssue (take 100 many))) = 100 /\ List.length many = 101.
Proof.
  intros s. split; [|split; vm_compute; reflexivity].
  apply (issue_listing_first_page toy_gitlab_client (VNum 7) None many s).
  exists (toy_reply 200 (next_page 1 many) (VArr (page_of 1 many))).
  split; [reflexivity|]. split; reflexivity.
Defined.

(** The approvals, changes, rules and iteration of merge request 3 all fail. *)
Definition failing_parts : jsmap string Route :=
  [(mr_path (VNum 7) (VNum 3), Holds (toy_raw 3 false));
   (mr_path (VNum 7) (VNum 3) +:+ "/approvals", Fails 500);
   (mr_path (VNum 7) (VNum 3) +:+ "/changes", Fails 502);
   (mr_path (VNum 7) (VNum 3) +:+ "/approval_rules", Fails 403)].

Lemma composite_survives_witness :
  exists extra s', getMergeRequestREST toy_gitlab_client (VNum 7) (VNum 3) (toy_client_state true failing_parts) =
    (Ok (match mapMergeRequest (toy_raw 3 false) true with Ok m => m | Throw _ => [] end ++ extra), s').
Proof.
  destruct (composite_survives (H := toy_http) toy_gitlab_client (VNum 7) (VNum 3) (toy_raw 3 false)
              (match toy_raw 3 false with VObj r => r | _ => [] end)
              (match mapMergeRequest (toy_raw 3 false) true with Ok m => m | Throw _ => [] end)
              (toy_client_state true failing_parts) (toy_client_state true failing_parts)
              ltac:(vm_compute; reflexivity) ltac:(vm_compute; reflexivity)
              ltac:(vm_compute; reflexivity) ltac:(vm_compute; reflexivity))
    as (extra & s' & E & _).
  exists extra, s'. exact E.
Defined.

(** One confidential and one public object. *)
Definition mixed : list jsval := [toy_raw 1 true; toy_raw 2 false].

Definition confidential_routes : jsmap string Route :=
  [(issues_path (VNum 7), Paged mixed); (issue_path (VNum 7) (VNum 2), Holds (toy_raw 2 false));
   (notes_path (VNum 7) (VNum 2), Paged mixed); (mr_path (VNum 7) (VNum 2), Holds (toy_raw 2 false));
   (mr_notes_path (VNum 7) (VNum 2), Paged mixed); (group_path (VNum 5) +:+ "/epics", Paged mixed)].

Lemma confidential_never_returned_witness :
  (forall issues s', client_listIssues toy_gitlab_client (VNum 7) None (toy_client_state true confidential_routes) =
     (Ok issues, s') -> Forall (fun i => truthy (prop_of i "confidential") = false) issues) /\
  exists notes s', client_listNotes toy_gitlab_client (VNum 7) (VNum 2) None
     (toy_client_state true confidential_routes) = (Ok notes, s') /\ List.length notes = 1.
Proof.
  destruct (confidential_never_returned (H := toy_http) toy_gitlab_client (VNum 7) (VNum 2) None
              (toy_client_state true confidential_routes)) as (Hissues & _ & Hnotes & _).
  split; [exact Hissues|]. eexists _, _. split; [vm_compute; reflexivity | reflexivity].
Defined.

(** The notes of a merge request and the epics of a group are returned
    with the confidential ones among them: neither [listMRNotes] nor
    [listEpics] filters, unlike [listNotes] and [getEpic]. *)
Example confidential_notes_and_epics_returned :
  let s := toy_client_state true confidential_routes in
  (exists notes s', client_listMRNotes toy_gitlab_client 1 (VNum 7) (VNum 2) None s = (Ok (Some notes), s') /\
     map (fun n => prop_of n "confidential") notes = [VBool true; VBool false]) /\
  (exists epics s', client_listEpics toy_gitlab_client 1 (VNum 5) None s = (Ok (Some epics), s') /\
     map (fun e => prop_of e "iid") epics = [VNum 1; VNum 2]).
Proof.
  split; (eexists _, _; split; [vm_compute; reflexivity | reflexivity]).
Qed.

(** ** The caches *)

Definition toy_group (id : Z) (parent : jsval) : Route := Holds (VObj [("id", VNum id); ("parent_id", parent)]).

Definition group_routes : jsmap string Route :=
  [(project_path (VNum 7), Holds (VObj [("namespace", VObj [("id", VNum 30); ("kind", VStr "group")])]));
   (group_path (VNum 30), toy_group 30 (VNum 20)); (group_path (VNum 20), toy_group 20 (VNum 10));
   (group_path (VNum 10), toy_group 10 VNull)].

Lemma top_level_group_found_witness :
  exists s', client_resolveTopLevelGroupForProject toy_gitlab_client (VNum 7) (toy_client_state true group_routes) =
    (Ok (VNum 10), s').
Proof.
  destruct (top_level_group_found (H := toy_http) toy_gitlab_client (VNum 7) (VNum 30) [VNum 20; VNum 10]
              (toy_client_state true group_routes) ltac:(reflexivity)) as [_ Hfound].
  - exists (VObj [("namespace", VObj [("id", VNum 30); ("kind", VStr "group")])]),
      (VObj [("id", VNum 30); ("kind", VStr "group")]), (VStr "group"). by split_and!.
  - cbn [hierarchy]. split_and!; try done; try (eexists; split; [vm_compute; reflexivity | reflexivity]).
    exists VNull. split; [|done]. eexists. split; [vm_compute; reflexivity | reflexivity].
  - destruct (Hfound ltac:(cbn; lia)) as (s' & E & _). exists s'. exact E.
Defined.

Definition approval_routes : jsmap string Route :=
  [(mr_path (VNum 7) (VNum 3) +:+ "/approve", Holds VNull);
   (mr_path (VNum 7) (VNum 3) +:+ "/approval_rules", Paged [])].

Lemma rules_cache_coherent_witness :
  let s := (getMRApprovalRules toy_gitlab_client (VNum 7) (VNum 3) (toy_client_state true approval_routes)).2 in
  jget "7:3" (cl_rules s) = Some (MkRuleEntry [] 10000) /\
  rules_ok (client_approveMR toy_gitlab_client (VNum 7) (VNum 3) (Some "ada-token") s).2 /\
  jget "7:3" (cl_rules (client_approveMR toy_gitlab_client (VNum 7) (VNum 3) (Some "ada-token") s).2) = None.
Proof.
  intros s. split; [vm_compute; reflexivity|].
  destruct (rules_cache_coherent (H := toy_http) toy_gitlab_client (VNum 7) (VNum 3) (Some "ada-token") s) as [_ Happrove].
  - split; [apply (bool_decide_eq_true_1 _); reflexivity | vm_compute; lia].
  - eapply (Happrove (client_approveMR toy_gitlab_client)); [left | vm_compute; reflexivity].
Defined.

(** The cache of top-level groups is keyed by the number of the project, so
    that two projects named by their paths share one entry: after the first was
    looked up, the second is given the first one's group. *)
Example path_projects_share_group :
  let routes := [(project_path (VStr "a%2Fx"), Holds (VObj [("namespace", VObj [("id", VNum 30); ("kind", VStr "group")])]));
                 (project_path (VStr "b%2Fy"), Holds (VObj [("namespace", VObj [("id", VNum 40); ("kind", VStr "group")])]));
                 (group_path (VNum 30), toy_group 30 VNull); (group_path (VNum 40), toy_group 40 VNull)] in
  let resolve pid s := client_resolveTopLevelGroupForProject toy_gitlab_client (VStr pid) s in
  let s0 := toy_client_state true routes in
  (resolve "b%2Fy" s0).1 = Ok (VNum 40) /\
  (resolve "b%2Fy" (resolve "a%2Fx" s0).2).1 = Ok (VNum 30).
Proof. split; vm_compute; reflexivity. Qed.
