(* ===== verification/GitLabGraphQL.v ===== *)
(** * GraphQL and the detection of capabilities

    src/adapter/gitlab-graphql-client.ts, src/adapter/capabilities.ts, and the
    methods of src/adapter/gitlab-client.ts that prefer GraphQL to REST.  The
    graphql-request package is the class [GraphQL]: it answers a query with
    data or with the error object it throws, and the text of a query is the
    constant its constructor is named after.  The two caches are module-level
    variables next to the client in use; the schema version is always null. *)

From S2P Require Import Prelude JsMap JsString Conflict Ids JsVal Metrics Platform Sync MergeRequests RateLimit.
From S2P Require Import BaseUrl GitLabMaps GitLabClient GitLabClientProofs.
Open Scope nat_scope.
Open Scope string_scope.
Open Scope list_scope.

(** ** The package *)

Inductive Query :=
  | CURRENT_USER
  | GRAPHQL_INTROSPECTION_PING
  | GRAPHQL_MR_COMPOSITE_QUERY
  | GRAPHQL_MR_LIST_WITH_APPROVALS_QUERY
  | GRAPHQL_EPICS_WITH_CHILDREN_QUERY.

Class GraphQL (W : Type) := {
  graphql_request : forall (url : string) (headers : jsmap string string) (query : Query) (vars : record),
    M W (jsval + jsval)
}.

(** ** The state *)

Record CapabilityCacheEntry := MkCapabilityEntry {
  cc_available : bool;
  cc_cachedAt : Z;
  cc_ttlMs : Z
}.

Record DetectedEntry := MkDetected { de_capabilities : Capabilities; de_expiresAt : Z }.

Record Adapter (W : Type) := MkAdapter {
  ad_client : ClientState W;
  ad_graphql : jsmap string CapabilityCacheEntry;
  ad_detected : jsmap string DetectedEntry
}.
Arguments MkAdapter {W}.
Arguments ad_client {W}.
Arguments ad_graphql {W}.
Arguments ad_detected {W}.

Definition CAPABILITY_POSITIVE_TTL_MS : Z := 60 * 60 * 1000.
Definition CAPABILITY_NEGATIVE_TTL_MS : Z := 5 * 60 * 1000.
Definition TTL_MS : Z := 60 * 60 * 1000.

(** ** Errors *)

Definition number_prop (r : record) (k : string) : option jsval :=
  match prop_of r k with VNum n => Some (VNum n) | VNaN => Some VNaN | _ => None end.

Definition extractStatusCode (err : jsval) : option jsval :=
  match as_object (Some err) with
  | Some e =>
      match number_prop e "status" with
      | Some n => Some n
      | None => match as_object (Some (prop_of e "response")) with
                | Some r => number_prop r "status"
                | None => None
                end
      end
  | None => None
  end.

Definition text_prop (r : record) (k : string) : string :=
  match prop_of r k with VStr s => s | _ => "" end.

Definition network_codes : list string := ["ECONNREFUSED"; "ETIMEDOUT"; "ENOTFOUND"].

Definition isTransientError (err : jsval) : bool :=
  match extractStatusCode err with
  | Some status => js_le (VNum 500) status
  | None =>
      match as_object (Some err) with
      | Some e =>
          existsb (fun c => bool_decide (text_prop e "code" = c)) network_codes ||
          existsb (fun c => includes c (text_prop e "message")) network_codes
      | None => false
      end
  end.

Definition isAuthError (err : jsval) : bool :=
  match extractStatusCode err with
  | Some status => bool_decide (status = VNum 401) || bool_decide (status = VNum 403)
  | None => false
  end.

(** An exception as the error object it is. *)
Definition error_object (e : exn) : jsval := VObj [("message", VStr (exn_message e))].

(** [/ee/i.test(revision)] *)
Definition parseEdition `{Platform} (revision : jsval) : string :=
  if includes "ee" (to_lower (js_String revision)) then "ee" else "ce".

Section Adapter.
Context {P : Platform} `{Sha256} `{NodeUrl} {W : Type} `{Http W} `{GraphQL W}.
Abbreviation AS := (Adapter W).
Abbreviation MA := (M (Adapter W)).
Context (allowedRaw : option string) (client : GitLabClient).

Definition on_client {A} (m : M (ClientState W) A) : MA A :=
  zoom ad_client (fun c s => MkAdapter c (ad_graphql s) (ad_detected s)) m.
Definition set_graphql (m : jsmap string CapabilityCacheEntry) (s : AS) : AS :=
  MkAdapter (ad_client s) m (ad_detected s).
Definition set_detected (m : jsmap string DetectedEntry) (s : AS) : AS :=
  MkAdapter (ad_client s) (ad_graphql s) m.

Definition adapter_now : MA Z := on_client client_now.
Definition adapter_count (name : string) : MA unit := on_client (client_count name).

(** [new GitLabClient(opts)] *)
Definition new_GitLabClient (baseUrl token : string) : res GitLabClient :=
  let? _ := validateGitLabBaseUrl allowedRaw baseUrl in
  Ok (MkGitLabClient (strip_trailing_slash baseUrl) token).

(** Its state: the world and the counters are not its own. *)
Definition fresh_client (s : AS) : AS :=
  let c := ad_client s in
  MkAdapter (MkClientState (cl_world c) (cl_readings c) None [] [] (cl_metrics c)) (ad_graphql s) (ad_detected s).

(** ** src/adapter/gitlab-graphql-client.ts *)

(** [new GitLabGraphQLClient({ baseUrl, token }).query(query, variables)] *)
Definition graphql_query (baseUrl token : string) (query : Query) (vars : record) : MA (jsval + jsval) :=
  match validateGitLabBaseUrl allowedRaw baseUrl with
  | Throw e => ret (inl (error_object e))
  | Ok _ =>
      on_client (on_world (graphql_request (strip_trailing_slash baseUrl +:+ "/api/graphql")
                             [("Authorization", "Bearer " +:+ token)] query vars))
  end.

Definition detectGraphQLCapability (baseUrl token : string) : MA bool :=
  let key := strip_trailing_slash baseUrl in
  let probe :=
    let! answer := graphql_query baseUrl token CURRENT_USER [] in
    match answer with
    | inr _ =>
        let! now := adapter_now in
        modify (fun s => set_graphql
          (jset key (MkCapabilityEntry true now CAPABILITY_POSITIVE_TTL_MS) (ad_graphql s)) s) ;;!
        ret true
    | inl err =>
        if isAuthError err then ret false
        else
          let ttlMs := if isTransientError err then CAPABILITY_NEGATIVE_TTL_MS
                       else CAPABILITY_POSITIVE_TTL_MS in
          let! now := adapter_now in
          modify (fun s => set_graphql (jset key (MkCapabilityEntry false now ttlMs) (ad_graphql s)) s) ;;!
          ret false
    end in
  let! cached := gets (fun s => jget key (ad_graphql s)) in
  match cached with
  | None => probe
  | Some e =>
      let! now := adapter_now in
      if (now - cc_cachedAt e <? cc_ttlMs e)%Z then
        (if negb (cc_available e) then adapter_count GRAPHQL_CAPABILITY_NEGATIVE_CACHE_HIT else ret tt) ;;!
        ret (cc_available e)
      else probe
  end.

Definition invalidateGraphQLCapability (baseUrl : option string) : MA unit :=
  modify (fun s => match baseUrl with
                   | None => set_graphql [] s
                   | Some u => set_graphql (jdelete (strip_trailing_slash u) (ad_graphql s)) s
                   end).

Definition getGraphQLCapabilityCacheSize (s : AS) : nat := jsize (ad_graphql s).

(** ** src/adapter/capabilities.ts *)

(** [client.graphql(query)]: [inl] when it throws. *)
Definition client_graphql (query : Query) (vars : record) : MA (jsval + jsval) :=
  let! caps := gets (fun s => cl_capabilities (ad_client s)) in
  if match caps with Some c => negb (cap_graphqlAvailable c) | None => false end
  then ret (inl (error_object (GitLabApiError 0 "GraphQL is not available on this GitLab instance")))
  else
    on_client (on_world (graphql_request (gc_baseUrl client +:+ "/api/graphql")
                           [("PRIVATE-TOKEN", gc_token client)] query vars)).

Definition cacheKey (baseUrl token : string) : string := sha256_hex (join_colon baseUrl token).

Definition detectCapabilities : MA Capabilities :=
  let key := cacheKey (gc_baseUrl client) (gc_token client) in
  let detect :=
    let! versionData := on_client (getVersion client) in
    let! revision := get_prop versionData "revision" in
    let edition := parseEdition revision in
    let! ping := client_graphql GRAPHQL_INTROSPECTION_PING [] in
    let graphqlAvailable := match ping with inr _ => true | inl _ => false end in
    let! version := get_prop versionData "version" in
    let capabilities := MkCapabilities version edition graphqlAvailable in
    on_client (modify (set_capabilities capabilities)) ;;!
    let! now := adapter_now in
    modify (fun s => set_detected (jset key (MkDetected capabilities (now + TTL_MS)) (ad_detected s)) s) ;;!
    ret capabilities in
  let! cached := gets (fun s => jget key (ad_detected s)) in
  match cached with
  | None => detect
  | Some e =>
      let! now := adapter_now in
      if (now <? de_expiresAt e)%Z then ret (de_capabilities e) else detect
  end.

Definition clearCapabilityCache : MA unit := modify (set_detected []).

(** ** The methods that prefer GraphQL *)

(** A query when the capability is there; [None] without it, or when the query
    or the use of its data fails, except as [rethrow] says. *)
Definition by_graphql {A} (query : Query) (vars : res record) (rethrow : exn -> bool)
    (use : jsval -> res A) : MA (option A) :=
  let! available := detectGraphQLCapability (gc_baseUrl client) (gc_token client) in
  if (available : bool) then
    match vars with
    | Throw _ => ret None
    | Ok vars =>
        let! answer := graphql_query (gc_baseUrl client) (gc_token client) query vars in
        match answer with
        | inl _ => ret None
        | inr data =>
            match use data with
            | Ok a => ret (Some a)
            | Throw e => if rethrow e then throw e else ret None
            end
        end
    end
  else ret None.

Definition is_confidential_mr (e : exn) : bool :=
  match e with ConfidentialMergeRequestError _ => true | _ => false end.

(** [mr.projectId = typeof mr.projectId === 'number' && mr.projectId > 0 ? mr.projectId : 0] *)
Definition known_project (mr : record) : record :=
  jset "projectId" (match prop_of mr "projectId" with
                    | VNum n => if (0 <? n)%Z then VNum n else VNum 0
                    | _ => VNum 0
                    end) mr.

Definition client_getMergeRequest (pid iid : jsval) : MA record :=
  match pid with
  | VStr path =>
      let! mr := by_graphql GRAPHQL_MR_COMPOSITE_QUERY
        (Ok [("projectFullPath", VStr path); ("mrIid", VStr (js_String iid))]) is_confidential_mr
        mapGraphQLMRResponse in
      match mr with
      | Some mr =>
          adapter_count MR_COMPOSITE_GRAPHQL_HIT ;;!
          adapter_count MR_COMPOSITE_GRAPHQL_HIT_PATH_KNOWN ;;!
          ret (known_project mr)
      | None =>
          adapter_count MR_COMPOSITE_REST_FALLBACK ;;!
          on_client (getMergeRequestREST client pid iid)
      end
  | _ => on_client (getMergeRequestREST client pid iid)
  end.

(** [vars.updatedAfter = opts.updatedAfter.toISOString()] *)
Definition listing_vars (key path : string) (since : option jsdate) : res record :=
  match since with
  | None => Ok [(key, VStr path)]
  | Some (Some t) => Ok [(key, VStr path); ("updatedAfter", VStr (toISOString t))]
  | Some None => Throw (JsError "RangeError")
  end.

(** [data.a?.b?.nodes ?? []], as what a loop visits. *)
Definition response_nodes (a b : string) (data : jsval) : res (list jsval) :=
  let? owner := res_prop data a in
  let? listing := opt_prop owner b in
  let? nodes := opt_prop listing "nodes" in
  res_elements (js_coalesce nodes (VArr [])).

(** The rest of the REST fallback: each listed merge request is fetched. *)
Fixpoint fetch_each (pid : jsval) (base : list record) : MA (list record) :=
  match base with
  | [] => ret []
  | mr :: rest =>
      let! fetched := try_catch
        (let! m := client_getMergeRequest pid (prop_of mr "iid") in ret (Some m))
        (fun e => if is_confidential_mr e then ret None else throw e) in
      let! others := fetch_each pid rest in
      ret (match fetched with Some m => m :: others | None => others end)
  end.

Definition listMergeRequestsWithApprovals (fuel : nat) (pid : jsval) (since : option jsdate)
    : MA (option (list record)) :=
  let! found :=
    match pid with
    | VStr path =>
        by_graphql GRAPHQL_MR_LIST_WITH_APPROVALS_QUERY (listing_vars "projectFullPath" path since)
          (fun _ => false)
          (fun data =>
             let? nodes := response_nodes "project" "mergeRequests" data in
             keep_open truthy mapGraphQLMRListNode nodes)
    | _ => ret None
    end in
  match found with
  | Some out => adapter_count MR_LIST_GRAPHQL_HIT ;;! ret (Some out)
  | None =>
      adapter_count MR_LIST_REST_FALLBACK ;;!
      let! base := on_client (client_listMergeRequests client fuel pid since) in
      match base with
      | None => ret None
      | Some base => let! enriched := fetch_each pid base in ret (Some enriched)
      end
  end.

(** [{ ...epic, childIssueIids: children.iids }] for each listed epic. *)
Fixpoint add_children (fuel : nat) (gid : jsval) (base : list record) : MA (option (list record)) :=
  match base with
  | [] => ret (Some [])
  | epic :: rest =>
      let! children := on_client (client_listEpicIssues client fuel gid (prop_of epic "iid")) in
      match children with
      | None => ret None
      | Some children =>
          let! others := add_children fuel gid rest in
          ret (option_map (cons (jset "childIssueIids" (VArr (map fst children)) epic)) others)
      end
  end.

Definition listEpicsWithChildren (fuel : nat) (gid : jsval) (since : option jsdate) : MA (option (list record)) :=
  let! ee := on_client ensureEE in
  if negb ee then ret (Some [])
  else
    let! found :=
      match gid with
      | VStr path =>
          by_graphql GRAPHQL_EPICS_WITH_CHILDREN_QUERY (listing_vars "groupFullPath" path since) (fun _ => false)
            (fun data =>
               let? nodes := response_nodes "group" "epics" data in
               keep_open is_true mapGraphQLEpicNode nodes)
      | _ => ret None
      end in
    match found with
    | Some out => adapter_count EPICS_LIST_GRAPHQL_HIT ;;! ret (Some out)
    | None =>
        adapter_count EPICS_LIST_REST_FALLBACK ;;!
        let! base := on_client (client_listEpics client fuel gid since) in
        match base with
        | None => ret None
        | Some base => add_children fuel gid base
        end
    end.
End Adapter.

(** * What the detection of capabilities does

    The caches of both probes, the client that finds an answer in one, and
    what comes back through GraphQL. *)

Section Detection.
Context {P : Platform} `{Sha256} `{NodeUrl} {W : Type} `{Http W} `{GraphQL W}.
Context (allowedRaw : option string) (client : GitLabClient).
Implicit Types s : Adapter W.

(** The clock at a state. *)
Definition now_at s : Z := clock (cl_readings (ad_client s)).

Definition tick s : Adapter W := MkAdapter (tick_clock (ad_client s)) (ad_graphql s) (ad_detected s).

Lemma adapter_now_run s : adapter_now s = (Ok (now_at s), tick s).
Proof. done. Qed.

(** ** The capabilities of a client *)

(** The module-level cache answers for this client at a state. *)
Definition detected s (caps : Capabilities) : Prop :=
  exists e, jget (cacheKey (gc_baseUrl client) (gc_token client)) (ad_detected s) = Some e /\
    de_capabilities e = caps /\ (now_at s < de_expiresAt e)%Z.

Lemma detect_cached caps s :
  detected s caps -> detectCapabilities client s = (Ok caps, tick s).
Proof.
  intros (e & He & <- & Ht). unfold detectCapabilities, bind, gets. rewrite He, adapter_now_run.
  by destruct (Z.ltb_spec (now_at s) (de_expiresAt e)); [|lia].
Qed.

(** A detection that succeeds fills the cache for an hour. *)
Lemma detect_fills caps s s' :
  jget (cacheKey (gc_baseUrl client) (gc_token client)) (ad_detected s) = None ->
  detectCapabilities client s = (Ok caps, s') ->
  cl_capabilities (ad_client s') = Some caps /\
  exists t, (clock t + TTL_MS = clock t + 60 * 60 * 1000)%Z /\
    jget (cacheKey (gc_baseUrl client) (gc_token client)) (ad_detected s') =
    Some (MkDetected caps (clock t + TTL_MS)) /\ cl_readings (ad_client s') = S t.
Proof.
  intros Hc. unfold detectCapabilities. unfold bind at 1, gets. rewrite Hc.
  intros (v & s1 & _ & Hd)%bind_inv_ok. apply bind_inv_ok in Hd as (r & s2 & _ & Hd).
  apply bind_inv_ok in Hd as (ping & s3 & _ & Hd). apply bind_inv_ok in Hd as (version & s4 & _ & Hd).
  apply bind_inv_ok in Hd as ([] & s5 & Hset & Hd). injection Hset as <-.
  apply bind_inv_ok in Hd as (now & s6 & Hnow & Hd). injection Hnow as <- <-.
  apply bind_inv_ok in Hd as ([] & s7 & Hmod & Hd). injection Hmod as <-. injection Hd as <- <-.
  cbn. split; [done|]. eexists. split; [reflexivity|]. by rewrite jget_set_eq.
Qed.

(** The capabilities are set on the client only when they are probed: once
    some client with the same address and token has detected an enterprise
    edition, the next client created within the hour is given the cached
    answer but keeps no capabilities itself, so that its enterprise
    methods return nothing, without a request. *)
Theorem second_client_blind caps s s1 later pid iid gid :
  jget (cacheKey (gc_baseUrl client) (gc_token client)) (ad_detected s) = None ->
  detectCapabilities client s = (Ok caps, s1) ->
  ad_detected later = ad_detected s1 ->
  (now_at later < clock (pred (cl_readings (ad_client s1))) + 60 * 60 * 1000)%Z ->
  let s2 := tick (fresh_client later) in
  detectCapabilities client (fresh_client later) = (Ok caps, s2) /\
  cl_capabilities (ad_client s2) = None /\
  getMRApprovalRules client pid iid (ad_client s2) = (Ok [], ad_client s2) /\
  client_listEpics client 1 gid None (ad_client s2) = (Ok (Some []), ad_client s2) /\
  listIterations client 1 gid None (ad_client s2) = (Ok (Some []), ad_client s2).
Proof.
  intros Hc Hd Hl Ht s2. destruct (detect_fills _ _ _ Hc Hd) as (_ & t & _ & Hget & Hr).
  split; [|done]. apply detect_cached. exists (MkDetected caps (clock t + TTL_MS)). cbn. rewrite Hl.
  split; [done|]. split; [done|]. rewrite Hr in Ht. exact Ht.
Qed.

(** ** The cache of the GraphQL probe *)

Lemma probe_cached baseUrl token e s :
  jget (strip_trailing_slash baseUrl) (ad_graphql s) = Some e -> (now_at s - cc_cachedAt e < cc_ttlMs e)%Z ->
  detectGraphQLCapability allowedRaw baseUrl token s =
  (Ok (cc_available e),
   if cc_available e then tick s
   else (adapter_count GRAPHQL_CAPABILITY_NEGATIVE_CACHE_HIT (tick s)).2).
Proof.
  intros He Ht. unfold detectGraphQLCapability. unfold bind at 1, gets. rewrite He.
  rewrite (bind_ok _ _ _ _ _ (adapter_now_run s)).
  destruct (Z.ltb_spec (now_at s - cc_cachedAt e) (cc_ttlMs e)); [|lia]. by destruct (cc_available e).
Qed.

(** The probe's cached answer for this long after an error. *)
Definition negative_ttl (err : jsval) : Z :=
  if isTransientError err then 5 * 60 * 1000 else 60 * 60 * 1000.

(** A probe that is not cached and fails answers false; an authentication
    error is not remembered, a server or network failure is for five minutes
    and any other for an hour, during which the probe is not repeated and a
    counter tells of each answer from the cache. *)
Theorem failed_probe_cached baseUrl token err s s1 :
  jget (strip_trailing_slash baseUrl) (ad_graphql s) = None ->
  graphql_query allowedRaw baseUrl token CURRENT_USER [] s = (Ok (inl err), s1) ->
  exists s2, detectGraphQLCapability allowedRaw baseUrl token s = (Ok false, s2) /\
    (isAuthError err = true -> s2 = s1) /\
    (isAuthError err = false -> forall later, ad_graphql later = ad_graphql s2 ->
      let answer := detectGraphQLCapability allowedRaw baseUrl token later in
      (now_at later < now_at s1 + negative_ttl err)%Z ->
      answer.1 = Ok false /\ cl_world (ad_client answer.2) = cl_world (ad_client later) /\
      metric GRAPHQL_CAPABILITY_NEGATIVE_CACHE_HIT (cl_metrics (ad_client answer.2)) =
      (metric GRAPHQL_CAPABILITY_NEGATIVE_CACHE_HIT (cl_metrics (ad_client later)) + 1)%Z).
Proof.
  intros Hc Hq. unfold detectGraphQLCapability at 1. unfold bind at 1, gets. rewrite Hc.
  rewrite (bind_ok _ _ _ _ _ Hq). destruct (isAuthError err) eqn:Ea.
  - exists s1. split; [done|]. by split.
  - eexists. split; [reflexivity|]. split; [done|]. intros _ later Hl Ht.
    erewrite probe_cached; [| rewrite Hl; apply jget_set_eq |].
    + cbn [cc_available fst snd]. split_and!; try done. apply metric_increment_eq.
    + cbn [cc_cachedAt cc_ttlMs]. fold (now_at s1). unfold negative_ttl in Ht.
      unfold CAPABILITY_NEGATIVE_TTL_MS, CAPABILITY_POSITIVE_TTL_MS. destruct (isTransientError err); lia.
Qed.

(** ** Merge requests through GraphQL *)

Lemma payload_fields mr r :
  mapGraphQLPayload mr = Ok r ->
  prop_of r "projectId" = VNum 0 /\ prop_of r "confidential" = prop_of mr "confidential".
Proof.
  unfold mapGraphQLPayload. cbv zeta. intros Hm. res_steps Hm. injection Hm as <-. by split.
Qed.

Lemma response_fields data r :
  mapGraphQLMRResponse data = Ok r ->
  prop_of r "projectId" = VNum 0 /\ truthy (prop_of r "confidential") = false.
Proof.
  unfold mapGraphQLMRResponse. intros Hm.
  destruct (res_prop data "project") as [project|]; cbn [res_bind] in Hm; [|done].
  destruct (opt_prop project "mergeRequest") as [mr|]; cbn [res_bind] in Hm; [|done].
  destruct (is_nullish mr); [done|]. destruct (fields_of mr) as [fields|]; cbn [res_bind] in Hm; [|done].
  destruct (truthy (prop_of fields "confidential")) eqn:Hc; [done|].
  destruct (payload_fields _ _ Hm) as [Hp Hf]. by rewrite Hf.
Qed.

(** What the composite query makes of the instance's answer. *)
Definition composite_of (answer : jsval + jsval) : res record :=
  match answer with inl err => Throw (JsError "GraphQL") | inr data => mapGraphQLMRResponse data end.

(** With a project path and a probe that says GraphQL is there, one query
    decides: its merge request is returned - never confidential, and with
    project id 0, whatever the project - a confidential one is an error, and
    after any other failure the REST composite is the result. *)
Theorem composite_by_path path iid e answer s s1 :
  jget (strip_trailing_slash (gc_baseUrl client)) (ad_graphql s) = Some e -> cc_available e = true ->
  (now_at s - cc_cachedAt e < cc_ttlMs e)%Z ->
  graphql_query allowedRaw (gc_baseUrl client) (gc_token client) GRAPHQL_MR_COMPOSITE_QUERY
    [("projectFullPath", VStr path); ("mrIid", VStr (js_String iid))] (tick s) = (Ok answer, s1) ->
  match composite_of answer with
  | Ok mr => exists s2, client_getMergeRequest allowedRaw client (VStr path) iid s = (Ok (known_project mr), s2) /\
      prop_of (known_project mr) "projectId" = VNum 0 /\
      truthy (prop_of (known_project mr) "confidential") = false
  | Throw (ConfidentialMergeRequestError n) =>
      client_getMergeRequest allowedRaw client (VStr path) iid s = (Throw (ConfidentialMergeRequestError n), s1)
  | Throw _ =>
      client_getMergeRequest allowedRaw client (VStr path) iid s =
      on_client (getMergeRequestREST client (VStr path) iid) (adapter_count MR_COMPOSITE_REST_FALLBACK s1).2
  end.
Proof.
  intros He Ha Ht Hq. pose proof (probe_cached _ (gc_token client) _ _ He Ht) as Hd. rewrite Ha in Hd.
  remember (client_getMergeRequest allowedRaw client (VStr path) iid s) as run eqn:Hrun.
  cbn [client_getMergeRequest] in Hrun. unfold by_graphql in Hrun. unfold bind at 1 in Hrun.
  rewrite (bind_ok _ _ _ _ _ Hd), (bind_ok _ _ _ _ _ Hq) in Hrun. subst run.
  destruct answer as [err|data]; cbn [composite_of]; [reflexivity|].
  destruct (mapGraphQLMRResponse data) as [mr|x] eqn:Em; [|by destruct x].
  destruct (response_fields _ _ Em) as [Hp Hc]. eexists. split; [reflexivity|].
  unfold known_project, prop_of. rewrite jget_set_eq, jget_set_ne by done.
  fold (prop_of mr "projectId"). rewrite Hp. by split.
Qed.
End Detection.

(** ** Concrete instances *)

Definition toy_answer : jsval + jsval :=
  inr (VObj [("project", VObj [("mergeRequest",
    VObj [("iid", VStr "3"); ("state", VStr "opened"); ("mergeStatus", VStr "CAN_BE_MERGED");
          ("author", VObj []); ("webUrl", VStr "/u"); ("confidential", VBool false)])])]).

(** A server that also answers the queries: none but the introspection. *)
#[export] Instance toy_graphql : GraphQL Server := {
  graphql_request := fun _ _ query _ w =>
    (Ok (match query with
         | GRAPHQL_INTROSPECTION_PING => inr VNull
         | GRAPHQL_MR_COMPOSITE_QUERY => toy_answer
         | _ => inl (VObj [("response", VObj [("status", VNum 503)])])
         end), w)
}.

Definition toy_base : string := "https://git.example.org".
Definition toy_gl : GitLabClient := MkGitLabClient toy_base "instance-token".

Definition toy_adapter (probe : jsmap string CapabilityCacheEntry) : Adapter Server :=
  MkAdapter (MkClientState (MkServer [(toy_base +:+ "/api/v4/version",
      Holds (VObj [("version", VStr "17.0"); ("revision", VStr "1234-ee")]))] []) 0 None [] [] []) probe [].

Lemma second_client_blind_witness :
  let detection := detectCapabilities toy_gl (toy_adapter []) in
  detection.1 = Ok (MkCapabilities (VStr "17.0") "ee" true) /\
  cl_capabilities (ad_client detection.2) = Some (MkCapabilities (VStr "17.0") "ee" true) /\
  (detectCapabilities toy_gl (fresh_client detection.2)).1 = Ok (MkCapabilities (VStr "17.0") "ee" true) /\
  cl_capabilities (ad_client (detectCapabilities toy_gl (fresh_client detection.2)).2) = None.
Proof.
  intros detection. split; [vm_compute; reflexivity|]. split; [vm_compute; reflexivity|].
  destruct (second_client_blind (H1 := toy_http) (H2 := toy_graphql) toy_gl (MkCapabilities (VStr "17.0") "ee" true)
              (toy_adapter []) detection.2 detection.2 (VNum 7) (VNum 3) (VNum 5)) as (E & Hcaps & _).
  - reflexivity.
  - vm_compute. reflexivity.
  - reflexivity.
  - vm_compute. reflexivity.
  - rewrite E. split; [reflexivity | exact Hcaps].
Defined.

Lemma failed_probe_cached_witness :
  exists s2, detectGraphQLCapability None "https://git.example.org" "t" (toy_adapter []) = (Ok false, s2).
Proof.
  destruct (failed_probe_cached (H2 := toy_graphql) None "https://git.example.org" "t"
              (VObj [("message", VStr "gitlabBaseUrl host not in allowlist: git.example.org")])
              (toy_adapter []) (toy_adapter [])) as (s2 & E & _).
  - reflexivity.
  - vm_compute. reflexivity.
  - exists s2. exact E.
Defined.

Lemma composite_by_path_witness :
  exists mr s2, client_getMergeRequest (Some "git.example.org") toy_gl (VStr "group/project") (VNum 3)
    (toy_adapter [(toy_base, MkCapabilityEntry true 0 3600000)]) = (Ok mr, s2) /\
    prop_of mr "projectId" = VNum 0 /\ prop_of mr "iid" = VNum 3.
Proof.
  pose proof (composite_by_path (H1 := toy_http) (H2 := toy_graphql) (Some "git.example.org") toy_gl
    "group/project" (VNum 3) (MkCapabilityEntry true 0 3600000) toy_answer
    (toy_adapter [(toy_base, MkCapabilityEntry true 0 3600000)])
    (tick (toy_adapter [(toy_base, MkCapabilityEntry true 0 3600000)]))
    ltac:(vm_compute; reflexivity) eq_refl ltac:(vm_compute; reflexivity) ltac:(vm_compute; reflexivity)) as Hc.
  destruct (composite_of toy_answer) as [mr|x] eqn:Em; [|vm_compute in Em; discriminate].
  destruct Hc as (s2 & E & Hp & _). exists (known_project mr), s2. split; [exact E|]. split; [exact Hp|].
  vm_compute in Em. injection Em as <-. reflexivity.
Defined.
