(* ===== verification/Lifecycle.v ===== *)
(** * Webhooks of a binding

    src/sync/binding-lifecycle.ts with the helpers of src/adapter/webhooks.ts
    and src/adapter/webhook-payload.ts, and the client factory src/index.ts
    gives the service.  A [GitLabClient] object is an address, a token and the
    capabilities it holds; the state has the store, the credentials and the
    network with its counters.  Logging is not modelled. *)

From S2P Require Import Prelude JsMap JsString JsVal Metrics Platform Conflict Mongo Store Credentials Sync.
From S2P Require Import RateLimit BaseUrl GitLabMaps GitLabClient.
Open Scope nat_scope.
Open Scope string_scope.
Open Scope list_scope.

(** ** src/adapter/webhook-payload.ts *)

Definition EVENT_FLAGS : list string :=
  ["push_events"; "issues_events"; "note_events"; "merge_requests_events"; "tag_push_events";
   "pipeline_events"; "wiki_page_events"; "deployment_events"; "releases_events"; "job_events";
   "member_events"; "subgroup_events"; "epic_events"].

Definition buildWebhookPayload (url token : string) (eventFlags : record) : record :=
  [("url", VStr url); ("token", VStr token)] ++
  map (fun k => (k, js_coalesce (prop_of eventFlags k) (VBool false))) EVENT_FLAGS ++
  [("confidential_issues_events", VBool false); ("confidential_note_events", VBool false);
   ("confidential_epic_events", VBool false)].

(** ** The state *)

Record LifeState (Coll : Type -> Type) (W : Type) := MkLifeState {
  lc_store : Store Coll;
  lc_creds : Creds Coll;
  lc_world : W;
  lc_readings : nat;
  lc_metrics : counters
}.
Arguments MkLifeState {Coll W}.
Arguments lc_store {Coll W}.
Arguments lc_creds {Coll W}.
Arguments lc_world {Coll W}.
Arguments lc_readings {Coll W}.
Arguments lc_metrics {Coll W}.

Definition PHASE2_EVENT_FLAGS : record :=
  [("issues_events", VBool true); ("note_events", VBool true); ("merge_requests_events", VBool true);
   ("pipeline_events", VBool true)].

(** A client object. *)
Definition Client : Type := GitLabClient * option Capabilities.

(** [{ webhookRegistered, webhookId, reason }] *)
Record WebhookResult := MkWebhookResult {
  wr_webhookRegistered : bool;
  wr_webhookId : option Z;
  wr_reason : option string
}.

Definition not_registered (reason : string) : WebhookResult := MkWebhookResult false None (Some reason).

(** The reason when [err] is a [GitLabApiError] with a status of the 400s. *)
Definition client_error (e : exn) : option string :=
  match e with
  | GitLabApiError statusCode message =>
      if ((400 <=? statusCode) && (statusCode <? 500))%Z
      then Some ("GitLab " +:+ num_to_string statusCode +:+ ": " +:+ message)
      else None
  | _ => None
  end.

(** [hook.id], a number. *)
Definition hook_id (hook : record) : option Z := as_number (Some (prop_of hook "id")).

Section Lifecycle.
Context {Coll : Type -> Type} `{Mongo Coll} {P : Platform} {C : Cipher} {W : Type} `{Http W}.
Abbreviation LS := (LifeState Coll W).
Abbreviation ML := (M (LifeState Coll W)).

Definition on_store {A} : M (Store Coll) A -> ML A :=
  zoom lc_store (fun t s => MkLifeState t (lc_creds s) (lc_world s) (lc_readings s) (lc_metrics s)).
Definition on_creds {A} : M (Creds Coll) A -> ML A :=
  zoom lc_creds (fun t s => MkLifeState (lc_store s) t (lc_world s) (lc_readings s) (lc_metrics s)).

(** A call on a client object; its caches are not used by these calls. *)
Definition with_client {A} (c : Client) (m : M (ClientState W) A) : ML A := fun s =>
  let '(r, t) := m (MkClientState (lc_world s) (lc_readings s) c.2 [] [] (lc_metrics s)) in
  (r, MkLifeState (lc_store s) (lc_creds s) (cl_world t) (cl_readings t) (cl_metrics t)).

(** ** src/adapter/webhooks.ts *)

Definition registerProjectWebhook (c : Client) (projectId : Z) (url token : string) (eventFlags : record)
    : ML record :=
  with_client c (createProjectWebhook c.1 (VNum projectId) (buildWebhookPayload url token eventFlags)).

Definition deregisterProjectWebhook (c : Client) (projectId webhookId : Z) : ML unit :=
  with_client c (deleteProjectWebhook c.1 (VNum projectId) webhookId).

Definition updateProjectWebhookEventFlags (c : Client) (projectId webhookId : Z) (url token : string)
    (eventFlags : record) : ML record :=
  with_client c (updateProjectWebhook c.1 (VNum projectId) webhookId (buildWebhookPayload url token eventFlags)).

(** ** The service *)

Context (encryptionKey : string) (gitlabClientFactory : string -> ML Client).

(** [client.capabilities?.edition === 'ee'] adds the events of epics. *)
Definition event_flags (c : Client) : record :=
  match c.2 with
  | Some caps => if bool_decide (cap_edition caps = "ee") then jset "epic_events" (VBool true) PHASE2_EVENT_FLAGS
                 else PHASE2_EVENT_FLAGS
  | None => PHASE2_EVENT_FLAGS
  end.

(** The client, or the message of the failure. *)
Definition build_client (credentialRef : string) : ML (string + Client) :=
  try_catch (let! c := gitlabClientFactory credentialRef in ret (inr c)) (fun e => ret (inl (exn_message e))).

Definition webhook_url (publicBaseUrl bindingId : string) : string :=
  publicBaseUrl +:+ "/webhook/" +:+ bindingId.

Definition mark_registered (bindingId : string) (hook : record) : ML unit :=
  on_store (updateBinding bindingId (MkBindingUpdate (hook_id hook) (Some true) None None)).

Definition mark_unregistered (bindingId : string) : ML unit :=
  on_store (updateBinding bindingId (MkBindingUpdate None (Some false) None None)).

Definition onBindingCreate (binding : BindingDoc) (publicBaseUrl : string) : ML WebhookResult :=
  let bindingId := bd_id binding in
  let! secretCred := on_creds (getCredential encryptionKey (bd_webhookSecretRef binding)) in
  match secretCred with
  | None => ret (not_registered "webhook secret credential not found")
  | Some secret =>
      let! client := build_client (bd_credentialRef binding) in
      match client with
      | inl reason => ret (not_registered reason)
      | inr c =>
          try_catch
            (let! hook := registerProjectWebhook c (bd_gitlabProjectId binding)
                            (webhook_url publicBaseUrl bindingId) (cr_plaintext secret) (event_flags c) in
             mark_registered bindingId hook ;;!
             ret (MkWebhookResult true (hook_id hook) None))
            (fun e =>
               match client_error e with
               | Some reason => mark_unregistered bindingId ;;! ret (not_registered reason)
               | None => throw e
               end)
      end
  end.

(** [$set: { webhookRegistered: false }, $unset: { webhookId: '' }] *)
Definition unset_webhook (d : BindingDoc) : BindingDoc :=
  MkBindingDoc (bd_id d) (bd_workspaceUuid d) (bd_hulyProjectRef d) (bd_gitlabProjectId d)
    (bd_gitlabProjectPath d) (bd_credentialRef d) (bd_webhookSecretRef d) None false (bd_createdAt d)
    (bd_disabled d).

Definition forget_webhook (bindingId : string) : ML unit :=
  on_store (with_object_id bindingId (fun oid s =>
    dup_key_or (updateOne (fun d => bool_decide (bd_id d = oid)) unset_webhook (bindings s))
      (fun c => modify (set_bindings c)) s)).

Definition rotateWebhookSecret (binding : BindingDoc) (newSecret publicBaseUrl : string) : ML WebhookResult :=
  let bindingId := bd_id binding in
  match bd_webhookId binding with
  | None => ret (MkWebhookResult false None None)
  | Some webhookId =>
      let! client := build_client (bd_credentialRef binding) in
      match client with
      | inl reason => ret (not_registered reason)
      | inr c =>
          try_catch (deregisterProjectWebhook c (bd_gitlabProjectId binding) webhookId) (fun _ => ret tt) ;;!
          try_catch
            (let! hook := registerProjectWebhook c (bd_gitlabProjectId binding)
                            (webhook_url publicBaseUrl bindingId) newSecret (event_flags c) in
             mark_registered bindingId hook ;;!
             ret (MkWebhookResult true None None))
            (fun e =>
               match client_error e with
               | Some reason => forget_webhook bindingId ;;! ret (not_registered reason)
               | None => throw e
               end)
      end
  end.

Definition reRegisterWebhook (binding : BindingDoc) (publicBaseUrl : string) : ML WebhookResult :=
  let bindingId := bd_id binding in
  match bd_webhookId binding with
  | None =>
      if bd_webhookRegistered binding then ret (MkWebhookResult true None None)
      else onBindingCreate binding publicBaseUrl
  | Some webhookId =>
      let! secretCred := on_creds (getCredential encryptionKey (bd_webhookSecretRef binding)) in
      match secretCred with
      | None => ret (not_registered "webhook secret credential not found")
      | Some secret =>
          let! client := build_client (bd_credentialRef binding) in
          match client with
          | inl reason => ret (not_registered reason)
          | inr c =>
              try_catch
                (let! hook := updateProjectWebhookEventFlags c (bd_gitlabProjectId binding) webhookId
                                (webhook_url publicBaseUrl bindingId) (cr_plaintext secret) (event_flags c) in
                 mark_registered bindingId hook ;;!
                 ret (MkWebhookResult true (hook_id hook) None))
                (fun e =>
                   match client_error e with
                   | Some reason => mark_unregistered bindingId ;;! ret (not_registered reason)
                   | None => throw e
                   end)
          end
      end
  end.

Definition onBindingDelete (binding : BindingDoc) : ML unit :=
  match bd_webhookId binding with
  | None => ret tt
  | Some webhookId =>
      let! client := build_client (bd_credentialRef binding) in
      match client with
      | inl _ => ret tt
      | inr c =>
          try_catch (deregisterProjectWebhook c (bd_gitlabProjectId binding) webhookId) (fun _ => ret tt)
      end
  end.

(** ** The factory of src/index.ts

    [CredentialResolver.resolve] leaves the address of the credential out,
    so that the configured one is used. *)
Context `{NodeUrl} (allowedRaw : option string) (configBaseUrl : string).

Definition index_client_factory (credentialRef : string) : ML Client :=
  let! cred := on_creds (getCredential encryptionKey credentialRef) in
  match cred with
  | None => throw (JsError ("Credential not found: " +:+ credentialRef))
  | Some cred =>
      let! _ := lift_res (validateGitLabBaseUrl allowedRaw configBaseUrl) in
      ret (MkGitLabClient (strip_trailing_slash configBaseUrl) (cr_plaintext cred), None)
  end.
End Lifecycle.
