(* ===== verification/LifecycleProofs.v ===== *)
(** * What registering and rotating a webhook does

    The outcome of the lifecycle's calls by the status GitLab answers with. *)

From S2P Require Import Prelude JsMap JsString JsVal Metrics Platform Conflict Mongo Store Credentials Sync.
From S2P Require Import RateLimit BaseUrl GitLabMaps GitLabClient GitLabClientProofs Lifecycle.
Open Scope nat_scope.
Open Scope string_scope.
Open Scope list_scope.

(** ** The stored binding *)

Section Stored.
Context {Coll : Type -> Type} `{HL : MongoLaws Coll} {P : Platform}.

Definition binding_by_id (oid : string) (d : BindingDoc) : bool := bool_decide (bd_id d = oid).

(** A rewrite of a binding that keeps what the unique indexes are about. *)
Definition keeps_keys (f : BindingDoc -> BindingDoc) : Prop :=
  forall d, bd_id (f d) = bd_id d /\ bd_workspaceUuid (f d) = bd_workspaceUuid d /\
    bd_gitlabProjectId (f d) = bd_gitlabProjectId d.

(** Updating one does not fail, and changes only it. *)
Lemma rewrite_binding f oid d (c : Coll BindingDoc) :
  keeps_keys f -> index_ok (scan c) -> findOne (binding_by_id oid) c = Some d ->
  exists c', updateOne (binding_by_id oid) f c = Some c' /\ findOne (binding_by_id oid) c' = Some (f d).
Proof.
  intros Hk Hok Hf. pose proof Hf as Hp. rewrite findOne_scan in Hp. apply js_find_Some in Hp as [_ Hp].
  destruct (Hk d) as (E1 & E2 & E3).
  destruct (updateOne_rewrites (binding_by_id oid) f d c) as (c' & l1 & l2 & E & _); [|done..|].
  { intros x. cbn. unfold same_binding. by rewrite E1, E2, E3. }
  exists c'. split; [done|]. apply (updateOne_find_self _ _ _ _ _ E Hf). unfold binding_by_id in *. by rewrite E1.
Qed.

Lemma updateBinding_run id oid u d (st : Store Coll) :
  newObjectId id = Some oid -> index_ok (scan (bindings st)) -> findOne (binding_by_id oid) (bindings st) = Some d ->
  exists c', updateBinding id u st = (Ok tt, set_bindings c' st) /\
    findOne (binding_by_id oid) c' = Some (apply_binding_update u d).
Proof.
  intros Hi Hok Hf. destruct (rewrite_binding (apply_binding_update u) oid d (bindings st)) as (c' & E & Hc'); try done.
  exists c'. split; [|done]. unfold updateBinding, with_object_id. rewrite Hi.
  change (fun d0 => bool_decide (bd_id d0 = oid)) with (binding_by_id oid). by rewrite E.
Qed.
End Stored.

Section Hooks.
Context {Coll : Type -> Type} `{Mongo Coll} {P : Platform} {C : Cipher} {W : Type} `{Http W}.
Implicit Types (s : LifeState Coll W) (c : Client).

Definition set_life_world (w : W) s : LifeState Coll W :=
  MkLifeState (lc_store s) (lc_creds s) w (lc_readings s) (lc_metrics s).

(** A request of the service's client to an address of the project's hooks. *)
Definition hook_request (method path : string) c (body : option record) : HttpRequest :=
  MkHttpRequest method (gc_baseUrl c.1 +:+ path) []
    [("PRIVATE-TOKEN", gc_token c.1); ("Content-Type", "application/json")] body.

(** The statuses that [request] turns into another error than [GitLabApiError]. *)
Definition uncaught (status : Z) : Prop :=
  status = 401%Z \/ status = 403%Z \/ status = 404%Z \/ (500 <= status)%Z.

Lemma with_client_run {A} c (m : M (ClientState W) A) s r t :
  m (MkClientState (lc_world s) (lc_readings s) c.2 [] [] (lc_metrics s)) = (r, t) ->
  with_client c m s = (r, MkLifeState (lc_store s) (lc_creds s) (cl_world t) (cl_readings t) (cl_metrics t)).
Proof. intros E. unfold with_client. by rewrite E. Qed.

(** One request to the hooks, answered. *)
Lemma hook_request_run {A} c method path body (k : jsval -> M (ClientState W) A) s reply w :
  fetch (hook_request method path c body) (lc_world s) = (Ok reply, w) -> hp_status reply <> 429%Z ->
  with_client c (let! raw := request c.1 method path [] body None in k raw) s =
  with_client c (let! raw := request_body method path reply in k raw) (set_life_world w s).
Proof.
  intros Hf Hs. unfold with_client, bind. cbn [lc_world lc_readings lc_metrics set_life_world lc_store lc_creds].
  by rewrite (request_answer c.1 method path [] body None
                (MkClientState (lc_world s) (lc_readings s) c.2 [] [] (lc_metrics s)) reply w eq_refl Hf Hs).
Qed.

Lemma request_body_uncaught method path reply text :
  uncaught (hp_status reply) -> hp_text reply = Ok text ->
  exists e, (forall t : ClientState W, request_body method path reply t = (Throw e, t)) /\ client_error e = None.
Proof.
  intros Hu Ht. unfold request_body, auth_error, api_error, bind, lift_res. rewrite Ht.
  destruct (is_auth_status (hp_status reply)) eqn:Ea; [by eexists|].
  destruct (Z.eqb_spec (hp_status reply) 404); [by eexists|].
  unfold is_auth_status in Ea. reflect_bools.
  destruct (Z.leb_spec 400 (hp_status reply)); [|unfold uncaught in Hu; lia].
  eexists. split; [reflexivity|]. cbn [client_error].
  destruct (Z.ltb_spec (hp_status reply) 500); [unfold uncaught in Hu; lia|]. by rewrite andb_false_r.
Qed.

(** The hook created by an answer: its JSON is an object with that number. *)
Definition hook_answer (reply : HttpResponse) (hookId : Z) : Prop :=
  (hp_status reply < 400)%Z /\ hp_status reply <> 204%Z /\
  exists r, hp_json reply = Ok (VObj r) /\ prop_of r "id" = VNum hookId.

Lemma request_body_hook method path reply hookId :
  hook_answer reply hookId ->
  exists hook, (forall t : ClientState W,
      (let! raw := request_body method path reply in lift_res (mapWebhook raw)) t = (Ok hook, t)) /\
    hook_id hook = Some hookId.
Proof.
  intros (Hs & H204 & r & Hj & Hid). unfold request_body. unfold is_auth_status.
  destruct (Z.eqb_spec (hp_status reply) 401); [lia|]. destruct (Z.eqb_spec (hp_status reply) 403); [lia|].
  destruct (Z.eqb_spec (hp_status reply) 404); [lia|]. destruct (Z.leb_spec 400 (hp_status reply)); [lia|].
  destruct (Z.eqb_spec (hp_status reply) 204); [lia|]. cbn [orb].
  unfold bind, lift_res. rewrite Hj. eexists. split; [reflexivity|].
  unfold hook_id. cbn. by rewrite Hid.
Qed.

Lemma request_body_rejected method path reply text (t : ClientState W) :
  (400 <= hp_status reply < 500)%Z -> ~ uncaught (hp_status reply) -> hp_text reply = Ok text ->
  request_body method path reply t =
  (Throw (GitLabApiError (hp_status reply) ("GitLab API error " +:+ num_to_string (hp_status reply) +:+ ": " +:+ text)), t).
Proof.
  intros Hr Hu Ht. unfold uncaught in Hu. unfold request_body, is_auth_status, api_error, bind, lift_res.
  destruct (Z.eqb_spec (hp_status reply) 401); [lia|]. destruct (Z.eqb_spec (hp_status reply) 403); [lia|].
  destruct (Z.eqb_spec (hp_status reply) 404); [lia|]. destruct (Z.leb_spec 400 (hp_status reply)); [|lia].
  cbn [orb]. by rewrite Ht.
Qed.

Lemma client_error_status n message :
  (400 <= n < 500)%Z -> exists reason, client_error (GitLabApiError n message) = Some reason.
Proof.
  intros Hn. cbn [client_error]. destruct (Z.leb_spec 400 n); [|lia]. destruct (Z.ltb_spec n 500); [|lia]. by eexists.
Qed.
End Hooks.

(** ** Creating the webhook of a binding *)

Section Create.
Context {Coll : Type -> Type} `{HL : MongoLaws Coll} {P : Platform} {C : Cipher} {W : Type} `{Http W}.
Context (encryptionKey : string) (factory : string -> M (LifeState Coll W) Client).
Implicit Types (s : LifeState Coll W) (c : Client).

(** The request [onBindingCreate] makes. *)
Definition create_hook_request c (binding : BindingDoc) (publicBaseUrl secret : string) : HttpRequest :=
  hook_request "POST" (hooks_path (VNum (bd_gitlabProjectId binding))) c
    (Some (buildWebhookPayload (webhook_url publicBaseUrl (bd_id binding)) secret (event_flags c))).

(** The service has the secret and a client, and asks GitLab. *)
Record asks (binding : BindingDoc) (publicBaseUrl : string) s s2 (reply : HttpResponse) (w : W) : Prop := {
  ask_run : exists secret c s1,
    on_creds (getCredential encryptionKey (bd_webhookSecretRef binding)) s = (Ok (Some secret), s1) /\
    factory (bd_credentialRef binding) s1 = (Ok c, s2) /\
    fetch (create_hook_request c binding publicBaseUrl (cr_plaintext secret)) (lc_world s2) = (Ok reply, w);
  ask_once : hp_status reply <> 429%Z
}.

(** The binding is stored, under its unique indexes. *)
Definition stored s (oid : string) (d : BindingDoc) : Prop :=
  index_ok (scan (bindings (lc_store s))) /\ findOne (binding_by_id oid) (bindings (lc_store s)) = Some d.

Definition caught_hook (bindingId : string) (e : exn) : M (LifeState Coll W) WebhookResult :=
  match client_error e with
  | Some reason => mark_unregistered bindingId ;;! ret (not_registered reason)
  | None => throw e
  end.

Lemma create_run binding publicBaseUrl s s2 reply w :
  asks binding publicBaseUrl s s2 reply w ->
  exists c, onBindingCreate encryptionKey factory binding publicBaseUrl s =
    try_catch
      (let! hook := with_client c (let! raw := request_body "POST" (hooks_path (VNum (bd_gitlabProjectId binding))) reply in
                                   lift_res (mapWebhook raw)) in
       mark_registered (bd_id binding) hook ;;! ret (MkWebhookResult true (hook_id hook) None))
      (caught_hook (bd_id binding)) (set_life_world w s2).
Proof.
  intros [(secret & c & s1 & Hsec & Hfac & Hfetch) Honce]. exists c. unfold onBindingCreate.
  rewrite (bind_ok _ _ _ _ _ Hsec). unfold build_client. unfold bind at 1. unfold try_catch at 1.
  rewrite (bind_ok _ _ _ _ _ Hfac). cbn [ret]. unfold try_catch, bind at 1 4.
  unfold registerProjectWebhook, createProjectWebhook. unfold create_hook_request in Hfetch.
  by rewrite (hook_request_run c _ _ _ _ _ _ _ Hfetch Honce).
Qed.

(** The rest of a run, by what the request to the hooks gives. *)
Lemma registered_run c bindingId oid d hook (m : M (ClientState W) record) s :
  newObjectId bindingId = Some oid -> stored s oid d ->
  (forall t, m t = (Ok hook, t)) ->
  exists s', try_catch (let! hook := with_client c m in
      mark_registered bindingId hook ;;! ret (MkWebhookResult true (hook_id hook) None))
    (caught_hook bindingId) s = (Ok (MkWebhookResult true (hook_id hook) None), s') /\
    findOne (binding_by_id oid) (bindings (lc_store s')) =
    Some (apply_binding_update (MkBindingUpdate (hook_id hook) (Some true) None None) d).
Proof.
  intros Hi [Hok Hf] Hm. unfold try_catch, bind at 1. rewrite (with_client_run _ _ _ _ _ (Hm _)).
  unfold mark_registered, on_store.
  edestruct (updateBinding_run bindingId oid (MkBindingUpdate (hook_id hook) (Some true) None None) d
    (lc_store s) Hi Hok Hf) as (c' & Hu & Hc').
  unfold bind, zoom. cbn [lc_store]. rewrite Hu. eexists. split; [reflexivity | done].
Qed.

Lemma rejected_run c bindingId oid d e reason (m : M (ClientState W) record) s :
  newObjectId bindingId = Some oid -> stored s oid d ->
  (forall t, m t = (Throw e, t)) -> client_error e = Some reason ->
  exists s', try_catch (let! hook := with_client c m in
      mark_registered bindingId hook ;;! ret (MkWebhookResult true (hook_id hook) None))
    (caught_hook bindingId) s = (Ok (not_registered reason), s') /\
    findOne (binding_by_id oid) (bindings (lc_store s')) =
    Some (apply_binding_update (MkBindingUpdate None (Some false) None None) d).
Proof.
  intros Hi [Hok Hf] Hm He. unfold try_catch, bind at 1. rewrite (with_client_run _ _ _ _ _ (Hm _)).
  unfold caught_hook. rewrite He. unfold mark_unregistered, on_store.
  edestruct (updateBinding_run bindingId oid (MkBindingUpdate None (Some false) None None) d
    (lc_store s) Hi Hok Hf) as (c' & Hu & Hc').
  unfold bind, zoom. cbn [lc_store]. rewrite Hu. eexists. split; [reflexivity | done].
Qed.

Lemma passed_on_run c bindingId e (m : M (ClientState W) record) s :
  (forall t, m t = (Throw e, t)) -> client_error e = None ->
  exists s', try_catch (let! hook := with_client c m in
      mark_registered bindingId hook ;;! ret (MkWebhookResult true (hook_id hook) None))
    (caught_hook bindingId) s = (Throw e, s') /\ lc_store s' = lc_store s.
Proof.
  intros Hm He. unfold try_catch, bind at 1. rewrite (with_client_run _ _ _ _ _ (Hm _)).
  unfold caught_hook. rewrite He. by eexists.
Qed.

(** [onBindingCreate] by GitLab's answer to the registration: a created hook
    is recorded with its id on the stored binding; an answer of the 400s is
    the result [webhookRegistered: false], recorded too - except 401, 403 and
    404, which the client turns into other errors: these, like the answers
    from 500 on, are thrown and leave the binding as it was. *)
Theorem bind_hook_outcomes binding publicBaseUrl s s2 reply w text oid d :
  asks binding publicBaseUrl s s2 reply w -> hp_text reply = Ok text ->
  newObjectId (bd_id binding) = Some oid -> stored s2 oid d ->
  (forall n, hook_answer reply n -> exists s',
     onBindingCreate encryptionKey factory binding publicBaseUrl s = (Ok (MkWebhookResult true (Some n) None), s') /\
     findOne (binding_by_id oid) (bindings (lc_store s')) =
     Some (apply_binding_update (MkBindingUpdate (Some n) (Some true) None None) d)) /\
  ((400 <= hp_status reply < 500)%Z -> ~ uncaught (hp_status reply) -> exists reason s',
     onBindingCreate encryptionKey factory binding publicBaseUrl s = (Ok (not_registered reason), s') /\
     findOne (binding_by_id oid) (bindings (lc_store s')) =
     Some (apply_binding_update (MkBindingUpdate None (Some false) None None) d)) /\
  (uncaught (hp_status reply) -> exists e s',
     onBindingCreate encryptionKey factory binding publicBaseUrl s = (Throw e, s') /\
     lc_store s' = lc_store s2).
Proof.
  intros Ha Ht Hi Hd. destruct (create_run _ _ _ _ _ _ Ha) as [c Hrun]. rewrite Hrun.
  assert (Hd' : stored (set_life_world w s2) oid d) by exact Hd.
  set (path := hooks_path (VNum (bd_gitlabProjectId binding))). split_and!.
  - intros n Hn. destruct (request_body_hook (W := W) "POST" path reply n Hn) as (hook & E & <-).
    by apply (registered_run c _ _ d).
  - intros Hr Hu. destruct (client_error_status (hp_status reply)
      ("GitLab API error " +:+ num_to_string (hp_status reply) +:+ ": " +:+ text) Hr) as [reason Hce].
    exists reason. apply (rejected_run c _ _ d _ _ _ _ Hi Hd') with (2 := Hce).
    intros t. unfold bind. by rewrite (request_body_rejected _ _ _ _ t Hr Hu Ht).
  - intros Hu.
    destruct (request_body_uncaught (W := W) "POST" path reply text Hu Ht) as (e & E & He).
    exists e. change (lc_store s2) with (lc_store (set_life_world w s2)). apply (passed_on_run c); [|done].
    intros t. unfold bind. by rewrite E.
Qed.

(** ** Rotating the secret *)

(** The request that removes the old hook. *)
Definition delete_hook_request c (binding : BindingDoc) (webhookId : Z) : HttpRequest :=
  hook_request "DELETE" (hooks_path (VNum (bd_gitlabProjectId binding)) +:+ "/" +:+ num_to_string webhookId) c None.

(** The rotation removes the old hook before it registers the new one: when
    GitLab removes it and answers the registration with 401, 403, 404 or a
    status from 500 on, the error is thrown and the stored binding is left as
    it was - registered, with the id of the hook that is gone. *)
Theorem rotation_loses_hook binding newSecret publicBaseUrl webhookId c s s1 removed w1 reply w2 text :
  bd_webhookId binding = Some webhookId ->
  factory (bd_credentialRef binding) s = (Ok c, s1) ->
  fetch (delete_hook_request c binding webhookId) (lc_world s1) = (Ok removed, w1) ->
  hp_status removed = 204%Z ->
  fetch (create_hook_request c binding publicBaseUrl newSecret) w1 = (Ok reply, w2) ->
  uncaught (hp_status reply) -> hp_status reply <> 429%Z -> hp_text reply = Ok text ->
  exists e s', rotateWebhookSecret factory binding newSecret publicBaseUrl s = (Throw e, s') /\
    lc_store s' = lc_store s1 /\ lc_world s' = w2 /\ lc_creds s' = lc_creds s1.
Proof.
  intros Hid Hfac Hdel H204 Hnew Hu Honce Ht. unfold rotateWebhookSecret. rewrite Hid.
  unfold build_client. unfold bind at 1. unfold try_catch at 1. rewrite (bind_ok _ _ _ _ _ Hfac). cbn [ret].
  unfold bind at 1. unfold try_catch at 1. unfold deregisterProjectWebhook, deleteProjectWebhook.
  rewrite (hook_request_run c _ _ _ _ _ _ _ Hdel) by (rewrite H204; lia).
  unfold with_client at 1. unfold bind at 1. unfold request_body at 1, is_auth_status. rewrite H204.
  cbn [Z.eqb Z.leb Z.compare orb]. cbn -[hooks_path rate_limit_headers].
  destruct (request_body_uncaught (W := W) "POST" (hooks_path (VNum (bd_gitlabProjectId binding))) reply text Hu Ht)
    as (e & E & He).
  set (s2 := MkLifeState _ _ _ _ _). exists e.
  assert (Hrun : registerProjectWebhook c (bd_gitlabProjectId binding)
                   (webhook_url publicBaseUrl (bd_id binding)) newSecret (event_flags c) s2 =
                 (Throw e, set_life_world w2 s2)).
  { unfold registerProjectWebhook, createProjectWebhook.
    rewrite (hook_request_run c _ _ _ _ s2 _ _ Hnew Honce). unfold with_client, bind. by rewrite E. }
  unfold try_catch. rewrite (bind_throw _ _ _ _ _ Hrun), He. by eexists.
Qed.
End Create.

(** ** The flags *)

(** Whatever flags the caller asks for, the payload of a hook switches the
    three confidential events off, and every other event to what was asked, or
    off. *)
Theorem payload_never_confidential url token flags k :
  k ∈ ["confidential_issues_events"; "confidential_note_events"; "confidential_epic_events"] ->
  prop_of (buildWebhookPayload url token flags) k = VBool false /\
  (forall e, e ∈ EVENT_FLAGS ->
     prop_of (buildWebhookPayload url token flags) e = js_coalesce (prop_of flags e) (VBool false)).
Proof.
  intros Hk. split.
  - repeat (apply elem_of_cons in Hk as [->|Hk]; [reflexivity|]). by apply elem_of_nil in Hk.
  - intros e He. unfold EVENT_FLAGS in He.
    repeat (apply elem_of_cons in He as [->|He]; [reflexivity|]). by apply elem_of_nil in He.
Qed.

(** The service's client never knows its edition: the client that the
    factory of src/index.ts makes holds no capabilities, so that the payload of
    every hook it registers leaves the events of epics off, on an enterprise
    instance too. *)
Theorem epic_events_never_subscribed {Coll} `{Mongo Coll} {P : Platform} {C : Cipher} `{NodeUrl} {W : Type}
    key allowedRaw configBaseUrl credentialRef c (s s' : LifeState Coll W) url token :
  index_client_factory key allowedRaw configBaseUrl credentialRef s = (Ok c, s') ->
  c.2 = None /\ prop_of (buildWebhookPayload url token (event_flags c)) "epic_events" = VBool false.
Proof.
  unfold index_client_factory. intros (cred & s1 & _ & Hf)%bind_inv_ok. destruct cred as [cred|]; [|done].
  apply bind_inv_ok in Hf as (u & s2 & _ & Hf). injection Hf as <- <-. by split.
Qed.
