(* ===== verification/BindingApi.v ===== *)
(** * The bindings API (src/http/binding.ts, src/http/auth-middleware.ts)

    The admin endpoints over bindings, behind the bearer token.  A request is
    a value of [ApiRequest]; its handler returns the response, and a [Throw]
    is an unhandled failure.  The random webhook secret is an argument of the
    requests that make one; the migrations, which run over the Huly client of
    a loaded binding, are arguments of the handlers.  The rate limit of three
    endpoints and logging are not modelled. *)

From S2P Require Import Prelude JsMap JsString JsVal Metrics Platform Conflict Mongo Store Credentials Sync.
From S2P Require Import Queue Breaker Engine Webhook RateLimit BaseUrl GitLabMaps GitLabClient Lifecycle.
Open Scope nat_scope.
Open Scope string_scope.
Open Scope list_scope.

(** ** src/http/auth-middleware.ts *)

Definition requireBearer (secret : string) (authHeader : option string) : bool :=
  match authHeader with
  | None | Some "" => false
  | Some h => match after_prefix "Bearer " h with
              | Some token => token_matches token secret
              | None => false
              end
  end.

(** ** Requests and responses *)

Record ApiResponse := MkApiResponse { ar_status : Z; ar_json : jsval }.

Definition api_error_json (status : Z) (msg : string) : ApiResponse :=
  MkApiResponse status (VObj [("error", VStr msg)]).

Inductive ApiRequest :=
  | PostBinding (body : record) (secretPlaintext : string)
  | GetBindings (workspaceUuid : jsval)
  | DeleteBinding (id : string)
  | RotateSecret (id newSecret : string)
  | ReRegisterWebhook (id : string)
  | PatchBinding (id : string) (body : record)
  | MigrateReviewerLabels (id : string)
  | MigrateMixinSplit (id : string).

(** A binding as [toView] and the PATCH endpoint show it. *)
Definition binding_json (v : BindingView) : jsval :=
  VObj ([("id", VStr (bv_id v)); ("workspaceUuid", VStr (bv_workspaceUuid v));
         ("hulyProjectRef", VStr (bv_hulyProjectRef v)); ("gitlabProjectId", VNum (bv_gitlabProjectId v));
         ("gitlabProjectPath", VStr (bv_gitlabProjectPath v)); ("credentialRef", VStr (bv_credentialRef v));
         ("webhookRegistered", VBool (bv_webhookRegistered v)); ("createdAt", VDate (Some (bv_createdAt v)));
         ("disabled", VBool (bv_disabled v))] ++
        match bv_webhookId v with Some i => [("webhookId", VNum i)] | None => [] end).

(** An optional property of a response. *)
Definition optional {A} (k : string) (f : A -> jsval) (v : option A) : record :=
  match v with Some a => [(k, f a)] | None => [] end.

Section Api.
Context {Coll : Type -> Type} `{Mongo Coll} {P : Platform} {C : Cipher} {W : Type} `{Http W}.
Abbreviation LS := (LifeState Coll W).
Abbreviation ML := (M (LifeState Coll W)).

(** What the router is made with: the service and the base URL are optional,
    and so is the loader the migrations need. *)
Record BindingRouterDeps := MkBindingRouterDeps {
  br_encryptionKey : string;
  br_serverSecret : string;
  br_lifecycle : option (string -> ML Client);
  br_publicBaseUrl : option string;
  br_migrateReviewerLabels : option (BindingDoc -> ML record);
  br_migrateMixinSplit : option (BindingDoc -> ML record)
}.

Context (deps : BindingRouterDeps).

(** [Date.now()] and [new ObjectId()]: of the credentials' counters. *)
Definition api_now : ML Z := on_creds cred_now.
Definition api_oid : ML string := on_creds next_cred_id.

(** The lifecycle service, with the address it registers. *)
Definition lifecycle : option ((string -> ML Client) * string) :=
  match br_lifecycle deps, br_publicBaseUrl deps with
  | Some f, Some u => Some (f, u)
  | _, _ => None
  end.

(** The binding of a path, or the response that ends the request. *)
Definition with_binding (id : string) (k : BindingDoc -> ML ApiResponse) : ML ApiResponse :=
  match parseObjectId id with
  | None => ret (api_error_json 400 "invalid id format")
  | Some _ =>
      let! binding := on_store (getBinding id) in
      match binding with
      | None => ret (api_error_json 404 "Not found")
      | Some b => k b
      end
  end.

Definition post_binding (body : record) (secretPlaintext : string) : ML ApiResponse :=
  match prop_of body "workspaceUuid", prop_of body "hulyProjectRef", prop_of body "gitlabProjectId",
        prop_of body "gitlabProjectPath", prop_of body "credentialRef" with
  | VStr workspaceUuid, VStr hulyProjectRef, VNum gitlabProjectId, VStr gitlabProjectPath, VStr credentialRef =>
      match parseObjectId credentialRef with
      | None => ret (api_error_json 400 "invalid id format")
      | Some _ =>
          let! webhookSecretRef := on_creds (putCredential (br_encryptionKey deps)
            (MkPutCredentialInput CkWebhookSecret secretPlaintext None None None None)) in
          let! id := api_oid in
          let! now := api_now in
          let! view := on_store (createBinding id now
            (MkCreateBindingInput workspaceUuid hulyProjectRef gitlabProjectId gitlabProjectPath credentialRef
               webhookSecretRef)) in
          let! registration :=
            match lifecycle with
            | Some (factory, publicBaseUrl) =>
                let! doc := on_store (getBinding (bv_id view)) in
                match doc with
                | Some doc =>
                    let! result := onBindingCreate (br_encryptionKey deps) factory doc publicBaseUrl in
                    ret (wr_webhookRegistered result, wr_webhookId result)
                | None => ret (false, None)
                end
            | None => ret (false, None)
            end in
          ret (MkApiResponse 201 (VObj ([("bindingId", VStr (bv_id view));
                                         ("webhookRegistered", VBool registration.1)] ++
                                        optional "webhookId" VNum registration.2)))
      end
  | _, _, _, _, _ => ret (api_error_json 400 "Invalid request body")
  end.

Definition get_bindings (workspaceUuid : jsval) : ML ApiResponse :=
  let! views := on_store (listBindings (as_string (Some workspaceUuid))) in
  ret (MkApiResponse 200 (VArr (map binding_json views))).

Definition delete_binding (id : string) : ML ApiResponse :=
  match parseObjectId id with
  | None => ret (api_error_json 400 "invalid id format")
  | Some _ =>
      let! binding := try_catch (on_store (getBinding id)) (fun _ => ret None) in
      match binding with
      | None => ret (api_error_json 404 "Not found")
      | Some b =>
          match br_lifecycle deps with
          | Some factory => onBindingDelete factory b
          | None => ret tt
          end ;;!
          on_creds (deleteCredential (bd_webhookSecretRef b)) ;;!
          on_store (deleteBinding id) ;;!
          ret (MkApiResponse 200 (VObj [("deleted", VBool true)]))
      end
  end.

Definition rotate_secret (id newSecret : string) : ML ApiResponse :=
  with_binding id (fun binding =>
    on_creds (rotateCredential (br_encryptionKey deps) (bd_webhookSecretRef binding)
                (MkRotateCredentialInput newSecret None None)) ;;!
    let! now := api_now in
    let! outcome :=
      match bd_webhookRegistered binding, bd_webhookId binding, br_lifecycle deps, br_publicBaseUrl deps with
      | true, Some _, Some factory, Some publicBaseUrl =>
          let! result := rotateWebhookSecret factory binding newSecret publicBaseUrl in
          ret (wr_webhookRegistered result, wr_reason result)
      | _, Some _, Some _, None => ret (false, None)
      | registered, _, _, _ => ret (registered, None)
      end in
    ret (MkApiResponse 200 (VObj ([("rotatedAt", VStr (toISOString now)); ("webhookRegistered", VBool outcome.1)] ++
                                  optional "reason" VStr outcome.2)))).

Definition re_register_webhook (id : string) : ML ApiResponse :=
  with_binding id (fun binding =>
    let! now := api_now in
    let! result :=
      match lifecycle with
      | Some (factory, publicBaseUrl) => reRegisterWebhook (br_encryptionKey deps) factory binding publicBaseUrl
      | None => ret (MkWebhookResult (bd_webhookRegistered binding) (bd_webhookId binding) None)
      end in
    ret (MkApiResponse 200 (VObj ([("rotatedAt", VStr (toISOString now));
                                   ("webhookRegistered", VBool (wr_webhookRegistered result))] ++
                                  optional "webhookId" VNum (wr_webhookId result) ++
                                  optional "reason" VStr (wr_reason result))))).

Definition patch_binding (id : string) (body : record) : ML ApiResponse :=
  with_binding id (fun _ =>
    match prop_of body "disabled" with
    | VBool b => on_store (updateBinding id (MkBindingUpdate None None (Some b) None))
    | _ => ret tt
    end ;;!
    let! refreshed := on_store (getBinding id) in
    match refreshed with
    | None => ret (api_error_json 404 "Not found")
    | Some doc => ret (MkApiResponse 200 (binding_json (toView doc)))
    end).

(** The two migrations: only for a paused binding. *)
Definition run_migration (what : string) (migration : option (BindingDoc -> ML record)) (id : string) : ML ApiResponse :=
  with_binding id (fun binding =>
    if negb (bd_disabled binding) then
      ret (MkApiResponse 409 (VObj [("error", VStr "binding active");
        ("message", VStr ("Pause binding (PATCH /api/v1/bindings/:id with {disabled: true}) before running " +:+ what +:+
                          "; re-enable after."))]))
    else
      match migration with
      | None => ret (api_error_json 500 "Internal server error")
      | Some migrate => let! result := migrate binding in ret (MkApiResponse 200 (VObj result))
      end).

Definition handle (req : ApiRequest) : ML ApiResponse :=
  match req with
  | PostBinding body secretPlaintext => post_binding body secretPlaintext
  | GetBindings workspaceUuid => get_bindings workspaceUuid
  | DeleteBinding id => delete_binding id
  | RotateSecret id newSecret => rotate_secret id newSecret
  | ReRegisterWebhook id => re_register_webhook id
  | PatchBinding id body => patch_binding id body
  | MigrateReviewerLabels id => run_migration "migration" (br_migrateReviewerLabels deps) id
  | MigrateMixinSplit id => run_migration "mixin-split migration" (br_migrateMixinSplit deps) id
  end.

(** The router. *)
Definition binding_api (authHeader : option string) (req : ApiRequest) : ML ApiResponse :=
  if requireBearer (br_serverSecret deps) authHeader then handle req
  else ret (api_error_json 401 "Unauthorized").
End Api.
Arguments MkBindingRouterDeps {Coll W}.
Arguments BindingRouterDeps : clear implicits.
