(* ===== verification/BindingApiProofs.v ===== *)
(** * What the bindings API guarantees *)

From Stdlib Require Import Ascii.
From S2P Require Import Prelude JsMap JsString JsVal Metrics Platform Conflict Mongo Store Credentials Sync.
From S2P Require Import Queue Breaker Engine Webhook RateLimit BaseUrl GitLabMaps GitLabClient.
From S2P Require Import GitLabClientProofs Lifecycle LifecycleProofs BindingApi.
Open Scope nat_scope.
Open Scope string_scope.
Open Scope list_scope.

Lemma after_prefix_sound p s t : after_prefix p s = Some t -> s = p +:+ t.
Proof.
  revert s. induction p as [|a p IH]; intros [|b s]; cbn; try (intros [= <-]; done); try done.
  case_decide as Hab; [|done]. intros Hs. by rewrite Hab, (IH _ Hs).
Qed.

Lemma token_matches_spec received stored : token_matches received stored = bool_decide (received = stored).
Proof.
  unfold token_matches, timingSafeEqual. case_bool_decide as Hl; [done|].
  symmetry. apply bool_decide_eq_false. by intros ->.
Qed.

Lemma requireBearer_spec secret h : requireBearer secret h = true <-> h = Some ("Bearer " +:+ secret).
Proof.
  unfold requireBearer. split.
  - destruct h as [[|a h]|]; try done. destruct (after_prefix "Bearer " (String a h)) as [t|] eqn:E; [|done].
    rewrite token_matches_spec. intros ->%bool_decide_eq_true. by rewrite (after_prefix_sound _ _ _ E).
  - intros ->. change (after_prefix "Bearer " ("Bearer " +:+ secret)) with (Some secret).
    change ("Bearer " +:+ secret) with (String "B"%char ("earer " +:+ secret)). cbn [requireBearer].
    rewrite token_matches_spec. by apply bool_decide_eq_true.
Qed.

Section Api.
Context {Coll : Type -> Type} `{HL : MongoLaws Coll} {P : Platform} {C : Cipher} {W : Type} `{Http W}.
Context (deps : BindingRouterDeps Coll W).
Implicit Types s : LifeState Coll W.

(** A request to the bindings API is handled only with the header
    [Authorization: Bearer] and exactly the server's secret; any other is
    answered 401 and nothing changes. *)
Theorem api_authorized header req s :
  (header = Some ("Bearer " +:+ br_serverSecret deps) -> binding_api deps header req s = handle deps req s) /\
  (header <> Some ("Bearer " +:+ br_serverSecret deps) ->
   binding_api deps header req s = (Ok (api_error_json 401 "Unauthorized"), s)).
Proof.
  unfold binding_api. split.
  - intros Hh. by rewrite (proj2 (requireBearer_spec _ _) Hh).
  - intros Hh. destruct (requireBearer _ header) eqn:E; [|done]. by apply requireBearer_spec in E.
Qed.

(** ** Deleting a binding *)

(** A computation that leaves the collections alone. *)
Definition off_record {A} (m : M (LifeState Coll W) A) : Prop :=
  forall s, lc_store (m s).2 = lc_store s /\ lc_creds (m s).2 = lc_creds s.

Lemma off_record_client {A} c (m : M (ClientState W) A) : off_record (with_client (Coll := Coll) c m).
Proof. intros s. unfold with_client. by destruct (m _). Qed.

Lemma off_record_catch {A} (m : M (LifeState Coll W) A) h :
  off_record m -> (forall e, off_record (h e)) -> off_record (try_catch m h).
Proof.
  intros Hm Hh s. unfold try_catch. specialize (Hm s). destruct (m s) as [[a|e] s1]; [done|]. cbn in Hm.
  destruct (Hh e s1) as [E1 E2]. split; [rewrite E1 | rewrite E2]; apply Hm.
Qed.

Lemma off_record_bind {A B} (m : M (LifeState Coll W) A) (k : A -> M (LifeState Coll W) B) :
  off_record m -> (forall a, off_record (k a)) -> off_record (bind m k).
Proof.
  intros Hm Hk s. unfold bind. specialize (Hm s). destruct (m s) as [[a|e] s1]; [|done]. cbn in Hm.
  destruct (Hk a s1) as [E1 E2]. split; [rewrite E1 | rewrite E2]; apply Hm.
Qed.

Lemma off_record_ret {A} (a : A) : off_record (ret a).
Proof. by intros s. Qed.

(** Removing a hook never fails, whatever the factory or GitLab do. *)
Lemma onBindingDelete_run factory binding s :
  (forall ref, off_record (factory ref)) ->
  exists s', onBindingDelete factory binding s = (Ok tt, s') /\ lc_store s' = lc_store s /\ lc_creds s' = lc_creds s.
Proof.
  intros Hf. assert (Hoff : off_record (onBindingDelete factory binding)).
  { unfold onBindingDelete, build_client. destruct (bd_webhookId binding); [|apply off_record_ret].
    apply off_record_bind.
    - apply off_record_catch; [|intros; apply off_record_ret].
      apply off_record_bind; [apply Hf|]. intros; apply off_record_ret.
    - intros [reason|c]; [apply off_record_ret|].
      apply off_record_catch; [apply off_record_client | intros; apply off_record_ret]. }
  assert (Hok : exists s', onBindingDelete factory binding s = (Ok tt, s')).
  { unfold onBindingDelete, build_client. destruct (bd_webhookId binding) as [i|]; [|by exists s].
    unfold bind at 1, try_catch at 1, bind at 1. destruct (factory _ s) as [[c|e] s1]; cbn [ret]; [|by eexists].
    unfold try_catch. destruct (deregisterProjectWebhook _ _ _ s1) as [[[]|e] s2]; by eexists. }
  destruct Hok as [s' E]. exists s'. split; [done|]. specialize (Hoff s). by rewrite E in Hoff.
Qed.

Lemma remove_first_unique {D} (p : D -> bool) (l : list D) (same : D -> D -> bool) :
  (forall x y, p x = true -> p y = true -> same x y = true) ->
  (forall l1 x l2, l = l1 ++ x :: l2 -> forall y, y ∈ l2 -> same x y = false) ->
  js_find p (remove_first p l) = None.
Proof.
  intros Hs Hu. apply js_find_None. induction l as [|x l IH]; cbn; [by intros x ?%elem_of_nil|].
  intros y Hy. destruct (p x) eqn:Ex.
  - destruct (p y) eqn:Ey; [|done]. rewrite <- (Hs x y Ex Ey). by apply (Hu [] x l).
  - apply elem_of_cons in Hy as [->|Hy]; [done|]. apply IH; [|done].
    intros l1 z l2 Hl. apply (Hu (x :: l1) z l2). by rewrite Hl.
Qed.

(** Under a unique index, no match is left. *)
Lemma deleteOne_none {D} `{Document D} (p : D -> bool) (c : Coll D) :
  (forall x y, p x = true -> p y = true -> conflicts x y = true) -> index_ok (scan c) ->
  findOne p (deleteOne p c) = None.
Proof.
  intros Hp Hok. rewrite findOne_scan, deleteOne_scan. apply (remove_first_unique p _ conflicts); [done|].
  intros l1 x l2 Hl y Hy. rewrite Hl in Hok. apply index_ok_app in Hok as (_ & [Hx _] & _). by apply Hx.
Qed.

Lemma parseObjectId_new id oid : parseObjectId id = Some oid -> newObjectId id = Some oid.
Proof. unfold parseObjectId. by destruct (HEX24 id). Qed.

(** What [DELETE] needs to know of a binding: its id, its document and its
    secret's id. *)
Record deletable s (id oid sref : string) (d : BindingDoc) : Prop := {
  dl_id : parseObjectId id = Some oid;
  dl_doc : findOne (binding_by_id oid) (bindings (lc_store s)) = Some d;
  dl_secret : newObjectId (bd_webhookSecretRef d) = Some sref;
  dl_bindings_ok : index_ok (scan (bindings (lc_store s)));
  dl_credentials_ok : index_ok (scan (credentials (lc_creds s)))
}.

Lemma binding_found s id oid sref d :
  deletable s id oid sref d -> on_store (getBinding id) s = (Ok (Some d), s).
Proof.
  intros [Hid Hd _ _ _]. unfold on_store, zoom, getBinding, with_object_id.
  rewrite (parseObjectId_new _ _ Hid). unfold gets. unfold binding_by_id in Hd. rewrite Hd. by destruct s.
Qed.

(** C27: deleting a stored binding always succeeds - whatever GitLab or the client
    factory do about its hook - and is answered 200 with [deleted] alone,
    without the [bindingId] docs/api.md shows; afterwards neither the binding
    nor its webhook secret is stored; cursors, id map, dedup and inflight
    documents of the binding stay. *)
Theorem binding_deleted s id oid sref d :
  deletable s id oid sref d ->
  (forall factory ref, br_lifecycle deps = Some factory -> off_record (factory ref)) ->
  exists s', handle deps (DeleteBinding id) s = (Ok (MkApiResponse 200 (VObj [("deleted", VBool true)])), s') /\
    findOne (binding_by_id oid) (bindings (lc_store s')) = None /\
    findOne (fun c => bool_decide (cd_id c = sref)) (credentials (lc_creds s')) = None /\
    cursors (lc_store s') = cursors (lc_store s) /\ idmap (lc_store s') = idmap (lc_store s) /\
    dedup (lc_store s') = dedup (lc_store s) /\ inflight (lc_store s') = inflight (lc_store s).
Proof.
  intros Hdel Hfac. pose proof (binding_found _ _ _ _ _ Hdel) as Hget. destruct Hdel as [Hid Hd Hs Hbok Hcok].
  assert (Hhook : exists s1, match br_lifecycle deps with Some factory => onBindingDelete factory d
                             | None => ret tt end s = (Ok tt, s1) /\
                     lc_store s1 = lc_store s /\ lc_creds s1 = lc_creds s).
  { destruct (br_lifecycle deps) as [factory|]; [|by exists s].
    apply onBindingDelete_run. intros ref. by apply Hfac. }
  destruct Hhook as (s1 & E1 & Es & Ec).
  cbn [handle]. unfold delete_binding. rewrite Hid. unfold bind at 1, try_catch. rewrite Hget.
  rewrite (bind_ok _ _ _ _ _ E1). unfold deleteCredential, deleteBinding, cred_object_id, with_object_id.
  rewrite Hs, (parseObjectId_new _ _ Hid). unfold on_creds, on_store, zoom, modify, bind. cbn.
  eexists. split; [reflexivity|]. cbn. rewrite Es, Ec. split_and!; try done.
  - apply deleteOne_none; [|done]. unfold binding_by_id. intros x y Hx Hy. cbn. unfold same_binding.
    apply bool_decide_eq_true in Hx, Hy. apply orb_true_iff. left. apply bool_decide_eq_true. congruence.
  - apply deleteOne_none; [|done]. intros x y Hx Hy. cbn.
    apply bool_decide_eq_true in Hx, Hy. apply bool_decide_eq_true. congruence.
Qed.

(** ** Pausing *)

Lemma patch_run s id oid sref d flag :
  deletable s id oid sref d ->
  exists s', handle deps (PatchBinding id [("disabled", VBool flag)]) s =
       (Ok (MkApiResponse 200 (binding_json (toView (apply_binding_update
              (MkBindingUpdate None None (Some flag) None) d)))), s') /\
     findOne (binding_by_id oid) (bindings (lc_store s')) =
     Some (apply_binding_update (MkBindingUpdate None None (Some flag) None) d).
Proof.
  intros Hdel. pose proof (binding_found _ _ _ _ _ Hdel) as Hget. destruct Hdel as [Hid Hd Hs Hbok Hcok].
  cbn [handle]. unfold patch_binding, with_binding. rewrite Hid, (bind_ok _ _ _ _ _ Hget).
  cbn [prop_of jget]. destruct (updateBinding_run id oid (MkBindingUpdate None None (Some flag) None) d
    (lc_store s) (parseObjectId_new _ _ Hid) Hbok Hd) as (c' & Hu & Hc').
  change (prop_of [("disabled", VBool flag)] "disabled") with (VBool flag).
  unfold on_store at 1, bind at 1, zoom. rewrite Hu.
  unfold on_store at 1, bind at 1, zoom, getBinding, with_object_id. rewrite (parseObjectId_new _ _ Hid).
  unfold gets. cbn [lc_store set_bindings bindings]. unfold binding_by_id in Hc'. rewrite Hc'.
  eexists. split; [reflexivity|]. done.
Qed.

(** A paused binding and its migrations: [PATCH] with [disabled] sets the
    flag of the stored binding, and while it is off the migration endpoints
    answer 409 without running anything. *)
Theorem migrations_need_pause s id oid sref d :
  deletable s id oid sref d ->
  (bd_disabled d = false ->
     forall req, req ∈ [MigrateReviewerLabels id; MigrateMixinSplit id] ->
       exists body, handle deps req s = (Ok (MkApiResponse 409 body), s)) /\
  (forall flag, exists s', handle deps (PatchBinding id [("disabled", VBool flag)]) s =
       (Ok (MkApiResponse 200 (binding_json (toView (apply_binding_update
              (MkBindingUpdate None None (Some flag) None) d)))), s') /\
     findOne (binding_by_id oid) (bindings (lc_store s')) =
     Some (apply_binding_update (MkBindingUpdate None None (Some flag) None) d)).
Proof.
  intros Hdel. split.
  - intros Hdis req Hreq. pose proof (binding_found _ _ _ _ _ Hdel) as Hget. destruct Hdel as [Hid _ _ _ _].
    assert (Hrun : forall what m, exists body, run_migration what m id s = (Ok (MkApiResponse 409 body), s)).
    { intros what m. unfold run_migration, with_binding. rewrite Hid, (bind_ok _ _ _ _ _ Hget), Hdis. by eexists. }
    repeat (apply elem_of_cons in Hreq as [->|Hreq]; [apply Hrun|]). by apply elem_of_nil in Hreq.
  - intros flag. by apply (patch_run s id oid sref d).
Qed.

(** Pausing reaches the webhook endpoint: after the [PATCH] that disables a
    binding, a delivery for it - with any token, of any kind but the
    confidential hooks, which are dropped before - is answered that the binding
    is disabled, and the engine is left alone. *)
Theorem pause_stops_webhooks {X} s s' id oid sref d resp key req (h : Webhook.Http Coll X) :
  deletable s id oid sref d ->
  handle deps (PatchBinding id [("disabled", VBool true)]) s = (Ok resp, s') ->
  store (engine h) = lc_store s' -> rq_bindingId req = id -> confidential_hook req = false ->
  exists h', webhook key req h =
    (Ok (MkResponse 200 (Some [("accepted", VBool false); ("reason", VStr "binding disabled")])), h') /\
    untouched h h'.
Proof.
  intros Hdel Hp Hst Hid Hhook. destruct (patch_run s id oid sref d true Hdel) as (s1 & E & Hf).
  rewrite E in Hp. injection Hp as _ <-. destruct Hdel as [Hoid _ _ _ _].
  unfold webhook. rewrite Hid, Hoid.
  assert (Hu : exists u h1, event_uuid req h = (Ok u, h1)).
  { unfold event_uuid. destruct (rq_uuid req); by eexists _, _. }
  destruct Hu as (u & h1 & Hu). rewrite (bind_ok _ _ _ _ _ Hu), Hhook.
  pose proof (idle_uuid req h) as [Hs Hw]. rewrite Hu in Hs, Hw. cbn [snd] in Hs, Hw.
  unfold bind at 1, try_catch, bind at 1, on_engine, Engine.on_store, getBinding, with_object_id.
  rewrite (parseObjectId_new _ _ Hoid). unfold gets. rewrite Hs, Hst.
  unfold binding_by_id in Hf. rewrite Hf. cbn [ret].
  change (bd_disabled (apply_binding_update (MkBindingUpdate None None (Some true) None) d)) with true.
  eexists. split; [reflexivity|]. split; cbn; [by rewrite <- Hst, <- Hs | done].
Qed.
End Api.

(** ** Concrete instances *)

Definition api_routes : jsmap string Route :=
  [("/api/v4/projects/42/hooks/9", Fails 204); ("/api/v4/projects/42/hooks", Fails 401)].

Definition hooked_binding : BindingDoc :=
  MkBindingDoc "aaaaaaaaaaaaaaaaaaaaaaaa" "ws" "space" 42 "g/p" "oid-0" "oid-0" (Some 9%Z) true 0 false.

Definition api_state (b : BindingDoc) : LifeState list Server :=
  MkLifeState (set_bindings [b] empty_store)
    (putCredential (P := hook_platform) "key"
       (MkPutCredentialInput CkWebhookSecret "s3cret" None None None None) empty_creds).2
    (MkServer api_routes []) 0 [].

Definition api_factory (ref : string) : M (LifeState list Server) Client := ret (toy_gitlab_client, None).

Definition api_deps : BindingRouterDeps list Server :=
  MkBindingRouterDeps "key" "admin" (Some api_factory) (Some "https://pod") None None.

Lemma hooked_deletable :
  deletable (P := hook_platform) (api_state hooked_binding) "aaaaaaaaaaaaaaaaaaaaaaaa" "aaaaaaaaaaaaaaaaaaaaaaaa"
    "oid-0" hooked_binding.
Proof.
  split; try reflexivity; split; try done; by intros x ?%elem_of_nil.
Qed.

Lemma api_authorized_witness :
  binding_api (P := hook_platform) api_deps (Some "Bearer wrong") (DeleteBinding "aaaaaaaaaaaaaaaaaaaaaaaa")
    (api_state hooked_binding) = (Ok (api_error_json 401 "Unauthorized"), api_state hooked_binding).
Proof. apply (api_authorized (P := hook_platform) api_deps). vm_compute. discriminate. Defined.

Lemma binding_deleted_witness :
  exists s', handle (P := hook_platform) api_deps (DeleteBinding "aaaaaaaaaaaaaaaaaaaaaaaa") (api_state hooked_binding) =
    (Ok (MkApiResponse 200 (VObj [("deleted", VBool true)])), s') /\ bindings (lc_store s') = [].
Proof.
  destruct (binding_deleted (P := hook_platform) api_deps (api_state hooked_binding) _ _ _ _ hooked_deletable)
    as (s' & E & _).
  - intros factory ref [= <-] s. done.
  - exists s'. split; [exact E|]. revert E. vm_compute. by intros [= <-].
Defined.

Lemma migrations_need_pause_witness :
  exists body, handle (P := hook_platform) api_deps (MigrateMixinSplit "aaaaaaaaaaaaaaaaaaaaaaaa")
    (api_state hooked_binding) = (Ok (MkApiResponse 409 body), api_state hooked_binding).
Proof.
  destruct (migrations_need_pause (P := hook_platform) api_deps (api_state hooked_binding) _ _ _ _ hooked_deletable)
    as [Hmig _].
  apply (Hmig eq_refl). right. left.
Defined.

Lemma pause_stops_webhooks_witness :
  let s' := (handle (P := hook_platform) api_deps (PatchBinding "aaaaaaaaaaaaaaaaaaaaaaaa" [("disabled", VBool true)])
               (api_state hooked_binding)).2 in
  exists h', webhook (P := hook_platform) "key" (Webhook.hook_request "s3cret" false)
      (MkHttp (MkEngine [] (lc_store s') [] (init 10) tt 0 0) empty_creds []) =
    (Ok (MkResponse 200 (Some [("accepted", VBool false); ("reason", VStr "binding disabled")])), h').
Proof.
  intros s'.
  destruct (pause_stops_webhooks (P := hook_platform) (X := unit) api_deps (api_state hooked_binding) s' _ _ _ _
              (match (handle (P := hook_platform) api_deps
                        (PatchBinding "aaaaaaaaaaaaaaaaaaaaaaaa" [("disabled", VBool true)])
                        (api_state hooked_binding)).1 with Ok r => r | Throw _ => api_error_json 0 "" end)
              "key" (Webhook.hook_request "s3cret" false)
              (MkHttp (MkEngine [] (lc_store s') [] (init 10) tt 0 0) empty_creds []) hooked_deletable)
    as (h' & E & _); try reflexivity.
  exists h'. exact E.
Defined.

(** *** The webhook calls *)

Definition empty_reply (status : Z) : HttpResponse := toy_reply status None VNull.

Lemma bind_hook_outcomes_witness :
  exists e s', onBindingCreate (P := hook_platform) "key" api_factory hooked_binding "https://pod" (api_state hooked_binding) =
    (Throw e, s') /\ bindings (lc_store s') = [hooked_binding].
Proof.
  destruct (bind_hook_outcomes (P := hook_platform) "key" api_factory hooked_binding "https://pod"
              (api_state hooked_binding) (api_state hooked_binding) (empty_reply 401) (MkServer api_routes []) ""
              "aaaaaaaaaaaaaaaaaaaaaaaa" hooked_binding) as (_ & _ & Huncaught).
  - split; [|done]. exists (MkCredentialResult "s3cret" CkWebhookSecret None None), (toy_gitlab_client, None),
      (api_state hooked_binding). split; [vm_compute; reflexivity|]. split; vm_compute; reflexivity.
  - reflexivity.
  - reflexivity.
  - split; [|reflexivity]. split; [|done]. by intros x ?%elem_of_nil.
  - destruct Huncaught as (e & s' & E & Hst); [by left|]. exists e, s'. split; [exact E | by rewrite Hst].
Defined.

Lemma rotation_loses_hook_witness :
  exists e s', rotateWebhookSecret (P := hook_platform) api_factory hooked_binding "new" "https://pod"
      (api_state hooked_binding) = (Throw e, s') /\ lc_store s' = lc_store (api_state hooked_binding).
Proof.
  destruct (rotation_loses_hook (P := hook_platform) api_factory hooked_binding "new" "https://pod" 9
              (toy_gitlab_client, None) (api_state hooked_binding) (api_state hooked_binding)
              (empty_reply 204) (MkServer api_routes []) (empty_reply 401) (MkServer api_routes []) "")
    as (e & s' & E & Hst & _); try reflexivity; try done.
  - by left.
  - exists e, s'. split; [exact E | exact Hst].
Defined.

Lemma epic_events_never_subscribed_witness :
  exists c s', index_client_factory (P := hook_platform) (W := Server) "key" (Some "git.example.org")
      "https://git.example.org" "oid-0" (api_state hooked_binding) = (Ok c, s') /\
    gc_token c.1 = "s3cret" /\
    prop_of (buildWebhookPayload "u" "t" (event_flags c)) "epic_events" = VBool false.
Proof.
  eexists _, _. split; [vm_compute; reflexivity|]. split; [reflexivity|].
  apply (epic_events_never_subscribed (P := hook_platform) (W := Server) "key" (Some "git.example.org")
           "https://git.example.org" "oid-0" _ (api_state hooked_binding) (api_state hooked_binding)).
  vm_compute. reflexivity.
Defined.
