(* ===== verification/Migrations.v ===== *)
(** * The one-off migrations

    src/sync/mixin-migration.ts moves the attributes of the legacy merge-
    request mixin into the two that replaced it; src/sync/reviewer-migration.ts
    turns reviewer labels into the typed reviewers.  Both visit the id-map
    entries of the binding's merge requests.  A loop over entries is a fold
    whose body is a definition.

    The flag the mixin migration polls is no property of a binding that the
    program ever sets, so it is an argument; the poll runs on fuel, and the
    time it sleeps passes with the clock. *)

From S2P Require Import Prelude JsMap JsString JsVal Metrics Platform Conflict Mongo Store Huly Sync.
From S2P Require Import TxSubscriber Caches MergeRequests GitLabMaps.
Open Scope nat_scope.
Open Scope string_scope.
Open Scope list_scope.

Definition CORE_FIELD_KEYS : list string :=
  ["sourceBranch"; "targetBranch"; "draft"; "mergedAt"; "mergeStatus"; "webUrl"; "gitlabIid"; "gitlabProjectId"].

Definition REVIEW_FIELD_KEYS : list string :=
  ["reviewers"; "approvedBy"; "approvalsRequired"; "approvalStatus"; "diffWebUrl"; "changedFiles";
   "approvalRules"; "iteration"; "parentEpicIid"].

Definition DEFAULT_DRAIN_TIMEOUT_MS : Z := 5 * 60 * 1000.
Definition REVIEWER_LABEL_PREFIX : string := "gitlab:reviewer:".

Record MixinSplitResult := MkMixinSplitResult {
  ms_mrsScanned : nat;
  ms_legacyStripped : nat;
  ms_coreWritten : nat;
  ms_reviewWritten : nat;
  ms_unresolvedCount : nat;
  ms_stripFailed : nat
}.

(** How the mixin migration ends. *)
Inductive MixinSplitOutcome :=
  | DrainTimedOut
  | UnpausedDuringDrain
  | Migrated (r : MixinSplitResult).

(** [pickFields]: the defined properties among [keys]. *)
Definition pickFields (src : record) (keys : list string) : record :=
  omap (fun k => if is_defined (prop_of src k) then Some (k, prop_of src k) else None) keys.

(** The merge-request entries of a binding: the query by prefix. *)
Definition binding_mr_entry (binding : BindingDoc) (d : IdMapDoc) : bool :=
  bool_decide (im_workspaceUuid d = bd_workspaceUuid binding) &&
  bool_decide (im_gitlabKind d = KMergeRequest) &&
  starts_with (num_to_string (bd_gitlabProjectId binding) +:+ ":") (im_gitlabId d).

(** [x !== undefined && Object.keys(x).length > 0] *)
Definition has_keys (r : option record) : bool :=
  match r with Some (_ :: _) => true | _ => false end.

Section Migrations.
Context {Coll : Type -> Type} `{Mongo Coll} {P : Platform} {HU GL AC : Type} `{HulyClient HU} `{AccountClient AC}.
Abbreviation MM := (M (Store Coll * SyncState HU GL AC)).

Definition mr_entries (binding : BindingDoc) : MM (list IdMapDoc) :=
  gets (fun s => find_docs (binding_mr_entry binding) (idmap s.1)).

Definition find_issue (ref : string) : MM (option HulyDoc) :=
  on_huly (findOneDoc HULY_CLASS_ISSUE [("_id", VStr ref)]).

(** ** src/sync/mixin-migration.ts *)

Section Drain.
Context (backfillInFlight : BindingDoc -> bool) (bindingId : string).

Definition in_flight (doc : option BindingDoc) : bool :=
  match doc with Some d => backfillInFlight d | None => false end.

(** The [while] loop; [None] when the fuel is used up. *)
Fixpoint drain_loop (fuel : nat) (deadline : Z) : MM (option bool) :=
  match fuel with
  | O => ret None
  | S fuel =>
      let! now := date_now in
      if (now <? deadline)%Z then
        let! cur := on_db (getBinding bindingId) in
        if negb (in_flight cur) then ret (Some true) else drain_loop fuel deadline
      else
        let! final := on_db (getBinding bindingId) in
        ret (Some (negb (in_flight final)))
  end.

Definition waitForBackfillDrain (fuel : nat) (timeoutMs : Z) : MM (option bool) :=
  if (timeoutMs <=? 0)%Z then ret (Some true)
  else
    let! now := date_now in
    drain_loop fuel (now + timeoutMs).
End Drain.

(** Reading, and counting in the result. *)
Definition add_core (r : MixinSplitResult) : MixinSplitResult :=
  MkMixinSplitResult (ms_mrsScanned r) (ms_legacyStripped r) (S (ms_coreWritten r)) (ms_reviewWritten r)
    (ms_unresolvedCount r) (ms_stripFailed r).
Definition add_review (r : MixinSplitResult) : MixinSplitResult :=
  MkMixinSplitResult (ms_mrsScanned r) (ms_legacyStripped r) (ms_coreWritten r) (S (ms_reviewWritten r))
    (ms_unresolvedCount r) (ms_stripFailed r).
Definition add_scanned (r : MixinSplitResult) : MixinSplitResult :=
  MkMixinSplitResult (S (ms_mrsScanned r)) (ms_legacyStripped r) (ms_coreWritten r) (ms_reviewWritten r)
    (ms_unresolvedCount r) (ms_stripFailed r).
Definition add_unresolved (r : MixinSplitResult) : MixinSplitResult :=
  MkMixinSplitResult (ms_mrsScanned r) (ms_legacyStripped r) (ms_coreWritten r) (ms_reviewWritten r)
    (S (ms_unresolvedCount r)) (ms_stripFailed r).
Definition add_stripped (failed : bool) (r : MixinSplitResult) : MixinSplitResult :=
  if failed then
    MkMixinSplitResult (ms_mrsScanned r) (ms_legacyStripped r) (ms_coreWritten r) (ms_reviewWritten r)
      (ms_unresolvedCount r) (S (ms_stripFailed r))
  else
    MkMixinSplitResult (ms_mrsScanned r) (S (ms_legacyStripped r)) (ms_coreWritten r) (ms_reviewWritten r)
      (ms_unresolvedCount r) (ms_stripFailed r).

(** Step 3, second half, and steps 4 and 4a: the review mixin, the strip and
    its verification. *)
Definition finish_split (space issueRef : string) (legacyAttrs : record) (hasNewReview : bool)
    (r : MixinSplitResult) : MM MixinSplitResult :=
  let reviewPayload := pickFields legacyAttrs REVIEW_FIELD_KEYS in
  let! r :=
    if negb hasNewReview && (0 <? List.length reviewPayload)%nat then
      on_huly (createMixin issueRef HULY_CLASS_ISSUE space MR_REVIEW_MIXIN_DOC (withOriginatedMarker reviewPayload)) ;;!
      ret (add_review r)
    else ret r in
  let legacyKeys := jkeys legacyAttrs in
  on_huly (updateMixin issueRef HULY_CLASS_ISSUE space MR_MIXIN (map (fun k => (k, VUndef)) legacyKeys)) ;;!
  let! verifyDoc := find_issue issueRef in
  let verifyMixin := match verifyDoc with Some d => mixin_of MR_MIXIN d | None => None end in
  let failed := match verifyMixin with
                | Some m => existsb (fun k => is_defined (prop_of m k)) legacyKeys
                | None => false
                end in
  ret (add_stripped failed r).

(** The body of the loop over entries. *)
Definition split_entry (space : string) (entry : IdMapDoc) (r : MixinSplitResult) : MM MixinSplitResult :=
  let r := add_scanned r in
  if negb (bool_decide (im_hulyClass entry = HULY_CLASS_ISSUE)) then ret r
  else
    let issueRef := im_hulyRef entry in
    let! issueDoc := find_issue issueRef in
    match issueDoc with
    | None => ret r
    | Some doc =>
        match mixin_of MR_MIXIN doc with
        | None | Some [] => ret r
        | Some legacyAttrs =>
            let hasNewReview := has_keys (mixin_of MR_REVIEW_MIXIN_DOC doc) in
            if has_keys (mixin_of MR_CORE_MIXIN doc) then finish_split space issueRef legacyAttrs hasNewReview r
            else
              let corePayload := pickFields legacyAttrs CORE_FIELD_KEYS in
              if existsb (fun k => negb (is_defined (prop_of corePayload k))) CORE_FIELD_KEYS
              then ret (add_unresolved r)
              else
                on_huly (createMixin issueRef HULY_CLASS_ISSUE space MR_CORE_MIXIN (withOriginatedMarker corePayload)) ;;!
                finish_split space issueRef legacyAttrs hasNewReview (add_core r)
        end
    end.

Fixpoint split_entries (space : string) (entries : list IdMapDoc) (r : MixinSplitResult) : MM MixinSplitResult :=
  match entries with
  | [] => ret r
  | e :: rest => let! r := split_entry space e r in split_entries space rest r
  end.

(** [None] when the poll ran out of fuel. *)
Definition migrateMixinSplit (fuel : nat) (backfillInFlight : BindingDoc -> bool) (drainTimeoutMs : option Z)
    (binding : BindingDoc) : MM (option MixinSplitOutcome) :=
  let! _ := date_now in
  let! drained := waitForBackfillDrain backfillInFlight (bd_id binding) fuel
                    (default DEFAULT_DRAIN_TIMEOUT_MS drainTimeoutMs) in
  match drained with
  | None => ret None
  | Some false => ret (Some DrainTimedOut)
  | Some true =>
      let! bindingAfterDrain := on_db (getBinding (bd_id binding)) in
      if match bindingAfterDrain with Some b => bd_disabled b | None => false end then
        let! entries := mr_entries binding in
        let! r := split_entries (bd_hulyProjectRef binding) entries (MkMixinSplitResult 0 0 0 0 0 0) in
        ret (Some (Migrated r))
      else ret (Some UnpausedDuringDrain)
  end.

(** ** src/sync/reviewer-migration.ts *)

Record ReviewerMigrationResult := MkReviewerResult {
  rm_mrsScanned : nat;
  rm_labelsStripped : nat;
  rm_reviewersResolved : nat;
  rm_unresolvedCount : nat
}.

(** [[...new Set(arr)]] *)
Fixpoint dedup_from (seen l : list jsval) : list jsval :=
  match l with
  | [] => []
  | x :: l => if bool_decide (x ∈ seen) then dedup_from seen l else x :: dedup_from (x :: seen) l
  end.
Definition dedup (l : list jsval) : list jsval := dedup_from [] l.

(** [t.title.startsWith(REVIEWER_LABEL_PREFIX)], with what follows it. *)
Definition reviewer_of (t : HulyDoc) : res (option string) :=
  match doc_field "title" t with
  | Some (VStr title) => Ok (after_prefix REVIEWER_LABEL_PREFIX title)
  | _ => Throw (JsError "TypeError")
  end.

(** The reviewer labels among the tags: their refs and usernames. *)
Fixpoint reviewer_tags (tags : list HulyDoc) : res (list (string * string)) :=
  match tags with
  | [] => Ok []
  | t :: rest =>
      let? username := reviewer_of t in
      let? others := reviewer_tags rest in
      Ok (match username with Some u => (hd_id t, u) :: others | None => others end)
  end.

Fixpoint resolve_reviewers (usernames : list string) : MM (list jsval * nat) :=
  match usernames with
  | [] => ret ([], 0)
  | u :: rest =>
      let! person := mapByGitlabUser (MkIdentityUser u VUndef VUndef (VStr u)) in
      match person with
      | Some p => let! others := resolve_reviewers rest in ret (VStr p :: others.1, others.2)
      | None =>
          count MIGRATION_REVIEWER_UNRESOLVED ;;!
          let! others := resolve_reviewers rest in ret (others.1, S others.2)
      end
  end.

Definition readExistingReviewers (issueRef : string) : MM jsval :=
  let! issue := find_issue issueRef in
  ret (js_coalesce (prop_of (readMRMixinAttributes issue None) "reviewers") (VArr [])).

Definition reviewer_entry (space : string) (entry : IdMapDoc) (r : ReviewerMigrationResult)
    : MM ReviewerMigrationResult :=
  let r := MkReviewerResult (S (rm_mrsScanned r)) (rm_labelsStripped r) (rm_reviewersResolved r)
             (rm_unresolvedCount r) in
  if negb (bool_decide (im_hulyClass entry = HULY_CLASS_ISSUE)) then ret r
  else
    let issueRef := im_hulyRef entry in
    let! hulyIssue := find_issue issueRef in
    match hulyIssue with
    | None => ret r
    | Some issue =>
        let! currentLabels := iterate (js_coalesce (default VUndef (doc_field "labels" issue)) (VArr [])) in
        match currentLabels with
        | [] => ret r
        | _ =>
            let! tagDocs := on_huly (findAllDocs CLASS_TAG_ELEMENT
                                       [("_id", VObj [("$in", VArr currentLabels)])]) in
            let! reviewerTagDocs := lift_res (reviewer_tags tagDocs) in
            match reviewerTagDocs with
            | [] => ret r
            | _ =>
                let reviewerTagRefs := map (fun t => VStr t.1) reviewerTagDocs in
                let remainingLabels :=
                  List.filter (fun l => negb (bool_decide (l ∈ reviewerTagRefs))) currentLabels in
                let! resolved := resolve_reviewers (map snd reviewerTagDocs) in
                let! existing := readExistingReviewers issueRef in
                let! existing := iterate existing in
                let mergedReviewers := dedup (existing ++ resolved.1) in
                on_huly (updateDoc HULY_CLASS_ISSUE space issueRef
                           (withOriginatedMarker [("labels", VArr remainingLabels)])) ;;!
                on_huly (updateMixin issueRef HULY_CLASS_ISSUE space MR_MIXIN
                           (withOriginatedMarker [("reviewers", VArr mergedReviewers)])) ;;!
                ret (MkReviewerResult (rm_mrsScanned r) (rm_labelsStripped r + List.length reviewerTagDocs)
                       (rm_reviewersResolved r + List.length resolved.1) (rm_unresolvedCount r + resolved.2))
            end
        end
    end.

Fixpoint reviewer_entries (space : string) (entries : list IdMapDoc) (r : ReviewerMigrationResult)
    : MM ReviewerMigrationResult :=
  match entries with
  | [] => ret r
  | e :: rest => let! r := reviewer_entry space e r in reviewer_entries space rest r
  end.

Definition migrateReviewerLabels (binding : BindingDoc) : MM ReviewerMigrationResult :=
  let! entries := mr_entries binding in
  let! r := reviewer_entries (bd_hulyProjectRef binding) entries (MkReviewerResult 0 0 0 0) in
  let! _ := date_now in
  ret r.
End Migrations.
