(* ===== verification/MigrationsProofs.v ===== *)
(** * The one-off migrations keep what readers see, or do not

    The mixin migration moves a request's attributes without changing what
    [readMRMixinAttributes] answers, empties the legacy mixin when the
    platform takes [undefined] attributes away, resumes interrupted runs, and
    touches no document its binding's id-map entries do not name.  The reviewer
    migration, on requests whose mixin was already split, takes the reviewer
    labels away and writes the reviewers where no reader looks. *)

From S2P Require Import Prelude JsMap JsString JsVal Metrics Platform Conflict Mongo Store Huly Sync.
From S2P Require Import TxSubscriber Caches MergeRequests SyncToy IssuesProofs MergeRequestsProofs.
From S2P Require Import MergeRequestsRemote GitLabMaps Credentials Engine Webhook Migrations.
Open Scope nat_scope.
Open Scope string_scope.
Open Scope list_scope.

(** ** Payloads *)

Lemma pickFields_get src keys k :
  jget k (pickFields src keys) =
  if bool_decide (k ∈ keys) && is_defined (prop_of src k) then Some (prop_of src k) else None.
Proof.
  unfold pickFields. induction keys as [|k' keys IH]; [done|]. cbn [omap list_omap].
  destruct (is_defined (prop_of src k')) eqn:Ed.
  - cbn [jget fst snd]. destruct (decide (k = k')) as [->|Hk].
    + rewrite bool_decide_eq_true_2, Ed by by left. done.
    + rewrite IH, (bool_decide_ext (k ∈ k' :: keys) (k ∈ keys)); [done|]. rewrite elem_of_cons. naive_solver.
  - destruct (decide (k = k')) as [->|Hk].
    + rewrite IH, Ed, !andb_false_r. done.
    + rewrite IH, (bool_decide_ext (k ∈ k' :: keys) (k ∈ keys)); [done|]. rewrite elem_of_cons. naive_solver.
Qed.

Lemma pickFields_wf src keys : NoDup keys -> jwf (pickFields src keys).
Proof.
  intros Hk. unfold jwf, jkeys. eapply (sublist_NoDup _ keys); [done|]. clear Hk. unfold pickFields.
  induction keys as [|k keys IH]; cbn [omap list_omap]; [done|].
  destruct (is_defined _); cbn [map fst]; by constructor.
Qed.

(** What is stored when a payload is written to an absent mixin. *)
Definition stored_pick (src : record) (keys : list string) : record :=
  assign (withOriginatedMarker (pickFields src keys)) [].

Lemma stored_pick_get src keys k :
  NoDup keys -> k <> "_originated" -> jget k (stored_pick src keys) = jget k (pickFields src keys).
Proof.
  intros Hn Hk. unfold stored_pick. rewrite jget_assign_nil by by apply jwf_marked, pickFields_wf.
  rewrite jget_marked, decide_False by done. rewrite pickFields_get.
  destruct (_ && _) eqn:E; [|done]. apply andb_prop in E as [_ E]. by destruct (prop_of src k).
Qed.

Lemma stored_pick_keys src keys : NoDup keys -> has_keys (Some (stored_pick src keys)) = true.
Proof.
  intros Hn. assert (jget "_originated" (stored_pick src keys) = Some (VStr "gitlab")) as E.
  { unfold stored_pick. rewrite jget_assign_nil by by apply jwf_marked, pickFields_wf.
    by rewrite jget_marked. }
  by destruct (stored_pick src keys).
Qed.

(** Writing [undefined] to every attribute leaves them. *)
Lemma assign_undefined keys attrs : assign (map (fun k => (k, VUndef)) keys) attrs = attrs.
Proof. unfold assign. induction keys as [|k keys IH]; [done|]. cbn [map List.filter snd]. by rewrite bool_decide_eq_true_2. Qed.

(** The attributes of a mixin whose every key is set to [undefined]. *)
Definition leftover (removes : bool) (legacy : record) : record := if removes then [] else legacy.

Lemma removed_by_keys keys k : removed_by (map (fun k => (k, VUndef)) keys) k = bool_decide (k ∈ keys).
Proof.
  unfold removed_by. apply bool_decide_ext. induction keys as [|k' keys IH]; cbn [map jget].
  - split; [done|]. by intros ?%elem_of_nil.
  - rewrite elem_of_cons. destruct (decide (k = k')) as [->|]; [by split; [left|]|]. rewrite IH. naive_solver.
Qed.

Lemma change_undefined removes keys attrs :
  change removes (map (fun k => (k, VUndef)) keys) attrs =
  if removes then List.filter (fun e => negb (bool_decide (e.1 ∈ keys))) attrs else attrs.
Proof.
  unfold change. rewrite assign_undefined. destruct removes; [|done].
  apply List.filter_ext. intros e. by rewrite removed_by_keys.
Qed.

Lemma stripped_get keys k attrs :
  k ∈ keys -> jget k (change true (map (fun k => (k, VUndef)) keys) attrs) = None.
Proof.
  intros Hk. rewrite change_undefined.
  pose proof (jget_filter_keys k (fun k => negb (bool_decide (k ∈ keys))) attrs) as E. cbn beta in E.
  rewrite E. by rewrite bool_decide_eq_true_2.
Qed.

Lemma change_strip removes legacy :
  change removes (map (fun k => (k, VUndef)) (jkeys legacy)) legacy = leftover removes legacy.
Proof.
  rewrite change_undefined. destruct removes; [|done]. cbn [leftover].
  assert (forall l, l ⊆ legacy ->
    List.filter (fun e : string * jsval => negb (bool_decide (e.1 ∈ jkeys legacy))) l = []) as Hf; [|by apply Hf].
  induction l as [|e l IH]; intros Hl; [done|]. cbn [List.filter]. rewrite bool_decide_eq_true_2.
  - cbn [negb]. apply IH. intros x Hx. apply Hl. by right.
  - apply list_elem_of_fmap. exists e. split; [done|]. apply Hl. by left.
Qed.

(** ** The stages of one document

    [core] and [review] say which of the two mixins the migration has
    written, [stripped] whether it has stripped the legacy mixin, which it
    does last; an interrupted run leaves any combination before that. *)
Definition review_payload (legacy : record) : option record :=
  match pickFields legacy REVIEW_FIELD_KEYS with [] => None | _ => Some (stored_pick legacy REVIEW_FIELD_KEYS) end.

Definition split_stage (removes : bool) (attrs legacy : record) (core review stripped : bool) (d : HulyDoc) : Prop :=
  hd_attrs d = attrs /\ mixin_of MR_MIXIN d = Some (if stripped then leftover removes legacy else legacy) /\
  mixin_of MR_CORE_MIXIN d = (if core then Some (stored_pick legacy CORE_FIELD_KEYS) else None) /\
  mixin_of MR_REVIEW_MIXIN_DOC d = (if review then review_payload legacy else None).

Definition written_first (core review stripped : bool) : Prop := stripped = true -> core = true /\ review = true.

Definition core_complete (legacy : record) : Prop := forall k, k ∈ CORE_FIELD_KEYS -> prop_of legacy k <> VUndef.

Lemma core_keys_nodup : NoDup CORE_FIELD_KEYS.
Proof. by apply (bool_decide_eq_true_1 _). Qed.
Lemma review_keys_nodup : NoDup REVIEW_FIELD_KEYS.
Proof. by apply (bool_decide_eq_true_1 _). Qed.

(** A reader of a split document sees the attributes of the legacy mixin. *)
Lemma stage_view rm attrs legacy stripped d k :
  split_stage rm attrs legacy true true stripped d -> k ∈ CORE_FIELD_KEYS ++ REVIEW_FIELD_KEYS ->
  prop_of (readMRMixinAttributes (Some d) None) k = prop_of legacy k.
Proof.
  intros (_ & _ & Hc & Hr) Hk.
  assert (k <> "_originated") as Ho.
  { intros ->. by apply (bool_decide_eq_true_2 _) in Hk. }
  assert (jget k (readMRMixinAttributes (Some d) None) =
          match jget k (default [] (review_payload legacy)) with
          | Some v => Some v
          | None => jget k (stored_pick legacy CORE_FIELD_KEYS)
          end) as E.
  { unfold readMRMixinAttributes. rewrite Hc, Hr. unfold review_payload.
    destruct (pickFields legacy REVIEW_FIELD_KEYS); cbn [merged_mixins default from_option id]; [done|].
    apply jget_set_all, jwf_assign, jwf_nil. }
  assert (jget k (default [] (review_payload legacy)) = jget k (pickFields legacy REVIEW_FIELD_KEYS)) as Er.
  { unfold review_payload. rewrite <-(stored_pick_get legacy REVIEW_FIELD_KEYS) by (done || apply review_keys_nodup).
    destruct (pickFields legacy REVIEW_FIELD_KEYS) eqn:Ep; [|done].
    rewrite stored_pick_get, Ep by (done || apply review_keys_nodup). done. }
  unfold prop_of at 1. rewrite E, Er, stored_pick_get, !pickFields_get by (done || apply core_keys_nodup).
  apply elem_of_app in Hk.
  destruct (is_defined (prop_of legacy k)) eqn:Ed; [|rewrite !andb_false_r; by destruct (prop_of legacy k)].
  rewrite !andb_true_r. destruct (bool_decide (k ∈ REVIEW_FIELD_KEYS)) eqn:E1; [done|].
  apply bool_decide_eq_false in E1. rewrite bool_decide_eq_true_2 by naive_solver. done.
Qed.

(** ** Runs *)

Section Runs.
Context {Coll : Type -> Type} `{HL : MongoLaws Coll} {P : Platform} {HU GL AC : Type}.
Context `{HHL : HulyLaws HU} `{AccountClient AC}.
Abbreviation X := (SyncState HU GL AC).
Implicit Types (s : Store Coll * X).

(** Steps that change at most the issue [ref], and steps that change neither
    the database nor the workspace. *)
Definition only (ref : string) s s' : Prop := forall ref0, ref0 <> ref -> issue_at ref0 s' = issue_at ref0 s.
Definition quiet s s' : Prop := s'.1 = s.1 /\ docs (sy_huly s'.2) = docs (sy_huly s.2).

#[local] Instance only_preorder ref : PreOrder (only ref).
Proof. split; [by intros ? ?|]. intros s1 s2 s3 E1 E2 ref0 Hr. by rewrite E2, E1. Qed.
#[local] Instance quiet_preorder : PreOrder quiet.
Proof. split; [done|]. intros s1 s2 s3 [E1 E2] [E3 E4]. split; congruence. Qed.

Lemma quiet_issue_at s s' ref : quiet s s' -> issue_at ref s' = issue_at ref s.
Proof. intros [_ E]. unfold issue_at. by rewrite E. Qed.

Lemma quiet_only ref {B} (m : M (Store Coll * X) B) : moves quiet m -> moves (only ref) m.
Proof. intros Hm s b s' E ref0 _. by eapply quiet_issue_at, Hm. Qed.

(** A mixin write, as the issues see it. *)
Lemma mixin_create ref cls sp mixin attrs s s' :
  on_huly (createMixin ref cls sp mixin attrs) s = (Ok tt, s') ->
  forall ref0, issue_at ref0 s' =
    option_map (fun d => if decide (ref0 = ref) then set_mixin mixin attrs d else d) (issue_at ref0 s).
Proof.
  intros (h & E & ->)%huly_run ref0. apply issue_at_on_doc; [done..|]. cbn [snd set_huly sy_huly].
  by apply createMixin_ok in E.
Qed.

Lemma mixin_update ref cls sp mixin attrs s s' :
  on_huly (updateMixin ref cls sp mixin attrs) s = (Ok tt, s') ->
  forall ref0, issue_at ref0 s' =
    option_map (fun d => if decide (ref0 = ref) then change_mixin (undefined_removes HU) mixin attrs d else d)
      (issue_at ref0 s).
Proof.
  intros (h & E & ->)%huly_run ref0. apply issue_at_on_doc; [done..|]. cbn [snd set_huly sy_huly].
  by apply updateMixin_ok in E.
Qed.

Lemma moves_mixin_write m ref cls sp mixin attrs :
  m = createMixin ref cls sp mixin attrs \/ m = updateMixin ref cls sp mixin attrs ->
  moves (only ref) (on_huly (GL := GL) (AC := AC) (Coll := Coll) m).
Proof.
  intros Hm s [] s' E ref0 Hr. destruct Hm as [-> | ->];
    [rewrite (mixin_create _ _ _ _ _ _ _ E)|rewrite (mixin_update _ _ _ _ _ _ _ E)];
    (destruct (issue_at ref0 s); [|done]; cbn; by rewrite decide_False).
Qed.

Lemma moves_find_issue ref : moves quiet (find_issue (Coll := Coll) (GL := GL) (AC := AC) ref).
Proof. intros s o s' (h & E & ->)%huly_run. apply findOne_ok in E as [E _]. split; [done|]. cbn. done. Qed.

Lemma find_issue_at ref s o s' :
  find_issue ref s = (Ok o, s') -> o = issue_at ref s /\ quiet s s'.
Proof.
  intros E. split; [|by eapply moves_find_issue]. apply huly_run in E as (h & E & _).
  by apply findOne_ok in E as [_ ->].
Qed.

Ltac split_moves :=
  repeat first
    [ apply moves_bind; [apply _| |intros]
    | apply moves_ret; apply _
    | apply quiet_only, moves_find_issue
    | eapply moves_mixin_write; by (left + right)
    | match goal with |- moves _ (match ?x with _ => _ end) => destruct x end ].

Lemma moves_finish_split space ref legacy hasNewReview r :
  moves (only ref) (finish_split (Coll := Coll) (GL := GL) (AC := AC) space ref legacy hasNewReview r).
Proof. unfold finish_split. split_moves. Qed.

Lemma moves_split_entry space e r :
  moves (only (im_hulyRef e)) (split_entry (Coll := Coll) (GL := GL) (AC := AC) space e r).
Proof. unfold split_entry. split_moves; try apply moves_finish_split. Qed.

Lemma split_entries_isolated space entries r s r' s' ref :
  split_entries space entries r s = (Ok r', s') -> ref ∉ map im_hulyRef entries ->
  issue_at ref s' = issue_at ref s.
Proof.
  revert r s. induction entries as [|e entries IH]; intros r s; [by intros [= _ <-]|].
  cbn [split_entries map]. intros (r1 & s1 & E & E')%bind_inv_ok [Hne Hni]%not_elem_of_cons.
  rewrite (IH _ _ E' Hni). by eapply moves_split_entry.
Qed.

(** ** One document through its stages *)

Lemma mixin_of_set m m' attrs d :
  mixin_of m (set_mixin m' attrs d) =
  if decide (m = m') then Some (assign attrs (default [] (mixin_of m' d))) else mixin_of m d.
Proof. unfold mixin_of, set_mixin. cbn [hd_mixins]. rewrite jget_set. by repeat destruct (decide _); subst. Qed.

Lemma mixin_of_change m m' rm attrs d :
  mixin_of m (change_mixin rm m' attrs d) =
  if decide (m = m') then Some (change rm attrs (default [] (mixin_of m' d))) else mixin_of m d.
Proof. unfold mixin_of, change_mixin. cbn [hd_mixins]. rewrite jget_set. by repeat destruct (decide _); subst. Qed.

Abbreviation rm := (undefined_removes HU).

Lemma stage_core space ref attrs legacy review d s s' :
  issue_at ref s = Some d -> split_stage rm attrs legacy false review false d ->
  on_huly (createMixin ref HULY_CLASS_ISSUE space MR_CORE_MIXIN
    (withOriginatedMarker (pickFields legacy CORE_FIELD_KEYS))) s = (Ok tt, s') ->
  exists d', issue_at ref s' = Some d' /\ split_stage rm attrs legacy true review false d'.
Proof.
  intros Hd (Ha & Hl & Hc & Hr) E.
  rewrite (mixin_create _ _ _ _ _ _ _ E), Hd. cbn [option_map].
  rewrite decide_True by done. eexists. split; [done|].
  unfold split_stage. rewrite !mixin_of_set, Hc. by split_and!.
Qed.

Lemma stage_finish space ref attrs legacy core review d r s r' s' :
  issue_at ref s = Some d -> split_stage rm attrs legacy core review false d ->
  finish_split space ref legacy (has_keys (mixin_of MR_REVIEW_MIXIN_DOC d)) r s = (Ok r', s') ->
  exists d', issue_at ref s' = Some d' /\ split_stage rm attrs legacy core true true d'.
Proof.
  intros Hd Hst. unfold finish_split. cbv zeta.
  intros (r1 & s1 & E1 & ([] & s2 & E2 & (o & s3 & [_ Q]%find_issue_at & [= _ <-])%bind_inv_ok)%bind_inv_ok)%bind_inv_ok.
  assert (exists d1, issue_at ref s1 = Some d1 /\ split_stage rm attrs legacy core true false d1) as (d1 & Hd1 & Ha & Hl & Hc & Hr).
  { destruct Hst as (Ha & Hl & Hc & Hr). unfold review_payload in *.
    destruct (pickFields legacy REVIEW_FIELD_KEYS) as [|p ps] eqn:Ep.
    { rewrite andb_false_r in E1. injection E1 as _ <-. exists d. split; [done|]. unfold split_stage, review_payload.
      rewrite Ep. split_and!; try done. by destruct review. }
    cbn [List.length Nat.ltb Nat.leb] in E1. destruct review.
    { rewrite Hr, stored_pick_keys in E1 by apply review_keys_nodup. injection E1 as _ <-. exists d.
      split; [done|]. unfold split_stage, review_payload. by rewrite Ep. }
    rewrite Hr in E1. cbn [has_keys negb andb] in E1. rewrite <-Ep in E1.
    apply bind_inv_ok in E1 as ([] & s0 & E0 & [= _ <-]).
    rewrite (mixin_create _ _ _ _ _ _ _ E0), Hd. cbn [option_map].
    rewrite decide_True by done. eexists. split; [done|].
    unfold split_stage, review_payload. rewrite !mixin_of_set, Hr, Ep. unfold stored_pick. by rewrite Ep. }
  rewrite (quiet_issue_at s2 s3) by done.
  rewrite (mixin_update _ _ _ _ _ _ _ E2), Hd1. cbn [option_map].
  rewrite decide_True by done. eexists. split; [done|].
  unfold split_stage. rewrite !mixin_of_change, Hl. cbn [default from_option id].
  by rewrite change_strip.
Qed.

(** What a visit does to an issue that is not stripped yet. *)
Lemma stage_visit space e attrs legacy core review d r s r' s' :
  core_complete legacy -> issue_at (im_hulyRef e) s = Some d -> split_stage rm attrs legacy core review false d ->
  im_hulyClass e = HULY_CLASS_ISSUE ->
  split_entry space e r s = (Ok r', s') ->
  exists d', issue_at (im_hulyRef e) s' = Some d' /\ split_stage rm attrs legacy true true true d'.
Proof.
  intros Hcomp Hd Hst Hcls E.
  unfold split_entry in E. cbv zeta in E. rewrite bool_decide_eq_true_2 in E by done. cbn [negb] in E.
  apply bind_inv_ok in E as (o & s1 & [-> Q]%find_issue_at & E).
  rewrite Hd in E. rewrite <-(quiet_issue_at s s1) in Hd by done.
  pose proof Hst as (Ha & Hl & Hc & Hr). rewrite Hl in E.
  destruct legacy as [|p ps]; [by destruct (Hcomp "draft"); [apply (bool_decide_eq_true_1 _)|]|].
  set (legacy := p :: ps) in *. rewrite Hc in E. destruct core.
  - rewrite stored_pick_keys in E by apply core_keys_nodup. exact (stage_finish _ _ _ _ _ _ _ _ _ _ _ Hd Hst E).
  - cbn [has_keys] in E. destruct (existsb _ _) eqn:Ex.
    { apply existsb_exists in Ex as (k & Hk%list_elem_of_In & Hu). exfalso.
      specialize (Hcomp k Hk). unfold prop_of at 1 in Hu. rewrite pickFields_get, bool_decide_eq_true_2 in Hu by done.
      by destruct (prop_of legacy k). }
    apply bind_inv_ok in E as ([] & s2 & Ec & E).
    destruct (stage_core _ _ _ _ _ _ _ _ Hd Hst Ec) as (d2 & Hd2 & Hst2).
    assert (mixin_of MR_REVIEW_MIXIN_DOC d = mixin_of MR_REVIEW_MIXIN_DOC d2) as Er
      by (destruct Hst2 as (_ & _ & _ & ->); done).
    rewrite Er in E. exact (stage_finish _ _ _ _ _ _ _ _ _ _ _ Hd2 Hst2 E).
Qed.

(** A visit of an issue without legacy attributes changes nothing. *)
Lemma visit_stripped space e d r s r' s' :
  issue_at (im_hulyRef e) s = Some d -> mixin_of MR_MIXIN d = Some [] ->
  split_entry space e r s = (Ok r', s') -> issue_at (im_hulyRef e) s' = Some d.
Proof.
  intros Hd Hm E. unfold split_entry in E. cbv zeta in E.
  destruct (negb _); [by injection E as _ <-|].
  apply bind_inv_ok in E as (o & s1 & [-> Q]%find_issue_at & E). rewrite Hd, Hm in E.
  injection E as _ <-. by rewrite (quiet_issue_at s s1).
Qed.

(** The stages before and after a visit of the issue, or of another. *)
Definition later (c v x c' v' x' : bool) : Prop :=
  (c = true -> c' = true) /\ (v = true -> v' = true) /\ (x = true -> x' = true).

Lemma stage_entry space e attrs legacy core review stripped d r s r' s' ref :
  core_complete legacy -> written_first core review stripped ->
  issue_at ref s = Some d -> split_stage rm attrs legacy core review stripped d ->
  split_entry space e r s = (Ok r', s') ->
  exists core' review' stripped' d', issue_at ref s' = Some d' /\
    split_stage rm attrs legacy core' review' stripped' d' /\ written_first core' review' stripped' /\
    later core review stripped core' review' stripped' /\
    (im_hulyRef e = ref -> im_hulyClass e = HULY_CLASS_ISSUE -> stripped' = true).
Proof.
  intros Hcomp Hwf Hd Hst E. destruct (decide (im_hulyRef e = ref)) as [<- |Hne].
  2:{ exists core, review, stripped, d. rewrite (moves_split_entry _ _ _ _ _ _ E ref) by congruence. done. }
  destruct (decide (im_hulyClass e = HULY_CLASS_ISSUE)) as [Hcls|Hcls].
  2:{ exists core, review, stripped, d. unfold split_entry in E. cbv zeta in E.
      rewrite bool_decide_eq_false_2 in E by done. cbn [negb] in E. injection E as _ <-.
      split_and!; done. }
  assert (split_stage rm attrs legacy core review false d ->
    exists d', issue_at (im_hulyRef e) s' = Some d' /\ split_stage rm attrs legacy true true true d') as Hrun.
  { intros Hst'. by eapply stage_visit. }
  destruct stripped; [destruct rm eqn:Erm|].
  - pose proof Hst as (_ & Hm & _). cbn [leftover] in Hm.
    exists core, review, true, d. split; [by eapply visit_stripped|]. by split_and!.
  - destruct (Hrun Hst) as (d' & Hd' & Hst'). exists true, true, true, d'. by split_and!.
  - destruct (Hrun Hst) as (d' & Hd' & Hst'). exists true, true, true, d'. by split_and!.
Qed.

Lemma stage_entries space entries attrs legacy core review stripped d r s r' s' ref :
  core_complete legacy -> written_first core review stripped ->
  issue_at ref s = Some d -> split_stage rm attrs legacy core review stripped d ->
  split_entries space entries r s = (Ok r', s') ->
  exists core' review' stripped' d', issue_at ref s' = Some d' /\
    split_stage rm attrs legacy core' review' stripped' d' /\ written_first core' review' stripped' /\
    later core review stripped core' review' stripped' /\
    ((exists e, e ∈ entries /\ im_hulyRef e = ref /\ im_hulyClass e = HULY_CLASS_ISSUE) -> stripped' = true).
Proof.
  intros Hcomp. revert core review stripped d r s.
  induction entries as [|e entries IH]; intros core review stripped d r s Hwf Hd Hst.
  { intros [= _ <-]. exists core, review, stripped, d. split_and!; try done.
    intros (e & He & _). by apply elem_of_nil in He. }
  cbn [split_entries]. intros (r1 & s1 & E & E')%bind_inv_ok.
  destruct (stage_entry _ _ _ _ _ _ _ _ _ _ _ _ _ Hcomp Hwf Hd Hst E)
    as (c1 & v1 & x1 & d1 & Hd1 & Hst1 & Hwf1 & (Hc1 & Hv1 & Hx1) & He1).
  destruct (IH _ _ _ _ _ _ Hwf1 Hd1 Hst1 E') as (c2 & v2 & x2 & d2 & Hd2 & Hst2 & Hwf2 & (Hc2 & Hv2 & Hx2) & He2).
  exists c2, v2, x2, d2. do 3 (split; [done|]). split; [split_and!; auto|].
  intros (e0 & [-> |He0]%elem_of_cons & Hr0 & Hcl0); [|by apply He2; exists e0]. auto.
Qed.

(** *** The check after the strip *)

Lemma finish_split_checked space ref legacy hasNewReview r s r' s' :
  rm = true -> finish_split space ref legacy hasNewReview r s = (Ok r', s') ->
  ms_stripFailed r' = ms_stripFailed r.
Proof.
  intros Erm. unfold finish_split. cbv zeta.
  intros (r1 & s1 & E1 & ([] & s2 & E2 & (o & s3 & [-> Q]%find_issue_at & [= <- _])%bind_inv_ok)%bind_inv_ok)%bind_inv_ok.
  assert (ms_stripFailed r1 = ms_stripFailed r) as <-.
  { destruct (_ && _); [by apply bind_inv_ok in E1 as ([] & s0 & _ & [= <- _])|by injection E1 as <- _]. }
  rewrite (mixin_update _ _ _ _ _ _ _ E2). destruct (issue_at ref s1) as [d|]; [|done]. cbn [option_map].
  rewrite decide_True, mixin_of_change, decide_True, Erm by done.
  destruct (existsb _ _) eqn:Ex; [exfalso|done].
  apply existsb_exists in Ex as (k & Hk%list_elem_of_In & Hdef). unfold prop_of in Hdef.
  by rewrite stripped_get in Hdef.
Qed.

Lemma split_entries_checked space entries r s r' s' :
  rm = true -> split_entries space entries r s = (Ok r', s') -> ms_stripFailed r' = ms_stripFailed r.
Proof.
  intros Erm. revert r s. induction entries as [|e entries IH]; intros r s; [by intros [= <- _]|].
  cbn [split_entries]. intros (r1 & s1 & E & E')%bind_inv_ok. rewrite (IH _ _ E'). clear IH E'.
  unfold split_entry in E. cbv zeta in E. destruct (negb _); [by injection E as <- _|].
  apply bind_inv_ok in E as (o & s2 & _ & E).
  destruct o as [d|]; [|by injection E as <- _].
  destruct (mixin_of MR_MIXIN d) as [[|p ps]|]; [by injection E as <- _| |by injection E as <- _].
  destruct (has_keys _); [by apply (finish_split_checked _ _ _ _ _ _ _ _ Erm) in E|].
  destruct (existsb _ _); [by injection E as <- _|].
  apply bind_inv_ok in E as ([] & s3 & _ & E). by apply (finish_split_checked _ _ _ _ _ _ _ _ Erm) in E.
Qed.

(** ** The whole migration *)

Lemma moves_quiet_clock : moves quiet (date_now (Coll := Coll) (HU := HU) (GL := GL) (AC := AC)).
Proof. by intros s z s' [= _ <-]. Qed.

Lemma moves_getBinding id : moves quiet (on_db (HU := HU) (GL := GL) (AC := AC) (getBinding (Coll := Coll) id)).
Proof.
  intros s o s'. unfold on_db, zoom, getBinding, with_object_id. destruct s as [st x].
  destruct (newObjectId id); cbn [fst snd gets throw]; by intros [= _ <-].
Qed.

Lemma moves_drain flag id fuel timeout :
  moves quiet (waitForBackfillDrain (Coll := Coll) (HU := HU) (GL := GL) (AC := AC) flag id fuel timeout).
Proof.
  unfold waitForBackfillDrain. destruct (_ <=? _)%Z; [apply moves_ret; apply _|].
  apply moves_bind; [apply _|apply moves_quiet_clock|]. intros now.
  induction fuel as [|fuel IH]; cbn [drain_loop]; [apply moves_ret; apply _|].
  apply moves_bind; [apply _|apply moves_quiet_clock|]. intros z.
  destruct (_ <? _)%Z; (apply moves_bind; [apply _|apply moves_getBinding|]; intros cur).
  - destruct (negb _); [apply moves_ret; apply _|done].
  - apply moves_ret; apply _.
Qed.

(** The merge-request issues a binding's id-map entries name. *)
Definition named (binding : BindingDoc) (ref : string) s : Prop :=
  exists e, e ∈ find_docs (binding_mr_entry binding) (idmap s.1) /\ im_hulyRef e = ref.
Definition named_issue (binding : BindingDoc) (ref : string) s : Prop :=
  exists e, e ∈ find_docs (binding_mr_entry binding) (idmap s.1) /\
    im_hulyRef e = ref /\ im_hulyClass e = HULY_CLASS_ISSUE.

(** A migration that ran is a visit of the binding's entries. *)
Lemma migrate_run fuel flag timeout binding s r s' :
  migrateMixinSplit fuel flag timeout binding s = (Ok (Some (Migrated r)), s') ->
  exists s1, quiet s s1 /\
    split_entries (bd_hulyProjectRef binding) (find_docs (binding_mr_entry binding) (idmap s.1))
      (MkMixinSplitResult 0 0 0 0 0 0) s1 = (Ok r, s').
Proof.
  unfold migrateMixinSplit. intros (z & s1 & Q1%moves_quiet_clock & E)%bind_inv_ok.
  apply bind_inv_ok in E as (dr & s2 & Q2%moves_drain & E).
  destruct dr as [[]|]; [|done..].
  apply bind_inv_ok in E as (o & s3 & Q3%moves_getBinding & E).
  destruct (match o with Some b => _ | None => _ end); [|done].
  apply bind_inv_ok in E as (es & s4 & [= <- <-] & E).
  apply bind_inv_ok in E as (r' & s5 & E & [= -> ->]).
  assert (quiet s s3) as Q by (etransitivity; [exact Q1|]; by etransitivity).
  exists s3. split; [done|]. destruct Q as [Q _]. by rewrite Q in E.
Qed.


(** ** The reviewer migration *)

(** The issue [ref] keeps its two new mixins, other issues are the same. *)
Definition visit (ref : string) s s' : Prop :=
  only ref s s' /\
  forall d, issue_at ref s = Some d -> exists d', issue_at ref s' = Some d' /\
    mixin_of MR_CORE_MIXIN d' = mixin_of MR_CORE_MIXIN d /\
    mixin_of MR_REVIEW_MIXIN_DOC d' = mixin_of MR_REVIEW_MIXIN_DOC d.

#[local] Instance visit_preorder ref : PreOrder (visit ref).
Proof.
  split; [intros s; split; [done|]; intros d Hd; by exists d|].
  intros s1 s2 s3 [O1 V1] [O2 V2]. split; [by etransitivity|]. intros d Hd.
  destruct (V1 d Hd) as (d2 & Hd2 & C2 & R2). destruct (V2 d2 Hd2) as (d3 & Hd3 & C3 & R3).
  exists d3. by rewrite C3, R3.
Qed.

Lemma same_issues_visit ref s s' : (forall ref0, issue_at ref0 s' = issue_at ref0 s) -> visit ref s s'.
Proof. intros E. split; [by intros ref0 _|]. intros d Hd. exists d. by rewrite E. Qed.

Lemma quiet_visit ref {B} (m : M (Store Coll * X) B) : moves quiet m -> moves (visit ref) m.
Proof. intros Hm s b s' E. apply same_issues_visit. intros ref0. by eapply quiet_issue_at, Hm. Qed.

Lemma rewrite_visit ref f s s' :
  (forall d, hd_id (f d) = hd_id d) -> (forall d, hd_class (f d) = hd_class d) ->
  (forall d, mixin_of MR_CORE_MIXIN (f d) = mixin_of MR_CORE_MIXIN d /\
             mixin_of MR_REVIEW_MIXIN_DOC (f d) = mixin_of MR_REVIEW_MIXIN_DOC d) ->
  docs (sy_huly s'.2) = on_doc ref f (docs (sy_huly s.2)) -> visit ref s s'.
Proof.
  intros Hi Hc Hm E. split.
  - intros ref0 Hr. rewrite (issue_at_on_doc ref0 ref f s s') by done.
    destruct (issue_at ref0 s); [|done]. cbn. by rewrite decide_False.
  - intros d Hd. rewrite (issue_at_on_doc ref ref f s s'), Hd by done. cbn [option_map].
    rewrite decide_True by done. eexists. split; [done|apply Hm].
Qed.

Lemma moves_updateDoc ref cls sp ops :
  moves (visit ref) (on_huly (GL := GL) (AC := AC) (Coll := Coll) (updateDoc cls sp ref ops)).
Proof.
  intros s [] s' (h & E%updateDoc_ok & ->)%huly_run. eapply rewrite_visit; [..|exact E]; done.
Qed.

Lemma moves_updateMixin_legacy ref cls sp attrs :
  moves (visit ref) (on_huly (GL := GL) (AC := AC) (Coll := Coll) (updateMixin ref cls sp MR_MIXIN attrs)).
Proof.
  intros s [] s' (h & E%updateMixin_ok & ->)%huly_run. eapply rewrite_visit; [..|exact E]; [done..|].
  intros d. by rewrite !mixin_of_change.
Qed.

Lemma moves_findAll cls q :
  moves quiet (on_huly (GL := GL) (AC := AC) (Coll := Coll) (findAllDocs cls q)).
Proof. intros s o s' (h & E & ->)%huly_run. apply findAll_ok in E as [E _]. by split. Qed.

Lemma moves_resolve_reviewers ref us :
  moves (visit ref) (resolve_reviewers (Coll := Coll) (HU := HU) (GL := GL) us).
Proof.
  induction us as [|u us IH]; cbn [resolve_reviewers]; [apply moves_ret; apply _|].
  apply moves_bind; [apply _| |].
  - intros s b s' E%moves_mapByGitlabUser. apply same_issues_visit. intros ref0. by apply resolved_issue_at.
  - intros [p|]; (apply moves_bind; [apply _| |]).
    + done.
    + intros y. apply moves_ret; apply _.
    + apply quiet_visit. by intros s b s' [= _ <-].
    + intros _. apply moves_bind; [apply _|done|]. intros y. apply moves_ret; apply _.
Qed.

Lemma moves_reviewer_entry space e (r : ReviewerMigrationResult) :
  moves (visit (im_hulyRef e)) (reviewer_entry (Coll := Coll) (HU := HU) (GL := GL) space e r).
Proof.
  unfold reviewer_entry, readExistingReviewers.
  repeat first
    [ apply moves_resolve_reviewers
    | apply moves_bind; [apply _| |intros]
    | apply moves_ret; apply _
    | apply moves_iterate; apply _
    | apply moves_lift_res; apply _
    | apply quiet_visit, moves_find_issue
    | apply quiet_visit, moves_findAll
    | apply moves_updateDoc
    | apply moves_updateMixin_legacy
    | match goal with |- moves _ (match ?x with _ => _ end) => destruct x end ].
Qed.

(** The issue keeps its view, whatever entries are visited. *)
Lemma reviewer_entries_view space entries r s r' s' ref d :
  reviewer_entries space entries r s = (Ok r', s') -> issue_at ref s = Some d ->
  exists d', issue_at ref s' = Some d' /\
    mixin_of MR_CORE_MIXIN d' = mixin_of MR_CORE_MIXIN d /\
    mixin_of MR_REVIEW_MIXIN_DOC d' = mixin_of MR_REVIEW_MIXIN_DOC d /\
    (ref ∉ map im_hulyRef entries -> d' = d).
Proof.
  revert r s d. induction entries as [|e entries IH]; intros r s d; [intros [= _ <-] Hd; by exists d|].
  cbn [reviewer_entries map]. intros (r1 & s1 & [O V]%moves_reviewer_entry & E)%bind_inv_ok Hd.
  assert (exists d1, issue_at ref s1 = Some d1 /\ mixin_of MR_CORE_MIXIN d1 = mixin_of MR_CORE_MIXIN d /\
    mixin_of MR_REVIEW_MIXIN_DOC d1 = mixin_of MR_REVIEW_MIXIN_DOC d /\ (ref <> im_hulyRef e -> d1 = d))
    as (d1 & Hd1 & C1 & R1 & N1).
  { destruct (decide (ref = im_hulyRef e)) as [-> |Hr]; [|exists d; by rewrite O].
    destruct (V d Hd) as (d1 & ? & ? & ?). by exists d1. }
  destruct (IH _ _ _ E Hd1) as (d2 & Hd2 & C2 & R2 & N2). exists d2. rewrite C2, R2.
  split_and!; try done. intros [Hne Hni]%not_elem_of_cons. rewrite N2, N1; done.
Qed.

(** The reviewer migration is lost on requests whose mixin is split -
    every request the merge-request manager writes: whatever reviewers it
    resolved from labels (which it removes), what
    [readMRMixinAttributes] answers for the issue is what it was before; and
    issues the binding's entries do not name are the same documents. *)
Theorem reviewers_lost_after_split binding s r s' ref d :
  migrateReviewerLabels binding s = (Ok r, s') -> issue_at ref s = Some d ->
  is_Some (mixin_of MR_CORE_MIXIN d) \/ is_Some (mixin_of MR_REVIEW_MIXIN_DOC d) ->
  exists d', issue_at ref s' = Some d' /\
    readMRMixinAttributes (Some d') None = readMRMixinAttributes (Some d) None /\
    (~ named binding ref s -> d' = d).
Proof.
  unfold migrateReviewerLabels. intros (es & s1 & [= <- <-] & E)%bind_inv_ok Hd Hm.
  apply bind_inv_ok in E as (r1 & s2 & E & E2). apply bind_inv_ok in E2 as (z & s3 & Q%moves_quiet_clock & [= _ <-]).
  destruct (reviewer_entries_view _ _ _ _ _ _ _ _ E Hd) as (d' & Hd' & Ec & Er & Hn).
  exists d'. rewrite (quiet_issue_at s2 s3) by done. split_and!; [done| |].
  - unfold readMRMixinAttributes. rewrite Ec, Er.
    destruct Hm as [[m ->]|[m ->]]; cbn [merged_mixins]; [done|by destruct (mixin_of MR_CORE_MIXIN d)].
  - intros Hnn. apply Hn. intros (e & -> & He)%list_elem_of_fmap. apply Hnn. by exists e.
Qed.
End Runs.

(** ** Closed examples *)

Definition legacy_attrs : record :=
  [("sourceBranch", VStr "feat"); ("targetBranch", VStr "main"); ("draft", VBool false); ("mergedAt", VNull);
   ("mergeStatus", VStr "can_be_merged"); ("webUrl", VStr "u"); ("gitlabIid", VNum 7); ("gitlabProjectId", VNum 42);
   ("reviewers", VArr [VStr "p-bob"]); ("_originated", VStr "gitlab")].

Definition legacy_issue (labels : list string) (mixins : jsmap string record) : HulyDoc :=
  MkHulyDoc "i" HULY_CLASS_ISSUE "space" [("labels", VArr (map VStr labels))] mixins.

Definition reviewer_tag : HulyDoc :=
  MkHulyDoc "tag" CLASS_TAG_ELEMENT "space" [("title", VStr "gitlab:reviewer:alice")] [].

Definition paused_binding : BindingDoc :=
  MkBindingDoc "aaaaaaaaaaaaaaaaaaaaaaaa" "ws" "space" 42 "g/p" "cred" "oid-0" None true 0 true.

Definition migration_state (d : HulyDoc) : Store list * ToyX :=
  (set_bindings [paused_binding] (set_idmap [MkIdMapDoc "ws" KMergeRequest "42:7" HULY_CLASS_ISSUE "i"] empty_store),
   MkSyncState [reviewer_tag; d] [] tt new_label_cache new_milestone_cache [] [] [] 0).

Definition drained : BindingDoc -> bool := fun _ => false.

Definition split_toy (d : HulyDoc) : res (option MixinSplitOutcome) * (Store list * ToyX) :=
  migrateMixinSplit (P := hook_platform) 1 drained None paused_binding (migration_state d).

(** The run, a state an interrupted run left, and the final check. *)
Definition half_issue : HulyDoc :=
  legacy_issue [] [(MR_MIXIN, legacy_attrs); (MR_CORE_MIXIN, stored_pick legacy_attrs CORE_FIELD_KEYS)].


(** On a platform that keeps them the check after the strip fails, and the
    readers see the same. *)
Example strip_failed_on_keeping_platform :
  let run := migrateMixinSplit (P := hook_platform) (H0 := keeping_client) 1 drained None paused_binding
               (migration_state half_issue) in
  run.1 = Ok (Some (Migrated (MkMixinSplitResult 1 0 0 1 0 1))) /\
  (issue_at "i" run.2 ≫= mixin_of MR_MIXIN) = Some legacy_attrs /\
  prop_of (readMRMixinAttributes (issue_at "i" run.2) None) "reviewers" = VArr [VStr "p-bob"].
Proof. by vm_compute. Qed.

(** An account service that knows Alice. *)
Definition alice_accounts : AccountClient unit :=
  {| findPersonBySocialKey := fun key => ret (if decide (key = "gitlab:alice") then Some "p-alice" else None) |}.

Definition split_issue : HulyDoc :=
  legacy_issue ["tag"; "bug"] [(MR_CORE_MIXIN, stored_pick legacy_attrs CORE_FIELD_KEYS);
                               (MR_REVIEW_MIXIN_DOC, stored_pick legacy_attrs REVIEW_FIELD_KEYS)].

Definition reviewers_toy (d : HulyDoc) : res ReviewerMigrationResult * (Store list * ToyX) :=
  migrateReviewerLabels (P := hook_platform) (H1 := alice_accounts) paused_binding (migration_state d).

(** The label is gone, Alice was resolved, and the reviewers are still Bob. *)
Lemma reviewers_lost_after_split_witness :
  (reviewers_toy split_issue).1 = Ok (MkReviewerResult 1 1 1 0) /\
  exists d', issue_at "i" (reviewers_toy split_issue).2 = Some d' /\
    doc_field "labels" d' = Some (VArr [VStr "bug"]) /\
    prop_of (readMRMixinAttributes (Some d') None) "reviewers" = VArr [VStr "p-bob"].
Proof.
  split; [by vm_compute|].
  destruct (reviewers_lost_after_split (P := hook_platform) (H1 := alice_accounts) paused_binding (migration_state split_issue)
    (MkReviewerResult 1 1 1 0) (reviewers_toy split_issue).2 "i" split_issue) as (d' & Hd' & Hv & _).
  - by vm_compute.
  - by vm_compute.
  - left. by eexists.
  - exists d'. split; [exact Hd'|]. rewrite Hv. split; [|by vm_compute].
    vm_compute in Hd'. injection Hd' as <-. by vm_compute.
Defined.

(** Before the split the same migration does add her. *)
Example reviewers_kept_before_split :
  option_map (fun d => prop_of (readMRMixinAttributes (Some d) None) "reviewers")
    (issue_at "i" (reviewers_toy (legacy_issue ["tag"] [(MR_MIXIN, legacy_attrs)])).2) =
  Some (VArr [VStr "p-bob"; VStr "p-alice"]).
Proof. by vm_compute. Qed.
