(* ===== verification/Cookies.v ===== *)
(** * The user cookie (src/util/secret-rotation.ts, src/http/cookie-auth.ts,
    src/http/user-session.ts)

    A user of Huly is known to the per-user endpoints by a cookie: a JSON
    envelope with the identity, its end of life and an HMAC of the three,
    under the server's secret or, while secrets are being rotated, the
    previous one.  HMAC and base64url are node's and make the class
    [NodeCrypto]; the time of a check is an argument. *)

From Stdlib Require Import Ascii.
From S2P Require Import Prelude JsMap JsString JsVal Platform Webhook Json RateLimit BindingApi.
Open Scope nat_scope.
Open Scope string_scope.
Open Scope list_scope.

Definition hex_digit (a : ascii) : bool := match hex_value a with Some _ => true | None => false end.

(** The letters of base64url. *)
Definition url_letter (a : ascii) : bool :=
  let n := code a in
  (((48 <=? n) && (n <=? 57)) || ((65 <=? n) && (n <=? 90)) || ((97 <=? n) && (n <=? 122)) ||
   (n =? 45) || (n =? 95))%N.

Class NodeCrypto := {
  (** [createHmac('sha256', secret).update(payload).digest('hex')] *)
  hmac_hex : forall (secret payload : string), string;
  hmac_hex_digits : forall s p, all_chars hex_digit (hmac_hex s p);
  hmac_hex_length : forall s p, String.length (hmac_hex s p) = 64;
  (** [Buffer.from(s, 'utf8').toString('base64url')] and back *)
  base64url : string -> string;
  unbase64url : string -> string;
  unbase64url_base64url : forall s, unbase64url (base64url s) = s;
  base64url_letters : forall s, all_chars url_letter (base64url s)
}.

(** ** src/util/secret-rotation.ts *)

Record SecretConfig := MkSecretConfig { sc_primary : string; sc_previous : option string }.

Inductive SecretKind := SkPrimary | SkPrevious.

(** [Buffer.from(sig, 'hex')] of a string of pairs of digits. *)
Fixpoint unhex (s : string) : list N :=
  match s with
  | String a (String b s) =>
      match hex_value a, hex_value b with
      | Some x, Some y => (x * 16 + y)%N :: unhex s
      | _, _ => []
      end
  | _ => []
  end.

Fixpoint all_hex (s : string) : bool :=
  match s with "" => true | String a s => hex_digit a && all_hex s end.

Definition isHexLengthValid (sig : string) : bool :=
  (0 <? String.length sig)%nat && (String.length sig mod 2 =? 0)%nat && all_hex sig.

Section Cookies.
Context {P : Platform} {N : NodeCrypto}.

Definition signHmac (payload : string) (secrets : SecretConfig) : string := hmac_hex (sc_primary secrets) payload.

Definition verifyHmac (payload providedSig : string) (secrets : SecretConfig) : option SecretKind :=
  if negb (isHexLengthValid providedSig) then None
  else if bool_decide (unhex providedSig = unhex (hmac_hex (sc_primary secrets) payload)) then Some SkPrimary
  else match sc_previous secrets with
       | Some previous =>
           if bool_decide (unhex providedSig = unhex (hmac_hex previous payload)) then Some SkPrevious else None
       | None => None
       end.

(** ** src/http/cookie-auth.ts *)

Record HulyUserIdentity := MkHulyUserIdentity {
  hu_workspaceUuid : string;
  hu_hulyPersonUuid : string;
  hu_expiresAt : Z
}.

(** [{ w, p, e }] *)
Definition cookie_payload (w p : jsval) (e : jsval) : record := [("w", w); ("p", p); ("e", e)].

(** [JSON.stringify] of an object. *)
Definition stringify_record (r : record) : string := text (VObj r).

Definition signCookie (identity : HulyUserIdentity) (secrets : SecretConfig) : string :=
  let payload := cookie_payload (VStr (hu_workspaceUuid identity)) (VStr (hu_hulyPersonUuid identity))
                   (VNum (hu_expiresAt identity)) in
  let sig := signHmac (stringify_record payload) secrets in
  base64url (stringify_record (jset "sig" (VStr sig) payload)).

(** The body of the [try]; an exception is [None], as the [catch] returns. *)
Definition verifyCookie (now : Z) (cookie : string) (secrets : SecretConfig) : option HulyUserIdentity :=
  match JSON_parse (unbase64url cookie) with
  | None => None
  | Some envelope =>
      match js_get envelope "w", js_get envelope "p", js_get envelope "e", js_get envelope "sig" with
      | Some (VStr w), Some (VStr p), Some (VNum e), Some (VStr sig) =>
          match verifyHmac (stringify_record (cookie_payload (VStr w) (VStr p) (VNum e))) sig secrets with
          | None => None
          | Some _ => if (e <? now)%Z then None else Some (MkHulyUserIdentity w p e)
          end
      | _, _, _, _ => None
      end
  end.

(** [decodeURIComponent]: the escapes are taken out, and the runs of escaped
    bytes must be UTF-8.  A byte is marked when it was escaped. *)
Fixpoint uri_bytes (s : string) : option (list (bool * ascii)) :=
  match s with
  | "" => Some []
  | String a s1 =>
      if decide (a = "%"%char) then
        match s1 with
        | String h (String l s2) =>
            match hex_value h, hex_value l, uri_bytes s2 with
            | Some x, Some y, Some rest => Some ((true, chr (x * 16 + y)) :: rest)
            | _, _, _ => None
            end
        | _ => None
        end
      else match uri_bytes s1 with Some rest => Some ((false, a) :: rest) | None => None end
  end.

Definition between (lo hi : BinNums.N) (b : bool * ascii) : bool :=
  b.1 && (lo <=? code b.2)%N && (code b.2 <=? hi)%N.

Definition push (l : list (bool * ascii)) (o : option string) : option string :=
  match o with Some s => Some (fold_right (fun b s => String b.2 s) s l) | None => None end.

(** The second byte of a sequence of three or four, by the first. *)
Definition second_ok (lead : BinNums.N) (b : bool * ascii) : bool :=
  between (match lead with 224 => 160 | 240 => 144 | _ => 128 end)%N
          (match lead with 237 => 159 | 244 => 143 | _ => 191 end)%N b.

Fixpoint utf8_text (l : list (bool * ascii)) : option string :=
  match l with
  | [] => Some ""
  | b :: l1 =>
      if negb b.1 || (code b.2 <? 128)%N then push [b] (utf8_text l1)
      else if between 194 223 b then
        match l1 with
        | c :: l2 => if between 128 191 c then push [b; c] (utf8_text l2) else None
        | _ => None
        end
      else if between 224 239 b then
        match l1 with
        | c :: d :: l3 => if second_ok (code b.2) c && between 128 191 d then push [b; c; d] (utf8_text l3) else None
        | _ => None
        end
      else if between 240 244 b then
        match l1 with
        | c :: d :: e :: l4 =>
            if second_ok (code b.2) c && between 128 191 d && between 128 191 e then push [b; c; d; e] (utf8_text l4)
            else None
        | _ => None
        end
      else None
  end.

Definition decodeURIComponent (s : string) : res string :=
  match uri_bytes s with
  | None => Throw (JsError "URIError")
  | Some l => match utf8_text l with Some t => Ok t | None => Throw (JsError "URIError") end
  end.

(** [indexOf('=')] with the slices around it. *)
Fixpoint split_first (c : ascii) (s : string) : option (string * string) :=
  match s with
  | "" => None
  | String a s' =>
      if decide (a = c) then Some ("", s')
      else match split_first c s' with Some (l, r) => Some (String a l, r) | None => None end
  end.

Fixpoint parse_pairs (pairs : list string) (out : jsmap string string) : res (jsmap string string) :=
  match pairs with
  | [] => Ok out
  | item :: rest =>
      match split_first "=" (js_trim item) with
      | None => parse_pairs rest out
      | Some (k, v) =>
          match decodeURIComponent k, decodeURIComponent v with
          | Ok k, Ok v => parse_pairs rest (if (0 <? String.length k)%nat then jset k v out else out)
          | Throw e, _ | _, Throw e => Throw e
          end
      end
  end.

Definition parseCookieHeader (header : string) : res (jsmap string string) := parse_pairs (js_split ";" header) [].

(** The middleware: the identity, or the response that ends the request. *)
Definition requireHulyCookie (now : Z) (secrets : SecretConfig) (cookieHeader : option string)
    : res (ApiResponse + HulyUserIdentity) :=
  match parseCookieHeader (default "" cookieHeader) with
  | Throw e => Throw e
  | Ok cookies =>
      match jget "huly-user" cookies with
      | None => Ok (inl (api_error_json 401 "huly-user cookie required"))
      | Some raw =>
          match verifyCookie now raw secrets with
          | None => Ok (inl (api_error_json 401 "invalid or expired huly-user cookie"))
          | Some identity => Ok (inr identity)
          end
      end
  end.

(** ** src/http/user-session.ts *)

Definition DEFAULT_TTL_SECONDS : Z := 3600.
Definition MAX_TTL_SECONDS : Z := 24 * 3600.

Definition session_ttl (ttlSeconds : jsval) : Z :=
  match ttlSeconds with
  | VNum n => if (0 <? n)%Z then Z.min n MAX_TTL_SECONDS else DEFAULT_TTL_SECONDS
  | _ => DEFAULT_TTL_SECONDS
  end.

Definition invalid_request (message : string) : ApiResponse :=
  MkApiResponse 400 (VObj [("error", VStr "invalid_request"); ("message", VStr message)]).

(** The response, with the value of the header Set-Cookie of a success.  The
    secrets' primary is also the bearer token. *)
Definition user_session (now : Z) (secrets : SecretConfig) (publicBaseUrl : string) (authHeader : option string)
    (body : record) : ApiResponse * option string :=
  if negb (requireBearer (sc_primary secrets) authHeader) then (api_error_json 401 "Unauthorized", None)
  else
    match prop_of body "workspaceUuid", prop_of body "hulyPersonUuid" with
    | VStr "", _ => (invalid_request "Missing workspaceUuid", None)
    | VStr _, VStr "" => (invalid_request "Missing hulyPersonUuid", None)
    | VStr w, VStr p =>
        let ttl := session_ttl (prop_of body "ttlSeconds") in
        let expiresAt := (now + ttl * 1000)%Z in
        let cookie := signCookie (MkHulyUserIdentity w p expiresAt) secrets in
        let attrs := ["Path=/user"; "HttpOnly"; "SameSite=Strict"] ++
                     (if starts_with "https://" publicBaseUrl then ["Secure"] else []) ++
                     ["Max-Age=" +:+ num_to_string ttl] in
        (MkApiResponse 200 (VObj [("ok", VBool true); ("expiresAt", VNum expiresAt)]),
         Some ("huly-user=" +:+ cookie +:+ "; " +:+ js_join "; " attrs))
    | VStr _, _ => (invalid_request "Missing hulyPersonUuid", None)
    | _, _ => (invalid_request "Missing workspaceUuid", None)
    end.
End Cookies.

(** * What the user cookie guarantees

    A minted cookie names its user until it ends, through one rotation of the
    secret; an accepted one carries an HMAC under one of the two secrets; and
    any cookie of the request can make the check throw. *)

(** ** Characters *)

Lemma all_chars_app p s t : all_chars p s -> all_chars p t -> all_chars p (s +:+ t).
Proof.
  unfold all_chars. induction s as [|a s IH]; [done|]. rewrite str_app_cons. cbn [String.list_ascii_of_string].
  intros [Ha Hs]%Forall_cons Ht. constructor; auto.
Qed.

Lemma all_chars_cons p a s : all_chars p (String a s) <-> p a = true /\ all_chars p s.
Proof. unfold all_chars. cbn [String.list_ascii_of_string]. by rewrite Forall_cons. Qed.

Lemma all_chars_impl (p q : ascii -> bool) s :
  (forall a, p a = true -> q a = true) -> all_chars p s -> all_chars q s.
Proof. intros Hpq Hs. eapply Forall_impl; [exact Hs|exact Hpq]. Qed.

(** Letters of base64url are no separators. *)
Lemma url_letter_not a c : url_letter a = true -> url_letter c = false -> a <> c.
Proof. congruence. Qed.

Lemma url_letter_no_space a : url_letter a = true -> is_space a = false.
Proof. destruct a as [[] [] [] [] [] [] [] []]; intros E; try discriminate E; reflexivity. Qed.

Lemma trim_end_letters s : all_chars (fun a => negb (is_space a)) s -> trim_end s = s.
Proof.
  induction s as [|a s IH]; [done|]. intros [Ha Hs]%all_chars_cons. cbn [trim_end]. rewrite IH by done.
  apply negb_true_iff in Ha. by rewrite Ha.
Qed.

Lemma uri_bytes_letters s :
  all_chars url_letter s -> uri_bytes s = Some (map (fun a => (false, a)) (String.list_ascii_of_string s)).
Proof.
  induction s as [|a s IH]; [done|]. intros [Ha Hs]%all_chars_cons. cbn [uri_bytes].
  rewrite decide_False by by eapply url_letter_not. by rewrite IH.
Qed.

Lemma decode_letters s : all_chars url_letter s -> decodeURIComponent s = Ok s.
Proof.
  intros Hs. unfold decodeURIComponent. rewrite uri_bytes_letters by done. clear Hs.
  enough (utf8_text (map (fun a => (false, a)) (String.list_ascii_of_string s)) = Some s) as -> by done.
  induction s as [|a s IH]; [done|]. cbn [String.list_ascii_of_string map utf8_text fst negb orb]. by rewrite IH.
Qed.

Lemma js_split_none c s : all_chars (fun a => bool_decide (a <> c)) s -> js_split c s = [s].
Proof.
  induction s as [|a s IH]; [done|]. intros [Ha%bool_decide_eq_true Hs]%all_chars_cons. cbn [js_split].
  by rewrite decide_False, IH.
Qed.

Lemma no_first c s : all_chars (fun a => bool_decide (a <> c)) s -> no_char c s.
Proof.
  unfold no_char. induction s as [|a s IH]; [done|]. intros [Ha%bool_decide_eq_true Hs]%all_chars_cons.
  cbn [after_first]. rewrite decide_False by done. by apply IH.
Qed.

(** A cookie of base64url letters is read as it is. *)
Lemma cookie_chars (p : ascii -> bool) v :
  all_chars url_letter v -> (forall a, url_letter a = true -> p a = true) -> p "="%char = true ->
  all_chars p ("huly-user=" +:+ v).
Proof.
  intros Hv Hp He. apply all_chars_app; [|by eapply all_chars_impl].
  unfold all_chars. cbn [String.list_ascii_of_string]. repeat apply Forall_cons_2; auto.
Qed.

Lemma parse_cookie v rest out :
  all_chars url_letter v ->
  parse_pairs (("huly-user=" +:+ v) :: rest) out = parse_pairs rest (jset "huly-user" v out).
Proof.
  intros Hv. cbn [parse_pairs]. unfold js_trim. change (trim_start ("huly-user=" +:+ v)) with ("huly-user=" +:+ v).
  rewrite trim_end_letters by (apply cookie_chars; [done|intros a Ha; by rewrite url_letter_no_space|done]).
  change (split_first "=" ("huly-user=" +:+ v)) with (Some ("huly-user", v)). cbv beta iota.
  by rewrite (decode_letters v).
Qed.

Lemma no_separator v :
  all_chars url_letter v -> all_chars (fun a => bool_decide (a <> ";"%char)) ("huly-user=" +:+ v).
Proof.
  intros Hv. apply cookie_chars; [done| |done]. intros a Ha. apply bool_decide_eq_true_2. by eapply url_letter_not.
Qed.

Lemma parse_one_cookie v :
  all_chars url_letter v -> parseCookieHeader ("huly-user=" +:+ v) = Ok [("huly-user", v)].
Proof.
  intros Hv. unfold parseCookieHeader. rewrite js_split_none by by apply no_separator. by rewrite parse_cookie.
Qed.

(** ** Signatures *)

Section Cookies.
Context {P : Platform} {N : NodeCrypto}.

Lemma hmac_valid s p : isHexLengthValid (hmac_hex s p) = true.
Proof.
  unfold isHexLengthValid. rewrite hmac_hex_length. pose proof (hmac_hex_digits s p) as Hd.
  induction (hmac_hex s p) as [|a t IH]; [done|]. apply all_chars_cons in Hd as [Ha Ht].
  cbn [all_hex]. rewrite Ha. by apply IH.
Qed.

(** The secrets under which a signature made with [secret] is accepted. *)
Definition accepts (secrets : SecretConfig) (secret : string) : Prop :=
  sc_primary secrets = secret \/ sc_previous secrets = Some secret.

Lemma verify_signed payload secret secrets :
  accepts secrets secret -> exists kind, verifyHmac payload (hmac_hex secret payload) secrets = Some kind.
Proof.
  intros Ha. unfold verifyHmac. rewrite hmac_valid. cbn [negb].
  destruct (bool_decide (unhex _ = _)) eqn:E; [by eexists|]. apply bool_decide_eq_false in E.
  destruct Ha as [<- | ->]; [done|]. rewrite bool_decide_eq_true_2 by done. by eexists.
Qed.

Lemma verify_sound payload sig secrets kind :
  verifyHmac payload sig secrets = Some kind ->
  exists secret, accepts secrets secret /\ unhex sig = unhex (hmac_hex secret payload).
Proof.
  unfold verifyHmac. destruct (negb _); [done|].
  destruct (bool_decide _) eqn:E.
  { apply bool_decide_eq_true in E. intros _. eexists. split; [by left|exact E]. }
  destruct (sc_previous secrets) as [previous|] eqn:Ep; [|done].
  destruct (bool_decide (unhex sig = unhex (hmac_hex previous payload))) eqn:E'; [|done].
  apply bool_decide_eq_true in E'. intros _. exists previous. split; [by right|exact E'].
Qed.

Definition payload_text (i : HulyUserIdentity) : string :=
  stringify_record (cookie_payload (VStr (hu_workspaceUuid i)) (VStr (hu_hulyPersonUuid i)) (VNum (hu_expiresAt i))).

Lemma cookie_checked now i secrets secrets' :
  accepts secrets' (sc_primary secrets) ->
  verifyCookie now (signCookie i secrets) secrets' = if (hu_expiresAt i <? now)%Z then None else Some i.
Proof.
  intros Ha. unfold verifyCookie, signCookie, signHmac. rewrite unbase64url_base64url. cbv zeta.
  set (sig := hmac_hex _ _). set (r := jset _ _ _).
  assert (json_plain (VObj r) = true) as Hp by done.
  assert (JSON_parse (stringify_record r) = Some (VObj r)) as ->.
  { apply json_round_trip; [done|]. by apply stringify_plain. }
  assert (js_get (VObj r) "w" = Some (VStr (hu_workspaceUuid i))) as -> by done.
  assert (js_get (VObj r) "p" = Some (VStr (hu_hulyPersonUuid i))) as -> by done.
  assert (js_get (VObj r) "e" = Some (VNum (hu_expiresAt i))) as -> by done.
  assert (js_get (VObj r) "sig" = Some (VStr sig)) as -> by done.
  destruct (verify_signed (payload_text i) (sc_primary secrets) secrets' Ha) as [kind E].
  change (verifyHmac (stringify_record _) sig secrets') with
    (verifyHmac (payload_text i) (hmac_hex (sc_primary secrets) (payload_text i)) secrets').
  rewrite E. by destruct i.
Qed.

(** ** The middleware and the session endpoint *)

Lemma check_one_cookie now secrets c :
  all_chars url_letter c ->
  requireHulyCookie now secrets (Some ("huly-user=" +:+ c)) =
  Ok (match verifyCookie now c secrets with
      | None => inl (api_error_json 401 "invalid or expired huly-user cookie")
      | Some identity => inr identity
      end).
Proof.
  intros Hc. unfold requireHulyCookie. cbn [default from_option id]. rewrite parse_one_cookie by done.
  change (jget "huly-user" [("huly-user", c)]) with (Some c). cbv beta iota. by destruct (verifyCookie now c secrets).
Qed.

(** The session cookie works as long as it says, and no longer: when the
    session endpoint sets a cookie, the request carried the server's bearer
    token and named a workspace and a person, the lifetime is between one
    second and a day, and sending the cookie back is accepted as exactly this
    user until then - also after the server's secret was replaced, while the
    old one is still configured as the previous secret - and answered 401
    afterwards. *)
Theorem session_cookie_accepted now secrets publicBaseUrl authHeader body resp h :
  user_session now secrets publicBaseUrl authHeader body = (resp, Some h) ->
  requireBearer (sc_primary secrets) authHeader = true /\
  exists w p ttl c attrs,
    prop_of body "workspaceUuid" = VStr w /\ w <> "" /\ prop_of body "hulyPersonUuid" = VStr p /\ p <> "" /\
    (0 < ttl <= 86400)%Z /\ h = "huly-user=" +:+ c +:+ "; " +:+ attrs /\
    forall later secrets', accepts secrets' (sc_primary secrets) ->
      requireHulyCookie later secrets' (Some ("huly-user=" +:+ c)) =
      Ok (if (now + ttl * 1000 <? later)%Z then inl (api_error_json 401 "invalid or expired huly-user cookie")
          else inr (MkHulyUserIdentity w p (now + ttl * 1000))).
Proof.
  unfold user_session. destruct (requireBearer _ _); [|done]. cbn [negb].
  destruct (prop_of body "workspaceUuid") as [| | | | |[|a w]| | |]; try done.
  destruct (prop_of body "hulyPersonUuid") as [| | | | |[|b p]| | |]; try done.
  cbv zeta. intros [= _ <-]. split; [done|].
  set (ttl := session_ttl _). eexists _, _, ttl, _, _. split_and!; try done.
  1-2: unfold ttl, session_ttl, MAX_TTL_SECONDS, DEFAULT_TTL_SECONDS; destruct (prop_of body "ttlSeconds"); try lia;
       destruct (0 <? n)%Z eqn:E; lia.
  intros later secrets' Ha. rewrite check_one_cookie by apply base64url_letters.
  rewrite cookie_checked by done. cbn [hu_expiresAt]. by destruct (_ <? _)%Z.
Qed.

(** C23: A request passes as a user only with a signature: the value of its
    cookie huly-user is the envelope of this user's workspace, person and end
    of life, its [sig] is, byte for byte, the HMAC of these under the primary
    or the previous secret, and the end has not come. *)
Theorem cookie_signed now secrets header i :
  requireHulyCookie now secrets header = Ok (inr i) ->
  (now <= hu_expiresAt i)%Z /\
  exists cookies raw envelope sig secret,
    parseCookieHeader (default "" header) = Ok cookies /\ jget "huly-user" cookies = Some raw /\
    JSON_parse (unbase64url raw) = Some envelope /\
    js_get envelope "w" = Some (VStr (hu_workspaceUuid i)) /\ js_get envelope "p" = Some (VStr (hu_hulyPersonUuid i)) /\
    js_get envelope "e" = Some (VNum (hu_expiresAt i)) /\ js_get envelope "sig" = Some (VStr sig) /\
    accepts secrets secret /\ unhex sig = unhex (hmac_hex secret (payload_text i)).
Proof.
  unfold requireHulyCookie. destruct (parseCookieHeader _) as [cookies|]; [|done].
  destruct (jget "huly-user" cookies) as [raw|] eqn:Er; [|done].
  unfold verifyCookie. destruct (JSON_parse _) as [v|] eqn:Ej; [|done].
  destruct (js_get v "w") as [[]|] eqn:Ew; try done.
  destruct (js_get v "p") as [[]|] eqn:Ep; try done.
  destruct (js_get v "e") as [[]|] eqn:Ee; try done.
  destruct (js_get v "sig") as [[]|] eqn:Es; try done.
  destruct (verifyHmac _ _ _) as [kind|] eqn:Eh; [|done]. apply verify_sound in Eh as (secret & Ha & Eh).
  destruct (_ <? _)%Z eqn:El; [done|]. intros [= <-]. cbn [hu_expiresAt hu_workspaceUuid hu_hulyPersonUuid].
  split; [lia|]. by exists cookies, raw, v, s1, secret.
Qed.

(** Any other cookie of the request whose escapes are malformed makes the
    check throw, before or after the user's own. *)
Lemma stray_cookie_throws now secrets c :
  all_chars url_letter c ->
  requireHulyCookie now secrets (Some ("huly-user=" +:+ c +:+ ";theme=100%")) = Throw (JsError "URIError").
Proof.
  intros Hc. unfold requireHulyCookie, parseCookieHeader. cbn [default from_option id].
  rewrite <-str_app_assoc. change (";theme=100%") with (String ";" "theme=100%").
  rewrite js_split_app by by apply no_first, no_separator.
  rewrite parse_cookie by done. by vm_compute.
Qed.
End Cookies.

(** ** Closed examples

    A toy crypto: base64url is hexadecimal, and an HMAC is the sum of the
    bytes. *)

Fixpoint to_hex (s : string) : string :=
  match s with
  | "" => ""
  | String a s => String (hex_char (code a / 16)) (String (hex_char (code a mod 16)) (to_hex s))
  end.

Fixpoint of_hex (s : string) : string :=
  match s with
  | String a (String b s) =>
      match hex_value a, hex_value b with
      | Some x, Some y => String (chr (x * 16 + y)) (of_hex s)
      | _, _ => ""
      end
  | _ => ""
  end.

Lemma of_hex_to_hex s : of_hex (to_hex s) = s.
Proof. induction s as [|a s IH]; [done|]. destruct a as [[] [] [] [] [] [] [] []]; cbn; by rewrite IH. Qed.

Lemma to_hex_letters s : all_chars (fun a => hex_digit a && url_letter a) (to_hex s).
Proof.
  induction s as [|a s IH]; [by constructor|].
  destruct a as [[] [] [] [] [] [] [] []]; cbn [to_hex]; rewrite !all_chars_cons; done.
Qed.

Fixpoint byte_sum (s : string) : BinNums.N := match s with "" => 0%N | String a s => (code a + byte_sum s)%N end.

Definition toy_hmac (s p : string) : string :=
  to_hex "0123456789012345678901234567890" +:+ to_hex (String (chr (byte_sum (s +:+ p) mod 256)) "").

Definition toy_crypto : NodeCrypto.
Proof.
  refine {| hmac_hex := toy_hmac; base64url := to_hex; unbase64url := of_hex |}.
  - intros s p. apply all_chars_app; (eapply all_chars_impl; [|apply to_hex_letters]); intros a Ha;
      by apply andb_prop in Ha as [? _].
  - intros s p. unfold toy_hmac. cbn [to_hex]. generalize (chr (byte_sum (s +:+ p) mod 256)). intros a.
    by destruct a as [[] [] [] [] [] [] [] []].
  - apply of_hex_to_hex.
  - intros s. eapply all_chars_impl; [|apply to_hex_letters]. intros a Ha. by apply andb_prop in Ha as [_ ?].
Defined.

Definition old_secrets : SecretConfig := MkSecretConfig "old-secret" None.
Definition new_secrets : SecretConfig := MkSecretConfig "a-new-secret" (Some "old-secret").
Definition session_body : record := [("workspaceUuid", VStr "ws"); ("hulyPersonUuid", VStr "person-1"); ("ttlSeconds", VNum 60)].

Definition minted : ApiResponse * option string :=
  user_session (N := toy_crypto) 1000 old_secrets "https://pod" (Some "Bearer old-secret") session_body.

Lemma session_cookie_accepted_witness :
  exists c, minted.2 = Some ("huly-user=" +:+ c +:+ "; Path=/user; HttpOnly; SameSite=Strict; Secure; Max-Age=60") /\
    requireHulyCookie (N := toy_crypto) 60000 new_secrets (Some ("huly-user=" +:+ c)) =
      Ok (inr (MkHulyUserIdentity "ws" "person-1" 61000)).
Proof.
  destruct (session_cookie_accepted (N := toy_crypto) 1000 old_secrets "https://pod" (Some "Bearer old-secret")
    session_body minted.1 (default "" minted.2)) as (_ & w & p & ttl & c & attrs & Hw & _ & Hp & _ & _ & Hh & Hc).
  { by vm_compute. }
  exists (signCookie (N := toy_crypto) (MkHulyUserIdentity "ws" "person-1" 61000) old_secrets).
  split; [by vm_compute|]. by vm_compute.
Defined.

Lemma cookie_signed_witness :
  (60000 <= 61000)%Z /\ exists secret, accepts new_secrets secret.
Proof.
  destruct (cookie_signed (N := toy_crypto) 60000 new_secrets
    (Some ("huly-user=" +:+ signCookie (N := toy_crypto) (MkHulyUserIdentity "ws" "person-1" 61000) old_secrets))
    (MkHulyUserIdentity "ws" "person-1" 61000)) as (Hle & ? & ? & ? & ? & secret & _ & _ & _ & _ & _ & _ & _ & Ha & _);
    [by vm_compute|]. split; [exact Hle|by exists secret].
Defined.

(** With another secret the cookie is refused. *)
Example cookie_of_another_server :
  requireHulyCookie (N := toy_crypto) 60000 (MkSecretConfig "other" None)
    (Some ("huly-user=" +:+ signCookie (N := toy_crypto) (MkHulyUserIdentity "ws" "person-1" 61000) old_secrets)) =
  Ok (inl (api_error_json 401 "invalid or expired huly-user cookie")).
Proof. by vm_compute. Qed.
