(* ===== verification/AttachmentLinks.v ===== *)
(** * Attachment links in Markdown (src/sync/attachment-links.ts)

    A body is read as a sequence of segments: the links the regular
    expression of the module matches, from left to right, and the characters
    between them.  Extraction lists the links that are attachments;
    rewriting replaces their addresses.  The regular expression has one way
    to match at a position - the text of a link ends at the first closing
    bracket, its address at the first closing parenthesis - so a match is a
    function.  White space is that of ASCII. *)

From Stdlib Require Import Ascii.
From S2P Require Import Prelude JsMap JsString JsVal Platform Json RateLimit Cookies.
Open Scope nat_scope.
Open Scope string_scope.
Open Scope list_scope.

Inductive LinkOrigin := OriginGitlab | OriginHuly.
#[export] Instance LinkOrigin_eq_dec : EqDecision LinkOrigin.
Proof. solve_decision. Defined.

Inductive LinkKind := KindImage | KindLink.

Record AttachmentLink := MkAttachmentLink {
  al_markdownIndex : nat;
  al_sourceUrl : string;
  al_alt : string;
  al_filename : string;
  al_kind : LinkKind;
  al_origin : LinkOrigin
}.

Record AttachmentMapping := MkAttachmentMapping { ap_sourceUrl : string; ap_targetUrl : string }.

Definition MAX_ATTACHMENT_BYTES : Z := 25 * 1024 * 1024.

(** ** MARKDOWN_LINK_RE *)

(** The groups of a match; [mk_url] is not trimmed. *)
Record MarkdownLink := MkMarkdownLink { mk_image : bool; mk_alt : string; mk_url : string }.

(** After the opening bracket: the text, the address, and what follows. *)
Definition bracketed (s : string) : option (string * string * string) :=
  match split_first "]" s with
  | None => None
  | Some (alt, s1) =>
      match after_prefix "(" s1 with
      | None => None
      | Some s2 =>
          match split_first ")" s2 with
          | Some (String a url, rest) => Some (alt, String a url, rest)
          | _ => None
          end
      end
  end.

(** A match at the head of [s], and what follows it. *)
Definition link_at (s : string) : option (MarkdownLink * string) :=
  let '(image, s1) := match after_prefix "!" s with Some s1 => (true, s1) | None => (false, s) end in
  match after_prefix "[" s1 with
  | None => None
  | Some s2 =>
      match bracketed s2 with
      | Some (alt, url, rest) => Some (MkMarkdownLink image alt url, rest)
      | None => None
      end
  end.

Inductive Segment := Plain (a : ascii) | Linked (l : MarkdownLink).

(** The matches of the global expression and the text between them. *)
Fixpoint segments (fuel : nat) (s : string) : list Segment :=
  match fuel, s with
  | S fuel, String a s' =>
      match link_at s with
      | Some (l, rest) => Linked l :: segments fuel rest
      | None => Plain a :: segments fuel s'
      end
  | _, _ => []
  end.

Definition markdown_segments (body : string) : list Segment := segments (String.length body) body.

Definition render_link (l : MarkdownLink) : string :=
  (if mk_image l then "!" else "") +:+ "[" +:+ mk_alt l +:+ "](" +:+ mk_url l +:+ ")".

Definition render_segment (g : Segment) : string :=
  match g with Plain a => String a "" | Linked l => render_link l end.

Fixpoint render (gs : list Segment) : string :=
  match gs with [] => "" | g :: gs => render_segment g +:+ render gs end.

(** ** Recognising attachments *)

(** [/^\/uploads\//] *)
Definition is_relative_upload (url : string) : bool := starts_with "/uploads/" url.

(** [[a-f0-9]+\/] at the head. *)
Fixpoint hash_then_slash (seen : bool) (s : string) : bool :=
  match s with
  | "" => false
  | String a s => if decide (a = "/"%char) then seen else if hex_digit a then hash_then_slash true s else false
  end.

(** [/\/uploads\/[a-f0-9]+\//i] *)
Fixpoint has_upload_path (s : string) : bool :=
  match after_prefix "/uploads/" s with Some rest => hash_then_slash false rest | None => false end ||
  match s with "" => false | String _ s => has_upload_path s end.

Definition is_absolute_upload (url : string) (baseUrl : option string) : bool :=
  has_upload_path (to_lower url) &&
  match baseUrl with Some b => starts_with (strip_trailing_slash b) url | None => true end.

(** [/^attachments:\/\//] *)
Definition is_huly_attachment (url : string) : bool := starts_with "attachments://" url.

(** [parts[parts.length - 1]] of [s.split(c)], and its first part. *)
Definition last_part (c : ascii) (s : string) : string := List.last (js_split c s) "".
Definition first_part (c : ascii) (s : string) : string := List.hd "" (js_split c s).

Definition extractFilename (url : string) : string :=
  match decodeURIComponent url with
  | Ok decoded => first_part "?" (last_part "/" decoded)
  | Throw _ => last_part "/" url
  end.

(** The iteration of the loop over one match. *)
Definition attachment_of (baseUrl : option string) (markdownIndex : nat) (l : MarkdownLink) : option AttachmentLink :=
  let url := js_trim (mk_url l) in
  if negb (is_relative_upload url) && negb (is_absolute_upload url baseUrl) && negb (is_huly_attachment url) then None
  else Some (MkAttachmentLink markdownIndex url (mk_alt l) (extractFilename url)
               (if mk_image l then KindImage else KindLink)
               (if is_huly_attachment url then OriginHuly else OriginGitlab)).

Fixpoint attachments_from (baseUrl : option string) (markdownIndex : nat) (gs : list Segment) : list AttachmentLink :=
  match gs with
  | [] => []
  | Plain _ :: gs => attachments_from baseUrl markdownIndex gs
  | Linked l :: gs =>
      match attachment_of baseUrl markdownIndex l with Some a => [a] | None => [] end ++
      attachments_from baseUrl (S markdownIndex) gs
  end.

Definition extractAttachmentLinks (body : string) (baseUrl : option string) : list AttachmentLink :=
  attachments_from baseUrl 0 (markdown_segments body).

(** ** Rewriting *)

Definition url_map (mappings : list AttachmentMapping) : jsmap string string :=
  fold_left (fun m p => if bool_decide (ap_sourceUrl p = ap_targetUrl p) then m
                        else jset (ap_sourceUrl p) (ap_targetUrl p) m) mappings [].

(** The replacement of one match. *)
Definition retarget (urls : jsmap string string) (l : MarkdownLink) : MarkdownLink :=
  match jget (js_trim (mk_url l)) urls with
  | Some replacement => MkMarkdownLink (mk_image l) (mk_alt l) replacement
  | None => l
  end.

Definition retarget_segment (urls : jsmap string string) (g : Segment) : Segment :=
  match g with Plain a => Plain a | Linked l => Linked (retarget urls l) end.

Definition rewriteAttachmentLinks (body : string) (mappings : list AttachmentMapping) : string :=
  match url_map mappings with
  | [] => body
  | urls => render (map (retarget_segment urls) (markdown_segments body))
  end.

(** [s.replace(/^\//, '')] *)
Definition strip_leading_slash (s : string) : string := default s (after_prefix "/" s).

Definition resolveGitLabUploadUrl (relativeOrAbsolute gitlabBaseUrl projectPath : string) : string :=
  match after_prefix "/uploads/" relativeOrAbsolute with
  | None => relativeOrAbsolute
  | Some rest =>
      strip_trailing_slash gitlabBaseUrl +:+ "/" +:+
      strip_trailing_slash (strip_leading_slash projectPath) +:+ "/uploads/" +:+ rest
  end.

(** ** What matching is *)

Lemma split_first_Some c s l r : split_first c s = Some (l, r) -> s = l +:+ String c r /\ Forall (fun a => a <> c) (String.list_ascii_of_string l).
Proof.
  revert l r. induction s as [|a s IH]; intros l r; cbn; [done|]. destruct (decide (a = c)) as [-> |Hne].
  - intros [= <- <-]. split; [done|constructor].
  - destruct (split_first c s) as [[l' r']|]; [|done]. intros [= <- <-].
    destruct (IH l' r' eq_refl) as [-> Hl]. split; [by rewrite str_app_cons|]. by constructor.
Qed.

Lemma split_first_app c l r :
  Forall (fun a => a <> c) (String.list_ascii_of_string l) -> split_first c (l +:+ String c r) = Some (l, r).
Proof.
  induction l as [|a l IH]; intros Hl.
  { change ("" +:+ String c r) with (String c r). cbn [split_first]. by rewrite decide_True. }  cbn [String.list_ascii_of_string] in Hl. apply Forall_cons in Hl as [Ha Hl].
  rewrite str_app_cons. cbn. rewrite decide_False by done. by rewrite IH.
Qed.

Lemma after_prefix_Some p s r : after_prefix p s = Some r -> s = p +:+ r.
Proof.
  revert s. induction p as [|a p IH]; intros s; cbn; [by intros [= ->]|].
  destruct s as [|b s]; [done|]. destruct (decide (a = b)) as [-> |]; [|done].
  intros ->%IH. by rewrite str_app_cons.
Qed.

(** What the groups of a match look like. *)
Definition link_ok (l : MarkdownLink) : Prop :=
  Forall (fun a => a <> "]"%char) (String.list_ascii_of_string (mk_alt l)) /\
  Forall (fun a => a <> ")"%char) (String.list_ascii_of_string (mk_url l)) /\ mk_url l <> "".

Lemma bracketed_Some s alt url rest :
  bracketed s = Some (alt, url, rest) ->
  s = alt +:+ "](" +:+ url +:+ String ")" rest /\ forall image, link_ok (MkMarkdownLink image alt url).
Proof.
  unfold bracketed. destruct (split_first "]" s) as [[alt' s1]|] eqn:E1; [|done].
  destruct (after_prefix "(" s1) as [s2|] eqn:E2; [|done].
  destruct (split_first ")" s2) as [[[|a u] r]|] eqn:E3; [done| |done]. intros [= <- <- <-].
  apply split_first_Some in E1 as [-> Ha], E3 as [-> Hu]. apply after_prefix_Some in E2 as ->.
  split; [by rewrite !str_app_cons|]. intros image. by split_and!.
Qed.

Lemma link_at_Some s l rest : link_at s = Some (l, rest) -> s = render_link l +:+ rest /\ link_ok l.
Proof.
  unfold link_at. destruct (after_prefix "!" s) as [s1|] eqn:Eb; cbv beta iota zeta.
  all: match goal with |- context [after_prefix "[" ?x] => destruct (after_prefix "[" x) as [s2|] eqn:E1; [|done] end.
  all: destruct (bracketed s2) as [[[alt url] r]|] eqn:E2; [|done]; intros [= <- <-].
  all: apply bracketed_Some in E2 as [-> Hl]; split; [|done]; apply after_prefix_Some in E1.
  - apply after_prefix_Some in Eb. rewrite Eb, E1. unfold render_link. cbn [mk_image mk_alt mk_url].
    rewrite !str_app_assoc. reflexivity.
  - rewrite E1. unfold render_link. cbn [mk_image mk_alt mk_url]. rewrite !str_app_assoc. reflexivity.
Qed.

(** The match a bracket begins does not depend on the addresses. *)
Fixpoint closes (gs : list Segment) : bool :=
  match gs with
  | [] => false
  | Plain a :: gs => bool_decide (a = ")"%char) || closes gs
  | Linked _ :: _ => true
  end.

(** After a bracket's text: an opening parenthesis and a non-empty address. *)
Definition addressed (gs : list Segment) : bool :=
  match gs with
  | Plain b :: gs =>
      bool_decide (b = "("%char) &&
      match gs with
      | Plain a :: gs => negb (bool_decide (a = ")"%char)) && closes gs
      | Linked _ :: _ => true
      | [] => false
      end
  | _ => false
  end.

Fixpoint opens (gs : list Segment) : bool :=
  match gs with
  | [] => false
  | Linked _ :: _ => true
  | Plain a :: gs => if decide (a = "]"%char) then addressed gs else opens gs
  end.

(** No match begins at the character before [gs]. *)
Definition stays_plain (a : ascii) (gs : list Segment) : bool :=
  if decide (a = "["%char) then negb (opens gs)
  else if decide (a = "!"%char) then
    match gs with
    | Plain b :: gs => if decide (b = "["%char) then negb (opens gs) else true
    | Linked l :: _ => mk_image l
    | [] => true
    end
  else true.

Fixpoint parsed (gs : list Segment) : Prop :=
  match gs with
  | [] => True
  | Plain a :: gs => stays_plain a gs = true /\ parsed gs
  | Linked l :: gs => link_ok l /\ parsed gs
  end.

Fixpoint links_ok (gs : list Segment) : Prop :=
  match gs with [] => True | Plain _ :: gs => links_ok gs | Linked l :: gs => link_ok l /\ links_ok gs end.

Lemma parsed_links_ok gs : parsed gs -> links_ok gs.
Proof. induction gs as [|[a|l] gs IH]; cbn; [done| |]; intros [H1 H2]; auto. Qed.

Definition some {A} (o : option A) : bool := match o with Some _ => true | None => false end.

Lemma split_first_cons c a s : split_first c (String a s) = if decide (a = c) then Some ("", s)
  else match split_first c s with Some (l, r) => Some (String a l, r) | None => None end.
Proof. done. Qed.

Lemma split_first_found c l r : exists l' r', split_first c (l +:+ String c r) = Some (l', r').
Proof.
  induction l as [|a l (l' & r' & IH)].
  - change ("" +:+ String c r) with (String c r). rewrite split_first_cons, decide_True by done. eauto.
  - rewrite str_app_cons, split_first_cons. destruct (decide (a = c)); [eauto|]. rewrite IH. eauto.
Qed.

(** The rendering of a link: how it begins, and that it closes. *)
Lemma render_link_head l s : exists a u,
  render_link l +:+ s = String a (u +:+ String ")" s) /\ a <> "("%char /\ a <> ")"%char.
Proof.
  unfold render_link. destruct (mk_image l).
  - exists "!"%char, ("[" +:+ mk_alt l +:+ "](" +:+ mk_url l). split; [|by split].
    rewrite !str_app_assoc. reflexivity.
  - exists "["%char, (mk_alt l +:+ "](" +:+ mk_url l). split; [|by split].
    rewrite !str_app_assoc. reflexivity.
Qed.

Lemma closes_spec gs : closes gs = some (split_first ")" (render gs)).
Proof.
  induction gs as [|[a|l] gs IH]; cbn [closes render render_segment]; [done| |].
  - change (String a "" +:+ render gs) with (String a (render gs)). rewrite split_first_cons, IH.
    destruct (decide (a = ")"%char)) as [-> |Hne]; [by rewrite bool_decide_eq_true_2|].
    rewrite bool_decide_eq_false_2 by done. by destruct (split_first ")" (render gs)) as [[]|].
  - destruct (render_link_head l (render gs)) as (a & u & -> & _ & Hne).
    rewrite split_first_cons, decide_False by done. by destruct (split_first_found ")" u (render gs)) as (? & ? & ->).
Qed.

Lemma after_prefix_char p a s : after_prefix (String p "") (String a s) = if decide (p = a) then Some s else None.
Proof. cbn. by destruct s. Qed.

(** What follows the text of a link. *)
Definition target_at (s1 : string) : option (string * string) :=
  match after_prefix "(" s1 with
  | None => None
  | Some s2 => match split_first ")" s2 with Some (String a url, rest) => Some (String a url, rest) | _ => None end
  end.

Lemma bracketed_target s :
  bracketed s = match split_first "]" s with
                | Some (alt, s1) => match target_at s1 with Some (url, rest) => Some (alt, url, rest) | None => None end
                | None => None
                end.
Proof.
  unfold bracketed, target_at. destruct (split_first "]" s) as [[alt s1]|]; [|done].
  destruct (after_prefix "(" s1) as [s2|]; [|done]. by destruct (split_first ")" s2) as [[[|a u] r]|].
Qed.

Lemma addressed_spec gs : addressed gs = some (target_at (render gs)).
Proof.
  destruct gs as [|[b|l] gs]; cbn [addressed render render_segment]; [done| |].
  - change (String b "" +:+ render gs) with (String b (render gs)). unfold target_at. rewrite after_prefix_char.
    destruct (decide ("("%char = b)) as [<- |Hne]; [|by rewrite bool_decide_eq_false_2 by congruence].
    rewrite bool_decide_eq_true_2 by done. cbn [andb].
    destruct gs as [|[a|l] gs]; cbn [render render_segment]; [done| |].
    + change (String a "" +:+ render gs) with (String a (render gs)). rewrite split_first_cons, closes_spec.
      destruct (decide (a = ")"%char)) as [-> |Hne]; [by rewrite bool_decide_eq_true_2|].
      rewrite bool_decide_eq_false_2 by done. by destruct (split_first ")" (render gs)) as [[]|].
    + destruct (render_link_head l (render gs)) as (a & u & -> & _ & Hne). rewrite split_first_cons, decide_False by done.
      by destruct (split_first_found ")" u (render gs)) as (? & ? & ->).
  - destruct (render_link_head l (render gs)) as (a & u & -> & Hne & _). unfold target_at.
    by rewrite after_prefix_char, decide_False.
Qed.

Lemma target_at_url url s :
  url <> "" -> Forall (fun a => a <> ")"%char) (String.list_ascii_of_string url) ->
  target_at ("(" +:+ url +:+ String ")" s) = Some (url, s).
Proof.
  intros Hne Hu. unfold target_at. change ("(" +:+ url +:+ String ")" s) with (String "(" (url +:+ String ")" s)).
  rewrite after_prefix_char, decide_True by done. rewrite split_first_app by done. by destruct url.
Qed.

(** The rendering of a link from its text on. *)
Lemma render_link_split l s : link_ok l ->
  exists p, render_link l +:+ s = (p +:+ mk_alt l) +:+ String "]" ("(" +:+ mk_url l +:+ String ")" s) /\
    p = (if mk_image l then "![" else "[").
Proof.
  intros _. unfold render_link. destruct (mk_image l); eexists; (split; [|reflexivity]);
    rewrite !str_app_assoc; reflexivity.
Qed.

Lemma bracketed_link l p s :
  link_ok l -> Forall (fun a => a <> "]"%char) (String.list_ascii_of_string p) ->
  bracketed (p +:+ mk_alt l +:+ String "]" ("(" +:+ mk_url l +:+ String ")" s)) = Some (p +:+ mk_alt l, mk_url l, s).
Proof.
  intros (Ha & Hu & Hne) Hp. rewrite bracketed_target, <- str_app_assoc, split_first_app.
  - by rewrite target_at_url.
  - induction p as [|a p IH]; [done|]. rewrite str_app_cons. cbn [String.list_ascii_of_string] in *.
    apply Forall_cons in Hp as [Hpa Hp]. constructor; [done|auto].
Qed.

Lemma opens_spec gs : links_ok gs -> opens gs = some (bracketed (render gs)).
Proof.
  induction gs as [|[a|l] gs IH]; cbn [opens render render_segment links_ok]; [done| |].
  - intros Hok. change (String a "" +:+ render gs) with (String a (render gs)). rewrite bracketed_target, split_first_cons.
    destruct (decide (a = "]"%char)) as [-> |Hne].
    + rewrite addressed_spec. by destruct (target_at (render gs)) as [[]|].
    + rewrite IH, bracketed_target by done. destruct (split_first "]" (render gs)) as [[alt s1]|]; [|done].
      by destruct (target_at s1) as [[]|].
  - intros [Hl _]. destruct (render_link_split l (render gs) Hl) as (p & -> & Ep). rewrite str_app_assoc, bracketed_link; [done..|].
    subst p. destruct (mk_image l); repeat constructor; done.
Qed.

Lemma link_at_link l s : link_ok l -> link_at (render_link l +:+ s) = Some (l, s).
Proof.
  intros Hl. destruct (render_link_split l s Hl) as (p & -> & ->). unfold link_at.
  pose proof (bracketed_link l "" s Hl (List.Forall_nil _)) as Hb. change ("" +:+ ?x) with x in Hb.
  destruct l as [[|] alt url]; cbn [mk_image mk_alt mk_url] in *.
  - change (("![" +:+ alt) +:+ ?x) with (String "!" (String "[" (alt +:+ x))). rewrite after_prefix_char, decide_True by done.
    rewrite after_prefix_char, decide_True by done. by rewrite Hb.
  - change (("[" +:+ alt) +:+ ?x) with (String "[" (alt +:+ x)). rewrite after_prefix_char, decide_False by done.
    rewrite after_prefix_char, decide_True by done. by rewrite Hb.
Qed.

Lemma link_at_plain a gs : links_ok gs -> stays_plain a gs = negb (some (link_at (String a (render gs)))).
Proof.
  intros Hok. unfold stays_plain, link_at. rewrite after_prefix_char.
  destruct (decide (a = "["%char)) as [-> |Hb].
  - rewrite decide_False by done. rewrite after_prefix_char, decide_True by done. rewrite opens_spec by done.
    by destruct (bracketed (render gs)) as [[[]]|].
  - destruct (decide (a = "!"%char)) as [-> |Hx].
    + rewrite decide_True by done. destruct gs as [|[b|l] gs]; cbn [render render_segment]; [done| |].
      * change (String b "" +:+ render gs) with (String b (render gs)). rewrite after_prefix_char.
        destruct (decide (b = "["%char)) as [-> |Hne]; [|by rewrite decide_False by congruence].
        rewrite decide_True by done. cbn in Hok. rewrite opens_spec by done. by destruct (bracketed (render gs)) as [[[]]|].
      * destruct Hok as [Hl _]. destruct (render_link_split l (render gs) Hl) as (p & -> & ->).
        pose proof (bracketed_link l "" (render gs) Hl (List.Forall_nil _)) as Hbr. change ("" +:+ ?x) with x in Hbr.
        destruct l as [[|] alt url]; cbn [mk_image mk_alt mk_url] in *; [done|].
        change (("[" +:+ alt) +:+ ?x) with (String "[" (alt +:+ x)). rewrite after_prefix_char, decide_True by done.
        by rewrite Hbr.
    + rewrite decide_False by congruence. by rewrite after_prefix_char, decide_False by congruence.
Qed.

Lemma str_length_app' (s t : string) : String.length (s +:+ t) = String.length s + String.length t.
Proof. induction s as [|a s IH]; [done|]. rewrite str_app_cons. cbn [String.length]. by rewrite IH. Qed.

Lemma render_link_pos l : 0 < String.length (render_link l).
Proof. unfold render_link. rewrite !str_length_app'. cbn [String.length]. lia. Qed.

(** Reading what was written. *)
Lemma segments_render gs fuel : parsed gs -> String.length (render gs) <= fuel -> segments fuel (render gs) = gs.
Proof.
  revert fuel. induction gs as [|[a|l] gs IH]; intros fuel; cbn [render render_segment parsed].
  - by destruct fuel.
  - change (String a "" +:+ render gs) with (String a (render gs)). intros [Hp Hgs] Hf.
    cbn [String.length] in Hf. destruct fuel as [|fuel]; [lia|]. cbn [segments].
    rewrite link_at_plain in Hp by (by apply parsed_links_ok).
    destruct (link_at (String a (render gs))) as [[]|]; [done|]. rewrite IH; [done..|lia].
  - intros [Hl Hgs] Hf. rewrite str_length_app' in Hf.
    destruct (render_link_head l (render gs)) as (a & u & E & _).
    pose proof (render_link_pos l) as Hpos.
    destruct fuel as [|fuel]; [lia|]. pose proof (link_at_link l (render gs) Hl) as El.
    rewrite E in El |- *. cbn [segments]. rewrite El, IH; [done..|lia].
Qed.

(** What is read renders back, and is read as itself. *)
Lemma segments_parsed fuel s : String.length s <= fuel -> render (segments fuel s) = s /\ parsed (segments fuel s).
Proof.
  revert s. induction fuel as [|fuel IH]; intros [|a s] Hf; try done; [cbn in Hf; lia|]. cbn [segments].
  destruct (link_at (String a s)) as [[l rest]|] eqn:E.
  - apply link_at_Some in E as [Es Hl]. assert (String.length rest <= fuel) as Hr.
    { pose proof (render_link_pos l). apply (f_equal String.length) in Es. rewrite str_length_app' in Es. cbn [String.length] in *. lia. }
    destruct (IH rest Hr) as [Hren Hp]. cbn [render render_segment parsed]. by rewrite Hren, Es.
  - destruct (IH s ltac:(cbn in Hf; lia)) as [Hren Hp]. cbn [render render_segment parsed]. rewrite Hren. split; [done|].
    split; [|done]. rewrite link_at_plain by (by apply parsed_links_ok). by rewrite Hren, E.
Qed.

Lemma markdown_segments_render body : render (markdown_segments body) = body /\ parsed (markdown_segments body).
Proof. by apply segments_parsed. Qed.

(** ** What rewriting is *)

(** An address that can stand in a link. *)
Definition target_ok (url : string) : Prop :=
  url <> "" /\ Forall (fun a => a <> ")"%char) (String.list_ascii_of_string url).

Definition map_ok (urls : jsmap string string) : Prop := forall k v, jget k urls = Some v -> target_ok v.

Lemma retarget_ok urls l : map_ok urls -> link_ok l -> link_ok (retarget urls l) /\ mk_image (retarget urls l) = mk_image l.
Proof.
  intros Hm (Ha & Hu & Hne). unfold retarget. destruct (jget _ urls) as [r|] eqn:E; [|by split_and!].
  destruct (Hm _ _ E). by split_and!.
Qed.

Lemma closes_retarget urls gs : closes (map (retarget_segment urls) gs) = closes gs.
Proof. induction gs as [|[a|l] gs IH]; cbn; congruence. Qed.

Lemma addressed_retarget urls gs : addressed (map (retarget_segment urls) gs) = addressed gs.
Proof. destruct gs as [|[b|l] [|[a|l'] gs]]; cbn; rewrite ?closes_retarget; done. Qed.

Lemma opens_retarget urls gs : opens (map (retarget_segment urls) gs) = opens gs.
Proof.
  induction gs as [|[a|l] gs IH]; cbn [map retarget_segment opens]; [done| |done].
  by rewrite addressed_retarget, IH.
Qed.

Lemma parsed_retarget urls gs : map_ok urls -> parsed gs -> parsed (map (retarget_segment urls) gs).
Proof.
  intros Hm. induction gs as [|[a|l] gs IH]; cbn [map retarget_segment parsed]; [done| |].
  - intros [Hp Hgs]. split; [|auto]. unfold stays_plain in *. rewrite opens_retarget.
    destruct (decide (a = "["%char)); [done|]. destruct (decide (a = "!"%char)); [|done].
    destruct gs as [|[b|l] gs]; cbn [map retarget_segment] in *; [done|by rewrite opens_retarget|].
    destruct Hgs as [Hl _]. by rewrite (proj2 (retarget_ok urls l Hm Hl)).
  - intros [Hl Hgs]. split; [|auto]. by apply retarget_ok.
Qed.

Lemma url_map_get_from ms m k v :
  jget k (fold_left (fun m p => if bool_decide (ap_sourceUrl p = ap_targetUrl p) then m
                        else jset (ap_sourceUrl p) (ap_targetUrl p) m) ms m) = Some v ->
  jget k m = Some v \/ exists p, p ∈ ms /\ ap_targetUrl p = v.
Proof.
  revert m. induction ms as [|p ms IH]; intros m; cbn [fold_left]; [by left|].
  intros [E|(q & Hq & Ev)]%IH; [|right; exists q; split; [by right|done]].
  destruct (bool_decide _); [by left|]. rewrite jget_set in E. destruct (decide _); [|by left].
  injection E as <-. right. exists p. split; [left|done].
Qed.

Lemma url_map_target ms k v : jget k (url_map ms) = Some v -> exists p, p ∈ ms /\ ap_targetUrl p = v.
Proof. intros [E|E]%url_map_get_from; [done|done]. Qed.

Lemma retarget_nil gs : map (retarget_segment []) gs = gs.
Proof. induction gs as [|[a|l] gs IH]; cbn; [done|..]; by f_equal. Qed.

Lemma rewrite_render body ms :
  rewriteAttachmentLinks body ms = render (map (retarget_segment (url_map ms)) (markdown_segments body)).
Proof.
  unfold rewriteAttachmentLinks. destruct (url_map ms); [|done].
  rewrite retarget_nil. by destruct (markdown_segments_render body) as [-> _].
Qed.

(** Rewriting changes the addresses of links and nothing else: when the
    new addresses can stand in a link - they are not empty and hold no closing
    parenthesis - the rewritten body reads as the same text and the same
    links, in the same places, with the mapped addresses replaced. *)
Theorem rewrite_structure body ms :
  (forall p, p ∈ ms -> target_ok (ap_targetUrl p)) ->
  markdown_segments (rewriteAttachmentLinks body ms) =
  map (retarget_segment (url_map ms)) (markdown_segments body).
Proof.
  intros Hok. rewrite rewrite_render. apply segments_render; [|done].
  apply parsed_retarget; [|by apply markdown_segments_render].
  intros k v (p & Hp & <-)%url_map_target. by apply Hok.
Qed.

(** Rewriting again changes nothing, when no new address is one that is
    replaced. *)
Theorem rewrite_idempotent body ms :
  (forall p, p ∈ ms -> target_ok (ap_targetUrl p) /\ jget (js_trim (ap_targetUrl p)) (url_map ms) = None) ->
  rewriteAttachmentLinks (rewriteAttachmentLinks body ms) ms = rewriteAttachmentLinks body ms.
Proof.
  intros Hok. rewrite (rewrite_render (rewriteAttachmentLinks body ms) ms), rewrite_structure by (intros p Hp; by apply Hok).
  rewrite rewrite_render. f_equal. rewrite map_map. apply map_ext. intros [a|l]; [done|]. cbn. f_equal.
  unfold retarget. destruct (jget (js_trim (mk_url l)) (url_map ms)) as [r|] eqn:E; [|by rewrite E].
  cbn [mk_url mk_image mk_alt]. apply url_map_target in E as (p & Hp & <-). by rewrite (proj2 (Hok p Hp)).
Qed.

(** ** Closed instances *)

Definition sample_body : string := "See ![a](/uploads/ab/x.png) and [b](https://e.org), [not a link] (c), [d](/uploads/ab/x.png ).".

Example sample_links :
  map al_sourceUrl (extractAttachmentLinks sample_body (Some "https://git.example.org")) = ["/uploads/ab/x.png"; "/uploads/ab/x.png"] /\
  map al_markdownIndex (extractAttachmentLinks sample_body None) = [0; 2] /\
  map al_filename (extractAttachmentLinks sample_body None) = ["x.png"; "x.png"].
Proof. vm_compute. split_and!; reflexivity. Qed.

Definition sample_mapping : list AttachmentMapping := [MkAttachmentMapping "/uploads/ab/x.png" "attachments://7"].

Example sample_rewritten :
  rewriteAttachmentLinks sample_body sample_mapping =
  "See ![a](attachments://7) and [b](https://e.org), [not a link] (c), [d](attachments://7).".
Proof. vm_compute. reflexivity. Qed.

Lemma rewrite_structure_witness :
  markdown_segments (rewriteAttachmentLinks sample_body sample_mapping) =
  map (retarget_segment (url_map sample_mapping)) (markdown_segments sample_body).
Proof.
  apply (rewrite_structure sample_body sample_mapping). intros p ->%list_elem_of_singleton. split; [done|].
  repeat constructor; done.
Defined.
