(* ===== verification/Attachments.v ===== *)
(** * The attachment mirror (src/sync/attachments.ts,
    src/state/attachment-mirror.ts, src/sync/huly-attachment-store.ts)

    Files a body links to are copied to the other system, once for each
    content, and the links rewritten.  The two systems are the record
    [MirrorClients] of operations over an abstract state; the store of the
    Huly side is modelled over the platform client, and its bytes are
    strings.  Logging is not modelled. *)

From Stdlib Require Import Ascii.
From S2P Require Import Prelude JsMap JsString Ids JsVal Platform Huly Mongo Credentials Sync Json RateLimit.
From S2P Require Import GitLabMaps GitLabClient Cookies AttachmentLinks.
Open Scope nat_scope.
Open Scope string_scope.
Open Scope list_scope.

(** ** src/state/attachment-mirror.ts *)

Record AttachmentMirrorDoc := MkAttachmentMirrorDoc {
  am_id : string;
  am_contentHash : string;
  am_origin : LinkOrigin;
  am_targetUrl : string;
  am_sourceUrl : string;
  am_createdAt : Z
}.

Definition mirror_key (contentHash : string) (origin : LinkOrigin) (d : AttachmentMirrorDoc) : bool :=
  bool_decide (am_contentHash d = contentHash) && bool_decide (am_origin d = origin).

(** Unique: the id, and the hash with the origin. *)
#[export] Instance AttachmentMirrorDoc_document : Document AttachmentMirrorDoc.
Proof.
  refine {| conflicts := fun d d' => bool_decide (am_id d = am_id d') || mirror_key (am_contentHash d) (am_origin d) d' |}.
  intros d d'. unfold mirror_key. apply eq_true_iff_eq. rewrite !orb_true_iff, !andb_true_iff, !bool_decide_eq_true.
  intuition congruence.
Defined.

(** What the mirror is given: [downloadUpload] and [uploadFile] of the GitLab
    client, [upload] and [download] of the Huly store, each with the address
    it returns. *)
Record MirrorClients (X : Type) := MkMirrorClients {
  mc_downloadUpload : string -> M X (option string);
  mc_uploadFile : Z -> string -> string -> M X string;
  mc_hulyUpload : string -> string -> M X string;
  mc_hulyDownload : string -> M X string
}.
Arguments MkMirrorClients {X}.
Arguments mc_downloadUpload {X}.
Arguments mc_uploadFile {X}.
Arguments mc_hulyUpload {X}.
Arguments mc_hulyDownload {X}.

Record MirrorState (Coll : Type -> Type) (X : Type) := MkMirrorState {
  mi_col : Coll AttachmentMirrorDoc;
  mi_ids : nat;
  mi_clock : nat;
  mi_world : X
}.
Arguments MkMirrorState {Coll X}.
Arguments mi_col {Coll X}.
Arguments mi_ids {Coll X}.
Arguments mi_clock {Coll X}.
Arguments mi_world {Coll X}.

Section Mirror.
Context {Coll : Type -> Type} `{Mongo Coll} {P : Platform} `{Sha256} {X : Type}.
Abbreviation MM := (M (MirrorState Coll X)).

Definition findMirroredAttachment (contentHash : string) (origin : LinkOrigin) : MM (option AttachmentMirrorDoc) :=
  gets (fun s => findOne (mirror_key contentHash origin) (mi_col s)).

(** A duplicate key is ignored. *)
Definition insertMirroredAttachment (contentHash : string) (origin : LinkOrigin) (sourceUrl targetUrl : string) : MM unit :=
  fun s =>
    let doc := MkAttachmentMirrorDoc (freshObjectId (mi_ids s)) contentHash origin targetUrl sourceUrl (clock (mi_clock s)) in
    (Ok tt, MkMirrorState (match insertOne doc (mi_col s) with Some c => c | None => mi_col s end)
              (S (mi_ids s)) (S (mi_clock s)) (mi_world s)).

(** ** src/sync/attachments.ts *)

Context (deps : MirrorClients X).

Definition on_clients {A} : M X A -> MM A :=
  zoom mi_world (fun x s => MkMirrorState (mi_col s) (mi_ids s) (mi_clock s) x).

Definition too_large (bytes : string) : bool := (MAX_ATTACHMENT_BYTES <? Z.of_nat (String.length bytes))%Z.

(** The part the two directions share: the bytes go to [upload] unless the
    same content of the same origin has been mirrored. *)
Definition mirror_bytes (origin : LinkOrigin) (sourceUrl bytes : string) (upload : MM string) : MM (option string) :=
  if too_large bytes then ret None
  else
    let contentHash := sha256_hex bytes in
    let! existing := findMirroredAttachment contentHash origin in
    match existing with
    | Some doc => ret (Some (am_targetUrl doc))
    | None =>
        let! targetUrl := upload in
        insertMirroredAttachment contentHash origin sourceUrl targetUrl ;;!
        ret (Some targetUrl)
    end.

Definition mirrorGitlabUploadToHuly (sourceUrl filename : string) : MM (option string) :=
  try_catch
    (let! bytes := on_clients (mc_downloadUpload deps sourceUrl) in
     match bytes with
     | None => ret None
     | Some bytes => mirror_bytes OriginGitlab sourceUrl bytes (on_clients (mc_hulyUpload deps filename bytes))
     end)
    (fun _ => ret None).

Definition mirrorHulyAttachmentToGitlab (sourceUrl filename : string) (projectId : Z) : MM (option string) :=
  try_catch
    (let! bytes := on_clients (mc_hulyDownload deps sourceUrl) in
     mirror_bytes OriginHuly sourceUrl bytes (on_clients (mc_uploadFile deps projectId filename bytes)))
    (fun _ => ret None).

(** The loop of the two bodies. *)
Definition mirror_links (links : list AttachmentLink) (mirror : AttachmentLink -> MM (option string))
    : MM (list AttachmentMapping) :=
  let! targets := mapM_js links (fun link =>
    let! targetUrl := mirror link in
    ret (match targetUrl with Some t => [MkAttachmentMapping (al_sourceUrl link) t] | None => [] end)) in
  ret (concat targets).

Definition of_origin (origin : LinkOrigin) (links : list AttachmentLink) : list AttachmentLink :=
  List.filter (fun l => bool_decide (al_origin l = origin)) links.

Definition mirrorBodyGitlabToHuly (body gitlabBaseUrl projectPath : string) : MM string :=
  match of_origin OriginGitlab (extractAttachmentLinks body (Some gitlabBaseUrl)) with
  | [] => ret body
  | links =>
      let! mappings := mirror_links links (fun link =>
        mirrorGitlabUploadToHuly (resolveGitLabUploadUrl (al_sourceUrl link) gitlabBaseUrl projectPath) (al_filename link)) in
      ret (rewriteAttachmentLinks body mappings)
  end.

Definition mirrorBodyHulyToGitlab (body : string) (projectId : Z) : MM string :=
  match of_origin OriginHuly (extractAttachmentLinks body None) with
  | [] => ret body
  | links =>
      let! mappings := mirror_links links (fun link =>
        mirrorHulyAttachmentToGitlab (al_sourceUrl link) (al_filename link) projectId) in
      ret (rewriteAttachmentLinks body mappings)
  end.

(** The dependency of the sync managers ([Sync.MirrorDeps]) over a state [S]
    that holds the mirror's; their types make a body a string. *)
Definition mirror_deps {S} (get : S -> MirrorState Coll X) (set : MirrorState Coll X -> S -> S) : MirrorDeps S :=
  MkMirrorDeps
    (fun body base path =>
       match body with
       | VStr b => let! r := zoom get set (mirrorBodyGitlabToHuly b base path) in ret (VStr r)
       | v => ret v
       end)
    (fun body projectId =>
       match body with
       | VStr b => let! r := zoom get set (mirrorBodyHulyToGitlab b projectId) in ret (VStr r)
       | v => ret v
       end).
End Mirror.

(** ** src/sync/huly-attachment-store.ts *)

Section HulyStore.
Context {HU : Type} `{HulyClient HU} {C : Cipher} (date_now : M HU Z).

Definition ATTACHMENT_BLOB_CLASS : string := "gitlab:class:AttachmentBlob".
Definition ATTACHMENT_SPACE_DEFAULT : string := "gitlab:space:Attachments".

Fixpoint has_char (c : Ascii.ascii) (s : string) : bool :=
  match s with "" => false | String a s => bool_decide (a = c) || has_char c s end.

Definition validateFilename (filename : string) : res unit :=
  if bool_decide (filename = "") then Throw (JsError "attachment: filename must not be empty")
  else if has_char "/"%char filename || has_char (chr 92) filename
  then Throw (JsError ("attachment: filename must not contain path separators: " +:+ filename))
  else if has_char (chr 0) filename
  then Throw (JsError ("attachment: filename must not contain null bytes: " +:+ filename))
  else Ok tt.

Definition MIME_TYPES : jsmap string string :=
  [("png", "image/png"); ("jpg", "image/jpeg"); ("jpeg", "image/jpeg"); ("gif", "image/gif"); ("webp", "image/webp");
   ("svg", "image/svg+xml"); ("pdf", "application/pdf"); ("txt", "text/plain"); ("md", "text/markdown");
   ("zip", "application/zip"); ("gz", "application/gzip"); ("tar", "application/x-tar")].

(** The extensions that name a property every object has are left out. *)
Definition guessMimeType (filename : string) : string :=
  default "application/octet-stream" (jget (to_lower (last_part "." filename)) MIME_TYPES).

Definition huly_store_upload (spaceRef : option string) (filename bytes : string) : M HU string :=
  lift_res (validateFilename filename) ;;!
  if too_large bytes
  then throw (JsError ("attachment: file exceeds " +:+ num_to_string MAX_ATTACHMENT_BYTES +:+ " byte limit (" +:+
                       num_to_string (Z.of_nat (String.length bytes)) +:+ " bytes): " +:+ filename))
  else
    let! now := date_now in
    let! ref := createDoc ATTACHMENT_BLOB_CLASS (default ATTACHMENT_SPACE_DEFAULT spaceRef)
      [("filename", VStr filename); ("mimeType", VStr (guessMimeType filename)); ("data", VStr (base64 bytes));
       ("size", VNum (Z.of_nat (String.length bytes))); ("createdAt", VNum now)] in
    ret ("attachments://" +:+ ref).

Definition huly_store_download (refOrUrl : string) : M HU string :=
  let ref := default refOrUrl (after_prefix "attachments://" refOrUrl) in
  let! doc := findOneDoc ATTACHMENT_BLOB_CLASS [("_id", VStr ref)] in
  match doc with
  | None => throw (JsError ("attachment: doc not found for ref: " +:+ ref))
  | Some doc =>
      match field "data" (hd_attrs doc) with
      | Some (VStr data) => ret (unbase64 data)
      | _ => throw (JsError "TypeError")
      end
  end.
End HulyStore.

(** * What the attachment mirror does

    The Huly store gives back the bytes it was given; one content is
    transferred once, whatever links, projects or workspaces name it; mirroring
    a body never throws; and a link to a host whose address merely begins
    with that of GitLab is fetched with GitLab's token. *)

(** ** The Huly store *)

Section StoreRoundTrip.
Context {HU : Type} `{HL : HulyLaws HU} {C : Cipher} (date_now : M HU Z).

(** A file stored in Huly reads back: the address an upload returns
    downloads to the bytes that were uploaded. *)
Theorem attachment_round_trip spaceRef filename bytes h url h' :
  huly_up HU ->
  huly_store_upload date_now spaceRef filename bytes h = (Ok url, h') ->
  exists h'', huly_store_download url h' = (Ok bytes, h'') /\ docs h'' = docs h'.
Proof.
  intros Hup. unfold huly_store_upload. unfold bind at 1, lift_res.
  destruct (validateFilename filename) as [[]|]; [|done]. destruct (too_large bytes); [done|].
  unfold bind at 1. destruct (date_now h) as [[now|] h1]; [|done]. unfold bind at 1.
  destruct (createDoc _ _ _ h1) as [[ref|] h2] eqn:Ec; [|done]. intros [= <- <-].
  apply createDoc_ok in Ec as [Hd Hnew]. unfold huly_store_download.
  change (default ("attachments://" +:+ ref) (after_prefix "attachments://" ("attachments://" +:+ ref))) with ref.
  cbv zeta. destruct (up_findOne _ Hup ATTACHMENT_BLOB_CLASS [("_id", VStr ref)] h2) as (o & h3 & Ef).
  unfold bind. rewrite Ef.
  apply findOne_ok in Ef as [Hd3 ->]. rewrite Hd, js_find_app.
  assert (js_find (fun d => bool_decide (hd_class d = ATTACHMENT_BLOB_CLASS) && matches [("_id", VStr ref)] d) (docs h1) = None) as ->.
  { apply js_find_None. intros x Hx. apply andb_false_iff. right. cbn [matches forallb fst snd matches_value].
    rewrite andb_true_r. apply bool_decide_eq_false_2. unfold doc_field. rewrite decide_True by done. intros [= E].
    apply Hnew. rewrite <- E. by apply list_elem_of_fmap_2. }
  cbn [js_find]. rewrite bool_decide_eq_true_2 by done.
  assert (matches [("_id", VStr ref)] (MkHulyDoc ref ATTACHMENT_BLOB_CLASS (default ATTACHMENT_SPACE_DEFAULT spaceRef)
    [("filename", VStr filename); ("mimeType", VStr (guessMimeType filename)); ("data", VStr (base64 bytes));
       ("size", VNum (Z.of_nat (String.length bytes))); ("createdAt", VNum now)] []) = true) as ->.
  { cbn [matches forallb fst snd matches_value]. rewrite andb_true_r. apply bool_decide_eq_true_2.
    unfold doc_field. by rewrite decide_True. }
  cbn [andb]. change (field "data" _) with (Some (VStr (base64 bytes))). cbn [ret].
  rewrite unbase64_base64. exists h3. split; [done|]. by rewrite Hd3, Hd.
Qed.
End StoreRoundTrip.

(** ** One content, one transfer *)

Section Once.
Context {Coll : Type -> Type} `{HL : MongoLaws Coll} {P : Platform} `{Sha256} {X : Type}.
Implicit Types (s : MirrorState Coll X).

(** The object id still to come is not taken. *)
Definition mirror_ids_fresh s : Prop := forall d, d ∈ scan (mi_col s) -> am_id d <> freshObjectId (mi_ids s).

(** Once a content has been mirrored, it is not transferred again: every
    later link to the same bytes in the same direction - of another file
    name, project, GitLab instance or workspace - is answered with the first
    address, with nothing sent. *)
Theorem mirror_once origin sourceUrl bytes (upload : M (MirrorState Coll X) string) s t s1 :
  (forall st, mi_col (upload st).2 = mi_col st /\ mi_ids (upload st).2 = mi_ids st) -> mirror_ids_fresh s ->
  mirror_bytes origin sourceUrl bytes upload s = (Ok (Some t), s1) ->
  forall sourceUrl' upload' s2,
    mi_col s2 = mi_col s1 -> mirror_bytes origin sourceUrl' bytes upload' s2 = (Ok (Some t), s2).
Proof.
  intros Hup Hfresh E sourceUrl' upload' s2 Hcol. unfold mirror_bytes in *.
  destruct (too_large bytes); [done|]. unfold findMirroredAttachment, gets in E |- *.
  unfold bind at 1 in E. unfold bind at 1. rewrite Hcol. destruct (findOne _ (mi_col s)) as [d|] eqn:Ef.
  - injection E as <- <-. by rewrite Ef.
  - unfold bind at 1 in E. destruct (upload s) as [[t'|] s3] eqn:Eu; [|done]. injection E as <- <-.
    destruct (Hup s) as [Hc Hi]. rewrite Eu in Hc, Hi. cbn [snd] in Hc, Hi. cbn [mi_col]. rewrite Hc, Hi.
    set (d := MkAttachmentMirrorDoc _ _ _ _ _ _). rewrite findOne_scan, js_find_None in Ef.
    destruct (insertOne d (mi_col s)) as [c|] eqn:Ei.
    + apply insertOne_Some, ref_insert_Some in Ei as [Ei _]. rewrite findOne_scan, Ei, js_find_app.
      assert (js_find (mirror_key (sha256_hex bytes) origin) (scan (mi_col s)) = None) as -> by (by apply js_find_None).
      cbn [js_find]. unfold mirror_key. cbn [d am_contentHash am_origin].
      by rewrite !bool_decide_eq_true_2.
    + exfalso. apply insertOne_None, ref_insert_None in Ei as (x & Hx & Hcl). cbn in Hcl.
      apply orb_true_iff in Hcl as [Hcl|Hcl]; [|by rewrite (Ef x Hx) in Hcl].
      apply bool_decide_eq_true in Hcl. by apply (Hfresh x Hx).
Qed.

(** ** Bodies *)

Lemma mirror_gitlab_total (deps : MirrorClients X) url fn s : exists o s', mirrorGitlabUploadToHuly deps url fn s = (Ok o, s').
Proof. unfold mirrorGitlabUploadToHuly, try_catch. destruct (bind _ _ s) as [[o|e] s']; [by exists o, s'|by exists None, s']. Qed.

Lemma mirror_huly_total (deps : MirrorClients X) url fn pid s : exists o s', mirrorHulyAttachmentToGitlab deps url fn pid s = (Ok o, s').
Proof. unfold mirrorHulyAttachmentToGitlab, try_catch. destruct (bind _ _ s) as [[o|e] s']; [by exists o, s'|by exists None, s']. Qed.

Lemma mirror_links_total links (mirror : AttachmentLink -> M (MirrorState Coll X) (option string)) s :
  (forall l s, exists o s', mirror l s = (Ok o, s')) ->
  exists ms s', mirror_links links mirror s = (Ok ms, s') /\
    forall p, p ∈ ms -> exists l, l ∈ links /\ ap_sourceUrl p = al_sourceUrl l.
Proof.
  intros Hm. unfold mirror_links.
  enough (exists ts s', mapM_js links (fun link => let! targetUrl := mirror link in
    ret (match targetUrl with Some t => [MkAttachmentMapping (al_sourceUrl link) t] | None => [] end)) s = (Ok ts, s') /\
    forall p, p ∈ concat ts -> exists l, l ∈ links /\ ap_sourceUrl p = al_sourceUrl l) as (ts & s' & E & Hp).
  { exists (concat ts), s'. by rewrite (bind_ok _ _ _ _ _ E). }
  revert s. induction links as [|l links IH]; intros s; cbn [mapM_js].
  { exists [], s. split; [done|]. by intros p ?%elem_of_nil. }
  destruct (Hm l s) as (o & s1 & E1). destruct (IH s1) as (ts & s2 & E2 & Hp).
  exists ((match o with Some t => [MkAttachmentMapping (al_sourceUrl l) t] | None => [] end) :: ts), s2. split.
  - unfold bind at 1 2. rewrite E1. cbn [ret]. by rewrite (bind_ok _ _ _ _ _ E2).
  - intros p [Hp1|Hp2]%elem_of_app.
    + exists l. split; [left|]. destruct o; [|by apply elem_of_nil in Hp1]. by apply list_elem_of_singleton in Hp1 as ->.
    + destruct (Hp p Hp2) as (l' & Hl & Ep). exists l'. split; [by right|done].
Qed.

(** Mirroring a body always returns one: a link that cannot be
    transferred is left as it is, no error reaches the caller, and every
    address that is rewritten is one of the body's links of the right
    origin. *)
Theorem mirror_body_total (deps : MirrorClients X) body base path projectId s :
  (exists ms s', mirrorBodyGitlabToHuly deps body base path s = (Ok (rewriteAttachmentLinks body ms), s') /\
     forall p, p ∈ ms -> exists l, l ∈ extractAttachmentLinks body (Some base) /\
       al_origin l = OriginGitlab /\ ap_sourceUrl p = al_sourceUrl l) /\
  (exists ms s', mirrorBodyHulyToGitlab deps body projectId s = (Ok (rewriteAttachmentLinks body ms), s') /\
     forall p, p ∈ ms -> exists l, l ∈ extractAttachmentLinks body None /\
       al_origin l = OriginHuly /\ ap_sourceUrl p = al_sourceUrl l).
Proof.
  assert (forall origin links l, l ∈ of_origin origin links -> l ∈ links /\ al_origin l = origin) as Hof.
  { intros origin links l Hl. apply list_elem_of_In, filter_In in Hl as [Hl E]. apply bool_decide_eq_true in E.
    by rewrite list_elem_of_In. }
  split.
  - unfold mirrorBodyGitlabToHuly. specialize (Hof OriginGitlab (extractAttachmentLinks body (Some base))).
    destruct (of_origin _ _) as [|l0 links]; [exists [], s; split; [done|by intros p ?%elem_of_nil]|].
    destruct (mirror_links_total (l0 :: links) (fun link => mirrorGitlabUploadToHuly deps
      (resolveGitLabUploadUrl (al_sourceUrl link) base path) (al_filename link)) s) as (ms & s' & E & Hp);
      [intros; apply mirror_gitlab_total|].
    exists ms, s'. split; [by rewrite (bind_ok _ _ _ _ _ E)|]. intros p (l & [Hl Ho]%Hof & Ep)%Hp. by exists l.
  - unfold mirrorBodyHulyToGitlab. specialize (Hof OriginHuly (extractAttachmentLinks body None)).
    destruct (of_origin _ _) as [|l0 links]; [exists [], s; split; [done|by intros p ?%elem_of_nil]|].
    destruct (mirror_links_total (l0 :: links) (fun link => mirrorHulyAttachmentToGitlab deps
      (al_sourceUrl link) (al_filename link) projectId) s) as (ms & s' & E & Hp);
      [intros; apply mirror_huly_total|].
    exists ms, s'. split; [by rewrite (bind_ok _ _ _ _ _ E)|]. intros p (l & [Hl Ho]%Hof & Ep)%Hp. by exists l.
Qed.
End Once.

(** ** Whose host is asked *)

(** A network that writes requests down and answers none. *)
Definition Spy : Type := list HttpRequest.
#[export] Instance spy_http : Http Spy := {
  fetch := fun req w => (Throw (JsError "fetch failed"), w ++ [req]);
  sleep := fun _ w => (Ok tt, w)
}.

Section Hosts.
Context {P : Platform} `{Sha256}.

Definition offline {A} : M (ClientState Spy) A := throw (JsError "not connected").

(** The mirror with the GitLab client of a binding. *)
Definition gitlab_mirror (client : GitLabClient) : MirrorClients (ClientState Spy) :=
  MkMirrorClients (downloadUpload client) (fun _ _ _ => offline) (fun _ _ => offline) (fun _ => offline).

(** C30: The host of an upload is not compared, only a prefix of its address:
    for a body with a link to [base ++ rest] - where [rest] may go on with
    the host's name - that has the form of an upload, the first request of
    the mirror goes to that very address with the instance's token in its
    header. *)
Theorem upload_host_unchecked client base rest alt path (s : MirrorState list (ClientState Spy)) :
  let url := base +:+ rest in
  strip_trailing_slash base = base -> js_trim url = url -> target_ok url ->
  has_upload_path (to_lower url) = true -> after_prefix "/uploads/" url = None -> is_huly_attachment url = false ->
  Forall (fun a => a <> "]"%char) (String.list_ascii_of_string alt) ->
  cl_world (mi_world (mirrorBodyGitlabToHuly (gitlab_mirror client) ("[" +:+ alt +:+ "](" +:+ url +:+ ")") base path s).2) =
  cl_world (mi_world s) ++ [MkHttpRequest "GET" url [] [("PRIVATE-TOKEN", gc_token client)] None].
Proof.
  intros url Hb Ht [Hne Hp] Hup Hrel Hhuly Halt.
  set (l := MkMarkdownLink false alt url).
  assert (markdown_segments ("[" +:+ alt +:+ "](" +:+ url +:+ ")") = [Linked l]) as Hseg.
  { change ("[" +:+ alt +:+ "](" +:+ url +:+ ")") with (render_link l).
    assert (render_link l = render [Linked l]) as ->.
    { cbn [render render_segment]. by rewrite str_app_nil_r. }
    by apply segments_render. }
  assert (extractAttachmentLinks ("[" +:+ alt +:+ "](" +:+ url +:+ ")") (Some base) =
    [MkAttachmentLink 0 url alt (extractFilename url) KindLink OriginGitlab]) as Hex.
  { unfold extractAttachmentLinks. rewrite Hseg. cbn [attachments_from]. unfold attachment_of.
    change (mk_url l) with url. rewrite Ht, Hhuly. unfold is_absolute_upload. rewrite Hup, Hb.
    assert (starts_with base url = true) as ->.
    { unfold url, starts_with. clear. induction base as [|a b IH].
      { change ("" +:+ rest) with rest. by destruct rest. }
      rewrite str_app_cons. cbn. by destruct (ascii_dec a a). }
    cbn [andb negb]. rewrite andb_false_r. cbn [andb app]. done. }
  unfold mirrorBodyGitlabToHuly. rewrite Hex. cbn [of_origin List.filter al_origin]. rewrite bool_decide_eq_true_2 by done.
  unfold mirror_links. cbn [mapM_js al_sourceUrl al_filename]. unfold resolveGitLabUploadUrl. rewrite Hrel.
  unfold mirrorGitlabUploadToHuly. reflexivity.
Qed.
End Hosts.

(** ** Closed instances *)

Lemma attachment_round_trip_witness :
  exists url h', huly_store_upload (C := toy_cipher) (fun h => (Ok 5%Z, h)) None "notes.md" "bytes" ([] : list HulyDoc) = (Ok url, h') /\
    exists h'', huly_store_download (C := toy_cipher) url h' = (Ok "bytes", h'') /\ docs h'' = docs h'.
Proof.
  do 2 eexists. split; [reflexivity|].
  apply (attachment_round_trip (C := toy_cipher) (fun h => (Ok 5%Z, h)) None "notes.md" "bytes" ([] : list HulyDoc)).
  - exact memory_up.
  - reflexivity.
Defined.

Definition sent (t : string) : M (MirrorState list (list string)) string := fun s =>
  (Ok t, MkMirrorState (mi_col s) (mi_ids s) (mi_clock s) (mi_world s ++ [t])).

(** A second workspace is given the first one's reference. *)
Lemma mirror_once_witness :
  let s1 := (mirror_bytes OriginGitlab "https://a/uploads/1/x" "bytes" (sent "attachments://ws-a") (MkMirrorState [] 0 0 [])).2 in
  mi_world s1 = ["attachments://ws-a"] /\
  mirror_bytes OriginGitlab "https://b/uploads/2/y" "bytes" (sent "attachments://ws-b") s1 =
  (Ok (Some "attachments://ws-a"), s1).
Proof.
  cbv zeta. split; [reflexivity|].
  apply (mirror_once OriginGitlab "https://a/uploads/1/x" "bytes" (sent "attachments://ws-a") (MkMirrorState [] 0 0 [])
    "attachments://ws-a"
    (mirror_bytes OriginGitlab "https://a/uploads/1/x" "bytes" (sent "attachments://ws-a") (MkMirrorState [] 0 0 [])).2).
  - done.
  - by intros d ?%elem_of_nil.
  - reflexivity.
  - reflexivity.
Defined.

Lemma upload_host_unchecked_witness :
  cl_world (mi_world (mirrorBodyGitlabToHuly (gitlab_mirror (MkGitLabClient "https://gitlab.com" "instance-token"))
    "[plan](https://gitlab.com.example.net/uploads/a1b2/plan.pdf)" "https://gitlab.com" "group/project"
    (MkMirrorState [] 0 0 (MkClientState [] 0 None [] [] []))).2) =
  [MkHttpRequest "GET" "https://gitlab.com.example.net/uploads/a1b2/plan.pdf" [] [("PRIVATE-TOKEN", "instance-token")] None].
Proof.
  apply (upload_host_unchecked (MkGitLabClient "https://gitlab.com" "instance-token") "https://gitlab.com"
    ".example.net/uploads/a1b2/plan.pdf" "plan" "group/project" (MkMirrorState [] 0 0 (MkClientState [] 0 None [] [] []))).
  - reflexivity.
  - reflexivity.
  - split; [done|]. repeat constructor; done.
  - reflexivity.
  - reflexivity.
  - reflexivity.
  - repeat constructor; done.
Defined.
