(* ===== verification/Auth.v ===== *)
(** * The state of the OAuth flows

    The collection oauth_state (src/state/oauth-state.ts, with the wider rows
    of src/http/user-oauth.ts), the credentials and the network, and the
    configuration the flows are made with.  A request with a form body has
    the form's fields as its body and says so in its Content-Type. *)

From S2P Require Import Prelude JsMap JsString JsVal Platform Conflict Mongo Credentials Sync.
From S2P Require Import GitLabClient Cookies BaseUrl.
Open Scope nat_scope.
Open Scope string_scope.
Open Scope list_scope.

(** A row of either flow: [kind] is ['user'] for the rows of a user, absent
    for those of an administrator. *)
Record OAuthStateDoc := MkOAuthStateDoc {
  os_id : string;
  os_kind : option string;
  os_state : string;
  os_statePayload : string;
  os_nonce : string;
  os_codeVerifier : string;
  os_workspaceUuid : string;
  os_hulyProjectRef : string;
  os_hulyPersonUuid : string;
  os_gitlabBaseUrl : string;
  os_returnTo : option string;
  os_expiresAt : Z
}.

(** Unique: the id and the state. *)
#[export] Instance OAuthStateDoc_document : Document OAuthStateDoc.
Proof.
  refine {| conflicts := fun d d' => bool_decide (os_id d = os_id d') || bool_decide (os_state d = os_state d') |}.
  intros d d'. f_equal; apply bool_decide_ext; split; congruence.
Defined.

Record AuthConfig := MkAuthConfig {
  ac_encryptionKey : string;
  ac_gitLabClientId : string;
  ac_gitLabClientSecret : string;
  ac_oauthRedirectUri : string;
  ac_gitLabBaseUrl : string;
  ac_publicBaseUrl : string;
  ac_allowedHosts : option string;
  ac_secrets : SecretConfig
}.

Record AuthState (Coll : Type -> Type) (W : Type) := MkAuthState {
  au_states : Coll OAuthStateDoc;
  au_creds : Creds Coll;
  au_world : W
}.
Arguments MkAuthState {Coll W}.
Arguments au_states {Coll W}.
Arguments au_creds {Coll W}.
Arguments au_world {Coll W}.

Section Auth.
Context {Coll : Type -> Type} `{Mongo Coll} {P : Platform} {C : Cipher} {W : Type} `{Http W}.
Abbreviation MA := (M (AuthState Coll W)).

Definition on_creds {A} : M (Creds Coll) A -> MA A :=
  zoom au_creds (fun t s => MkAuthState (au_states s) t (au_world s)).
Definition on_world {A} : M W A -> MA A := zoom au_world (fun t s => MkAuthState (au_states s) (au_creds s) t).
Definition set_states (c : Coll OAuthStateDoc) (s : AuthState Coll W) : AuthState Coll W :=
  MkAuthState c (au_creds s) (au_world s).

(** [response.ok] *)
Definition response_ok (r : HttpResponse) : bool := ((200 <=? hp_status r) && (hp_status r <? 300))%Z.

(** [fetch] then [response.json()]; [None] when either throws. *)
Definition fetch_json (req : HttpRequest) : MA (option (HttpResponse * jsval)) :=
  try_catch (let! r := on_world (fetch req) in let! j := lift_res (hp_json r) in ret (Some (r, j)))
            (fun _ => ret None).

(** A POST of a form to the token endpoint. *)
Definition token_request (gitlabBaseUrl : string) (form : jsmap string string) : HttpRequest :=
  MkHttpRequest "POST" (gitlabBaseUrl +:+ "/oauth/token") []
    [("Content-Type", "application/x-www-form-urlencoded")]
    (Some (map (fun e => (e.1, VStr e.2)) form)).

(** [typeof tokenData.expires_in === 'number' ? tokenData.expires_in : 7200] *)
Definition expires_in (v : jsval) : Z := match v with VNum n => n | _ => 7200 end.

(** [typeof v === 'string' ? v : undefined] *)
Definition string_or_undefined (v : jsval) : option string := match v with VStr s => Some s | _ => None end.
End Auth.
