(* ===== verification/TokenRefresh.v ===== *)
(** * Refreshing OAuth tokens (src/auth/refresh.ts)

    Every half hour the refresher goes through the service's and the users'
    OAuth credentials that expire within five minutes and exchanges their
    refresh tokens for new tokens.  A loop over documents is a fold whose body
    is a definition; logging is not modelled. *)

From S2P Require Import Prelude JsMap JsString Conflict JsVal Platform Mongo Credentials Sync Json RateLimit BaseUrl.
From S2P Require Import GitLabMaps GitLabClient GitLabClientProofs Cookies Auth.
Open Scope nat_scope.
Open Scope string_scope.
Open Scope list_scope.

Definition FIVE_MINUTES_MS : Z := 5 * 60 * 1000.
Definition DEFAULT_INTERVAL_MS : Z := 30 * 60 * 1000.

(** The texts looked for, which contain quotes. *)
Definition quoted (q : Ascii.ascii) (s : string) : string := String q (s +:+ String q "").
Definition invalid_grant (q : Ascii.ascii) : string := quoted q "error" +:+ ":" +:+ quoted q "invalid_grant".
Definition squote : Ascii.ascii := chr 39.

Section Refresh.
Context {Coll : Type -> Type} `{Mongo Coll} {P : Platform} {C : Cipher} {U : NodeUrl} {W : Type} `{Http W}.
Abbreviation MA := (M (AuthState Coll W)).

Definition isPermanentRefreshError (status : Z) (body : jsval) : res bool :=
  if (status =? 401)%Z then Ok true
  else if (status =? 400)%Z then
    match (match body with VStr s => Some s | _ => JSON_stringify body end) with
    | Some bodyStr => Ok (includes (invalid_grant dquote) bodyStr || includes (invalid_grant squote) bodyStr)
    | None => Throw (JsError "TypeError")
    end
  else Ok false.

Context (config : AuthConfig).

(** ** One credential *)

(** The refresh token of a document, or [None] when it does not decrypt. *)
Definition open_refresh_token (enc : Encrypted) : MA (option string) :=
  try_catch (let! t := on_creds (decryptValue enc (ac_encryptionKey config)) in ret (Some t)) (fun _ => ret None).

Definition refresh_request (gitlabBaseUrl refreshToken : string) : HttpRequest :=
  token_request gitlabBaseUrl
    [("grant_type", "refresh_token"); ("refresh_token", refreshToken);
     ("client_id", ac_gitLabClientId config); ("client_secret", ac_gitLabClientSecret config);
     ("redirect_uri", ac_oauthRedirectUri config)].

(** The part the two loops share: what marks the document expired, and what
    stores the new tokens - access, refresh and end - differ. *)
Definition exchange (gitlabBaseUrl refreshToken : string) (mark_expired : MA unit)
    (rotate : string -> option string -> Z -> MA unit) : MA unit :=
  let! answer := fetch_json (refresh_request gitlabBaseUrl refreshToken) in
  match answer with
  | None => ret tt
  | Some (response, tokenData) =>
      if negb (response_ok response) then
        let! permanent := lift_res (isPermanentRefreshError (hp_status response) tokenData) in
        if (permanent : bool) then mark_expired else ret tt
      else
        let! newAccessToken := get_prop tokenData "access_token" in
        let! newRefreshToken := get_prop tokenData "refresh_token" in
        let! expiresIn := get_prop tokenData "expires_in" in
        match newAccessToken with
        | VStr accessToken =>
            let! now := on_creds cred_now in
            rotate accessToken (string_or_undefined newRefreshToken) (now + expires_in expiresIn * 1000)%Z
        | _ => mark_expired
        end
  end.

(** The checks before the exchange. *)
Definition refresh_one (gitlabBaseUrl : option string) (refresh : option Encrypted) (mark_expired : MA unit)
    (rotate : string -> string -> option string -> Z -> MA unit) : MA unit :=
  match gitlabBaseUrl with
  | None | Some "" => ret tt
  | Some base =>
      match validateGitLabBaseUrl (ac_allowedHosts config) base with
      | Throw _ => mark_expired
      | Ok _ =>
          match refresh with
          | None => ret tt
          | Some enc =>
              let! refreshToken := open_refresh_token enc in
              match refreshToken with
              | None => mark_expired
              | Some t => exchange base t mark_expired (rotate base)
              end
          end
      end
  end.

(** ** The service's credentials *)

Definition expire_credential (d : CredentialDoc) : CredentialDoc :=
  MkCredentialDoc (cd_id d) (cd_kind d) (cd_secret d) (cd_createdAt d) (cd_expiresAt d) (cd_refresh d)
    (cd_gitlabBaseUrl d) (cd_workspaceUuid d) true.

Definition markExpired (id : string) : MA unit :=
  on_creds (cred_object_id id (fun oid s =>
    dup_key_or (updateOne (fun d => bool_decide (cd_id d = oid)) expire_credential (credentials s))
      (fun c => modify (set_credentials c)) s)).

(** [expiresAt: { $lt: threshold }] *)
Definition before (threshold : Z) (t : option jsdate) : bool :=
  match t with Some (Some t) => (t <? threshold)%Z | _ => false end.

Definition due (threshold : Z) (d : CredentialDoc) : bool :=
  match cd_kind d with CkOauth => before threshold (cd_expiresAt d) && negb (cd_expired d) | _ => false end.

Definition refresh_credential (doc : CredentialDoc) : MA unit :=
  refresh_one (cd_gitlabBaseUrl doc) (cd_refresh doc) (markExpired (cd_id doc))
    (fun _ accessToken refreshToken expiresAt =>
       on_creds (rotateCredential (ac_encryptionKey config) (cd_id doc)
         (MkRotateCredentialInput accessToken refreshToken (Some (Some expiresAt))))).

Definition refreshAdminCredentials : MA unit :=
  let! now := on_creds cred_now in
  let! docs := gets (fun s => find_docs (due (now + FIVE_MINUTES_MS)) (credentials (au_creds s))) in
  forM_ docs refresh_credential.

(** ** The users' credentials *)

Definition expire_user (d : UserCredentialDoc) : UserCredentialDoc :=
  MkUserCredentialDoc (uc_id d) (uc_workspaceUuid d) (uc_hulyPersonUuid d) (uc_gitlabBaseUrl d) (uc_username d)
    (uc_secret d) (uc_expiresAt d) (uc_refresh d) (uc_createdAt d) true.

Definition markUserExpired (id : string) : MA unit :=
  on_creds (cred_object_id id (fun oid s =>
    dup_key_or (updateOne (fun d => bool_decide (uc_id d = oid)) expire_user (userCredentials s))
      (fun c => modify (set_userCredentials c)) s)).

Definition user_due (threshold : Z) (d : UserCredentialDoc) : bool :=
  before threshold (uc_expiresAt d) && negb (uc_expired d).

Definition refresh_user (doc : UserCredentialDoc) : MA unit :=
  refresh_one (Some (uc_gitlabBaseUrl doc)) (uc_refresh doc) (markUserExpired (uc_id doc))
    (fun base accessToken refreshToken expiresAt =>
       on_creds (rotateUserCredential (ac_encryptionKey config) (uc_workspaceUuid doc) (uc_hulyPersonUuid doc) base
         (MkRotateUserCredentialInput accessToken refreshToken (Some (Some (Some expiresAt)))))).

Definition refreshUserCredentials : MA unit :=
  let! now := on_creds cred_now in
  let! docs := gets (fun s => find_docs (user_due (now + FIVE_MINUTES_MS)) (userCredentials (au_creds s))) in
  forM_ docs refresh_user.

Definition refresh : MA unit := refreshAdminCredentials ;;! refreshUserCredentials.
End Refresh.

(** ** The timer: [start] sets it unless it is set, with its interval *)

Definition refresher_start (intervalMs : option Z) (timer : option Z) : option Z :=
  match timer with Some t => Some t | None => Some (default DEFAULT_INTERVAL_MS intervalMs) end.
Definition refresher_stop (timer : option Z) : option Z := None.

(** * What the token refresher does

    Each credential it takes up ends rotated, marked or untouched, by GitLab's
    answer; a token that ends between two runs of the timer, more than five
    minutes after the first, is not taken up before it has ended; and a user
    who signs in again after a refusal is never refreshed again. *)

Section Stored.
Context {Coll : Type -> Type} `{HL : MongoLaws Coll} {P : Platform} {C : Cipher}.
Implicit Types s : Creds Coll.

Definition cred_by_id (id : string) (d : CredentialDoc) : bool := bool_decide (cd_id d = id).

(** The collection holds [d], under an id the driver accepts. *)
Definition stored_cred s (d : CredentialDoc) : Prop :=
  index_ok (scan (credentials s)) /\ findOne (cred_by_id (cd_id d)) (credentials s) = Some d /\
  newObjectId (cd_id d) = Some (cd_id d).

(** Rewriting it, keeping its id, succeeds and changes only it. *)
Lemma rewrite_cred f s d :
  stored_cred s d -> cd_id (f d) = cd_id d ->
  exists c', updateOne (cred_by_id (cd_id d)) f (credentials s) = Some c' /\
    findOne (cred_by_id (cd_id d)) c' = Some (f d) /\
    forall id, id <> cd_id d -> findOne (cred_by_id id) c' = findOne (cred_by_id id) (credentials s).
Proof.
  intros (Hok & Hf & _) Hi.
  destruct (updateOne_rewrites (cred_by_id (cd_id d)) f d (credentials s)) as (c' & l1 & l2 & E & E1 & E2 & _);
    [|done..|].
  { intros x. cbn. by rewrite Hi. }
  exists c'. split; [done|]. split.
  - apply (updateOne_find_self _ _ _ _ _ E Hf). unfold cred_by_id. rewrite Hi. by apply bool_decide_eq_true_2.
  - intros id Hne. eapply findOne_rewritten; [exact E1|exact E2|..]; unfold cred_by_id; rewrite ?Hi;
      by apply bool_decide_eq_false_2.
Qed.

Lemma getCredential_state key id s : (getCredential key id s).2 = s.
Proof.
  unfold getCredential, cred_object_id. destruct (newObjectId id); [|done]. unfold bind at 1, gets.
  destruct (findOne _ _) as [d|]; [|done]. unfold bind, decryptValue.
  destruct (gcm_decrypt _ _ _ _); [|done]. cbn. destruct (cd_refresh d); [|done]. by destruct (gcm_decrypt _ _ _ _).
Qed.

Lemma rotate_succeeds key input s d :
  stored_cred s d -> exists s', rotateCredential key (cd_id d) input s = (Ok tt, s').
Proof.
  intros Hst. unfold rotateCredential.
  destruct (encryptValue_spec (ri_plaintext input) key s) as (e & s1 & E1 & _ & Hc1 & _).
  rewrite (bind_ok _ _ _ _ _ E1).
  destruct (encryptOption_spec (ri_refreshTokenPlaintext input) key s1) as (er & s2 & E2 & _ & Hc2 & _).
  rewrite (bind_ok _ _ _ _ _ E2). pose proof Hst as (_ & _ & Hid). unfold cred_object_id. rewrite Hid.
  destruct (rewrite_cred (apply_rotation e er (ri_expiresAt input)) s d Hst eq_refl) as (c' & E & _).
  rewrite Hc2, Hc1. unfold dup_key_or. change (fun d0 => bool_decide (cd_id d0 = cd_id d)) with (cred_by_id (cd_id d)).
  rewrite E. by eexists.
Qed.
End Stored.

Section Refresh.
Context {Coll : Type -> Type} `{HL : MongoLaws Coll} {P : Platform} {C : Cipher} {U : NodeUrl} {W : Type} `{Http W}.
Context (config : AuthConfig).
Implicit Types (s : AuthState Coll W).
Abbreviation key := (ac_encryptionKey config).

Lemma on_creds_run {A} (m : M (Creds Coll) A) s r t :
  m (au_creds s) = (r, t) -> on_creds m s = (r, MkAuthState (au_states s) t (au_world s)).
Proof. intros E. unfold on_creds, zoom. by rewrite E. Qed.

Lemma fetch_json_ok req s reply j w :
  fetch req (au_world s) = (Ok reply, w) -> hp_json reply = Ok j ->
  fetch_json req s = (Ok (Some (reply, j)), MkAuthState (au_states s) (au_creds s) w).
Proof.
  intros E Ej. unfold fetch_json, try_catch, on_world, zoom, bind at 1. rewrite E.
  unfold bind, lift_res. by rewrite Ej.
Qed.

(** A credential that reads as [r], with a refresh token, at an accepted
    address: what is taken up. *)
Record refreshable (d : CredentialDoc) (base rt : string) (r : CredentialResult) s : Prop := {
  rf_stored : stored_cred (au_creds s) d;
  rf_reads : getCredential key (cd_id d) (au_creds s) = (Ok (Some r), au_creds s);
  rf_refresh : cr_refreshTokenPlaintext r = Some rt;
  rf_base : cd_gitlabBaseUrl d = Some base;
  rf_nonempty : base <> "";
  rf_url : exists url, validateGitLabBaseUrl (ac_allowedHosts config) base = Ok url
}.

Lemma refresh_credential_exchange d base rt r s :
  refreshable d base rt r s ->
  refresh_credential config d s =
  exchange config base rt (markExpired (cd_id d))
    (fun a n e => on_creds (rotateCredential key (cd_id d) (MkRotateCredentialInput a n (Some (Some e))))) s.
Proof.
  intros [Hst Hr Hrt Hb Hne [url Hu]]. unfold refresh_credential, refresh_one. rewrite Hb, Hu.
  pose proof Hst as (_ & Hf & Hid). destruct (getCredential_found _ _ _ _ Hid Hr) as (d' & Hd' & _ & _ & Hopen).
  unfold cred_by_id in Hf. rewrite Hf in Hd'. injection Hd' as <-. rewrite Hrt in Hopen.
  destruct (cd_refresh d) as [enc|]; [|done]. destruct base as [|a b]; [done|].
  assert (open_refresh_token (W := W) config enc s = (Ok (Some rt), s)) as E.
  { unfold open_refresh_token, try_catch.
    rewrite (bind_ok _ _ s rt s); [done|]. rewrite (on_creds_run _ _ _ _ (Hopen (au_creds s))). by destruct s. }
  by rewrite (bind_ok _ _ _ _ _ E).
Qed.

Lemma mark_expired_run d s :
  stored_cred (au_creds s) d ->
  exists s', markExpired (cd_id d) s = (Ok tt, s') /\ au_world s' = au_world s /\ au_states s' = au_states s /\
    findOne (cred_by_id (cd_id d)) (credentials (au_creds s')) = Some (expire_credential d) /\
    forall id, id <> cd_id d ->
      findOne (cred_by_id id) (credentials (au_creds s')) = findOne (cred_by_id id) (credentials (au_creds s)).
Proof.
  intros Hst. destruct (rewrite_cred expire_credential (au_creds s) d Hst eq_refl) as (c' & E & Hf & Ho).
  pose proof Hst as (_ & _ & Hid). exists (MkAuthState (au_states s) (set_credentials c' (au_creds s)) (au_world s)).
  split_and!; [|done..|exact Hf|exact Ho].
  unfold markExpired. apply on_creds_run. unfold cred_object_id. rewrite Hid.
  change (fun d0 => bool_decide (cd_id d0 = cd_id d)) with (cred_by_id (cd_id d)). by rewrite E.
Qed.

(** C29: What happens to a service credential that is taken up is decided by
    GitLab's answer to the exchange of its refresh token: new tokens are
    stored - the credential reads as the new access token until the end
    GitLab gives, with the new refresh token if there is one and the old one
    otherwise; an answer 401, a refused grant or a success without a token
    mark it, and it is never due again; and every other refusal leaves it for
    the next run. *)
Theorem refresh_outcome d base rt r reply data w s :
  refreshable d base rt r s ->
  fetch (refresh_request config base rt) (au_world s) = (Ok reply, w) -> hp_json reply = Ok (VObj data) ->
  let now := clock (cred_clock (au_creds s)) in
  (forall accessToken, response_ok reply = true -> prop_of data "access_token" = VStr accessToken ->
   exists s', refresh_credential config d s = (Ok tt, s') /\ au_world s' = w /\
     getCredential key (cd_id d) (au_creds s') =
     (Ok (Some (MkCredentialResult accessToken (cr_kind r)
                  (Some (Some (now + expires_in (prop_of data "expires_in") * 1000)%Z))
                  (Some (default rt (string_or_undefined (prop_of data "refresh_token")))))), au_creds s')) /\
  (response_ok reply = false /\ isPermanentRefreshError (hp_status reply) (VObj data) = Ok true \/
   response_ok reply = true /\ string_or_undefined (prop_of data "access_token") = None ->
   exists s', refresh_credential config d s = (Ok tt, s') /\ au_world s' = w /\
     findOne (cred_by_id (cd_id d)) (credentials (au_creds s')) = Some (expire_credential d) /\
     forall threshold, due threshold (expire_credential d) = false) /\
  (response_ok reply = false -> isPermanentRefreshError (hp_status reply) (VObj data) = Ok false ->
   refresh_credential config d s = (Ok tt, MkAuthState (au_states s) (au_creds s) w)).
Proof.
  intros Hrf Ef Ej now. rewrite (refresh_credential_exchange _ _ _ _ _ Hrf).
  pose proof Hrf as [Hst Hr Hrt _ _ _]. set (s1 := MkAuthState (au_states s) (au_creds s) w).
  unfold exchange. rewrite (bind_ok _ _ _ _ _ (fetch_json_ok _ _ _ _ _ Ef Ej)). fold s1. split_and!.
  - intros accessToken -> Ha. cbn [negb]. unfold get_prop. cbn [js_get]. unfold bind at 1 2 3, ret. cbv beta iota.
    change (default VUndef (jget "access_token" data)) with (prop_of data "access_token"). rewrite Ha.
    set (c1 := MkCreds (credentials (au_creds s)) (userCredentials (au_creds s)) (ivs (au_creds s))
                 (cred_ids (au_creds s)) (S (cred_clock (au_creds s)))).
    rewrite (bind_ok _ _ _ _ _ (on_creds_run cred_now s1 (Ok now) c1 eq_refl)).
    set (input := MkRotateCredentialInput _ _ _).
    destruct (rotate_succeeds key input c1 d Hst) as [c2 E2].
    exists (MkAuthState (au_states s1) c2 (au_world s1)).
    split; [apply (on_creds_run _ (MkAuthState (au_states s1) c1 (au_world s1)) _ _ E2)|]. split; [done|]. cbn [au_creds].
    rewrite (rotate_get_credential key (cd_id d) input c1 c2 r (proj2 (proj2 Hst))); [|..|exact E2].
    + cbn [input ri_expiresAt ri_plaintext ri_refreshTokenPlaintext]. rewrite Hrt.
      change (default VUndef (jget "refresh_token" data)) with (prop_of data "refresh_token").
      by destruct (string_or_undefined (prop_of data "refresh_token")).
    + pose proof (getCredential_cong key (cd_id d) c1 (au_creds s) (fun _ _ => eq_refl)) as E.
      rewrite Hr in E. destruct (getCredential key (cd_id d) c1) as [o c] eqn:Eg. cbn in E. subst o. f_equal.
      pose proof (getCredential_state key (cd_id d) c1) as Es. by rewrite Eg in Es.
  - intros Hc. destruct (mark_expired_run d s1 Hst) as (s' & E & Ew & _ & Hf & _). exists s'.
    split; [|split; [done|split; [done|intros t; unfold due; cbn; by destruct (cd_kind d); rewrite ?andb_false_r]]].
    destruct Hc as [[-> Hp]|[-> Ha]]; cbn [negb].
    + unfold lift_res. unfold bind. by rewrite Hp, E.
    + unfold get_prop. cbn [js_get]. unfold bind at 1 2 3, ret. cbv beta iota.
      change (default VUndef (jget "access_token" data)) with (prop_of data "access_token").
      by destruct (prop_of data "access_token").
  - intros -> Hp. cbn [negb]. unfold lift_res, bind. by rewrite Hp.
Qed.
End Refresh.

(** ** What a run leaves alone *)

Section Untouched.
Context {Coll : Type -> Type} `{HL : MongoLaws Coll} {P : Platform} {C : Cipher} {U : NodeUrl} {W : Type} `{Http W}.
Context (config : AuthConfig).
Implicit Types (s : AuthState Coll W).

Lemma preserves_forM_in {A S} (I : S -> Prop) (l : list A) (f : A -> M S unit) :
  (forall x, x ∈ l -> preserves I (f x)) -> preserves I (forM_ l f).
Proof.
  induction l as [|x l IH]; intros Hf; cbn [forM_]; [apply preserves_ret|].
  apply preserves_bind; [apply Hf; left|]. intros _. apply IH. intros y Hy. apply Hf. by right.
Qed.

Definition kept_cred (d : CredentialDoc) (c : Creds Coll) : Prop :=
  findOne (cred_by_id (cd_id d)) (credentials c) = Some d.
Definition kept d s : Prop := kept_cred d (au_creds s).

Lemma on_creds_kept d {A} (m : M (Creds Coll) A) : preserves (kept_cred d) m -> preserves (kept d) (on_creds m).
Proof. intros Hm s Hs. specialize (Hm _ Hs). unfold on_creds, zoom. by destruct (m (au_creds s)). Qed.

Lemma on_world_kept d {A} (m : M W A) : preserves (kept d) (on_world m).
Proof. intros s Hs. unfold on_world, zoom. by destruct (m (au_world s)). Qed.

Lemma fetch_json_kept d req : preserves (kept d) (fetch_json req).
Proof.
  apply preserves_try_catch; [|intros; apply preserves_ret]. apply preserves_bind; [apply on_world_kept|].
  intros r. apply preserves_bind; [intros s Hs; unfold lift_res; by destruct (hp_json r)|]. intros; apply preserves_ret.
Qed.

Lemma update_kept d id f :
  id <> cd_id d -> (forall x, cd_id (f x) = cd_id x) ->
  preserves (kept_cred d) (fun cs => dup_key_or (updateOne (cred_by_id id) f (credentials cs))
    (fun c => modify (set_credentials c)) cs).
Proof.
  intros Hne Hf s Hs. unfold dup_key_or. destruct (updateOne _ _ _) as [c|] eqn:E; [|done].
  unfold kept_cred. cbn. rewrite (updateOne_find_other _ _ _ _ _ E); [done|].
  intros x Hx%bool_decide_eq_true. unfold cred_by_id. rewrite Hf. split; apply bool_decide_eq_false_2; congruence.
Qed.

Lemma decrypt_kept d e key : preserves (kept_cred d) (decryptValue e key).
Proof. intros s Hs. unfold decryptValue. by destruct (gcm_decrypt _ _ _ _). Qed.

Lemma encryptOption_kept d p key : preserves (kept_cred d) (encryptOption p key).
Proof.
  intros s Hs. destruct (encryptOption_spec p key s) as (e & s' & -> & _ & Hc & _). unfold kept_cred. cbn. by rewrite Hc.
Qed.

Lemma rotate_kept d key id input :
  newObjectId id = Some id -> id <> cd_id d -> preserves (kept_cred d) (rotateCredential key id input).
Proof.
  intros Hid Hne. unfold rotateCredential. apply preserves_bind.
  { intros s Hs. destruct (encryptValue_spec (ri_plaintext input) key s) as (e & s' & -> & _ & Hc & _).
    unfold kept_cred. cbn. by rewrite Hc. }
  intros e. apply preserves_bind; [apply encryptOption_kept|]. intros er. unfold cred_object_id. rewrite Hid.
  by apply update_kept.
Qed.

Lemma mark_kept d id :
  newObjectId id = Some id -> id <> cd_id d -> preserves (kept d) (markExpired id : M (AuthState Coll W) unit).
Proof.
  intros Hid Hne. apply on_creds_kept. unfold cred_object_id. rewrite Hid. by apply update_kept.
Qed.

Lemma exchange_kept d base t (m : M (AuthState Coll W) unit) rot :
  preserves (kept d) m -> (forall a n e, preserves (kept d) (rot a n e)) ->
  preserves (kept d) (exchange config base t m rot).
Proof.
  intros Hm Hr. unfold exchange. apply preserves_bind; [apply fetch_json_kept|]. intros [[r v]|]; [|apply preserves_ret].
  assert (forall o, preserves (kept d) (lift_res (A := bool) o)) as Hl by (by intros [] s Hs).
  assert (forall k, preserves (kept d) (get_prop v k)) as Hg.
  { intros k s Hs. unfold get_prop. by destruct (js_get v k). }
  destruct (negb _).
  - apply preserves_bind; [apply Hl|]. intros [|]; [done|apply preserves_ret].
  - do 3 (apply preserves_bind; [apply Hg|intros ?]).
    match goal with |- preserves _ (match ?x with _ => _ end) => destruct x; try done end.
    apply preserves_bind; [apply on_creds_kept; intros c Hc; exact Hc|]. intros now. apply Hr.
Qed.

Lemma refresh_credential_kept d d' :
  newObjectId (cd_id d') = Some (cd_id d') -> cd_id d' <> cd_id d ->
  preserves (kept d) (refresh_credential config d' : M (AuthState Coll W) unit).
Proof.
  intros Hid Hne. pose proof (mark_kept d _ Hid Hne) as Hm. unfold refresh_credential, refresh_one.
  destruct (cd_gitlabBaseUrl d') as [[|a b]|]; [apply preserves_ret| |apply preserves_ret].
  destruct (validateGitLabBaseUrl _ _); [|done]. destruct (cd_refresh d') as [enc|]; [|apply preserves_ret].
  apply preserves_bind.
  - apply preserves_try_catch; [|intros; apply preserves_ret].
    apply preserves_bind; [apply on_creds_kept, decrypt_kept|intros; apply preserves_ret].
  - intros [t|]; [|done]. apply exchange_kept; [done|]. intros token n e. by apply on_creds_kept, rotate_kept.
Qed.

(** A run of the refresher leaves alone, whatever becomes of the other
    credentials, a service credential whose token lasts five minutes more;
    the next run is half an hour away, so a token that ends in the
    twenty-five minutes between is a dead one until then, which is the first
    run that takes it up. *)
Theorem refresh_gap d e s :
  index_ok (scan (credentials (au_creds s))) -> kept d s ->
  (forall x, x ∈ scan (credentials (au_creds s)) -> newObjectId (cd_id x) = Some (cd_id x)) ->
  cd_expiresAt d = Some (Some e) ->
  let now := clock (cred_clock (au_creds s)) in
  (now + FIVE_MINUTES_MS <= e)%Z ->
  kept d (refreshAdminCredentials config s).2 /\
  forall tick, refresher_start None None = Some tick -> (e < now + tick)%Z ->
    cd_kind d = CkOauth -> cd_expired d = false -> due (now + tick + FIVE_MINUTES_MS) d = true.
Proof.
  intros Hok Hd Hids He now Hnow. split.
  - unfold refreshAdminCredentials, bind at 1 2, gets, on_creds at 1, zoom. cbn [cred_now au_creds credentials]. fold now.
    revert Hd. set (docs := find_docs _ _). set (s1 := MkAuthState _ _ _). intros Hd.
    apply (preserves_forM_in (kept d) docs (refresh_credential config)); [|done]. intros x Hx.
    unfold docs in Hx. rewrite find_docs_scan in Hx. apply list_elem_of_In, filter_In in Hx as [Hin Hdue].
    apply list_elem_of_In in Hin. apply refresh_credential_kept; [by apply Hids|]. intros Heq.
    unfold kept, kept_cred in Hd. cbn in Hd. rewrite findOne_scan in Hd. apply js_find_Some in Hd as [Hind _].
    assert (x = d) as ->.
    { eapply index_ok_unique; [exact Hok|done|done|]. by apply bool_decide_eq_true_2. }
    unfold due in Hdue. rewrite He in Hdue. cbn [before] in Hdue. destruct (cd_kind d); [|done..].
    apply andb_true_iff in Hdue as [Hlt%Z.ltb_lt _]. lia.
  - intros tick [= <-] Hlt Hk Hexp. unfold due. rewrite Hk, He, Hexp. cbn [before negb].
    rewrite andb_true_r. apply Z.ltb_lt. unfold FIVE_MINUTES_MS, DEFAULT_INTERVAL_MS in *. lia.
Qed.
End Untouched.

(** ** Closed instances *)

Definition token_url : string := "https://git.example.org/oauth/token".

Definition auth_config : AuthConfig :=
  MkAuthConfig "key" "app" "app-secret" "https://pod/oauth/callback" "https://git.example.org" "https://pod"
    (Some ".example.org") (MkSecretConfig "new-secret" (Some "old-secret")).

Definition token_doc : CredentialDoc :=
  MkCredentialDoc "oid-0" CkOauth (MkEncrypted "old" "0" "key") 0 (Some (Some 900000%Z))
    (Some (MkEncrypted "refresh-1" "1" "key")) (Some "https://git.example.org") (Some "ws") false.

Definition token_state (status : Z) (body : jsval) : AuthState list Server :=
  MkAuthState [] (MkCreds [token_doc] [] 2 1 0)
    (MkServer [(token_url, if (status =? 200)%Z then Holds body else Fails status)] []).

Definition new_tokens : record := [("access_token", VStr "new"); ("expires_in", VNum 7200)].

Lemma token_refreshable status body :
  refreshable auth_config token_doc "https://git.example.org" "refresh-1"
    (MkCredentialResult "old" CkOauth (Some (Some 900000%Z)) (Some "refresh-1")) (token_state status body).
Proof.
  split; try done; [split_and!; [cbn; split; [by intros d ?%elem_of_nil|done]|done|done]|].
  exists (MkURL "https:" "" "" "git.example.org"). vm_compute. reflexivity.
Qed.

(** Renewed: the old refresh token stays, as GitLab sent none. *)
Lemma refresh_outcome_witness :
  let s := token_state 200 (VObj new_tokens) in
  exists s', refresh_credential (H0 := toy_http) auth_config token_doc s = (Ok tt, s') /\
    au_world s' = au_world s /\
    getCredential "key" "oid-0" (au_creds s') =
    (Ok (Some (MkCredentialResult "new" CkOauth (Some (Some 7200000%Z)) (Some "refresh-1"))), au_creds s').
Proof.
  cbv zeta. destruct (refresh_outcome (H0 := toy_http) auth_config token_doc "https://git.example.org" "refresh-1" _
    (toy_reply 200 None (VObj new_tokens)) new_tokens (au_world (token_state 200 (VObj new_tokens)))
    (token_state 200 (VObj new_tokens)) (token_refreshable 200 (VObj new_tokens))) as [Hok _]; [reflexivity..|].
  destruct (Hok "new") as (s' & E & Ew & Eg); [reflexivity..|]. exists s'. split; [exact E|]. split; [exact Ew|exact Eg].
Defined.

(** At time 0 a token that ends at 900 s, a quarter of an hour on, is left. *)
Lemma refresh_gap_witness :
  kept token_doc (refreshAdminCredentials (H0 := toy_http) auth_config (token_state 200 VNull)).2 /\
  due (DEFAULT_INTERVAL_MS + FIVE_MINUTES_MS) token_doc = true.
Proof.
  destruct (refresh_gap (H0 := toy_http) auth_config token_doc 900000 (token_state 200 VNull)) as [Hk Hd].
  - cbn. split; [by intros d ?%elem_of_nil|done].
  - done.
  - by intros x ->%list_elem_of_singleton.
  - done.
  - vm_compute. discriminate.
  - split; [exact Hk|]. apply (Hd DEFAULT_INTERVAL_MS); [reflexivity|vm_compute; reflexivity|reflexivity..].
Defined.

(** GitLab answers 200 with the JSON value [null]: reading a property of it
    throws, outside every [try], and ends the run before the users' turn. *)
Example null_answer_ends_the_run :
  refresh (H0 := toy_http) auth_config
    (MkAuthState [] (MkCreds [token_doc] [] 2 1 700) (au_world (token_state 200 VNull))) =
  (Throw (JsError "TypeError"), MkAuthState [] (MkCreds [token_doc] [] 2 1 701) (au_world (token_state 200 VNull))).
Proof. vm_compute. reflexivity. Qed.
