(* ===== verification/OAuth.v ===== *)
(** * The OAuth flows (src/http/oauth.ts, src/http/user-oauth.ts,
    src/auth/access-token.ts, src/auth/index.ts)

    An administrator connects GitLab to a workspace, a user of Huly links an
    account: [start] stores a row under an HMAC of its own payload and sends
    the browser to GitLab, [callback] takes the row out again and exchanges
    the code GitLab gave for tokens.  Each callback is split at its first
    [await], the look-up of the row, so that callbacks can be interleaved.
    The random nonce and verifier are arguments; URLs and SHA-256 are the class
    [WebPlatform]; logging and the rate limit are not modelled. *)

From Stdlib Require Import Ascii.
From S2P Require Import Prelude JsMap JsString JsVal Platform Conflict Mongo Credentials Sync Json RateLimit.
From S2P Require Import GitLabClient BindingApi Cookies BaseUrl Auth.
Open Scope nat_scope.
Open Scope string_scope.
Open Scope list_scope.

(** The parts of a URL that are read. *)
Record WebPage := MkWebPage { wp_origin : string; wp_pathname : string; wp_href : string }.

Class WebPlatform := {
  (** [new URL(raw, base)]; [None] when it throws. *)
  page_URL : string -> option string -> option WebPage;
  (** [new URL(raw)] with [searchParams.set] of each pair in turn, as a string *)
  url_with_params : string -> jsmap string string -> option string;
  (** [createHash('sha256').update(s).digest('base64url')] *)
  sha256_base64url : string -> string
}.

Inductive AuthReply :=
  | Json (r : ApiResponse)
  | Redirect (url : string)
  | Html (headers : jsmap string string) (page : string).

Definition reply_status (r : AuthReply) : Z :=
  match r with Json r => ar_status r | Redirect _ => 302 | Html _ _ => 200 end.

Definition failure (status : Z) (error message : string) : AuthReply :=
  Json (MkApiResponse status (VObj [("error", VStr error); ("message", VStr message)])).

(** [typeof v === 'string' && v !== ''] *)
Definition nonempty_string (v : jsval) : option string :=
  match v with VStr "" => None | VStr s => Some s | _ => None end.

Definition STATE_TTL_MS : Z := 10 * 60 * 1000.

(** ** src/http/user-oauth.ts: pure parts *)

Definition buildStatePayload (workspaceUuid hulyPersonUuid nonce : string) (epoch : Z) : string :=
  "user|" +:+ workspaceUuid +:+ "|" +:+ hulyPersonUuid +:+ "|" +:+ nonce +:+ "|" +:+ num_to_string epoch.

Definition RETURN_TO_ALLOWED_PATHS : list string := ["/user/ui"; "/user/ui/"].

Definition path_allowed (pathname : string) : bool :=
  existsb (fun p => bool_decide (pathname = p) || starts_with p pathname) RETURN_TO_ALLOWED_PATHS.

Definition isSafeReturnTo `{WebPlatform} (raw : option string) (publicBaseUrl : string) : option string :=
  match raw with
  | None | Some "" => None
  | Some raw =>
      match page_URL raw (Some publicBaseUrl), page_URL publicBaseUrl None with
      | Some url, Some base =>
          if negb (bool_decide (wp_origin url = wp_origin base)) then None
          else if negb (path_allowed (wp_pathname url)) then None
          else Some (wp_href url)
      | _, _ => None
      end
  end.

(** [raw.replace(/c/g, by)] *)
Fixpoint replace_char (c : ascii) (by_ : string) (s : string) : string :=
  match s with
  | "" => ""
  | String a s => if decide (a = c) then by_ +:+ replace_char c by_ s else String a (replace_char c by_ s)
  end.

Definition escapeHtml (raw : string) : string :=
  replace_char (chr 39) "&#39;"
    (replace_char dquote "&quot;"
      (replace_char ">" "&gt;" (replace_char "<" "&lt;" (replace_char "&" "&amp;" raw)))).

Definition success_page (middle : string) : string :=
  "<!DOCTYPE html><html><head><title>Connected</title></head><body>" +:+
  "<h1>GitLab connected successfully</h1>" +:+ middle +:+ "<p>You can close this window.</p>" +:+ "</body></html>".

Section OAuth.
Context {Coll : Type -> Type} `{Mongo Coll} {P : Platform} {C : Cipher} {U : NodeUrl} {N : NodeCrypto}.
Context {WP : WebPlatform} {W : Type} `{Http W}.
Abbreviation MA := (M (AuthState Coll W)).
Context (config : AuthConfig).
Abbreviation secrets := (ac_secrets config).

(** ** What the handlers share *)

(** The base URL passes, or the request ends with 400. *)
Definition checked_base {A} (gitlabBaseUrl : string) (fail : AuthReply -> A) (k : A) : A :=
  match validateGitLabBaseUrl (ac_allowedHosts config) gitlabBaseUrl with
  | Throw e => fail (Json (MkApiResponse 400 (VObj [("error", VStr "invalid gitlabBaseUrl");
                                                    ("reason", VStr (exn_message e))])))
  | Ok _ => k
  end.

(** [insertOne] in a [try]: whether the row was stored. *)
Definition store_state (doc : OAuthStateDoc) : MA bool := fun s =>
  match insertOne doc (au_states s) with Some c => (Ok true, set_states c s) | None => (Ok false, s) end.

Definition find_state (p : OAuthStateDoc -> bool) : MA (option OAuthStateDoc) := gets (fun s => findOne p (au_states s)).
Definition drop_state (p : OAuthStateDoc -> bool) : MA unit := modify (fun s => set_states (deleteOne p (au_states s)) s).

Definition by_state (state : string) (d : OAuthStateDoc) : bool := bool_decide (os_state d = state).
Definition by_state_id (id : string) (d : OAuthStateDoc) : bool := bool_decide (os_id d = id).

(** The address of GitLab's page, with its parameters in order. *)
Definition authorize_params (redirect_uri state codeVerifier : string) : jsmap string string :=
  [("client_id", ac_gitLabClientId config); ("redirect_uri", redirect_uri); ("response_type", "code");
   ("state", state); ("scope", "api"); ("code_challenge", sha256_base64url codeVerifier);
   ("code_challenge_method", "S256")].

Definition send_to_gitlab (gitlabBaseUrl redirect_uri state codeVerifier : string) : MA AuthReply :=
  match url_with_params (gitlabBaseUrl +:+ "/oauth/authorize") (authorize_params redirect_uri state codeVerifier) with
  | Some url => ret (Redirect url)
  | None => throw (JsError "TypeError")
  end.

(** The exchange of a code: GitLab's data, or the response that ends the request. *)
Definition exchange_code (gitlabBaseUrl : string) (form : jsmap string string) : MA (AuthReply + jsval) :=
  let! answer := fetch_json (token_request gitlabBaseUrl form) in
  match answer with
  | None => ret (inl (failure 400 "token_exchange_failed" "Failed to contact GitLab"))
  | Some (response, tokenData) =>
      if negb (response_ok response)
      then ret (inl (failure 400 "token_exchange_failed" "GitLab rejected the authorization code"))
      else ret (inr tokenData)
  end.

Definition accepts_json (accept : option string) : bool := includes "application/json" (default "" accept).

(** ** The administrator's flow (src/http/oauth.ts) *)

Definition oauth_start (query : record) (nonce codeVerifier : string) : MA AuthReply :=
  match nonempty_string (prop_of query "workspaceUuid"), nonempty_string (prop_of query "hulyProjectRef") with
  | None, _ => ret (failure 400 "invalid_request" "Missing workspaceUuid")
  | _, None => ret (failure 400 "invalid_request" "Missing hulyProjectRef")
  | Some workspaceUuid, Some hulyProjectRef =>
      let rawBaseUrl := default (ac_gitLabBaseUrl config) (nonempty_string (prop_of query "gitlabBaseUrl")) in
      checked_base rawBaseUrl ret (
        let! epoch := on_creds cred_now in
        let statePayload := workspaceUuid +:+ "|" +:+ hulyProjectRef +:+ "|" +:+ nonce +:+ "|" +:+ num_to_string epoch in
        let state := signHmac statePayload secrets in
        let! id := on_creds next_cred_id in
        let! stored := store_state (MkOAuthStateDoc id None state statePayload nonce codeVerifier workspaceUuid
                         hulyProjectRef "" rawBaseUrl None (epoch + STATE_TTL_MS)%Z) in
        if negb stored then ret (failure 500 "server_error" "Failed to initiate OAuth flow")
        else send_to_gitlab rawBaseUrl (ac_oauthRedirectUri config) state codeVerifier)
  end.

(** [{ state, kind: { $ne: 'user' } }] *)
Definition admin_row (state : string) (d : OAuthStateDoc) : bool :=
  by_state state d && negb (bool_decide (os_kind d = Some "user")).

Definition oauth_store (stateDoc : OAuthStateDoc) (code : string) (accept : option string) : MA AuthReply :=
  checked_base (os_gitlabBaseUrl stateDoc) ret (
    let! answer := exchange_code (os_gitlabBaseUrl stateDoc)
      ([("grant_type", "authorization_code"); ("client_id", ac_gitLabClientId config);
        ("client_secret", ac_gitLabClientSecret config); ("code", code);
        ("redirect_uri", ac_oauthRedirectUri config)] ++
       (if bool_decide (os_codeVerifier stateDoc = "") then [] else [("code_verifier", os_codeVerifier stateDoc)])) in
    match answer with
    | inl r => ret r
    | inr tokenData =>
        let! accessToken := get_prop tokenData "access_token" in
        let! refreshToken := get_prop tokenData "refresh_token" in
        let! expiresIn := get_prop tokenData "expires_in" in
        match accessToken with
        | VStr token =>
            let! now := on_creds cred_now in
            let! credentialRef := on_creds (putCredential (ac_encryptionKey config)
              (MkPutCredentialInput CkOauth token (Some (Some (now + expires_in expiresIn * 1000)%Z))
                 (string_or_undefined refreshToken) (Some (os_gitlabBaseUrl stateDoc))
                 (Some (os_workspaceUuid stateDoc)))) in
            ret (if accepts_json accept
                 then Json (MkApiResponse 200 (VObj [("credentialRef", VStr credentialRef);
                        ("workspaceUuid", VStr (os_workspaceUuid stateDoc));
                        ("hulyProjectRef", VStr (os_hulyProjectRef stateDoc))]))
                 else Html [] (success_page ""))
        | _ => ret (failure 400 "token_exchange_failed" "No access token in response")
        end
    end).

(** After the look-up. *)
Definition oauth_resume (state code : string) (accept : option string) (row : option OAuthStateDoc) : MA AuthReply :=
  match row with
  | None => ret (failure 404 "not_found" "Unknown or already-used state")
  | Some stateDoc =>
      match verifyHmac (os_statePayload stateDoc) state secrets with
      | None => drop_state (by_state state) ;;! ret (failure 401 "invalid_state" "State HMAC verification failed")
      | Some _ =>
          let! now := on_creds cred_now in
          if (os_expiresAt stateDoc <? now)%Z then ret (failure 410 "expired" "OAuth state has expired")
          else drop_state (by_state state) ;;! oauth_store stateDoc code accept
      end
  end.

Definition oauth_callback (query : record) (accept : option string) : MA AuthReply :=
  match nonempty_string (prop_of query "state"), nonempty_string (prop_of query "code") with
  | None, _ => ret (failure 400 "invalid_request" "Missing state")
  | _, None => ret (failure 400 "invalid_request" "Missing code")
  | Some state, Some code =>
      let! row := find_state (admin_row state) in oauth_resume state code accept row
  end.

(** ** The user's flow (src/http/user-oauth.ts) *)

(** [requireHulyCookie] before a handler; the clock is read on entry. *)
Definition with_identity (cookieHeader : option string) (k : HulyUserIdentity -> MA AuthReply) : MA AuthReply :=
  let! now := on_creds cred_now in
  match requireHulyCookie now secrets cookieHeader with
  | Throw e => throw e
  | Ok (inl r) => ret (Json r)
  | Ok (inr identity) => k identity
  end.

Definition callback_uri : string := ac_publicBaseUrl config +:+ "/user/oauth/callback".

Definition user_start (cookieHeader : option string) (query : record) (nonce codeVerifier : string) : MA AuthReply :=
  with_identity cookieHeader (fun identity =>
    match nonempty_string (prop_of query "gitlabBaseUrl") with
    | None => ret (failure 400 "invalid_request" "Missing gitlabBaseUrl")
    | Some gitlabBaseUrl =>
        checked_base gitlabBaseUrl ret (
          let safeReturnTo := isSafeReturnTo (string_or_undefined (prop_of query "returnTo")) (ac_publicBaseUrl config) in
          let! epoch := on_creds cred_now in
          let statePayload := buildStatePayload (hu_workspaceUuid identity) (hu_hulyPersonUuid identity) nonce epoch in
          let state := signHmac statePayload secrets in
          let! id := on_creds next_cred_id in
          let! stored := store_state (MkOAuthStateDoc id (Some "user") state statePayload nonce codeVerifier
                           (hu_workspaceUuid identity) "" (hu_hulyPersonUuid identity) gitlabBaseUrl safeReturnTo
                           (epoch + STATE_TTL_MS)%Z) in
          if negb stored then ret (failure 500 "server_error" "Failed to initiate OAuth flow")
          else send_to_gitlab gitlabBaseUrl callback_uri state codeVerifier)
    end).

(** [{ state, kind: 'user' }] *)
Definition user_row (state : string) (d : OAuthStateDoc) : bool :=
  by_state state d && bool_decide (os_kind d = Some "user").

Definition user_request (gitlabBaseUrl accessToken : string) : HttpRequest :=
  MkHttpRequest "GET" (gitlabBaseUrl +:+ "/api/v4/user") [] [("Authorization", "Bearer " +:+ accessToken)] None.

(** The [try] around the look-up of the GitLab user. *)
Definition lookup_username (gitlabBaseUrl accessToken : string) : MA (AuthReply + string) :=
  try_catch
    (let! response := on_world (fetch (user_request gitlabBaseUrl accessToken)) in
     if negb (response_ok response)
     then ret (inl (failure 400 "user_lookup_failed" "Failed to look up GitLab user"))
     else
       let! userData := lift_res (hp_json response) in
       let! username := get_prop userData "username" in
       ret (match nonempty_string username with
            | Some username => inr username
            | None => inl (failure 400 "user_lookup_failed" "GitLab user response missing username")
            end))
    (fun _ => ret (inl (failure 400 "user_lookup_failed" "Failed to contact GitLab"))).

Definition linked_reply (stateDoc : OAuthStateDoc) (username : string) (expiresAt : Z) (accept : option string) : AuthReply :=
  match os_returnTo stateDoc with
  | Some (String a s) => Redirect (String a s)
  | _ =>
      if accepts_json accept
      then Json (MkApiResponse 200 (VObj [("linked", VBool true); ("gitlabBaseUrl", VStr (os_gitlabBaseUrl stateDoc));
             ("username", VStr username); ("expiresAt", VStr (toISOString expiresAt))]))
      else Html [("Content-Security-Policy", "default-src 'none'; style-src 'self' 'unsafe-inline'");
                 ("X-Content-Type-Options", "nosniff")]
             (success_page ("<p>Linked as <strong>" +:+ escapeHtml username +:+ "</strong> on <code>" +:+
                            escapeHtml (os_gitlabBaseUrl stateDoc) +:+ "</code>.</p>"))
  end.

Definition user_store (stateDoc : OAuthStateDoc) (code : string) (accept : option string) : MA AuthReply :=
  let gitlabBaseUrl := os_gitlabBaseUrl stateDoc in
  checked_base gitlabBaseUrl ret (
    let! answer := exchange_code gitlabBaseUrl
      [("grant_type", "authorization_code"); ("client_id", ac_gitLabClientId config);
       ("client_secret", ac_gitLabClientSecret config); ("code", code); ("redirect_uri", callback_uri);
       ("code_verifier", os_codeVerifier stateDoc)] in
    match answer with
    | inl r => ret r
    | inr tokenData =>
        let! accessToken := get_prop tokenData "access_token" in
        let! refreshToken := get_prop tokenData "refresh_token" in
        let! expiresIn := get_prop tokenData "expires_in" in
        match nonempty_string accessToken with
        | None => ret (failure 400 "token_exchange_failed" "No access token in response")
        | Some token =>
            let! user := lookup_username gitlabBaseUrl token in
            match user with
            | inl r => ret r
            | inr username =>
                let! now := on_creds cred_now in
                let expiresAt := (now + expires_in expiresIn * 1000)%Z in
                let! stored := try_catch
                  (on_creds (putUserCredential (ac_encryptionKey config)
                     (MkPutUserCredentialInput (os_workspaceUuid stateDoc) (os_hulyPersonUuid stateDoc) gitlabBaseUrl
                        username token (string_or_undefined refreshToken) (Some (Some expiresAt)))) ;;! ret true)
                  (fun _ => ret false) in
                ret (if (stored : bool) then linked_reply stateDoc username expiresAt accept
                     else failure 500 "server_error" "Failed to persist credential")
            end
        end
    end).

(** After the look-up. *)
Definition user_resume (state code : string) (accept : option string) (row : option OAuthStateDoc) : MA AuthReply :=
  match row with
  | None => ret (failure 404 "not_found" "Unknown or already-used state")
  | Some stateDoc =>
      match verifyHmac (os_statePayload stateDoc) state secrets with
      | None =>
          drop_state (by_state_id (os_id stateDoc)) ;;!
          ret (failure 401 "invalid_state" "State HMAC verification failed")
      | Some _ =>
          let! now := on_creds cred_now in
          drop_state (by_state_id (os_id stateDoc)) ;;!
          if (os_expiresAt stateDoc <? now)%Z then ret (failure 410 "expired" "OAuth state has expired")
          else user_store stateDoc code accept
      end
  end.

Definition user_callback (query : record) (accept : option string) : MA AuthReply :=
  match nonempty_string (prop_of query "state"), nonempty_string (prop_of query "code") with
  | None, _ => ret (failure 401 "invalid_state" "Missing state")
  | _, None => ret (failure 400 "invalid_request" "Missing code")
  | Some state, Some code =>
      let! row := find_state (user_row state) in user_resume state code accept row
  end.

(** [date.toISOString()], a RangeError on an invalid date. *)
Definition iso_or_throw (d : jsdate) : MA jsval :=
  match d with Some t => ret (VStr (toISOString t)) | None => throw (JsError "RangeError") end.

Definition user_status (cookieHeader : option string) (query : record) : MA AuthReply :=
  with_identity cookieHeader (fun identity =>
    match nonempty_string (prop_of query "gitlabBaseUrl") with
    | None => ret (failure 400 "invalid_request" "Missing gitlabBaseUrl")
    | Some gitlabBaseUrl =>
        checked_base gitlabBaseUrl ret (
          let! credential := on_creds (getUserCredential (ac_encryptionKey config) (hu_workspaceUuid identity)
                               (hu_hulyPersonUuid identity) (Some gitlabBaseUrl)) in
          match credential with
          | None => ret (Json (MkApiResponse 200 (VObj [("linked", VBool false); ("gitlabBaseUrl", VStr gitlabBaseUrl)])))
          | Some credential =>
              let! expiresAt := match ut_expiresAt credential with Some d => iso_or_throw d | None => ret VNull end in
              ret (Json (MkApiResponse 200 (VObj [("linked", VBool true);
                     ("gitlabBaseUrl", VStr (ut_gitlabBaseUrl credential));
                     ("username", VStr (ut_username credential)); ("expiresAt", expiresAt)])))
          end)
    end).

Definition user_delete_credential (cookieHeader : option string) (body : record) : MA AuthReply :=
  with_identity cookieHeader (fun identity =>
    match nonempty_string (prop_of body "gitlabBaseUrl") with
    | None => ret (failure 400 "invalid_request" "Missing gitlabBaseUrl")
    | Some gitlabBaseUrl =>
        checked_base gitlabBaseUrl ret (
          let! deleted := on_creds (deleteUserCredential (hu_workspaceUuid identity) (hu_hulyPersonUuid identity)
                            gitlabBaseUrl) in
          ret (Json (MkApiResponse 200 (VObj [("deleted", VBool deleted)]))))
    end).

(** ** Credentials (src/auth/access-token.ts, src/auth/index.ts) *)

Definition put_access_token (authHeader : option string) (body : record) : MA AuthReply :=
  if negb (requireBearer (sc_primary secrets) authHeader) then ret (Json (api_error_json 401 "Unauthorized"))
  else
    match nonempty_string (prop_of body "token"), nonempty_string (prop_of body "gitlabBaseUrl") with
    | None, _ => ret (failure 400 "invalid_request" "Missing token")
    | _, None => ret (failure 400 "invalid_request" "Missing gitlabBaseUrl")
    | Some token, Some gitlabBaseUrl =>
        if negb (bool_decide (prop_of body "scope" = VStr "group")) && negb (bool_decide (prop_of body "scope" = VStr "project"))
        then ret (failure 400 "invalid_request" "scope must be group or project")
        else checked_base gitlabBaseUrl ret (
          let! answer := try_catch
            (let! r := on_world (fetch (MkHttpRequest "GET" (gitlabBaseUrl +:+ "/api/v4/user") []
                         [("PRIVATE-TOKEN", token)] None)) in ret (Some r))
            (fun _ => ret None) in
          match answer with
          | None => ret (failure 502 "upstream_error" "Failed to reach GitLab")
          | Some response =>
              if (hp_status response =? 401)%Z then ret (failure 400 "invalid_token" "GitLab rejected the token")
              else if negb (response_ok response)
              then ret (failure 502 "upstream_error" ("GitLab returned " +:+ num_to_string (hp_status response)))
              else
                let! credentialRef := on_creds (putCredential (ac_encryptionKey config)
                  (MkPutCredentialInput CkAccessToken token None None (Some gitlabBaseUrl) None)) in
                ret (Json (MkApiResponse 201 (VObj [("credentialRef", VStr credentialRef)])))
          end)
    end.

Record CredentialSummary := MkCredentialSummary {
  cs_credentialRef : string;
  cs_kind : CredentialKind;
  cs_createdAt : Z;
  cs_expiresAt : option jsdate;
  cs_workspaceUuid : option string;
  cs_gitlabBaseUrl : option string
}.

Definition summary_of (doc : CredentialDoc) : CredentialSummary :=
  MkCredentialSummary (cd_id doc) (cd_kind doc) (cd_createdAt doc) (cd_expiresAt doc) (cd_workspaceUuid doc)
    (cd_gitlabBaseUrl doc).

Definition resolver_list (workspaceUuid : option string) : MA (list CredentialSummary) :=
  let! docs := gets (fun s => find_docs (fun d =>
    match workspaceUuid with Some w => bool_decide (cd_workspaceUuid d = Some w) | None => true end)
    (credentials (au_creds s))) in
  ret (map summary_of docs).

Definition kind_name (k : CredentialKind) : string :=
  match k with CkOauth => "oauth" | CkAccessToken => "access_token" | CkWebhookSecret => "webhook_secret" end.

Definition summary_json (c : CredentialSummary) : jsval :=
  VObj ([("credentialRef", VStr (cs_credentialRef c)); ("kind", VStr (kind_name (cs_kind c)));
         ("createdAt", VDate (Some (cs_createdAt c)))] ++
        match cs_expiresAt c with Some d => [("expiresAt", VDate d)] | None => [] end ++
        match cs_workspaceUuid c with Some w => [("workspaceUuid", VStr w)] | None => [] end ++
        match cs_gitlabBaseUrl c with Some u => [("gitlabBaseUrl", VStr u)] | None => [] end).

Definition list_credentials (authHeader : option string) (query : record) : MA AuthReply :=
  if negb (requireBearer (sc_primary secrets) authHeader) then ret (Json (api_error_json 401 "Unauthorized"))
  else
    let! summaries := resolver_list (string_or_undefined (prop_of query "workspaceUuid")) in
    ret (Json (MkApiResponse 200 (VArr (map summary_json summaries)))).
End OAuth.
