(* ===== verification/OAuthProofs.v ===== *)
(** * What the OAuth flows guarantee

    The row of a state is used once; a user's callback touches no credential
    but that of the identity in the row the signed state names, which is the
    identity of the cookie that started the flow; the answer's page holds no
    markup of the GitLab user's; and a redirect stays on the service. *)

From Stdlib Require Import Ascii.
From S2P Require Import Prelude JsMap JsString JsVal Platform Conflict Mongo Credentials Sync Json RateLimit.
From S2P Require Import GitLabMaps GitLabClient GitLabClientProofs BindingApi BindingApiProofs.
From S2P Require Import Cookies BaseUrl Auth TokenRefresh OAuth.
Open Scope nat_scope.
Open Scope string_scope.
Open Scope list_scope.

(** ** Steps that leave a part of the state alone *)

Section Frames.
Context {Coll : Type -> Type} `{HL : MongoLaws Coll} {P : Platform} {C : Cipher} {U : NodeUrl} {N : NodeCrypto}.
Context {WP : WebPlatform} {W : Type} `{Http W}.
Context (config : AuthConfig).
Implicit Types (s : AuthState Coll W) (user : bool).

(** The rows are [rows]; the credentials are those of [c]. *)
Definition rows_are (rows : Coll OAuthStateDoc) s : Prop := au_states s = rows.
Definition creds_are (c : Creds Coll) s : Prop :=
  credentials (au_creds s) = credentials c /\ userCredentials (au_creds s) = userCredentials c.

(** Kept by what only asks the network or the clock. *)
Definition part_of_state (I : AuthState Coll W -> Prop) : Prop :=
  (forall s w, I s -> I (MkAuthState (au_states s) (au_creds s) w)) /\
  (forall s n, I s -> I (MkAuthState (au_states s)
     (MkCreds (credentials (au_creds s)) (userCredentials (au_creds s)) (ivs (au_creds s)) (cred_ids (au_creds s)) n)
     (au_world s))).

Lemma rows_part rows : part_of_state (rows_are rows).
Proof. by split_and!. Qed.
Lemma creds_part c : part_of_state (creds_are c).
Proof. by split_and!. Qed.

Lemma on_creds_rows rows {A} (m : M (Creds Coll) A) : preserves (rows_are rows) (on_creds m).
Proof. intros s Hs. unfold on_creds, zoom. by destruct (m (au_creds s)). Qed.

Lemma now_part I : part_of_state I -> preserves I (on_creds cred_now).
Proof. intros (_ & Hn) s Hs. apply (Hn s (S (cred_clock (au_creds s))) Hs). Qed.

Lemma on_world_part I {A} (m : M W A) : part_of_state I -> preserves I (on_world m).
Proof. intros (Hw & _) s Hs. unfold on_world, zoom. destruct (m (au_world s)). by apply Hw. Qed.

Lemma lift_res_keeps I {A} (r : res A) : preserves I (lift_res (S := AuthState Coll W) r).
Proof. intros s Hs. by destruct r. Qed.

Lemma get_prop_keeps I v k : preserves I (get_prop (S := AuthState Coll W) v k).
Proof. intros s Hs. unfold get_prop. by destruct (js_get v k). Qed.

Lemma fetch_json_part I req : part_of_state I -> preserves I (fetch_json req).
Proof.
  intros HI. apply preserves_try_catch; [|intros; apply preserves_ret].
  apply preserves_bind; [by apply on_world_part|]. intros r.
  apply preserves_bind; [apply lift_res_keeps|]. intros; apply preserves_ret.
Qed.

Lemma exchange_code_part I base form : part_of_state I -> preserves I (exchange_code base form).
Proof.
  intros HI. apply preserves_bind; [by apply fetch_json_part|]. intros [[r v]|]; [|apply preserves_ret].
  destruct (negb _); apply preserves_ret.
Qed.

Lemma lookup_username_part I base token : part_of_state I -> preserves I (lookup_username base token).
Proof.
  intros HI. apply preserves_try_catch; [|intros; apply preserves_ret].
  apply preserves_bind; [by apply on_world_part|]. intros r. destruct (negb _); [apply preserves_ret|].
  apply preserves_bind; [apply lift_res_keeps|]. intros v.
  apply preserves_bind; [apply get_prop_keeps|]. intros u. apply preserves_ret.
Qed.

Lemma checked_base_keeps I base (k : M (AuthState Coll W) AuthReply) :
  preserves I k -> preserves I (checked_base config base ret k).
Proof. intros Hk. unfold checked_base. destruct (validateGitLabBaseUrl _ _); [done|apply preserves_ret]. Qed.

(** A body that stores with [put], the one step that may change more. *)
Lemma user_store_keeps I doc code accept :
  part_of_state I ->
  (forall username token refresh e,
     preserves I (on_creds (putUserCredential (ac_encryptionKey config)
       (MkPutUserCredentialInput (os_workspaceUuid doc) (os_hulyPersonUuid doc) (os_gitlabBaseUrl doc)
          username token refresh e)))) ->
  preserves I (user_store config doc code accept : M (AuthState Coll W) AuthReply).
Proof.
  intros HI Hput. apply checked_base_keeps, preserves_bind; [by apply exchange_code_part|].
  intros [r|v]; [apply preserves_ret|]. do 3 (apply preserves_bind; [apply get_prop_keeps|intros ?]).
  destruct (nonempty_string _); [|apply preserves_ret].
  apply preserves_bind; [by apply lookup_username_part|]. intros [r|u]; [apply preserves_ret|].
  apply preserves_bind; [by apply now_part|]. intros now.
  apply preserves_bind; [|intros []; apply preserves_ret].
  apply preserves_try_catch; [|intros; apply preserves_ret].
  apply preserves_bind; [apply Hput|]. intros; apply preserves_ret.
Qed.

Lemma oauth_store_rows rows doc code accept :
  preserves (rows_are rows) (oauth_store config doc code accept : M (AuthState Coll W) AuthReply).
Proof.
  apply checked_base_keeps, preserves_bind; [apply exchange_code_part, rows_part|].
  intros [r|v]; [apply preserves_ret|]. do 3 (apply preserves_bind; [apply get_prop_keeps|intros ?]).
  match goal with |- preserves _ (match ?x with _ => _ end) => destruct x; try apply preserves_ret end.
  apply preserves_bind; [apply on_creds_rows|]. intros now.
  apply preserves_bind; [apply on_creds_rows|]. intros ref. apply preserves_ret.
Qed.
End Frames.

(** ** The row of a state *)

Section Rows.
Context {Coll : Type -> Type} `{HL : MongoLaws Coll} {P : Platform} {C : Cipher} {U : NodeUrl} {N : NodeCrypto}.
Context {WP : WebPlatform} {W : Type} `{Http W}.
Context (config : AuthConfig).
Implicit Types (s : AuthState Coll W) (user : bool).

Definition callback (user : bool) : record -> option string -> M (AuthState Coll W) AuthReply :=
  if user then user_callback config else oauth_callback config.

Definition unknown_state : AuthReply := failure 404 "not_found" "Unknown or already-used state".
Definition expired_state : AuthReply := failure 410 "expired" "OAuth state has expired".

Definition row_of (user : bool) (state : string) : OAuthStateDoc -> bool :=
  if user then user_row state else admin_row state.

Lemma row_of_state user state d : row_of user state d = true -> os_state d = state.
Proof. destruct user; cbn; unfold user_row, admin_row; intros [H1%bool_decide_eq_true _]%andb_true_iff; done. Qed.

(** Which rows a callback takes out, and whether it leaves its own. *)
Definition taken (user : bool) (state : string) (d : OAuthStateDoc) : OAuthStateDoc -> bool :=
  if user then by_state_id (os_id d) else by_state state.

Lemma resume_rows (user : bool) state code accept d s r s' :
  (if user then user_resume config state code accept (Some d) else oauth_resume config state code accept (Some d)) s = (r, s') ->
  r <> Ok expired_state \/ user = true ->
  au_states s' = deleteOne (taken user state d) (au_states s).
Proof.
  assert (forall p (m : M (AuthState Coll W) AuthReply) st, (forall rows, preserves (rows_are rows) m) ->
            au_states ((drop_state p ;;! m) st).2 = deleteOne p (au_states st)) as Hdrop.
  { intros p m st Hm. apply (Hm (deleteOne p (au_states st)) (set_states (deleteOne p (au_states st)) st)). done. }
  intros E Hr. replace s' with ((if user then user_resume config state code accept (Some d)
    else oauth_resume config state code accept (Some d)) s).2 by (by rewrite E).
  destruct user; unfold user_resume, oauth_resume in *.
  - destruct (verifyHmac _ _ _).
    + unfold bind at 1. cbn [on_creds zoom cred_now]. rewrite Hdrop; [done|]. intros rows.
      destruct (_ <? _)%Z; [apply preserves_ret|]. apply user_store_keeps; [apply rows_part|].
      intros. apply on_creds_rows.
    + rewrite Hdrop; [done|]. intros rows. apply preserves_ret.
  - destruct (verifyHmac _ _ _).
    + unfold bind at 1 in E. unfold bind at 1. cbn [on_creds zoom cred_now] in E |- *.
      destruct (_ <? _)%Z.
      * injection E as <- <-. by destruct Hr.
      * rewrite Hdrop; [done|]. intros rows. apply oauth_store_rows.
    + rewrite Hdrop; [done|]. intros rows. apply preserves_ret.
Qed.

Lemma taken_gone user state d c :
  index_ok (scan c) -> findOne (row_of user state) c = Some d ->
  findOne (row_of user state) (deleteOne (taken user state d) c) = None.
Proof.
  intros Hok Hf. assert (findOne (taken user state d) (deleteOne (taken user state d) c) = None) as Hn.
  { apply deleteOne_none; [|done]. intros x y Hx Hy. cbn. apply orb_true_iff.
    destruct user; [left|right]; apply bool_decide_eq_true_2; unfold taken, by_state, by_state_id in Hx, Hy;
      apply bool_decide_eq_true in Hx, Hy; congruence. }
  rewrite findOne_scan in Hf. apply js_find_Some in Hf as [Hd Hrow].
  rewrite findOne_scan, js_find_None in Hn. rewrite findOne_scan, js_find_None. intros x Hx. specialize (Hn x Hx).
  destruct (row_of user state x) eqn:Ex; [|done]. exfalso.
  apply row_of_state in Ex, Hrow. assert (x = d) as ->.
  - eapply index_ok_unique; [exact Hok| |done|].
    + rewrite deleteOne_scan in Hx. eapply elem_of_sublist; [exact Hx|apply remove_first_sublist].
    + cbn. apply orb_true_iff. right. apply bool_decide_eq_true_2. congruence.
  - destruct user; cbn [taken] in Hn; unfold by_state, by_state_id in Hn;
      apply bool_decide_eq_false in Hn; congruence.
Qed.

Lemma callback_found user query accept state code s :
  nonempty_string (prop_of query "state") = Some state -> nonempty_string (prop_of query "code") = Some code ->
  callback user query accept s =
  (if user then user_resume config state code accept (findOne (row_of user state) (au_states s))
   else oauth_resume config state code accept (findOne (row_of user state) (au_states s))) s.
Proof. intros E1 E2. unfold callback, user_callback, oauth_callback. destruct user; by rewrite E1, E2. Qed.

(** C18: A state is used once: after a callback with it has been answered -
    or has thrown - every further callback of the same flow with that state
    is answered 404 and changes nothing (docs/api.md promises 400 of the
    administrator's callback and of the users' one, which it says always
    redirects).  The one exception is an expired state of the
    administrator's flow, which stays and is answered 410 again. *)
Theorem callback_single_use user query accept state code s r s' :
  index_ok (scan (au_states s)) ->
  nonempty_string (prop_of query "state") = Some state -> nonempty_string (prop_of query "code") = Some code ->
  callback user query accept s = (r, s') ->
  r <> Ok expired_state \/ user = true ->
  forall query' accept' code',
    nonempty_string (prop_of query' "state") = Some state -> nonempty_string (prop_of query' "code") = Some code' ->
    callback user query' accept' s' = (Ok unknown_state, s').
Proof.
  intros Hok Hs Hc E Hr query' accept' code' Hs' Hc'. rewrite (callback_found _ _ _ _ _ _ Hs Hc) in E.
  rewrite (callback_found _ _ _ _ _ _ Hs' Hc').
  destruct (findOne (row_of user state) (au_states s)) as [d|] eqn:Ef.
  - rewrite (resume_rows user state code accept d s r s' E Hr), (taken_gone _ _ _ _ Hok Ef). by destruct user.
  - assert (s' = s) as -> by (destruct user; by injection E). rewrite Ef. by destruct user.
Qed.
End Rows.

(** ** Whose credential a callback stores *)

Section Identity.
Context {Coll : Type -> Type} `{HL : MongoLaws Coll} {P : Platform} {C : Cipher} {U : NodeUrl} {N : NodeCrypto}.
Context {WP : WebPlatform} {W : Type} `{Http W}.
Context (config : AuthConfig).
Implicit Types (s : AuthState Coll W) (c : Creds Coll).
Abbreviation key := (ac_encryptionKey config).

(** The users' credentials but that of [d]'s identity, and the service's,
    are those of [c]. *)
Definition others_are (d : OAuthStateDoc) c0 c : Prop :=
  credentials c = credentials c0 /\
  forall w p u, (w, p, u) <> (os_workspaceUuid d, os_hulyPersonUuid d, os_gitlabBaseUrl d) ->
    findOne (by_user w p u) (userCredentials c) = findOne (by_user w p u) (userCredentials c0).

Lemma by_user_key w p u w' p' u' x :
  (w, p, u) <> (w', p', u') -> by_user w' p' u' x = true -> by_user w p u x = false.
Proof.
  intros Hne (Hw & Hp & Hu)%by_user_spec. destruct (by_user w p u x) eqn:E; [|done].
  apply by_user_spec in E as (<- & <- & <-). congruence.
Qed.

Lemma put_others d c0 username token refresh e :
  preserves (others_are d c0) (putUserCredential key
    (MkPutUserCredentialInput (os_workspaceUuid d) (os_hulyPersonUuid d) (os_gitlabBaseUrl d) username token refresh e)).
Proof.
  intros c [Hc Hu]. unfold putUserCredential, bind at 1. cbn [pu_accessToken pu_refreshToken].
  destruct (encryptValue_spec token key c) as (enc & c1 & -> & _ & E1 & E1' & _).
  unfold bind at 1, cred_now. unfold bind at 1. set (c2 := MkCreds _ _ _ _ _).
  destruct (encryptOption_spec refresh key c2) as (er & c3 & -> & _ & E3 & E3' & _).
  unfold bind at 1, next_cred_id. cbn [pu_workspaceUuid pu_hulyPersonUuid pu_gitlabBaseUrl].
  unfold bind at 1, dup_key_or. set (c4 := MkCreds _ _ _ _ _).
  assert (others_are d c0 c4) as H4.
  { unfold c4. split; cbn [credentials userCredentials]; rewrite ?E3, ?E3'; cbn [c2 credentials userCredentials];
      rewrite ?E1, ?E1'; done. }
  destruct (upsertOne _ _ _ _) as [col|] eqn:E; [|exact H4]. cbn [modify].
  assert (others_are d c0 (set_userCredentials col c4)) as H5.
  { destruct H4 as [H4 H4']. split; [exact H4|]. intros w p u Hne. cbn [set_userCredentials userCredentials].
    rewrite (upsertOne_find_other _ _ _ _ _ _ E); [by apply H4'| |].
    - intros x Hx. split; [by eapply by_user_key|]. eapply by_user_key; [exact Hne|exact Hx].
    - eapply by_user_key; [exact Hne|]. by apply by_user_spec. }
  unfold bind, gets. by destruct (findOne _ _).
Qed.

(** C22: A callback of the users' flow changes no service credential, and no
    user's credential unless its state names a row of that flow whose
    payload the state signs and which has not expired; then it changes at
    most the credential of the identity and GitLab instance in that row. *)
Theorem user_callback_scope query accept s r s' :
  user_callback config query accept s = (r, s') ->
  credentials (au_creds s') = credentials (au_creds s) /\
  (userCredentials (au_creds s') = userCredentials (au_creds s) \/
   exists state d kind,
     nonempty_string (prop_of query "state") = Some state /\ findOne (user_row state) (au_states s) = Some d /\
     verifyHmac (os_statePayload d) state (ac_secrets config) = Some kind /\
     (clock (cred_clock (au_creds s)) <= os_expiresAt d)%Z /\
     forall w p u, (w, p, u) <> (os_workspaceUuid d, os_hulyPersonUuid d, os_gitlabBaseUrl d) ->
       findOne (by_user w p u) (userCredentials (au_creds s')) = findOne (by_user w p u) (userCredentials (au_creds s))).
Proof.
  unfold user_callback. destruct (nonempty_string (prop_of query "state")) as [state|] eqn:Es; [|intros [= _ <-]; eauto].
  destruct (nonempty_string (prop_of query "code")) as [code|]; [|intros [= _ <-]; eauto].
  unfold find_state, bind at 1, gets. destruct (findOne (user_row state) (au_states s)) as [d|] eqn:Ef; [|intros [= _ <-]; eauto].
  unfold user_resume. destruct (verifyHmac _ _ _) as [kind|] eqn:Ev; [|intros [= _ <-]; eauto].
  unfold bind at 1. cbn [on_creds zoom cred_now]. unfold bind, drop_state, modify.
  destruct (_ <? _)%Z eqn:Et; [intros [= _ <-]; eauto|]. apply Z.ltb_ge in Et. intros E.
  match type of E with _ ?st = _ => set (s1 := st) in E end.
  pose proof (user_store_keeps config (fun s => others_are d (au_creds s1) (au_creds s)) d code accept) as Hk.
  assert (others_are d (au_creds s1) (au_creds s')) as [Hc Hu].
  { replace s' with (user_store config d code accept s1).2 by (by rewrite E). apply Hk; [by split_and!| |done].
    intros username token refresh e st Hst. unfold on_creds, zoom. specialize (put_others d (au_creds s1) username token refresh e _ Hst).
    by destruct (putUserCredential _ _ (au_creds st)). }
  split; [exact Hc|]. right. exists state, d, kind. split_and!; try done.
Qed.

(** ** The flow from the cookie to the stored token *)

(** The object ids still to come are not taken. *)
Definition ids_fresh c : Prop :=
  forall x n, x ∈ scan (userCredentials c) -> cred_ids c <= n -> uc_id x <> freshObjectId n.

Lemma put_succeeds input c :
  index_ok (scan (userCredentials c)) -> ids_fresh c ->
  exists id c', putUserCredential key input c = (Ok id, c').
Proof.
  intros Hok Hfresh. unfold putUserCredential, bind at 1.
  destruct (encryptValue_spec (pu_accessToken input) key c) as (enc & c1 & -> & _ & _ & E1 & I1 & _).
  unfold bind at 1, cred_now. unfold bind at 1. set (c2 := MkCreds _ _ _ _ _).
  destruct (encryptOption_spec (pu_refreshToken input) key c2) as (er & c3 & -> & _ & _ & E3 & I3 & _).
  unfold bind at 1, next_cred_id. set (p := by_user _ _ _). set (fresh := MkUserCredentialDoc _ _ _ _ _ _ _ _ _ _).
  unfold bind at 1, dup_key_or. cbn [userCredentials]. rewrite E3. cbn [c2 userCredentials]. rewrite E1.
  destruct (upsertOne_succeeds p (apply_user_put input enc er (clock (cred_clock c1))) fresh (userCredentials c))
    as [col ->].
  - done.
  - done.
  - intros Hn x Hx. rewrite findOne_scan, js_find_None in Hn. cbn. apply orb_false_iff. split; [by apply Hn|].
    apply bool_decide_eq_false_2. cbn. rewrite I3. cbn. rewrite I1. intros Heq. by apply (Hfresh x (cred_ids c)).
  - cbn [modify]. unfold bind, gets. destruct (findOne _ _); by do 2 eexists.
Qed.

(** GitLab accepts the form, with a token of some lifetime in seconds, and
    says whose token it is. *)
Definition grants (base : string) (form : jsmap string string) (w : W) (token : string) (lifetime : Z)
    (name : string) (w2 : W) : Prop :=
  exists reply data w1 reply2 udata,
    fetch (token_request base form) w = (Ok reply, w1) /\ response_ok reply = true /\ hp_json reply = Ok (VObj data) /\
    prop_of data "access_token" = VStr token /\ token <> "" /\ lifetime = expires_in (prop_of data "expires_in") /\
    fetch (user_request base token) w1 = (Ok reply2, w2) /\ response_ok reply2 = true /\
    hp_json reply2 = Ok (VObj udata) /\ prop_of udata "username" = VStr name /\ name <> "".

Lemma nonempty_string_str t : t <> "" -> nonempty_string (VStr t) = Some t.
Proof. by destruct t. Qed.

Lemma get_prop_obj r k s : get_prop (VObj r) k s = (Ok (prop_of r k), s).
Proof. done. Qed.

(** The form a user's code is exchanged with. *)
Definition user_form (code verifier : string) : jsmap string string :=
  [("grant_type", "authorization_code"); ("client_id", ac_gitLabClientId config);
   ("client_secret", ac_gitLabClientSecret config); ("code", code); ("redirect_uri", callback_uri config);
   ("code_verifier", verifier)].

Lemma lookup_username_ok base token reply udata name s w :
  fetch (user_request base token) (au_world s) = (Ok reply, w) -> response_ok reply = true ->
  hp_json reply = Ok (VObj udata) -> prop_of udata "username" = VStr name -> name <> "" ->
  lookup_username base token s = (Ok (inr name), MkAuthState (au_states s) (au_creds s) w).
Proof.
  intros Ef Ho Ej Hn Hne. unfold lookup_username, try_catch, bind at 1, on_world, zoom. rewrite Ef, Ho. cbn [negb].
  unfold bind at 1, lift_res. rewrite Ej. rewrite (bind_ok _ _ _ _ _ (get_prop_obj _ _ _)), Hn.
  by rewrite nonempty_string_str.
Qed.

Lemma user_store_runs d code accept s url token lifetime name w2 :
  validateGitLabBaseUrl (ac_allowedHosts config) (os_gitlabBaseUrl d) = Ok url ->
  grants (os_gitlabBaseUrl d) (user_form code (os_codeVerifier d)) (au_world s) token lifetime name w2 ->
  index_ok (scan (userCredentials (au_creds s))) -> ids_fresh (au_creds s) ->
  let e := (clock (cred_clock (au_creds s)) + lifetime * 1000)%Z in
  exists s3, user_store config d code accept s = (Ok (linked_reply d name e accept), s3) /\
    getUserCredential key (os_workspaceUuid d) (os_hulyPersonUuid d) (Some (os_gitlabBaseUrl d)) (au_creds s3) =
      (Ok (Some (MkUserToken token (Some (Some e)) name (os_gitlabBaseUrl d))), au_creds s3).
Proof.
  intros Hv (reply & data & w1 & reply2 & udata & Ef & Ho & Ej & Ht & Hne & -> & Ef2 & Ho2 & Ej2 & Hn & Hne2) Hok Hfresh e.
  unfold user_store, checked_base. rewrite Hv. set (s1 := MkAuthState (au_states s) (au_creds s) w1).
  assert (exchange_code (os_gitlabBaseUrl d) (user_form code (os_codeVerifier d)) s = (Ok (inr (VObj data)), s1)) as Ex.
  { unfold exchange_code. rewrite (bind_ok _ _ _ _ _ (fetch_json_ok _ _ _ _ _ Ef Ej)), Ho. done. }
  rewrite (bind_ok _ _ _ _ _ Ex). rewrite !(bind_ok _ _ _ _ _ (get_prop_obj _ _ _)).
  rewrite Ht, nonempty_string_str by done.
  rewrite (bind_ok _ _ _ _ _ (lookup_username_ok _ _ _ _ _ s1 _ Ef2 Ho2 Ej2 Hn Hne2)).
  set (c1 := MkCreds (credentials (au_creds s)) (userCredentials (au_creds s)) (ivs (au_creds s))
               (cred_ids (au_creds s)) (S (cred_clock (au_creds s)))).
  rewrite (bind_ok _ _ _ _ _ (on_creds_run cred_now (MkAuthState (au_states s) (au_creds s) w2) (Ok (clock (cred_clock (au_creds s)))) c1 eq_refl)).
  set (input := MkPutUserCredentialInput _ _ _ _ _ _ _).
  destruct (put_succeeds input c1 Hok Hfresh) as (id & c2 & Ep).
  exists (MkAuthState (au_states s) c2 w2). split.
  - unfold bind at 1, try_catch, bind at 1, on_creds, zoom. cbn [au_creds]. by rewrite Ep.
  - apply (put_get_user_credential key input c1 id c2 Ep).
Qed.

(** C17: The flow links the account of the cookie: a redirect of [start]
    carries the signed state with which, within ten minutes and however the cookie
    has fared, GitLab granting the code sent with the stored verifier, the
    callback succeeds and the identity of the cookie reads back GitLab's
    token, its user name and its end.  Between the two requests anything may
    happen ([s2]) that leaves the stored states as they are, the unique index
    of the users' credentials intact and unused ids to come. *)
Theorem link_flow cookieHeader identity startQuery base nonce verifier s url s1 :
  requireHulyCookie (clock (cred_clock (au_creds s))) (ac_secrets config) cookieHeader = Ok (inr identity) ->
  nonempty_string (prop_of startQuery "gitlabBaseUrl") = Some base ->
  user_start config cookieHeader startQuery nonce verifier s = (Ok (Redirect url), s1) ->
  let state := signHmac (buildStatePayload (hu_workspaceUuid identity) (hu_hulyPersonUuid identity) nonce
                 (clock (S (cred_clock (au_creds s))))) (ac_secrets config) in
    url_with_params (base +:+ "/oauth/authorize") (authorize_params config (callback_uri config) state verifier) = Some url /\
    forall s2 query code accept token lifetime name w2,
      au_states s2 = au_states s1 ->
      (clock (cred_clock (au_creds s2)) <= clock (S (cred_clock (au_creds s))) + STATE_TTL_MS)%Z ->
      nonempty_string (prop_of query "state") = Some state -> nonempty_string (prop_of query "code") = Some code ->
      grants base (user_form code verifier) (au_world s2) token lifetime name w2 ->
      index_ok (scan (userCredentials (au_creds s2))) -> ids_fresh (au_creds s2) ->
      exists r s3, user_callback config query accept s2 = (Ok r, s3) /\ (reply_status r = 200 \/ reply_status r = 302)%Z /\
        getUserCredential key (hu_workspaceUuid identity) (hu_hulyPersonUuid identity) (Some base) (au_creds s3) =
        (Ok (Some (MkUserToken token (Some (Some (clock (S (cred_clock (au_creds s2))) + lifetime * 1000)%Z)) name base)),
         au_creds s3).
Proof.
  intros Hid Hb. unfold user_start, with_identity. unfold bind at 1, on_creds at 1, zoom. cbn [cred_now]. rewrite Hid, Hb.
  unfold checked_base. destruct (validateGitLabBaseUrl _ base) as [v|] eqn:Hv; [|done].
  unfold bind at 1, on_creds at 1, zoom. cbn [cred_now au_creds cred_clock].
  set (epoch := clock (S (cred_clock (au_creds s)))).
  set (payload := buildStatePayload _ _ _ _). unfold bind at 1, on_creds at 1, zoom. cbn [next_cred_id au_creds au_states].
  set (d := MkOAuthStateDoc _ _ _ _ _ _ _ _ _ _ _ _). unfold bind at 1, store_state. cbn [au_states].
  destruct (insertOne d (au_states s)) as [rows|] eqn:Ei; [|done]. cbn [negb]. unfold send_to_gitlab.
  destruct (url_with_params _ _) as [u|] eqn:Eu; [|done]. intros [= -> <-].
  split; [done|].
  intros s2 query code accept token lifetime name w2 Hrows Htime Hs Hc Hg Hok Hfresh.
  cbn [au_states set_states] in Hrows.
  assert (findOne (user_row (signHmac payload (ac_secrets config))) (au_states s2) = Some d) as Hf.
  { rewrite Hrows, findOne_scan. apply insertOne_Some, ref_insert_Some in Ei as [-> Hcl]. rewrite js_find_app.
    assert (js_find (user_row (signHmac payload (ac_secrets config))) (scan (au_states s)) = None) as ->.
    - apply js_find_None. intros x Hx. specialize (Hcl x Hx). cbn in Hcl. apply orb_false_iff in Hcl as [_ Hne].
      apply bool_decide_eq_false in Hne. apply andb_false_iff. left. apply bool_decide_eq_false_2. congruence.
    - cbn. unfold user_row, by_state. by rewrite !bool_decide_eq_true_2. }
  unfold user_callback. rewrite Hs, Hc. unfold find_state, bind at 1, gets. rewrite Hf. unfold user_resume.
  destruct (verify_signed payload (sc_primary (ac_secrets config)) (ac_secrets config)) as [kind Ek]; [by left|].
  change (os_statePayload d) with payload. unfold signHmac at 1. rewrite Ek.
  unfold bind at 1. cbn [on_creds zoom cred_now au_creds]. unfold bind at 1, drop_state, modify. cbn [au_creds].
  change (os_expiresAt d) with (epoch + STATE_TTL_MS)%Z. rewrite (proj2 (Z.ltb_ge _ _)) by exact Htime.
  match goal with |- exists _ _, user_store _ _ _ _ ?st = _ /\ _ => set (s3 := st) end.
  destruct (user_store_runs d code accept s3 v token lifetime name w2) as (s4 & E & Hget);
    [exact Hv|exact Hg|exact Hok|exact Hfresh|].
  do 2 eexists. split; [exact E|]. split; [|exact Hget].
  unfold linked_reply. destruct (os_returnTo d) as [[|]|]; [destruct (accepts_json _)| |destruct (accepts_json _)]; auto.
Qed.
End Identity.

(** ** The answer's page and the redirect *)

(** What a character becomes, on its own. *)
Definition html_entity (a : ascii) : string :=
  if decide (a = "&"%char) then "&amp;" else if decide (a = "<"%char) then "&lt;"
  else if decide (a = ">"%char) then "&gt;" else if decide (a = dquote) then "&quot;"
  else if decide (a = chr 39) then "&#39;" else String a "".

Fixpoint escape_each (s : string) : string :=
  match s with "" => "" | String a s => html_entity a +:+ escape_each s end.

Definition no_markup (a : ascii) : bool :=
  negb (bool_decide (a ∈ ["<"%char; ">"%char; dquote; chr 39])).

Lemma replace_char_app c b s t : replace_char c b (s +:+ t) = replace_char c b s +:+ replace_char c b t.
Proof.
  induction s as [|a s IH]; [done|]. rewrite str_app_cons. cbn [replace_char].
  destruct (decide _); rewrite IH; [by rewrite str_app_assoc|by rewrite str_app_cons].
Qed.

Lemma escapeHtml_cons a s : escapeHtml (String a s) = html_entity a +:+ escapeHtml s.
Proof.
  change (String a s) with (String a "" +:+ s). unfold escapeHtml. rewrite !replace_char_app. f_equal.
  by destruct a as [[] [] [] [] [] [] [] []].
Qed.

(** The five replacements of [escapeHtml], one after the other, escape
    each character exactly once, and no angle bracket or quote is left. *)
Theorem escapeHtml_once raw : escapeHtml raw = escape_each raw /\ all_chars no_markup (escapeHtml raw).
Proof.
  assert (escapeHtml raw = escape_each raw) as E.
  { induction raw as [|a s IH]; [done|]. by rewrite escapeHtml_cons, IH. }
  split; [done|]. rewrite E. clear E. induction raw as [|a s IH]; [constructor|].
  cbn [escape_each]. apply all_chars_app; [|done].
  destruct a as [[] [] [] [] [] [] [] []]; repeat constructor.
Qed.

(** A stored redirect is on the service's own origin, under a path that
    begins with /user/ui. *)
Lemma return_to_confined `{WebPlatform} raw publicBaseUrl href :
  isSafeReturnTo raw publicBaseUrl = Some href ->
  exists r url base, raw = Some r /\ page_URL r (Some publicBaseUrl) = Some url /\ page_URL publicBaseUrl None = Some base /\
    wp_origin url = wp_origin base /\ starts_with "/user/ui" (wp_pathname url) = true /\ href = wp_href url.
Proof.
  unfold isSafeReturnTo. destruct raw as [[|a r]|]; [done| |done].
  destruct (page_URL (String a r) _) as [url|] eqn:Eu; [|done]. destruct (page_URL publicBaseUrl None) as [base|]; [|done].
  destruct (bool_decide _) eqn:Eo; [|done]. apply bool_decide_eq_true in Eo. cbn [negb].
  destruct (path_allowed _) eqn:Ep; [|done]. intros [= <-]. exists (String a r), url, base. split_and!; try done.
  unfold path_allowed, RETURN_TO_ALLOWED_PATHS, existsb in Ep.
  rewrite !orb_true_iff, !bool_decide_eq_true in Ep.
  destruct Ep as [[-> | Ep]|[[-> | Ep]|Ep]]; try done.
  revert Ep. unfold starts_with. generalize (wp_pathname url). intros p.
  do 9 (destruct p as [|?a p]; [done|]; cbn [String.prefix]; destruct (ascii_dec _ _); [|done]). done.
Qed.

(** ** Closed instances *)

#[export] Instance toy_web : WebPlatform := {
  page_URL := fun raw base =>
    match base with
    | Some b => if starts_with "/" raw then Some (MkWebPage b raw (b +:+ raw)) else None
    | None => Some (MkWebPage raw "/" raw)
    end;
  url_with_params := fun u ps => Some (u +:+ "?" +:+ js_join "&" (map (fun e => e.1 +:+ "=" +:+ e.2) ps));
  sha256_base64url := fun s => s
}.

Definition flow_base : string := "https://git.example.org".

Definition flow_server : Server :=
  MkServer [(token_url, Holds (VObj new_tokens)); (flow_base +:+ "/api/v4/user", Holds (VObj [("username", VStr "ada")]))] [].

(** Time is a minute in. *)
Definition flow_state : AuthState list Server := MkAuthState [] (MkCreds [] [] 0 0 60) flow_server.

Definition ada_cookie : option string :=
  Some ("huly-user=" +:+ signCookie (N := toy_crypto) (MkHulyUserIdentity "ws" "person-1" 3600000) (ac_secrets auth_config)).

Definition start_query (returnTo : string) : record := [("gitlabBaseUrl", VStr flow_base); ("returnTo", VStr returnTo)].

Definition started (returnTo : string) : res AuthReply * AuthState list Server :=
  user_start (N := toy_crypto) auth_config ada_cookie (start_query returnTo) "nonce" "verifier" flow_state.

(** The state the browser carries. *)
Definition flow_token : string :=
  signHmac (N := toy_crypto) (buildStatePayload "ws" "person-1" "nonce" 61000) (ac_secrets auth_config).

Definition back_query (code : string) : record := [("state", VStr flow_token); ("code", VStr code)].

(** The callback, two minutes and more after the start. *)
Definition back_state : AuthState list Server :=
  MkAuthState (au_states (started "").2) (MkCreds [] [] 0 1 200) flow_server.

Lemma flow_grants : grants (H0 := toy_http) flow_base (user_form auth_config "code" "verifier") flow_server "new" 7200 "ada" flow_server.
Proof.
  exists (toy_reply 200 None (VObj new_tokens)), new_tokens, flow_server,
    (toy_reply 200 None (VObj [("username", VStr "ada")])), [("username", VStr "ada")].
  split_and!; try done; vm_compute; reflexivity.
Qed.

Lemma link_flow_witness :
  exists r s3, user_callback (N := toy_crypto) auth_config (back_query "code") None back_state = (Ok r, s3) /\
    (reply_status r = 200 \/ reply_status r = 302)%Z /\
    getUserCredential "key" "ws" "person-1" (Some flow_base) (au_creds s3) =
    (Ok (Some (MkUserToken "new" (Some (Some 7401000%Z)) "ada" flow_base)), au_creds s3).
Proof.
  destruct (link_flow (N := toy_crypto) (H0 := toy_http) auth_config ada_cookie (MkHulyUserIdentity "ws" "person-1" 3600000)
    (start_query "") flow_base "nonce" "verifier" flow_state
    (match (started "").1 with Ok (Redirect u) => u | _ => "" end) (started "").2) as (_ & Hrun).
  - vm_compute. reflexivity.
  - vm_compute. reflexivity.
  - vm_compute. reflexivity.
  - apply (Hrun back_state (back_query "code") "code" None "new" 7200%Z "ada" flow_server).
    + reflexivity.
    + vm_compute. discriminate.
    + reflexivity.
    + reflexivity.
    + exact flow_grants.
    + done.
    + by intros x n ?%elem_of_nil.
Defined.

Definition back_again : record := [("state", VStr flow_token); ("code", VStr "another-code")].

Lemma callback_single_use_witness :
  let s' := (user_callback (N := toy_crypto) auth_config (back_query "code") None back_state).2 in
  callback (N := toy_crypto) (H0 := toy_http) auth_config true back_again None s' = (Ok unknown_state, s').
Proof.
  cbv zeta. apply (callback_single_use (N := toy_crypto) (H0 := toy_http) auth_config true (back_query "code") None flow_token "code" back_state
    (user_callback (N := toy_crypto) auth_config (back_query "code") None back_state).1 _) with (code' := "another-code").
  - vm_compute. split; [by intros x ?%elem_of_nil|done].
  - reflexivity.
  - reflexivity.
  - apply surjective_pairing.
  - by right.
  - reflexivity.
  - reflexivity.
Defined.

Lemma user_callback_scope_witness :
  let s' := (user_callback (N := toy_crypto) auth_config (back_query "code") None back_state).2 in
  credentials (au_creds s') = [] /\ userCredentials (au_creds s') <> [].
Proof.
  cbv zeta. destruct (user_callback_scope (N := toy_crypto) (H0 := toy_http) auth_config (back_query "code") None back_state
    (user_callback (N := toy_crypto) auth_config (back_query "code") None back_state).1 _ (surjective_pairing _)) as [Hc _].
  split; [exact Hc|]. vm_compute. discriminate.
Defined.

(** Two callbacks with one state, both past the look-up before either takes
    the row out: each is answered with success. *)
Example callbacks_interleave :
  let row := findOne (user_row flow_token) (au_states back_state) in
  let '(r1, s1) := user_resume (N := toy_crypto) auth_config flow_token "code" (Some "application/json") row back_state in
  let '(r2, _) := user_resume (N := toy_crypto) auth_config flow_token "code" (Some "application/json") row s1 in
  match r1, r2 with Ok r1, Ok r2 => (reply_status r1, reply_status r2) = (200%Z, 200%Z) | _, _ => False end.
Proof. vm_compute. reflexivity. Qed.

(** The allowlist is a prefix: a path that is not of the UI passes. *)
Example return_to_prefix :
  isSafeReturnTo (Some "/user/uixyz") "https://pod" = Some "https://pod/user/uixyz".
Proof. vm_compute. reflexivity. Qed.

(** An unknown state and a bad signature are told apart: the second answer,
    for a row whose payload was not signed by either secret. *)
Example bad_signature_distinguished :
  let row := MkOAuthStateDoc "oid-9" (Some "user") "00" "payload" "n" "v" "ws" "" "person-1" flow_base None 9000000 in
  let s := MkAuthState [row] (MkCreds [] [] 0 1 200) flow_server in
  ((user_callback (N := toy_crypto) auth_config [("state", VStr "00"); ("code", VStr "c")] None s).1,
   (user_callback (N := toy_crypto) auth_config [("state", VStr "01"); ("code", VStr "c")] None s).1) =
  (Ok (failure 401 "invalid_state" "State HMAC verification failed"), Ok unknown_state).
Proof. vm_compute. reflexivity. Qed.
