(* ===== verification/SuggestionParser.v ===== *)
(** * Suggestion blocks in a note (public/user-ui/suggestion-parser.js)

    The two forms of a suggestion are found by their offsets.  The loops
    move a position forward, so the length of the body is fuel enough.  A
    line starts after a line feed or a carriage return. *)

From Stdlib Require Import Ascii.
From S2P Require Import Prelude JsMap JsString Json.
Open Scope nat_scope.
Open Scope string_scope.
Open Scope list_scope.

Inductive SuggestionForm := FormGfm | FormLegacy.

Record SuggestionBlock := MkSuggestionBlock {
  sb_form : SuggestionForm;
  sb_content : string;
  sb_startIndex : nat;
  sb_endIndex : nat
}.

Definition newline : string := String (chr 10) "".
Definition fence : string := newline +:+ "```".
Definition open_fence : string := "```suggestion".
Definition openMarker : string := "<<<<<<< SUGGEST".
Definition closeMarker : string := ">>>>>>>> SUGGEST".

(** [body.slice(a, b)] *)
Definition js_slice (a b : nat) (body : string) : string := String.substring a (b - a) body.

(** [body[i] === c] *)
Definition char_is (i : nat) (c : ascii) (body : string) : bool := bool_decide (String.get i body = Some c).

(** ** The fenced form *)

(** [^] with the flag [m]. *)
Definition line_start (p : nat) (body : string) : bool :=
  match p with O => true | S q => char_is q (chr 10) body || char_is q (chr 13) body end.

(** [/^```suggestion[^\n]*\n/] at a position: the end of the match. *)
Definition open_at (p : nat) (body : string) : option nat :=
  if line_start p body && bool_decide (String.substring p 13 body = open_fence)
  then match String.index (p + 13) newline body with Some n => Some (S n) | None => None end
  else None.

(** The matches from a position on. *)
Fixpoint gfm_from (fuel : nat) (p : nat) (body : string) : list SuggestionBlock :=
  match fuel with
  | O => []
  | S fuel =>
      match open_at p body with
      | None => gfm_from fuel (S p) body
      | Some contentStart =>
          match String.index contentStart fence body with
          | None => gfm_from fuel contentStart body
          | Some closeIdx =>
              MkSuggestionBlock FormGfm (js_slice contentStart closeIdx body) p (closeIdx + 4)
              :: gfm_from fuel (closeIdx + 4) body
          end
      end
  end.

Definition parseGfm (body : string) : list SuggestionBlock := gfm_from (S (String.length body)) 0 body.

(** ** The legacy form *)

Fixpoint legacy_from (fuel : nat) (searchFrom : nat) (body : string) : list SuggestionBlock :=
  match fuel with
  | O => []
  | S fuel =>
      match String.index searchFrom openMarker body with
      | None => []
      | Some openIdx =>
          let afterOpen := openIdx + String.length openMarker in
          let contentStart := if char_is afterOpen (chr 10) body then S afterOpen else afterOpen in
          match String.index contentStart closeMarker body with
          | None => []
          | Some closeIdx =>
              let contentEnd := if char_is (closeIdx - 1) (chr 10) body then closeIdx - 1 else closeIdx in
              let endIndex := closeIdx + String.length closeMarker in
              MkSuggestionBlock FormLegacy (js_slice contentStart contentEnd body) openIdx endIndex
              :: legacy_from fuel endIndex body
          end
      end
  end.

Definition parseLegacy (body : string) : list SuggestionBlock := legacy_from (S (String.length body)) 0 body.

Definition parseSuggestions (body : string) : list SuggestionBlock := parseLegacy body ++ parseGfm body.

Definition hasSuggestion (body : string) : bool := (0 <? length (parseSuggestions body))%nat.

(** ** What a block is *)

Definition open_mark (f : SuggestionForm) : string := match f with FormGfm => open_fence | FormLegacy => openMarker end.
Definition close_mark (f : SuggestionForm) : string := match f with FormGfm => fence | FormLegacy => closeMarker end.

(** The marks of a block are in the body where the offsets say, apart, and
    the content lies between them. *)
Record delimited (body : string) (b : SuggestionBlock) : Prop := {
  dl_open : String.substring (sb_startIndex b) (String.length (open_mark (sb_form b))) body = open_mark (sb_form b);
  dl_close : String.substring (sb_endIndex b - String.length (close_mark (sb_form b)))
               (String.length (close_mark (sb_form b))) body = close_mark (sb_form b);
  dl_apart : sb_startIndex b + String.length (open_mark (sb_form b)) + String.length (close_mark (sb_form b)) <= sb_endIndex b;
  dl_bound : sb_endIndex b <= String.length body;
  dl_content : exists i n, sb_content b = String.substring i n body /\
                 sb_startIndex b + String.length (open_mark (sb_form b)) <= i /\
                 (n = 0 \/ i + n + String.length (close_mark (sb_form b)) <= sb_endIndex b)
}.

(** From [p] on, one after the other. *)
Fixpoint in_order (p : nat) (bs : list SuggestionBlock) : Prop :=
  match bs with [] => True | b :: bs => p <= sb_startIndex b /\ in_order (sb_endIndex b) bs end.

Lemma substring_bound n m s t : String.substring n m s = t -> 0 < String.length t -> String.length t = m -> n + m <= String.length s.
Proof.
  revert n m t. induction s as [|a s IH]; intros n m t.
  - destruct n, m; cbn; intros <-; cbn; intros; lia.
  - destruct n as [|n], m as [|m]; cbn [String.substring String.length].
    + intros <-. cbn. intros; lia.
    + intros <-. cbn [String.length]. intros _ [= Hm]. destruct m as [|m]; [lia|].
      specialize (IH 0 (S m) (String.substring 0 (S m) s) eq_refl ltac:(lia) Hm). lia.
    + intros _ Hpos Hm. lia.
    + intros Ht Hpos Hm. specialize (IH n (S m) t Ht Hpos Hm). lia.
Qed.

Lemma index_ge n p s i : p <> "" -> String.index n p s = Some i -> n <= i.
Proof.
  intros Hp. revert n i. induction s as [|a s IH]; intros n i.
  - destruct n; cbn; by destruct p.
  - destruct n as [|n]; [lia|]. cbn. destruct (String.index n p s) as [j|] eqn:E; [|done].
    intros [= <-]. specialize (IH n j E). lia.
Qed.

Lemma index_found n p s i : p <> "" -> String.index n p s = Some i ->
  n <= i /\ String.substring i (String.length p) s = p /\ i + String.length p <= String.length s.
Proof.
  intros Hp E. pose proof (String.index_correct1 n i p s E) as Hs. split_and!; [by eapply index_ge|done|].
  eapply substring_bound; [exact Hs| |done]. destruct p; [done|cbn; lia].
Qed.

Lemma open_at_Some p body c : open_at p body = Some c ->
  String.substring p 13 body = open_fence /\ p + 14 <= c /\ c <= String.length body.
Proof.
  unfold open_at. destruct (line_start p body); [|done]. cbn [andb].
  destruct (bool_decide _) eqn:E; [|done]. apply bool_decide_eq_true in E.
  destruct (String.index (p + 13) newline body) as [n|] eqn:Ei; [|done]. intros [= <-].
  apply index_found in Ei as (Hn & _ & Hb); [|done]. cbn in Hb. split_and!; [done|lia..].
Qed.

Lemma gfm_delimited fuel p body :
  Forall (delimited body) (gfm_from fuel p body) /\ in_order p (gfm_from fuel p body).
Proof.
  revert p. induction fuel as [|fuel IH]; intros p; cbn [gfm_from]; [done|].
  assert (forall q bs, in_order q bs -> p <= q -> in_order p bs) as Hmono.
  { intros q [|b bs]; [done|]. cbn. intros [H1 H2]. split; [lia|done]. }
  destruct (open_at p body) as [c|] eqn:Eo.
  - apply open_at_Some in Eo as (Ho & Hc & Hcb).
    destruct (String.index c fence body) as [x|] eqn:Ex.
    + apply index_found in Ex as (Hx & Hs & Hb); [|done]. change (String.length fence) with 4 in Hs, Hb.
      destruct (IH (x + 4)) as [Hf Hi]. split; [|by split].
      constructor; [|done]. split; cbn [sb_form sb_startIndex sb_endIndex sb_content open_mark close_mark];
        change (String.length open_fence) with 13; change (String.length fence) with 4; try done; try lia.
      * by replace (x + 4 - 4) with x by lia.
      * exists c, (x - c). split; [done|]. lia.
    + destruct (IH c) as [Hf Hi]. split; [done|]. eapply Hmono; [exact Hi|lia].
  - destruct (IH (S p)) as [Hf Hi]. split; [done|]. eapply Hmono; [exact Hi|lia].
Qed.

Lemma legacy_delimited fuel p body :
  Forall (delimited body) (legacy_from fuel p body) /\ in_order p (legacy_from fuel p body).
Proof.
  revert p. induction fuel as [|fuel IH]; intros p; cbn [legacy_from]; [done|].
  destruct (String.index p openMarker body) as [o|] eqn:Eo; [|done]. cbv zeta.
  apply index_found in Eo as (Ho & Hso & Hbo); [|done].
  change (String.length openMarker) with 15 in *. change (String.length closeMarker) with 16 in *.
  set (c := if char_is (o + 15) (chr 10) body then S (o + 15) else o + 15).
  assert (o + 15 <= c) as Hc by (unfold c; destruct (char_is _ _ _); lia). clearbody c.
  destruct (String.index c closeMarker body) as [x|] eqn:Ex; [|done].
  apply index_found in Ex as (Hx & Hs & Hb); [|done]. change (String.length closeMarker) with 16 in *.
  destruct (IH (x + 16)) as [Hf Hi]. split; [|by split].
  constructor; [|done]. split; cbn [sb_form sb_startIndex sb_endIndex sb_content open_mark close_mark];
    change (String.length openMarker) with 15; change (String.length closeMarker) with 16; try done; try lia.
  - by replace (x + 16 - 16) with x by lia.
  - unfold js_slice. set (e := if char_is (x - 1) (chr 10) body then x - 1 else x).
    assert (e <= x) as He by (unfold e; destruct (char_is _ _ _); lia). exists c, (e - c). split; [done|].
    split; [lia|]. destruct (decide (e <= c)); [left|right]; lia.
Qed.

(** *** The fuel *)

Lemma gfm_eq fuel p body :
  gfm_from (S fuel) p body =
  match open_at p body with
  | None => gfm_from fuel (S p) body
  | Some c => match String.index c fence body with
              | None => gfm_from fuel c body
              | Some x => MkSuggestionBlock FormGfm (js_slice c x body) p (x + 4) :: gfm_from fuel (x + 4) body
              end
  end.
Proof. done. Qed.

Lemma gfm_fuel body fuel p : S (String.length body) - p <= fuel -> gfm_from (S fuel) p body = gfm_from fuel p body.
Proof.
  revert p. induction fuel as [|fuel IH]; intros p Hf.
  - cbn [gfm_from]. destruct (open_at p body) as [c|] eqn:Eo; [|done]. apply open_at_Some in Eo as (_ & H1 & H2). lia.
  - rewrite (gfm_eq (S fuel) p), (gfm_eq fuel p). destruct (open_at p body) as [c|] eqn:Eo.
    + apply open_at_Some in Eo as (_ & H1 & H2). destruct (String.index c fence body) as [x|] eqn:Ex.
      * apply index_found in Ex as (Hx & _); [|done]. f_equal. apply IH. lia.
      * apply IH. lia.
    + apply IH. lia.
Qed.

Lemma legacy_fuel body fuel p : S (String.length body) - p <= fuel -> legacy_from (S fuel) p body = legacy_from fuel p body.
Proof.
  revert p. induction fuel as [|fuel IH]; intros p Hf.
  - cbn [legacy_from]. destruct (String.index p openMarker body) as [o|] eqn:Eo; [|done].
    apply index_found in Eo as (H1 & _ & H2); [|done]. lia.
  - assert (forall f, legacy_from (S f) p body = match String.index p openMarker body with
      | None => []
      | Some o => let a := o + String.length openMarker in let c := if char_is a (chr 10) body then S a else a in
          match String.index c closeMarker body with
          | None => []
          | Some x => MkSuggestionBlock FormLegacy
              (js_slice c (if char_is (x - 1) (chr 10) body then x - 1 else x) body) o (x + String.length closeMarker)
              :: legacy_from f (x + String.length closeMarker) body
          end
      end) as Heq by done.
    rewrite (Heq (S fuel)), (Heq fuel). clear Heq. destruct (String.index p openMarker body) as [o|] eqn:Eo; [|done]. cbv zeta.
    apply index_found in Eo as (H1 & _ & H2); [|done].
    destruct (String.index _ closeMarker body) as [x|] eqn:Ex; [|done].
    apply index_found in Ex as (Hx & _); [|done]. f_equal. apply IH.
    change (String.length openMarker) with 15 in *. change (String.length closeMarker) with 16.
    destruct (char_is _ _ _) in Hx; lia.
Qed.

(** Every block the parser reports lies in the body between its marks,
    its content between them, and blocks of one form follow one another
    without overlap; and the fuel is enough - no block is missed for want of
    it. *)
Theorem blocks_delimited body :
  Forall (delimited body) (parseSuggestions body) /\ in_order 0 (parseGfm body) /\ in_order 0 (parseLegacy body) /\
  forall n, gfm_from (n + S (String.length body)) 0 body = parseGfm body /\
            legacy_from (n + S (String.length body)) 0 body = parseLegacy body.
Proof.
  split_and!; [apply Forall_app; split; [apply legacy_delimited|apply gfm_delimited]|apply gfm_delimited|apply legacy_delimited|].
  intros n. induction n as [|n [IH1 IH2]]; [done|]. cbn [Nat.add]. by rewrite gfm_fuel, legacy_fuel by lia.
Qed.

(** ** Closed examples *)

Definition lines (l : list string) : string := js_join newline l.

Example parse_both :
  map (fun b => (sb_form b, sb_content b))
    (parseSuggestions (lines ["```suggestion:-0+1"; "a"; "b"; "```"; "<<<<<<< SUGGEST"; "c"; ">>>>>>>> SUGGEST"])) =
  [(FormLegacy, "c"); (FormGfm, lines ["a"; "b"])].
Proof. vm_compute. reflexivity. Qed.

(** An empty suggestion - one that deletes the lines - is not seen as such:
    the opening match has taken the line feed its closing fence would need,
    and the block runs on to the next fence. *)
Example empty_suggestion_runs_on :
  map sb_content (parseSuggestions (lines ["```suggestion"; "```"; "text"; "```js"; "code"; "```"])) =
  [lines ["```"; "text"]].
Proof. vm_compute. reflexivity. Qed.
