(* ===== verification/Suggestions.v ===== *)
(** * Applying and dismissing suggestions (src/http/user-suggestions.ts,
    src/adapter/suggestion-apply.ts)

    A user applies a suggestion of a merge request with an own GitLab token,
    found through the binding's credential, or dismisses it, which is
    remembered.  Logging and the rate limit are not modelled. *)

From S2P Require Import Prelude JsMap JsString JsVal Platform Mongo Store Credentials Sync Json RateLimit.
From S2P Require Import GitLabMaps GitLabClient GitLabClientProofs BindingApi Cookies BaseUrl.
From S2P Require Import Auth TokenRefresh OAuth OAuthProofs.
Open Scope nat_scope.
Open Scope string_scope.
Open Scope list_scope.

Record DismissedSuggestionDoc := MkDismissedSuggestionDoc {
  ds_workspaceUuid : string;
  ds_hulyPersonUuid : string;
  ds_bindingId : string;
  ds_mrIid : string;
  ds_noteId : string;
  ds_dismissedAt : Z
}.

(** The filter, and the unique index. *)
Definition dismissed_by (workspaceUuid hulyPersonUuid bindingId mrIid noteId : string) (d : DismissedSuggestionDoc) : bool :=
  bool_decide (ds_workspaceUuid d = workspaceUuid) && bool_decide (ds_hulyPersonUuid d = hulyPersonUuid) &&
  bool_decide (ds_bindingId d = bindingId) && bool_decide (ds_mrIid d = mrIid) && bool_decide (ds_noteId d = noteId).

#[export] Instance DismissedSuggestionDoc_document : Document DismissedSuggestionDoc.
Proof.
  refine {| conflicts := fun d => dismissed_by (ds_workspaceUuid d) (ds_hulyPersonUuid d) (ds_bindingId d) (ds_mrIid d) (ds_noteId d) |}.
  intros d d'. unfold dismissed_by. apply eq_true_iff_eq. rewrite !andb_true_iff, !bool_decide_eq_true. intuition congruence.
Defined.

Record SuggestionState (Coll : Type -> Type) (W : Type) := MkSuggestionState {
  sg_store : Store Coll;
  sg_dismissed : Coll DismissedSuggestionDoc;
  sg_auth : AuthState Coll W
}.
Arguments MkSuggestionState {Coll W}.
Arguments sg_store {Coll W}.
Arguments sg_dismissed {Coll W}.
Arguments sg_auth {Coll W}.

Section Suggestions.
Context {Coll : Type -> Type} `{Mongo Coll} {P : Platform} {C : Cipher} {N : NodeCrypto} {W : Type} `{Http W}.
Abbreviation MA := (M (AuthState Coll W)).
Abbreviation MG := (M (SuggestionState Coll W)).

(** ** src/adapter/suggestion-apply.ts *)

Definition suggestion_request (baseUrl : string) (suggestionId : Z) (oauthToken : string) : HttpRequest :=
  MkHttpRequest "PUT" (strip_trailing_slash baseUrl +:+ "/api/v4/suggestions/" +:+ num_to_string suggestionId +:+ "/apply")
    [] [("PRIVATE-TOKEN", oauthToken); ("Content-Type", "application/json")] None.

(** [throw new GitLabApiError(`${what} ${status}: ${text}`, status, text)] *)
Definition suggestion_error {A} (what : string) (res : HttpResponse) : MA A :=
  let! text := lift_res (hp_text res) in
  throw (GitLabApiError (hp_status res) (what +:+ " " +:+ num_to_string (hp_status res) +:+ ": " +:+ text)).

(** [body()]: the commit, when GitLab names one. *)
Definition suggestion_body (res : HttpResponse) : MA (option string) :=
  if (hp_status res =? 401)%Z || (hp_status res =? 403)%Z then suggestion_error "suggestion apply auth error" res
  else if (hp_status res =? 409)%Z then suggestion_error "suggestion conflict" res
  else if (400 <=? hp_status res)%Z then suggestion_error "suggestion apply error" res
  else
    let! data := lift_res (hp_json res) in
    let! commit_id := get_prop data "commit_id" in
    ret (string_or_undefined commit_id).

Definition applySuggestion (baseUrl : string) (suggestionId : Z) (oauthToken : string) : MA (option string) :=
  if negb (valid_actor_token (Some oauthToken))
  then throw (GitLabApiError 0 "invalid oauth token for suggestion apply")
  else
    withRateLimitRetry (on_creds cred_now) (fun ms => Auth.on_world (sleep ms))
      (let! res := Auth.on_world (fetch (suggestion_request baseUrl suggestionId oauthToken)) in
       ret (MkReply (hp_status res) (rate_limit_headers false res) (suggestion_body res))).

(** ** src/http/user-suggestions.ts *)

Context (config : AuthConfig).

Definition on_auth {A} : MA A -> MG A :=
  zoom sg_auth (fun t s => MkSuggestionState (sg_store s) (sg_dismissed s) t).
Definition on_bindings {A} : M (Store Coll) A -> MG A :=
  zoom sg_store (fun t s => MkSuggestionState t (sg_dismissed s) (sg_auth s)).

Definition cookie_identity (cookieHeader : option string) (k : HulyUserIdentity -> MG AuthReply) : MG AuthReply :=
  let! now := on_auth (on_creds cred_now) in
  match requireHulyCookie now (ac_secrets config) cookieHeader with
  | Throw e => throw e
  | Ok (inl r) => ret (Json r)
  | Ok (inr identity) => k identity
  end.

(** The [try] that finds the GitLab instance of a binding. *)
Definition binding_base (bindingId : string) : MG (AuthReply + string) :=
  try_catch
    (let! binding := on_bindings (getBinding bindingId) in
     match binding with
     | None => ret (inl (failure 404 "not_found" "Binding not found"))
     | Some binding =>
         let! rawCred := on_auth (on_creds (cred_object_id (bd_credentialRef binding) (fun oid =>
           gets (fun s => findOne (fun d => bool_decide (cd_id d = oid)) (credentials s))))) in
         match (match rawCred with Some d => cd_gitlabBaseUrl d | None => None end) with
         | None => ret (inl (failure 500 "server_error" "Cannot determine GitLab instance for binding"))
         | Some base => ret (inr base)
         end
     end)
    (fun _ => ret (inl (failure 400 "invalid_request" "Invalid bindingId"))).

Definition applied_json (commitSha : option string) : jsval :=
  VObj ([("applied", VBool true)] ++ match commitSha with Some c => [("commitSha", VStr c)] | None => [] end).

(** The responses to the errors of the application. *)
Definition apply_failure (e : exn) : AuthReply :=
  let other := failure 500 "server_error" "Failed to apply suggestion" in
  match e with
  | GitLabApiError status _ =>
      if (status =? 409)%Z then failure 400 "conflict" "Suggestion could not be applied (outdated or already applied)"
      else if (status =? 401)%Z || (status =? 403)%Z
      then failure 401 "gitlab_auth_failed" "GitLab rejected the user token" else other
  | _ => other
  end.

Definition apply_suggestion (cookieHeader : option string) (bindingId suggestionId : string) : MG AuthReply :=
  cookie_identity cookieHeader (fun identity =>
    match parseInt suggestionId with
    | Some n =>
        if (n <=? 0)%Z then ret (failure 400 "invalid_request" "Invalid suggestionId")
        else
          let! found := binding_base bindingId in
          match found with
          | inl r => ret r
          | inr gitlabBaseUrl =>
              let! credential := on_auth (on_creds (getUserCredential (ac_encryptionKey config)
                (hu_workspaceUuid identity) (hu_hulyPersonUuid identity) (Some gitlabBaseUrl))) in
              match credential with
              | None => ret (failure 401 "not_linked" "No GitLab credential found. Link your account first.")
              | Some credential =>
                  try_catch
                    (let! result := on_auth (applySuggestion gitlabBaseUrl n (ut_token credential)) in
                     ret (Json (MkApiResponse 200 (applied_json result))))
                    (fun e => ret (apply_failure e))
              end
          end
    | None => ret (failure 400 "invalid_request" "Invalid suggestionId")
    end).

Definition dismiss_suggestion (cookieHeader : option string) (bindingId mrIid noteId : string) : MG AuthReply :=
  cookie_identity cookieHeader (fun identity =>
    let! now := on_auth (on_creds cred_now) in
    let doc := MkDismissedSuggestionDoc (hu_workspaceUuid identity) (hu_hulyPersonUuid identity) bindingId mrIid noteId now in
    fun s =>
      match upsertOne (dismissed_by (hu_workspaceUuid identity) (hu_hulyPersonUuid identity) bindingId mrIid noteId)
              (fun _ => doc) doc (sg_dismissed s) with
      | Some c => (Ok (Json (MkApiResponse 200 (VObj [("dismissed", VBool true)]))),
                   MkSuggestionState (sg_store s) c (sg_auth s))
      | None => (Ok (failure 500 "server_error" "Failed to dismiss suggestion"), s)
      end).
End Suggestions.

(** ** What the endpoints do *)

Section Outcomes.
Context {Coll : Type -> Type} `{HL : MongoLaws Coll} {P : Platform} {C : Cipher} {N : NodeCrypto} {W : Type} `{Http W}.
Context (config : AuthConfig).
Implicit Types (s : SuggestionState Coll W).

(** The clock has been read once. *)
Definition ticked (c : Creds Coll) : Creds Coll :=
  MkCreds (credentials c) (userCredentials c) (ivs c) (cred_ids c) (S (cred_clock c)).

Lemma getUserCredential_tick key w p u c r :
  getUserCredential key w p u c = (Ok r, c) -> getUserCredential key w p u (ticked c) = (Ok r, ticked c).
Proof.
  unfold getUserCredential, bind, gets, decryptValue, ret, throw. cbn [ticked userCredentials].
  destruct (findOne _ (userCredentials c)) as [d|]; [|congruence].
  destruct (gcm_decrypt _ _ _ _); [|done]. congruence.
Qed.

(** What a request finds: an identity, a binding, the GitLab instance of the
    binding's credential and the identity's token for it. *)
Record appliable s cookieHeader bindingId (identity : HulyUserIdentity) (binding : BindingDoc) (base : string)
    (token : UserToken) : Prop := {
  ap_identity : requireHulyCookie (clock (cred_clock (au_creds (sg_auth s)))) (ac_secrets config) cookieHeader = Ok (inr identity);
  ap_binding : getBinding bindingId (sg_store s) = (Ok (Some binding), sg_store s);
  ap_base : exists oid d, newObjectId (bd_credentialRef binding) = Some oid /\
    findOne (fun d => bool_decide (cd_id d = oid)) (credentials (au_creds (sg_auth s))) = Some d /\ cd_gitlabBaseUrl d = Some base;
  ap_token : getUserCredential (ac_encryptionKey config) (hu_workspaceUuid identity) (hu_hulyPersonUuid identity)
    (Some base) (au_creds (sg_auth s)) = (Ok (Some token), au_creds (sg_auth s));
  ap_valid : valid_actor_token (Some (ut_token token)) = true
}.

Definition asked s (w : W) : SuggestionState Coll W :=
  MkSuggestionState (sg_store s) (sg_dismissed s) (MkAuthState (au_states (sg_auth s)) (ticked (au_creds (sg_auth s))) w).

Lemma apply_reaches s cookieHeader bindingId suggestionId n identity binding base token :
  appliable s cookieHeader bindingId identity binding base token ->
  parseInt suggestionId = Some n -> (0 < n)%Z ->
  apply_suggestion config cookieHeader bindingId suggestionId s =
  try_catch (let! result := on_auth (applySuggestion base n (ut_token token)) in
             ret (Json (MkApiResponse 200 (applied_json result)))) (fun e => ret (apply_failure e))
    (asked s (au_world (sg_auth s))).
Proof.
  intros [Hid Hb (oid & d & Ho & Hd & Hbase) Ht _] Hn Hpos. unfold apply_suggestion, cookie_identity.
  unfold bind at 1. cbn [on_auth zoom on_creds cred_now]. unfold zoom. rewrite Hid, Hn.
  rewrite (proj2 (Z.leb_gt _ _)) by done.
  set (s1 := MkSuggestionState _ _ _). assert (s1 = asked s (au_world (sg_auth s))) as E1 by done.
  assert (binding_base bindingId s1 = (Ok (inr base), s1)) as Eb.
  { unfold binding_base, try_catch. unfold bind at 1, on_bindings, zoom. cbn [s1 sg_store]. rewrite Hb.
    unfold bind at 1, on_auth, zoom, on_creds, zoom, cred_object_id. rewrite Ho. unfold gets. cbn [s1 sg_auth au_creds credentials].
    rewrite Hd, Hbase. done. }
  rewrite (bind_ok _ _ _ _ _ Eb).
  assert (on_auth (on_creds (getUserCredential (ac_encryptionKey config) (hu_workspaceUuid identity) (hu_hulyPersonUuid identity)
    (Some base))) s1 = (Ok (Some token), s1)) as Et.
  { unfold on_auth, zoom, on_creds, zoom. rewrite E1. cbn [asked sg_auth au_creds].
    rewrite (getUserCredential_tick _ _ _ _ _ _ Ht). done. }
  rewrite (bind_ok _ _ _ _ _ Et). by rewrite E1.
Qed.

(** A suggestion is applied by one request, to the GitLab instance of
    the binding's credential, with the token of the cookie's own identity
    for that instance - whatever workspace the binding belongs to; GitLab's
    answer decides the response: its commit on success, and 400, 401 or 500
    for a conflict, a refusal of the token and any other error. *)
Theorem suggestion_outcome s cookieHeader bindingId suggestionId n identity binding base token reply data text w :
  appliable s cookieHeader bindingId identity binding base token ->
  parseInt suggestionId = Some n -> (0 < n)%Z ->
  fetch (suggestion_request base n (ut_token token)) (au_world (sg_auth s)) = (Ok reply, w) ->
  hp_json reply = Ok (VObj data) -> hp_text reply = Ok text -> hp_status reply <> 429%Z ->
  apply_suggestion config cookieHeader bindingId suggestionId s =
  (Ok (if (hp_status reply <? 400)%Z
       then Json (MkApiResponse 200 (applied_json (string_or_undefined (prop_of data "commit_id"))))
       else if (hp_status reply =? 409)%Z then failure 400 "conflict" "Suggestion could not be applied (outdated or already applied)"
       else if (hp_status reply =? 401)%Z || (hp_status reply =? 403)%Z
       then failure 401 "gitlab_auth_failed" "GitLab rejected the user token"
       else failure 500 "server_error" "Failed to apply suggestion"),
   asked s w).
Proof.
  intros Ha Hn Hpos Hf Hj Htx H429. rewrite (apply_reaches _ _ _ _ _ _ _ _ _ Ha Hn Hpos).
  destruct Ha as [_ _ _ _ Hv].
  unfold try_catch, bind at 1, on_auth at 1, zoom. unfold applySuggestion. rewrite Hv. cbn [negb].
  unfold withRateLimitRetry, MAX_RETRIES. cbn [retry_loop]. unfold bind at 1 2, Auth.on_world, zoom.
  cbn [asked sg_auth au_world]. rewrite Hf. cbn [ret rp_status rp_body].
  rewrite (proj2 (Z.eqb_neq _ _)) by done. cbn [negb]. unfold suggestion_body, suggestion_error.
  set (st := hp_status reply) in *.
  destruct (Z.eqb_spec st 401) as [E1|E1]; cbn [orb].
  { unfold bind, lift_res. rewrite Htx. cbn [apply_failure ret throw]. rewrite E1. done. }
  destruct (Z.eqb_spec st 403) as [E2|E2].
  { unfold bind, lift_res. rewrite Htx. cbn [apply_failure ret throw]. rewrite E2. done. }
  destruct (Z.eqb_spec st 409) as [E3|E3].
  { unfold bind, lift_res. rewrite Htx. cbn [apply_failure ret throw]. rewrite E3. done. }
  destruct (Z.leb_spec 400 st) as [E4|E4].
  { unfold bind, lift_res. rewrite Htx. unfold ret, throw, apply_failure. rewrite (proj2 (Z.ltb_ge st 400)) by done.
    fold st. by rewrite (proj2 (Z.eqb_neq st 409) E3), (proj2 (Z.eqb_neq st 401) E1), (proj2 (Z.eqb_neq st 403) E2). }
  rewrite (proj2 (Z.ltb_lt st 400)) by done. unfold bind at 1, lift_res. rewrite Hj.
  rewrite (bind_ok _ _ _ _ _ (get_prop_obj _ _ _)). done.
Qed.
End Outcomes.

(** ** Closed instances *)

Definition ada_credential : UserCredentialDoc :=
  MkUserCredentialDoc "oid-7" "ws" "person-1" flow_base "ada" (MkEncrypted "user-token" "0" "key") None None 0 false.

(** A binding of another workspace than the user's. *)
Definition other_binding : BindingDoc := MkBindingDoc "oid-1" "other-ws" "project" 7 "group/project" "oid-0" "oid-2" None false 0 false.

Definition suggestion_state : SuggestionState list Server :=
  MkSuggestionState (MkStore [other_binding] [] [] [] []) []
    (MkAuthState [] (MkCreds [token_doc] [ada_credential] 0 8 60)
       (MkServer [(flow_base +:+ "/api/v4/suggestions/12/apply", Holds (VObj [("commit_id", VStr "c0ffee")]))] [])).

Lemma suggestion_outcome_witness :
  apply_suggestion (N := toy_crypto) auth_config ada_cookie "oid-1" "12" suggestion_state =
  (Ok (Json (MkApiResponse 200 (VObj [("applied", VBool true); ("commitSha", VStr "c0ffee")]))),
   asked suggestion_state (au_world (sg_auth suggestion_state))).
Proof.
  apply (suggestion_outcome (N := toy_crypto) (H0 := toy_http) auth_config suggestion_state ada_cookie "oid-1" "12" 12
    (MkHulyUserIdentity "ws" "person-1" 3600000) other_binding flow_base (MkUserToken "user-token" None "ada" flow_base)
    (toy_reply 200 None (VObj [("commit_id", VStr "c0ffee")])) [("commit_id", VStr "c0ffee")] ""
    (au_world (sg_auth suggestion_state))).
  - split; [vm_compute; reflexivity|reflexivity|exists "oid-0", token_doc; by split_and!|reflexivity|reflexivity].
  - reflexivity.
  - lia.
  - vm_compute. reflexivity.
  - reflexivity.
  - reflexivity.
  - done.
Defined.

(** Dismissing twice keeps one row. *)
Example dismissed_once :
  let s1 := (dismiss_suggestion (N := toy_crypto) auth_config ada_cookie "oid-1" "3" "44" suggestion_state).2 in
  let s2 := (dismiss_suggestion (N := toy_crypto) auth_config ada_cookie "oid-1" "3" "44" s1).2 in
  map ds_noteId (sg_dismissed s2) = ["44"].
Proof. vm_compute. reflexivity. Qed.
