(* ===== verification/Config.v ===== *)
(** * Configuration, logging and the service account (src/config.ts,
    src/logging.ts, src/sync/service-account-resolution.ts)

    [loadConfig] reads the environment, a map of strings; a number that does
    not parse is [NaN], [None] here.  A log line is the record that is
    printed. *)

From Stdlib Require Import Ascii.
From S2P Require Import Prelude JsMap JsString JsVal Platform Conflict Credentials Sync RateLimit Cookies.
Open Scope nat_scope.
Open Scope string_scope.
Open Scope list_scope.

Record Config := MkConfig {
  cf_Port : option Z;
  cf_PublicBaseUrl : string;
  cf_AccountsURL : string;
  cf_ServerSecret : string;
  cf_ServerSecretPrevious : option string;
  cf_ServiceID : string;
  cf_MongoUrl : string;
  cf_MongoDb : string;
  cf_GitLabBaseUrl : string;
  cf_GitLabClientId : string;
  cf_GitLabClientSecret : string;
  cf_CredentialEncryptionKey : string;
  cf_WebhookSecretSeed : string;
  cf_AllowedWorkspaces : list string;
  cf_BackfillIntervalMs : option Z;
  cf_RateLimit : option Z;
  cf_LogLevel : string;
  cf_BrandingPath : string;
  cf_OAuthRedirectUri : string;
  cf_CorsAllowedOrigins : list string;
  cf_TrustProxy : option string;
  cf_ServiceAccountPersonId : option string
}.

(** ** src/config.ts *)

Definition getEnvOrThrow (env : jsmap string string) (name : string) : res string :=
  match jget name env with Some v => Ok v | None => Throw (JsError ("Missing env variable: " +:+ name)) end.

(** [/^[0-9a-f]{8}-[0-9a-f]{4}-[0-9a-f]{4}-[0-9a-f]{4}-[0-9a-f]{12}$/i] *)
Definition is_uuid (s : string) : bool :=
  let parts := js_split "-" s in
  bool_decide (map String.length parts = [8; 4; 4; 4; 12]) && forallb all_hex parts.

(** [s !== undefined && s !== '' ? s : undefined] *)
Definition unless_empty (s : option string) : option string := match s with Some "" => None | s => s end.

Section LoadConfig.
Context {C : Cipher}.

Definition key_length (key : string) : nat := String.length (unbase64 key).

Definition account_person_id (env : jsmap string string) : res (option string) :=
  match unless_empty (jget "SERVICE_ACCOUNT_PERSON_ID" env) with
  | None => Ok None
  | Some raw =>
      if is_uuid raw then Ok (Some raw)
      else Throw (JsError "SERVICE_ACCOUNT_PERSON_ID must be a valid UUID (e.g. xxxxxxxx-xxxx-xxxx-xxxx-xxxxxxxxxxxx)")
  end.

Definition loadConfig (env : jsmap string string) : res Config :=
  let read name d := default d (jget name env) in
  let? publicBaseUrl := getEnvOrThrow env "PUBLIC_BASE_URL" in
  let? accountsUrl := getEnvOrThrow env "ACCOUNTS_URL" in
  let? serverSecret := getEnvOrThrow env "SERVER_SECRET" in
  let? mongoUrl := getEnvOrThrow env "MONGO_URL" in
  let? gitLabClientId := getEnvOrThrow env "GITLAB_CLIENT_ID" in
  let? gitLabClientSecret := getEnvOrThrow env "GITLAB_CLIENT_SECRET" in
  let? credentialEncryptionKey := getEnvOrThrow env "CREDENTIAL_ENCRYPTION_KEY" in
  let? webhookSecretSeed := getEnvOrThrow env "WEBHOOK_SECRET_SEED" in
  let allowedWorkspacesStr := read "ALLOWED_WORKSPACES" "" in
  let allowedWorkspaces :=
    if bool_decide (allowedWorkspacesStr = "") then ["*"]
    else List.filter (fun x => negb (bool_decide (x = ""))) (js_split "," allowedWorkspacesStr) in
  let corsAllowedOriginsStr := read "CORS_ALLOWED_ORIGINS" "" in
  let corsAllowedOrigins :=
    if bool_decide (corsAllowedOriginsStr = "") then []
    else List.filter (fun x => negb (bool_decide (x = ""))) (map js_trim (js_split "," corsAllowedOriginsStr)) in
  if negb (key_length credentialEncryptionKey =? 32)%nat
  then Throw (JsError ("CREDENTIAL_ENCRYPTION_KEY must decode to 32 bytes, got " +:+
                       num_to_string (Z.of_nat (key_length credentialEncryptionKey))))
  else
    let? serviceAccountPersonId := account_person_id env in
    Ok (MkConfig (parseInt (read "PORT" "3600")) publicBaseUrl accountsUrl serverSecret
          (unless_empty (jget "SERVER_SECRET_PREVIOUS" env)) (read "SERVICE_ID" "gitlab-service") mongoUrl
          (read "MONGO_DB" "huly-gitlab") (read "GITLAB_BASE_URL" "https://gitlab.com") gitLabClientId
          gitLabClientSecret credentialEncryptionKey webhookSecretSeed allowedWorkspaces
          (parseInt (read "BACKFILL_INTERVAL_MS" "300000")) (parseInt (read "RATE_LIMIT" "25"))
          (read "LOG_LEVEL" "info") (read "BRANDING_PATH" "") (publicBaseUrl +:+ "/oauth/callback")
          corsAllowedOrigins (unless_empty (jget "TRUST_PROXY" env)) serviceAccountPersonId).

Definition REQUIRED_ENV : list string :=
  ["PUBLIC_BASE_URL"; "ACCOUNTS_URL"; "SERVER_SECRET"; "MONGO_URL"; "GITLAB_CLIENT_ID"; "GITLAB_CLIENT_SECRET";
   "CREDENTIAL_ENCRYPTION_KEY"; "WEBHOOK_SECRET_SEED"].
End LoadConfig.

(** ** src/logging.ts *)

Definition levelOrder (level : string) : option nat :=
  jget level [("debug", 0); ("info", 1); ("warn", 2); ("error", 3)].

(** A comparison with [undefined] is false. *)
Definition shouldLog (currentLogLevel level : string) : bool :=
  match levelOrder level, levelOrder currentLogLevel with Some l, Some c => (c <=? l)%nat | _, _ => false end.

(** What is printed; the fields of the context replace the logger's own. *)
Definition log_line (currentLogLevel component : string) (correlationId : jsval) (ts level msg : string)
    (ctx : option record) : option record :=
  if negb (shouldLog currentLogLevel level) then None
  else Some (jset_all (default [] ctx)
    [("level", VStr level); ("ts", VStr ts); ("component", VStr component); ("correlationId", correlationId); ("msg", VStr msg)]).

(** ** src/sync/service-account-resolution.ts *)

Record ProbeClient (X : Type) := MkProbeClient {
  pb_createDoc : string -> record -> M X string;
  pb_findByRef : string -> M X (option record);
  pb_removeDoc : string -> M X unit
}.
Arguments MkProbeClient {X}.
Arguments pb_createDoc {X}.
Arguments pb_findByRef {X}.
Arguments pb_removeDoc {X}.

Inductive ResolutionPath := PathF | PathG | PathD.
Record ResolutionResult := MkResolutionResult { rr_personId : string; rr_resolved : bool; rr_path : ResolutionPath }.

Definition tryPathF (fromConfig : option string) : option string := unless_empty fromConfig.

Section Probe.
Context {X : Type} (probeClient : ProbeClient X) (now : Z).

(** The [try] once the sentinel exists; [modifiedBy] is taken as the string
    its type says. *)
Definition read_sentinel (sentinelRef : string) : M X (option string) :=
  let! doc := pb_findByRef probeClient sentinelRef in
  ret (match doc with None => None | Some doc => unless_empty (as_string (jget "modifiedBy" doc)) end).

(** [finally] removes the sentinel, whatever became of it. *)
Definition runProbe : M X (option string) := fun s =>
  match pb_createDoc probeClient "core:space:Model"
          [("_probe", VStr "service-account-resolution"); ("_probeTs", VNum now)] s with
  | (Throw _, s1) => (Ok None, s1)
  | (Ok sentinelRef, s1) =>
      let '(o, s2) := try_catch (read_sentinel sentinelRef) (fun _ => ret None) s1 in
      let '(_, s3) := try_catch (pb_removeDoc probeClient sentinelRef) (fun _ => ret tt) s2 in
      (o, s3)
  end.

(** The race with the timer: when the timer wins the probe runs on, and its
    result is dropped. *)
Definition tryPathG (timer_first : bool) : M X (option string) :=
  let! o := runProbe in ret (if timer_first then None else o).
End Probe.

Definition resolveServiceAccountPersonId {X} (configPersonId : option string) (probeClient : option (ProbeClient X))
    (pathDFallback : string) (now : Z) (timer_first : bool) : M X ResolutionResult :=
  match tryPathF configPersonId with
  | Some p => ret (MkResolutionResult p true PathF)
  | None =>
      let! pathG := match probeClient with Some c => tryPathG c now timer_first | None => ret None end in
      ret (match pathG with
           | Some p => MkResolutionResult p true PathG
           | None => MkResolutionResult pathDFallback false PathD
           end)
  end.

(** ** What loading guarantees *)

Section ConfigLaws.
Context {C : Cipher}.

Lemma getEnv_ok env name v : getEnvOrThrow env name = Ok v <-> jget name env = Some v.
Proof. unfold getEnvOrThrow. destruct (jget name env); split; congruence. Qed.

Lemma res_bind_ok {A B} (r : res A) (k : A -> res B) b :
  res_bind r k = Ok b <-> exists a, r = Ok a /\ k a = Ok b.
Proof. destruct r; cbn; split; [by eauto|by intros (? & [= <-] & ?)|done|by intros (? & ? & ?)]. Qed.

(** The configuration loads exactly when every required variable is set, the
    key decodes to 32 bytes and the person, if named, is a UUID; secrets
    and addresses are then the variables' values. *)
Theorem config_loaded env :
  (exists c, loadConfig env = Ok c) <->
  (forall name, name ∈ REQUIRED_ENV -> is_Some (jget name env)) /\
  (forall key, jget "CREDENTIAL_ENCRYPTION_KEY" env = Some key -> key_length key = 32) /\
  (forall p, jget "SERVICE_ACCOUNT_PERSON_ID" env = Some p -> p = "" \/ is_uuid p = true).
Proof.
  unfold loadConfig. cbv zeta. split.
  - intros [c Hc]. do 8 (apply res_bind_ok in Hc as (?v & ?E%getEnv_ok & Hc)).
    destruct (Nat.eqb_spec (key_length v5) 32) as [Hk|]; [|done]. cbn [negb] in Hc.
    apply res_bind_ok in Hc as (p & Hp & _). split_and!.
    + intros name Hin. unfold REQUIRED_ENV in Hin.
      repeat (apply elem_of_cons in Hin as [-> |Hin]; [by eexists|]). by apply elem_of_nil in Hin.
    + intros key Hkey. congruence.
    + intros q Hq. unfold account_person_id in Hp. rewrite Hq in Hp. destruct q as [|a q]; [by left|right].
      cbn [unless_empty] in Hp. by destruct (is_uuid (String a q)).
  - intros (Hreq & Hkey & Hp).
    assert (forall name, name ∈ REQUIRED_ENV -> exists v, getEnvOrThrow env name = Ok v) as Hget.
    { intros name Hin. destruct (Hreq name Hin) as [v Hv]. exists v. by apply getEnv_ok. }
    destruct (Hget "PUBLIC_BASE_URL") as [? ->]; [set_solver|]. destruct (Hget "ACCOUNTS_URL") as [? ->]; [set_solver|].
    destruct (Hget "SERVER_SECRET") as [? ->]; [set_solver|]. destruct (Hget "MONGO_URL") as [? ->]; [set_solver|].
    destruct (Hget "GITLAB_CLIENT_ID") as [? ->]; [set_solver|].
    destruct (Hget "GITLAB_CLIENT_SECRET") as [? ->]; [set_solver|].
    destruct (Hget "CREDENTIAL_ENCRYPTION_KEY") as [key Ekey]; [set_solver|].
    destruct (Hget "WEBHOOK_SECRET_SEED") as [? ->]; [set_solver|].
    rewrite Ekey. apply getEnv_ok in Ekey. cbn [res_bind]. rewrite (Hkey key Ekey). cbn [Nat.eqb negb].
    assert (exists p, account_person_id env = Ok p) as [p ->].
    { unfold account_person_id. destruct (jget "SERVICE_ACCOUNT_PERSON_ID" env) as [[|a q]|] eqn:E; [by eexists| |by eexists].
      cbn [unless_empty]. destruct (Hp _ eq_refl) as [?| ->]; [done|by eexists]. }
    by eexists.
Qed.

(** A LOG_LEVEL that is none of the four names is accepted and silences
    every logger, errors included. *)
Theorem unknown_level_silent env c component correlationId ts level msg ctx :
  loadConfig env = Ok c -> levelOrder (default "info" (jget "LOG_LEVEL" env)) = None ->
  log_line (cf_LogLevel c) component correlationId ts level msg ctx = None.
Proof.
  unfold loadConfig. cbv zeta. intros Hc Hl. do 8 (apply res_bind_ok in Hc as (?v & ?E & Hc)).
  destruct (negb _); [done|]. apply res_bind_ok in Hc as (p & _ & [= <-]). cbn [cf_LogLevel].
  unfold log_line, shouldLog. rewrite Hl. by destruct (levelOrder level).
Qed.
End ConfigLaws.

(** The resolution never fails: a configured id comes first, then an answer
    of the probe in time, then the fallback, which alone is unresolved. *)
Theorem resolution_order {X} configPersonId (probeClient : option (ProbeClient X)) fallback now timer_first s :
  exists r s', resolveServiceAccountPersonId configPersonId probeClient fallback now timer_first s = (Ok r, s') /\
    (rr_resolved r = false <-> rr_path r = PathD) /\ (rr_path r = PathD -> rr_personId r = fallback) /\
    (rr_path r = PathF <-> exists p, configPersonId = Some p /\ p <> "").
Proof.
  unfold resolveServiceAccountPersonId, tryPathF. destruct configPersonId as [[|a p]|]; cbn [unless_empty].
  2: { do 2 eexists. split; [done|]. split_and!; try done. split; [|done]. by intros _; eexists. }
  all: assert (forall st, exists o st', match probeClient with Some c => tryPathG c now timer_first | None => ret None end st = (Ok o, st')) as Hg
    by (intros st; destruct probeClient as [c|]; [|by do 2 eexists]; unfold tryPathG, runProbe, bind;
        destruct (pb_createDoc c _ _ st) as [[ref|e] s1]; [|by do 2 eexists];
        assert (exists o s2, try_catch (read_sentinel c ref) (fun _ => ret None) s1 = (Ok o, s2)) as (o & s2 & ->)
          by (unfold try_catch; destruct (read_sentinel c ref s1) as [[o|e] s2]; by do 2 eexists);
        destruct (try_catch (pb_removeDoc c ref) _ s2); by do 2 eexists).
  all: destruct (Hg s) as (o & s' & E); rewrite (bind_ok _ _ _ _ _ E); destruct o as [q|]; do 2 eexists;
    (split; [done|]); split_and!; try done; split; try done.
  all: by intros (p & [= <-] & ?) || by intros (p & [=] & ?).
Qed.

Example toy_env_uuid :
  (is_uuid "0123abcd-0123-ABCD-0123-0123456789ab", is_uuid "0123abcd-0123-ABCD-0123-0123456789a") = (true, false).
Proof. reflexivity. Qed.
