(* ===== verification/Iterations.v ===== *)
(** * The cache of iterations (src/sync/iterations.ts)

    A group's iterations are listed once in five minutes and looked up by
    their ids.  The client's listing and the clock are parameters over an
    abstract state; an iteration is the adapter's record. *)

From S2P Require Import Prelude JsMap JsString JsVal Platform Conflict Sync.
Open Scope nat_scope.
Open Scope string_scope.
Open Scope list_scope.

Record IterationCacheEntry := MkIterationCacheEntry {
  ie_byId : jsmap string record;
  ie_byTitle : jsmap string record;
  ie_cachedAt : Z
}.

Definition ITERATIONS_TTL_MS : Z := 5 * 60 * 1000.

(** [it.id] and [it.title], strings by their types. *)
Definition iteration_text (k : string) (it : record) : string := js_String (prop_of it k).

Record IterationState (X : Type) := MkIterationState { is_cache : jsmap string IterationCacheEntry; is_world : X }.
Arguments MkIterationState {X}.
Arguments is_cache {X}.
Arguments is_world {X}.

Section Iterations.
Context {X : Type} (date_now : M X Z) (listIterations : Z -> M X (list record)) (ttlMs : Z).
Abbreviation MI := (M (IterationState X)).

Definition on_client {A} : M X A -> MI A := zoom is_world (fun x s => MkIterationState (is_cache s) x).

Definition iteration_key (gitlabBaseUrl : string) (topGroupId : Z) : string :=
  gitlabBaseUrl +:+ ":" +:+ num_to_string topGroupId.

Definition index_by (k : string) (iterations : list record) : jsmap string record :=
  fold_left (fun m it => jset (iteration_text k it) it m) iterations [].

(** The entry, when there is a fresh one; the clock is read only for an entry. *)
Definition fresh_entry (key : string) : MI (option IterationCacheEntry) :=
  let! entry := gets (fun s => jget key (is_cache s)) in
  match entry with
  | None => ret None
  | Some e =>
      let! now := on_client date_now in
      ret (if (now - ie_cachedAt e <? ttlMs)%Z then Some e else None)
  end.

(** A miss: the listing, kept under the key. *)
Definition load_iterations (key : string) (topGroupId : Z) : MI (list record) :=
  let! iterations := on_client (listIterations topGroupId) in
  let! now := on_client date_now in
  modify (fun s => MkIterationState
    (jset key (MkIterationCacheEntry (index_by "id" iterations) (index_by "title" iterations) now) (is_cache s)) (is_world s)) ;;!
  ret iterations.

Definition iterations_list (gitlabBaseUrl : string) (topGroupId : Z) : MI (list record) :=
  let key := iteration_key gitlabBaseUrl topGroupId in
  let! entry := fresh_entry key in
  match entry with
  | Some e => ret (map snd (ie_byId e))
  | None => load_iterations key topGroupId
  end.

Definition iterations_getById (gitlabBaseUrl : string) (topGroupId : Z) (id : string) : MI (option record) :=
  let key := iteration_key gitlabBaseUrl topGroupId in
  let! entry := fresh_entry key in
  match entry with
  | Some e => ret (jget id (ie_byId e))
  | None =>
      iterations_list gitlabBaseUrl topGroupId ;;!
      gets (fun s => match jget key (is_cache s) with Some e => jget id (ie_byId e) | None => None end)
  end.

Definition iterations_invalidate (target : option (string * Z)) : MI unit :=
  modify (fun s => MkIterationState
    (match target with Some (url, gid) => jdelete (iteration_key url gid) (is_cache s) | None => [] end) (is_world s)).

(** ** One listing serves the group *)

Implicit Types s : IterationState X.

(** The entry of the key is the listing [l] taken at [t]. *)
Definition caches s (key : string) (l : list record) (t : Z) : Prop :=
  jget key (is_cache s) = Some (MkIterationCacheEntry (index_by "id" l) (index_by "title" l) t).

Lemma load_caches key gid s l s' :
  load_iterations key gid s = (Ok l, s') -> exists t, caches s' key l t.
Proof.
  unfold load_iterations, bind, on_client, zoom, modify, ret.
  destruct (listIterations gid (is_world s)) as [[l'|] x]; [|done]. cbn [is_world].
  destruct (date_now x) as [[t|] x']; [|done]. intros [= <- <-]. exists t. unfold caches. cbn. by rewrite jget_set_eq.
Qed.

(** After a listing every look-up of the group within the time to live is
    answered from it, by the last iteration with that id, without a request;
    the cache does not change. *)
Theorem iteration_lookup url gid id s l t now x :
  caches s (iteration_key url gid) l t -> date_now (is_world s) = (Ok now, x) -> (now - t < ttlMs)%Z ->
  iterations_getById url gid id s = (Ok (jget id (index_by "id" l)), MkIterationState (is_cache s) x) /\
  iterations_list url gid s = (Ok (map snd (index_by "id" l)), MkIterationState (is_cache s) x).
Proof.
  intros Hc Hn Ht. assert (fresh_entry (iteration_key url gid) s =
    (Ok (Some (MkIterationCacheEntry (index_by "id" l) (index_by "title" l) t)), MkIterationState (is_cache s) x)) as E.
  { unfold fresh_entry, bind, gets. rewrite Hc. unfold on_client, zoom. rewrite Hn. cbn [ie_cachedAt ret].
    by rewrite (proj2 (Z.ltb_lt _ _) Ht). }
  split; [unfold iterations_getById|unfold iterations_list]; by rewrite (bind_ok _ _ _ _ _ E).
Qed.
End Iterations.
