(* ===== verification/ManagersQuiet.v ===== *)
(** * What the managers leave alone

    The contract of the engine with its managers ([Engine.quiet]) asks that
    a manager touch neither the dedup nor the inflight collection.  Here it
    is proved of the six managers of src/src/sync: whatever operation runs,
    on whatever record, whether it returns or throws; and, along with it,
    that a manager reaches what its dependencies close over only through
    them: a property [J] of that state holds on as long as the dependencies
    keep it, the enqueuer when called for one of the [sync_kinds]. *)

From S2P Require Import Prelude JsMap JsString JsVal Metrics Platform Conflict Mongo Store Ids.
From S2P Require Import StatusMap Huly Caches Engine Sync FieldSync.
From S2P Require Import Issues MergeRequests Notes Reviews Epics Pipeline.
Open Scope string_scope.
Open Scope list_scope.

(** ** Frames *)

Section Frames.
Context {S : Type} (I : S -> Prop).

Lemma preserves_lift_res {A} (r : res A) : preserves I (lift_res r).
Proof. by intros s. Qed.

Lemma preserves_type_error {A} : preserves I (type_error (A := A)).
Proof. apply preserves_throw. Qed.

Lemma preserves_get_prop v k : preserves I (get_prop v k).
Proof. intros s. unfold get_prop. by destruct (js_get v k). Qed.

Lemma preserves_call_getTime v : preserves I (call_getTime v).
Proof. intros s. unfold call_getTime. by destruct v. Qed.

Lemma preserves_iterate v : preserves I (iterate v).
Proof. intros s. unfold iterate. by destruct (js_iter v). Qed.
End Frames.

Create HintDb quiet discriminated.
#[export] Hint Resolve preserves_ret preserves_throw preserves_gets preserves_lift_res
  preserves_type_error preserves_call_getTime preserves_get_prop preserves_iterate : quiet.

(** Take a computation apart: its binds, loops and handlers, then the cases
    its shape depends on, then the definition at its head. *)
Ltac quiet_head m := match m with ?f _ => quiet_head f | _ => m end.

Ltac quiet_step :=
  lazymatch goal with
  | |- preserves _ (ret _) => apply preserves_ret
  | |- preserves _ (throw _) => apply preserves_throw
  | |- preserves _ (bind _ _) => apply preserves_bind; [|intros ?]
  | |- preserves _ (try_catch _ _) => apply preserves_try_catch; [|intros ?]
  | |- preserves _ (finally _ _) => apply preserves_finally
  | |- preserves _ (forM_ _ _) => apply preserves_forM_; intros ?
  | |- preserves _ (mapM_js _ _) => apply preserves_mapM_js; intros ?
  | |- preserves _ (when _ _) => apply preserves_when
  | |- preserves _ (match ?x with _ => _ end) => destruct x
  | |- preserves _ (let x := _ in _) => cbv zeta
  end.

Ltac quiet_tac := repeat (first [solve [auto with quiet] | quiet_step]).

(** ** The world of the managers *)

Section World.
Context {Coll : Type -> Type} `{Mongo Coll} {P : Platform} {HU GL AC : Type}.
Abbreviation X := (SyncState HU GL AC).
Abbreviation MM := (M (Store Coll * X)).
Context (d : Coll DedupDoc) (i : Coll InflightDoc) (J : AC -> Prop).

(** The engine's two collections of a store. *)
Definition engine_side (s : Store Coll) : Prop := dedup s = d /\ inflight s = i.

Definition side (s : Store Coll * X) : Prop := engine_side s.1 /\ J (sy_accounts s.2).

Abbreviation quietly := (preserves side).

Lemma quiet_on_state {T B} (get : X -> T) set (m : M T B) :
  (forall t x, sy_accounts (set t x) = sy_accounts x) -> quietly (on_state get set m).
Proof.
  intros Hset s [Hs HJ]. unfold on_state, zoom. destruct (m (get s.2)). split; [done|].
  cbn. by rewrite Hset.
Qed.

Lemma quiet_on_db {B} (m : M (Store Coll) B) : preserves engine_side m -> quietly (on_db m).
Proof.
  intros Hm s [Hs HJ]. specialize (Hm s.1 Hs). unfold on_db, zoom. by destruct (m s.1).
Qed.

Lemma quiet_date_now : quietly date_now.
Proof. by intros s Hs. Qed.

Lemma quiet_users f : quietly (modify (fun s => (s.1, set_users (f s) s.2))).
Proof. by intros s Hs. Qed.

Lemma quiet_count name : quietly (count name).
Proof. by intros s Hs. Qed.

Lemma quiet_findByGitlab w k g : preserves engine_side (findByGitlab (Coll := Coll) w k g).
Proof. by intros s Hs. Qed.

Lemma quiet_findByHuly w c r : preserves engine_side (findByHuly (Coll := Coll) w c r).
Proof. by intros s Hs. Qed.

Lemma quiet_upsertIdMap w k g c r : preserves engine_side (upsertIdMap (Coll := Coll) w k g c r).
Proof. intros s Hs. unfold upsertIdMap, dup_key_or. by destruct (upsertOne _ _ _ _). Qed.

Lemma quiet_setCursor b k t : preserves engine_side (setCursor (Coll := Coll) b k t).
Proof. intros s Hs. unfold setCursor, dup_key_or. by destruct (upsertOne _ _ _ _). Qed.

Lemma quiet_getCursor b k : preserves engine_side (getCursor (Coll := Coll) b k).
Proof. by intros s Hs. Qed.

Lemma quiet_getBinding id : preserves engine_side (getBinding (Coll := Coll) id).
Proof. intros s Hs. unfold getBinding, with_object_id. by destruct (newObjectId id). Qed.
End World.

#[export] Hint Resolve quiet_on_db quiet_users quiet_date_now quiet_count quiet_findByGitlab quiet_findByHuly
  quiet_upsertIdMap quiet_setCursor quiet_getCursor quiet_getBinding : quiet.
#[export] Hint Extern 1 (preserves _ (on_huly _)) => apply quiet_on_state; reflexivity : quiet.
#[export] Hint Extern 1 (preserves _ (on_gitlab _)) => apply quiet_on_state; reflexivity : quiet.
#[export] Hint Extern 1 (preserves _ (on_statuses _)) => apply quiet_on_state; reflexivity : quiet.
#[export] Hint Extern 1 (preserves _ (on_label_tags _)) => apply quiet_on_state; reflexivity : quiet.
#[export] Hint Extern 1 (preserves _ (on_label_remote _)) => apply quiet_on_state; reflexivity : quiet.
#[export] Hint Extern 1 (preserves _ (on_milestone_local _)) => apply quiet_on_state; reflexivity : quiet.
#[export] Hint Extern 1 (preserves _ (on_milestone_remote _)) => apply quiet_on_state; reflexivity : quiet.

(** ** Users *)

(** The account service keeps [J]. *)
Class AccountsKeep {AC : Type} `{AccountClient AC} (J : AC -> Prop) : Prop :=
  accounts_keep : forall k, preserves J (findPersonBySocialKey k).

Section Users.
Context {Coll : Type -> Type} `{Mongo Coll} {P : Platform} {HU GL AC : Type} `{AccountClient AC}.
Context (d : Coll DedupDoc) (i : Coll InflightDoc) (J : AC -> Prop) `{!AccountsKeep J}.
Abbreviation quietly := (preserves (side (HU := HU) (GL := GL) (AC := AC) d i J)).

Lemma quiet_on_accounts k : quietly (on_accounts (findPersonBySocialKey k)).
Proof.
  intros s [Hs HJ]. unfold on_accounts, on_state, zoom. pose proof (accounts_keep k _ HJ) as Hk.
  by destruct (findPersonBySocialKey k (sy_accounts s.2)).
Qed.

Hint Resolve quiet_on_accounts : quiet.

Lemma quiet_lookupCached k : quietly (lookupCached k).
Proof. unfold lookupCached. quiet_tac. Qed.

Hint Resolve quiet_lookupCached : quiet.

Lemma quiet_mapByGitlabUser u : quietly (mapByGitlabUser u).
Proof. unfold mapByGitlabUser, mapByEmail. quiet_tac. Qed.

Lemma quiet_ensureStubGuest w u : quietly (ensureStubGuest w u).
Proof. unfold ensureStubGuest, getIdMap, putIdMap. quiet_tac. Qed.

Lemma quiet_identity_of v : quietly (identity_of v).
Proof. unfold identity_of. quiet_tac. Qed.

Hint Resolve quiet_mapByGitlabUser quiet_ensureStubGuest quiet_identity_of : quiet.

Lemma quiet_resolve_user bctx u : quietly (resolve_user bctx u).
Proof. unfold resolve_user. quiet_tac. Qed.
End Users.

#[export] Hint Resolve quiet_mapByGitlabUser quiet_ensureStubGuest quiet_identity_of
  quiet_resolve_user : quiet.

(** ** Dependencies *)

(** The kinds the program has a manager for. *)
Definition sync_kinds : list string :=
  ["issue"; "note"; "merge_request"; "pipeline"; "review"; "epic"].

Section Deps.
Context {Coll : Type -> Type} {HU GL AC : Type}.
Context (d : Coll DedupDoc) (i : Coll InflightDoc) (J : AC -> Prop).
Abbreviation quietly := (preserves (side (HU := HU) (GL := GL) (AC := AC) d i J)).

Definition quiet_mirror (o : option (MirrorDeps (Store Coll * SyncState HU GL AC))) : Prop :=
  forall m, o = Some m ->
    (forall b u p, quietly (mirrorBodyGitlabToHuly m b u p)) /\
    (forall b n, quietly (mirrorBodyHulyToGitlab m b n)).

Definition quiet_enqueuer (o : option (string -> string -> record -> string -> string ->
    M (Store Coll * SyncState HU GL AC) unit)) : Prop :=
  forall f, o = Some f -> forall b k r e v, k ∈ sync_kinds -> quietly (f b k r e v).

End Deps.

#[export] Hint Extern 1 (_ ∈ sync_kinds) => unfold sync_kinds; set_solver : quiet.

(** ** The issues manager *)

Section Issues.
Context {Coll : Type -> Type} `{Mongo Coll} {P : Platform} `{Sha256} `{Markdown} `{FastEquals}.
Context {HU GL AC : Type} `{HulyClient HU} `{IssueGitLabClient GL} `{LabelGitLabClient GL}
  `{MilestoneGitLabClient GL} `{AccountClient AC}.
Context (d : Coll DedupDoc) (i : Coll InflightDoc) (J : AC -> Prop) `{!AccountsKeep J}.
Abbreviation quietly := (preserves (side (HU := HU) (GL := GL) (AC := AC) d i J)).
Context (deps : IssuesSyncManagerDeps (Coll := Coll) (HU := HU) (GL := GL) (AC := AC)).

Record issues_deps_quiet : Prop := {
  iq_load : forall b, quietly (is_loadBinding deps b);
  iq_enqueuer : quiet_enqueuer d i J (is_enqueuer deps);
  iq_backfill : quiet_enqueuer d i J (is_backfillEnqueuer deps);
  iq_mirror : quiet_mirror d i J (is_mirrorDeps deps)
}.

Context (Hq : issues_deps_quiet).

Lemma quiet_enqueueRecord b k r e v : k ∈ sync_kinds -> quietly (enqueueRecord deps b k r e v).
Proof.
  intros Hk. unfold enqueueRecord. destruct (is_backfillEnqueuer deps) eqn:E1; [by eapply iq_backfill|].
  destruct (is_enqueuer deps) eqn:E2; [by eapply iq_enqueuer|]. quiet_tac.
Qed.

Lemma quiet_issue_applyRemote ctx b r : quietly (issue_applyRemote deps ctx b r).
Proof.
  destruct Hq as [Hl _ _ Hm]. unfold issue_applyRemote, resolveRemote, remote_description,
    resolveAssignee, resolveLocalLabels, resolveMilestone, create_issue, update_issue.
  destruct (is_mirrorDeps deps) as [m|]; [destruct (Hm m eq_refl)|]; quiet_tac.
Qed.

Lemma quiet_issue_applyLocal ctx b doc c : quietly (issue_applyLocal deps ctx b doc c).
Proof.
  destruct Hq as [Hl _ _ Hm]. unfold issue_applyLocal, if_defined, local_milestone_id, state_event,
    local_description, ensureRemoteLabels.
  destruct (is_mirrorDeps deps) as [m|]; [destruct (Hm m eq_refl)|]; quiet_tac.
Qed.

Lemma quiet_issue_backfill ctx b since : quietly (issue_backfill deps ctx b since).
Proof.
  pose proof quiet_enqueueRecord. destruct Hq as [Hl _ _ _]. unfold issue_backfill, iso_string. quiet_tac.
Qed.
End Issues.

(** ** The merge-request manager *)

Section MergeRequests.
Context {Coll : Type -> Type} `{Mongo Coll} {P : Platform} `{Sha256} `{Markdown} `{FastEquals}.
Context {HU GL AC : Type} `{HulyClient HU} `{MRGitLabClient GL} `{LabelGitLabClient GL}
  `{MilestoneGitLabClient GL} `{AccountClient AC}.
Context (d : Coll DedupDoc) (i : Coll InflightDoc) (J : AC -> Prop) `{!AccountsKeep J}.
Abbreviation quietly := (preserves (side (HU := HU) (GL := GL) (AC := AC) d i J)).
Context (deps : MergeRequestsSyncManagerDeps (Coll := Coll) (HU := HU) (GL := GL) (AC := AC)).

Record mr_deps_quiet : Prop := {
  mq_load : forall b, quietly (mr_loadBinding deps b);
  mq_enqueuer : quiet_enqueuer d i J (mr_enqueuer deps);
  mq_backfill : quiet_enqueuer d i J (mr_backfillEnqueuer deps);
  mq_credentials : forall w p, quietly (mr_credentials deps w p)
}.

Context (Hq : mr_deps_quiet).

Lemma quiet_mr_enqueueRecord b k r e v : k ∈ sync_kinds -> quietly (mr_enqueueRecord deps b k r e v).
Proof.
  intros Hk. unfold mr_enqueueRecord. destruct (mr_backfillEnqueuer deps) eqn:E1; [by eapply mq_backfill|].
  destruct (mr_enqueuer deps) eqn:E2; [by eapply mq_enqueuer|]. quiet_tac.
Qed.

Lemma quiet_mr_applyRemote ctx b r : quietly (mr_applyRemote deps ctx b r).
Proof.
  destruct Hq as [Hl _ _ _]. unfold mr_applyRemote, resolveMR, mr_resolveAssignee,
    resolveReviewerUuids, mr_resolveLocalLabels, mr_resolveMilestone, create_mr, update_mr,
    resolve_approvedBy. quiet_tac.
Qed.

Lemma quiet_invokeApprovalAction bctx ref iid p k :
  quietly (invokeApprovalAction deps bctx ref iid p k).
Proof.
  destruct Hq as [_ _ _ Hc]. unfold invokeApprovalAction, approval_call, postFailureComment,
    postVisibilityComment, post_comment. quiet_tac.
Qed.

Hint Resolve quiet_invokeApprovalAction : quiet.

Lemma quiet_mr_applyLocal ctx b doc c : quietly (mr_applyLocal deps ctx b doc c).
Proof.
  pose proof Hq as [Hl _ _ _]. unfold mr_applyLocal, applyApprovalActions, array_of, if_defined,
    local_milestone_id, mr_local_description, mr_ensureRemoteLabels. quiet_tac.
Qed.

Lemma quiet_mr_backfill ctx b since : quietly (mr_backfill deps ctx b since).
Proof.
  pose proof quiet_mr_enqueueRecord. destruct Hq as [Hl _ _ _].
  unfold mr_backfill, iso_string, to_iso. quiet_tac.
Qed.
End MergeRequests.

(** ** The notes and review managers *)

Section Notes.
Context {Coll : Type -> Type} `{Mongo Coll} {P : Platform} `{Sha256} `{Markdown}.
Context {HU GL AC : Type} `{HulyClient HU} `{IssueGitLabClient GL} `{MRGitLabClient GL}
  `{NoteGitLabClient GL} `{AccountClient AC}.
Context (d : Coll DedupDoc) (i : Coll InflightDoc) (J : AC -> Prop) `{!AccountsKeep J}.
Abbreviation quietly := (preserves (side (HU := HU) (GL := GL) (AC := AC) d i J)).
Context (deps : NotesSyncManagerDeps (Coll := Coll) (HU := HU) (GL := GL) (AC := AC)).

Record notes_deps_quiet : Prop := {
  nq_load : forall b, quietly (nt_loadBinding deps b);
  nq_enqueuer : quiet_enqueuer d i J (nt_enqueuer deps);
  nq_backfill : quiet_enqueuer d i J (nt_backfillEnqueuer deps);
  nq_mirror : quiet_mirror d i J (nt_mirrorDeps deps)
}.

Context (Hq : notes_deps_quiet).

Lemma quiet_nt_enqueueRecord b k r e v : k ∈ sync_kinds -> quietly (nt_enqueueRecord deps b k r e v).
Proof.
  intros Hk. unfold nt_enqueueRecord. destruct (nt_backfillEnqueuer deps) eqn:E1; [by eapply nq_backfill|].
  destruct (nt_enqueuer deps) eqn:E2; [by eapply nq_enqueuer|]. quiet_tac.
Qed.

Lemma quiet_note_markup bctx note : quietly (note_markup deps bctx note).
Proof.
  destruct Hq as [_ _ _ Hm]. unfold note_markup.
  destruct (nt_mirrorDeps deps) as [m|]; [destruct (Hm m eq_refl)|]; quiet_tac.
Qed.

Lemma quiet_nt_applyRemote ctx b r : quietly (nt_applyRemote deps ctx b r).
Proof.
  pose proof quiet_nt_enqueueRecord. pose proof quiet_note_markup. destruct Hq as [Hl _ _ _].
  unfold nt_applyRemote, parseWebhookPayload, string_or_now, route_review, apply_note, note_parent,
    mirror_note, note_fields. quiet_tac.
Qed.

Lemma quiet_local_note_body bctx m : quietly (local_note_body deps bctx m).
Proof.
  destruct Hq as [_ _ _ Hm]. unfold local_note_body.
  destruct (nt_mirrorDeps deps) as [md|]; [destruct (Hm md eq_refl)|]; quiet_tac.
Qed.

Lemma quiet_nt_applyLocal ctx b doc c : quietly (nt_applyLocal deps ctx b doc c).
Proof.
  pose proof quiet_local_note_body. destruct Hq as [Hl _ _ _].
  unfold nt_applyLocal, resolve_parent, create_remote_note, change_remote_note, touch_notes. quiet_tac.
Qed.

Lemma quiet_nt_backfill ctx b since : quietly (nt_backfill deps ctx b since).
Proof.
  pose proof quiet_nt_enqueueRecord. destruct Hq as [Hl _ _ _].
  unfold nt_backfill, backfill_notes, iso_string. quiet_tac.
Qed.
End Notes.

Section Reviews.
Context {Coll : Type -> Type} `{Mongo Coll} {P : Platform} `{Sha256} `{Markdown}.
Context {HU GL AC : Type} `{HulyClient HU} `{MRGitLabClient GL} `{MRReviewGitLabClient GL}
  `{AccountClient AC}.
Context (d : Coll DedupDoc) (i : Coll InflightDoc) (J : AC -> Prop) `{!AccountsKeep J}.
Abbreviation quietly := (preserves (side (HU := HU) (GL := GL) (AC := AC) d i J)).
Context (deps : ReviewThreadsSyncManagerDeps (Coll := Coll) (HU := HU) (GL := GL) (AC := AC)).

Record review_deps_quiet : Prop := {
  vq_load : forall b, quietly (rv_loadBinding deps b);
  vq_enqueuer : quiet_enqueuer d i J (rv_enqueuer deps);
  vq_backfill : quiet_enqueuer d i J (rv_backfillEnqueuer deps)
}.

Context (Hq : review_deps_quiet).

Lemma quiet_rv_enqueueRecord b k r e v : k ∈ sync_kinds -> quietly (rv_enqueueRecord deps b k r e v).
Proof.
  intros Hk. unfold rv_enqueueRecord. destruct (rv_backfillEnqueuer deps) eqn:E1; [by eapply vq_backfill|].
  destruct (rv_enqueuer deps) eqn:E2; [by eapply vq_enqueuer|]. quiet_tac.
Qed.

Lemma quiet_mirror_thread_note bctx r issueRef by_ at_ root x :
  quietly (mirror_thread_note bctx r issueRef by_ at_ root x).
Proof. unfold mirror_thread_note, create_message, update_message, note_fields. quiet_tac. Qed.

Lemma quiet_rv_applyRemote ctx b r : quietly (rv_applyRemote deps ctx b r).
Proof.
  pose proof quiet_rv_enqueueRecord. pose proof quiet_mirror_thread_note. destruct Hq as [Hl _ _].
  unfold rv_applyRemote, defer_thread, mirror_thread, root_note_id, resolvePerson, to_iso. quiet_tac.
Qed.

Lemma quiet_rv_applyLocal ctx b doc c : quietly (rv_applyLocal deps ctx b doc c).
Proof. destruct Hq as [Hl _ _]. unfold rv_applyLocal. quiet_tac. Qed.

Lemma quiet_rv_backfill ctx b since : quietly (rv_backfill deps ctx b since).
Proof.
  pose proof quiet_rv_enqueueRecord. destruct Hq as [Hl _ _]. unfold rv_backfill, to_iso. quiet_tac.
Qed.
End Reviews.

(** ** The epics and pipeline managers *)

Section Epics.
Context {Coll : Type -> Type} `{Mongo Coll} {P : Platform} `{Sha256} `{Markdown}.
Context {HU GL AC : Type} `{HulyClient HU} `{EpicGitLabClient GL}.
Context (d : Coll DedupDoc) (i : Coll InflightDoc) (J : AC -> Prop).
Abbreviation quietly := (preserves (side (HU := HU) (GL := GL) (AC := AC) d i J)).
Context (deps : EpicsSyncManagerDeps (Coll := Coll) (HU := HU) (GL := GL) (AC := AC)).

Record epic_deps_quiet : Prop := {
  eq_load : forall b, quietly (ep_loadBinding deps b);
  eq_enqueuer : quiet_enqueuer d i J (ep_enqueuer deps);
  eq_backfill : quiet_enqueuer d i J (ep_backfillEnqueuer deps)
}.

Context (Hq : epic_deps_quiet).

Lemma quiet_ep_enqueueRecord b k r e v : k ∈ sync_kinds -> quietly (ep_enqueueRecord deps b k r e v).
Proof.
  intros Hk. unfold ep_enqueueRecord. destruct (ep_backfillEnqueuer deps) eqn:E1; [by eapply eq_backfill|].
  destruct (ep_enqueuer deps) eqn:E2; [by eapply eq_enqueuer|]. quiet_tac.
Qed.

Lemma quiet_ep_applyRemote ctx b r : quietly (ep_applyRemote deps ctx b r).
Proof.
  destruct Hq as [Hl _ _]. unfold ep_applyRemote, create_epic, update_epic, propagate_children,
    propagate_child, set_parent. quiet_tac.
Qed.

Lemma quiet_ep_backfill ctx b since : quietly (ep_backfill deps ctx b since).
Proof.
  pose proof quiet_ep_enqueueRecord. destruct Hq as [Hl _ _]. unfold ep_backfill, to_iso. quiet_tac.
Qed.

Context (pdeps : PipelineSyncManagerDeps (Coll := Coll) (HU := HU) (GL := GL) (AC := AC)).

Lemma quiet_pl_applyRemote ctx b r :
  (forall b, quietly (pl_loadBinding pdeps b)) -> quietly (pl_applyRemote pdeps ctx b r).
Proof. intros Hl. unfold pl_applyRemote. quiet_tac. Qed.
End Epics.
