(* ===== verification/System.v ===== *)
(** * The composed program (src/src/index.ts)

    [main] of index.ts builds the sync engine, the binding loader, the six
    managers and the transaction subscribers and connects them.  Here the
    definitions of those components are connected the same way: the engine's
    state [Engine] carries, besides the store, the managers' world
    ([SyncState]), whose dependencies close over the rest of the process
    ([Services]): the account client, the credentials, the loader's registry
    and the subscribers.

    What a running handler gives back to the engine ([backfillEnqueuer], the
    local events of the subscribers) is collected in [pod_engine] and
    enqueued at the end of the step ([deliver_handed]); a step of the program
    ([sys_step]) is a webhook request, a batch of transactions, a sweep of
    the scheduler, the processing of a queue item, or a restart. *)

From S2P Require Import Prelude JsMap JsString JsVal Metrics Platform Conflict Breaker Queue.
From S2P Require Import Mongo Store Credentials Ids StatusMap Huly Caches Engine Sync BindingLoader.
From S2P Require Import TxSubscriber FieldSync Issues MergeRequests Notes Reviews Epics Pipeline.
From S2P Require Import Backfill Webhook ManagersQuiet.
Open Scope nat_scope.
Open Scope string_scope.
Open Scope list_scope.

(** ** What handlers hand to the engine *)

Inductive Handed :=
  | HandedRemote (binding kind : string) (r : record) (eventId version : string)
  | HandedLocal (binding kind doc : string) (change : record).

Definition handed_kind (h : Handed) : string :=
  match h with HandedRemote _ k _ _ _ | HandedLocal _ k _ _ => k end.

#[export] Instance handed_queue : LocalQueue (list Handed) := {
  enqueue_local b k doc c := modify (fun l => l ++ [HandedLocal b k doc c]);
  enqueue_local_ok b k doc c e := ex_intro _ _ eq_refl
}.

(** ** The rest of the process *)

(** The loader's outside: the platform, and the subscribers its hooks
    start and stop. *)
Record Outside (W : Type) := MkOutside { os_platform : W; os_pod : Pod (list Handed) }.
Arguments MkOutside {W}.
Arguments os_platform {W}.
Arguments os_pod {W}.

Record Services (Coll : Type -> Type) (A W : Type) := MkServices {
  sv_accounts : A;
  sv_creds : Creds Coll;
  sv_loader : Loader;
  sv_outside : Outside W
}.
Arguments MkServices {Coll A W}.
Arguments sv_accounts {Coll A W}.
Arguments sv_creds {Coll A W}.
Arguments sv_loader {Coll A W}.
Arguments sv_outside {Coll A W}.

Section Lifts.
Context {Coll : Type -> Type} {A W : Type} `{AccountClient A} `{LoaderWorld W}.

Definition on_platform {B} : M W B -> M (Outside W) B :=
  zoom os_platform (fun w o => MkOutside w (os_pod o)).

Definition on_pod {B} : M (Pod (list Handed)) B -> M (Outside W) B :=
  zoom os_pod (fun p o => MkOutside (os_platform o) p).

#[export] Instance outside_world : LoaderWorld (Outside W) := {
  createPlatformClient ws := on_platform (createPlatformClient ws);
  closePlatformClient c := on_platform (closePlatformClient c);
  client_findOne c cls q := on_platform (client_findOne c cls q);
  detectCapabilities u t := on_platform (detectCapabilities u t)
}.

#[export] Instance services_accounts : AccountClient (Services Coll A W) := {
  findPersonBySocialKey k :=
    zoom sv_accounts (fun a s => MkServices a (sv_creds s) (sv_loader s) (sv_outside s))
      (findPersonBySocialKey k)
}.
End Lifts.

(** ** The wiring of main *)

Section System.
Context {Coll : Type -> Type} `{Mongo Coll} {P : Platform} {C : Cipher} `{Sha256} `{Markdown} `{FastEquals}.
Context {HU GL A W : Type} `{HulyClient HU} `{IssueGitLabClient GL} `{LabelGitLabClient GL}
  `{MilestoneGitLabClient GL} `{MergeRequests.MRGitLabClient GL} `{NoteGitLabClient GL} `{MRReviewGitLabClient GL}
  `{EpicGitLabClient GL} `{AccountClient A} `{LoaderWorld W}.
Abbreviation SV := (Services Coll A W).
Abbreviation X := (SyncState HU GL SV).
Abbreviation MM := (M (Store Coll * X)).
Abbreviation EN := (Engine Coll X).

(** The configuration, the resolved service account, the edition that a
    detection left on a client, and the attachment mirror of a context. *)
Record SystemConfig := MkSystemConfig {
  sc_gitLabBaseUrl : string;
  sc_encryptionKey : string;
  sc_cacheTtlMs : Z;
  sc_serviceAccountPersonId : string;
  sc_edition : W -> option string;
  sc_mirror : option (MirrorDeps (Store Coll * X))
}.

Context (config : SystemConfig).

Definition loader_deps : BindingLoaderDeps (W := Outside W) :=
  MkLoaderDeps (sc_gitLabBaseUrl config) (sc_encryptionKey config) (sc_cacheTtlMs config)
    (Some (fun ws _ => on_pod (startTxSubscriberForWorkspace ws)))
    (Some (fun ws => on_pod (stopTxSubscriberForWorkspace ws))).

Definition set_services (f : SV -> SV) (x : X) : X := set_accounts (f (sy_accounts x)) x.

(** An operation of the loader, on the store and the services. *)
Definition on_load {B} (m : M (LoadState Coll (Outside W)) B) : MM B := fun s =>
  let sv := sy_accounts s.2 in
  let '(r, l) := m (MkLoadState s.1 (sv_creds sv) (sv_loader sv) (sv_outside sv)) in
  (r, (l_store l, set_accounts (MkServices (sv_accounts sv) (l_creds l) (l_loader l) (l_world l)) s.2)).

(** Every load makes new label and milestone caches. *)
Definition fresh_caches : MM unit :=
  modify (fun s => (s.1, set_labels new_label_cache (set_milestones new_milestone_cache s.2))).

Definition load_context (binding : string) : MM BindingContext :=
  let! ctx := on_load (loadInternal loader_deps binding) in
  fresh_caches ;;! ret ctx.

(** The fields of the context that the pipeline manager does not have are
    left empty; it reads none of them. *)
Definition load_for_pipelines (binding : string) : MM BindingContext :=
  let! p := on_load (loadForPipelines loader_deps binding) in
  ret (MkBindingContext (px_workspaceUuid p) (px_gitlabProjectId p) "" (px_hulyProjectRef p) [] ""
         (px_gitlabBaseUrl p) (Some (px_isMultiInstanceWorkspace p))).

Definition load_for_epics (binding : string) : MM EpicsBindingContext :=
  let! ctx := load_context binding in
  let! edition := gets (fun s : Store Coll * X =>
    sc_edition config (os_platform (sv_outside (sy_accounts s.2)))) in
  ret (MkEpicsContext ctx edition).

(** [credentials.resolveActorToken] of a context; a person that is no
    string is on no document.  Every context has the default base URL
    ([BindingLoader.every_context_single_instance]). *)
Definition actor_token (workspaceUuid : string) (person : jsval) : MM (option string) :=
  match person with
  | VStr p => on_load (resolveActorToken loader_deps (sc_gitLabBaseUrl config) (Some workspaceUuid) (Some p))
  | _ => ret None
  end.

(** [backfillEnqueuer] *)
Definition hand (h : Handed) (x : X) : X :=
  set_services (fun sv =>
    let o := sv_outside sv in
    let p := os_pod o in
    MkServices (sv_accounts sv) (sv_creds sv) (sv_loader sv)
      (MkOutside (os_platform o)
         (MkPod (pod_subs p) (pod_engineHasStarted p) (pod_metrics p) (pod_engine p ++ [h])))) x.

Definition backfillEnqueuer (binding kind : string) (r : record) (eventId version : string) : MM unit :=
  modify (fun s => (s.1, hand (HandedRemote binding kind r eventId version) s.2)).

Definition issuesManager : SyncManager Coll X :=
  issues_manager (MkIssuesDeps load_context None (Some backfillEnqueuer) None).
Definition notesManager : SyncManager Coll X :=
  notes_manager (MkNotesDeps load_context None (Some backfillEnqueuer) (sc_mirror config)).
Definition mrManager : SyncManager Coll X :=
  merge_requests_manager (MkMRDeps load_context None (Some backfillEnqueuer) actor_token).
Definition pipelineManager : SyncManager Coll X :=
  pipeline_manager (MkPipelineDeps load_for_pipelines).
Definition reviewManager : SyncManager Coll X :=
  reviews_manager (MkReviewDeps load_context None (Some backfillEnqueuer)).
Definition epicsManager : SyncManager Coll X :=
  epics_manager (MkEpicsDeps load_for_epics None (Some backfillEnqueuer)).

Definition register_managers : M EN unit :=
  Engine.register issuesManager ;;!
  Engine.register notesManager ;;!
  Engine.register mrManager ;;!
  Engine.register pipelineManager ;;!
  Engine.register reviewManager ;;!
  Engine.register epicsManager.

(** ** Between the components *)

Definition pod_of (x : X) : Pod (list Handed) := os_pod (sv_outside (sy_accounts x)).

Definition set_pod (p : Pod (list Handed)) : X -> X :=
  set_services (fun sv => MkServices (sv_accounts sv) (sv_creds sv) (sv_loader sv)
    (MkOutside (os_platform (sv_outside sv)) p)).

Definition on_pod_of {B} (m : M (Pod (list Handed)) B) : M EN B :=
  zoom (fun e => pod_of (ext e)) (fun p e => set_ext (set_pod p (ext e)) e) m.

Definition handed_of (e : EN) : list Handed := pod_engine (pod_of (ext e)).

Definition take_handed : M (Pod (list Handed)) (list Handed) := fun p =>
  (Ok (pod_engine p), MkPod (pod_subs p) (pod_engineHasStarted p) (pod_metrics p) []).

Definition enqueue_handed (h : Handed) : M EN unit :=
  match h with
  | HandedRemote b k r ev v => enqueueWebhookEvent b k r ev v
  | HandedLocal b k doc c => enqueueLocalEvent b k doc c
  end.

Definition deliver_handed : M EN unit :=
  let! l := on_pod_of take_handed in forM_ l enqueue_handed.

(** A webhook request, on the credentials and metrics of the process. *)
Definition system_webhook (req : Request) : M EN Response := fun e =>
  let sv := sy_accounts (ext e) in
  let '(r, h) := webhook (sc_encryptionKey config) req (MkHttp e (sv_creds sv) (sy_metrics (ext e))) in
  let e' := engine h in
  (r, set_ext (set_metrics (metrics h) (set_services (fun sv =>
        MkServices (sv_accounts sv) (creds h) (sv_loader sv) (sv_outside sv)) (ext e'))) e').

(** The subscriber of a workspace as main constructs it: no resolver, and
    the live project map of the loader. *)
Definition subscriber_deps (ws : string) (e : EN) : TxSubscriberDeps :=
  MkDeps (sc_serviceAccountPersonId config)
    (default [] (getBindingsByProject ws (sv_loader (sy_accounts (ext e))))) None.

Definition system_transactions (ws : string) (txes : list Tx) : M EN unit :=
  let! dp := gets (subscriber_deps ws) in
  on_pod_of (pod_notify ws dp txes) ;;!
  deliver_handed.

Definition system_process (i : nat) (e : EN) : EN := (deliver_handed (process i e)).2.

(** ** Start and stop *)

(** What survives the end of the process: the collections and whatever is
    outside it.  Queue, breaker, caches and registries start empty. *)
Definition new_process (e : EN) : EN :=
  let sv := sy_accounts (ext e) in
  MkEngine [] (store e) [] (init 1000)
    (MkSyncState (sy_huly (ext e)) (sy_gitlab (ext e))
       (MkServices (sv_accounts sv) (sv_creds sv) new_loader
          (MkOutside (os_platform (sv_outside sv)) (MkPod [] false [] [])))
       new_label_cache new_milestone_cache [] [] [] (sy_readings (ext e)))
    (readings e) (ids e).

Definition boot : M EN unit :=
  register_managers ;;!
  start ;;!
  on_pod_of mark_all_started ;;!
  deliver_handed.

Definition restart (e : EN) : EN := (boot (new_process e)).2.

(** [shutdown]: the subscribers, then the queue, then the loader. *)
Definition stop_subscribers : M (Pod (list Handed)) unit :=
  let! ks := gets (fun p => jkeys (pod_subs p)) in
  forM_ ks (fun ws => on_sub ws sub_stop) ;;!
  modify (fun p => MkPod [] (pod_engineHasStarted p) (pod_metrics p) (pod_engine p)).

Definition shutdown (w : nat) : M EN unit :=
  on_pod_of stop_subscribers ;;!
  stop w ;;!
  on_manager (on_load (loader_close loader_deps)).

(** ** The running program *)

(** The engine's two collections, its queue and its managers, which only
    the engine changes. *)
Definition same_engine (e e' : EN) : Prop :=
  managers e' = managers e /\ world e' = world e /\ ids e <= ids e' /\
  dedup (store e') = dedup (store e) /\ inflight (store e') = inflight (store e) /\
  handed_of e' = handed_of e.

Inductive sys_step : EN -> EN -> Prop :=
  | ss_webhook e req : sys_step e (system_webhook req e).2
  | ss_transactions e ws txes : sys_step e (system_transactions ws txes e).2
  | ss_sweep e : sys_step e (Backfill.tick e).2
  | ss_process e i p : running (world e) !! i = Some p -> sys_step e (system_process i e)
  | ss_elsewhere e e' : same_engine e e' -> sys_step e e'
  | ss_restart e : sys_step e (restart e).

Inductive sys_reach (e0 : EN) : EN -> Prop :=
  | sr_refl : sys_reach e0 e0
  | sr_step e e' : sys_reach e0 e -> sys_step e e' -> sys_reach e0 e'.
End System.
