(* ===== verification/SystemProofs.v ===== *)
(** * What the composed program guarantees

    The engine's theorems ask something of its managers; here it is shown of
    the managers [main] registers, and with it what the inflight collection
    says of the running program through webhooks, transactions, sweeps,
    processing, restarts, and whatever else changes the rest of the state. *)

From S2P Require Import Prelude JsMap JsString JsVal Metrics Platform Conflict Breaker Queue.
From S2P Require Import Mongo Store Credentials Ids StatusMap Huly Caches Engine Sync BindingLoader.
From S2P Require Import TxSubscriber FieldSync Issues MergeRequests Notes Reviews Epics Pipeline.
From S2P Require Import Backfill Webhook ManagersQuiet System.
Open Scope nat_scope.
Open Scope string_scope.
Open Scope list_scope.

(** ** The loader writes no document *)

Section LoaderKeeps.
Context {Coll : Type -> Type} `{Mongo Coll} {P : Platform} {C : Cipher} `{Sha256} {W : Type} `{LoaderWorld W}.
Context (deps : BindingLoaderDeps (W := W)) (st : Store Coll) (Q : W -> Prop).
Context (Hcreate : forall ws, preserves Q (createPlatformClient ws))
  (Hclose : forall c, preserves Q (closePlatformClient c))
  (Hfind : forall c cls q, preserves Q (client_findOne c cls q))
  (Hdetect : forall u t, preserves Q (detectCapabilities u t))
  (Hloaded : forall f ws c, dl_onWorkspaceLoaded deps = Some f -> preserves Q (f ws c))
  (Hevicted : forall f ws, dl_onWorkspaceEvicted deps = Some f -> preserves Q (f ws)).

Definition loader_side (l : LoadState Coll W) : Prop := l_store l = st /\ Q (l_world l).
Abbreviation quietly := (preserves loader_side).

Lemma loader_creds {B} (m : M (Creds Coll) B) : quietly (BindingLoader.on_creds m).
Proof. intros l Hl. unfold BindingLoader.on_creds, zoom. by destruct (m (l_creds l)). Qed.

Lemma loader_loader f : quietly (on_loader f).
Proof. by intros l Hl. Qed.

Lemma loader_clock : quietly loader_now.
Proof. by intros l Hl. Qed.

Lemma loader_world {B} (m : M W B) : preserves Q m -> quietly (on_world m).
Proof.
  intros Hm l [Hs HQ]. specialize (Hm _ HQ). unfold on_world, zoom. by destruct (m (l_world l)).
Qed.

Lemma loader_getBinding id : quietly (BindingLoader.on_store (getBinding id)).
Proof.
  intros l Hl. unfold BindingLoader.on_store, zoom, getBinding, with_object_id.
  by destruct (newObjectId id), l.
Qed.

Hint Resolve loader_creds loader_loader loader_clock loader_world loader_getBinding : quiet.

Lemma loader_entry ws : quietly (getOrCreateWorkspaceEntry deps ws).
Proof.
  unfold getOrCreateWorkspaceEntry, invokeEvictionHook, caught.
  destruct (dl_onWorkspaceLoaded deps) as [f|]; [pose proof (fun ws c => Hloaded f ws c eq_refl)|];
    (destruct (dl_onWorkspaceEvicted deps) as [g|]; [pose proof (fun ws => Hevicted g ws eq_refl)|]); quiet_tac.
Qed.

Lemma loader_project c ref : quietly (getTrackerProject c ref).
Proof. unfold getTrackerProject, statuses_of_type, find_by_id. quiet_tac. Qed.

Hint Resolve loader_entry loader_project : quiet.

Lemma loader_internal id : quietly (loadInternal deps id).
Proof.
  unfold loadInternal, BindingLoader.resolveBinding, resolve, BindingLoader.register, caught. quiet_tac.
Qed.

Lemma loader_pipelines id : quietly (loadForPipelines deps id).
Proof. unfold loadForPipelines, BindingLoader.resolveBinding, resolve, BindingLoader.register. quiet_tac. Qed.

Lemma loader_token u w p : quietly (resolveActorToken deps u w p).
Proof. unfold resolveActorToken. quiet_tac. Qed.
End LoaderKeeps.

(** ** The subscribers hand over known kinds only *)

Definition known (h : Handed) : Prop := handed_kind h ∈ sync_kinds.

Definition pod_known (p : Pod (list Handed)) : Prop := Forall known (pod_engine p).

Section Subs.
Implicit Types (s : SubState (list Handed)).

Definition sub_known s : Prop := Forall known (ss_engine s).

Lemma sub_enqueue_known entry : preserves sub_known (sub_enqueue entry).
Proof.
  intros s Hs. unfold sub_enqueue, sub_known. cbn. apply Forall_app. split; [done|].
  apply Forall_singleton. unfold known. cbn. destruct (be_kind entry); cbn; unfold sync_kinds; set_solver.
Qed.

Lemma set_sub_known f : preserves sub_known (set_sub f).
Proof. by intros s Hs. Qed.

Lemma sub_count_known n : preserves sub_known (sub_count n).
Proof. by intros s Hs. Qed.

Hint Resolve sub_enqueue_known set_sub_known sub_count_known : quiet.

Lemma onTx_known dp tx : preserves sub_known (onTx dp tx).
Proof.
  unfold onTx, TxSubscriber.resolveBinding. quiet_tac. by intros s Hs.
Qed.

Hint Resolve onTx_known : quiet.

Lemma notify_known dp txes : preserves sub_known (notify dp txes).
Proof. unfold notify. quiet_tac. Qed.

Lemma mark_known : preserves sub_known markEngineStarted.
Proof. unfold markEngineStarted. quiet_tac. Qed.

Lemma on_sub_known ws m : preserves sub_known m -> preserves pod_known (on_sub ws m).
Proof.
  intros Hm p Hp. unfold on_sub. destruct (jget ws (pod_subs p)) as [sb|]; [|done].
  specialize (Hm (MkSubState sb (pod_metrics p) (pod_engine p)) Hp). by destruct (m _).
Qed.

Lemma subs_known f : (forall p, pod_engine (f p) = pod_engine p) -> preserves pod_known (modify f).
Proof. intros Hf. apply preserves_modify. intros p Hp. unfold pod_known. by rewrite Hf. Qed.

Hint Resolve on_sub_known mark_known set_sub_known notify_known : quiet.

Lemma start_sub_known ws : preserves pod_known (startTxSubscriberForWorkspace ws).
Proof.
  unfold startTxSubscriberForWorkspace, sub_start. quiet_tac. by apply subs_known.
Qed.

Lemma stop_sub_known ws : preserves pod_known (stopTxSubscriberForWorkspace ws).
Proof.
  unfold stopTxSubscriberForWorkspace, sub_stop. quiet_tac. by apply subs_known.
Qed.

Lemma mark_all_known : preserves pod_known mark_all_started.
Proof. unfold mark_all_started. quiet_tac. by apply subs_known. Qed.
End Subs.

(** ** The registered managers *)

Section Managers.
Context {Coll : Type -> Type} `{HL : MongoLaws Coll} {P : Platform} {C : Cipher} `{Sha256} `{Markdown} `{FastEquals}.
Context {HU GL A W : Type} `{HulyClient HU} `{IssueGitLabClient GL} `{LabelGitLabClient GL}
  `{MilestoneGitLabClient GL} `{MergeRequests.MRGitLabClient GL} `{NoteGitLabClient GL} `{MRReviewGitLabClient GL}
  `{EpicGitLabClient GL} `{AccountClient A} `{LoaderWorld W}.
Abbreviation SV := (Services Coll A W).
Abbreviation X := (SyncState HU GL SV).
Abbreviation EN := (Engine Coll X).
Implicit Types (e : EN).
Context (config : SystemConfig (Coll := Coll) (HU := HU) (GL := GL) (A := A) (W := W)).

(** The managers of main, in the order of their registration. *)
Definition main_managers : jsmap string (SyncManager Coll X) :=
  [("issue", issuesManager config); ("note", notesManager config);
   ("merge_request", mrManager config); ("pipeline", pipelineManager config);
   ("review", reviewManager config); ("epic", epicsManager config)].

Lemma register_managers_eq e :
  managers e = [] ->
  register_managers config e =
    (Ok tt, MkEngine main_managers (store e) (brk e) (world e) (ext e) (readings e) (ids e)).
Proof. destruct e. intros E. cbn in E. by subst. Qed.

Lemma main_managers_kinds : jkeys main_managers = sync_kinds.
Proof. reflexivity. Qed.

(** A property of the subscribers that survives their starting and stopping;
    and one that survives the hand-over of records. *)
Context (d : Coll DedupDoc) (i : Coll InflightDoc) (Q : Pod (list Handed) -> Prop).

Definition pod_side (sv : SV) : Prop := Q (os_pod (sv_outside sv)).

Record pod_hooks : Prop := {
  ps_start : forall ws, preserves Q (startTxSubscriberForWorkspace ws);
  ps_stop : forall ws, preserves Q (stopTxSubscriberForWorkspace ws)
}.

Definition pod_hands : Prop := forall p h, known h -> Q p ->
  Q (MkPod (pod_subs p) (pod_engineHasStarted p) (pod_metrics p) (pod_engine p ++ [h])).

(** The mirror of the attachments keeps to its own collection. *)
Definition mirror_quiet : Prop := quiet_mirror d i pod_side (sc_mirror config).

Context (Hhooks : pod_hooks).
Abbreviation quietly := (preserves (side (HU := HU) (GL := GL) d i pod_side)).

#[local] Instance services_keep : AccountsKeep pod_side.
Proof.
  intros k sv Hsv. cbn. unfold zoom. by destruct (findPersonBySocialKey k (sv_accounts sv)).
Qed.

Definition outside_side (o : Outside W) : Prop := Q (os_pod o).

Lemma platform_side {B} (m : M W B) : preserves outside_side (on_platform m).
Proof. intros o Ho. unfold on_platform, zoom. by destruct (m (os_platform o)). Qed.

Lemma hook_side (m : M (Pod (list Handed)) unit) : preserves Q m -> preserves outside_side (on_pod (W := W) m).
Proof.
  intros Hm o Ho. specialize (Hm _ Ho). unfold on_pod, zoom. by destruct (m (os_pod o)).
Qed.

Lemma quiet_on_load {B} (m : M (LoadState Coll (Outside W)) B) :
  (forall st, preserves (loader_side st outside_side) m) -> quietly (on_load m).
Proof.
  intros Hm s [[Hd Hi] HQ]. unfold on_load. pose proof (Hm s.1 (MkLoadState s.1
    (sv_creds (sy_accounts s.2)) (sv_loader (sy_accounts s.2)) (sv_outside (sy_accounts s.2)))) as Hl.
  destruct Hl as [Hs Ho]; [done|]. destruct (m _) as [r l]. cbn in *. subst.
  split; [|done]. unfold engine_side. by rewrite Hs.
Qed.

Hint Resolve quiet_on_load platform_side hook_side : quiet.

Lemma started_side f ws c :
  dl_onWorkspaceLoaded (loader_deps config) = Some f -> preserves outside_side (f ws c).
Proof. intros [= <-]. apply hook_side, Hhooks. Qed.

Lemma stopped_side f ws :
  dl_onWorkspaceEvicted (loader_deps config) = Some f -> preserves outside_side (f ws).
Proof. intros [= <-]. apply hook_side, Hhooks. Qed.

Lemma quiet_load_context b : quietly (load_context config b).
Proof.
  unfold load_context, fresh_caches. quiet_tac; [|by intros s Hs].
  apply quiet_on_load. intros st.
  apply loader_internal; auto using started_side, stopped_side;
    intros; apply platform_side.
Qed.

Lemma quiet_load_for_pipelines b : quietly (load_for_pipelines config b).
Proof.
  unfold load_for_pipelines. quiet_tac. apply quiet_on_load. intros st.
  apply loader_pipelines; auto using started_side, stopped_side;
    intros; apply platform_side.
Qed.

Lemma quiet_load_for_epics b : quietly (load_for_epics config b).
Proof. unfold load_for_epics. pose proof quiet_load_context. quiet_tac. Qed.

Lemma quiet_actor_token w p : quietly (actor_token config w p).
Proof.
  unfold actor_token. quiet_tac. apply quiet_on_load. intros st.
  apply loader_token; auto using started_side, stopped_side;
    intros; apply platform_side.
Qed.

Context (Hhands : pod_hands) (Hmirror : mirror_quiet).

Lemma quiet_backfillEnqueuer : quiet_enqueuer (HU := HU) (GL := GL) d i pod_side (Some backfillEnqueuer).
Proof. intros f [= <-] b k r e v Hk s [Hs HQ]. split; [done|]. by apply Hhands. Qed.

Lemma quiet_no_enqueuer : quiet_enqueuer (HU := HU) (GL := GL) d i pod_side None.
Proof. done. Qed.

Hint Resolve quiet_load_context quiet_load_for_pipelines quiet_load_for_epics quiet_actor_token
  quiet_backfillEnqueuer quiet_no_enqueuer : quiet.

Lemma issues_keep : issues_deps_quiet d i pod_side (MkIssuesDeps (load_context config) None (Some backfillEnqueuer) None).
Proof. split; cbn; auto with quiet. intros m [=]. Qed.
Lemma notes_keep :
  notes_deps_quiet d i pod_side (MkNotesDeps (load_context config) None (Some backfillEnqueuer) (sc_mirror config)).
Proof. split; cbn; auto with quiet. Qed.
Lemma mr_keep : mr_deps_quiet d i pod_side (MkMRDeps (load_context config) None (Some backfillEnqueuer) (actor_token config)).
Proof. split; cbn; auto with quiet. Qed.
Lemma review_keep : review_deps_quiet d i pod_side (MkReviewDeps (load_context config) None (Some backfillEnqueuer)).
Proof. split; cbn; auto with quiet. Qed.
Lemma epic_keep : epic_deps_quiet d i pod_side (MkEpicsDeps (load_for_epics config) None (Some backfillEnqueuer)).
Proof. split; cbn; auto with quiet. Qed.

(** Whatever a registered manager is called for. *)
Lemma managers_keep k m ctx ev :
  jget k main_managers = Some m -> quietly (call_manager m ctx ev).
Proof.
  pose proof services_keep. intros Hm.
  cbn in Hm. repeat destruct (decide _) in Hm; try done; injection Hm as <-; destruct ev; cbn;
    eauto using issues_keep, notes_keep, mr_keep, review_keep, epic_keep, quiet_load_for_pipelines,
      preserves_ret, quiet_issue_applyRemote, quiet_issue_applyLocal, quiet_issue_backfill,
      quiet_mr_applyRemote, quiet_mr_applyLocal, quiet_mr_backfill,
      quiet_nt_applyRemote, quiet_nt_applyLocal, quiet_nt_backfill,
      quiet_rv_applyRemote, quiet_rv_applyLocal, quiet_rv_backfill,
      quiet_ep_applyRemote, quiet_ep_backfill, quiet_pl_applyRemote.
Qed.
End Managers.

(** ** What is handed over, through starting and stopping *)

(** What the subscribers have handed over does not depend on their starting
    and stopping: a new one has nothing buffered. *)
Definition pod_holds (l : list Handed) (p : Pod (list Handed)) : Prop := pod_engine p = l.

Lemma on_sub_holds l ws m :
  preserves (fun s : SubState (list Handed) => ss_engine s = l) m -> preserves (pod_holds l) (on_sub ws m).
Proof.
  intros Hm p Hp. unfold on_sub. destruct (jget ws (pod_subs p)) as [sb|]; [|done].
  specialize (Hm (MkSubState sb (pod_metrics p) (pod_engine p)) Hp). by destruct (m _).
Qed.

Lemma pod_same_holds l f : (forall p, pod_engine (f p) = pod_engine p) -> preserves (pod_holds l) (modify f).
Proof. intros Hf. apply preserves_modify. intros p Hp. unfold pod_holds. by rewrite Hf. Qed.

Lemma set_sub_holds l f : preserves (fun s : SubState (list Handed) => ss_engine s = l) (set_sub f).
Proof. by intros s Hs. Qed.

Lemma on_sub_at ws sb m (p : Pod (list Handed)) :
  jget ws (pod_subs p) = Some sb ->
  on_sub ws m p = let '(r, s) := m (MkSubState sb (pod_metrics p) (pod_engine p)) in
    (r, MkPod (jset ws (ss_sub s) (pod_subs p)) (pod_engineHasStarted p) (ss_metrics s) (ss_engine s)).
Proof. intros E. unfold on_sub. by rewrite E. Qed.

Lemma start_holds l ws : preserves (pod_holds l) (startTxSubscriberForWorkspace ws).
Proof.
  intros p Hp. unfold startTxSubscriberForWorkspace, bind at 1, gets, jhas.
  destruct (jget ws (pod_subs p)) as [sb|]; [done|]. unfold bind, modify.
  erewrite (on_sub_at ws) by apply jget_set_eq. cbv beta iota zeta delta [sub_start set_sub modify].
  destruct (pod_engineHasStarted _); [|done].
  erewrite (on_sub_at ws) by apply jget_set_eq. done.
Qed.

Lemma stop_holds l ws : preserves (pod_holds l) (stopTxSubscriberForWorkspace ws).
Proof.
  unfold stopTxSubscriberForWorkspace, sub_stop. quiet_tac.
  - apply on_sub_holds, set_sub_holds.
  - by apply pod_same_holds.
Qed.

Lemma holds_hooks l : pod_hooks (pod_holds l).
Proof. split; [apply start_holds|apply stop_holds]. Qed.
