(* ===== verification/SystemLedger.v ===== *)
(** * The inflight collection as the ledger of the running program

    Every webhook event that the queue still holds has its inflight
    document, each document stands for an event of its own that is recorded
    as seen, and only processing the event removes it.  The invariant
    [ledger] says so of a state; every step of [System.sys_step] keeps it. *)

From S2P Require Import Prelude JsMap JsString JsVal Metrics Platform Conflict Breaker Queue.
From S2P Require Import Mongo Store Credentials Ids StatusMap Huly Caches Engine Sync BindingLoader.
From S2P Require Import TxSubscriber FieldSync Issues MergeRequests Notes Reviews Epics Pipeline.
From S2P Require Import Backfill Webhook ManagersQuiet System SystemProofs.
Open Scope nat_scope.
Open Scope string_scope.
Open Scope list_scope.

(** ** Documents *)

Section Docs.
Context {Coll : Type -> Type} `{HL : MongoLaws Coll} {P : Platform} {X : Type}.
Implicit Types (e : Engine Coll X).

Definition ops_of e : list InflightDoc := scan (inflight (store e)).

(** The event an inflight document stands for. *)
Definition op_key (op : InflightDoc) : option event_key :=
  match after_prefix "remote:" (if_op op) with
  | Some _ => Some (if_bindingId op, string_or (if_id op) (field "eventId" (if_payload op)),
                    string_or "0" (field "version" (if_payload op)))
  | None => None
  end.

Lemma recover_op_key (ms : jsmap string (SyncManager Coll X)) op p :
  recover_op ms op = Some p -> remote_key p = op_key op.
Proof.
  unfold recover_op, op_key, remote_key. destruct (after_prefix "remote:" (if_op op)).
  - by intros [= <-].
  - destruct (after_prefix "local:" (if_op op)); [by intros [= <-]|done].
Qed.

Lemma webhook_op_key id now b k r ev v : op_key (webhook_op id now b k r ev v) = Some (b, ev, v).
Proof. unfold op_key, webhook_op. cbn [if_op]. by rewrite after_prefix_app. Qed.

Lemma index_ids_nodup (l : list InflightDoc) : index_ok l -> NoDup (map if_id l).
Proof.
  induction l as [|op l IH]; intros Hl; [apply NoDup_nil_2|]. destruct Hl as [Hop Hl]. cbn [map].
  apply NoDup_cons. split; [|by apply IH]. intros (o & E & Ho)%list_elem_of_fmap.
  specialize (Hop o Ho). cbn in Hop. apply bool_decide_eq_false in Hop. congruence.
Qed.

(** A document as the engine writes it, of an id already given out. *)
Definition op_known e (op : InflightDoc) : Prop :=
  exists n now b k r ev v, n < ids e /\ op = webhook_op (freshObjectId n) now b k r ev v /\
    k ∈ sync_kinds /\ seen (b, ev, v) (store e).

Record ledger (ms : jsmap string (SyncManager Coll X)) e : Prop := {
  lg_managers : managers e = ms;
  lg_ahead : ahead_inv e;
  lg_ops : forall op, op ∈ ops_of e -> op_known e op;
  lg_keys : NoDup (map op_key (ops_of e));
  lg_kinds : forall p, p ∈ outstanding (world e) -> qe_kind p.2 ∈ sync_kinds;
  lg_remote : forall p, p ∈ outstanding (world e) -> is_Some (remote_key p) -> is_Some (entry_id p)
}.

(** The engine's own part of two states is the same. *)
Definition same_side e e' : Prop :=
  managers e' = managers e /\ world e' = world e /\ ids e <= ids e' /\
  dedup (store e') = dedup (store e) /\ inflight (store e') = inflight (store e).

Lemma op_known_mono e e' op :
  ids e <= ids e' -> (forall k, seen k (store e) -> seen k (store e')) ->
  op_known e op -> op_known e' op.
Proof.
  intros Hi Hs (n & now & b & k & r & ev & v & Hn & -> & Hk & Hseen).
  exists n, now, b, k, r, ev, v. split_and!; [lia|done|done|by apply Hs].
Qed.

Lemma seen_same (s s' : Store Coll) k : dedup s' = dedup s -> seen k s -> seen k s'.
Proof. unfold seen. by intros ->. Qed.

Lemma ledger_same ms e e' : same_side e e' -> ledger ms e -> ledger ms e'.
Proof.
  intros (Em & Ew & Ei & Ed & Ef) [H1 [A1 A2 A3 A4] H3 H4 H5 H6].
  split; unfold ops_of in *; rewrite ?Em, ?Ew, ?Ef; try done.
  - by split; rewrite ?Ew, ?Em, ?Ef.
  - intros op Hop. apply (op_known_mono e); [exact Ei|intros k; by apply seen_same|by apply H3].
Qed.

(** An entry without an inflight document: a local event or a backfill. *)
Lemma ledger_plain ms e e' key entry :
  ledger ms e -> same_side e (set_world (world e) e') -> world e' = do_enqueue key entry (world e) ->
  qe_inflightId entry = None -> remote_key (key, entry) = None -> qe_kind entry ∈ sync_kinds ->
  ledger ms e'.
Proof.
  intros [H1 H2 H3 H4 H5 H6] (Em & _ & Ei & Ed & Ef) Ew Hid Hr Hk. cbn in Em, Ei, Ed, Ef.
  assert (forall p, p ∈ outstanding (world e') -> p = (key, entry) \/ p ∈ outstanding (world e)) as Hin.
  { intros p Hp. rewrite Ew in Hp. eapply elem_of_submseteq in Hp; [|apply outstanding_enqueue].
    by apply elem_of_cons in Hp. }
  split; unfold ops_of in *; rewrite ?Em, ?Ef; try done.
  - apply (ahead_enqueue_none e (set_world (world e') e) key entry) in H2 as [A1 A2 A3 A4]; try done.
    split; cbn in *; by rewrite ?Em, ?Ef.
  - intros op Hop. apply (op_known_mono e); [exact Ei|intros k; by apply seen_same|by apply H3].
  - intros p [->|Hp]%Hin; [done|by apply H5].
  - intros p [->|Hp]%Hin; [|by apply H6]. rewrite Hr. by intros [].
Qed.

(** Since [e] an event has been recorded, with a document unless it was
    recorded before. *)
Definition accounted (k : event_key) e e' : Prop :=
  seen k (store e') /\ (seen k (store e) \/ exists op, op ∈ ops_of e' /\ op_key op = Some k).

(** Recording a webhook event: never rejected, and nothing outside the
    engine changes. *)
Lemma ledger_webhook ms e b k r ev v :
  ledger ms e -> k ∈ sync_kinds ->
  exists e', enqueueWebhookEvent b k r ev v e = (Ok tt, e') /\ ledger ms e' /\ ext e' = ext e /\
    (forall op, op ∈ ops_of e -> op ∈ ops_of e') /\
    (forall x, seen x (store e') <-> seen x (store e) \/ x = (b, ev, v)) /\
    (forall op, op ∈ ops_of e' -> op ∈ ops_of e \/ (op_key op = Some (b, ev, v) /\ ~ seen (b, ev, v) (store e))) /\
    accounted (b, ev, v) e e'.
Proof.
  intros Hl Hk. pose proof Hl as [H1 H2 H3 H4 H5 H6].
  destruct (webhook_ahead b k r ev v e H2) as [Ha Hm].
  destruct (enqueueWebhookEvent_eq b k r ev v e) as (s & Hs & [c0 ->] & [[Hseen E]|[Hn E]]); cbn zeta in *.
  - eexists. rewrite E. split; [done|]. split; [|split_and!; [done|done| |by left|]].
    2: exact Hs.
    2: { split; [apply Hs; by right|by left]. }
    rewrite E in Ha. split; try done.
    intros op Hop. apply (op_known_mono e); [cbn; lia| |by apply H3]. intros x Hx. apply Hs. by left.
  - set (op := webhook_op _ _ _ _ _ _ _) in *.
    destruct (insertOne op (inflight (store e))) as [c|] eqn:Hi.
    2: { exfalso. apply insertOne_None, ref_insert_None in Hi as (o & Ho & Hc).
         destruct (H3 o Ho) as (n & now & b' & k' & r' & ev' & v' & Hlt & -> & _).
         cbn in Hc. apply bool_decide_eq_true in Hc. apply freshObjectId_inj in Hc. lia. }
    apply insertOne_Some in Hi as Hr. apply ref_insert_Some in Hr as [Hr _].
    assert (forall o, o ∈ scan c <-> o ∈ ops_of e \/ o = op) as Hc.
    { intros o. rewrite Hr, elem_of_app, list_elem_of_singleton. done. }
    assert (forall o, o ∈ ops_of e -> op_key o <> Some (b, ev, v)) as Hfresh.
    { intros o Ho E'. destruct (H3 o Ho) as (n & now & b' & k' & r' & ev' & v' & _ & -> & _ & Hs').
      rewrite webhook_op_key in E'. by injection E' as -> -> ->. }
    rewrite E in Ha |- *. eexists. split; [done|]. cbn [snd] in Ha. split; [|split_and!].
    + pose proof (outstanding_enqueue (queueKey b (resourceKeyForKind (managers e) k r))
        (webhook_entry (freshObjectId (ids e)) b k r ev v) (world e)) as Ho.
      split; [done|done| | | |]; unfold ops_of; cbn [store inflight set_inflight world].
      * intros o [Ho'| ->]%Hc.
        -- apply (op_known_mono e); [cbn; lia| |by apply H3]. intros x Hx. apply Hs. by left.
        -- do 7 eexists. split; [|split; [reflexivity|split; [done|]]]; [cbn; lia|]. apply Hs. by right.
      * rewrite Hr, map_app. apply NoDup_app. split_and!; [done| |apply NoDup_singleton].
        intros x Hx ->%list_elem_of_singleton. apply list_elem_of_fmap in Hx as (o & E' & Ho').
        cbn in E'. apply (Hfresh o Ho'). rewrite <- E'. apply webhook_op_key.
      * intros p Hp. eapply elem_of_submseteq in Hp; [|exact Ho].
        apply elem_of_cons in Hp as [->|Hp]; [done|by apply H5].
      * intros p Hp. eapply elem_of_submseteq in Hp; [|exact Ho].
        apply elem_of_cons in Hp as [->|Hp]; [by eexists|by apply H6].
    + done.
    + intros o Ho'. apply Hc. by left.
    + exact Hs.
    + intros o [Ho'| ->]%Hc; [by left|]. right. split; [apply webhook_op_key|done].
    + split; [apply Hs; by right|]. right. exists op. split; [apply Hc; by right|apply webhook_op_key].
Qed.
End Docs.

(** ** Steps that only add *)

Section Adds.
Context {Coll : Type -> Type} `{HL : MongoLaws Coll} {P : Platform} {C : Cipher} {X : Type}.
Implicit Types (e : Engine Coll X).

Lemma webhook_ext b k r ev v e : ext (enqueueWebhookEvent b k r ev v e).2 = ext e.
Proof.
  destruct (enqueueWebhookEvent_eq b k r ev v e) as (s & _ & _ & [[_ E]|[_ E]]); cbn zeta in *.
  - by rewrite E.
  - by destruct (insertOne _ _); rewrite E.
Qed.

(** What a predicate must allow to hold through every step that only adds to
    the engine: nothing happens to the engine's side, a webhook event is
    recorded, an item without a document is enqueued. *)
Record adding (I : Engine Coll X -> Prop) : Prop := {
  ad_kinds : forall e k, I e -> k ∈ jkeys (managers e) -> k ∈ sync_kinds;
  ad_same : forall e e', same_side e e' -> I e -> I e';
  ad_webhook : forall b k r ev v, k ∈ sync_kinds -> preserves I (enqueueWebhookEvent b k r ev v);
  ad_plain : forall key entry, qe_inflightId entry = None -> remote_key (key, entry) = None ->
    qe_kind entry ∈ sync_kinds -> preserves I (enqueue_entry key entry)
}.

Context (I : Engine Coll X -> Prop) (HI : adding I) (x : X).

Lemma adds_frame {B} (m : M (Engine Coll X) B) : (forall e, same_side e (m e).2) -> preserves I m.
Proof. intros Hm e. by apply ad_same. Qed.

Lemma adds_local b k doc c : k ∈ sync_kinds -> preserves I (enqueueLocalEvent b k doc c).
Proof. intros Hk. by apply ad_plain. Qed.

(** The same, of steps of the engine alone, which leave the managers' world
    as it is. *)
Definition still e : Prop := I e /\ ext e = x.

Lemma still_frame {B} (m : M (Engine Coll X) B) :
  (forall e, same_side e (m e).2 /\ ext (m e).2 = ext e) -> preserves still m.
Proof.
  intros Hm e [Hg Hx]. destruct (Hm e) as [Hs He]. split; [by eapply ad_same|congruence].
Qed.

Lemma still_webhook b k r ev v :
  k ∈ sync_kinds -> preserves still (enqueueWebhookEvent b k r ev v).
Proof. intros Hk e [Hg Hx]. split; [by apply ad_webhook|]. by rewrite webhook_ext. Qed.

Lemma still_plain key entry :
  qe_inflightId entry = None -> remote_key (key, entry) = None -> qe_kind entry ∈ sync_kinds ->
  preserves still (enqueue_entry key entry).
Proof. intros Hid Hr Hk e [Hg Hx]. split; [by apply ad_plain|done]. Qed.

Lemma still_backfill b since : preserves still (enqueueBackfill b since).
Proof.
  intros e He. unfold enqueueBackfill, bind, gets.
  assert (forall ks, (forall k, k ∈ ks -> k ∈ sync_kinds) -> preserves still (forM_ ks (fun kind =>
    enqueue_entry (queueKey b ("backfill:" +:+ kind)) (MkQueueEntry (EvBackfill b since) kind None))))
    as Hall; [|apply Hall; [intros k; apply (ad_kinds _ HI e k), He|exact He]].
  intros ks. induction ks as [|k ks IH]; intros Hks; cbn [forM_]; [apply preserves_ret|].
  apply preserves_bind; [|intros _; apply IH; intros k' Hk'; apply Hks; by right].
  apply still_plain; [done|done|]. apply Hks. left.
Qed.

Lemma still_clock : preserves still read_clock.
Proof. apply still_frame. intros e. by split; [split_and!|]. Qed.

Lemma still_brk f : preserves still (fun e => let '(o, b) := f (brk e) : bool * breaker in (Ok o, set_brk b e)).
Proof. apply still_frame. intros e. destruct (f (brk e)). by split; [split_and!|]. Qed.

Lemma still_set_brk f : preserves still (modify (fun e => set_brk (f (brk e)) e)).
Proof. apply still_frame. intros e. by split; [split_and!|]. Qed.

Lemma still_on_store {B} (m : M (Store Coll) B) :
  (forall d i, preserves (engine_side d i) m) -> preserves still (Engine.on_store m).
Proof.
  intros Hm. apply still_frame. intros e. unfold Engine.on_store.
  destruct (Hm (dedup (store e)) (inflight (store e)) (store e)) as [Ed Ei]; [done|].
  destruct (m (store e)). by split; [split_and!|].
Qed.

Hint Resolve still_webhook still_backfill still_clock still_set_brk still_on_store quiet_getBinding
  quiet_getCursor : quiet.

(** *** A sweep of the scheduler *)

Lemma still_processBinding b : preserves still (processBinding b).
Proof.
  unfold processBinding, breaker_is_open, resolveSince, log_since, record_success, record_failure.
  quiet_tac; apply still_brk.
Qed.

Lemma still_tick : preserves still Backfill.tick.
Proof.
  pose proof still_processBinding. unfold Backfill.tick, settle_all. quiet_tac.
Qed.

(** *** A webhook request *)

Definition http_still (h : Http Coll X) : Prop := still (engine h).

Lemma http_engine {B} (m : M (Engine Coll X) B) : preserves still m -> preserves http_still (on_engine m).
Proof. intros Hm h Hh. specialize (Hm _ Hh). unfold on_engine. by destruct (m (engine h)). Qed.

Lemma http_creds {B} (m : M (Creds Coll) B) : preserves http_still (on_creds (X := X) m).
Proof. intros h Hh. unfold on_creds. by destruct (m (creds h)). Qed.

Lemma http_count n : preserves http_still (count_metric n).
Proof. by intros h Hh. Qed.

Hint Resolve http_engine http_creds http_count : quiet.

Lemma http_accept req k ev v : k ∈ sync_kinds -> preserves http_still (accept_event req k ev v).
Proof. intros Hk. unfold accept_event, version_or_now. quiet_tac. Qed.

Hint Resolve http_accept : quiet.

Lemma http_webhook key req : preserves http_still (webhook key req).
Proof.
  unfold webhook, event_uuid, drop_confidential, authorize, dispatch_hook, handle_issue,
    handle_merge_request, handle_pipeline, handle_note, handle_epic, drop_confidential.
  quiet_tac.
Qed.
End Adds.

(** *** What a step adds to a state *)

Section Grows.
Context {Coll : Type -> Type} `{HL : MongoLaws Coll} {P : Platform} {C : Cipher} {X : Type}.
Implicit Types (e : Engine Coll X).
Context (ms : jsmap string (SyncManager Coll X)) (Hms : forall k, k ∈ jkeys ms -> k ∈ sync_kinds).
Context (e0 : Engine Coll X).

(** A state with at least the documents and marks of [e0], and new documents
    only for events [e0] had not seen. *)
Record grown e : Prop := {
  gr_ledger : ledger ms e;
  gr_ops : forall op, op ∈ ops_of e0 -> op ∈ ops_of e;
  gr_seen : forall k, seen k (store e0) -> seen k (store e);
  gr_new : forall op, op ∈ ops_of e -> op ∈ ops_of e0 \/
    exists k, op_key op = Some k /\ ~ seen k (store e0);
  gr_doc : forall k, seen k (store e) -> ~ seen k (store e0) ->
    exists op, op ∈ ops_of e /\ op_key op = Some k
}.

Lemma grown_start : ledger ms e0 -> grown e0.
Proof. intros Hl. split; [done|done|done|by left|done]. Qed.

Lemma grown_same e e' : same_side e e' -> grown e -> grown e'.
Proof.
  intros Hs [H1 H2 H3 H4 H5]. pose proof Hs as (_ & _ & _ & Ed & Ef).
  assert (forall k, seen k (store e') <-> seen k (store e)) as Hse by (intros k; unfold seen; by rewrite Ed).
  split; unfold ops_of in *; rewrite ?Ef; try done; [by eapply ledger_same| |].
  - intros k Hk. by apply Hse, H3.
  - intros k Hk. apply H5. by apply Hse.
Qed.

Lemma grown_webhook b k r ev v :
  k ∈ sync_kinds -> preserves grown (enqueueWebhookEvent b k r ev v).
Proof.
  intros Hk e [H1 H2 H3 H4 H5].
  destruct (ledger_webhook ms e b k r ev v H1 Hk) as (e' & -> & Hl & _ & Ho & Hs & Hn & Ha).
  split; cbn [snd]; [done|auto| | |].
  - intros x Hx. apply Hs. auto.
  - intros op [Hop|[Hkey Hns]]%Hn; [by apply H4|]. right. eexists. split; [done|]. auto.
  - assert (forall x, seen x (store e) -> ~ seen x (store e0) ->
      exists op, op ∈ ops_of e' /\ op_key op = Some x) as Hold.
    { intros x Hx Hn0. destruct (H5 x Hx Hn0) as (op & ? & ?). exists op. auto. }
    intros x [Hx| ->]%Hs Hn0; [by apply Hold|]. destruct Ha as [_ [Hx|?]]; [by apply Hold|done].
Qed.

Lemma grown_plain key entry :
  qe_inflightId entry = None -> remote_key (key, entry) = None -> qe_kind entry ∈ sync_kinds ->
  preserves grown (enqueue_entry key entry).
Proof.
  intros Hid Hr Hk e [H1 H2 H3 H4 H5]. split; try done. by eapply ledger_plain.
Qed.

Lemma grown_adding : adding grown.
Proof.
  split; [|apply grown_same|apply grown_webhook|apply grown_plain].
  intros e k [[Em _ _ _ _ _] _ _ _ _]. rewrite Em. apply Hms.
Qed.
End Grows.

(** A loop over caught bodies returns. *)
Lemma forM_caught {S A} (l : list A) (f : A -> M S unit) s r s' :
  forM_ l (fun x => try_catch (f x) (fun _ => ret tt)) s = (r, s') -> r = Ok tt.
Proof.
  revert s. induction l as [|x l IH]; intros s; cbn [forM_]; [by intros [= <- _]|].
  unfold bind at 1, try_catch at 1. destruct (f x s) as [[[]|ex] s1]; apply IH.
Qed.

(** ** The program *)

Section Program.
Context {Coll : Type -> Type} `{HL : MongoLaws Coll} {P : Platform} {C : Cipher} `{Sha256} `{Markdown} `{FastEquals}.
Context {HU GL A W : Type} `{HulyClient HU} `{IssueGitLabClient GL} `{LabelGitLabClient GL}
  `{MilestoneGitLabClient GL} `{MergeRequests.MRGitLabClient GL} `{NoteGitLabClient GL} `{MRReviewGitLabClient GL}
  `{EpicGitLabClient GL} `{AccountClient A} `{LoaderWorld W}.
Abbreviation SV := (Services Coll A W).
Abbreviation X := (SyncState HU GL SV).
Abbreviation EN := (Engine Coll X).
Implicit Types (e : EN).
Context (config : SystemConfig (Coll := Coll) (HU := HU) (GL := GL) (A := A) (W := W)).
Abbreviation ms := (main_managers config).

(** The attachment mirror leaves the engine's collections and the process's
    services alone; its own collection is not part of [Store]. *)
Definition mirror_harmless : Prop :=
  forall d i J, quiet_mirror (HU := HU) (GL := GL) (AC := SV) d i J (sc_mirror config).

Context (Hmirror : mirror_harmless).

Lemma main_kinds k : k ∈ jkeys ms -> k ∈ sync_kinds.
Proof. done. Qed.

Definition sys_inv e : Prop := ledger ms e /\ handed_of e = [].

(** *** Delivering what was handed over *)

Definition all_known e : Prop := Forall known (handed_of e).

Lemma known_hooks : pod_hooks pod_known.
Proof. split; [apply start_sub_known|apply stop_sub_known]. Qed.

Lemma known_hands : pod_hands pod_known.
Proof. intros p h Hh Hp. apply Forall_app. split; [done|by apply Forall_singleton]. Qed.

Lemma any_hooks : pod_hooks (fun _ => True).
Proof. by split. Qed.

Lemma any_hands : pod_hands (fun _ => True).
Proof. done. Qed.

Lemma pod_grown e0 {B} (m : M (Pod (list Handed)) B) : preserves (grown ms e0) (on_pod_of m).
Proof.
  apply (adds_frame _ (grown_adding ms main_kinds e0)). intros e. unfold on_pod_of, zoom. destruct (m _). by split_and!.
Qed.

Lemma pod_all_known {B} (m : M (Pod (list Handed)) B) :
  preserves pod_known m -> preserves all_known (on_pod_of (HU := HU) (GL := GL) (A := A) (W := W) (Coll := Coll) m).
Proof.
  intros Hm e He. specialize (Hm _ He). unfold on_pod_of, zoom. by destruct (m _).
Qed.

Lemma enqueue_all_grown e0 l e :
  grown ms e0 e -> Forall known l ->
  exists e', forM_ l enqueue_handed e = (Ok tt, e') /\ grown ms e0 e' /\ ext e' = ext e /\
    (forall k, seen k (store e) -> seen k (store e')) /\
    forall b k r ev v, HandedRemote b k r ev v ∈ l -> seen (b, ev, v) (store e').
Proof.
  intros Hg Hl. revert e Hg. induction l as [|h l IH]; intros e Hg.
  - exists e. split_and!; [done|done|done|done|]. by intros b k r ev v ?%elem_of_nil.
  - apply Forall_cons in Hl as [Hh Hl]. specialize (IH Hl). cbn [forM_].
    assert (exists e2, enqueue_handed h e = (Ok tt, e2) /\ grown ms e0 e2 /\ ext e2 = ext e /\
      (forall k, seen k (store e) -> seen k (store e2)) /\
      forall b k r ev v, h = HandedRemote b k r ev v -> seen (b, ev, v) (store e2)) as (e2 & E & Hg2 & Ex & Hm & Hs).
    { destruct h as [b k r ev v|b k doc c]; cbn [enqueue_handed].
      - pose proof (grown_webhook ms e0 b k r ev v Hh e Hg) as Hg2.
        destruct (ledger_webhook ms e b k r ev v (gr_ledger _ _ _ Hg) Hh) as (e2 & E & _ & Ex & _ & Hs & _ & Ha).
        rewrite E in Hg2. exists e2. split_and!; [done|done|done|intros x Hx; apply Hs; by left|].
        intros ? ? ? ? ? [= <- <- <- <- <-]. apply Ha.
      - pose proof (adds_local _ (grown_adding ms main_kinds e0) b k doc c Hh e Hg) as Hg2. by eexists. }
    destruct (IH e2 Hg2) as (e3 & E3 & Hg3 & Ex3 & Hm3 & Hs3). exists e3.
    rewrite (bind_ok _ _ _ _ _ E). split_and!; [done|done|congruence|auto|].
    intros b k r ev v [E'|Hin]%elem_of_cons; [|by eapply Hs3]. apply Hm3. by eapply Hs.
Qed.

(** The records are all enqueued, in the order they were handed over; none
    is refused. *)
Lemma deliver_grown e0 e :
  grown ms e0 e -> all_known e ->
  exists e', deliver_handed e = (Ok tt, e') /\ grown ms e0 e' /\ handed_of e' = [] /\
    forall b k r ev v, HandedRemote b k r ev v ∈ handed_of e -> seen (b, ev, v) (store e').
Proof.
  intros Hg Hk. unfold deliver_handed, bind at 1, on_pod_of, zoom, take_handed. cbn [fst snd].
  fold (handed_of e). set (p := MkPod _ _ _ _). set (e1 := set_ext _ e).
  assert (grown ms e0 e1) as Hg1 by (eapply grown_same; [|exact Hg]; by split_and!).
  destruct (enqueue_all_grown e0 (handed_of e) e1 Hg1 Hk) as (e' & E & Hg' & Ex & _ & Hs).
  exists e'. split_and!; [done|done| |done]. unfold handed_of. by rewrite Ex.
Qed.

(** *** Processing an item *)

Lemma main_quiet : quiet ms.
Proof.
  intros k m ctx ev s x Hm.
  destruct (managers_keep config (dedup s) (inflight s) (fun _ => True) any_hooks any_hands
    (Hmirror _ _ _) k m ctx ev Hm (s, x)) as [[Hd Hi] _]; [done|done].
Qed.

Lemma dispatch_known entry e :
  managers e = ms -> entry_ok entry -> all_known e -> all_known (dispatch answering entry e).2.
Proof.
  intros Em Hok Hk. pose proof (dispatch_eq entry e Hok) as Hd. cbn zeta in Hd. unfold manager_outcome in Hd.
  rewrite Em in Hd. destruct (bool_decide _); [|destruct (jget (qe_kind entry) ms) as [m|] eqn:Hm].
  1,3: destruct Hd as [n ->]; exact Hk.
  pose proof (managers_keep config (dedup (store e)) (inflight (store e)) pod_known known_hooks known_hands (Hmirror _ _ _)
    _ m (MkSyncContext (workspace_in (ev_binding (qe_event entry)) (store e))) (qe_event entry) Hm
    (store e, ext e)) as Hs.
  destruct (call_manager _ _ _ _) as [r [s x]]. destruct Hd as [n ->].
  apply Hs. by split.
Qed.

Lemma process_effect i p e :
  ledger ms e -> handed_of e = [] -> running (world e) !! i = Some p ->
  ledger ms (process i e) /\ all_known (process i e) /\
  (forall op, op ∈ ops_of (process i e) <-> op ∈ ops_of e /\ entry_id p <> Some (if_id op)) /\
  dedup (store (process i e)) = dedup (store e).
Proof.
  intros Hl Hh Hi. pose proof Hl as [L1 L2 L3 L4 L5 L6].
  pose proof (outstanding_settle i p (world e) Hi) as Ho.
  assert (p ∈ outstanding (world e)) as Hp by (rewrite <- Ho; left).
  assert (entry_ok p.2) as Hok.
  { unfold entry_ok. destruct (qe_inflightId p.2) as [id|] eqn:Hid; [|done].
    destruct (ah_doc _ L2 p id Hp Hid) as (op & Hop & <- & _). by apply (ah_hex _ L2). }
  destruct (process_ahead i p e) as [Ha Em]; [rewrite L1; apply main_quiet|done|done|].
  pose proof (dispatch_quiet p.2 e) as Hd. rewrite L1 in Hd. specialize (Hd main_quiet Hok).
  destruct Hd as (e' & Ed & Em' & Ew & Eids & Edd & Ei).
  assert (process i e = set_world (do_settle i (world e')) e') as Ep.
  { unfold process. rewrite Hi. destruct p as [key entry]. cbn in Ed |- *. by rewrite Ed. }
  assert (forall op, op ∈ scan (inflight (store e')) <-> op ∈ ops_of e /\ entry_id p <> Some (if_id op)) as Hops.
  { intros op. rewrite Ei. unfold store_drop, entry_id. destruct (qe_inflightId p.2) as [id|] eqn:Hid.
    - cbn [inflight set_inflight]. destruct (ah_doc _ L2 p id Hp Hid) as (o & _ & Ho' & _).
      rewrite deleteOne_scan, (remove_first_filter _ _ o) by
        (apply (ah_index _ L2) || by rewrite Ho').
      rewrite list_elem_of_In, filter_In, <- list_elem_of_In, negb_true_iff, bool_decide_eq_false.
      unfold ops_of. split; intros [? Hne]; (split; [done|congruence]).
    - unfold ops_of. split; [by intros|by intros [? _]]. }
  rewrite Ep in *. split_and!; [|pose proof (dispatch_known p.2 e L1 Hok) as Hk; rewrite Ed in Hk; apply Hk;
    unfold all_known; by rewrite Hh|done|done].
  split; try done; unfold ops_of; cbn [store world set_world].
  - intros op [Hop _]%Hops. apply (op_known_mono e); [cbn; lia| |by apply L3].
    intros k. by apply seen_same.
  - rewrite Ei. unfold store_drop. destruct (qe_inflightId p.2) as [id|]; [|done].
    cbn [inflight set_inflight]. rewrite deleteOne_scan.
    eapply sublist_NoDup; [exact L4|]. apply fmap_sublist, remove_first_sublist.
  - intros q Hq. apply L5. rewrite <- Ho. right. by rewrite Ew in Hq.
  - intros q Hq. apply L6. rewrite <- Ho. right. by rewrite Ew in Hq.
Qed.
(** *** A new process *)

Lemma start_outstanding (mm : jsmap string (SyncManager Coll X)) cutoff ops e :
  outstanding (world (start_effect mm cutoff ops e)) ⊆+
  omap (resumed mm cutoff) ops ++ outstanding (world e).
Proof.
  revert e. induction ops as [|op ops IH]; intros e; [done|].
  unfold start_effect in *. cbn [fold_left omap list_omap]. etransitivity; [apply IH|].
  unfold start_step. destruct (resumed mm cutoff op) as [[key entry]|]; [|done].
  cbn [world set_world app]. rewrite Permutation_middle. apply submseteq_skips_l, outstanding_enqueue.
Qed.

(** The documents [start] resumes. *)
Definition fresh_enough (cutoff : Z) (op : InflightDoc) : bool := negb (if_startedAt op <? cutoff)%Z.

Lemma resumed_known e cutoff op p :
  op_known e op -> resumed ms cutoff op = Some p ->
  recover_op ms op = Some p /\ qe_kind p.2 ∈ sync_kinds /\ is_Some (entry_id p) /\
  entry_id p = Some (if_id op).
Proof.
  intros (n & now & b & k & r & ev & v & _ & -> & Hk & _). unfold resumed.
  destruct (_ <? _)%Z; [done|]. rewrite recover_webhook_op. intros [= <-]. split_and!; try done.
Qed.

Lemma kept_known e cutoff op : op_known e op -> kept ms cutoff op = fresh_enough cutoff op.
Proof.
  intros (n & now & b & k & r & ev & v & _ & -> & _). unfold kept, resumed, fresh_enough.
  destruct (_ <? _)%Z; [done|]. by rewrite recover_webhook_op.
Qed.

Lemma start_ledger e :
  ledger ms e -> outstanding (world e) = [] ->
  let cutoff := (clock (readings e) - INFLIGHT_MAX_AGE_MS)%Z in
  exists e', start e = (Ok tt, e') /\ ledger ms e' /\ ext e' = ext e /\ dedup (store e') = dedup (store e) /\
    (forall op, op ∈ ops_of e' <-> op ∈ ops_of e /\ fresh_enough cutoff op = true) /\
    (forall op, op ∈ ops_of e' -> exists p, recover_op ms op = Some p /\ p ∈ accepted (world e')).
Proof.
  intros Hl Ho cutoff. pose proof Hl as [L1 [A1 A2 _ _] L3 L4 _ _].
  eexists. split; [apply start_eq; exact A2|]. rewrite L1. fold cutoff. set (e1 := MkEngine _ _ _ _ _ _ _).
  destruct (start_effect_frame ms cutoff (ops_of e) e1) as (Em & _ & Ex & _ & Ei & c & Es).
  pose proof (start_effect_inflight ms cutoff (ops_of e) e1 A1) as Hf.
  pose proof (start_outstanding ms cutoff (ops_of e) e1) as Hout.
  cbn [world e1] in Hout. rewrite Ho, app_nil_r in Hout.
  change (scan (inflight (store e))) with (ops_of e). set (e2 := start_effect _ _ _ _) in *.
  assert (forall op, op ∈ ops_of e2 <-> op ∈ ops_of e /\ fresh_enough cutoff op = true) as Hops.
  { intros op. unfold ops_of at 1. rewrite Hf, list_elem_of_In, filter_In, <- list_elem_of_In.
    change (op ∈ scan (inflight (store e1))) with (op ∈ ops_of e).
    split; intros [Hop Hb]; (split; [done|]); rewrite <- (kept_known e) in * by auto.
    - apply negb_true_iff, not_true_iff_false in Hb. destruct (kept ms cutoff op) eqn:Ek; [done|].
      exfalso. apply Hb, existsb_exists. exists op. rewrite <- list_elem_of_In, Ek. split; [done|].
      cbn. by apply bool_decide_eq_true.
    - apply negb_true_iff, not_true_iff_false. intros (o & Hin & Hk)%existsb_exists.
      apply list_elem_of_In in Hin. apply andb_prop in Hk as [Hk Heq].
      apply (index_ok_unique (ops_of e) op o A1 Hop Hin) in Heq as ->. by rewrite Hb in Hk. }
  assert (forall p, p ∈ outstanding (world e2) -> exists op, op ∈ ops_of e /\ op ∈ ops_of e2 /\
    resumed ms cutoff op = Some p) as Hp.
  { intros p Hp. eapply elem_of_submseteq in Hp; [|exact Hout].
    apply list_elem_of_omap in Hp as (op & Hop & E). exists op. split_and!; [done| |done].
    apply Hops. split; [done|]. rewrite <- (kept_known e) by auto. unfold kept. by rewrite E. }
  assert (forall op, op ∈ ops_of e2 -> exists p, recover_op ms op = Some p /\ p ∈ accepted (world e2)) as Hacc.
  { intros op [Hop Hf']%Hops. rewrite <- (kept_known e) in Hf' by auto. unfold kept in Hf'.
    destruct (resumed ms cutoff op) as [p|] eqn:E; [|done].
    destruct (resumed_known e cutoff op p) as (Hrec & _); [auto|done|]. exists p. split; [done|].
    unfold e2. rewrite start_effect_accepted. apply elem_of_app. right.
    apply list_elem_of_omap. by exists op. }
  assert (ids e2 = ids e) as Eids by done.
  assert (dedup (store e2) = dedup (store e)) as Ed by by rewrite Es.
  assert (sublist (ops_of e2) (ops_of e)) as Hsub by (unfold ops_of; rewrite Hf; apply filter_sublist_std).
  split; [|done]. split; [by rewrite Em| | | | |].
  - split.
    + by eapply index_ok_sublist.
    + intros op Hop. apply A2. by apply Hops.
    + eapply NoDup_submseteq; [by apply omap_submseteq|].
      assert (omap entry_id (omap (resumed ms cutoff) (ops_of e)) ⊆+ map if_id (ops_of e)) as Hids.
      { assert (forall op, op ∈ ops_of e -> op_known e op) as Hk by exact L3. revert Hk.
        generalize (ops_of e). intros l. induction l as [|op l IH]; intros Hk; [done|].
        cbn [omap list_omap map]. destruct (resumed ms cutoff op) as [p|] eqn:E.
        - destruct (resumed_known e cutoff op p) as (_ & _ & _ & Eid); [apply Hk; left|done|].
          cbn [omap list_omap]. rewrite Eid. apply submseteq_skip, IH. intros o Ho'. apply Hk. by right.
        - apply submseteq_cons, IH. intros o Ho'. apply Hk. by right. }
      eapply NoDup_submseteq; [exact Hids|]. by apply index_ids_nodup.
    + intros p id (op & Hop & Hop2 & E)%Hp Hid. exists op. split_and!; [done| |].
      * destruct (resumed_known e cutoff op p) as (_ & _ & _ & Eid); [auto|done|congruence].
      * rewrite Em. by destruct (resumed_known e cutoff op p) as (? & _); [auto|done|].
  - intros op [Hop _]%Hops. apply (op_known_mono e); [lia| |by apply L3].
    intros k. by apply seen_same.
  - eapply sublist_NoDup; [exact L4|]. by apply fmap_sublist.
  - intros p (op & Hop & _ & E)%Hp. by destruct (resumed_known e cutoff op p) as (_ & ? & _); [auto|done|].
  - intros p (op & Hop & _ & E)%Hp _. by destruct (resumed_known e cutoff op p) as (_ & _ & ? & _); [auto|done|].
Qed.
(** Before its boot a process has the collections of the one before it. *)
Lemma new_process_ledger e :
  ledger ms e -> exists e1, register_managers config (new_process e) = (Ok tt, e1) /\ ledger ms e1 /\
    outstanding (world e1) = [] /\ readings e1 = readings e /\ store e1 = store e /\ handed_of e1 = [].
Proof.
  intros [_ [A1 A2 _ _] L3 L4 _ _]. eexists. split; [by apply register_managers_eq|].
  split; [|done]. split; try done; try (by intros p Hp%elem_of_nil).
  split; try done; [apply NoDup_nil_2|by intros p id Hp%elem_of_nil].
Qed.

Lemma restart_effect e :
  ledger ms e ->
  boot config (new_process e) = (Ok tt, restart config e) /\ sys_inv (restart config e) /\
  (forall k, seen k (store e) -> seen k (store (restart config e))) /\
  (forall op, op ∈ ops_of (restart config e) ->
    op ∈ ops_of e \/ exists k, op_key op = Some k /\ ~ seen k (store e)) /\
  (forall op, op ∈ ops_of e ->
    fresh_enough (clock (readings e) - INFLIGHT_MAX_AGE_MS) op = true -> op ∈ ops_of (restart config e)) /\
  (forall op, op ∈ ops_of (restart config e) ->
    exists p, recover_op ms op = Some p /\ p ∈ accepted (world (restart config e))).
Proof.
  intros Hl. destruct (new_process_ledger e Hl) as (e1 & E1 & L1 & O1 & R1 & S1 & K1).
  destruct (start_ledger e1 L1 O1) as (e2 & E2 & L2 & X2 & D2 & Ops2 & Acc2). rewrite R1 in Ops2.
  unfold restart, boot. rewrite (bind_ok _ _ _ _ _ E1), (bind_ok _ _ _ _ _ E2).
  assert (all_known e2) as K2.
  { unfold all_known, handed_of. rewrite X2. fold (handed_of e1). by rewrite K1. }
  destruct (on_pod_of mark_all_started e2) as [r e3] eqn:E3.
  assert (grown ms e2 e3) as G3.
  { pose proof (pod_grown e2 mark_all_started e2 (grown_start ms e2 L2)) as Hg. by rewrite E3 in Hg. }
  assert (all_known e3) as K3.
  { pose proof (pod_all_known mark_all_started mark_all_known e2 K2) as Hk. by rewrite E3 in Hk. }
  assert (r = Ok tt /\ world e3 = world e2 /\ store e3 = store e2 /\ handed_of e3 = []) as (-> & W3 & S3 & Z3).
  { revert E3. unfold on_pod_of, zoom. destruct (mark_all_started (pod_of (ext e2))) as [r' p'] eqn:Em.
    intros [= <- <-]. assert (pod_subs (pod_of (ext e2)) = []) as Hsubs.
    { rewrite X2. rewrite register_managers_eq in E1 by done. by injection E1 as <-. }
    unfold mark_all_started, bind, modify, gets in Em. cbn in Em. rewrite Hsubs in Em. cbn in Em.
    injection Em as <- <-. split_and!; [done|done|done|]. unfold handed_of. cbn. rewrite X2. exact K1. }
  rewrite (bind_ok _ _ _ _ _ E3).
  destruct (deliver_grown e2 e3 G3 K3) as (e4 & E4 & G4 & H4' & _). rewrite E4. cbn [snd].
  assert (world e4 = world e2 /\ store e4 = store e2) as [W4 S4].
  { revert E4. unfold deliver_handed, bind, on_pod_of, zoom, take_handed. unfold handed_of in Z3. rewrite Z3.
    intros [= <-]. cbn. by rewrite W3, S3. }
  assert (forall k, seen k (store e2) <-> seen k (store e)) as Hseen.
  { intros k. unfold seen. by rewrite D2, S1. }
  assert (forall op, op ∈ ops_of e2 <-> op ∈ ops_of e /\
    fresh_enough (clock (readings e) - INFLIGHT_MAX_AGE_MS) op = true) as Hops.
  { intros op. rewrite Ops2. unfold ops_of. by rewrite S1. }
  split_and!; [done|by split; [apply G4|]| | | |].
  4: { intros op Hop. unfold ops_of in Hop. rewrite S4 in Hop. rewrite W4. by apply Acc2. }
  - intros k Hk. apply (gr_seen _ _ _ G4). by apply Hseen.
  - intros op Hop. destruct (gr_new _ _ _ G4 op Hop) as [Ho|(k & Ek & Hn)].
    + left. by apply Hops.
    + right. exists k. split; [done|]. by rewrite <- Hseen.
  - intros op Hop Hf. apply (gr_ops _ _ _ G4). by apply Hops.
Qed.

(** How a document leaves the collection. *)
Definition removed (op : InflightDoc) e e' : Prop :=
  (exists i p, running (world e) !! i = Some p /\ entry_id p = Some (if_id op) /\
     e' = system_process i e) \/
  (e' = restart config e /\ fresh_enough (clock (readings e) - INFLIGHT_MAX_AGE_MS) op = false).

Lemma grown_step e e' :
  grown ms e e' -> handed_of e' = [] ->
  sys_inv e' /\ (forall k, seen k (store e) -> seen k (store e')) /\
  (forall op, op ∈ ops_of e' -> op ∈ ops_of e \/ exists k, op_key op = Some k /\ ~ seen k (store e)) /\
  (forall op, op ∈ ops_of e -> op ∈ ops_of e' \/ removed op e e').
Proof. intros [G1 G2 G3 G4 _] Hh. split_and!; [by split|done|done|]. intros op Hop. left. auto. Qed.

Lemma step_effect e e' :
  sys_inv e -> sys_step config e e' ->
  sys_inv e' /\ (forall k, seen k (store e) -> seen k (store e')) /\
  (forall op, op ∈ ops_of e' -> op ∈ ops_of e \/ exists k, op_key op = Some k /\ ~ seen k (store e)) /\
  (forall op, op ∈ ops_of e -> op ∈ ops_of e' \/ removed op e e').
Proof.
  intros [Hl Hh] Hs. pose proof (grown_start ms e Hl) as G0.
  destruct Hs as [e req|e ws txes|e|e i p Hi|e e' (Em & Ew & Ei & Ed & Ef & Eh)|e].
  - assert (still (grown ms e) (ext e) (engine (webhook (sc_encryptionKey config) req
      (MkHttp e (sv_creds (sy_accounts (ext e))) (sy_metrics (ext e)))).2)) as [G1 X1].
    { refine (http_webhook _ (grown_adding ms main_kinds e) _ (sc_encryptionKey config) req _ _). by split. }
    unfold system_webhook. destruct (webhook _ _ _) as [r h]. cbn [snd] in *.
    apply grown_step; [eapply grown_same; [|exact G1]; by split_and!|].
    unfold handed_of in *. cbn. by rewrite X1.
  - set (dp := subscriber_deps config ws e).
    destruct (on_pod_of (pod_notify ws dp txes) e) as [r e1] eqn:E1.
    pose proof (pod_grown e (pod_notify ws dp txes) e G0) as G1. rewrite E1 in G1. cbn [snd] in G1.
    assert (all_known e1) as K1.
    { assert (all_known e) as K0 by (unfold all_known; by rewrite Hh).
      pose proof (pod_all_known (pod_notify ws dp txes) (on_sub_known _ _ (notify_known dp txes)) e K0) as K1.
      by rewrite E1 in K1. }
    assert (r = Ok tt) as ->.
    { revert E1. unfold on_pod_of, zoom, pod_notify, on_sub. destruct (jget ws _); [|by intros [= <- _]].
      unfold notify, bind, gets. destruct (sb_attached _); [|by intros [= <- _]].
      destruct (forM_ _ _ _) as [r' s'] eqn:Ef. intros [= <- _]. revert Ef. apply forM_caught. }
    destruct (deliver_grown e e1 G1 K1) as (e2 & E2 & G2 & H2' & _).
    assert (system_transactions config ws txes e = (Ok tt, e2)) as ->; [|by apply grown_step].
    unfold system_transactions, bind at 1, gets. fold dp. by rewrite (bind_ok _ _ _ _ _ E1).
  - destruct (still_tick _ (grown_adding ms main_kinds e) (ext e) e) as [G1 X1]; [by split|].
    apply grown_step; [done|]. unfold handed_of in *. by rewrite X1.
  - destruct (process_effect i p e Hl Hh Hi) as (L1 & K1 & O1 & D1).
    destruct (deliver_grown (process i e) (process i e) (grown_start ms _ L1) K1) as (e2 & E2 & G2 & H2' & _).
    assert (system_process i e = e2) as Ep by (unfold system_process; by rewrite E2).
    rewrite Ep. split_and!; [split; [apply G2|done]| | |].
    + intros k Hk. apply (gr_seen _ _ _ G2). by apply (seen_same (store e)).
    + intros op [Ho|(k & Ek & Hn)]%(gr_new _ _ _ G2); [left; by apply O1|]. right.
      exists k. split; [done|]. intros Hs. apply Hn. by apply (seen_same (store e)).
    + intros op Hop. destruct (decide (entry_id p = Some (if_id op))) as [E|E].
      * right. left. by exists i, p.
      * left. apply (gr_ops _ _ _ G2). by apply O1.
  - apply grown_step; [|congruence]. eapply grown_same; [|exact G0]. by split_and!.
  - destruct (restart_effect e Hl) as (_ & S1 & S2 & S3 & S4 & _). split_and!; [done|done|done|].
    intros op Hop. destruct (fresh_enough (clock (readings e) - INFLIGHT_MAX_AGE_MS) op) eqn:Ef.
    + left. by apply S4.
    + right. by right.
Qed.
(** ** Theorems *)

Lemma deployed_inv e0 : ops_of e0 = [] -> sys_inv (restart config e0).
Proof.
  intros H0'. set (e := MkEngine ms (store e0) [] (init 1000) (ext e0) (readings e0) (ids e0)).
  assert (restart config e0 = restart config e) as ->.
  { unfold restart. assert (new_process e0 = new_process e) as -> by reflexivity. done. }
  assert (ledger ms e) as Hl; [|by apply restart_effect].
  split; try done; unfold ops_of; cbn [store e]; fold (ops_of e0); rewrite ?H0'.
  - split; cbn [store e]; fold (ops_of e0); rewrite ?H0'; [done|by intros op ?%elem_of_nil| |by intros p id ?%elem_of_nil].
    apply NoDup_nil_2.
  - by intros op ?%elem_of_nil.
  - apply NoDup_nil_2.
  - by intros p ?%elem_of_nil.
  - by intros p ?%elem_of_nil.
Qed.

Lemma reach_inv e e' : sys_inv e -> sys_reach config e e' -> sys_inv e'.
Proof. intros He. induction 1 as [|e1 e2 _ IH Hs]; [done|]. by apply (step_effect e1). Qed.

Lemma outstanding_doc e p k :
  ledger ms e -> p ∈ outstanding (world e) -> remote_key p = Some k ->
  exists op, op ∈ ops_of e /\ entry_id p = Some (if_id op) /\ recover_op ms op = Some p /\ op_key op = Some k.
Proof.
  intros [L1 L2 _ _ _ L6] Hp Hk. destruct (L6 p Hp) as [id Hid]; [by eexists|].
  destruct (ah_doc _ L2 p id Hp Hid) as (op & Hop & <- & Hr). rewrite L1 in Hr.
  exists op. split_and!; [done|done|done|]. by rewrite <- (recover_op_key ms op p Hr).
Qed.

Lemma op_key_inj e op op' :
  ledger ms e -> op ∈ ops_of e -> op' ∈ ops_of e -> op_key op = op_key op' -> op = op'.
Proof.
  intros [_ _ _ L4 _ _]. revert L4. generalize (ops_of e). intros l. induction l as [|x l IH].
  - by intros _ ?%elem_of_nil.
  - cbn [map]. intros [Hx Hl]%NoDup_cons Ho Ho' E. apply elem_of_cons in Ho as [->|Ho], Ho' as [->|Ho']; try done.
    + exfalso. apply Hx. rewrite E. by apply list_elem_of_fmap_2.
    + exfalso. apply Hx. rewrite <- E. by apply list_elem_of_fmap_2.
    + by apply IH.
Qed.

Lemma outstanding_distinct e : ledger ms e -> NoDup (omap remote_key (outstanding (world e))).
Proof.
  intros Hl. pose proof (ah_nodup _ (lg_ahead _ _ Hl)) as Hn.
  assert (forall p, p ∈ outstanding (world e) -> p ∈ outstanding (world e)) as Hin by done. revert Hn Hin.
  generalize (outstanding (world e)) at 1 2 4. intros l. induction l as [|p l IH]; intros Hn Hin; [apply NoDup_nil_2|].
  assert (NoDup (omap remote_key l)) as Hr.
  { apply IH; [|intros q Hq; apply Hin; by right]. cbn [omap list_omap] in Hn.
    destruct (entry_id p); [by apply NoDup_cons in Hn as [_ ?]|done]. }
  cbn [omap list_omap]. destruct (remote_key p) as [k|] eqn:Ek; [|done].
  apply NoDup_cons. split; [|done]. intros (q & Hq & Eq)%list_elem_of_omap.
  destruct (outstanding_doc e p k Hl) as (op & Ho & Eid & _ & Hop); [apply Hin; left|done|].
  destruct (outstanding_doc e q k Hl) as (op' & Ho' & Eid' & _ & Hop'); [apply Hin; by right|done|].
  assert (op = op') as <- by (apply (op_key_inj e); [done|done|done|congruence]).
  cbn [omap list_omap] in Hn. rewrite Eid in Hn. apply NoDup_cons in Hn as [Hn _].
  apply Hn, elem_of_ids. by exists q.
Qed.

(** C1: the ledger of the running program: from an empty inflight
    collection on, through webhooks, transactions, sweeps, processing with
    what the managers hand back, other changes of the rest and restarts,
    every queued or running item has a registered manager, every webhook
    event among them has its own inflight document from which a restart would
    resume exactly that item, no event is there twice, and every document's
    event is recorded as seen - as long as MongoDB expires none of them
    (SystemTtl). *)
Theorem system_ledger e0 e :
  ops_of e0 = [] -> sys_reach config (restart config e0) e ->
  (forall p, p ∈ outstanding (world e) -> is_Some (jget (qe_kind p.2) (managers e))) /\
  (forall p k, p ∈ outstanding (world e) -> remote_key p = Some k ->
     exists op, op ∈ ops_of e /\ entry_id p = Some (if_id op) /\ recover_op (managers e) op = Some p) /\
  NoDup (omap remote_key (outstanding (world e))) /\
  (forall op, op ∈ ops_of e -> exists k, op_key op = Some k /\ seen k (store e)).
Proof.
  intros H0' Hr. destruct (reach_inv _ _ (deployed_inv e0 H0') Hr) as [Hl _].
  pose proof Hl as [L1 _ L3 _ L5 _]. rewrite L1. split_and!.
  - intros p Hp. destruct (jget _ ms) eqn:E; [by eexists|]. apply jget_None_keys in E.
    rewrite main_managers_kinds in E. by destruct E; apply L5.
  - intros p k Hp Hk. destruct (outstanding_doc e p k Hl Hp Hk) as (op & ? & ? & ? & _). by exists op.
  - by apply outstanding_distinct.
  - intros op (n & now & b & k & r & ev & v & _ & -> & _ & Hs)%L3. exists (b, ev, v).
    split; [apply webhook_op_key|done].
Qed.

(** An event that is recorded and has no inflight document any more. *)
Definition finished (k : event_key) e : Prop :=
  seen k (store e) /\ forall op, op ∈ ops_of e -> op_key op <> Some k.

(** An event whose processing has ended never comes back: however often
    GitLab delivers it again, a sweep lists it again or the process restarts,
    no item of the queue carries it and no document is written for it, in
    histories in which MongoDB expires nothing. *)
Theorem finished_stays e0 e e' k :
  ops_of e0 = [] -> sys_reach config (restart config e0) e -> finished k e -> sys_reach config e e' ->
  finished k e' /\ forall p, p ∈ outstanding (world e') -> remote_key p <> Some k.
Proof.
  intros H0' Hr Hf Hr'. pose proof (reach_inv _ _ (deployed_inv e0 H0') Hr) as He.
  assert (sys_inv e' /\ finished k e') as [[Hl _] Hf'].
  { clear Hr. induction Hr' as [|e1 e2 _ IH Hs]; [done|]. destruct IH as [I1 [F1 F2]].
    destruct (step_effect e1 e2 I1 Hs) as (I2 & S2 & N2 & _). split; [done|]. split; [by apply S2|].
    intros op [Ho|(k' & Ek & Hn)]%N2; [by apply F2|]. intros E. rewrite Ek in E. injection E as ->. done. }
  split; [done|]. intros p Hp Hk. destruct (outstanding_doc e' p k Hl Hp Hk) as (op & Ho & _ & _ & Ek).
  by apply (proj2 Hf' op).
Qed.

(** C3: no accepted event is lost: its inflight document stays through
    every step but two, the end of the processing of the item that carries
    it and a restart more than an hour after it was accepted; and a restart
    enqueues every document it keeps again, as the item it was.  (MongoDB may
    expire the document of an event that waits longer: SystemTtl.) *)
Theorem no_event_lost e0 e e' op :
  ops_of e0 = [] -> sys_reach config (restart config e0) e -> sys_step config e e' -> op ∈ ops_of e ->
  (op ∈ ops_of e' \/
   (exists i p, running (world e) !! i = Some p /\ recover_op (managers e) op = Some p /\
      e' = system_process i e) \/
   (e' = restart config e /\ (clock (readings e) - if_startedAt op > INFLIGHT_MAX_AGE_MS)%Z)) /\
  (op ∈ ops_of (restart config e) ->
   exists p, recover_op (managers e) op = Some p /\ p ∈ accepted (world (restart config e))).
Proof.
  intros H0' Hr Hs Hop. pose proof (reach_inv _ _ (deployed_inv e0 H0') Hr) as He. pose proof He as [Hl _].
  destruct (step_effect e e' He Hs) as (_ & _ & _ & Hrem). split.
  2: { rewrite (lg_managers _ _ Hl). by apply (restart_effect e Hl). }
  destruct (Hrem op Hop) as [?|[(i & p & Hi & Hid & E)|[E Hf]]]; [by left| |].
  - right. left. exists i, p. split_and!; [done| |done].
    assert (p ∈ outstanding (world e)) as Hp by (rewrite <- (outstanding_settle i p _ Hi); left).
    destruct (ah_doc _ (lg_ahead _ _ Hl) p _ Hp Hid) as (o & Ho & Eo & Er).
    assert (o = op) as <-; [|done].
    apply (index_ok_unique (ops_of e)); [apply (ah_index _ (lg_ahead _ _ Hl))|done|done|].
    cbn. by apply bool_decide_eq_true.
  - right. right. split; [done|]. unfold fresh_enough in Hf.
    apply negb_false_iff, Z.ltb_lt in Hf. lia.
Qed.
End Program.
