(* ===== verification/SystemTtl.v ===== *)
(** * What MongoDB expires (the TTL indexes of src/state/store.ts)

    The monitor of MongoDB removes the record of an event after seven days
    and its inflight document after one hour, whatever the program is doing.
    The ledger of SystemLedger speaks of histories in which it removes
    nothing; here it may run between any two steps.  What is left is the
    guarantee that matters for duplicates: an event that is over stays over
    as long as its record does. *)

From S2P Require Import Prelude JsMap JsString JsVal Metrics Platform Conflict Breaker Queue.
From S2P Require Import Mongo Store Credentials Ids StatusMap Huly Caches Engine Sync BindingLoader.
From S2P Require Import TxSubscriber FieldSync Issues MergeRequests Notes Reviews Epics Pipeline.
From S2P Require Import Backfill Webhook ManagersQuiet System SystemProofs SystemLedger.
Open Scope nat_scope.
Open Scope string_scope.
Open Scope list_scope.

(** ** Events at rest *)

Section AtRest.
Context {Coll : Type -> Type} `{HL : MongoLaws Coll} {P : Platform} {X : Type}.
Implicit Types (e : Engine Coll X).
Context (ms : jsmap string (SyncManager Coll X)) (Hms : forall k, k ∈ jkeys ms -> k ∈ sync_kinds).

(** Recorded, not queued or running, and without an inflight document. *)
Definition at_rest (k : event_key) e : Prop :=
  seen k (store e) /\ (forall op, op ∈ ops_of e -> op_key op <> Some k) /\
  (forall p, p ∈ outstanding (world e) -> remote_key p <> Some k).

(** The events of [K] are at rest in a store. *)
Record store_rest (K : event_key -> Prop) (s : Store Coll) : Prop := {
  rt_index : index_ok (scan (inflight s));
  rt_ids : op_ids_ok (scan (inflight s));
  rt_seen : forall k, K k -> seen k s;
  rt_ops : forall op k, op ∈ scan (inflight s) -> op_key op = Some k -> ~ K k
}.

Definition entry_rest (K : event_key -> Prop) (p : string * QueueEntry) : Prop :=
  entry_ok p.2 /\ forall k, remote_key p = Some k -> ~ K k.

(** The same of a state with the managers [ms]. *)
Record resting (K : event_key -> Prop) e : Prop := {
  rs_managers : managers e = ms;
  rs_store : store_rest K (store e);
  rs_queue : forall p, p ∈ outstanding (world e) -> entry_rest K p
}.

Context (K : event_key -> Prop).

Lemma store_rest_sub s s' :
  dedup s' = dedup s -> sublist (scan (inflight s')) (scan (inflight s)) -> store_rest K s -> store_rest K s'.
Proof.
  intros Ed Hs [H1 H2 H3 H4].
  assert (forall op, op ∈ scan (inflight s') -> op ∈ scan (inflight s)) as Hin
    by (intros op Hop; by eapply elem_of_submseteq; [|apply sublist_submseteq]).
  split; [by eapply index_ok_sublist|intros op Hop; by apply H2, Hin| |eauto].
  intros k Hk. apply (seen_same s); [done|auto].
Qed.

Lemma resting_same e e' : same_side e e' -> resting K e -> resting K e'.
Proof.
  intros (Em & Ew & _ & Ed & Ef) [H1 H2 H3]. split; rewrite ?Em, ?Ew; [done| |done].
  apply (store_rest_sub (store e)); [done|by rewrite Ef|done].
Qed.

Lemma resting_enqueue e key entry :
  entry_rest K (key, entry) -> resting K e -> resting K (set_world (do_enqueue key entry (world e)) e).
Proof.
  intros He [H1 H2 H3]. split; [done|done|]. intros p Hp.
  eapply elem_of_submseteq in Hp; [|apply outstanding_enqueue]. apply elem_of_cons in Hp as [->|Hp]; auto.
Qed.

Lemma resting_plain key entry :
  qe_inflightId entry = None -> remote_key (key, entry) = None -> preserves (resting K) (enqueue_entry key entry).
Proof.
  intros Hid Hr e He. apply resting_enqueue; [|done]. unfold entry_rest, entry_ok. cbn [snd]. by rewrite Hid, Hr.
Qed.

Lemma resting_webhook b k r ev v : preserves (resting K) (enqueueWebhookEvent b k r ev v).
Proof.
  intros e [H1 [R1 R2 R3 R4] H3].
  destruct (enqueueWebhookEvent_eq b k r ev v e) as (s & Hs & [c0 ->] & [[_ E]|[Hn E]]); cbn zeta in *.
  { rewrite E. split; [done| |done]. split; try done. intros x Hx. apply Hs. auto. }
  set (op := webhook_op _ _ _ _ _ _ _) in *.
  assert (forall x, K x -> (b, ev, v) <> x) as Hfresh by (intros x Hx <-; auto).
  destruct (insertOne op (inflight (store e))) as [c|] eqn:Hi; rewrite E; cbn [snd].
  2: { split; [done| |done]. split; try done. intros x Hx. apply Hs. auto. }
  pose proof (insertOne_ok _ _ _ R1 Hi) as Hok. apply insertOne_Some, ref_insert_Some in Hi as [Hr _].
  split; cbn [managers store world]; [done| |].
  - split; cbn [inflight set_inflight]; [done| | |].
    + rewrite Hr. intros o [Ho| ->%list_elem_of_singleton]%elem_of_app; [by apply R2|apply freshObjectId_hex].
    + intros x Hx. apply Hs. auto.
    + rewrite Hr. intros o x [Ho| ->%list_elem_of_singleton]%elem_of_app Hx; [by eapply R4|].
      unfold op in Hx. rewrite webhook_op_key in Hx. injection Hx as <-. intros Hx. by apply (Hfresh _ Hx).
  - intros p Hp. eapply elem_of_submseteq in Hp; [|apply outstanding_enqueue].
    apply elem_of_cons in Hp as [->|Hp]; [|by apply H3]. split; [apply freshObjectId_hex|].
    intros x [= <-] Hx. by apply (Hfresh _ Hx).
Qed.

Lemma resting_adding : adding (resting K).
Proof.
  split; [|apply resting_same|intros; apply resting_webhook|intros; by apply resting_plain].
  intros e k [Em _ _]. rewrite Em. apply Hms.
Qed.

(** *** Dispatch *)

Lemma resting_process i p e :
  quiet ms -> running (world e) !! i = Some p -> resting K e -> resting K (process i e).
Proof.
  intros Hq Hi [H1 H2 H3]. pose proof (outstanding_settle i p (world e) Hi) as Ho.
  assert (p ∈ outstanding (world e)) as Hp by (rewrite <- Ho; left).
  destruct (H3 p Hp) as [Hok _]. destruct p as [key entry]. unfold process. rewrite Hi. cbn [snd] in Hok.
  rewrite <- H1 in Hq. destruct (dispatch_quiet entry e Hq Hok) as (e' & -> & Em & Ew & _ & Ed & Ei).
  cbn [snd]. split; cbn [managers store world set_world]; [congruence| |].
  - apply (store_rest_sub (store e)); [done| |done]. rewrite Ei. unfold store_drop.
    destruct (qe_inflightId entry); [|done]. cbn [inflight set_inflight]. rewrite deleteOne_scan.
    apply remove_first_sublist.
  - intros q Hq'. apply H3. rewrite <- Ho. right. by rewrite Ew in Hq'.
Qed.

(** *** The start of a process *)

Lemma recovered_rest (s : Store Coll) op p :
  store_rest K s -> op ∈ scan (inflight s) -> recover_op ms op = Some p -> entry_rest K p.
Proof.
  intros [_ R2 _ R4] Hop Hr. split.
  - assert (qe_inflightId p.2 = Some (if_id op)) as Hid.
    { revert Hr. unfold recover_op. destruct (after_prefix "remote:" _); [by intros [= <-]|].
      destruct (after_prefix "local:" _); [by intros [= <-]|done]. }
    unfold entry_ok. rewrite Hid. by apply R2.
  - intros k Hk. rewrite (recover_op_key ms op p Hr) in Hk. by eapply R4.
Qed.

Lemma resting_start e :
  resting K e -> exists e', start e = (Ok tt, e') /\ resting K e' /\ ext e' = ext e.
Proof.
  intros [H1 H2 H3]. eexists. split; [apply start_eq; apply H2|]. rewrite H1.
  set (e1 := MkEngine _ _ _ _ _ _ _). set (cutoff := (clock (readings e) - INFLIGHT_MAX_AGE_MS)%Z).
  pose proof (start_effect_frame ms cutoff (scan (inflight (store e))) e1) as (Em & _ & Ex & _ & _ & c & Es).
  pose proof (start_effect_inflight ms cutoff (scan (inflight (store e))) e1 (rt_index _ _ H2)) as Hf.
  split; [|done]. split; [by rewrite Em| |].
  - apply (store_rest_sub (store e)); [by rewrite Es|rewrite Hf; apply filter_sublist_std|done].
  - assert (forall ops e2, (forall op, op ∈ ops -> op ∈ scan (inflight (store e))) ->
      (forall p, p ∈ outstanding (world e2) -> entry_rest K p) ->
      forall p, p ∈ outstanding (world (start_effect ms cutoff ops e2)) -> entry_rest K p) as Hall.
    { intros ops. induction ops as [|op ops IH]; intros e2 Hops He2; [done|]. unfold start_effect. cbn [fold_left].
      apply IH; [intros o Ho; apply Hops; by right|]. unfold start_step.
      destruct (resumed ms cutoff op) as [[key entry]|] eqn:Er; [|done]. intros p Hp.
      eapply elem_of_submseteq in Hp; [|apply outstanding_enqueue]. apply elem_of_cons in Hp as [->|Hp]; [|auto].
      apply (recovered_rest (store e) op); [done|apply Hops; left|]. unfold resumed in Er. by destruct (_ <? _)%Z. }
    apply Hall; [done|]. exact H3.
Qed.

(** *** Expiry *)

Lemma expired_rest s now :
  store_rest K s -> (forall k, K k -> seen k (expire_documents now s)) -> store_rest K (expire_documents now s).
Proof.
  intros [R1 R2 R3 R4] Hk.
  assert (sublist (scan (inflight (expire_documents now s))) (scan (inflight s))) as Hs
    by (cbn; rewrite deleteMany_scan; apply filter_sublist_std).
  assert (forall op, op ∈ scan (inflight (expire_documents now s)) -> op ∈ scan (inflight s)) as Hin
    by (intros op Hop; by eapply elem_of_submseteq; [|apply sublist_submseteq]).
  split; [by eapply index_ok_sublist|intros op Hop; by apply R2, Hin|done|eauto].
Qed.

(** A record younger than seven days stays. *)
Lemma record_outlives s now d k :
  d ∈ scan (dedup s) -> (dd_bindingId d, dd_eventId d, dd_version d) = k -> (now <= dd_createdAt d + DEDUP_TTL_MS)%Z ->
  seen k (expire_documents now s).
Proof.
  intros Hd <- Hnow. unfold seen. exists d. cbn. rewrite deleteMany_scan, list_elem_of_In, filter_In, <- list_elem_of_In.
  split; [|by apply by_event_spec]. split; [done|]. apply negb_true_iff, Z.ltb_ge. lia.
Qed.
End AtRest.

(** ** The program *)

Section Program.
Context {Coll : Type -> Type} `{HL : MongoLaws Coll} {P : Platform} {C : Cipher} `{Sha256} `{Markdown} `{FastEquals}.
Context {HU GL A W : Type} `{HulyClient HU} `{IssueGitLabClient GL} `{LabelGitLabClient GL}
  `{MilestoneGitLabClient GL} `{MergeRequests.MRGitLabClient GL} `{NoteGitLabClient GL} `{MRReviewGitLabClient GL}
  `{EpicGitLabClient GL} `{AccountClient A} `{LoaderWorld W}.
Abbreviation SV := (Services Coll A W).
Abbreviation X := (SyncState HU GL SV).
Abbreviation EN := (Engine Coll X).
Implicit Types (e : EN).
Context (config : SystemConfig (Coll := Coll) (HU := HU) (GL := GL) (A := A) (W := W)).
Abbreviation ms := (main_managers config).
Context (Hmirror : mirror_harmless config).

(** A step of the program or of MongoDB's monitor. *)
Inductive ttl_step e : EN -> Prop :=
  | ts_program e' : sys_step config e e' -> ttl_step e e'
  | ts_expire now : ttl_step e (Engine.set_store (expire_documents now (store e)) e).

(** Histories in which the records of the events of [K] are never expired. *)
Inductive ttl_reach (K : event_key -> Prop) e0 : EN -> Prop :=
  | tr_refl : ttl_reach K e0 e0
  | tr_step e e' :
      ttl_reach K e0 e -> ttl_step e e' -> (forall k, K k -> seen k (store e')) -> ttl_reach K e0 e'.

Context (K : event_key -> Prop).
Abbreviation rest := (resting ms K).

Lemma rest_adding : adding rest.
Proof. apply resting_adding, main_kinds. Qed.

Lemma rest_pod {B} (m : M (Pod (list Handed)) B) : preserves rest (on_pod_of m).
Proof. apply (adds_frame _ rest_adding). intros e. unfold on_pod_of, zoom. destruct (m _). by split_and!. Qed.

Lemma rest_handed h : preserves rest (enqueue_handed h).
Proof. destruct h; [apply resting_webhook|by apply resting_plain]. Qed.

Lemma rest_deliver : preserves rest deliver_handed.
Proof. pose proof (@rest_pod). pose proof rest_handed. unfold deliver_handed. quiet_tac. Qed.

Lemma rest_restart e : store_rest K (store e) -> rest (restart config e).
Proof.
  intros Hs. unfold restart, boot.
  rewrite (bind_ok _ _ _ _ _ (register_managers_eq config (new_process e) eq_refl)).
  set (e1 := MkEngine _ _ _ _ _ _ _).
  assert (rest e1) as R1 by (split; [done|exact Hs|by intros p Hp%elem_of_nil]).
  destruct (resting_start ms K e1 R1) as (e2 & E2 & R2 & _). rewrite (bind_ok _ _ _ _ _ E2).
  apply (preserves_bind rest _ _ (rest_pod mark_all_started) (fun _ => rest_deliver) e2 R2).
Qed.

Lemma rest_step e e' : rest e -> sys_step config e e' -> rest e'.
Proof.
  intros He Hs. destruct Hs as [e req|e ws txes|e|e i p Hi|e e' (Em & Ew & Ei & Ed & Ef & _)|e].
  - pose proof (http_webhook _ rest_adding (ext e) (sc_encryptionKey config) req
      (MkHttp e (sv_creds (sy_accounts (ext e))) (sy_metrics (ext e))) (conj He eq_refl)) as [G1 _].
    unfold system_webhook. destruct (webhook _ _ _) as [r h]. cbn [snd] in *.
    eapply resting_same; [|exact G1]. by split_and!.
  - assert (preserves rest (system_transactions config ws txes)) as Ht; [|by apply Ht].
    pose proof rest_deliver. pose proof (@rest_pod). unfold system_transactions. quiet_tac.
  - apply (still_tick _ rest_adding (ext e) e). by split.
  - unfold system_process. apply rest_deliver, (resting_process ms K i p); [|done|done].
    by apply main_quiet.
  - eapply resting_same; [|exact He]. by split_and!.
  - apply rest_restart, He.
Qed.

Lemma rest_ttl e e' :
  rest e -> ttl_step e e' -> (forall k, K k -> seen k (store e')) -> rest e'.
Proof.
  intros He [e1 Hs|now] Hk; [by eapply rest_step|]. destruct He as [M1 S1 Q1]. split; [done| |done].
  by apply expired_rest.
Qed.

Lemma rest_reach e e' : rest e -> ttl_reach K e e' -> rest e'.
Proof. intros He. induction 1 as [|e1 e2 _ IH Hs Hk]; [done|]. by apply (rest_ttl e1). Qed.
End Program.

Section Finished.
Context {Coll : Type -> Type} `{HL : MongoLaws Coll} {P : Platform} {C : Cipher} `{Sha256} `{Markdown} `{FastEquals}.
Context {HU GL A W : Type} `{HulyClient HU} `{IssueGitLabClient GL} `{LabelGitLabClient GL}
  `{MilestoneGitLabClient GL} `{MergeRequests.MRGitLabClient GL} `{NoteGitLabClient GL} `{MRReviewGitLabClient GL}
  `{EpicGitLabClient GL} `{AccountClient A} `{LoaderWorld W}.
Context (config : SystemConfig (Coll := Coll) (HU := HU) (GL := GL) (A := A) (W := W)).
Context (Hmirror : mirror_harmless config).

Lemma at_rest_resting k (e : Engine Coll (SyncState HU GL (Services Coll A W))) :
  resting (main_managers config) (fun _ => False) e -> at_rest k e -> resting (main_managers config) (eq k) e.
Proof.
  intros [M [R1 R2 _ _] Q] (Hseen & Hops & Hq). split; [done| |].
  - split; [done|done|by intros k' <-|]. intros op k' Hop E <-. by apply (Hops op).
  - intros p Hp. split; [apply Q, Hp|]. intros k' E <-. by apply (Hq p).
Qed.

Lemma resting_at_rest k (e : Engine Coll (SyncState HU GL (Services Coll A W))) :
  resting (main_managers config) (eq k) e -> at_rest k e.
Proof.
  intros [_ [_ _ R3 R4] Q]. split_and!; [by apply R3| |].
  - intros op Hop E. by apply (R4 op k).
  - intros p Hp E. by apply (proj2 (Q p Hp) k).
Qed.

(** C2: an event that is over - recorded, not queued, not running, without an
    inflight document - stays over as long as MongoDB keeps its record,
    however often GitLab delivers it again, a sweep lists it again, the
    process restarts, or the monitor expires other documents. *)
Theorem finished_until_expired e0 e e' k :
  ops_of e0 = [] -> ttl_reach config (fun _ => False) (restart config e0) e -> at_rest k e ->
  ttl_reach config (eq k) e e' -> at_rest k e'.
Proof.
  intros Hops Hr Hk Hr'. apply resting_at_rest.
  eapply (rest_reach config Hmirror (eq k)); [|exact Hr']. apply at_rest_resting; [|done].
  eapply (rest_reach config Hmirror); [|exact Hr]. apply rest_restart.
  unfold ops_of in Hops. split; rewrite ?Hops; try done; [by intros op ?%elem_of_nil|].
  by intros op k' ?%elem_of_nil.
Qed.
End Finished.
