(* ===== verification/SystemDrains.v ===== *)
(** * Processing ends (the whole program)

    A handler can hand records back to the queue: a backfill hands over what
    it lists, a note whose parent is not mirrored hands itself over again, a
    note of a review thread hands its thread to the review manager.  This
    file shows that this comes to an end.  In whatever order the running
    items are processed, and whatever the managers find and throw, a process
    that receives nothing from outside reaches a state in which nothing is
    queued or running. *)

From S2P Require Import Prelude JsMap JsString JsVal Metrics Platform Conflict Breaker Queue.
From S2P Require Import Mongo Store Credentials Ids StatusMap Huly Caches Engine Sync BindingLoader.
From S2P Require Import TxSubscriber FieldSync Issues MergeRequests Notes Reviews Epics Pipeline.
From S2P Require Import NotesProofs Backfill Webhook ManagersQuiet System SystemProofs SystemLedger.
Open Scope nat_scope.
Open Scope string_scope.
Open Scope list_scope.

(** ** The queue makes progress *)

Section Progress.
Context {T : Type}.
Implicit Types (w : World T) (q : EventQueue T).

(** An entry with items is being processed, and one that is being processed
    has a running call. *)
Definition entry_served (keys : list string) (k : string) (e : QEntry T) : Prop :=
  (items e <> [] -> processing e = true) /\ (processing e = true -> k ∈ keys).

Definition served w : Prop :=
  forall k e, jget k (queues (queue w)) = Some e -> entry_served (map fst (running w)) k e.

Lemma entry_served_mono keys keys' k e :
  (k ∈ keys -> k ∈ keys') -> entry_served keys k e -> entry_served keys' k e.
Proof. intros Hk [H1 H2]. split; auto. Qed.

Lemma track_entry key q k e :
  jwf (queues q) -> jget k (queues (enqueue_track key q).1) = Some e ->
  jget k (queues q) = Some e \/ e = MkQEntry [] false.
Proof.
  intros Hwf. unfold enqueue_track. destruct (evictOldest _ _ _) as [[ev order] active].
  set (qs := match ev with Some _ => _ | None => _ end).
  assert (jget k qs = Some e -> jget k (queues q) = Some e) as Hqs.
  { unfold qs. destruct ev as [k0|]; [|done]. rewrite jget_delete by done. by case_decide. }
  destruct (jhas key qs); cbn [fst queues]; [auto|]. destruct (decide (k = key)) as [->|Hne].
  - rewrite jget_set_eq. intros [= <-]. by right.
  - rewrite jget_set_ne by done. auto.
Qed.

(** Every entry but the key's own is served by [keys]. *)
Definition others_served (keys : list string) (key : string) q : Prop :=
  forall k e, k <> key -> jget k (queues q) = Some e -> entry_served keys k e.

Lemma others_set keys key q k e0 e :
  others_served keys key q -> (forall keys', entry_served (keys ++ keys') key e0) ->
  jget k (jset key e0 (queues q)) = Some e -> entry_served keys k e.
Proof.
  intros Hk He0. destruct (decide (k = key)) as [->|Hne].
  - rewrite jget_set_eq. intros [= <-]. specialize (He0 []). by rewrite app_nil_r in He0.
  - rewrite jget_set_ne by done. by apply Hk.
Qed.

Lemma runKey_served keys key q k e :
  others_served keys key q -> jget k (queues (runKey key q).1) = Some e ->
  entry_served (keys ++ map fst (starts (runKey key q).2)) k e.
Proof.
  intros Hk. unfold runKey. destruct (jget key (queues q)) as [e0|] eqn:E0; [destruct (items e0) as [|x rest]|].
  - cbn. rewrite app_nil_r. apply others_set; done.
  - cbn. intros He. destruct (decide (k = key)) as [->|Hne].
    + rewrite jget_set_eq in He. injection He as <-. split; [done|]. intros _. apply elem_of_app. right. left.
    + rewrite jget_set_ne in He by done. eapply entry_served_mono; [|by apply (Hk k)].
      intros Hin. apply elem_of_app. by left.
  - cbn. rewrite app_nil_r. intros He. apply Hk; congruence.
Qed.

Lemma resume_served keys key q k e :
  others_served keys key q -> jget k (queues (runKey_resume key q).1) = Some e ->
  entry_served (keys ++ map fst (starts (runKey_resume key q).2)) k e.
Proof.
  intros Hk. unfold runKey_resume. destruct (jget key (queues q)) as [e0|] eqn:E0.
  - destruct (items e0) as [|x rest]; [|by apply runKey_served].
    destruct (notify_starts key (set_queues (jset key (MkQEntry [] false) (queues q)) q)) as [-> ->].
    cbn. rewrite app_nil_r. by apply others_set.
  - cbn. rewrite app_nil_r. intros He. apply Hk; congruence.
Qed.

Lemma served_enqueue n key x w :
  1 <= n -> reachable n w -> served w -> served (do_enqueue key x w).
Proof.
  intros Hn Hr Hw k e. destruct (tracked_reachable n w Hn Hr) as [Ht _].
  unfold do_enqueue, perform. cbn [queue running]. unfold enqueue.
  pose proof (fun k e => track_entry key (queue w) k e (tr_queues_wf _ Ht)) as Htr.
  pose proof (waiting_track key (queue w)) as [Hs _].
  destruct (enqueue_track key (queue w)) as [q ev]. cbn [fst snd] in Htr, Hs.
  assert (forall k e, jget k (queues q) = Some e -> entry_served (map fst (running w)) k e) as Hq.
  { intros k1 e1 [He| ->]%Htr; [by apply Hw|done]. }
  destruct (jget key (queues q)) as [e0|] eqn:E0; cbn [fst snd].
  2: { rewrite Hs, app_nil_r. apply Hq. }
  destruct (processing e0) eqn:Ep.
  - cbn [fst snd set_queues queues]. rewrite Hs, app_nil_r. destruct (decide (k = key)) as [->|Hne].
    + rewrite jget_set_eq. intros [= <-]. split; [done|]. intros _. by apply (Hq key e0).
    + rewrite jget_set_ne by done. apply Hq.
  - pose proof (runKey_served (map fst (running w)) key
      (set_queues (jset key (MkQEntry (items e0 ++ [x]) false) (queues q)) q) k e) as Hrun.
    destruct (runKey _ _) as [q2 ev2]. cbn [fst snd] in *. rewrite starts_app, Hs, map_app. apply Hrun.
    intros k1 e1 Hne. cbn [set_queues queues]. rewrite jget_set_ne by done. apply Hq.
Qed.

Lemma served_settle i w : served w -> served (do_settle i w).
Proof.
  intros Hw. unfold do_settle. destruct (running w !! i) as [[key x]|] eqn:Hi; [|done].
  intros k e. cbn [perform queue running fst snd]. rewrite map_app. apply resume_served.
  intros k1 e1 Hne He. eapply entry_served_mono; [|by apply Hw].
  intros (p & E & Hp)%list_elem_of_fmap. apply list_elem_of_fmap. exists p. split; [done|].
  rewrite (delete_Permutation _ _ _ Hi), elem_of_cons in Hp. destruct Hp as [->|?]; [by cbn in E|done].
Qed.

Lemma served_reachable n w : 1 <= n -> reachable n w -> served w.
Proof.
  intros Hn. induction 1 as [|w w' Hr IH Hs]; [by intros k e|].
  destruct Hs as [w key x|w i key x Hi|w p key Hp].
  - by eapply served_enqueue.
  - by apply served_settle.
  - intros k e. unfold do_wait, perform, waitForIdle. destruct (isIdle key (queue w)); cbn;
      rewrite app_nil_r; apply IH.
Qed.

Lemma waiting_nothing (m : jsmap string (QEntry T)) :
  jwf m -> (forall k e, jget k m = Some e -> items e = []) -> waiting_of m = [].
Proof.
  unfold waiting_of. induction m as [|[k e] m IH]; intros Hwf Hm; [done|]. apply NoDup_cons in Hwf as [Hk Hwf].
  cbn [map concat fst snd]. rewrite (Hm k e) by (cbn; by rewrite decide_True). apply IH; [done|].
  intros k' e' He'. apply (Hm k'). cbn. rewrite decide_False; [done|]. intros ->. by apply Hk, (jget_Some_keys m k e').
Qed.

(** When no call runs nothing waits. *)
Lemma idle_nothing_outstanding n w :
  1 <= n -> reachable n w -> running w = [] -> outstanding w = [].
Proof.
  intros Hn Hr E. destruct (tracked_reachable n w Hn Hr) as [Ht _].
  unfold outstanding. rewrite E. apply waiting_nothing; [apply Ht|].
  intros k e He. destruct (served_reachable n w Hn Hr k e He) as [H1 H2]. rewrite E in H2.
  destruct (items e); [done|]. exfalso. by apply (elem_of_nil k), H2, H1.
Qed.
End Progress.

(** ** What is left to do *)

(** A backfill counts apart: it can hand over any number of records.  A note
    can be handed over again, and once as a review thread; a thread can be
    handed over again. *)
Definition record_weight (kind : string) (r : record) : nat :=
  if bool_decide (kind = "note") then 4 + tries r
  else if bool_decide (kind = "review") then 1 + tries r else 1.

Definition entry_weight (entry : QueueEntry) : nat :=
  match qe_event entry with
  | EvRemote _ r _ _ => record_weight (qe_kind entry) r
  | EvLocal _ _ _ => 1
  | EvBackfill _ _ => 0
  end.

Definition is_listing (event : SyncEvent) : bool :=
  match event with EvBackfill _ _ => true | _ => false end.

Definition handed_weight (h : Handed) : nat :=
  match h with HandedRemote _ k r _ _ => record_weight k r | HandedLocal _ _ _ _ => 1 end.

Definition entries := list (string * QueueEntry).
Definition listings (l : entries) : nat :=
  sum_list_with (fun p => if is_listing (qe_event p.2) then 1 else 0) l.
Definition weight (l : entries) : nat := sum_list_with (fun p => entry_weight p.2) l.

Lemma tries_le r : tries r <= 2.
Proof. unfold tries. destruct (flagged _ _), (flagged _ _); lia. Qed.

Lemma note_weight r : record_weight "note" r = 4 + tries r.
Proof. reflexivity. Qed.

Lemma review_weight r : record_weight "review" r = 1 + tries r.
Proof. reflexivity. Qed.

Lemma record_weight_pos k r : 1 <= record_weight k r.
Proof. unfold record_weight. repeat case_bool_decide; lia. Qed.

Lemma sum_permutation {B} (f : B -> nat) (l l' : list B) : l ≡ₚ l' -> sum_list_with f l = sum_list_with f l'.
Proof. induction 1; cbn; lia. Qed.

Lemma sum_submseteq {B} (f : B -> nat) (l l' : list B) : l ⊆+ l' -> sum_list_with f l <= sum_list_with f l'.
Proof.
  intros [k Hk]%submseteq_Permutation. rewrite (sum_permutation f _ _ Hk), sum_list_with_app. lia.
Qed.

(** *** One record at most *)

Section Hands.
Context {Coll : Type -> Type} `{HL : MongoLaws Coll} {P : Platform} {C : Cipher} `{Sha256} `{Markdown} `{FastEquals}.
Context {HU GL A W : Type} `{HulyClient HU} `{IssueGitLabClient GL} `{LabelGitLabClient GL}
  `{MilestoneGitLabClient GL} `{MergeRequests.MRGitLabClient GL} `{NoteGitLabClient GL} `{MRReviewGitLabClient GL}
  `{EpicGitLabClient GL} `{AccountClient A} `{LoaderWorld W}.
Abbreviation SV := (Services Coll A W).
Abbreviation X := (SyncState HU GL SV).
Abbreviation MM := (M (Store Coll * X)).
Context (config : SystemConfig (Coll := Coll) (HU := HU) (GL := GL) (A := A) (W := W)).
Abbreviation ms := (main_managers config).
Context (Hmirror : mirror_harmless config).
Context (d : Coll DedupDoc) (i : Coll InflightDoc) (l : list Handed).
Abbreviation hold := (pod_side (W := W) (A := A) (Coll := Coll) (pod_holds l)).
Abbreviation held := (side (HU := HU) (GL := GL) d i hold).
Abbreviation quietly := (preserves held).

(** The enqueuer that drops what it is given. *)
Definition silent : enqueuer_fn (Coll := Coll) (HU := HU) (GL := GL) (AC := SV) := fun _ _ _ _ _ => ret tt.

#[local] Instance services_hold : AccountsKeep hold.
Proof. apply services_keep. Qed.

Lemma silent_quiet : quiet_enqueuer (HU := HU) (GL := GL) d i hold (Some silent).
Proof. intros f [= <-] b k r e v _. apply preserves_ret. Qed.

Lemma none_quiet : quiet_enqueuer (HU := HU) (GL := GL) d i hold None.
Proof. done. Qed.

Lemma context_quiet b : quietly (load_context config b).
Proof. apply quiet_load_context, holds_hooks. Qed.

Lemma epic_context_quiet b : quietly (load_for_epics config b).
Proof. apply quiet_load_for_epics, holds_hooks. Qed.

Lemma pipeline_context_quiet b : quietly (load_for_pipelines config b).
Proof. apply quiet_load_for_pipelines, holds_hooks. Qed.

Lemma token_quiet w p : quietly (actor_token config w p).
Proof. apply quiet_actor_token. Qed.

Hint Resolve silent_quiet none_quiet context_quiet epic_context_quiet pipeline_context_quiet token_quiet : quiet.

(** The managers with the silent enqueuer. *)
Definition quiet_issues_deps := MkIssuesDeps (load_context config) None (Some silent) None.
Definition quiet_notes_deps := MkNotesDeps (load_context config) None (Some silent) (sc_mirror config).
Definition quiet_mr_deps := MkMRDeps (load_context config) None (Some silent) (actor_token config).
Definition quiet_review_deps := MkReviewDeps (load_context config) None (Some silent).
Definition quiet_epics_deps := MkEpicsDeps (load_for_epics config) None (Some silent).

Lemma issues_silent : issues_deps_quiet d i hold quiet_issues_deps.
Proof. split; cbn; auto with quiet. intros m [=]. Qed.
Lemma notes_silent : notes_deps_quiet d i hold quiet_notes_deps.
Proof. split; cbn; auto with quiet. Qed.
Lemma mr_silent : mr_deps_quiet d i hold quiet_mr_deps.
Proof. split; cbn; auto with quiet. Qed.
Lemma review_silent : review_deps_quiet d i hold quiet_review_deps.
Proof. split; cbn; auto with quiet. Qed.
Lemma epic_silent : epic_deps_quiet d i hold quiet_epics_deps.
Proof. split; cbn; auto with quiet. Qed.

Definition handed_by (x : X) : list Handed := pod_engine (pod_of x).

Lemma hands_over_handed Q b (m : enqueuer_fn -> MM unit) s :
  held s -> quietly (m silent) -> hands_over Q b m s ->
  handed_by (m backfillEnqueuer s).2.2 = l \/
  exists k r ev v, Q k r /\ handed_by (m backfillEnqueuer s).2.2 = l ++ [HandedRemote b k r ev v].
Proof.
  intros Hs Hm Hh. specialize (Hm s Hs). destruct Hh as [[out Ho]|(k & r & ev & v & s1 & HQ & Ho)].
  - left. rewrite Ho in Hm |- *. apply Hm.
  - right. exists k, r, ev, v. split; [done|]. rewrite Ho in Hm |- *. destruct Hm as [_ Hm].
    unfold handed_by, backfillEnqueuer, modify. cbn in Hm |- *. by rewrite Hm.
Qed.

Lemma quietly_handed {B} (m : MM B) s : held s -> quietly m -> handed_by (m s).2.2 = l.
Proof. intros Hs Hm. apply (Hm s Hs). Qed.

Definition with_review (f : enqueuer_fn) : ReviewThreadsSyncManagerDeps (Coll := Coll) (HU := HU) (GL := GL) (AC := SV) :=
  MkReviewDeps (load_context config) None (Some f).

(** A thread whose merge request is not mirrored hands itself over with an
    attempt less. *)
Lemma review_hands ctx b r s :
  hands_over (fun k r' => k = "review" /\ tries r' < tries r) b
    (fun f => rv_applyRemote (with_review f) ctx b r) s.
Proof.
  unfold rv_applyRemote.
  apply (hands_over_bind _ _ (load_context config b) (fun bctx f => _)). intros bctx s1.
  apply (hands_over_bind _ _ (on_db _) (fun o f => _)). intros [m|] s2.
  - apply (hands_over_const _ _ (mirror_thread b bctx r (im_hulyRef m))).
  - unfold defer_thread. destruct (markAndRetry r REVIEW_RETRY_FLAG) as [[] marked] eqn:E; [|apply hands_over_const].
    apply (hands_over_bind _ _ (to_iso _) (fun v f => _)). intros v s3. right.
    do 5 eexists. split; [|intros f; reflexivity].
    destruct (markAndRetry_tries _ _ _ (or_intror eq_refl) E) as (_ & Ht & _). done.
Qed.

(** Less is handed over than there was to do. *)
Definition hands_less (kind : string) (event : SyncEvent) (x : X) : Prop :=
  handed_by x = l \/
  exists h, handed_by x = l ++ [h] /\ handed_weight h < entry_weight (MkQueueEntry event kind None).

Lemma note_hands_less ctx b r ev v s :
  held s -> hands_less "note" (EvRemote b r ev v) (applyRemote (notesManager config) ctx b r s).2.2.
Proof.
  intros Hs.
  destruct (hands_over_handed _ _ _ s Hs (quiet_nt_applyRemote d i hold quiet_notes_deps notes_silent ctx b r)
    (note_deferral_terminates quiet_notes_deps ctx b r s)) as [E|(k & r' & ev' & v' & HQ & E)]; [by left|].
  right. eexists. split; [exact E|]. cbn -[record_weight]. pose proof (tries_le r').
  destruct HQ as [->|(-> & _ & Ht)]; rewrite ?note_weight, ?review_weight; lia.
Qed.

Lemma review_hands_less ctx b r ev v s :
  held s -> hands_less "review" (EvRemote b r ev v) (applyRemote (reviewManager config) ctx b r s).2.2.
Proof.
  intros Hs.
  destruct (hands_over_handed _ _ _ s Hs (quiet_rv_applyRemote d i hold quiet_review_deps review_silent ctx b r)
    (review_hands ctx b r s)) as [E|(k & r' & ev' & v' & [-> Ht] & E)]; [by left|].
  right. eexists. split; [exact E|]. cbn -[record_weight]. rewrite !review_weight. lia.
Qed.

(** The other calls do not see the enqueuer. *)
Lemma manager_hands_less k m ctx event s :
  jget k ms = Some m -> held s -> is_listing event = false ->
  hands_less k event (call_manager m ctx event s).2.2.
Proof.
  intros Hm Hs He. cbn in Hm. repeat destruct (decide _) in Hm; try done; subst k; injection Hm as <-;
    destruct event as [b r ev v|b doc c|b since]; try done; cbn [call_manager].
  - left. exact (quietly_handed _ s Hs (quiet_issue_applyRemote d i hold quiet_issues_deps issues_silent ctx b r)).
  - left. exact (quietly_handed _ s Hs (quiet_issue_applyLocal d i hold quiet_issues_deps issues_silent ctx b doc c)).
  - by apply note_hands_less.
  - left. exact (quietly_handed _ s Hs (quiet_nt_applyLocal d i hold quiet_notes_deps notes_silent ctx b doc c)).
  - left. exact (quietly_handed _ s Hs (quiet_mr_applyRemote d i hold quiet_mr_deps mr_silent ctx b r)).
  - left. exact (quietly_handed _ s Hs (quiet_mr_applyLocal d i hold quiet_mr_deps mr_silent ctx b doc c)).
  - left. exact (quietly_handed _ s Hs
      (quiet_pl_applyRemote d i hold (MkPipelineDeps (load_for_pipelines config)) ctx b r pipeline_context_quiet)).
  - left. exact (quietly_handed _ s Hs (preserves_ret _ tt)).
  - by apply review_hands_less.
  - left. exact (quietly_handed _ s Hs (quiet_rv_applyLocal d i hold quiet_review_deps review_silent ctx b doc c)).
  - left. exact (quietly_handed _ s Hs (quiet_ep_applyRemote d i hold quiet_epics_deps epic_silent ctx b r)).
  - left. exact (quietly_handed _ s Hs (preserves_ret _ tt)).
Qed.
End Hands.

(** ** The program *)

Section Program.
Context {Coll : Type -> Type} `{HL : MongoLaws Coll} {P : Platform} {C : Cipher} `{Sha256} `{Markdown} `{FastEquals}.
Context {HU GL A W : Type} `{HulyClient HU} `{IssueGitLabClient GL} `{LabelGitLabClient GL}
  `{MilestoneGitLabClient GL} `{MergeRequests.MRGitLabClient GL} `{NoteGitLabClient GL} `{MRReviewGitLabClient GL}
  `{EpicGitLabClient GL} `{AccountClient A} `{LoaderWorld W}.
Abbreviation SV := (Services Coll A W).
Abbreviation X := (SyncState HU GL SV).
Abbreviation EN := (Engine Coll X).
Implicit Types (e : EN).
Context (config : SystemConfig (Coll := Coll) (HU := HU) (GL := GL) (A := A) (W := W)).
Abbreviation ms := (main_managers config).
Context (Hmirror : mirror_harmless config).

(** *** Delivering *)

Lemma enqueue_handed_outstanding h e :
  exists p, outstanding (world (enqueue_handed h e).2) ⊆+ p :: outstanding (world e) /\
    is_listing (qe_event p.2) = false /\ entry_weight p.2 = handed_weight h.
Proof.
  destruct h as [b k r ev v|b k doc c]; cbn [enqueue_handed].
  - destruct (enqueueWebhookEvent_eq b k r ev v e) as (s & _ & _ & [[_ E]|[_ E]]); cbn zeta in *.
    + exists ("", webhook_entry "" b k r ev v). rewrite E. split; [by apply submseteq_cons|done].
    + destruct (insertOne _ _); rewrite E; cbn [snd world]; eexists.
      * split; [apply outstanding_enqueue|done].
      * split; [apply (submseteq_cons ("", webhook_entry "" b k r ev v)); reflexivity|done].
  - eexists. split; [apply outstanding_enqueue|done].
Qed.

Lemma enqueue_all_outstanding l e :
  let e' := (forM_ l enqueue_handed e).2 in
  listings (outstanding (world e')) <= listings (outstanding (world e)) /\
  weight (outstanding (world e')) <= sum_list_with handed_weight l + weight (outstanding (world e)).
Proof.
  revert e. induction l as [|h l IH]; intros e; [done|]. cbn [forM_ sum_list_with]. unfold bind.
  destruct (enqueue_handed_outstanding h e) as (p & Hp & Hlist & Hw).
  assert (listings (outstanding (world (enqueue_handed h e).2)) <= listings (outstanding (world e)) /\
    weight (outstanding (world (enqueue_handed h e).2)) <= handed_weight h + weight (outstanding (world e))) as [H1' H2'].
  { unfold listings, weight. pose proof (sum_submseteq (fun p => entry_weight p.2) _ _ Hp) as S2.
    pose proof (sum_submseteq (fun p => if is_listing (qe_event p.2) then 1 else 0) _ _ Hp) as S1.
    cbn [sum_list_with] in S1, S2. rewrite Hlist in S1. rewrite Hw in S2. split; [exact S1|exact S2]. }
  destruct (enqueue_handed h e) as [[[]|ex] e1]; cbn [snd] in *; [|lia].
  destruct (IH e1) as [I1 I2]. lia.
Qed.

Lemma deliver_outstanding e :
  let e' := (deliver_handed e).2 in
  listings (outstanding (world e')) <= listings (outstanding (world e)) /\
  weight (outstanding (world e')) <= sum_list_with handed_weight (handed_of e) + weight (outstanding (world e)).
Proof.
  unfold deliver_handed, bind at 1, on_pod_of, zoom, take_handed. cbn [fst snd].
  set (p := MkPod _ _ _ _). apply (enqueue_all_outstanding (handed_of e) (set_ext (set_pod p (ext e)) e)).
Qed.

(** *** Processing an item *)

Lemma dispatch_hands entry e :
  managers e = ms -> entry_ok entry -> handed_of e = [] -> is_listing (qe_event entry) = false ->
  handed_of (dispatch answering entry e).2 = [] \/
  exists h, handed_of (dispatch answering entry e).2 = [h] /\ handed_weight h < entry_weight entry.
Proof.
  intros Em Hok Hh He. pose proof (dispatch_eq entry e Hok) as Hd. cbn zeta in Hd. unfold manager_outcome in Hd.
  rewrite Em in Hd. destruct (bool_decide _); [|destruct (jget (qe_kind entry) ms) as [m|] eqn:Hm].
  1,3: left; destruct Hd as [n ->]; exact Hh.
  pose proof (manager_hands_less config Hmirror (dedup (store e)) (inflight (store e)) [] _ m
    (MkSyncContext (workspace_in (ev_binding (qe_event entry)) (store e))) (qe_event entry)
    (store e, ext e) Hm (conj (conj eq_refl eq_refl) Hh) He) as Hs.
  destruct (call_manager _ _ _ _) as [r [s x]]. destruct Hd as [n ->]. exact Hs.
Qed.

Lemma process_outstanding i p e :
  ledger ms e -> running (world e) !! i = Some p ->
  p :: outstanding (world (process i e)) ≡ₚ outstanding (world e) /\
  handed_of (process i e) = handed_of (dispatch answering p.2 e).2 /\ entry_ok p.2.
Proof.
  intros [L1 L2 L3 L4 L5 L6] Hi. pose proof (outstanding_settle i p (world e) Hi) as Ho.
  assert (p ∈ outstanding (world e)) as Hp by (rewrite <- Ho; left).
  assert (entry_ok p.2) as Hok.
  { unfold entry_ok. destruct (qe_inflightId p.2) as [id|] eqn:Hid; [|done].
    destruct (ah_doc _ L2 p id Hp Hid) as (op & Hop & <- & _). by apply (ah_hex _ L2). }
  pose proof (dispatch_quiet p.2 e) as Hd. rewrite L1 in Hd.
  destruct (Hd (main_quiet config Hmirror) Hok) as (e' & Ed & _ & Ew & _).
  unfold process. rewrite Hi. destruct p as [key entry]. cbn [snd] in Ed |- *. rewrite Ed. cbn [snd world set_world].
  by rewrite Ew.
Qed.

(** An item is done, and what it gave back is less than it was. *)
Lemma process_less i p e :
  sys_inv config e -> running (world e) !! i = Some p ->
  let o := outstanding (world e) in let o' := outstanding (world (system_process i e)) in
  listings o' < listings o \/ (listings o' <= listings o /\ weight o' < weight o).
Proof.
  intros [Hl Hh] Hi o o'. destruct (process_outstanding i p e Hl Hi) as (Ho & Hd & Hok).
  destruct (deliver_outstanding (process i e)) as [D1 D2]. fold (system_process i e) in D1, D2. fold o' in D1, D2.
  assert (listings o = (if is_listing (qe_event p.2) then 1 else 0) + listings (outstanding (world (process i e))) /\
    weight o = entry_weight p.2 + weight (outstanding (world (process i e)))) as [O1 O2]
    by (split; [exact (eq_sym (sum_permutation _ _ _ Ho))|exact (eq_sym (sum_permutation _ _ _ Ho))]).
  destruct (is_listing (qe_event p.2)) eqn:He; [left; lia|right]. split; [lia|].
  assert (sum_list_with handed_weight (handed_of (process i e)) < entry_weight p.2) as Hless; [|lia].
  rewrite Hd. destruct (dispatch_hands p.2 e (lg_managers _ _ Hl) Hok Hh He) as [->|(h & -> & Hw)]; [|cbn; lia].
  cbn. unfold entry_weight. destruct (qe_event p.2) as [b r ev v|b doc c|b since]; [|lia|done].
  pose proof (record_weight_pos (qe_kind p.2) r). lia.
Qed.

(** *** The queue of the program is a reachable queue *)

Definition queued e : Prop := managers e = ms /\ reachable 1000 (world e).

Lemma queued_enqueue e key entry : queued e -> queued (set_world (do_enqueue key entry (world e)) e).
Proof. intros [Em Hr]. split; [done|]. eapply reach_step; [exact Hr|apply step_enqueue]. Qed.

Lemma queued_webhook b k r ev v : preserves queued (enqueueWebhookEvent b k r ev v).
Proof.
  intros e [Em Hr]. destruct (enqueueWebhookEvent_eq b k r ev v e) as (s & _ & _ & [[_ E]|[_ E]]); cbn zeta in *.
  - by rewrite E.
  - destruct (insertOne _ _); rewrite E; [|done]. split; [done|]. eapply reach_step; [exact Hr|apply step_enqueue].
Qed.

Lemma queued_same e e' : same_side e e' -> queued e -> queued e'.
Proof. intros (Em & Ew & _) [Q1 Q2]. split; congruence. Qed.

Lemma queued_plain key entry : preserves queued (enqueue_entry key entry).
Proof. intros e He. by apply queued_enqueue. Qed.

Lemma queued_adding : adding queued.
Proof.
  split; [|apply queued_same|intros; apply queued_webhook|intros; apply queued_plain].
  intros e k [-> _]. apply main_kinds.
Qed.

Lemma queued_pod {B} (m : M (Pod (list Handed)) B) : preserves queued (on_pod_of m).
Proof. apply (adds_frame _ queued_adding). intros e. unfold on_pod_of, zoom. destruct (m _). by split_and!. Qed.

Lemma queued_handed h : preserves queued (enqueue_handed h).
Proof. destruct h; [apply queued_webhook|apply queued_plain]. Qed.

Lemma queued_deliver : preserves queued deliver_handed.
Proof. pose proof (@queued_pod). pose proof queued_handed. unfold deliver_handed. quiet_tac. Qed.

Lemma queued_process i p e : sys_inv config e -> running (world e) !! i = Some p -> queued e -> queued (process i e).
Proof.
  intros [Hl _] Hi [Em Hr]. destruct (process_outstanding i p e Hl Hi) as (_ & _ & Hok).
  pose proof (dispatch_quiet p.2 e) as Hd. rewrite Em in Hd.
  destruct (Hd (main_quiet config Hmirror) Hok) as (e' & Ed & Em' & Ew & _).
  unfold process. rewrite Hi. destruct p as [key entry]. cbn [snd] in Ed. rewrite Ed. split; [done|].
  cbn [snd world set_world]. rewrite Ew. eapply reach_step; [exact Hr|]. by eapply step_settle.
Qed.

Lemma queued_start cutoff ops e : queued e -> queued (start_effect ms cutoff ops e).
Proof.
  revert e. induction ops as [|op ops IH]; intros e He; [done|]. unfold start_effect. cbn [fold_left]. apply IH.
  unfold start_step. destruct (resumed ms cutoff op) as [[key entry]|]; [by apply queued_enqueue|exact He].
Qed.

Lemma queued_restart e : op_ids_ok (scan (inflight (store e))) -> queued (restart config e).
Proof.
  intros Hids. unfold restart, boot.
  rewrite (bind_ok _ _ _ _ _ (register_managers_eq config (new_process e) eq_refl)).
  set (e1 := MkEngine _ _ _ _ _ _ _).
  assert (start e1 = _) as E2 by (apply start_eq; exact Hids). rewrite (bind_ok _ _ _ _ _ E2).
  apply (preserves_bind queued _ _ (queued_pod mark_all_started) (fun _ => queued_deliver)).
  apply queued_start. split; [done|]. apply reach_init.
Qed.

Lemma queued_step e e' : sys_inv config e -> queued e -> sys_step config e e' -> queued e'.
Proof.
  intros Hinv He Hs. destruct Hs as [e req|e ws txes|e|e i p Hi|e e' (Em & Ew & Ei & Ed & Ef & _)|e].
  - pose proof (http_webhook _ queued_adding (ext e) (sc_encryptionKey config) req
      (MkHttp e (sv_creds (sy_accounts (ext e))) (sy_metrics (ext e))) (conj He eq_refl)) as [G1 _].
    unfold system_webhook. by destruct (webhook _ _ _) as [r h].
  - assert (preserves queued (system_transactions config ws txes)) as Ht; [|by apply Ht].
    pose proof queued_deliver. pose proof (@queued_pod). unfold system_transactions. quiet_tac.
  - apply (still_tick _ queued_adding (ext e) e). by split.
  - unfold system_process. apply queued_deliver. by apply (queued_process i p).
  - eapply queued_same; [|exact He]. by split_and!.
  - apply queued_restart, (lg_ahead _ _ (proj1 Hinv)).
Qed.

Lemma queued_reach e e' : sys_inv config e -> queued e -> sys_reach config e e' -> queued e'.
Proof.
  intros Hinv He. induction 1 as [|e1 e2 Hr IH Hs]; [done|].
  by apply (queued_step e1); [apply (reach_inv config Hmirror e)| |].
Qed.

(** *** Every schedule ends *)

(** Whatever running item is processed next, again and again: in the end
    nothing is queued or running. *)
Inductive drains e : Prop :=
  | drained : outstanding (world e) = [] -> drains e
  | draining : running (world e) <> [] ->
      (forall i p, running (world e) !! i = Some p -> drains (system_process i e)) -> drains e.

Lemma drains_measured n m e :
  listings (outstanding (world e)) < n -> weight (outstanding (world e)) < m ->
  sys_inv config e -> queued e -> drains e.
Proof.
  revert m e. induction n as [|n IHn]; intros m e Hn; [lia|]. revert e Hn.
  induction m as [|m IHm]; intros e Hn Hm Hinv Hq; [lia|].
  destruct (running (world e)) as [|p0 rs] eqn:Er.
  { apply drained. destruct Hq. by eapply (idle_nothing_outstanding 1000); [lia|..]. }
  apply draining; [by rewrite Er|]. intros i p Hi.
  pose proof (ss_process config e i p Hi) as Hs.
  destruct (step_effect config Hmirror e _ Hinv Hs) as (Hinv' & _).
  pose proof (queued_step e _ Hinv Hq Hs) as Hq'.
  destruct (process_less i p e Hinv Hi) as [Hlt|[Hle Hlt]].
  - apply (IHn (S (weight (outstanding (world (system_process i e)))))); [lia|lia|done|done].
  - apply IHm; [lia|lia|done|done].
Qed.

(** C4: the program does not feed itself for ever: from every state it can
    reach, processing the running items - in any order, whatever the managers
    find, hand back or throw - comes to a state in which nothing is queued
    and nothing runs. *)
Theorem processing_drains e0 e :
  ops_of e0 = [] -> sys_reach config (restart config e0) e -> drains e.
Proof.
  intros Hops Hr. pose proof (deployed_inv config e0 Hops) as Hinv.
  assert (queued (restart config e0)) as Hq.
  { apply queued_restart. fold (ops_of e0). rewrite Hops. by intros op ?%elem_of_nil. }
  eapply drains_measured; [apply Nat.lt_succ_diag_r|apply Nat.lt_succ_diag_r| |].
  - by apply (reach_inv config Hmirror (restart config e0)).
  - by apply (queued_reach (restart config e0)).
Qed.
End Program.
