(* ===== verification/SystemFlow.v ===== *)
(** * Flows through the composed program

    What a sweep of the issues records, and what becomes of the changes made
    in a workspace with several bindings. *)

From S2P Require Import Prelude JsMap JsString JsVal Metrics Platform Conflict Breaker Queue.
From S2P Require Import Mongo Store Credentials Ids StatusMap Huly Caches Engine Sync BindingLoader.
From S2P Require Import TxSubscriber FieldSync Issues MergeRequests Notes Reviews Epics Pipeline.
From S2P Require Import Backfill Webhook ManagersQuiet System SystemProofs SystemLedger.
Open Scope nat_scope.
Open Scope string_scope.
Open Scope list_scope.

(** ** A subscriber without a resolver *)

Section Silent.
Context (dp : TxSubscriberDeps) (x : list Handed).
Context (Hres : dp_resolveBindingForDoc dp = None) (Hmany : jsize (dp_bindingsByProject dp) <> 1).

Definition nothing_handed (s : SubState (list Handed)) : Prop := ss_engine s = x.

Lemma resolve_none ref cls (s : SubState (list Handed)) :
  TxSubscriber.resolveBinding dp ref cls s = (Ok None, s).
Proof. unfold TxSubscriber.resolveBinding. rewrite Hres. by rewrite decide_False. Qed.

Lemma onTx_silent tx : preserves nothing_handed (onTx dp tx).
Proof.
  unfold onTx. apply preserves_bind; [auto with quiet|]. intros []; [auto with quiet|].
  destruct (decide _); [by intros s|]. destruct (isGitlabOriginated tx); [by intros s|].
  destruct (classify tx) as [c|]; [|by intros s]. intros s Hs.
  by rewrite (bind_ok _ _ _ _ _ (resolve_none _ _ s)).
Qed.

Lemma notify_silent txes : preserves nothing_handed (notify dp txes).
Proof. pose proof onTx_silent. unfold notify. quiet_tac. Qed.

Lemma on_sub_silent ws txes : preserves (fun p => pod_engine p = x) (pod_notify ws dp txes).
Proof.
  intros p Hp. unfold pod_notify, on_sub. destruct (jget ws (pod_subs p)) as [sb|]; [|done].
  pose proof (notify_silent txes (MkSubState sb (pod_metrics p) (pod_engine p)) Hp) as Hn.
  by destruct (notify dp txes _).
Qed.
End Silent.

Section Flow.
Context {Coll : Type -> Type} `{HL : MongoLaws Coll} {P : Platform} {C : Cipher} `{Sha256} `{Markdown} `{FastEquals}.
Context {HU GL A W : Type} `{HulyClient HU} `{IssueGitLabClient GL} `{LabelGitLabClient GL}
  `{MilestoneGitLabClient GL} `{MergeRequests.MRGitLabClient GL} `{NoteGitLabClient GL} `{MRReviewGitLabClient GL}
  `{EpicGitLabClient GL} `{AccountClient A} `{LoaderWorld W}.
Abbreviation SV := (Services Coll A W).
Abbreviation X := (SyncState HU GL SV).
Abbreviation EN := (Engine Coll X).
Implicit Types (e : EN).
Context (config : SystemConfig (Coll := Coll) (HU := HU) (GL := GL) (A := A) (W := W)).
Abbreviation ms := (main_managers config).

(** The bindings the loader has registered for a workspace. *)
Definition bindings_in (ws : string) e : jsmap string string :=
  default [] (getBindingsByProject ws (sv_loader (sy_accounts (ext e)))).

(** C35: main constructs the subscribers without a resolver, so in a
    workspace with two bindings (or none) no transaction of a user ever
    reaches the engine: queue and store stay as they are. *)
Theorem many_bindings_silent e0 e ws txes :
  mirror_harmless config -> ops_of e0 = [] -> sys_reach config (restart config e0) e ->
  jsize (bindings_in ws e) <> 1 ->
  let e' := (system_transactions config ws txes e).2 in
  world e' = world e /\ store e' = store e.
Proof.
  intros Hm H0' Hr Hmany. destruct (reach_inv config Hm _ _ (deployed_inv config e0 H0') Hr) as [_ Hh].
  pose proof (on_sub_silent (subscriber_deps config ws e) [] eq_refl Hmany ws txes _ Hh) as Hs.
  cbn zeta. unfold system_transactions, bind at 1, gets, bind, on_pod_of, zoom.
  destruct (pod_notify ws (subscriber_deps config ws e) txes (pod_of (ext e))) as [[[]|ex] p]; [|done].
  unfold deliver_handed, bind, on_pod_of, zoom, take_handed. cbn in Hs |- *. by rewrite Hs.
Qed.
(** ** A backfill of the issues *)

Lemma seen_or_not k (s : Store Coll) : seen k s \/ ~ seen k s.
Proof.
  destruct (checkSeen_spec k s) as ([] & _ & Hb); [left; by apply Hb|right]. intros Hs. by apply Hb in Hs.
Qed.

(** The event a listed issue is handed over as. *)
Definition issue_event (bctx : BindingContext) (issue : record) : string :=
  "backfill:" +:+ num_to_string (bx_gitlabProjectId bctx) +:+ ":" +:+ js_String (prop_of issue "iid") +:+ ":" +:+
  js_String (prop_of issue "updatedAt").

Definition issue_version (issue : record) : string := js_String (prop_of issue "updatedAt").

Lemma hand_all binding bctx issues (s : Store Coll * X) :
  exists s', forM_ issues (fun issue =>
      enqueueRecord (MkIssuesDeps (load_context config) None (Some backfillEnqueuer) None) binding "issue" issue
        (issue_event bctx issue) (issue_version issue)) s = (Ok tt, s') /\
    s'.1 = s.1 /\ (forall h, h ∈ pod_engine (pod_of s.2) -> h ∈ pod_engine (pod_of s'.2)) /\
    forall issue, issue ∈ issues ->
      HandedRemote binding "issue" issue (issue_event bctx issue) (issue_version issue) ∈ pod_engine (pod_of s'.2).
Proof.
  revert s. induction issues as [|issue issues IH]; intros s.
  - exists s. split_and!; [done|done|done|]. by intros issue ?%elem_of_nil.
  - cbn [forM_]. set (h := HandedRemote binding "issue" issue (issue_event bctx issue) (issue_version issue)).
    destruct (IH (s.1, hand h s.2)) as (s' & E & E1 & Hold & Hnew). exists s'. split; [exact E|].
    assert (forall x, x ∈ pod_engine (pod_of s.2) ++ [h] -> x ∈ pod_engine (pod_of s'.2)) as Hh by exact Hold.
    split_and!; [done|intros x Hx; apply Hh, elem_of_app; by left|].
    intros x [->|Hx]%elem_of_cons; [|by apply Hnew]. apply Hh, elem_of_app. right. left.
Qed.

(** C34: a sweep of the issues loses none: once the backfill item of a
    binding has been processed, every issue GitLab listed is recorded, and
    the ones that were not recorded before have their inflight document. *)
Theorem swept_issues_recorded e0 e i key b since id bctx s1 upd issues g' :
  mirror_harmless config -> ops_of e0 = [] -> sys_reach config (restart config e0) e ->
  running (world e) !! i = Some (key, MkQueueEntry (EvBackfill b since) "issue" id) ->
  state (refresh (clock (readings e)) (entry_of b (brk e))) <> open ->
  load_context config b (store e, ext e) = (Ok bctx, s1) ->
  iso_string since s1 = (Ok upd, s1) ->
  listIssues (bx_gitlabProjectId bctx) upd (sy_gitlab s1.2) = (Ok issues, g') ->
  forall issue, issue ∈ issues ->
    accounted (b, issue_event bctx issue, issue_version issue) e (system_process i e).
Proof.
  intros Hm H0' Hr Hi Hop Hload Hiso Hlist issue Hin.
  destruct (reach_inv config Hm _ _ (deployed_inv config e0 H0') Hr) as [Hl Hh].
  set (entry := MkQueueEntry (EvBackfill b since) "issue" id) in *.
  destruct (process_effect config Hm i _ e Hl Hh Hi) as (L1 & K1 & _ & D1).
  assert (HandedRemote b "issue" issue (issue_event bctx issue) (issue_version issue) ∈ handed_of (process i e)) as Hhand.
  { assert (entry_ok entry) as Hok.
    { unfold entry_ok. destruct (qe_inflightId entry) as [x|] eqn:Ex; [|done].
      assert ((key, entry) ∈ outstanding (world e)) as Hp by (rewrite <- (outstanding_settle i _ _ Hi); left).
      destruct (ah_doc _ (lg_ahead _ _ Hl) _ x Hp Ex) as (op & Ho & <- & _). by apply (ah_hex _ (lg_ahead _ _ Hl)). }
    pose proof (dispatch_eq entry e Hok) as Hd. cbn zeta in Hd. unfold manager_outcome in Hd.
    rewrite bool_decide_eq_false_2 in Hd by done. rewrite (lg_managers _ _ Hl) in Hd. cbn [entry qe_kind] in Hd.
    change (jget "issue" ms) with (Some (issuesManager config)) in Hd.
    destruct (hand_all b bctx issues (s1.1, set_gitlab g' s1.2)) as (s2 & E2 & _ & _ & Hnew).
    assert (call_manager (issuesManager config) (MkSyncContext (workspace_in b (store e))) (EvBackfill b since)
      (store e, ext e) = (Ok tt, s2)) as Hc.
    { cbn. unfold issue_backfill. cbn [is_loadBinding]. rewrite (bind_ok _ _ _ _ _ Hload), (bind_ok _ _ _ _ _ Hiso).
      rewrite (bind_ok _ _ _ issues (s1.1, set_gitlab g' s1.2)); [exact E2|].
      unfold on_gitlab, on_state, zoom. by rewrite Hlist. }
    cbn [ev_binding qe_event entry] in Hd. rewrite Hc in Hd. destruct s2 as [st x]. destruct Hd as [n Hd].
    unfold process. rewrite Hi. rewrite Hd. cbn. by apply Hnew. }
  destruct (deliver_grown config (process i e) (process i e) (grown_start ms _ L1) K1) as (e2 & E2 & G2 & _ & Hs2).
  assert (system_process i e = e2) as -> by (unfold system_process; by rewrite E2).
  apply Hs2 in Hhand. split; [done|].
  destruct (seen_or_not (b, issue_event bctx issue, issue_version issue) (store e)) as [Hs|Hn]; [by left|]. right.
  apply (gr_doc _ _ _ G2); [done|]. intros Hs. apply Hn. by apply (seen_same (store (process i e))).
Qed.
End Flow.
