(* ===== verification/SystemExamples.v ===== *)
(** * A small deployment of the composed program

    One binding, one listed issue: the boot, a sweep, the processing of the
    backfill and of the record it hands over, evaluated; the theorems of
    SystemLedger and SystemFlow at these states. *)

From S2P Require Import Prelude JsMap JsString JsVal Metrics Platform Conflict Breaker Queue.
From S2P Require Import Mongo Store Credentials Ids StatusMap Huly Caches Engine Sync BindingLoader.
From S2P Require Import TxSubscriber FieldSync Issues MergeRequests Notes Reviews Epics Pipeline.
From S2P Require Import SyncToy MergeRequestsExamples NotesProofs ReviewsProofs EpicsProofs.
From S2P Require Import Backfill Webhook ManagersQuiet System SystemProofs SystemLedger SystemTtl SystemDrains SystemFlow.
Open Scope nat_scope.
Open Scope string_scope.
Open Scope list_scope.

(** A GitLab with one issue. *)
#[local] Instance one_issue : IssueGitLabClient ToyGitLab | 0 := {
  listIssues _ _ := ret [toy_issue 7 "title" [] 5];
  createIssue pid body := let! iid := toy_call "createIssue" pid body in ret [("iid", VNum iid)];
  updateIssue pid iid body := toy_call "updateIssue" iid body ;;! ret [("iid", VNum iid)]
}.

Abbreviation ToySystem := (Engine list (SyncState (list HulyDoc) ToyGitLab (Services list unit nat))).

Definition toy_config : SystemConfig (Coll := list) (HU := list HulyDoc) (GL := ToyGitLab) (A := unit) (W := nat) :=
  MkSystemConfig "https://gitlab.com" "key" 1800000 "service-account" (fun _ => Some "ee") None.

Definition toy_deployment (bindings : list BindingDoc) : ToySystem :=
  MkEngine [] (MkStore bindings [] [] [] []) [] (init 1000)
    (MkSyncState [] []
       (MkServices tt (l_creds self_hosted) new_loader (MkOutside 0 (MkPod [] false [] [])))
       new_label_cache new_milestone_cache [] [] [] 0) 0 0.

Definition toy_binding (id : string) (project : Z) : BindingDoc :=
  MkBindingDoc id "ws" "proj" project "group/project" "oid-0" "secret" None true 0 false.

Definition one_binding : ToySystem := toy_deployment [toy_binding "oid-9" 42].
Definition swept : ToySystem := (Backfill.tick (restart toy_config one_binding)).2.
Definition listed : ToySystem := system_process 0 swept.
Definition applied : ToySystem := system_process 5 listed.

Definition toy_key : event_key := ("oid-9", "backfill:42:7:ttttt", "ttttt").
(** The whole way of an issue: listed by a sweep, recorded, queued, applied,
    mirrored and mapped, its document gone. *)
Example issue_comes_through :
  map (fun p => p.1) (running (world listed)) =
    ["oid-9/backfill:note"; "oid-9/backfill:merge_request"; "oid-9/backfill:pipeline";
     "oid-9/backfill:review"; "oid-9/backfill:epic"; "oid-9/issue:7"] /\
  map op_key (ops_of listed) = [Some toy_key] /\ ops_of applied = [] /\
  map (fun d => field "title" (hd_attrs d)) (docs (sy_huly (ext applied))) = [Some (VStr "title")] /\
  map im_gitlabId (idmap (store applied)) = ["42:7"].
Proof. by vm_compute. Qed.

Lemma toy_mirror_harmless : mirror_harmless toy_config.
Proof. intros d i J m. cbn. discriminate. Qed.

Lemma reach_listed : sys_reach toy_config (restart toy_config one_binding) listed.
Proof.
  unfold listed. destruct (running (world swept) !! 0) as [p|] eqn:E; [|by vm_compute in E].
  refine (sr_step _ _ swept _ _ (ss_process _ swept 0 p E)).
  refine (sr_step _ _ (restart toy_config one_binding) _ _ (ss_sweep _ _)). apply sr_refl.
Qed.

Lemma step_applied : sys_step toy_config listed applied.
Proof.
  unfold applied. destruct (running (world listed) !! 5) as [p|] eqn:E; [|by vm_compute in E].
  exact (ss_process _ listed 5 p E).
Qed.

Lemma toy_key_seen : seen toy_key (store applied).
Proof.
  destruct (checkSeen_spec toy_key (store applied)) as (b & E & Hb). apply Hb.
  vm_compute in E. injection E. congruence.
Qed.

Lemma system_ledger_witness :
  length (ops_of listed) = 1 /\ NoDup (omap remote_key (outstanding (world listed))) /\
  forall op, op ∈ ops_of listed -> exists k, op_key op = Some k /\ seen k (store listed).
Proof.
  split; [by vm_compute|].
  destruct (system_ledger toy_config toy_mirror_harmless one_binding listed) as (_ & _ & Hd & Hs).
  - by vm_compute.
  - exact reach_listed.
  - by split.
Defined.

(** The process restarts, and the sweep after it lists the issue again. *)
Lemma finished_stays_witness :
  finished toy_key (Backfill.tick (restart toy_config applied)).2 /\
  forall p, p ∈ outstanding (world (Backfill.tick (restart toy_config applied)).2) ->
    remote_key p <> Some toy_key.
Proof.
  apply (finished_stays toy_config toy_mirror_harmless one_binding applied).
  - by vm_compute.
  - exact (sr_step _ _ listed _ reach_listed step_applied).
  - split; [exact toy_key_seen|]. intros op Hop. exfalso. revert Hop.
    assert (ops_of applied = []) as -> by by vm_compute. apply not_elem_of_nil.
  - refine (sr_step _ _ (restart toy_config applied) _ _ (ss_sweep _ _)).
    refine (sr_step _ _ applied _ _ (ss_restart _ _)). apply sr_refl.
Defined.

(** The process restarts, the monitor runs when the record is seven days
    old, and the sweep lists the issue again. *)
Definition expired (now : Z) (e : ToySystem) : ToySystem := Engine.set_store (expire_documents now (store e)) e.

Definition week_later : ToySystem := (Backfill.tick (expired DEDUP_TTL_MS (restart toy_config applied))).2.

Lemma seen_by_check k (e : ToySystem) :
  (checkSeen k.1.1 k.1.2 k.2 (store e)).1 = Ok true -> seen k (store e).
Proof.
  intros Hc. destruct (checkSeen_spec k (store e)) as (b & E & Hb). apply Hb. rewrite E in Hc. by injection Hc.
Qed.

Lemma applied_at_rest : at_rest toy_key applied.
Proof.
  split_and!.
  - exact toy_key_seen.
  - assert (ops_of applied = []) as -> by by vm_compute. by intros op ?%elem_of_nil.
  - intros p Hp E. assert (toy_key ∈ omap remote_key (outstanding (world applied))) as Hin
      by (apply list_elem_of_omap; by exists p).
    assert (omap remote_key (outstanding (world applied)) = []) as Ho by (vm_compute; reflexivity).
    rewrite Ho in Hin. by apply elem_of_nil in Hin.
Qed.

Lemma sys_ttl e e' : sys_reach toy_config e e' -> ttl_reach toy_config (fun _ => False) e e'.
Proof. induction 1 as [|e1 e2 _ IH Hs]; [apply tr_refl|]. exact (tr_step _ _ _ e1 e2 IH (ts_program _ _ _ Hs) (fun _ F => match F with end)). Qed.

Lemma finished_until_expired_witness : at_rest toy_key applied /\ at_rest toy_key week_later.
Proof.
  split; [exact applied_at_rest|].
  apply (finished_until_expired toy_config toy_mirror_harmless one_binding applied).
  - by vm_compute.
  - apply sys_ttl. exact (sr_step _ _ listed _ reach_listed step_applied).
  - exact applied_at_rest.
  - refine (tr_step _ _ _ (expired DEDUP_TTL_MS (restart toy_config applied)) _ _ (ts_program _ _ _ (ss_sweep _ _)) _).
    2: { intros k <-. apply seen_by_check. vm_compute. reflexivity. }
    refine (tr_step _ _ _ (restart toy_config applied) _ _ (ts_expire _ _ _) _).
    2: { intros k <-. apply seen_by_check. vm_compute. reflexivity. }
    refine (tr_step _ _ _ applied _ (tr_refl _ _ _) (ts_program _ _ _ (ss_restart _ _)) _).
    intros k <-. apply seen_by_check. vm_compute. reflexivity.
Defined.

(** Once its record is gone the next sweep applies the event again. *)
Example expired_event_returns :
  omap remote_key (outstanding (world (system_process 0 (Backfill.tick (expired (10 * DEDUP_TTL_MS) (restart toy_config applied))).2))) =
    [toy_key].
Proof. vm_compute. reflexivity. Qed.

(** An event that waits for more than an hour loses its inflight document;
    the process that dies then has lost the event, and its record keeps a
    redelivery out. *)
Example waiting_event_lost :
  let e := restart toy_config (expired (2 * INFLIGHT_TTL_MS) listed) in
  omap remote_key (outstanding (world listed)) = [toy_key] /\ omap remote_key (outstanding (world e)) = [] /\
  (checkSeen toy_key.1.1 toy_key.1.2 toy_key.2 (store e)).1 = Ok true.
Proof. vm_compute. split_and!; reflexivity. Qed.

Lemma no_event_lost_witness :
  exists op, op ∈ ops_of listed /\ op_key op = Some toy_key /\
    exists p, recover_op (managers listed) op = Some p /\ p ∈ accepted (world (restart toy_config listed)).
Proof.
  destruct (ops_of listed) as [|op l] eqn:E; [by vm_compute in E|]. exists op.
  assert (op_key op = Some toy_key) as Ek.
  { assert (hd_error (map op_key (ops_of listed)) = Some (Some toy_key)) as Hk by by vm_compute.
    rewrite E in Hk. by injection Hk. }
  assert (ops_of (restart toy_config listed) = op :: l) as Er.
  { rewrite <- E. vm_compute. reflexivity. }
  split; [left|]. split; [exact Ek|].
  apply (no_event_lost toy_config toy_mirror_harmless one_binding listed (restart toy_config listed) op).
  - by vm_compute.
  - exact reach_listed.
  - apply ss_restart.
  - rewrite E. left.
  - rewrite Er. left.
Defined.

Lemma swept_issues_recorded_witness :
  exists bctx, bx_gitlabProjectId bctx = 42%Z /\
    accounted ("oid-9", issue_event bctx (toy_issue 7 "title" [] 5), "ttttt") swept listed.
Proof.
  destruct (load_context toy_config "oid-9" (store swept, ext swept)) as [[bctx|ex] s1] eqn:E.
  2: { exfalso. vm_compute in E. discriminate. }
  exists bctx. split.
  { assert (match (load_context toy_config "oid-9" (store swept, ext swept)).1 with
      | Ok c => bx_gitlabProjectId c = 42%Z | Throw _ => True end) as Hc by by vm_compute. by rewrite E in Hc. }
  apply (swept_issues_recorded toy_config one_binding swept 0 "oid-9/backfill:issue" "oid-9" None None
    bctx s1 None [toy_issue 7 "title" [] 5] (sy_gitlab s1.2) toy_mirror_harmless).
  - by vm_compute.
  - refine (sr_step _ _ (restart toy_config one_binding) _ _ (ss_sweep _ _)). apply sr_refl.
  - by vm_compute.
  - vm_compute. discriminate.
  - exact E.
  - done.
  - done.
  - left.
Defined.

(** Two bindings of a workspace, after one of them each was loaded. *)
Definition two_bindings : ToySystem := toy_deployment [toy_binding "oid-8" 41; toy_binding "oid-9" 42].
Definition both_swept : ToySystem := (Backfill.tick (restart toy_config two_bindings)).2.
Definition both_loaded : ToySystem := system_process 5 (system_process 0 both_swept).

(** A user closes an issue. *)
Definition user_change : Tx :=
  MkTx TX_CLASS_UPDATE "ada" "issue-1" TxSubscriber.HULY_CLASS_ISSUE None None (Some [("status", VStr "s-done")]).

Lemma many_bindings_silent_witness :
  jkeys (bindings_in "ws" both_loaded) = ["41"; "42"] /\
  delivered (MkDeps "service-account" [("41", "oid-8")] None) user_change =
    Some (MkBufferedEntry "oid-8" SkIssue "issue-1" [("status", VStr "s-done")]) /\
  world (system_transactions toy_config "ws" [user_change] both_loaded).2 = world both_loaded.
Proof.
  split; [by vm_compute|]. split; [by vm_compute|].
  apply (many_bindings_silent toy_config two_bindings both_loaded "ws" [user_change] toy_mirror_harmless).
  - by vm_compute.
  - unfold both_loaded. destruct (running (world both_swept) !! 0) as [p|] eqn:E; [|by vm_compute in E].
    destruct (running (world (system_process 0 both_swept)) !! 5) as [q|] eqn:E'; [|by vm_compute in E'].
    refine (sr_step _ _ (system_process 0 both_swept) _ _ (ss_process _ _ 5 q E')).
    refine (sr_step _ _ both_swept _ _ (ss_process _ _ 0 p E)).
    refine (sr_step _ _ (restart toy_config two_bindings) _ _ (ss_sweep _ _)). apply sr_refl.
  - vm_compute. discriminate.
Defined.

(** The sweep's six backfills, and what they list, are worked off in the end,
    in whatever order. *)
Lemma processing_drains_witness :
  length (outstanding (world swept)) = 6 /\ drains swept.
Proof.
  split; [by vm_compute|]. apply (processing_drains toy_config toy_mirror_harmless one_binding).
  - by vm_compute.
  - refine (sr_step _ _ (restart toy_config one_binding) _ _ (ss_sweep _ _)). apply sr_refl.
Defined.

(** A note of an issue that is not mirrored comes twice, then no more. *)
Definition lone_note : record :=
  [("noteableIid", VNum 7);
   ("note", VObj [("id", VNum 3); ("body", VStr "text"); ("system", VBool false); ("noteableType", VStr "Issue");
                  ("author", VObj [("id", VNum 1); ("username", VStr "u")]); ("createdAt", VDate (Some 5%Z)); ("updatedAt", VDate (Some 5%Z))])].

Definition noted (n : nat) : ToySystem :=
  Nat.iter n (system_process 0) (enqueue_handed (HandedRemote "oid-9" "note" lone_note "n" "v") (restart toy_config one_binding)).2.

Example lone_note_ends :
  map (fun n => omap remote_key (outstanding (world (noted n)))) [0; 1; 2] =
    [[("oid-9", "n", "v")]; [("oid-9", "deferred:42:7:3", "5")]; []] /\
  map (fun n => weight (outstanding (world (noted n)))) [0; 1; 2] = [6; 5; 0].
Proof. by vm_compute. Qed.
