(* ===== verification/TokenBucket.v ===== *)
(** * The request rate limiter (src/http/rate-limit.ts)

    A token bucket per client address.  Its token counts are binary64 numbers
    with the arithmetic of [SpecFloat] in the Standard Library; clock readings
    and their differences are integers far below 2^53, hence exact. *)

From Stdlib Require Import SpecFloat.
From S2P Require Import Prelude JsMap JsVal.
Open Scope nat_scope.
Open Scope string_scope.
Open Scope list_scope.

(** ** JavaScript numbers *)

Module Float64.
Definition num : Type := spec_float.

Definition of_Z (z : Z) : num := binary_normalize 53 1024 z 0 false.
Definition add : num -> num -> num := SFadd 53 1024.
Definition sub : num -> num -> num := SFsub 53 1024.
Definition mul : num -> num -> num := SFmul 53 1024.
Definition div : num -> num -> num := SFdiv 53 1024.
Definition lt : num -> num -> bool := SFltb.

(** [Math.min]: NaN if either is, and -0 below +0. *)
Definition min (x y : num) : num :=
  match x, y with
  | S754_nan, _ | _, S754_nan => S754_nan
  | S754_zero s, S754_zero t => S754_zero (s || t)
  | _, _ => if SFltb y x then y else x
  end.

(** [Math.ceil]; [None] when the result is NaN or infinite. *)
Definition ceil (x : num) : option Z :=
  match x with
  | S754_nan | S754_infinity _ => None
  | S754_zero _ => Some 0%Z
  | S754_finite s m e =>
      let m := if s then Z.neg m else Z.pos m in
      Some (if (0 <=? e)%Z then Z.shiftl m e else (- Z.shiftr (- m) (- e))%Z)
  end.
End Float64.
Import Float64.

(** ** Buckets *)

Record Bucket := MkBucket { tokens : num; lastRefill : Z }.

Record RateLimitOptions := MkRateLimitOptions {
  ro_capacity : option num;
  ro_refillPerSecond : option num
}.

Definition capacity (opts : RateLimitOptions) : num := default (of_Z 10) (ro_capacity opts).

Definition refillPerSecond (opts : RateLimitOptions) : num :=
  default (div (capacity opts) (of_Z 60)) (ro_refillPerSecond opts).

(** The default [keyExtractor]: [req.ip ?? 'unknown'] *)
Definition request_key (ip : option string) : string := default "unknown" ip.

(** The bucket when a request arrives. *)
Definition refilled (opts : RateLimitOptions) (now : Z) (b : option Bucket) : Bucket :=
  match b with
  | None => MkBucket (capacity opts) now
  | Some b =>
      let elapsedSec := div (of_Z (now - lastRefill b)) (of_Z 1000) in
      MkBucket (min (capacity opts) (add (tokens b) (mul elapsedSec (refillPerSecond opts)))) now
  end.

(** The seconds a refused request is told to wait; JSON has no number for a
    result that is not finite. *)
Definition retryAfter (opts : RateLimitOptions) (b : Bucket) : jsval :=
  match ceil (div (sub (of_Z 1) (tokens b)) (refillPerSecond opts)) with
  | Some n => VNum n
  | None => VNull
  end.

(** The middleware: [None] is [next()], [Some] the [retryAfter] of a 429. *)
Definition rateLimit (opts : RateLimitOptions) (key : string) (now : Z) (buckets : jsmap string Bucket)
    : option jsval * jsmap string Bucket :=
  let bucket := refilled opts now (jget key buckets) in
  if lt (tokens bucket) (of_Z 1)
  then (Some (retryAfter opts bucket), jset key bucket buckets)
  else (None, jset key (MkBucket (sub (tokens bucket) (of_Z 1)) (lastRefill bucket)) buckets).

(** The body of the pruning interval. *)
Definition prune (now : Z) (buckets : jsmap string Bucket) : jsmap string Bucket :=
  let cutoff := (now - 5 * 60 * 1000)%Z in
  List.filter (fun e => negb (lastRefill e.2 <? cutoff)%Z) buckets.

(** The options of the three limiters of the program. *)
Definition ten_per_minute : RateLimitOptions :=
  MkRateLimitOptions (Some (of_Z 10)) (Some (div (of_Z 10) (of_Z 60))).

(** Requests of several clients in the same millisecond. *)
Fixpoint burst (opts : RateLimitOptions) (now : Z) (keys : list string) (buckets : jsmap string Bucket)
    : list (string * option jsval) * jsmap string Bucket :=
  match keys with
  | [] => ([], buckets)
  | k :: keys =>
      let '(r, buckets) := rateLimit opts k now buckets in
      let '(rs, buckets) := burst opts now keys buckets in
      ((k, r) :: rs, buckets)
  end.

(** What one client sees of it. *)
Definition answers_to (key : string) (rs : list (string * option jsval)) : list (option jsval) :=
  map snd (List.filter (fun r => bool_decide (r.1 = key)) rs).

(** ** Lemmas *)

(** The bucket after [n] requests of the same millisecond. *)
Definition drained (now : Z) (n : nat) : Bucket := MkBucket (of_Z (10 - Z.of_nat n)) now.

Lemma refilled_drained now n : n <= 10 -> refilled ten_per_minute now (Some (drained now n)) = drained now n.
Proof.
  intros Hn. unfold refilled, drained. cbn [lastRefill tokens]. rewrite Z.sub_diag. f_equal.
  do 11 (destruct n as [|n]; [vm_compute; reflexivity|]). lia.
Qed.

(** The bucket of a client, counting the refill of the instant, holds
    [10 - n] tokens: [n] of them are spent. *)
Definition sent (now : Z) (key : string) (n : nat) (buckets : jsmap string Bucket) : Prop :=
  refilled ten_per_minute now (jget key buckets) = drained now (Nat.min n 10).

(** A client the limiter has not seen has spent nothing. *)
Lemma sent_new now key buckets : jget key buckets = None -> sent now key 0 buckets.
Proof. unfold sent. by intros ->. Qed.

Lemma sent_drained now key n buckets :
  jget key buckets = Some (drained now (Nat.min n 10)) -> sent now key n buckets.
Proof. unfold sent. intros ->. apply refilled_drained. lia. Qed.

Lemma drained_lt now n :
  n <= 10 -> lt (tokens (drained now n)) (of_Z 1) = (10 <=? n)%nat.
Proof. intros Hn. do 11 (destruct n as [|n]; [vm_compute; reflexivity|]). lia. Qed.

Lemma drained_next now n : n < 10 -> sub (tokens (drained now n)) (of_Z 1) = tokens (drained now (S n)).
Proof. intros Hn. do 10 (destruct n as [|n]; [vm_compute; reflexivity|]). lia. Qed.

Lemma retryAfter_drained now : retryAfter ten_per_minute (drained now 10) = VNum 6.
Proof. vm_compute. reflexivity. Qed.

Lemma rateLimit_sent now key n buckets :
  sent now key n buckets ->
  exists buckets', rateLimit ten_per_minute key now buckets = (if (n <? 10)%nat then None else Some (VNum 6), buckets') /\
    sent now key (S n) buckets'.
Proof.
  unfold sent at 1. intros Hs. unfold rateLimit. rewrite Hs, drained_lt by lia.
  destruct (Nat.ltb_spec n 10) as [Hn|Hn].
  - rewrite (proj2 (Nat.leb_gt 10 (Nat.min n 10))) by lia. eexists. split; [done|]. apply sent_drained. rewrite jget_set_eq.
    replace (Nat.min n 10) with n by lia. replace (Nat.min (S n) 10) with (S n) by lia.
    by rewrite drained_next by done.
  - replace (Nat.min n 10) with 10 by lia. cbn [Nat.leb]. rewrite retryAfter_drained. eexists. split; [done|].
    apply sent_drained. rewrite jget_set_eq. by replace (Nat.min (S n) 10) with 10 by lia.
Qed.

Lemma rateLimit_other opts now key key' buckets :
  key <> key' -> jget key (rateLimit opts key' now buckets).2 = jget key buckets.
Proof. intros Hne. unfold rateLimit. destruct (lt _ _); cbn [snd]; by apply jget_set_ne. Qed.

Lemma burst_from now key keys n buckets :
  sent now key n buckets ->
  let m := length (List.filter (fun k => bool_decide (k = key)) keys) in
  answers_to key (burst ten_per_minute now keys buckets).1 =
    replicate (Nat.min m (10 - n)) None ++ replicate (m - (10 - n)) (Some (VNum 6)) /\
  sent now key (n + m) (burst ten_per_minute now keys buckets).2.
Proof.
  revert n buckets. induction keys as [|k keys IH]; intros n buckets Hs; cbn [burst List.filter length].
  { by rewrite Nat.add_0_r. }
  destruct (rateLimit ten_per_minute k now buckets) as [r b1] eqn:Er.
  destruct (burst ten_per_minute now keys b1) as [rs b2] eqn:Eb.
  unfold answers_to. cbn [fst snd List.filter]. destruct (bool_decide_reflect (k = key)) as [->|Hk].
  - destruct (rateLimit_sent now key n buckets Hs) as (b' & Eq & Hs'). rewrite Er in Eq.
    injection Eq as -> ->. specialize (IH _ _ Hs'). rewrite Eb in IH. cbn [fst snd] in IH.
    destruct IH as [IH1 IH2]. cbn [length map snd]. unfold answers_to in IH1. rewrite IH1. split.
    + destruct (Nat.ltb_spec n 10) as [Hn|Hn].
      * replace (10 - n) with (S (10 - S n)) by lia. done.
      * by replace (10 - n) with 0 by lia; replace (10 - S n) with 0 by lia; rewrite Nat.min_0_r, !Nat.sub_0_r.
    + by rewrite <-plus_n_Sm.
  - assert (sent now key n b1) as Hs1.
    { unfold sent in Hs |- *. rewrite <-Hs.
      replace b1 with (rateLimit ten_per_minute k now buckets).2 by (by rewrite Er). by rewrite rateLimit_other by congruence. }
    specialize (IH _ _ Hs1). by rewrite Eb in IH.
Qed.

(** Six seconds refill an empty bucket to exactly one token. *)
Lemma refilled_later now :
  refilled ten_per_minute (now + 6000) (Some (drained now 10)) = MkBucket (of_Z 1) (now + 6000).
Proof.
  unfold refilled, drained. cbn [lastRefill tokens]. replace (now + 6000 - now)%Z with 6000%Z by lia.
  f_equal.
Qed.

(** ** The limit *)

(** The clients of a burst whose bucket is drained keep it so. *)
Lemma burst_drained now key keys n buckets :
  sent now key n buckets ->
  let m := length (List.filter (fun k => bool_decide (k = key)) keys) in
  10 - n < m ->
  jget key (burst ten_per_minute now keys buckets).2 = Some (drained now 10).
Proof.
  revert n buckets. induction keys as [|k keys IH]; intros n buckets Hs; cbn [burst List.filter length]; [lia|].
  destruct (bool_decide_reflect (k = key)) as [->|Hk]; cbn [length]; intros Hm.
  - destruct (rateLimit_sent now key n buckets Hs) as (b1 & Er & Hs1).
    destruct (decide (10 - S n < length (List.filter (fun k => bool_decide (k = key)) keys))) as [Hlt|Hge].
    + specialize (IH _ _ Hs1 Hlt). rewrite Er. by destruct (burst ten_per_minute now keys b1).
    + assert (10 <= n) as Hn by lia. assert (List.filter (fun k => bool_decide (k = key)) keys = []) as Hnil.
      { apply length_zero_iff_nil. lia. }
      assert (jget key b1 = Some (drained now 10)) as Hb1.
      { revert Er. unfold rateLimit. unfold sent in Hs. rewrite Hs, drained_lt by lia.
        replace (Nat.min n 10) with 10 by lia. cbn [Nat.leb]. intros [= _ <-]. apply jget_set_eq. }
      rewrite Er. clear -Hnil Hb1. revert b1 Hb1 Hnil.
      induction keys as [|k keys IH]; intros b1 Hb1 Hnil; cbn [burst]; [done|]. cbn [List.filter] in Hnil.
      destruct (bool_decide_reflect (k = key)) as [->|Hk]; [done|].
      specialize (IH (rateLimit ten_per_minute k now b1).2).
      rewrite (rateLimit_other _ _ key k) in IH by congruence. specialize (IH Hb1 Hnil). revert IH.
      destruct (rateLimit ten_per_minute k now b1) as [r b2]. cbn [snd].
      by destruct (burst ten_per_minute now keys b2).
  - specialize (IH n (rateLimit ten_per_minute k now buckets).2). unfold sent in IH at 1.
    rewrite (rateLimit_other _ _ key k) in IH by congruence. specialize (IH Hs Hm). revert IH.
    destruct (rateLimit ten_per_minute k now buckets) as [r b1]. cbn [snd].
    by destruct (burst ten_per_minute now keys b1).
Qed.

(** C21: A client whose bucket, the refill of the instant counted, holds
    10 - [n] whole tokens (n = 0 for a client not seen before or one whose
    bucket is full again) sends requests in one millisecond, whatever the
    others send in between: exactly the first 10 - [n] pass and every later
    one is told to wait six seconds; once one was refused, the request sent
    after those six seconds passes again.  The limit is ten, which
    docs/api.md and docs/architecture.md give as five for one of the
    routes. *)
Theorem burst_limited now key keys n buckets :
  n <= 10 ->
  refilled ten_per_minute now (jget key buckets) = drained now n ->
  let m := length (List.filter (fun k => bool_decide (k = key)) keys) in
  let '(rs, buckets') := burst ten_per_minute now keys buckets in
  answers_to key rs = replicate (Nat.min m (10 - n)) None ++ replicate (m - (10 - n)) (Some (VNum 6)) /\
  (10 - n < m -> (rateLimit ten_per_minute key (now + 6000) buckets').1 = None).
Proof.
  intros Hn Hk m. assert (sent now key n buckets) as Hs.
  { unfold sent. by replace (Nat.min n 10) with n by lia. }
  pose proof (burst_from now key keys n buckets Hs) as [H1 _].
  pose proof (burst_drained now key keys n buckets Hs) as H2. fold m in H1, H2.
  destruct (burst ten_per_minute now keys buckets) as [rs b']. cbn [fst snd] in H1, H2. split; [done|].
  intros Hm. unfold rateLimit. rewrite (H2 Hm), refilled_later. vm_compute. reflexivity.
Qed.

(** A client not seen before, one whose bucket lacks three tokens, and one
    whose empty bucket had a minute to fill. *)
Lemma burst_limited_witness :
  let keys := replicate 12 "10.0.0.1" ++ ["10.0.0.2"; "10.0.0.1"] in
  answers_to "10.0.0.1" (burst ten_per_minute 1000 keys []).1 = replicate 10 None ++ replicate 3 (Some (VNum 6)) /\
  answers_to "10.0.0.1" (burst ten_per_minute 1000 keys [("10.0.0.1", drained 1000 3)]).1 =
    replicate 7 None ++ replicate 6 (Some (VNum 6)) /\
  answers_to "10.0.0.1" (burst ten_per_minute 61000 keys [("10.0.0.1", drained 1000 10)]).1 =
    replicate 10 None ++ replicate 3 (Some (VNum 6)).
Proof.
  cbn zeta. set (keys := replicate 12 "10.0.0.1" ++ ["10.0.0.2"; "10.0.0.1"]). split; [|split].
  - pose proof (burst_limited 1000 "10.0.0.1" keys 0 [] ltac:(lia) eq_refl) as H.
    destruct (burst ten_per_minute 1000 keys []). exact (proj1 H).
  - pose proof (burst_limited 1000 "10.0.0.1" keys 3 [("10.0.0.1", drained 1000 3)] ltac:(lia)
      ltac:(vm_compute; reflexivity)) as H.
    destruct (burst ten_per_minute 1000 keys _). exact (proj1 H).
  - pose proof (burst_limited 61000 "10.0.0.1" keys 0 [("10.0.0.1", drained 1000 10)] ltac:(lia)
      ltac:(vm_compute; reflexivity)) as H.
    destruct (burst ten_per_minute 61000 keys _). exact (proj1 H).
Defined.
