(* ===== verification/Upload.v ===== *)
(** * Uploading a file (uploadFile of src/adapter/gitlab-client.ts)

    The client writes the multipart body of an upload itself.  The request,
    whose body is bytes and not JSON, goes to the class [RawHttp]; the random
    part of the boundary is an argument.  [read_part] is the reader of such a
    body after RFC 2046, with the file name between its quotes. *)

From Stdlib Require Import Ascii.
From S2P Require Import Prelude JsMap JsString JsVal Platform Sync Json RateLimit GitLabMaps GitLabClient Cookies.
Open Scope nat_scope.
Open Scope string_scope.
Open Scope list_scope.

(** ** encodeURIComponent *)

(** The characters that are kept: letters, digits and [-_.!~*'()]. *)
Definition uri_unreserved (a : ascii) : bool :=
  let n := code a in
  ((48 <=? n) && (n <=? 57) || (65 <=? n) && (n <=? 90) || (97 <=? n) && (n <=? 122))%N ||
  bool_decide (a ∈ String.list_ascii_of_string "-_.!~*'()").

Definition upper_hex (d : N) : ascii := if (d <? 10)%N then chr (48 + d) else chr (55 + d).

(** Strings are UTF-8, so each byte of another character is an escape. *)
Fixpoint encodeURIComponent (s : string) : string :=
  match s with
  | "" => ""
  | String a s =>
      if uri_unreserved a then String a (encodeURIComponent s)
      else String "%" (String (upper_hex (code a / 16)) (String (upper_hex (code a mod 16)) (encodeURIComponent s)))
  end.

Definition valid_utf8 (s : string) : bool :=
  match utf8_text (map (pair true) (String.list_ascii_of_string s)) with Some _ => true | None => false end.

(** ** The body *)

Definition CRLF : string := String (chr 13) (String (chr 10) "").
Definition quoted (s : string) : string := String dquote (s +:+ String dquote "").

Definition upload_boundary (random : string) : string := "----FormBoundary" +:+ random.

Definition disposition (filename : string) : string :=
  "Content-Disposition: form-data; name=" +:+ quoted "file" +:+ "; filename=" +:+ quoted (encodeURIComponent filename).

Definition upload_headers (filename : string) : string :=
  disposition filename +:+ CRLF +:+ "Content-Type: application/octet-stream".

Definition multipart_body (boundary filename bytes : string) : string :=
  "--" +:+ boundary +:+ CRLF +:+ upload_headers filename +:+ CRLF +:+ CRLF +:+ bytes +:+
  CRLF +:+ "--" +:+ boundary +:+ "--" +:+ CRLF.

(** ** The request *)

Class RawHttp (W : Type) := {
  fetch_raw : string -> jsmap string string -> string -> M W HttpResponse
}.

Record UploadResult := MkUploadResult { up_url : jsval; up_alt : jsval; up_markdown : jsval }.

Section UploadFile.
Context {P : Platform} {W : Type} `{Http W} `{RawHttp W}.
Abbreviation MC := (M (ClientState W)).
Context (client : GitLabClient).

Definition upload_result (raw : jsval) : res UploadResult :=
  let? full_path := res_prop raw "full_path" in
  let? url := res_prop raw "url" in
  let? alt := res_prop raw "alt" in
  let? markdown := res_prop raw "markdown" in
  Ok (MkUploadResult (js_coalesce full_path url) alt markdown).

Definition uploadFile (random projectId filename bytes : string) : MC UploadResult :=
  let boundary := upload_boundary random in
  let body := multipart_body boundary filename bytes in
  let headers :=
    [("PRIVATE-TOKEN", gc_token client); ("Content-Type", "multipart/form-data; boundary=" +:+ boundary);
     ("Content-Length", num_to_string (Z.of_nat (String.length body)))] in
  withRateLimitRetry client_now (fun ms => on_world (sleep ms))
    (let! res := on_world (fetch_raw (gc_baseUrl client +:+ "/api/v4/projects/" +:+ projectId +:+ "/uploads") headers body) in
     ret (MkReply (hp_status res) (rate_limit_headers false res)
       (if is_auth_status (hp_status res) then auth_error " uploading file" res
        else if (400 <=? hp_status res)%Z then api_error "GitLab upload error " res
        else let! raw := lift_res (hp_json res) in lift_res (upload_result raw)))).
End UploadFile.

(** ** Reading a body *)

(** What is before and after the first [sep]. *)
Fixpoint cut (sep s : string) : option (string * string) :=
  match after_prefix sep s with
  | Some r => Some ("", r)
  | None =>
      match s with
      | "" => None
      | String a s => match cut sep s with Some (l, r) => Some (String a l, r) | None => None end
      end
  end.

Definition read_part (boundary body : string) : option (string * string) :=
  match after_prefix ("--" +:+ boundary +:+ CRLF) body with
  | None => None
  | Some part =>
      match cut (CRLF +:+ CRLF) part with
      | None => None
      | Some (headers, content) =>
          match cut (CRLF +:+ "--" +:+ boundary) content, cut ("filename=" +:+ String dquote "") headers with
          | Some (data, close), Some (_, name) =>
              if bool_decide (close = "--" +:+ CRLF)
              then match cut (String dquote "") name with Some (name, _) => Some (name, data) | None => None end
              else None
          | _, _ => None
          end
      end
  end.

(** ** Lemmas *)

Lemma after_prefix_prefix p s : after_prefix p s = None <-> String.prefix p s = false.
Proof.
  revert s. induction p as [|a p IH]; intros [|b s]; cbn [after_prefix String.prefix]; try done.
  destruct (Ascii.ascii_dec a b) as [->|Hne]; [rewrite decide_True by done; apply IH|by rewrite decide_False].
Qed.

(** A part without the first character of the separator is passed over. *)
Lemma cut_skip c sep x y :
  no_char c x -> cut (String c sep) (x +:+ y) =
    match cut (String c sep) y with Some (l, r) => Some (x +:+ l, r) | None => None end.
Proof.
  unfold no_char. induction x as [|a x IH]; intros Hx.
  { change ("" +:+ y) with y. destruct (cut _ y) as [[l r]|]; done. }
  cbn [after_first] in Hx. destruct (decide (a = c)) as [->|Hne]; [done|].
  change (String a x +:+ y) with (String a (x +:+ y)). cbn [cut after_prefix].
  rewrite decide_False by congruence. rewrite IH by done. by destruct (cut _ y) as [[l r]|].
Qed.

Lemma cut_at sep y : cut sep (sep +:+ y) = Some ("", y).
Proof. pose proof (after_prefix_app sep y) as E. destruct (sep +:+ y); cbn [cut]; by rewrite E. Qed.

Lemma prefix_before c p x z :
  no_char c p -> String.prefix p (x +:+ String c z) = true -> String.prefix p x = true.
Proof.
  unfold no_char. revert x. induction p as [|a p IH]; intros [|b x] Hp Hx; try done.
  - change ("" +:+ String c z) with (String c z) in Hx. cbn in Hp, Hx.
    destruct (Ascii.ascii_dec a c) as [->|Hne]; [by rewrite decide_True in Hp|done].
  - cbn [String.prefix after_first] in *. change (String b x +:+ String c z) with (String b (x +:+ String c z)) in Hx.
    cbn [String.prefix] in Hx. destruct (decide (a = c)); [done|]. destruct (Ascii.ascii_dec a b); [eauto|done].
Qed.

(** The first separator after a part that does not contain it, when it has
    its first character only there. *)
Lemma cut_first c sep x y :
  no_char c sep -> includes (String c sep) x = false ->
  cut (String c sep) (x +:+ String c sep +:+ y) = Some (x, y).
Proof.
  intros Hsep. induction x as [|a x IH]; intros Hx; [exact (cut_at (String c sep) y)|].
  cbn [includes] in Hx. apply orb_false_iff in Hx as [Hp Hx]. rewrite (str_app_cons a). cbn [cut].
  destruct (after_prefix (String c sep) (String a (x +:+ String c sep +:+ y))) eqn:E.
  - exfalso. enough (String.prefix (String c sep) (String a x) = true) by congruence.
    enough (String.prefix (String c sep) (String a (x +:+ String c sep +:+ y)) = true) as Hq.
    { cbn [String.prefix] in Hq |- *. destruct (Ascii.ascii_dec c a); [|done].
      apply (prefix_before c sep x (sep +:+ y) Hsep). by rewrite <-str_app_cons. }
    apply not_false_iff_true. intros Ep%after_prefix_prefix. by rewrite Ep in E.
  - by rewrite IH.
Qed.

(** *** The encoding *)

Lemma below_16 (Q : N -> Prop) d : Forall (fun n => Q (N.of_nat n)) (seq 0 16) -> (d < 16)%N -> Q d.
Proof. intros HQ Hd. rewrite List.Forall_forall in HQ. rewrite <-(N2Nat.id d). apply HQ, in_seq. lia. Qed.

Lemma hex_value_upper d : (d < 16)%N -> hex_value (upper_hex d) = Some d.
Proof. apply (below_16 (fun d => hex_value (upper_hex d) = Some d)). by repeat constructor. Qed.

Lemma upper_hex_kept d : (d < 16)%N -> uri_unreserved (upper_hex d) = true.
Proof. apply (below_16 (fun d => uri_unreserved (upper_hex d) = true)). by repeat constructor. Qed.

Lemma byte_digits a : (code a / 16 < 16 /\ code a mod 16 < 16)%N.
Proof.
  assert (code a < 256)%N by apply N_ascii_bounded.
  split; [apply N.Div0.div_lt_upper_bound; lia|apply N.mod_lt; lia].
Qed.

(** Neither quotes nor line ends get into the encoded name. *)
Lemma encoded_no_char c s : uri_unreserved c = false -> c <> "%"%char -> no_char c (encodeURIComponent s).
Proof.
  intros Hc Hp. assert (forall a, uri_unreserved a = true -> a <> c) as Hne by congruence.
  unfold no_char. induction s as [|a s IH]; [done|]. cbn [encodeURIComponent].
  destruct (byte_digits a) as [L1 L2].
  destruct (uri_unreserved a) eqn:Ea; cbn [after_first].
  - rewrite decide_False by auto. done.
  - rewrite !decide_False; auto using upper_hex_kept.
Qed.

Definition marked (s : string) : list (bool * ascii) :=
  map (fun a => (negb (uri_unreserved a), a)) (String.list_ascii_of_string s).

Lemma uri_bytes_encoded s : uri_bytes (encodeURIComponent s) = Some (marked s).
Proof.
  induction s as [|a s IH]; [done|]. cbn [encodeURIComponent marked map String.list_ascii_of_string].
  destruct (byte_digits a) as [L1 L2].
  destruct (uri_unreserved a) eqn:Ea; cbn [uri_bytes].
  - rewrite decide_False by (intros ->; by vm_compute in Ea). by rewrite IH.
  - rewrite decide_True by done. rewrite !hex_value_upper, IH by done.
    replace (code a / 16 * 16 + code a mod 16)%N with (code a) by (pose proof (N.div_mod (code a) 16); lia).
    unfold chr, code. by rewrite ascii_N_embedding.
Qed.

(** Only bytes below 128 are not escaped. *)
Lemma unreserved_ascii a : uri_unreserved a = true -> (code a < 128)%N.
Proof. destruct a as [[] [] [] [] [] [] [] []]; vm_compute; done. Qed.

Lemma between_marked lo hi a :
  (128 <= lo)%N -> between lo hi (negb (uri_unreserved a), a) = between lo hi (true, a).
Proof.
  intros Hlo. unfold between. cbn [fst snd]. destruct (uri_unreserved a) eqn:Ea; [|done].
  apply unreserved_ascii in Ea. replace (lo <=? code a)%N with false by (symmetry; apply N.leb_gt; lia). done.
Qed.

Lemma second_ok_marked lead a : second_ok lead (negb (uri_unreserved a), a) = second_ok lead (true, a).
Proof. unfold second_ok. apply between_marked. repeat case_match; lia. Qed.

Lemma push_marked b b' o o' : map snd b = map snd b' -> o = o' -> push b o = push b' o'.
Proof.
  intros Hb ->. destruct o' as [s|]; [|done]. cbn [push]. f_equal. revert b' Hb.
  induction b as [|x b IH]; intros [|x' b'] Hb; try done. cbn [map] in Hb. injection Hb as Hx Hb.
  cbn [fold_right]. by rewrite Hx, (IH b').
Qed.

Lemma utf8_marked n l :
  length l <= n ->
  utf8_text (map (fun a => (negb (uri_unreserved a), a)) l) = utf8_text (map (pair true) l).
Proof.
  revert l. induction n as [|n IH]; intros [|a l] Hn; cbn [length] in Hn; try lia; [done..|].
  assert (forall l', length l' <= length l ->
    utf8_text (map (fun a => (negb (uri_unreserved a), a)) l') = utf8_text (map (pair true) l')) as IH'
    by (intros; apply IH; lia).
  cbn [map utf8_text fst snd]. rewrite !between_marked by done.
  replace (negb (negb (uri_unreserved a)) || (code a <? 128)%N) with (code a <? 128)%N.
  2: { destruct (uri_unreserved a) eqn:Ea; [|done]. apply unreserved_ascii in Ea.
       replace (code a <? 128)%N with true by (symmetry; by apply N.ltb_lt). done. }
  cbn [negb orb]. destruct l as [|b [|c [|d l]]]; cbn [map length] in *; rewrite ?between_marked, ?second_ok_marked by done;
    repeat case_match; try done; apply push_marked; try done.
  all: first [apply (IH' l)|apply (IH' [])|apply (IH' [_])|apply (IH' [_; _])|apply (IH' (_ :: l))
             |apply (IH' (_ :: _ :: l))|apply (IH' (_ :: _ :: _ :: l))]; cbn [length]; lia.
Qed.

Definition bytes_of (l : list (bool * ascii)) : string := fold_right (fun b s => String b.2 s) "" l.

Lemma push_bytes b l t :
  push b (utf8_text l) = Some t -> (forall t', utf8_text l = Some t' -> t' = bytes_of l) -> t = bytes_of (b ++ l).
Proof.
  destruct (utf8_text l) as [t'|]; [|done]. cbn [push]. intros [= <-] Hs. unfold bytes_of.
  by rewrite fold_right_app, (Hs t').
Qed.

(** The text of a list of bytes is made of these bytes. *)
Lemma utf8_text_bytes n l t : length l <= n -> utf8_text l = Some t -> t = bytes_of l.
Proof.
  revert l t. induction n as [|n IH]; intros [|a l] t Hn Ht; cbn [length] in Hn; try lia; [by injection Ht..|].
  assert (forall l', length l' <= length l -> forall t', utf8_text l' = Some t' -> t' = bytes_of l') as IH'
    by (intros; apply IH; [lia|done]).
  cbn [utf8_text] in Ht.
  repeat match type of Ht with
  | (if ?b then _ else _) = _ => destruct b
  | (match ?x with [] => _ | _ :: _ => _ end) = _ => destruct x
  end; try done; refine (push_bytes _ _ _ Ht _); apply IH'; cbn [length]; lia.
Qed.

(** ** What an upload sends *)

Lemma decode_encoded s : valid_utf8 s = true -> decodeURIComponent (encodeURIComponent s) = Ok s.
Proof.
  intros Hv. unfold decodeURIComponent. rewrite uri_bytes_encoded. unfold marked.
  rewrite (utf8_marked _ _ (le_n _)). unfold valid_utf8 in Hv.
  destruct (utf8_text (map (pair true) (String.list_ascii_of_string s))) as [t|] eqn:E; [|done].
  apply (utf8_text_bytes _ _ _ (le_n _)) in E as ->. f_equal. clear Hv. unfold bytes_of.
  induction s as [|a s IH]; [done|]. cbn [String.list_ascii_of_string map fold_right snd]. by rewrite IH.
Qed.

Lemma disposition_one_line filename : no_char (chr 13) (disposition filename).
Proof.
  assert (no_char (chr 13) (encodeURIComponent filename)) as He by by apply encoded_no_char.
  unfold disposition, quoted. rewrite !no_char_app. split_and!; try done.
  rewrite <-(str_app_nil_r (String dquote _)), str_app_cons. change (no_char (chr 13) (String dquote "" +:+ (encodeURIComponent filename +:+ String dquote "") +:+ "")).
  rewrite !no_char_app. by split_and!.
Qed.

Lemma headers_cut filename content :
  cut (CRLF +:+ CRLF) (upload_headers filename +:+ CRLF +:+ CRLF +:+ content) = Some (upload_headers filename, content).
Proof.
  unfold upload_headers. rewrite str_app_assoc. change (CRLF +:+ CRLF) with (String (chr 13) (String (chr 10) CRLF)).
  by rewrite cut_skip by apply disposition_one_line.
Qed.

Lemma multipart_split b filename bytes :
  multipart_body b filename bytes =
  ("--" +:+ b +:+ CRLF) +:+ upload_headers filename +:+ CRLF +:+ CRLF +:+ bytes +:+ (CRLF +:+ "--" +:+ b) +:+ "--" +:+ CRLF.
Proof. unfold multipart_body. by rewrite !str_app_assoc. Qed.

Lemma name_cut filename :
  exists before after,
    cut ("filename=" +:+ String dquote "") (upload_headers filename) =
      Some (before, encodeURIComponent filename +:+ String dquote after) /\
    cut (String dquote "") (encodeURIComponent filename +:+ String dquote after) =
      Some (encodeURIComponent filename, after).
Proof.
  assert (no_char dquote (encodeURIComponent filename)) as He by by apply encoded_no_char.
  exists ("Content-Disposition: form-data; name=" +:+ quoted "file" +:+ "; "),
    (CRLF +:+ "Content-Type: application/octet-stream"). split.
  - unfold upload_headers, disposition. revert He. generalize (encodeURIComponent filename). intros e _. unfold quoted.
    rewrite !str_app_assoc, (str_app_cons dquote (e +:+ _)), str_app_assoc. reflexivity.
  - rewrite cut_skip by done. change (String dquote ?x) with (String dquote "" +:+ x). by rewrite cut_at, str_app_nil_r.
Qed.

(** C20: The body [uploadFile] sends for a file is read back as exactly that
    file's bytes and its encoded name, whatever characters the name has, as
    long as the bytes do not contain the delimiter with its random part,
    which has no line end; and the encoded name decodes to the name when that
    is UTF-8.  So no file name ends a header early, adds a header or starts
    another part. *)
Theorem upload_read_back random filename bytes :
  no_char (chr 13) random ->
  includes (CRLF +:+ "--" +:+ upload_boundary random) bytes = false ->
  read_part (upload_boundary random) (multipart_body (upload_boundary random) filename bytes) =
    Some (encodeURIComponent filename, bytes) /\
  (valid_utf8 filename = true -> decodeURIComponent (encodeURIComponent filename) = Ok filename).
Proof.
  intros Hr Hb. split; [|apply decode_encoded]. unfold read_part.
  rewrite multipart_split, after_prefix_app, headers_cut.
  change (CRLF +:+ "--" +:+ ?x) with (String (chr 13) (String (chr 10) ("--" +:+ x))) in *.
  rewrite cut_first by done. destruct (name_cut filename) as (before & after & -> & ->). done.
Qed.

(** A name with quotes and line ends, and bytes that look like a header. *)
Definition odd_name : string := "my " +:+ quoted "cat" +:+ CRLF +:+ "X-Evil: 1.png".

Lemma upload_read_back_witness :
  includes (CRLF +:+ "--" +:+ upload_boundary "k3v9x0") (CRLF +:+ CRLF +:+ "--PNG") = false /\
  read_part (upload_boundary "k3v9x0") (multipart_body (upload_boundary "k3v9x0") odd_name (CRLF +:+ CRLF +:+ "--PNG")) =
    Some (encodeURIComponent odd_name, CRLF +:+ CRLF +:+ "--PNG") /\
  encodeURIComponent odd_name = "my%20%22cat%22%0D%0AX-Evil%3A%201.png".
Proof.
  split; [vm_compute; reflexivity|]. split; [|vm_compute; reflexivity].
  exact (proj1 (upload_read_back "k3v9x0" odd_name (CRLF +:+ CRLF +:+ "--PNG") eq_refl eq_refl)).
Defined.

(** ** The outcome *)

Section Outcome.
Context {P : Platform} {W : Type} `{Http W} `{RawHttp W}.
Context (client : GitLabClient).

(** Where the file goes and what it is sent with. *)
Definition upload_sent (random projectId filename bytes : string) : M W HttpResponse :=
  let boundary := upload_boundary random in
  let body := multipart_body boundary filename bytes in
  fetch_raw (gc_baseUrl client +:+ "/api/v4/projects/" +:+ projectId +:+ "/uploads")
    [("PRIVATE-TOKEN", gc_token client); ("Content-Type", "multipart/form-data; boundary=" +:+ boundary);
     ("Content-Length", num_to_string (Z.of_nat (String.length body)))] body.

(** One request, when GitLab does not limit the rate: an accepted file has
    the address GitLab calls [full_path], or its [url] when there is none;
    401 and 403 are an [AuthError], any other refusal a [GitLabApiError]. *)
Lemma upload_outcome random projectId filename bytes (s : ClientState W) answer w :
  upload_sent random projectId filename bytes (cl_world s) = (Ok answer, w) ->
  hp_status answer <> 429%Z ->
  let s' := MkClientState w (cl_readings s) (cl_capabilities s) (cl_rules s) (cl_groups s) (cl_metrics s) in
  uploadFile client random projectId filename bytes s =
    (if is_auth_status (hp_status answer) then auth_error " uploading file" answer
     else if (400 <=? hp_status answer)%Z then api_error "GitLab upload error " answer
     else let! raw := lift_res (hp_json answer) in lift_res (upload_result raw)) s'.
Proof.
  intros Hf Hs. unfold uploadFile, withRateLimitRetry, upload_sent in *. cbn [MAX_RETRIES retry_loop].
  unfold bind at 1 2. unfold on_world at 1, zoom. rewrite Hf. cbn [rp_status rp_body].
  apply Z.eqb_neq in Hs. cbn. rewrite Hs. done.
Qed.

Lemma upload_result_url full_path url alt markdown :
  upload_result (VObj [("alt", alt); ("url", url); ("full_path", full_path); ("markdown", markdown)]) =
    Ok (MkUploadResult (js_coalesce full_path url) alt markdown).
Proof. done. Qed.
End Outcome.
