(* ===== verification/HttpServer.v ===== *)
(** * The whole server (src/http/index.ts, health.ts, the rest of src/index.ts)

    [createApp] mounts the routers of the other files on one application;
    main runs it beside the engine.  A [Deployment] is the state of all of
    it: the composed program of System, the OAuth rows, the dismissed
    suggestions, the network, the GraphQL cache, the limiters and the health
    flags.  [app] answers a request.

    An exception in a handler ends in the error middleware only if express
    sees it: thrown by a synchronous handler, or passed on by
    [asyncHandler].  The promise of any other async handler is dropped by
    express 4, so its rejection is unhandled and ends the Node process; the
    same holds for the timer of the token refresher.  Such an outcome is
    [Crashed].  Not part of the model: the security and CORS headers, the
    static pages, the log line of each request, and time limits. *)

From S2P Require Import Prelude JsMap JsString JsVal Metrics Platform Conflict Breaker Queue.
From S2P Require Import Mongo Store Credentials Ids StatusMap Huly Caches Engine Sync BindingLoader.
From S2P Require Import TxSubscriber FieldSync Issues MergeRequests Notes Reviews Epics Pipeline.
From S2P Require Import Backfill Webhook RateLimit BaseUrl GitLabMaps GitLabClient GitLabGraphQL.
From S2P Require Import Lifecycle BindingApi Migrations Cookies Auth TokenRefresh OAuth Suggestions Config.
From S2P Require Import ManagersQuiet System TokenBucket.
Open Scope nat_scope.
Open Scope string_scope.
Open Scope list_scope.

(** ** Requests and replies *)

(** What middlewares read of a request; [hh_bodyParses] is false when
    [bodyParser.json] refuses the body. *)
Record HttpHead := MkHead {
  hh_ip : option string;
  hh_authorization : option string;
  hh_cookie : option string;
  hh_accept : option string;
  hh_bodyParses : bool
}.

(** The routes, with the random values a handler draws. *)
Inductive Route :=
  | GetHealth (uptime : jsval)
  | PostWebhook (req : Request)
  | BindingRoute (req : ApiRequest)
  | InvalidateGraphQLCache (body : record)
  | OAuthStart (query : record) (nonce codeVerifier : string)
  | OAuthCallback (query : record)
  | UserOAuthStart (query : record) (nonce codeVerifier : string)
  | UserOAuthCallback (query : record)
  | UserOAuthStatus (query : record)
  | UserOAuthDelete (body : record)
  | ApplySuggestion (bindingId mrIid suggestionId : string)
  | DismissSuggestion (bindingId mrIid noteId : string)
  | PostSession (body : record)
  | PutAccessToken (body : record)
  | ListCredentials (query : record).

Inductive HttpReply :=
  | WebhookReply (r : Response)
  | ApiReply (r : ApiResponse)
  | SessionReply (r : ApiResponse) (setCookie : option string)
  | OAuthReply (r : AuthReply).

Definition http_status (r : HttpReply) : Z :=
  match r with
  | WebhookReply r => rs_status r
  | ApiReply r | SessionReply r _ => ar_status r
  | OAuthReply r => reply_status r
  end.

Inductive Outcome := Answered (r : HttpReply) | Crashed (e : exn).

(** The error middleware. *)
Definition internal_error : HttpReply := ApiReply (api_error_json 500 "Internal server error").

Definition too_many (retryAfter : jsval) : HttpReply :=
  ApiReply (MkApiResponse 429 (VObj [("error", VStr "rate limit exceeded"); ("retryAfter", retryAfter)])).

(** The endpoints of http/binding.ts that pass through [asyncHandler]. *)
Definition binding_wrapped (req : ApiRequest) : bool :=
  match req with
  | PostBinding _ _ | ReRegisterWebhook _ | PatchBinding _ _ | MigrateReviewerLabels _ | MigrateMixinSplit _ => true
  | GetBindings _ | DeleteBinding _ | RotateSecret _ _ => false
  end.

(** ** State *)

(** The buckets of the limiters of binding.ts, user-oauth.ts and
    user-suggestions.ts. *)
Record Limits := MkLimits { lm_admin : jsmap string Bucket; lm_start : jsmap string Bucket; lm_apply : jsmap string Bucket }.

Inductive Limiter := AdminRateLimit | StartRateLimit | ApplyRateLimit.

Definition buckets_of (k : Limiter) (l : Limits) : jsmap string Bucket :=
  match k with AdminRateLimit => lm_admin l | StartRateLimit => lm_start l | ApplyRateLimit => lm_apply l end.

Definition set_buckets (k : Limiter) (b : jsmap string Bucket) (l : Limits) : Limits :=
  match k with
  | AdminRateLimit => MkLimits b (lm_start l) (lm_apply l)
  | StartRateLimit => MkLimits (lm_admin l) b (lm_apply l)
  | ApplyRateLimit => MkLimits (lm_admin l) (lm_start l) b
  end.

Record HealthState := MkHealth { hs_mongoOk : bool; hs_gitlabReachable : option bool }.

Definition health_json (uptime : jsval) (h : HealthState) : ApiResponse :=
  MkApiResponse 200 (VObj [("status", VStr "ok"); ("uptime", uptime); ("mongoOk", VBool (hs_mongoOk h));
    ("gitlabReachable", match hs_gitlabReachable h with Some b => VBool b | None => VNull end)]).

Section Deployment.
Context {Coll : Type -> Type} `{Mongo Coll} {P : Platform} {C : Cipher} `{Sha256} `{Markdown} `{FastEquals}.
Context {HU GL A W : Type} `{HulyClient HU} `{IssueGitLabClient GL} `{LabelGitLabClient GL}
  `{MilestoneGitLabClient GL} `{MergeRequests.MRGitLabClient GL} `{NoteGitLabClient GL} `{MRReviewGitLabClient GL}
  `{EpicGitLabClient GL} `{AccountClient A} `{LoaderWorld W}.
Context {U : NodeUrl} {NC : NodeCrypto} {WP : WebPlatform} {Net : Type} `{Http Net}.
Abbreviation SV := (Services Coll A W).
Abbreviation X := (SyncState HU GL SV).
Abbreviation EN := (Engine Coll X).

Record Deployment := MkDeployment {
  dp_engine : EN;
  dp_states : Coll OAuthStateDoc;
  dp_dismissed : Coll DismissedSuggestionDoc;
  dp_net : Net;
  dp_graphql : jsmap string CapabilityCacheEntry;
  dp_limits : Limits;
  dp_health : HealthState;
  dp_readings : nat
}.

Implicit Types (d : Deployment) (e : EN).

Definition dp_creds d : Creds Coll := sv_creds (sy_accounts (ext (dp_engine d))).

Definition with_creds (c : Creds Coll) (x : X) : X :=
  set_services (fun sv => MkServices (sv_accounts sv) c (sv_loader sv) (sv_outside sv)) x.

Definition set_engine e d : Deployment :=
  MkDeployment e (dp_states d) (dp_dismissed d) (dp_net d) (dp_graphql d) (dp_limits d) (dp_health d) (dp_readings d).

Definition dp_now : M Deployment Z := fun d =>
  (Ok (clock (dp_readings d)),
   MkDeployment (dp_engine d) (dp_states d) (dp_dismissed d) (dp_net d) (dp_graphql d) (dp_limits d) (dp_health d)
     (S (dp_readings d))).

(** *** The parts the routers work on *)

#[export] Instance life_http : Http (Net * X) := {
  fetch req := zoom fst (fun n w => (n, w.2)) (fetch req);
  sleep ms := zoom fst (fun n w => (n, w.2)) (sleep ms)
}.

Definition life_of d : LifeState Coll (Net * X) :=
  let e := dp_engine d in
  MkLifeState (store e) (dp_creds d) (dp_net d, ext e) (dp_readings d) (sy_metrics (ext e)).

Definition set_life (l : LifeState Coll (Net * X)) d : Deployment :=
  let x := set_metrics (lc_metrics l) (with_creds (lc_creds l) (lc_world l).2) in
  MkDeployment (Engine.set_store (lc_store l) (set_ext x (dp_engine d))) (dp_states d) (dp_dismissed d) (lc_world l).1
    (dp_graphql d) (dp_limits d) (dp_health d) (lc_readings l).

Definition auth_of d : AuthState Coll Net := MkAuthState (dp_states d) (dp_creds d) (dp_net d).

Definition set_auth (a : AuthState Coll Net) d : Deployment :=
  let e := dp_engine d in
  MkDeployment (set_ext (with_creds (au_creds a) (ext e)) e) (au_states a) (dp_dismissed d) (au_world a)
    (dp_graphql d) (dp_limits d) (dp_health d) (dp_readings d).

Definition suggestions_of d : SuggestionState Coll Net :=
  MkSuggestionState (store (dp_engine d)) (dp_dismissed d) (auth_of d).

Definition set_suggestions (g : SuggestionState Coll Net) d : Deployment :=
  let d := set_auth (sg_auth g) d in
  MkDeployment (Engine.set_store (sg_store g) (dp_engine d)) (dp_states d) (sg_dismissed g) (dp_net d) (dp_graphql d)
    (dp_limits d) (dp_health d) (dp_readings d).

Definition graphql_of d : Adapter Net := MkAdapter (MkClientState (dp_net d) 0 None [] [] []) (dp_graphql d) [].

Definition set_graphql_cache (a : Adapter Net) d : Deployment :=
  MkDeployment (dp_engine d) (dp_states d) (dp_dismissed d) (dp_net d) (ad_graphql a) (dp_limits d) (dp_health d)
    (dp_readings d).

(** *** The configuration, as main passes it on *)

Context (config : Config) (systemAccountUuid : string) (allowedHosts : option string).
Context (edition : W -> option string) (mirror : option (MirrorDeps (Store Coll * X))).

(** No probe is wired at this level. *)
Definition service_account : string :=
  match (resolveServiceAccountPersonId (cf_ServiceAccountPersonId config) None systemAccountUuid 0 false tt).1 with
  | Ok r => rr_personId r
  | Throw _ => systemAccountUuid
  end.

Definition encryption_key : string := unbase64 (cf_CredentialEncryptionKey config).

Definition system_config : SystemConfig (Coll := Coll) (HU := HU) (GL := GL) (A := A) (W := W) :=
  MkSystemConfig (cf_GitLabBaseUrl config) encryption_key (30 * 60 * 1000) service_account edition mirror.

Definition secrets : SecretConfig := MkSecretConfig (cf_ServerSecret config) (cf_ServerSecretPrevious config).

Definition auth_config : AuthConfig :=
  MkAuthConfig encryption_key (cf_GitLabClientId config) (cf_GitLabClientSecret config) (cf_OAuthRedirectUri config)
    (cf_GitLabBaseUrl config) (cf_PublicBaseUrl config) allowedHosts secrets.
(** *** Migrations over the loaded binding *)

Abbreviation ML := (M (LifeState Coll (Net * X))).

Definition on_sync {B} (m : M (Store Coll * X) B) : ML B := fun l =>
  let x := set_metrics (lc_metrics l) (with_creds (lc_creds l) (lc_world l).2) in
  let '(r, (st, x')) := m (lc_store l, x) in
  (r, MkLifeState st (sv_creds (sy_accounts x')) ((lc_world l).1, x') (lc_readings l) (sy_metrics x')).

Definition nat_prop (k : string) (n : nat) : string * jsval := (k, VNum (Z.of_nat n)).

(** [migratedAt] is the last reading of the clock. *)
Definition migrate_labels (binding : BindingDoc) : ML record :=
  on_sync (
    load_context system_config (bd_id binding) ;;!
    let! r := migrateReviewerLabels binding in
    let! migratedAt := gets (fun s => clock (pred (sy_readings s.2))) in
    ret [("migratedAt", VStr (toISOString migratedAt)); nat_prop "mrsScanned" (rm_mrsScanned r);
         nat_prop "labelsStripped" (rm_labelsStripped r); nat_prop "reviewersResolved" (rm_reviewersResolved r);
         nat_prop "unresolvedCount" (rm_unresolvedCount r)]).

Definition split_json (migratedAt : Z) (r : MixinSplitResult) : record :=
  [("migratedAt", VStr (toISOString migratedAt)); nat_prop "mrsScanned" (ms_mrsScanned r);
   nat_prop "legacyStripped" (ms_legacyStripped r); nat_prop "coreWritten" (ms_coreWritten r);
   nat_prop "reviewWritten" (ms_reviewWritten r); nat_prop "unresolvedCount" (ms_unresolvedCount r)] ++
  (if (0 <? ms_stripFailed r)%nat then [nat_prop "stripFailed" (ms_stripFailed r)] else []).

(** Here [migratedAt] is the first reading.  No document has the flag the
    migration waits for, so one turn of its poll is enough
    ([split_never_waits]). *)
Definition migrate_split (binding : BindingDoc) : ML record :=
  on_sync (
    load_context system_config (bd_id binding) ;;!
    let! migratedAt := gets (fun s => clock (sy_readings s.2)) in
    let! outcome := migrateMixinSplit 1 (fun _ => false) None binding in
    ret (match outcome with
         | Some (Migrated r) => split_json migratedAt r
         | Some DrainTimedOut => split_json migratedAt (MkMixinSplitResult 0 0 0 0 0 0) ++ [("drainTimedOut", VBool true)]
         | Some UnpausedDuringDrain =>
             split_json migratedAt (MkMixinSplitResult 0 0 0 0 0 0) ++
             [("success", VBool false); ("reason", VStr "binding_unpaused_during_drain")]
         | None => []
         end)).

(** *** The application *)

Definition router_deps : BindingRouterDeps Coll (Net * X) :=
  MkBindingRouterDeps encryption_key (cf_ServerSecret config)
    (Some (index_client_factory encryption_key allowedHosts (cf_GitLabBaseUrl config)))
    (Some (cf_PublicBaseUrl config)) (Some migrate_labels) (Some migrate_split).

Definition Handler : Type := Deployment -> Outcome * Deployment.

Definition answer (r : HttpReply) : Handler := fun d => (Answered r, d).

(** A synchronous handler, or one in [asyncHandler]; and one that is
    neither. *)
Definition wrapped (m : M Deployment HttpReply) : Handler := fun d =>
  match m d with (Ok r, d') => (Answered r, d') | (Throw _, d') => (Answered internal_error, d') end.

Definition unwrapped (m : M Deployment HttpReply) : Handler := fun d =>
  match m d with (Ok r, d') => (Answered r, d') | (Throw e, d') => (Crashed e, d') end.

Definition on_life (m : ML ApiResponse) : M Deployment HttpReply :=
  let! r := zoom life_of set_life m in ret (ApiReply r).

Definition on_auth (m : M (AuthState Coll Net) AuthReply) : M Deployment HttpReply :=
  let! r := zoom auth_of set_auth m in ret (OAuthReply r).

Definition on_suggestions (m : M (SuggestionState Coll Net) AuthReply) : M Deployment HttpReply :=
  let! r := zoom suggestions_of set_suggestions m in ret (OAuthReply r).

(** [requireBearer] before a handler. *)
Definition bearer (head : HttpHead) (k : Handler) : Handler :=
  if requireBearer (cf_ServerSecret config) (hh_authorization head) then k
  else answer (ApiReply (api_error_json 401 "Unauthorized")).

(** [requireHulyCookie] is synchronous: what it throws reaches the error
    middleware.  The handler reads the identity at the same instant. *)
Definition cookie_auth (head : HttpHead) (k : Handler) : Handler := fun d =>
  match requireHulyCookie (clock (cred_clock (dp_creds d))) secrets (hh_cookie head) with
  | Throw _ => (Answered internal_error, d)
  | Ok _ => k d
  end.

Definition limited (which : Limiter) (head : HttpHead) (k : Handler) : Handler := fun d =>
  let '(refused, b) := rateLimit ten_per_minute (request_key (hh_ip head)) (clock (dp_readings d))
                         (buckets_of which (dp_limits d)) in
  let d := MkDeployment (dp_engine d) (dp_states d) (dp_dismissed d) (dp_net d) (dp_graphql d)
             (set_buckets which b (dp_limits d)) (dp_health d) (S (dp_readings d)) in
  match refused with Some n => (Answered (too_many n), d) | None => k d end.

Definition binding_route (req : ApiRequest) : Handler :=
  (if binding_wrapped req then wrapped else unwrapped) (on_life (handle router_deps req)).

(** POST /api/v1/admin/invalidate-graphql-cache *)
Definition invalidate_cache (body : record) : M Deployment HttpReply :=
  let baseUrl := nonempty_string (prop_of body "baseUrl") in
  let! size := zoom graphql_of set_graphql_cache
    (invalidateGraphQLCapability baseUrl ;;! gets getGraphQLCapabilityCacheSize) in
  ret (ApiReply (MkApiResponse 200 (VObj [("invalidated", VStr (default "all" baseUrl));
                                          ("cacheSize", VNum (Z.of_nat size))]))).

Definition post_session (head : HttpHead) (body : record) : M Deployment HttpReply :=
  let! now := dp_now in
  let '(r, c) := user_session now secrets (cf_PublicBaseUrl config) (hh_authorization head) body in
  ret (SessionReply r c).

(** The clock of the suggestion endpoints is the credentials'. *)
Definition app (head : HttpHead) (route : Route) : Handler :=
  if negb (hh_bodyParses head) then answer internal_error
  else
    match route with
    | GetHealth uptime => fun d => answer (ApiReply (health_json uptime (dp_health d))) d
    | PostWebhook req =>
        wrapped (zoom dp_engine set_engine (let! r := system_webhook system_config req in ret (WebhookReply r)))
    | BindingRoute (MigrateMixinSplit id) =>
        bearer head (limited AdminRateLimit head (binding_route (MigrateMixinSplit id)))
    | BindingRoute req => bearer head (binding_route req)
    | InvalidateGraphQLCache body => bearer head (limited AdminRateLimit head (wrapped (invalidate_cache body)))
    | OAuthStart query nonce v => unwrapped (on_auth (oauth_start auth_config query nonce v))
    | OAuthCallback query => unwrapped (on_auth (oauth_callback auth_config query (hh_accept head)))
    | UserOAuthStart query nonce v =>
        limited StartRateLimit head (cookie_auth head (
          unwrapped (on_auth (user_start auth_config (hh_cookie head) query nonce v))))
    | UserOAuthCallback query => unwrapped (on_auth (user_callback auth_config query (hh_accept head)))
    | UserOAuthStatus query =>
        cookie_auth head (unwrapped (on_auth (user_status auth_config (hh_cookie head) query)))
    | UserOAuthDelete body =>
        cookie_auth head (unwrapped (on_auth (user_delete_credential auth_config (hh_cookie head) body)))
    | ApplySuggestion bindingId _ suggestionId =>
        limited ApplyRateLimit head (cookie_auth head (
          unwrapped (on_suggestions (apply_suggestion auth_config (hh_cookie head) bindingId suggestionId))))
    | DismissSuggestion bindingId mrIid noteId =>
        limited ApplyRateLimit head (cookie_auth head (
          unwrapped (on_suggestions (dismiss_suggestion auth_config (hh_cookie head) bindingId mrIid noteId))))
    | PostSession body => wrapped (post_session head body)
    | PutAccessToken body => unwrapped (on_auth (put_access_token auth_config (hh_authorization head) body))
    | ListCredentials query => unwrapped (on_auth (list_credentials auth_config (hh_authorization head) query))
    end.

(** ** The running server *)

(** The timers: the refresher of tokens (its promise is dropped), the probe
    of the database, the pruning of a limiter. *)
Definition refresh_tokens : Handler := unwrapped (on_auth (TokenRefresh.refresh auth_config ;;! ret (Html [] ""))).

Definition probe_mongo (ok : bool) d : Deployment :=
  MkDeployment (dp_engine d) (dp_states d) (dp_dismissed d) (dp_net d) (dp_graphql d) (dp_limits d)
    (MkHealth ok (hs_gitlabReachable (dp_health d))) (dp_readings d).

Definition prune_limits (which : Limiter) d : Deployment :=
  MkDeployment (dp_engine d) (dp_states d) (dp_dismissed d) (dp_net d) (dp_graphql d)
    (set_buckets which (prune (clock (dp_readings d)) (buckets_of which (dp_limits d))) (dp_limits d)) (dp_health d)
    (S (dp_readings d)).

(** The TTL index of the OAuth rows: MongoDB's monitor runs at [now]. *)
Definition expire_states (now : Z) d : Deployment :=
  MkDeployment (dp_engine d) (deleteMany (fun s => os_expiresAt s <? now)%Z (dp_states d)) (dp_dismissed d) (dp_net d)
    (dp_graphql d) (dp_limits d) (dp_health d) (dp_readings d).

(** A new process: the collections and the network are all that is left. *)
Definition restart_server d : Deployment :=
  MkDeployment (restart system_config (dp_engine d)) (dp_states d) (dp_dismissed d) (dp_net d) []
    (MkLimits [] [] []) (MkHealth false None) (dp_readings d).

(** What an outcome leaves: a crash is followed by the restart the
    container's supervisor makes. *)
Definition after (o : Outcome * Deployment) : Deployment :=
  match o with (Answered _, d) => d | (Crashed _, d) => restart_server d end.

Inductive serve_step : Deployment -> Deployment -> Prop :=
  | sv_request d head route : serve_step d (after (app head route d))
  | sv_refresh d : serve_step d (after (refresh_tokens d))
  | sv_engine d e : sys_step system_config (dp_engine d) e -> serve_step d (set_engine e d)
  | sv_probe d ok : serve_step d (probe_mongo ok d)
  | sv_prune d which : serve_step d (prune_limits which d)
  | sv_expire d now : serve_step d (expire_states now d)
  | sv_restart d : serve_step d (restart_server d).

Inductive serve_reach (d0 : Deployment) : Deployment -> Prop :=
  | sv_refl : serve_reach d0 d0
  | sv_step d d' : serve_reach d0 d -> serve_step d d' -> serve_reach d0 d'.
End Deployment.
