(* ===== verification/HttpServerProofs.v ===== *)
(** * What the whole server guarantees

    Every request, timer and restart of the server is, for the composed
    program inside it, a step of System ([server_refines_system]); which
    requests may change what is stored ([request_authorized]); and which
    outcomes end the process. *)

From S2P Require Import Prelude JsMap JsString JsVal Metrics Platform Conflict Breaker Queue.
From S2P Require Import Mongo Store Credentials Ids StatusMap Huly Caches Engine Sync BindingLoader.
From S2P Require Import TxSubscriber FieldSync Issues MergeRequests Notes Reviews Epics Pipeline.
From S2P Require Import Backfill Webhook RateLimit BaseUrl GitLabMaps GitLabClient GitLabGraphQL.
From S2P Require Import Lifecycle LifecycleProofs BindingApi BindingApiProofs Migrations Cookies Auth TokenRefresh OAuth Suggestions Config.
From S2P Require Import ManagersQuiet System SystemProofs SystemLedger TokenBucket HttpServer.
Open Scope nat_scope.
Open Scope string_scope.
Open Scope list_scope.

(** ** What the admin endpoints leave alone *)

(** A client's calls keep what its network keeps. *)
Section ClientKeeps.
Context {P : Platform} {W : Type} `{Http W} (Q : W -> Prop).
Context (Hfetch : forall req, preserves Q (fetch req)) (Hsleep : forall ms, preserves Q (sleep ms)).

Definition client_side (c : ClientState W) : Prop := Q (cl_world c).
Abbreviation keeping := (preserves client_side).

Lemma client_world {B} (m : M W B) : preserves Q m -> keeping (GitLabClient.on_world m).
Proof. intros Hm c Hc. specialize (Hm _ Hc). unfold GitLabClient.on_world, zoom. by destruct (m (cl_world c)). Qed.

Lemma client_date : keeping client_now.
Proof. by intros c Hc. Qed.

Lemma client_wait hs : keeping (extractWaitMs client_now hs).
Proof. pose proof client_date. unfold extractWaitMs, parseRetryAfter, until. quiet_tac. Qed.

Lemma retry_keeps {A} (req : HttpRequest) with_x (body : HttpResponse -> M (ClientState W) A) :
  (forall res, keeping (body res)) -> keeping (with_retry with_x req body).
Proof.
  intros Hb. unfold with_retry, withRateLimitRetry. generalize 0%Z. generalize MAX_RETRIES.
  intros left. induction left as [|left IH]; intros last; cbn [retry_loop].
  - intros c Hc. unfold bind at 1. pose proof (client_world _ (Hfetch req) c Hc) as Hf.
    unfold bind. destruct (GitLabClient.on_world (fetch req) c) as [[res|e] c1]; [|done].
    cbn. destruct (hp_status res =? 429)%Z; [done|by apply Hb].
  - intros c Hc. unfold bind at 1. pose proof (client_world _ (Hfetch req) c Hc) as Hf.
    unfold bind at 1. destruct (GitLabClient.on_world (fetch req) c) as [[res|e] c1]; [|done].
    cbn [ret rp_status rp_headers rp_body fst snd]. destruct (hp_status res =? 429)%Z; cbn [negb]; [|by apply Hb].
    refine (preserves_bind _ _ _ (client_wait _) _ c1 Hf). intros w.
    apply preserves_bind; [apply client_world, Hsleep|]. intros _. apply IH.
Qed.

Lemma request_keeps cl method path q body token : keeping (request cl method path q body token).
Proof.
  unfold request, validateActorTokenHeader. apply preserves_bind; [quiet_tac|]. intros _.
  apply retry_keeps. intros res. unfold request_body, auth_error, api_error. quiet_tac.
Qed.
End ClientKeeps.

Section LifeKeeps.
Context {Coll : Type -> Type} `{Mongo Coll} {P : Platform} {C : Cipher} {U : NodeUrl} {W : Type} `{Http W}.
Context (d : Coll DedupDoc) (i : Coll InflightDoc) (Q : W -> Prop).
Context (Hfetch : forall req, preserves Q (fetch req)) (Hsleep : forall ms, preserves Q (sleep ms)).

Definition life_side (l : LifeState Coll W) : Prop := engine_side d i (lc_store l) /\ Q (lc_world l).
Abbreviation keeping := (preserves life_side).

Lemma life_store {B} (m : M (Store Coll) B) : preserves (engine_side d i) m -> keeping (Lifecycle.on_store m).
Proof. intros Hm l [Hs HQ]. specialize (Hm _ Hs). unfold Lifecycle.on_store, zoom. by destruct (m (lc_store l)). Qed.

Lemma life_creds {B} (m : M (Creds Coll) B) : keeping (Lifecycle.on_creds m).
Proof. intros l Hl. unfold Lifecycle.on_creds, zoom. by destruct (m (lc_creds l)). Qed.

Lemma life_client {B} c (m : M (ClientState W) B) : preserves (client_side Q) m -> keeping (with_client c m).
Proof.
  intros Hm l [Hs HQ]. specialize (Hm (MkClientState (lc_world l) (lc_readings l) c.2 [] [] (lc_metrics l)) HQ).
  unfold with_client. by destruct (m _).
Qed.

Lemma quiet_updateBinding id u : preserves (engine_side (Coll := Coll) d i) (updateBinding id u).
Proof.
  intros s Hs. unfold updateBinding, with_object_id, dup_key_or. destruct (newObjectId id); [|done]. by destruct (updateOne _ _ _).
Qed.

Lemma quiet_createBinding id now input : preserves (engine_side (Coll := Coll) d i) (createBinding id now input).
Proof. intros s Hs. unfold createBinding, dup_key_or. by destruct (insertOne _ _). Qed.

Lemma quiet_deleteBinding id : preserves (engine_side (Coll := Coll) d i) (deleteBinding id).
Proof. intros s Hs. unfold deleteBinding, with_object_id. by destruct (newObjectId id). Qed.

Lemma quiet_listBindings w : preserves (engine_side (Coll := Coll) d i) (listBindings w).
Proof. by intros s Hs. Qed.

Lemma quiet_forget_binding id :
  preserves (engine_side (Coll := Coll) d i) (with_object_id id (fun oid s =>
    dup_key_or (updateOne (fun d => bool_decide (bd_id d = oid)) unset_webhook (bindings s))
      (fun c => modify (set_bindings c)) s)).
Proof. intros s Hs. unfold with_object_id, dup_key_or. destruct (newObjectId id); [|done]. by destruct (updateOne _ _ _). Qed.

Hint Resolve life_store life_creds life_client quiet_updateBinding quiet_createBinding quiet_deleteBinding
  quiet_listBindings quiet_forget_binding : quiet.

Lemma life_register c pid url token flags : keeping (registerProjectWebhook c pid url token flags).
Proof.
  apply life_client. unfold createProjectWebhook. apply preserves_bind; [by apply request_keeps|]. quiet_tac.
Qed.

Lemma life_deregister c pid hook : keeping (deregisterProjectWebhook c pid hook).
Proof.
  apply life_client. unfold deleteProjectWebhook. apply preserves_bind; [by apply request_keeps|]. quiet_tac.
Qed.

Lemma life_update c pid hook url token flags : keeping (updateProjectWebhookEventFlags c pid hook url token flags).
Proof.
  apply life_client. unfold updateProjectWebhook. apply preserves_bind; [by apply request_keeps|]. quiet_tac.
Qed.

Hint Resolve life_register life_deregister life_update : quiet.

(** The router, given a client factory and migrations that keep the rest. *)
Context (deps : BindingRouterDeps Coll W).

Record router_keeps : Prop := {
  rk_factory : forall f ref, br_lifecycle deps = Some f -> keeping (f ref);
  rk_labels : forall m b, br_migrateReviewerLabels deps = Some m -> keeping (m b);
  rk_split : forall m b, br_migrateMixinSplit deps = Some m -> keeping (m b)
}.

Context (Hdeps : router_keeps).

Lemma life_build f ref : br_lifecycle deps = Some f -> keeping (build_client f ref).
Proof. intros Hf. unfold build_client. pose proof (rk_factory Hdeps f ref Hf). quiet_tac. Qed.

Lemma life_create key f b url : br_lifecycle deps = Some f -> keeping (onBindingCreate key f b url).
Proof.
  intros Hf. pose proof (fun r => life_build f r Hf). unfold onBindingCreate, mark_registered, mark_unregistered. quiet_tac.
Qed.

Hint Resolve life_create : quiet.

Lemma life_delete f b : br_lifecycle deps = Some f -> keeping (onBindingDelete f b).
Proof. intros Hf. pose proof (fun r => life_build f r Hf). unfold onBindingDelete. quiet_tac. Qed.

Lemma life_rotate f b s url : br_lifecycle deps = Some f -> keeping (rotateWebhookSecret f b s url).
Proof.
  intros Hf. pose proof (fun r => life_build f r Hf). unfold rotateWebhookSecret, mark_registered, forget_webhook. quiet_tac.
Qed.

Lemma life_reregister key f b url : br_lifecycle deps = Some f -> keeping (reRegisterWebhook key f b url).
Proof.
  intros Hf. pose proof (fun r => life_build f r Hf).
  unfold reRegisterWebhook, mark_registered, mark_unregistered. quiet_tac.
Qed.

Hint Resolve life_delete life_rotate life_reregister quiet_getBinding : quiet.

Lemma life_with_binding id k : (forall b, keeping (k b)) -> keeping (with_binding id k).
Proof. intros Hk. unfold with_binding. quiet_tac. Qed.

Hint Resolve life_with_binding : quiet.

Lemma life_migration what m id :
  (forall f b, m = Some f -> keeping (f b)) -> keeping (run_migration what m id).
Proof. intros Hm. unfold run_migration. apply life_with_binding. intros b. destruct m as [f|]; [pose proof (Hm f b eq_refl)|]; quiet_tac. Qed.

Lemma life_post body secret : keeping (post_binding deps body secret).
Proof.
  unfold post_binding, lifecycle, api_oid, api_now.
  do 5 (match goal with |- preserves _ (match ?x with _ => _ end) => destruct x; try apply preserves_ret end).
  destruct (br_lifecycle deps) as [f|] eqn:Ef; [destruct (br_publicBaseUrl deps) as [u|]|]; quiet_tac.
Qed.

Lemma life_rotate_secret id s : keeping (rotate_secret deps id s).
Proof.
  unfold rotate_secret, api_now. apply life_with_binding. intros b.
  destruct (br_lifecycle deps) as [f|] eqn:Ef; [destruct (br_publicBaseUrl deps) as [u|]|]; quiet_tac.
Qed.

Lemma life_re_register id : keeping (re_register_webhook deps id).
Proof.
  unfold re_register_webhook, api_now, lifecycle. apply life_with_binding. intros b.
  destruct (br_lifecycle deps) as [f|] eqn:Ef; [destruct (br_publicBaseUrl deps) as [u|]|]; quiet_tac.
Qed.

Lemma life_delete_binding id : keeping (delete_binding deps id).
Proof. unfold delete_binding. destruct (br_lifecycle deps) as [f|] eqn:Ef; quiet_tac. Qed.

Lemma life_patch id body : keeping (patch_binding id body).
Proof. unfold patch_binding. apply life_with_binding. intros b. quiet_tac. Qed.

Lemma life_list w : keeping (get_bindings w).
Proof. unfold get_bindings. quiet_tac. Qed.

Lemma life_handle req : keeping (handle deps req).
Proof.
  destruct req; cbn [handle]; auto using life_post, life_list, life_delete_binding, life_rotate_secret, life_re_register,
    life_patch; apply life_migration, Hdeps.
Qed.
End LifeKeeps.

(** ** The server is the composed program with more around it *)

Section Refinement.
Context {Coll : Type -> Type} `{HL : MongoLaws Coll} {P : Platform} {C : Cipher} `{Sha256} `{Markdown} `{FastEquals}.
Context {HU GL A W : Type} `{HulyClient HU} `{IssueGitLabClient GL} `{LabelGitLabClient GL}
  `{MilestoneGitLabClient GL} `{MergeRequests.MRGitLabClient GL} `{NoteGitLabClient GL} `{MRReviewGitLabClient GL}
  `{EpicGitLabClient GL} `{AccountClient A} `{LoaderWorld W}.
Context {U : NodeUrl} {NC : NodeCrypto} {WP : WebPlatform} {Net : Type} `{Http Net}.
Abbreviation SV := (Services Coll A W).
Abbreviation X := (SyncState HU GL SV).
Abbreviation DP := (Deployment (Coll := Coll) (HU := HU) (GL := GL) (A := A) (W := W) (Net := Net)).
Implicit Types (d : DP).
Context (config : Config) (systemAccountUuid : string) (allowedHosts : option string).
Context (edition : W -> option string) (mirror : option (MirrorDeps (Store Coll * X))).
Abbreviation cfg := (system_config config systemAccountUuid edition mirror).
Abbreviation serve := (app config systemAccountUuid allowedHosts edition mirror).

(** *** Migrations *)

Section Quiet.
Context (dd : Coll DedupDoc) (ii : Coll InflightDoc) (l : list Handed).
Abbreviation quietly := (preserves (side (HU := HU) (GL := GL) dd ii (pod_side (W := W) (A := A) (Coll := Coll) (pod_holds l)))).

Definition net_side (x : Net * X) : Prop := pod_holds l (pod_of x.2).

#[local] Instance accounts_hold : AccountsKeep (pod_side (W := W) (A := A) (Coll := Coll) (pod_holds l)).
Proof. apply services_keep. Qed.

Lemma mr_entries_quiet b : quietly (mr_entries b).
Proof. by intros s Hs. Qed.

Lemma find_issue_quiet r : quietly (find_issue r).
Proof. unfold find_issue. quiet_tac. Qed.

Hint Resolve accounts_hold mr_entries_quiet find_issue_quiet : quiet.

Lemma drain_quiet f id fuel timeout : quietly (waitForBackfillDrain f id fuel timeout).
Proof.
  unfold waitForBackfillDrain. quiet_tac. revert a. induction fuel as [|fuel IH]; intros a; cbn [drain_loop]; quiet_tac.
Qed.

Lemma split_entry_quiet space e r : quietly (split_entry space e r).
Proof. unfold split_entry, finish_split. quiet_tac. Qed.

Lemma split_entries_quiet space es r : quietly (split_entries space es r).
Proof. pose proof split_entry_quiet. revert r. induction es as [|e es IH]; intros r; cbn [split_entries]; quiet_tac. Qed.

Hint Resolve drain_quiet split_entries_quiet : quiet.

Lemma migrateMixinSplit_quiet fuel f t b : quietly (migrateMixinSplit fuel f t b).
Proof. unfold migrateMixinSplit. quiet_tac. Qed.

Lemma resolve_reviewers_quiet us : quietly (resolve_reviewers us).
Proof. induction us as [|u us IH]; cbn [resolve_reviewers]; quiet_tac. Qed.

Hint Resolve resolve_reviewers_quiet : quiet.

Lemma reviewer_entry_quiet space e r : quietly (reviewer_entry space e r).
Proof. unfold reviewer_entry, readExistingReviewers. quiet_tac. Qed.

Lemma reviewer_entries_quiet space es r : quietly (reviewer_entries space es r).
Proof. pose proof reviewer_entry_quiet. revert r. induction es as [|e es IH]; intros r; cbn [reviewer_entries]; quiet_tac. Qed.

Lemma migrateReviewerLabels_quiet b : quietly (migrateReviewerLabels b).
Proof. pose proof reviewer_entries_quiet. unfold migrateReviewerLabels. quiet_tac. Qed.

(** The flag the mixin migration waits for is on no document, so its poll
    ends at the first turn. *)
Lemma poll_ends fuel id timeout s (o : option bool) s' :
  waitForBackfillDrain (Coll := Coll) (HU := HU) (GL := GL) (AC := SV) (fun _ => false) id (S fuel) timeout s = (Ok o, s') ->
  o = Some true.
Proof.
  assert (forall cur, in_flight (fun _ => false) cur = false) as Hf by (by intros [c|]).
  unfold waitForBackfillDrain. destruct (timeout <=? 0)%Z; [by intros [= <- _]|].
  intros E. apply bind_inv_ok in E as (now & s1 & _ & E). cbn [drain_loop] in E.
  apply bind_inv_ok in E as (now' & s2 & _ & E).
  destruct (now' <? now + timeout)%Z; apply bind_inv_ok in E as (cur & s3 & _ & E); rewrite Hf in E;
    cbn in E; by injection E as <- _.
Qed.

Lemma split_never_waits fuel t b s r s' :
  migrateMixinSplit (Coll := Coll) (HU := HU) (GL := GL) (AC := SV) (S fuel) (fun _ => false) t b s = (Ok r, s') -> r <> None.
Proof.
  unfold migrateMixinSplit. intros E. apply bind_inv_ok in E as (a & s1 & _ & E).
  apply bind_inv_ok in E as (drained & s2 & E1 & E). apply poll_ends in E1 as ->.
  apply bind_inv_ok in E as (after & s3 & _ & E).
  destruct (match after with Some b0 => bd_disabled b0 | None => false end).
  - apply bind_inv_ok in E as (es & s4 & _ & E). apply bind_inv_ok in E as (n & s5 & _ & E). by injection E as <- _.
  - by injection E as <- _.
Qed.

Lemma load_quiet id : quietly (load_context cfg id).
Proof. apply quiet_load_context, holds_hooks. Qed.

Lemma on_sync_keeps {B} (m : M (Store Coll * X) B) : quietly m -> preserves (life_side dd ii net_side) (on_sync m).
Proof.
  intros Hm [st cr [n x] rd me] [Hs Hx]. unfold on_sync. cbn [lc_store lc_creds lc_world lc_metrics].
  specialize (Hm (st, set_metrics me (with_creds cr x)) (conj Hs Hx)). by destruct (m _) as [r [st' x']].
Qed.

Lemma router_quiet :
  router_keeps dd ii net_side (router_deps config systemAccountUuid allowedHosts edition mirror).
Proof.
  pose proof load_quiet. pose proof migrateReviewerLabels_quiet. pose proof migrateMixinSplit_quiet. split; cbn.
  - intros f ref [= <-]. unfold index_client_factory. pose proof (fun B => @life_creds Coll (Net * X) dd ii net_side B). quiet_tac.
  - intros m b [= <-]. apply on_sync_keeps. quiet_tac.
  - intros m b [= <-]. apply on_sync_keeps. quiet_tac.
Qed.

Lemma admin_quiet req :
  preserves (life_side dd ii net_side) (handle (router_deps config systemAccountUuid allowedHosts edition mirror) req).
Proof.
  apply life_handle; [| |apply router_quiet]; intros r [n x] Hx; cbn; unfold zoom; cbn; [by destruct (fetch r n)|by destruct (sleep r n)].
Qed.
End Quiet.

(** *** Requests *)

Definition inside (k : DP -> Outcome * DP) : Prop :=
  forall d, sys_step cfg (dp_engine d) (dp_engine (k d).2).

Lemma same_refl (e : Engine Coll X) : same_engine e e.
Proof. by split_and!. Qed.

Lemma inside_answer r : inside (answer r).
Proof. intros d. apply ss_elsewhere, same_refl. Qed.

Lemma inside_wrapped (m : M DP HttpReply) :
  (forall d, sys_step cfg (dp_engine d) (dp_engine (m d).2)) -> inside (wrapped m).
Proof. intros Hm d. specialize (Hm d). unfold wrapped. by destruct (m d) as [[r|e] d']. Qed.

Lemma inside_unwrapped (m : M DP HttpReply) :
  (forall d, sys_step cfg (dp_engine d) (dp_engine (m d).2)) -> inside (unwrapped m).
Proof. intros Hm d. specialize (Hm d). unfold unwrapped. by destruct (m d) as [[r|e] d']. Qed.

Lemma inside_limited which head k : inside k -> inside (limited which head k).
Proof.
  intros Hk d. unfold limited. destruct (rateLimit _ _ _ _) as [[n|] b]; [apply ss_elsewhere, same_refl|].
  exact (Hk (MkDeployment _ _ _ _ _ _ _ _)).
Qed.

Lemma inside_bearer head k : inside k -> inside (bearer config head k).
Proof. intros Hk. unfold bearer. by destruct (requireBearer _ _); [|apply inside_answer]. Qed.

Lemma inside_cookie head k : inside k -> inside (cookie_auth config head k).
Proof. intros Hk d. unfold cookie_auth. destruct (requireHulyCookie _ _ _); [apply Hk|apply ss_elsewhere, same_refl]. Qed.

(** The routers that know nothing of the engine. *)
Lemma auth_step (m : M (AuthState Coll Net) AuthReply) d : sys_step cfg (dp_engine d) (dp_engine (on_auth m d).2).
Proof.
  apply ss_elsewhere. unfold on_auth, bind, zoom. destruct (m (auth_of d)) as [[r|e] a]; by split_and!.
Qed.

Lemma suggestions_step (m : M (SuggestionState Coll Net) AuthReply) d :
  (forall st, preserves (fun g => sg_store g = st) m) ->
  sys_step cfg (dp_engine d) (dp_engine (on_suggestions m d).2).
Proof.
  intros Hm. apply ss_elsewhere. unfold on_suggestions, bind, zoom.
  specialize (Hm (store (dp_engine d)) (suggestions_of d) eq_refl).
  destruct (m (suggestions_of d)) as [[r|e] g]; cbn in Hm |- *; split_and!; try done; cbn; by rewrite Hm.
Qed.

Lemma suggestion_auth {B} (m : M (AuthState Coll Net) B) st :
  preserves (fun g => sg_store g = st) (Suggestions.on_auth (Coll := Coll) (W := Net) m).
Proof. intros g Hg. unfold Suggestions.on_auth, zoom. by destruct (m (sg_auth g)). Qed.

Lemma suggestion_binding id st :
  preserves (fun g => sg_store g = st) (on_bindings (Coll := Coll) (W := Net) (getBinding id)).
Proof. intros g Hg. unfold on_bindings, zoom, getBinding, with_object_id. by destruct (newObjectId id). Qed.

Hint Resolve suggestion_auth suggestion_binding : quiet.

Lemma apply_keeps_store ac ck b n st :
  preserves (fun g => sg_store g = st) (apply_suggestion (Coll := Coll) (W := Net) ac ck b n).
Proof. unfold apply_suggestion, cookie_identity, binding_base. quiet_tac. Qed.

Lemma dismiss_keeps_store ac ck b i n st :
  preserves (fun g => sg_store g = st) (dismiss_suggestion (Coll := Coll) (W := Net) ac ck b i n).
Proof.
  unfold dismiss_suggestion, cookie_identity. quiet_tac. intros g Hg. by destruct (upsertOne _ _ _ _).
Qed.

Lemma binding_step req d :
  sys_step cfg (dp_engine d) (dp_engine (on_life (handle (router_deps config systemAccountUuid allowedHosts edition mirror) req) d).2).
Proof.
  apply ss_elsewhere. unfold on_life, bind, zoom.
  destruct (admin_quiet (Store.dedup (store (dp_engine d))) (inflight (store (dp_engine d))) (handed_of (dp_engine d)) req (life_of d))
    as [[Hd Hi] Hx]; [done|].
  destruct (handle _ req (life_of d)) as [[r|e] l]; by split_and!.
Qed.

Lemma session_step head body d : sys_step cfg (dp_engine d) (dp_engine (post_session config head body d).2).
Proof. apply ss_elsewhere. unfold post_session, bind, dp_now. by destruct (user_session _ _ _ _ _); split_and!. Qed.

Lemma invalidate_step body d : sys_step cfg (dp_engine d) (dp_engine (invalidate_cache body d).2).
Proof. apply ss_elsewhere, same_refl. Qed.

Lemma webhook_step req d :
  sys_step cfg (dp_engine d)
    (dp_engine (zoom dp_engine set_engine (let! r := system_webhook cfg req in ret (WebhookReply r)) d).2).
Proof.
  pose proof (ss_webhook cfg (dp_engine d) req) as Hs. unfold zoom, bind.
  destruct (system_webhook cfg req (dp_engine d)) as [[r|e] e']; exact Hs.
Qed.

Lemma app_inside head route : inside (serve head route).
Proof.
  unfold app. destruct (hh_bodyParses head); cbn [negb]; [|apply inside_answer].
  destruct route; auto using inside_answer, inside_wrapped, inside_unwrapped, inside_limited, inside_bearer, inside_cookie,
    auth_step, suggestions_step, apply_keeps_store, dismiss_keeps_store, session_step, invalidate_step, webhook_step.
  { intros d. apply ss_elsewhere, same_refl. }
  assert (forall r, inside (binding_route config systemAccountUuid allowedHosts edition mirror r)) as Hb.
  { intros r. unfold binding_route. destruct (binding_wrapped r); auto using inside_wrapped, inside_unwrapped, binding_step. }
  destruct req; auto using inside_limited, inside_bearer.
Qed.

(** *** Histories *)

Abbreviation stepping := (serve_step config systemAccountUuid allowedHosts edition mirror).
Abbreviation reaching := (serve_reach config systemAccountUuid allowedHosts edition mirror).

Lemma after_reach e0 (o : Outcome * DP) :
  sys_reach cfg e0 (dp_engine o.2) ->
  sys_reach cfg e0 (dp_engine (after config systemAccountUuid edition mirror o)).
Proof.
  destruct o as [[r|ex] d]; cbn; [done|]. intros Hr. refine (sr_step _ _ _ _ Hr (ss_restart _ _)).
Qed.

Lemma step_reach e0 d d' : stepping d d' -> sys_reach cfg e0 (dp_engine d) -> sys_reach cfg e0 (dp_engine d').
Proof.
  intros Hs Hr. destruct Hs as [d head route|d|d e He|d ok|d which|d now|d].
  - apply after_reach. exact (sr_step _ _ _ _ Hr (app_inside head route d)).
  - apply after_reach. refine (sr_step _ _ _ _ Hr _). apply inside_unwrapped. intros d1. apply auth_step.
  - exact (sr_step _ _ _ _ Hr He).
  - done.
  - done.
  - done.
  - exact (sr_step _ _ _ _ Hr (ss_restart _ _)).
Qed.

(** C6: Whatever happens to the server - requests of any route with any
    headers, answered or ending the process, runs of the token refresher, of
    the database probe and of the pruning of limiters, the expiry of OAuth
    rows, restarts, and the engine's own steps - its engine goes through a history of the composed
    program of System: no endpoint but the webhook touches the queue, the
    dedup collection or the inflight collection.  So what SystemLedger proves
    of every reachable state holds of the server. *)
Theorem server_refines_system d0 d :
  reaching d0 d -> sys_reach cfg (dp_engine d0) (dp_engine d).
Proof.
  intros Hr. induction Hr as [|d d' Hr IH Hs]; [apply sr_refl|]. by eapply step_reach.
Qed.

(** ** Who may change what is stored *)

Definition same_creds (c c' : Creds Coll) : Prop :=
  credentials c' = credentials c /\ userCredentials c' = userCredentials c.

(** Bindings, cursors, mappings, records of events, the queue, the two
    systems, the credentials and the dismissed suggestions are as they were;
    the OAuth rows may differ. *)
Record same_but_states d d' : Prop := {
  sd_store : store (dp_engine d') = store (dp_engine d);
  sd_queue : world (dp_engine d') = world (dp_engine d);
  sd_huly : sy_huly (ext (dp_engine d')) = sy_huly (ext (dp_engine d));
  sd_gitlab : sy_gitlab (ext (dp_engine d')) = sy_gitlab (ext (dp_engine d));
  sd_creds : same_creds (dp_creds d) (dp_creds d');
  sd_dismissed : dp_dismissed d' = dp_dismissed d
}.

Definition same_data d d' : Prop := same_but_states d d' /\ dp_states d' = dp_states d.

Definition admin_route (route : Route) : bool :=
  match route with BindingRoute _ | PutAccessToken _ => true | _ => false end.

Definition user_route (route : Route) : bool :=
  match route with
  | UserOAuthStart _ _ _ | UserOAuthDelete _ | ApplySuggestion _ _ _ | DismissSuggestion _ _ _ => true
  | _ => false
  end.

(** What entitles a request to change stored data. *)
Inductive entitled head d : Route -> Prop :=
  | en_admin route :
      admin_route route = true -> hh_authorization head = Some ("Bearer " +:+ cf_ServerSecret config) ->
      entitled head d route
  | en_user route identity :
      user_route route = true ->
      requireHulyCookie (clock (cred_clock (dp_creds d))) (secrets config) (hh_cookie head) = Ok (inr identity) ->
      entitled head d route
  | en_webhook req oid b c :
      parseObjectId (rq_bindingId req) = Some oid ->
      findOne (fun x => bool_decide (bd_id x = oid)) (bindings (store (dp_engine d))) = Some b ->
      bd_disabled b = false ->
      (getCredential (encryption_key config) (bd_webhookSecretRef b) (dp_creds d)).1 = Ok (Some c) ->
      rq_token req = Some (cr_plaintext c) -> cr_plaintext c <> "" ->
      confidential_hook req = false -> confidential_payload req = false ->
      entitled head d (PostWebhook req)
  | en_callback query state row :
      nonempty_string (prop_of query "state") = Some state -> findOne (admin_row state) (dp_states d) = Some row ->
      entitled head d (OAuthCallback query)
  | en_user_callback query state row :
      nonempty_string (prop_of query "state") = Some state -> findOne (user_row state) (dp_states d) = Some row ->
      entitled head d (UserOAuthCallback query).

Lemma same_data_refl d : same_data d d.
Proof. split; [split|]; done. Qed.

Hint Resolve same_data_refl : core.

(** What an OAuth handler leaves of the rest. *)
Lemma auth_same (m : M (AuthState Coll Net) AuthReply) d :
  same_creds (dp_creds d) (au_creds (m (auth_of d)).2) -> same_but_states d (on_auth m d).2.
Proof.
  intros Hc. unfold on_auth, bind, zoom. destruct (m (auth_of d)) as [[r|e] a]; cbn in Hc |- *; by split.
Qed.

Lemma auth_states (m : M (AuthState Coll Net) AuthReply) d :
  dp_states (on_auth m d).2 = au_states (m (auth_of d)).2.
Proof. unfold on_auth, bind, zoom. by destruct (m (auth_of d)) as [[r|e] a]. Qed.

(** One that only ticks the clock, if anything. *)
Lemma auth_idle (m : M (AuthState Coll Net) AuthReply) d :
  same_creds (dp_creds d) (au_creds (m (auth_of d)).2) -> au_states (m (auth_of d)).2 = dp_states d ->
  same_data d (on_auth m d).2.
Proof. intros Hc Hs. split; [by apply auth_same|]. by rewrite auth_states. Qed.

Lemma unwrapped_state m d : (unwrapped m d).2 = (m d).2 :> DP.
Proof. unfold unwrapped. by destruct (m d) as [[r|e] d']. Qed.

Lemma wrapped_state m d : (wrapped m d).2 = (m d).2 :> DP.
Proof. unfold wrapped. by destruct (m d) as [[r|e] d']. Qed.

(** *** The webhook *)

Section WebhookRest.
Context (x : X) (c : Creds Coll).

Definition rest_same (h : Webhook.Http Coll X) : Prop := ext (engine h) = x /\ creds h = c.

Lemma rest_engine {B} (m : M (Engine Coll X) B) :
  preserves (fun e => ext e = x) m -> preserves rest_same (on_engine m).
Proof. intros Hm h [He Hc]. specialize (Hm _ He). unfold on_engine. by destruct (m (engine h)). Qed.

Lemma rest_count n : preserves rest_same (count_metric n).
Proof. by intros h Hh. Qed.

Lemma getCredential_reads key id : preserves (fun s => s = c) (getCredential key id).
Proof.
  unfold getCredential, cred_object_id, decryptValue. quiet_tac; by intros s Hs.
Qed.

Lemma rest_credential key id : preserves rest_same (Webhook.on_creds (X := X) (getCredential key id)).
Proof.
  intros h [He Hc]. unfold Webhook.on_creds. pose proof (getCredential_reads key id _ Hc) as Hk.
  by destruct (getCredential key id (creds h)).
Qed.

Lemma rest_store {B} (m : M (Store Coll) B) : preserves (fun e : Engine Coll X => ext e = x) (Engine.on_store m).
Proof. intros e He. unfold Engine.on_store. by destruct (m (store e)). Qed.

Lemma rest_clock : preserves (fun e : Engine Coll X => ext e = x) read_clock.
Proof. by intros e He. Qed.

Lemma rest_modify f : (forall e : Engine Coll X, ext (f e) = ext e) -> preserves (fun e => ext e = x) (modify f).
Proof. intros Hf. apply preserves_modify. intros e He. by rewrite Hf. Qed.

Hint Resolve rest_engine rest_count rest_credential rest_store rest_clock : quiet.

Lemma rest_enqueue b k r ev v : preserves (fun e : Engine Coll X => ext e = x) (enqueueWebhookEvent b k r ev v).
Proof.
  unfold enqueueWebhookEvent, enqueue_new_webhook_event, enqueue_entry. quiet_tac; try (by apply rest_modify); by intros e He.
Qed.

Hint Resolve rest_enqueue : quiet.

Lemma rest_accept req k ev v : preserves rest_same (accept_event req k ev v).
Proof. unfold accept_event, version_or_now. quiet_tac. Qed.

Hint Resolve rest_accept : quiet.

Lemma rest_webhook key req : preserves rest_same (webhook key req).
Proof.
  unfold webhook, event_uuid, drop_confidential, authorize, dispatch_hook, handle_issue,
    handle_merge_request, handle_pipeline, handle_note, handle_epic, drop_confidential.
  quiet_tac.
Qed.
End WebhookRest.

Lemma webhook_data head d req :
  same_data d (serve head (PostWebhook req) d).2 \/ entitled head d (PostWebhook req).
Proof.
  unfold app. destruct (hh_bodyParses head); cbn [negb]; [|by left]. rewrite wrapped_state. unfold zoom, bind.
  set (h0 := MkHttp (dp_engine d) (dp_creds d) (sy_metrics (ext (dp_engine d)))).
  pose proof (rest_webhook (ext (dp_engine d)) (dp_creds d) (encryption_key config) req h0 (conj eq_refl eq_refl)) as [Hx Hc].
  destruct (webhook_authorized (encryption_key config) req h0) as [[Hs Hw]|Hok].
  - left. unfold system_webhook. change (webhook (sc_encryptionKey cfg) req (MkHttp _ _ _)) with (webhook (encryption_key config) req h0).
    destruct (webhook (encryption_key config) req h0) as [[r|e] h]; cbn in *; split; try done;
      split; cbn; unfold same_creds, dp_creds; cbn; rewrite ?Hs, ?Hw, ?Hx, ?Hc; done.
  - right. destruct Hok as (oid & b & c & tok & H20 & H21 & H22 & H23 & H24 & H25 & -> & H26 & H27).
    by eapply en_webhook.
Qed.

(** *** The other routes *)

Lemma admin_data head d k route :
  admin_route route = true -> same_data d (bearer config head k d).2 \/ entitled head d route.
Proof.
  intros Hr. unfold bearer. destruct (requireBearer _ _) eqn:E; [|by left].
  right. apply requireBearer_spec in E. by apply en_admin.
Qed.

Lemma limited_data which head k d Q :
  (forall b n, let d' := MkDeployment (dp_engine d) (dp_states d) (dp_dismissed d) (dp_net d) (dp_graphql d) b (dp_health d) n in
     same_data d' (k d').2 \/ Q) ->
  same_data d (limited which head k d).2 \/ Q.
Proof.
  intros Hk. unfold limited. destruct (rateLimit _ _ _ _) as [[n|] b]; [left; by split|].
  destruct (Hk (set_buckets which b (dp_limits d)) (S (dp_readings d))) as [[[H1' H2' H3' H4' H5' H6'] H7']|HQ]; [left|by right].
  split; [split|]; assumption.
Qed.

Abbreviation acfg := (auth_config config allowedHosts).
Abbreviation no_user head d :=
  (exists r, requireHulyCookie (clock (cred_clock (dp_creds d))) (secrets config) (hh_cookie head) = Ok (inl r)).

Lemma cookie_data head d k route :
  user_route route = true -> (no_user head d -> same_data d (k d).2) ->
  same_data d (cookie_auth config head k d).2 \/ entitled head d route.
Proof.
  intros Hr Hk. unfold cookie_auth. destruct (requireHulyCookie _ _ _) as [[r|identity]|e] eqn:E; [left; by apply Hk; exists r| |by left].
  right. by eapply en_user.
Qed.

(** Without an identity the handlers answer what the middleware says. *)
Lemma no_identity head d (k : HulyUserIdentity -> M (AuthState Coll Net) AuthReply) :
  no_user head d -> same_data d (unwrapped (on_auth (with_identity acfg (hh_cookie head) k)) d).2.
Proof.
  intros [r E]. rewrite unwrapped_state. apply auth_idle; unfold with_identity, bind, Auth.on_creds, zoom; cbn; by rewrite E.
Qed.

Lemma no_suggestion_identity head d (k : HulyUserIdentity -> M (SuggestionState Coll Net) AuthReply) :
  no_user head d -> same_data d (unwrapped (on_suggestions (cookie_identity acfg (hh_cookie head) k)) d).2.
Proof.
  intros [r E]. rewrite unwrapped_state. unfold on_suggestions, cookie_identity, bind, Suggestions.on_auth, Auth.on_creds, zoom.
  cbn. rewrite E. by split; [split|].
Qed.

(** The status is read. *)
Definition auth_reads (c : Creds Coll) (rows : Coll OAuthStateDoc) (a : AuthState Coll Net) : Prop :=
  same_creds c (au_creds a) /\ au_states a = rows.

Lemma reads_creds c rows {B} (m : M (Creds Coll) B) :
  preserves (same_creds c) m -> preserves (auth_reads c rows) (Auth.on_creds m).
Proof. intros Hm a [Ha Hr]. specialize (Hm _ Ha). unfold Auth.on_creds, zoom. by destruct (m (au_creds a)). Qed.

Lemma now_same c : preserves (same_creds c) cred_now.
Proof. by intros s Hs. Qed.

Lemma getUserCredential_same c key w p u : preserves (same_creds c) (getUserCredential key w p u).
Proof. unfold getUserCredential, decryptValue. quiet_tac; by intros s Hs. Qed.

Hint Resolve reads_creds now_same getUserCredential_same : quiet.

Lemma status_reads ck q c rows : preserves (auth_reads c rows) (user_status (W := Net) acfg ck q).
Proof. unfold user_status, with_identity, checked_base, iso_or_throw. quiet_tac. Qed.

Lemma list_reads h q c rows : preserves (auth_reads c rows) (list_credentials (W := Net) acfg h q).
Proof. unfold list_credentials, resolver_list. quiet_tac. Qed.

Lemma reads_data (m : M (AuthState Coll Net) AuthReply) d :
  (forall c rows, preserves (auth_reads c rows) m) -> same_data d (unwrapped (on_auth m) d).2.
Proof. intros Hm. rewrite unwrapped_state. destruct (Hm (dp_creds d) (dp_states d) (auth_of d)) as [Hc Hs]; [done|]. by apply auth_idle. Qed.

(** The start of the administrators' flow stores its row and nothing else. *)
Lemma start_same query nonce v c :
  preserves (fun a : AuthState Coll Net => same_creds c (au_creds a)) (oauth_start acfg query nonce v).
Proof.
  assert (forall B (m : M (Creds Coll) B), preserves (same_creds c) m ->
    preserves (fun a : AuthState Coll Net => same_creds c (au_creds a)) (Auth.on_creds m)) as Hcr.
  { intros B m Hm a Ha. specialize (Hm _ Ha). unfold Auth.on_creds, zoom. by destruct (m (au_creds a)). }
  unfold oauth_start, checked_base, send_to_gitlab, store_state. quiet_tac; try (apply Hcr); try (by intros b Hb).
  intros b Hb. by destruct (insertOne _ _).
Qed.

Lemma callback_data query accept d :
  same_data d (unwrapped (on_auth (oauth_callback acfg query accept)) d).2 \/ 
  (exists state row, nonempty_string (prop_of query "state") = Some state /\ findOne (admin_row state) (dp_states d) = Some row).
Proof.
  rewrite unwrapped_state. destruct (nonempty_string (prop_of query "state")) as [state|] eqn:Es.
  - destruct (findOne (admin_row state) (dp_states d)) as [row|] eqn:Ef; [right; by exists state, row|left].
    apply auth_idle; unfold oauth_callback; rewrite Es; destruct (nonempty_string (prop_of query "code")); try done;
      unfold bind, find_state, gets, auth_of; cbv beta; cbn [au_states]; by rewrite Ef.
  - left. apply auth_idle; unfold oauth_callback; by rewrite Es.
Qed.

Lemma user_callback_data query accept d :
  same_data d (unwrapped (on_auth (user_callback acfg query accept)) d).2 \/ 
  (exists state row, nonempty_string (prop_of query "state") = Some state /\ findOne (user_row state) (dp_states d) = Some row).
Proof.
  rewrite unwrapped_state. destruct (nonempty_string (prop_of query "state")) as [state|] eqn:Es.
  - destruct (findOne (user_row state) (dp_states d)) as [row|] eqn:Ef; [right; by exists state, row|left].
    apply auth_idle; unfold user_callback; rewrite Es; destruct (nonempty_string (prop_of query "code")); try done;
      unfold bind, find_state, gets, auth_of; cbv beta; cbn [au_states]; by rewrite Ef.
  - left. apply auth_idle; unfold user_callback; by rewrite Es.
Qed.

(** A limited route behind a cookie. *)
Lemma limited_user which head k d route :
  user_route route = true -> (forall d', no_user head d' -> same_data d' (k d').2) ->
  same_data d (limited which head (cookie_auth config head k) d).2 \/ entitled head d route.
Proof.
  intros Hr Hk. apply limited_data. intros bs n. cbv zeta.
  set (d' := MkDeployment _ _ _ _ _ _ _ _). destruct (cookie_data head d' k route Hr (Hk d')) as [?|He]; [by left|right].
  destruct He; [by apply en_admin|by eapply en_user|by eapply en_webhook|by eapply en_callback|by eapply en_user_callback].
Qed.

Lemma invalidate_data head body d :
  same_data d (bearer config head (limited AdminRateLimit head (wrapped (invalidate_cache body))) d).2.
Proof.
  unfold bearer. destruct (requireBearer _ _); [|by split].
  destruct (limited_data AdminRateLimit head (wrapped (invalidate_cache body)) d False) as [?|[]]; [|done].
  intros bs n. left. by split.
Qed.

Lemma session_data head body d : same_data d (wrapped (post_session config head body) d).2.
Proof.
  rewrite wrapped_state. unfold post_session, bind, dp_now. by destruct (user_session _ _ _ _ _); split; [split|].
Qed.

Lemma token_data head body d :
  same_data d (unwrapped (on_auth (put_access_token acfg (hh_authorization head) body)) d).2 \/
  entitled head d (PutAccessToken body).
Proof.
  destruct (requireBearer (cf_ServerSecret config) (hh_authorization head)) eqn:E.
  - right. apply requireBearer_spec in E. by apply en_admin.
  - left. rewrite unwrapped_state. unfold put_access_token. cbn [sc_primary ac_secrets auth_config secrets]. rewrite E. by split.
Qed.

Lemma binding_data head req d :
  let k := match req with
           | MigrateMixinSplit id =>
               bearer config head (limited AdminRateLimit head
                 (binding_route config systemAccountUuid allowedHosts edition mirror (MigrateMixinSplit id)))
           | req => bearer config head (binding_route config systemAccountUuid allowedHosts edition mirror req)
           end in
  same_data d (k d).2 \/ entitled head d (BindingRoute req).
Proof. destruct req; by apply admin_data. Qed.

(** C5: Only an entitled request changes stored data: bindings, mappings,
    cursors, events and their queue, the two systems, credentials, dismissed
    suggestions and OAuth rows stay as they are unless the request carries the
    server's secret to an administrator's route, a valid cookie to a user's
    route, the secret of an enabled binding to the webhook (and nothing
    confidential), or the state of a stored row to an OAuth callback.  The one
    exception is the start of the administrators' OAuth flow, which anyone may
    call and which adds rows only. *)
Theorem request_authorized head route d :
  let d' := (serve head route d).2 in
  same_data d d' \/ entitled head d route \/
  ((exists query nonce v, route = OAuthStart query nonce v) /\ same_but_states d d').
Proof.
  cbv zeta. enough ((same_data d (serve head route d).2 \/ entitled head d route) \/
    (exists query nonce v, route = OAuthStart query nonce v) /\ same_but_states d (serve head route d).2) by tauto.
  destruct (hh_bodyParses head) eqn:Eb; [|left; left; unfold app; by rewrite Eb].
  destruct route as [up|req|req|body|q n v|q|q n v|q|q|body|b m sid|b m n|body|body|q]; [by do 2 left; unfold app; rewrite Eb|left; apply webhook_data|..];
    unfold app; rewrite Eb; cbn [negb].
  - left. apply binding_data.
  - left; left. apply invalidate_data.
  - right. split; [by exists q, n, v|]. rewrite unwrapped_state. apply auth_same.
    by apply (start_same q n v (dp_creds d) (auth_of d)).
  - left. destruct (callback_data q (hh_accept head) d) as [?|(state & row & ? & ?)]; [by left|right]. by eapply en_callback.
  - left. apply limited_user; [done|]. intros d'. apply no_identity.
  - left. destruct (user_callback_data q (hh_accept head) d) as [?|(state & row & ? & ?)]; [by left|right]. by eapply en_user_callback.
  - left; left. unfold cookie_auth. destruct (requireHulyCookie _ _ _); [apply reads_data; intros; apply status_reads|done].
  - left. apply cookie_data; [done|]. apply no_identity.
  - left. apply limited_user; [done|]. intros d'. apply no_suggestion_identity.
  - left. apply limited_user; [done|]. intros d'. apply no_suggestion_identity.
  - left; left. apply session_data.
  - left. apply token_data.
  - left; left. apply reads_data. intros; apply list_reads.
Qed.

(** ** A rejected promise ends the process *)

(** A rotation of a binding's secret that GitLab lets take the old hook away
    and then refuses, with the credentials [c1] the new secret is stored in. *)
Record refused_rotation head id newSecret d (b : BindingDoc) (c1 : Creds Coll) (net : Net) : Prop := {
  rr_parsed : hh_bodyParses head = true;
  rr_authorized : hh_authorization head = Some ("Bearer " +:+ cf_ServerSecret config);
  rr_binding : exists oid, parseObjectId id = Some oid /\
    findOne (fun x => bool_decide (bd_id x = oid)) (bindings (store (dp_engine d))) = Some b;
  rr_registered : bd_webhookRegistered b = true;
  rr_stored : rotateCredential (encryption_key config) (bd_webhookSecretRef b)
    (MkRotateCredentialInput newSecret None None) (dp_creds d) = (Ok tt, c1);
  rr_refused : exists hook cred url removed n1 reply text,
    let c := (MkGitLabClient (strip_trailing_slash (cf_GitLabBaseUrl config)) (cr_plaintext cred), None) in
    bd_webhookId b = Some hook /\
    (getCredential (encryption_key config) (bd_credentialRef b) (cred_now c1).2).1 = Ok (Some cred) /\
    validateGitLabBaseUrl allowedHosts (cf_GitLabBaseUrl config) = Ok url /\
    fetch (delete_hook_request c b hook) (dp_net d) = (Ok removed, n1) /\ hp_status removed = 204%Z /\
    fetch (create_hook_request c b (cf_PublicBaseUrl config) newSecret) n1 = (Ok reply, net) /\
    uncaught (hp_status reply) /\ hp_status reply <> 429%Z /\ hp_text reply = Ok text
}.

Lemma factory_run (s : LifeState Coll (Net * X)) ref cred url :
  (getCredential (encryption_key config) ref (lc_creds s)).1 = Ok (Some cred) ->
  validateGitLabBaseUrl allowedHosts (cf_GitLabBaseUrl config) = Ok url ->
  index_client_factory (encryption_key config) allowedHosts (cf_GitLabBaseUrl config) ref s =
    (Ok (MkGitLabClient (strip_trailing_slash (cf_GitLabBaseUrl config)) (cr_plaintext cred), None), s).
Proof.
  intros Hc Hu. pose proof (getCredential_reads (lc_creds s) (encryption_key config) ref (lc_creds s) eq_refl) as Hr.
  unfold index_client_factory, bind at 1, Lifecycle.on_creds, zoom.
  destruct (getCredential (encryption_key config) ref (lc_creds s)) as [r c]. cbn in Hc, Hr. subst.
  unfold bind, lift_res. rewrite Hu. by destruct s.
Qed.

(** C19: Rotating the secret of a registered binding ends the process when
    GitLab, having removed the old hook, answers the new registration with
    401, 403, 404 or a status from 500 on: the handler is not wrapped in
    [asyncHandler], so the request is never answered and the rejection is
    unhandled.  The new secret is stored, while the binding still claims to
    be registered under the hook that is gone. *)
Theorem rotation_stops_server head id newSecret d b c1 net :
  refused_rotation head id newSecret d b c1 net ->
  exists e d',
    serve head (BindingRoute (RotateSecret id newSecret)) d = (Crashed e, d') /\
    store (dp_engine d') = store (dp_engine d) /\ dp_net d' = net /\ same_creds c1 (dp_creds d').
Proof.
  intros [Hp Ha (oid & Hoid & Hb) Hreg Hrot (hook & cred & url & removed & n1 & reply & text & Hh & Hc & Hu & Hd & H204 & Hn & Hun & H429 & Ht)].
  cbv zeta in *. unfold app. rewrite Hp. cbn [negb]. unfold bearer. rewrite (proj2 (requireBearer_spec _ _) Ha).
  set (s1 := MkLifeState (store (dp_engine d)) (cred_now c1).2 (dp_net d, ext (dp_engine d)) (dp_readings d)
               (sy_metrics (ext (dp_engine d)))).
  pose proof (factory_run s1 (bd_credentialRef b) cred url Hc Hu) as Hf.
  destruct (rotation_loses_hook _ b newSecret (cf_PublicBaseUrl config) hook _ s1 s1 removed (n1, ext (dp_engine d))
    reply (net, ext (dp_engine d)) text Hh Hf) as (e & s' & E & Hst & Hw & Hcr); try done.
  { cbn. unfold zoom. cbn. by rewrite Hd. }
  { cbn. unfold zoom. cbn. by rewrite Hn. }
  assert (rotate_secret (router_deps config systemAccountUuid allowedHosts edition mirror) id newSecret (life_of d) = (Throw e, s')) as Er.
  { unfold rotate_secret, with_binding. rewrite Hoid.
    erewrite bind_ok.
    2: { unfold Lifecycle.on_store, zoom, getBinding, with_object_id. rewrite (parseObjectId_new _ _ Hoid). cbn. by rewrite Hb. }
    cbv beta iota. erewrite bind_ok.
    2: { unfold Lifecycle.on_creds, zoom. cbn [lc_creds life_of br_encryptionKey router_deps]. by rewrite Hrot. }
    erewrite bind_ok by reflexivity. apply bind_throw. rewrite Hreg, Hh. cbn [br_lifecycle br_publicBaseUrl router_deps].
    apply bind_throw. exact E. }
  exists e, (set_life s' d). split; [|split_and!].
  - unfold binding_route, unwrapped, on_life. cbn [binding_wrapped handle]. unfold bind, zoom. by rewrite Er.
  - cbn. by rewrite Hst.
  - cbn. by rewrite Hw.
  - unfold dp_creds. cbn. by rewrite Hcr.
Qed.
End Refinement.
