(* ===== verification/HttpServerExamples.v ===== *)
(** * A small server

    A deployment of the whole server with one binding, whose GitLab removes
    hooks and refuses new ones; the theorems of HttpServerProofs at it. *)

From S2P Require Import Prelude JsMap JsString JsVal Metrics Platform Conflict Breaker Queue.
From S2P Require Import Mongo Store Credentials Ids StatusMap Huly Caches Engine Sync BindingLoader.
From S2P Require Import TxSubscriber FieldSync Issues MergeRequests Notes Reviews Epics Pipeline.
From S2P Require Import SyncToy MergeRequestsExamples NotesProofs ReviewsProofs EpicsProofs.
From S2P Require Import Backfill Webhook RateLimit BaseUrl GitLabMaps GitLabClient GitLabGraphQL GitLabClientProofs.
From S2P Require Import Lifecycle LifecycleProofs BindingApi BindingApiProofs Migrations Cookies Auth.
From S2P Require Import TokenRefresh OAuth OAuthProofs Suggestions Config.
From S2P Require Import ManagersQuiet System SystemProofs SystemLedger TokenBucket HttpServer HttpServerProofs.
Open Scope nat_scope.
Open Scope string_scope.
Open Scope list_scope.

Definition pod_config : Config :=
  MkConfig (Some 3600%Z) "https://pod" "https://accounts" "admin-secret" None "gitlab-service" "mongodb://db" "huly-gitlab"
    "https://git.example.org" "app" "app-secret" "key" "seed" ["*"] (Some 300000%Z) (Some 25%Z) "info" "" "https://pod/oauth/callback"
    [] None None.

Abbreviation ToyServer :=
  (Deployment (Coll := list) (HU := list HulyDoc) (GL := ToyGitLab) (A := unit) (W := nat) (Net := Server)).

Definition hooks_url : string := "https://git.example.org/api/v4/projects/42/hooks".

(** The credential is the binding's and its webhook secret at once. *)
Definition pod_creds : Creds list :=
  (putCredential (P := hook_platform) "key" (MkPutCredentialInput CkWebhookSecret "s3cret" None None None None) empty_creds).2.

Definition pod_server (status : Z) : ToyServer :=
  MkDeployment
    (MkEngine [] (set_bindings [hooked_binding] empty_store) [] (init 1000)
       (MkSyncState [] [] (MkServices tt pod_creds new_loader (MkOutside 0 (MkPod [] false [] [])))
          new_label_cache new_milestone_cache [] [] [] 0) 0 0)
    [] [] (MkServer [(hooks_url +:+ "/9", Fails 204); (hooks_url, Fails status)] [])
    [] (MkLimits [] [] []) (MkHealth false None) 0.

Definition admin_head : HttpHead := MkHead (Some "10.0.0.1") (Some "Bearer admin-secret") None None true.

Abbreviation pod_serve := (app (P := hook_platform) (NC := toy_crypto) pod_config "system" (Some ".example.org") (fun _ => None) None).

Definition rotated_creds : Creds list :=
  (rotateCredential "key" "oid-0" (MkRotateCredentialInput "new" None None) pod_creds).2.

Definition rotate_route : HttpServer.Route := BindingRoute (RotateSecret "aaaaaaaaaaaaaaaaaaaaaaaa" "new").

Example rotation_runs :
  (pod_serve admin_head rotate_route (pod_server 503)).1 = Crashed (GitLabApiError 503 "GitLab API error 503: ").
Proof. vm_compute. reflexivity. Qed.

Lemma pod_refuses :
  refused_rotation (P := hook_platform) pod_config (Some ".example.org") admin_head "aaaaaaaaaaaaaaaaaaaaaaaa" "new"
    (pod_server 503) hooked_binding rotated_creds (dp_net (pod_server 503)).
Proof.
  split; try reflexivity.
  - exists "aaaaaaaaaaaaaaaaaaaaaaaa". split; reflexivity.
  - exists 9%Z, (MkCredentialResult "new" CkWebhookSecret None None), (MkURL "https:" "" "" "git.example.org"),
      (empty_reply 204), (dp_net (pod_server 503)), (empty_reply 503), "".
    split_and!; try reflexivity; try done. right; right; right. done.
Qed.

Lemma rotation_stops_server_witness :
  exists e d', pod_serve admin_head rotate_route (pod_server 503) = (Crashed e, d') /\
    store (dp_engine d') = store (dp_engine (pod_server 503)) /\ dp_creds d' <> pod_creds.
Proof.
  destruct (rotation_stops_server (P := hook_platform) (NC := toy_crypto) pod_config "system" (Some ".example.org") (fun _ => None)
    None admin_head "aaaaaaaaaaaaaaaaaaaaaaaa" "new" (pod_server 503) hooked_binding rotated_creds _ pod_refuses)
    as (e & d' & E & Hs & _ & Hc & _).
  exists e, d'. split; [exact E|]. split; [exact Hs|]. intros Heq. rewrite Heq in Hc. by vm_compute in Hc.
Defined.

(** A request that ends the process, and the process that follows it. *)
Definition pod_after : ToyServer :=
  after (P := hook_platform) pod_config "system" (fun _ => None) None (pod_serve admin_head rotate_route (pod_server 503)).

Lemma server_refines_system_witness :
  sys_reach (P := hook_platform) (system_config pod_config "system" (fun _ => None) None) (dp_engine (pod_server 503))
    (dp_engine pod_after) /\ jkeys (managers (dp_engine pod_after)) = sync_kinds.
Proof.
  split; [|vm_compute; reflexivity].
  apply (server_refines_system (P := hook_platform) (NC := toy_crypto) pod_config "system" (Some ".example.org") (fun _ => None) None).
  apply (sv_step _ _ _ _ _ _ (pod_server 503) _ (sv_refl _ _ _ _ _ _)).
  exact (sv_request _ _ _ _ _ (pod_server 503) admin_head rotate_route).
Defined.

(** Without the secret the same request changes nothing. *)
Example stranger_refused :
  pod_serve (MkHead (Some "10.0.0.9") (Some "Bearer guess") None None true) rotate_route (pod_server 503) =
    (Answered (ApiReply (api_error_json 401 "Unauthorized")), pod_server 503).
Proof. vm_compute. reflexivity. Qed.
